(* ===== verification/_CoqProject ===== *)
-Q . S2P
Prelude.v
FastCollections.v
ConsensusRules.v
Consensus.v
Gas.v
TransactionSorter.v
TransactionSorterFacts.v
PluginData.v
PluginLoader.v
PluginRegistry.v
PluginRegistryFacts.v
PluginOpcodes.v
HeaderValidator.v
Reorg.v
ReorgFacts.v
ChainObserver.v
StorageRevert.v
BlockIndexer.v
BlockIndexerFacts.v
BlockIndexerOrder.v
BlockIndexerProgress.v
Evaluation.v
Evaluator.v
EvaluatorFacts.v
TransactionSafety.v
TransactionWords.v
BlockState.v
PointerRepository.v
VMManager.v
VMManagerFacts.v
BlockStorage.v
BlockTransactions.v
MLDSA.v
MLDSAFacts.v
MLDSAMetadata.v
TransactionParsing.v
TransactionParsingFacts.v
Block.v
BlockFacts.v
Epochs.v
EpochManager.v
EpochFacts.v
EpochChain.v
WitnessManager.v
WitnessFacts.v
WitnessTrust.v
PeerProtocol.v
Encryptem.v
PeerServer.v
PeerServerFacts.v
PeerClient.v
PeerHandshake.v
PeerNode.v
PeerAddresses.v
PeerExamples.v
PeerManager.v
PeerManagerFacts.v
PeerSharing.v
WebSocketProtocol.v
WebSocketClient.v
WebSocketClientFacts.v
WebSocketServer.v
WebSocketFacts.v
WebSocketSafety.v
WebSocketAnswers.v
WebSocketExamples.v
Configuration.v
ConfigurationFacts.v
