(* ===== verification/Prelude.v ===== *)
(** * OP_NET node: verification development

    This library models the core of opnet-node, the indexer and contract host of
    the OP_NET metaprotocol on Bitcoin, and proves what makes it correct.  Paths
    are relative to src/src/src/.

    ** The program and its parts

    A node follows the Bitcoin chain (ChainObserver), fetches and executes its
    blocks in order (BlockIndexer and its tasks), orders the transactions of a
    block (TransactionSorter), runs their contracts in a native runtime
    (ContractEvaluator, ContractEvaluation, GasTracker) over a storage kept by
    VMManager, saves the storage of every block with Merkle proofs, signs the
    block with a checksum (ChecksumMerkle, BlockHeaderValidator), and when the
    chain is reorganised (ReorgWatchdog) purges what it stored above the last
    good block (VMMongoStorage and the repositories).  What it does at a height
    is set by a consensus version (OPNetConsensus, ConsensusTracker).  Plugins
    are loaded from files (PluginLoader), tracked by a registry in dependency
    order (PluginRegistry) and given WebSocket opcodes (PluginOpcodeRegistry).
    Clients query the node and subscribe to its blocks and epochs over a
    WebSocket protocol (WebSocketManager, ProtocolHandler, WebSocketClient).  All
    of it is set by a configuration that is checked when it is loaded
    (BtcIndexerConfigLoader).

    ** Conventions

    A method is a function with the name of the method; state it changes is
    passed in and returned.  [result E A] is a call that returns or throws,
    [stx S E A] one that also changes a state [S], which keeps its changes when it
    throws.  JavaScript objects and [Map]s used as maps are association lists in
    insertion order ([JsMap]); maps of @btc-vision/transaction, which have an
    order of their own, are the class [MapLib].  Integers are BigInts, hence [Z].
    What is not in the repository (the Bitcoin RPC client, MongoDB, the native
    runtime, rust-merkle-tree, protobufjs, semver, the address and hash
    functions) is an argument, and its documented laws are classes or
    hypotheses: [MerkleLaws], [VMHostLaws], the laws of the priority queue and of
    the checksum tree.  Each has an instance, so that the theorems are applied to
    concrete inputs (the lemmas called [..._witness]).

    ** Files

    Shared: this file (outcomes, state passing, [JsMap], [JsSet], the library of
    addresses [BtcLib], lemmas and tactics).

    Collections and configuration.  FastCollections: utils/fast.  ConsensusRules:
    vm/consensus/ConsensusRules.ts.  Consensus: poc/configurations and
    consensus/ConsensusTracker.ts.  Configuration, ConfigurationFacts:
    config/BtcIndexerConfigLoader.ts, its defaults, its checks and its merge.

    Gas and order.  Gas: BlockGasPredictor, GasTracker, calculateMaxGas.
    TransactionSorter, TransactionSorterFacts: transaction-sorter.

    Plugins.  PluginData, PluginLoader, PluginRegistry, PluginRegistryFacts,
    PluginOpcodes: plugins/interfaces, loader, registry, api/websocket.

    The chain.  HeaderValidator: ChecksumMerkle.ts and BlockHeaderValidator.ts.
    Reorg, ReorgFacts: ReorgWatchdog.ts.  ChainObserver: ChainObserver.ts.
    StorageRevert: revertDataUntilBlock and the deletions of the repositories.
    BlockIndexer: BlockIndexer.ts and IndexingTask.ts as interleaved steps, one
    from each await to the next; BlockIndexerFacts (mutual exclusion),
    BlockIndexerOrder (order of the stored blocks), BlockIndexerProgress
    (liveness).

    Contracts.  Evaluation: ContractEvaluation.ts and AddressStack.ts, with the
    state the calls of a transaction share.  Evaluator: ContractEvaluator.ts; a
    contract is a [session], whatever it asks of the node in whatever order.
    EvaluatorFacts: what every request keeps.  TransactionSafety: the theorems on
    a transaction.

    Storage.  BlockState: MerkleTree.ts, StateMerkleTree.ts,
    ReceiptMerkleTree.ts.  PointerRepository: ContractPointerValueRepository.ts.
    VMManager: VMManager.ts and VMBitcoinBlock.ts.  VMManagerFacts: the caches.
    BlockStorage: the storage across the transactions of a block and across
    blocks.  BlockTransactions: the transactions run over that storage.

    Blocks.  MLDSA, MLDSAFacts: the links of Bitcoin keys to ML-DSA keys, of
    VMManager.ts, SharedInteractionParameters.ts and
    MLDSAPublicKeysRepository.ts.  MLDSAMetadata: vm/mldsa.
    TransactionParsing, TransactionParsingFacts: the transaction factory and the
    parsers of interactions and deployments.  TransactionWords: the pointers a
    transaction stores at.  Block, BlockFacts: Block.ts, from the raw
    transactions of a block to their execution one after the other.

    Epochs.  Epochs: EpochValidator.ts, EpochDifficultyConverter.ts and
    EpochMerkleTree.ts.  EpochManager: EpochManager.ts, EpochReindexer.ts, the
    submissions of Block.ts, and the collections they use.  EpochFacts: the
    difficulty, the winner, the tree.  EpochChain: the epochs as the blocks are
    indexed.

    Witnesses.  WitnessManager: BlockWitnessManager.ts, OPNetIdentity.ts and the
    validation of headers of BitcoinRPCThread.ts, as interleaved steps.
    WitnessFacts: the limits, and that it comes to rest.  WitnessTrust: what is
    saved is signed and proved.

    Peers.  PeerProtocol: the packets, the opcodes and the two phases of the
    protocol.  Encryptem: poc/networking/encryptem.  PeerServer, PeerServerFacts:
    the side that authenticates a peer (AuthenticationManager.ts,
    ServerPeerNetworking.ts, shared/managers).  PeerClient: the side that
    authenticates to it.  PeerHandshake: both sides over an ordered network.
    PeerNode: OPNetPeer.ts, which joins them.  PeerAddresses:
    AddressExtractor.ts.  PeerManager: P2PManager.ts and PeerChecker.ts.
    PeerManagerFacts: who is refused.  PeerSharing: which peers are shared and
    dialed, which transactions are relayed.  PeerExamples: instances of sodium and
    protobuf, and what the handshake lets through.

    WebSocket API (api/websocket).  WebSocketProtocol: types, packets,
    OpcodeRegistry.ts and the table of HandlerRegistry.ts.  WebSocketClient,
    WebSocketClientFacts: WebSocketClient.ts, its rate and its queue.
    WebSocketServer: ProtocolHandler.ts, WebSocketManager.ts and the
    subscriptions of HandlerRegistry.ts, as interleaved steps: a request waits
    for its handler, whose answer is an event.  WebSocketFacts: what every step
    keeps of the clients.  WebSocketSafety: what holds in every run.
    WebSocketAnswers: what is sent back and what is pushed.  WebSocketExamples: a
    server with a simple encoding.

    ** What the theorems show

    - The indexer stores the blocks in order, one at a time, and catches up with
      the chain; a revert leaves the database as it was at the height.
    - A transaction is atomic: a failed call anywhere in it reverts it, and a
      reverted transaction changes nothing.  Its contracts see a memory, its
      calls end, its result reports its storage, and its gas is within its fee.
    - The storage is a memory across the transactions of a block and across
      blocks, whatever the caches and the database do in between; what is saved
      is proved against the root that is in the header.
    - The interface between these two: [VMHost] is what a transaction asks of the
      node, [VMHostLaws] what it relies on; [manager_host] is the manager's
      implementation and [manager_host_laws] discharges the laws.
    - A block keeps each raw transaction that a parser accepts, once and as the
      kind its parsers decide, and no other; it executes all those of OP_NET in
      order, whatever they do, its storage is the fold of their results and its
      gas the sum of theirs.  A script is parsed exactly when it has the layout of
      its kind, and a transaction that is accepted has the version, the hashes
      and the challenge it must, and the reward and the fees its outputs pay.
    - Links of keys are permanent and one to one, and the address a transaction is
      from is linked to its sender.
    - An epoch is closed by the first block after it, and never fails to be,
      whatever the blocks hold and whenever witnesses come; its winner is the best
      of the submissions, which are checked when they are saved; its tree proves
      what it exports, and a block accepts the solutions of closed epochs only.
    - A witness is saved only when it is signed over a header of this node; the
      checks of witnesses stay within their limits and come to rest.
    - A session with a peer opens only after the peer answered the challenge with
      its key, and two honest peers do open one and understand each other; a peer
      that offends is refused until its entry is purged; the peers that are shared
      are authenticated and have public addresses.
    - A WebSocket client reaches a handler only after its handshake and within
      its limits; its pending requests are those that wait for a handler; the
      answer to a request carries its id; a client that subscribed is told once
      of every block and epoch, and one that did not is not told.
    - A configuration that loads has settings of the types of their defaults, but
      for those of two explicit lists.
    - Headers are accepted when their checksum verifies and extends the chain;
      the watchdog reverts to the highest block the network agrees on.
    - Ordering the transactions of a block keeps them all, rewards first and
      parents before children; the base gas stays above its floor; loading plugins
      follows their dependencies; parsing plugin files accepts their layout only.

    ** Bounds and fuel

    Calls of contracts recurse with a fuel; a transaction is run with
    [VMManager.call_fuel], one more than the calls and deployments the consensus
    allows to be nested, and TransactionSafety proves that any fuel above
    [room] gives the same result, and BlockTransactions that a transaction never
    runs out of it.  Other loops are structural or carry a measure with their own
    proofs of termination (the search of the watchdog, the depth-first searches
    of the registry, the traversal of the sorter).

    ** Not modelled

    The native contract runtime, MongoDB and Bitcoin RPC themselves; the
    streams of libp2p and the construction of its node, the HTTP server and its
    routes, the sockets themselves, worker threads, the SSH console and the
    reading of the configuration file, which are input and output.  The handlers
    of the WebSocket API forward to the routes, so that what they answer is an
    event of the model.  The script decoder, the hashes and the binary reader the parser of
    transactions uses are those of other packages, and the class [TxLib].  Within the modelled parts: logging, timing, the
    serialisation of inputs and outputs for the runtime, the simulations of
    [VMManager.execute], the caches of contract code and addresses, and the
    resync mode of the indexer.  [PluginContext] and the plugin APIs forward calls
    after permission checks.

    What is left to model, in the order of what it would add: the block
    synchronisation with its script classifier, the plugin validator, hook
    dispatcher and workers, the mempool, the decoding of JSON-RPC requests, and
    the queries of the database. *)

From Stdlib Require Export ZArith Lia Permutation Ascii.
From stdpp Require Export prelude gmap strings list fin_maps sorting pretty.

#[global] Open Scope list_scope.

#[global] Open Scope Z_scope.

Declare Scope js_scope.
Delimit Scope js_scope with js.

(** ** Outcomes of JavaScript code

    A call either returns a value or throws.  The thrown values of a component
    are an inductive type of that component. *)

Inductive result (E A : Type) : Type :=
| Ok (a : A)
| Throw (e : E).
Arguments Ok {E A} a.
Arguments Throw {E A} e.

#[export] Instance result_ret {E} : MRet (result E) := fun A a => Ok a.
#[export] Instance result_bind {E} : MBind (result E) :=
  fun A B k c => match c with Ok a => k a | Throw e => Throw e end.
#[export] Instance result_fmap {E} : FMap (result E) :=
  fun A B f c => match c with Ok a => Ok (f a) | Throw e => Throw e end.

Definition is_ok {E A} (r : result E A) : bool :=
  match r with Ok _ => true | Throw _ => false end.

(** Code that mutates an object and may throw: the mutations made before the
    throw stay, so the state is returned on both paths. *)

Definition stx (S E A : Type) : Type := S → S * result E A.

#[export] Instance stx_ret {S E} : MRet (stx S E) := fun A a s => (s, Ok a).
#[export] Instance stx_bind {S E} : MBind (stx S E) :=
  fun A B k c s =>
    match c s with
    | (s', Ok a) => k a s'
    | (s', Throw e) => (s', Throw e)
    end.

Definition sget {S E} : stx S E S := fun s => (s, Ok s).
Definition sput {S E} (s' : S) : stx S E unit := fun _ => (s', Ok tt).
Definition smod {S E} (f : S → S) : stx S E unit := fun s => (f s, Ok tt).
Definition sthrow {S E A} (e : E) : stx S E A := fun s => (s, Throw e).
Definition slift {S E A} (r : result E A) : stx S E A := fun s => (s, r).
Definition srun {S E A} (c : stx S E A) (s : S) : S * result E A := c s.

(** A [for ... of] loop over a list, with early exit on a throw. *)

Fixpoint sfor {S E A} (l : list A) (body : A → stx S E unit) : stx S E unit :=
  match l with
  | [] => mret tt
  | x :: l' => _ ← body x; sfor l' body
  end.

(** [Array.map] with a function that may throw. *)
Fixpoint rmap {E A B} (f : A → result E B) (l : list A) : result E (list B) :=
  match l with
  | [] => Ok []
  | x :: l' => y ← f x; ys ← rmap f l'; Ok (y :: ys)
  end.

(** The loop over a pure fallible body with an accumulator. *)
Fixpoint rfold {E A B} (f : B → A → result E B) (b : B) (l : list A) : result E B :=
  match l with
  | [] => Ok b
  | x :: l' => b' ← f b x; rfold f b' l'
  end.

(** [Array.prototype.sort] by a number: a stable sort. *)

Fixpoint sort_by_insert {A} (key : A → Z) (x : A) (l : list A) : list A :=
  match l with
  | [] => [x]
  | y :: l' => if decide (key x ≤ key y) then x :: y :: l' else y :: sort_by_insert key x l'
  end.

Definition sort_by {A} (key : A → Z) (l : list A) : list A := foldr (sort_by_insert key) [] l.

Lemma sort_by_insert_perm {A} (key : A → Z) x l : sort_by_insert key x l ≡ₚ x :: l.
Proof. induction l as [|y l IH]; cbn; [done|]. case_decide; [done|]. by rewrite IH, Permutation_swap. Qed.

Lemma sort_by_permutes {A} (key : A → Z) l : sort_by key l ≡ₚ l.
Proof. induction l as [|x l IH]; [done|]. change (sort_by_insert key x (sort_by key l) ≡ₚ x :: l). by rewrite sort_by_insert_perm, IH. Qed.

Lemma sort_by_insert_sorted {A} (key : A → Z) x l :
  StronglySorted (fun a b => key a ≤ key b) l → StronglySorted (fun a b => key a ≤ key b) (sort_by_insert key x l).
Proof.
  induction 1 as [|y l Hl IH Hy]; cbn; [by repeat constructor|]. case_decide as Hxy.
  - constructor; [by constructor|]. constructor; [done|]. eapply Forall_impl; [exact Hy|]. cbn. lia.
  - constructor; [done|]. rewrite sort_by_insert_perm. constructor; [lia|done].
Qed.

Lemma sort_by_sorted {A} (key : A → Z) l : StronglySorted (fun a b => key a ≤ key b) (sort_by key l).
Proof. induction l as [|x l IH]; [constructor|]. by apply sort_by_insert_sorted. Qed.

Lemma sort_by_id {A} (key : A → Z) l : StronglySorted (fun a b => key a ≤ key b) l → sort_by key l = l.
Proof.
  induction 1 as [|y l Hl IH Hy]; [done|]. change (sort_by_insert key y (sort_by key l) = y :: l). rewrite IH. destruct l as [|z l]; [done|]. cbn.
  apply Forall_cons in Hy as [Hz _]. by rewrite decide_True.
Qed.

(** ** BigInt arithmetic

    [a / b] on BigInt truncates toward zero ([Z.quot]) and throws a RangeError
    when [b] is [0n]. *)

Definition bdiv {E} (range_error : E) (a b : Z) : result E Z :=
  if decide (b = 0) then Throw range_error else Ok (Z.quot a b).

Definition bmax (a b : Z) : Z := if decide (b < a) then a else b.
Definition bmin (a b : Z) : Z := if decide (a < b) then a else b.

(** Truthiness of an optional reference and of a BigInt. *)

Definition truthy_big (z : Z) : bool := bool_decide (z ≠ 0).
Definition truthy_str (s : string) : bool := negb (String.eqb s "").
Definition truthy_ostr (s : option string) : bool :=
  match s with Some s' => truthy_str s' | None => false end.

(** [String.prototype.split] on a character. *)
Fixpoint split_on (c : Ascii.ascii) (s : string) : list string :=
  match s with
  | EmptyString => [EmptyString]
  | String a s' =>
      if decide (a = c) then EmptyString :: split_on c s'
      else match split_on c s' with
           | part :: rest => String a part :: rest
           | [] => [String a EmptyString]
           end
  end.

(** [a < b] on strings *)
Fixpoint string_lt (a b : string) : bool :=
  match a, b with
  | _, EmptyString => false
  | EmptyString, String _ _ => true
  | String c a, String d b =>
      if decide (c = d) then string_lt a b else bool_decide (nat_of_ascii c < nat_of_ascii d)%nat
  end.

(** ** JavaScript [Map] and [Set]: insertion-ordered, keyed by [===] *)

Module JsMap.
Section JsMap.
Context {K V : Type} `{EqDecision K}.

Definition t : Type := list (K * V).

Fixpoint get (m : list (K * V)) (k : K) : option V :=
  match m with
  | [] => None
  | (k', v) :: m' => if decide (k = k') then Some v else get m' k
  end.

Definition has (m : list (K * V)) (k : K) : bool :=
  match get m k with Some _ => true | None => false end.

(** Setting an existing key keeps its position; a new key goes last. *)
Fixpoint set (m : list (K * V)) (k : K) (v : V) : list (K * V) :=
  match m with
  | [] => [(k, v)]
  | (k', v') :: m' =>
      if decide (k = k') then (k', v) :: m' else (k', v') :: set m' k v
  end.

Fixpoint del (m : list (K * V)) (k : K) : list (K * V) :=
  match m with
  | [] => []
  | (k', v') :: m' => if decide (k = k') then del m' k else (k', v') :: del m' k
  end.

Definition keys (m : list (K * V)) : list K := m.*1.
Definition values (m : list (K * V)) : list V := m.*2.

Definition of_list (l : list (K * V)) : list (K * V) :=
  foldl (fun m kv => set m kv.1 kv.2) [] l.

(** A map has each key once. *)
Definition wf (m : list (K * V)) : Prop := NoDup (keys m).

Lemma get_set_eq m k v : get (set m k v) k = Some v.
Proof. induction m as [|[k' v'] m IH]; simpl; repeat (case_decide; simpl); naive_solver. Qed.

Lemma get_set_ne m k k' v : k ≠ k' → get (set m k v) k' = get m k'.
Proof.
  intros Hne. induction m as [|[k0 v0] m IH]; simpl;
    repeat (case_decide; simpl); naive_solver.
Qed.

Lemma get_set m k k' v :
  get (set m k v) k' = if decide (k = k') then Some v else get m k'.
Proof. case_decide; subst; auto using get_set_eq, get_set_ne. Qed.

Lemma get_del_eq m k : get (del m k) k = None.
Proof. induction m as [|[k' v'] m IH]; simpl; repeat (case_decide; simpl); naive_solver. Qed.

Lemma get_del_ne m k k' : k ≠ k' → get (del m k) k' = get m k'.
Proof.
  intros Hne. induction m as [|[k0 v0] m IH]; simpl;
    repeat (case_decide; simpl); naive_solver.
Qed.

Lemma elem_of_keys m k : k ∈ keys m ↔ is_Some (get m k).
Proof.
  unfold keys. induction m as [|[k' v'] m IH]; csimpl.
  - split; [by intros ?%elem_of_nil|by intros [? ?]].
  - rewrite elem_of_cons, IH. case_decide; naive_solver.
Qed.

Lemma has_spec m k : has m k = true ↔ k ∈ keys m.
Proof. rewrite elem_of_keys. unfold has. destruct (get m k); naive_solver. Qed.

Lemma get_elem_of m k v : get m k = Some v → (k, v) ∈ m.
Proof.
  induction m as [|[k' v'] m IH]; simpl; [done|].
  case_decide; [naive_solver left|]. intros. right. auto.
Qed.

Lemma elem_of_get m k v : wf m → (k, v) ∈ m → get m k = Some v.
Proof.
  unfold wf, keys. induction m as [|[k' v'] m IH]; csimpl.
  - by intros _ ?%elem_of_nil.
  - intros [Hni Hnd]%NoDup_cons [Heq|Hin]%elem_of_cons.
    + simplify_eq. by rewrite decide_True.
    + rewrite decide_False; auto. intros ->. apply Hni.
      apply list_elem_of_fmap. by exists (k', v).
Qed.

Lemma keys_set m k v :
  keys (set m k v) = if has m k then keys m else keys m ++ [k].
Proof.
  unfold has, keys. induction m as [|[k' v'] m IH]; csimpl; [done|].
  case_decide; csimpl; [done|]. rewrite IH. by destruct (get m k).
Qed.

Lemma set_new m k v : get m k = None → set m k v = m ++ [(k, v)].
Proof.
  induction m as [|[k' v'] m IH]; simpl; [done|].
  case_decide; [done|]. intros. by rewrite IH.
Qed.

Lemma keys_del m k : keys (del m k) = filter (.≠ k) (keys m).
Proof.
  unfold keys. induction m as [|[k' v'] m IH]; csimpl; [done|].
  rewrite filter_cons. repeat case_decide; subst; csimpl; try done; by rewrite IH.
Qed.

Lemma del_not_in m k : k ∉ keys m → del m k = m.
Proof.
  unfold keys. induction m as [|[k' v'] m IH]; csimpl; [done|].
  intros [Hne Hni]%not_elem_of_cons. rewrite decide_False by done. by rewrite IH.
Qed.

Lemma wf_nil : wf [].
Proof. constructor. Qed.

Lemma wf_set m k v : wf m → wf (set m k v).
Proof.
  unfold wf. rewrite keys_set. destruct (has m k) eqn:Hh; [done|].
  intros Hnd. apply NoDup_app. split; [done|]. split; [|apply NoDup_singleton].
  intros x Hx ->%list_elem_of_singleton. apply has_spec in Hx. congruence.
Qed.

Lemma wf_del m k : wf m → wf (del m k).
Proof. unfold wf. rewrite keys_del. apply NoDup_filter. Qed.

Lemma wf_of_list l : wf (of_list l).
Proof.
  unfold of_list. generalize wf_nil. generalize (@nil (K * V)).
  induction l as [|[k v] l IH]; simpl; auto using wf_set.
Qed.

Lemma foldl_set_new m l (f : K → V) :
  NoDup l → (∀ k, k ∈ l → get m k = None) →
  foldl (fun m k => set m k (f k)) m l = m ++ ((fun k => (k, f k)) <$> l).
Proof.
  revert m. induction l as [|k l IH]; intros m Hnd Hm; [by rewrite app_nil_r|].
  apply NoDup_cons in Hnd as [Hk Hnd]. cbn [foldl]. rewrite IH; [|done|].
  - rewrite set_new by (apply Hm; left). by rewrite <-app_assoc.
  - intros k' Hk'. rewrite get_set_ne by (by intros ->). apply Hm. by right.
Qed.

Lemma foldl_set_app m l :
  NoDup (keys (m ++ l)) → foldl (fun m kv => set m kv.1 kv.2) m l = m ++ l.
Proof.
  revert m. induction l as [|[k v] l IH]; intros m Hnd; [by rewrite app_nil_r|].
  cbn [foldl fst snd]. rewrite set_new.
  - rewrite IH; rewrite <-app_assoc; done.
  - destruct (get m k) eqn:Hg; [|done]. exfalso.
    unfold keys in Hnd. rewrite fmap_app, fmap_cons in Hnd. cbn [fst] in Hnd.
    apply NoDup_app in Hnd as (_ & Hd & _). apply (Hd k); [|left].
    apply elem_of_keys. by eexists.
Qed.

(** Distinct keys: the map is the list of its entries. *)
Lemma of_list_id l : NoDup (keys l) → of_list l = l.
Proof. intros. unfold of_list. by rewrite foldl_set_app. Qed.

Lemma elem_of_of_list_keys l k : k ∈ keys (of_list l) ↔ k ∈ keys l.
Proof.
  unfold of_list. assert (∀ m, k ∈ keys (foldl (fun m kv => set m kv.1 kv.2) m l)
    ↔ k ∈ keys m ∨ k ∈ keys l) as Hg.
  { induction l as [|[k' v'] l IH]; intros m; [unfold keys; set_solver|].
    cbn [foldl fst snd]. rewrite IH, keys_set.
    change (keys ((k', v') :: l)) with (k' :: keys l).
    destruct (has m k') eqn:Hh; [apply has_spec in Hh|]; rewrite ?elem_of_app; set_solver. }
  rewrite Hg. unfold keys. set_solver.
Qed.

(** Every entry of the map was an entry of the list. *)
Lemma get_of_list l k v : get (of_list l) k = Some v → (k, v) ∈ l.
Proof.
  unfold of_list. assert (∀ m, get (foldl (fun m kv => set m kv.1 kv.2) m l) k = Some v →
    get m k = Some v ∨ (k, v) ∈ l) as Hg.
  { induction l as [|[k' v'] l IH]; intros m; [by left|]. cbn [foldl fst snd].
    intros [Hm|Hl]%IH; [|right; by right]. rewrite get_set in Hm.
    case_decide; simplify_eq; [right; left|by left]. }
  intros [?|?]%Hg; done.
Qed.

End JsMap.
End JsMap.

Module JsSet.
Section JsSet.
Context {K : Type} `{EqDecision K}.

Definition has (s : list K) (k : K) : bool := bool_decide (k ∈ s).
Definition add (s : list K) (k : K) : list K := if has s k then s else s ++ [k].
Definition del (s : list K) (k : K) : list K := filter (.≠ k) s.

Lemma jset_has_spec s k : has s k = true ↔ k ∈ s.
Proof. apply bool_decide_eq_true. Qed.

Lemma jset_has_false s k : has s k = false ↔ k ∉ s.
Proof. apply bool_decide_eq_false. Qed.

Lemma elem_of_add s k x : x ∈ add s k ↔ x = k ∨ x ∈ s.
Proof.
  unfold add, has. case_bool_decide; [naive_solver|].
  rewrite elem_of_app, list_elem_of_singleton. naive_solver.
Qed.

Lemma elem_of_del s k x : x ∈ del s k ↔ x ≠ k ∧ x ∈ s.
Proof. unfold del. by rewrite list_elem_of_filter. Qed.

Lemma NoDup_add s k : NoDup s → NoDup (add s k).
Proof.
  unfold add, has. case_bool_decide; [done|]. intros ?.
  apply NoDup_app. split; [done|]. split; [|apply NoDup_singleton].
  by intros x Hx ->%list_elem_of_singleton.
Qed.

Lemma NoDup_del s k : NoDup s → NoDup (del s k).
Proof. apply NoDup_filter. Qed.

End JsSet.
End JsSet.

(** ** Shared automation *)

Create HintDb opnet.
#[export] Hint Resolve JsMap.wf_nil JsMap.wf_set JsMap.wf_del JsMap.wf_of_list
  JsSet.NoDup_add JsSet.NoDup_del : opnet.
#[export] Hint Resolve NoDup_nil_2 : opnet.

(** Case analysis on the code's conditionals, closing the absurd branches. *)
Ltac js_cases :=
  repeat first
    [ case_bool_decide | case_decide | case_match ]; simplify_eq/=.

(** Read the outcome of a computation that is known to be [Ok] or [Throw]. *)
Ltac js_inv :=
  repeat match goal with
  | H : mbind _ ?c = Ok _ |- _ =>
      let E := fresh "E" in destruct c eqn:E; cbn [mbind result_bind] in H; [|discriminate H]
  | H : mbind _ ?c ?s = (_, Ok _) |- _ =>
      let E := fresh "E" in
      unfold mbind, stx_bind in H; destruct (c s) as [? [?|?]] eqn:E; [|discriminate H]
  | H : Ok _ = Ok _ |- _ => injection H as H; subst
  | H : (_, _) = (_, _) |- _ => injection H as H; subst
  | H : Throw _ = Ok _ |- _ => discriminate H
  | H : Ok _ = Throw _ |- _ => discriminate H
  end.

(** ** Generic lemmas *)

Lemma bmax_spec a b : bmax a b = Z.max a b.
Proof. unfold bmax. case_decide; lia. Qed.

Lemma bmin_spec a b : bmin a b = Z.min a b.
Proof. unfold bmin. case_decide; lia. Qed.

Lemma rmap_Ok {X A B} (f : A → result X B) l ys : rmap f l = Ok ys ↔ Forall2 (fun x y => f x = Ok y) l ys.
Proof.
  revert ys. induction l as [|x l IH]; intros ys; cbn [rmap].
  - split; [by intros [= <-]|by inversion 1].
  - destruct (f x) as [y|e] eqn:E; cbn.
    + destruct (rmap f l) as [ys'|e] eqn:El; cbn.
      * split; [intros [= <-]; constructor; [done|by apply IH]|]. inversion 1 as [|? y' ? ys'' Hy Hys]; subst.
        rewrite E in Hy. injection Hy as <-. apply IH in Hys. by injection Hys as <-.
      * split; [done|]. inversion 1 as [|? y' ? ys'' Hy Hys]; subst. by apply IH in Hys.
    + split; [done|]. inversion 1 as [|? y' ? ys'' Hy Hys]; subst. by rewrite E in Hy.
Qed.

Lemma rmap_total {X A B} (f : A → result X B) l : (∀ x, x ∈ l → ∃ y, f x = Ok y) → ∃ ys, rmap f l = Ok ys.
Proof.
  induction l as [|x l IH]; intros H; [by eexists|]. destruct (H x) as [y Hy]; [left|]. destruct IH as [ys Hys].
  { intros z Hz. apply H. by right. }
  exists (y :: ys). cbn. by rewrite Hy, Hys.
Qed.

Lemma rfold_app {E A B} (f : B → A → result E B) b l1 l2 :
  rfold f b (l1 ++ l2) = (b' ← rfold f b l1; rfold f b' l2).
Proof.
  revert b. induction l1 as [|x l1 IH]; intros b; [done|].
  cbn [rfold app]. destruct (f b x); cbn; [apply IH|done].
Qed.

(** An invariant of the accumulator holds of the result of the loop. *)
Lemma rfold_invariant {E A B} (P : B → Prop) (f : B → A → result E B) b l b' :
  P b → (∀ b0 x b1, x ∈ l → P b0 → f b0 x = Ok b1 → P b1) →
  rfold f b l = Ok b' → P b'.
Proof.
  revert b. induction l as [|x l IH]; intros b Hb Hf; cbn [rfold].
  - by intros [= <-].
  - destruct (f b x) as [b1|e] eqn:E1; cbn; [|done]. intros Hr.
    eapply IH; [| |exact Hr].
    + eapply Hf; [left|exact Hb|exact E1].
    + intros b0 y b2 Hy. eapply Hf. by right.
Qed.

(** A loop whose body never throws under an invariant does not throw. *)
Lemma rfold_ok {E A B} (P : B → Prop) (f : B → A → result E B) b l :
  P b → (∀ b0 x, x ∈ l → P b0 → ∃ b1, f b0 x = Ok b1 ∧ P b1) →
  ∃ b', rfold f b l = Ok b' ∧ P b'.
Proof.
  revert b. induction l as [|x l IH]; intros b Hb Hf; cbn [rfold].
  - eauto.
  - destruct (Hf b x) as (b1 & -> & Hb1); [left|done|]. cbn.
    apply IH; [done|]. intros b0 y Hy. apply Hf. by right.
Qed.

Lemma foldl_invariant {A B} (P : B → Prop) (f : B → A → B) b l :
  P b → (∀ b0 x, x ∈ l → P b0 → P (f b0 x)) → P (foldl f b l).
Proof.
  revert b. induction l as [|x l IH]; intros b Hb Hf; [done|]. cbn [foldl].
  apply IH; [apply Hf; [left|done]|]. intros b0 y Hy. apply Hf. by right.
Qed.

Lemma NoDup_fst_inj {A B} (l : list (A * B)) a b1 b2 :
  NoDup l.*1 → (a, b1) ∈ l → (a, b2) ∈ l → b1 = b2.
Proof.
  induction l as [|[a0 b0] l IH]; csimpl; [by intros _ ?%elem_of_nil|].
  intros [Hni Hnd]%NoDup_cons. rewrite !elem_of_cons.
  assert (∀ b, (a0, b) ∉ l) as Hno.
  { intros b Hb. apply Hni. apply list_elem_of_fmap. by exists (a0, b). }
  naive_solver.
Qed.

Lemma NoDup_fmap_inj {A B} (f : A → B) (l : list A) x y :
  NoDup (f <$> l) → x ∈ l → y ∈ l → f x = f y → x = y.
Proof.
  induction l as [|z l IH]; [by intros _ ?%elem_of_nil|]. rewrite fmap_cons.
  intros [Hni Hnd]%NoDup_cons. rewrite !elem_of_cons.
  assert (∀ w, w ∈ l → f w ≠ f z) as Hno.
  { intros w Hw Heq. apply Hni. rewrite <-Heq. by apply list_elem_of_fmap_2. }
  naive_solver.
Qed.

Lemma filter_all {A} (P : A → Prop) `{∀ x, Decision (P x)} (l : list A) :
  Forall P l → filter P l = l.
Proof.
  induction 1; [done|]. rewrite filter_cons, decide_True by done. by f_equal.
Qed.

Lemma filter_ext_elem {A} (P Q : A → Prop) `{∀ x, Decision (P x)} `{∀ x, Decision (Q x)}
    (l : list A) :
  (∀ x, x ∈ l → P x ↔ Q x) → filter P l = filter Q l.
Proof.
  induction l as [|x l IH]; intros Hl; [done|]. rewrite !filter_cons.
  rewrite IH by (intros y Hy; apply Hl; by right).
  destruct (Hl x) as [? ?]; [left|]. repeat case_decide; naive_solver.
Qed.

(** ** Orders of a dependency relation

    [deps x] is what [x] depends on.  Used for the order of the transactions
    of a block and for the load order of plugins. *)

Section dep_order.
Context {A : Type} `{EqDecision A} (deps : A → list A).

(** Every element comes after all it depends on. *)
Definition dep_order (l : list A) : Prop :=
  ∀ l1 x l2, l = l1 ++ x :: l2 → ∀ d, d ∈ deps x → d ∈ l1.

Lemma dep_order_nil : dep_order [].
Proof. by intros []. Qed.

Lemma dep_order_snoc l x :
  dep_order l → (∀ d, d ∈ deps x → d ∈ l) → dep_order (l ++ [x]).
Proof.
  intros Hl Hx l1 y l2 Heq d Hd. destruct l2 as [|z l2 _] using rev_ind.
  - apply app_inj_tail in Heq as [-> ->]. by apply Hx.
  - rewrite app_comm_cons, app_assoc in Heq. apply app_inj_tail in Heq as [-> _].
    by eapply Hl.
Qed.

Lemma dep_order_prefix l l' : dep_order (l ++ l') → dep_order l.
Proof.
  intros Hl l1 x l2 -> d Hd. eapply Hl; [|done]. by rewrite <-app_assoc.
Qed.

Definition acyclic_deps : Prop :=
  ∃ rank : A → nat, ∀ x d, d ∈ deps x → (rank d < rank x)%nat.

(** Positions in a complete order are a rank. *)
Lemma dep_order_acyclic l :
  dep_order l → (∀ x d, d ∈ deps x → x ∈ l) → acyclic_deps.
Proof.
  intros Hl Hdom. set (pos x := from_option fst (length l) (list_find (x =.) l)).
  exists pos. intros x d Hd. pose proof (Hdom x d Hd) as Hx.
  destruct (list_find_elem_of (x =.) l x) as [[i y] Hi]; [done..|].
  unfold pos at 2. rewrite Hi. cbn [from_option fst].
  apply list_find_Some in Hi as (Hi & <- & _).
  apply list_elem_of_split_length in Hi as (l1 & l2 & Heq & ->).
  pose proof (Hl l1 x l2 Heq d Hd) as Hd1.
  destruct (list_find_elem_of (d =.) l1 d) as [[j z] Hj]; [done..|].
  unfold pos. rewrite Heq. rewrite (list_find_app_l _ _ _ _ _ Hj). cbn [from_option fst].
  apply list_find_Some in Hj as (Hj & _). by apply lookup_lt_Some in Hj.
Qed.

(** A walk along the relation. *)
Definition dep_chain (l : list A) : Prop :=
  ∀ l1 x y l2, l = l1 ++ x :: y :: l2 → y ∈ deps x.

Definition dep_cycle (c : list A) : Prop := ∃ x l, c = x :: l ++ [x] ∧ dep_chain c.

Lemma dep_chain_app_r l l' : dep_chain (l ++ l') → dep_chain l'.
Proof. intros Hl l1 x y l2 ->. apply (Hl (l ++ l1) x y l2). by rewrite app_assoc. Qed.

Lemma dep_chain_snoc l x y : dep_chain (l ++ [x]) → y ∈ deps x → dep_chain (l ++ [x; y]).
Proof.
  intros Hl Hy l1 a b l2 Heq. destruct l2 as [|z l2 _] using rev_ind.
  - assert (l ++ [x; y] = (l ++ [x]) ++ [y]) as Hs by (by rewrite <-app_assoc).
    assert (l1 ++ [a; b] = (l1 ++ [a]) ++ [b]) as Hs' by (by rewrite <-app_assoc).
    rewrite Hs, Hs' in Heq. apply app_inj_tail in Heq as [Heq ->].
    by apply app_inj_tail in Heq as [_ ->].
  - apply (Hl l1 a b l2).
    assert (l ++ [x; y] = (l ++ [x]) ++ [y]) as Hs by (by rewrite <-app_assoc).
    assert (l1 ++ a :: b :: l2 ++ [z] = (l1 ++ a :: b :: l2) ++ [z]) as Hs'
      by (by rewrite <-app_assoc).
    rewrite Hs, Hs' in Heq. by apply app_inj_tail in Heq as [-> _].
Qed.

Lemma dep_chain_singleton x : dep_chain [x].
Proof. intros [|? []] ? ? ? ?; simplify_eq. Qed.

(** Cycles have no rank. *)
Lemma dep_cycle_not_acyclic c : dep_cycle c → ¬ acyclic_deps.
Proof.
  intros (x & l & -> & Hc) [rank Hr].
  assert (∀ l x y, dep_chain (x :: l ++ [y]) → (rank y < rank x)%nat) as Hdec.
  { clear x l Hc. induction l as [|z l IH]; intros x y Hc.
    - apply Hr. by apply (Hc [] x y []).
    - pose proof (Hr x z (Hc [] x z (l ++ [y]) eq_refl)).
      assert (rank y < rank z)%nat; [|lia]. apply IH. by apply (dep_chain_app_r [x]). }
  specialize (Hdec l x x Hc). lia.
Qed.
End dep_order.

(** ** Third-party code the node calls

    [Address] and the hex codec come from the @btc-vision packages, which are
    not part of the repository; the model takes them as an interface. *)

Definition bytes : Type := list Z.

Class BtcLib : Type := {
  Address : Type;
  Address_eq :: EqDecision Address;
  Address_countable :: Countable Address;
  Address_fromString : string → Address;
  Address_toHex : Address → string;
  Address_dead : Address;
  fromHex : string → bytes;
  toHex : bytes → string
}.

(** An instance for the evaluation of concrete examples: addresses are their
    hex form, and bytes are written as characters. *)
Definition string_btclib : BtcLib := {|
  Address := string;
  Address_fromString := fun s => s;
  Address_toHex := fun s => s;
  Address_dead := "dead";
  fromHex := fun s => (fun a => Z.of_nat (Ascii.nat_of_ascii a)) <$> String.list_ascii_of_string s;
  toHex := fun bs =>
    String.string_of_list_ascii ((fun z => Ascii.ascii_of_nat (Z.to_nat z)) <$> bs)
|}.
