(* ===== verification/FastCollections.v ===== *)
(** * Insertion-ordered maps and sets of src/src/src/utils/fast

    [FastBigIntMap], [FastStringMap], [FastNumberMap], [FastBigIntSet] and
    [FastStringSet] all keep a plain object [items], keyed by the string form
    of the key, beside the array [keyOrder].  The classes differ only in the
    key type, so the model is one [Section] over a key class.  The refinement
    theorems say that the pair behaves as a JavaScript [Map] or [Set]. *)

From S2P Require Import Prelude.

(** The names a plain object inherits from [Object.prototype]: [items[k]] finds
    these even when [k] was never stored, and [__proto__] cannot be stored. *)
Definition object_prototype_names : list string :=
  ["__proto__"; "constructor"; "hasOwnProperty"; "isPrototypeOf";
   "propertyIsEnumerable"; "toLocaleString"; "toString"; "valueOf";
   "__defineGetter__"; "__defineSetter__"; "__lookupGetter__"; "__lookupSetter__"].

(** What the collections need of a key: its property name is injective and is
    not one of the inherited names. *)
Class FastKey (K : Type) : Type := {
  fk_eq :: EqDecision K;
  toString : K → string;
  toString_inj :: Inj (=) (=) toString;
  toString_ordinary : ∀ k, toString k ∉ object_prototype_names
}.

(** ** Maps *)

Module FastMap.
Section FastMap.
Context {K V : Type} `{FastKey K}.

Record t : Type := mk { items : gmap string V; keyOrder : list K }.

Definition empty : t := mk ∅ [].

Definition size (m : t) : nat := length (keyOrder m).

Definition has (m : t) (k : K) : bool :=
  match items m !! toString k with Some _ => true | None => false end.

Definition get (m : t) (k : K) : option V := items m !! toString k.

Definition set (m : t) (k : K) (v : V) : t :=
  let keyOrder' := if has m k then keyOrder m else keyOrder m ++ [k] in
  mk (<[toString k := v]> (items m)) keyOrder'.

Definition delete (m : t) (k : K) : t * bool :=
  if has m k
  then (mk (base.delete (toString k) (items m)) (filter (.≠ k) (keyOrder m)), true)
  else (m, false).

Definition clear (m : t) : t := empty.

Definition setAll (m m' : t) : t := mk (items m') (keyOrder m').

(** [entries] yields [items[key]] for each key, which is [undefined] when the
    property is missing. *)
Definition entries (m : t) : list (K * option V) :=
  (fun k => (k, items m !! toString k)) <$> keyOrder m.

Definition keys (m : t) : list K := keyOrder m.

Definition values (m : t) : list (option V) :=
  (fun k => items m !! toString k) <$> keyOrder m.

(** [forEach] calls back on each entry in order. *)
Definition forEach {S} (m : t) (callback : S → option V → K → S) (s : S) : S :=
  foldl (fun s k => callback s (items m !! toString k) k) s (keyOrder m).

Definition getOrInsert (m : t) (k : K) (defaultValue : V) : t * option V :=
  if has m k then (m, items m !! toString k) else (set m k defaultValue, Some defaultValue).

Definition getOrInsertComputed (m : t) (k : K) (callbackfn : K → V) : t * option V :=
  if has m k then (m, items m !! toString k)
  else let value := callbackfn k in (set m k value, Some value).

Definition of_iterable (l : list (K * V)) : t :=
  foldl (fun m kv => set m kv.1 kv.2) empty l.

Definition of_fast (m' : t) : t := setAll empty m'.

(** The object and the key array describe the same set of keys. *)
Definition wf (m : t) : Prop :=
  NoDup (keyOrder m) ∧
  ∀ s, is_Some (items m !! s) ↔ ∃ k, k ∈ keyOrder m ∧ s = toString k.

(** The JavaScript map a fast map stands for. *)
Definition abs (m : t) : list (K * V) :=
  omap (fun k => (fun v => (k, v)) <$> items m !! toString k) (keyOrder m).

Lemma fm_has_elem m k : wf m → has m k = true ↔ k ∈ keyOrder m.
Proof.
  intros [_ Hd]. unfold has. specialize (Hd (toString k)).
  destruct (items m !! toString k); split; intros Hh; try done.
  - destruct Hd as [Hd _]. destruct Hd as (k' & ? & ->%(inj toString)); eauto.
  - destruct Hd as [_ Hd]. by destruct Hd as [? ?]; [eauto|].
Qed.

Lemma fm_wf_empty : wf empty.
Proof.
  split; [constructor|]. intros s. split.
  - by intros [? ?].
  - by intros (k & ?%elem_of_nil & _).
Qed.

Lemma fm_wf_set m k v : wf m → wf (set m k v).
Proof.
  intros Hwf. pose proof Hwf as [Hnd Hd]. pose proof (fm_has_elem m k Hwf) as Hh.
  unfold set. split; cbn.
  - destruct (has m k); [done|]. apply NoDup_app. split; [done|].
    split; [|apply NoDup_singleton]. intros x Hx ->%list_elem_of_singleton. naive_solver.
  - intros s. destruct (decide (s = toString k)) as [->|Hne].
    + rewrite lookup_insert_eq. split; [intros _|eauto]. exists k. split; [|done].
      destruct (has m k); [naive_solver|]. apply elem_of_app. right. by left.
    + rewrite lookup_insert_ne, Hd by congruence.
      destruct (has m k); [done|]. setoid_rewrite elem_of_app.
      setoid_rewrite list_elem_of_singleton. naive_solver.
Qed.

Lemma fm_wf_delete m k : wf m → wf (delete m k).1.
Proof.
  intros Hwf. pose proof Hwf as [Hnd Hd]. unfold delete. destruct (has m k); [|done].
  split; cbn; [by apply NoDup_filter|]. intros s. setoid_rewrite list_elem_of_filter.
  destruct (decide (s = toString k)) as [->|Hne].
  - rewrite lookup_delete_eq. split; [by intros [? ?]|].
    intros (k' & [Hne _] & Heq%(inj toString)). congruence.
  - rewrite lookup_delete_ne, Hd by congruence. split; [|naive_solver].
    intros (k' & ? & ->). exists k'. naive_solver.
Qed.

Lemma abs_set_aux it k v l :
  abs (mk (<[toString k:=v]> it) l) =
  if bool_decide (k ∈ l) then abs (mk (<[toString k:=v]> it) l)
  else abs (mk it l).
Proof.
  case_bool_decide as Hin; [done|]. unfold abs; cbn.
  induction l as [|k' l IH]; [done|]. cbn.
  apply not_elem_of_cons in Hin as [Hne Hin].
  rewrite lookup_insert_ne by (by intros ?%(inj toString)).
  by rewrite IH.
Qed.

Lemma abs_cons it k l :
  abs (mk it (k :: l)) =
  match it !! toString k with
  | Some v => (k, v) :: abs (mk it l)
  | None => abs (mk it l)
  end.
Proof. unfold abs; cbn. by destruct (it !! toString k). Qed.

Lemma abs_app it l1 l2 : abs (mk it (l1 ++ l2)) = abs (mk it l1) ++ abs (mk it l2).
Proof. unfold abs; cbn. apply omap_app. Qed.

(** Every key of [l] is stored. *)
Definition covered (it : gmap string V) (l : list K) : Prop :=
  ∀ k, k ∈ l → is_Some (it !! toString k).

Lemma wf_covered m : wf m → covered (items m) (keyOrder m).
Proof. intros [_ Hd] k Hk. apply Hd. eauto. Qed.

Lemma keys_abs it l : covered it l → JsMap.keys (abs (mk it l)) = l.
Proof.
  unfold covered. induction l as [|k l IH]; intros Hc; [done|]. rewrite abs_cons.
  destruct (Hc k) as [v Hv]; [left|]. rewrite Hv. unfold JsMap.keys in *. csimpl.
  f_equal. apply IH. intros k' ?. apply Hc. by right.
Qed.

Lemma get_abs it l k :
  covered it l → JsMap.get (abs (mk it l)) k =
    if bool_decide (k ∈ l) then it !! toString k else None.
Proof.
  intros Hc. induction l as [|k' l IH].
  - by case_bool_decide as Hk; [apply elem_of_nil in Hk|].
  - rewrite abs_cons. destruct (Hc k') as [v Hv]; [left|]. rewrite Hv. cbn [JsMap.get].
    rewrite IH by (intros k0 ?; apply Hc; by right).
    destruct (decide (k = k')) as [->|Heq]; [by rewrite bool_decide_true by left|].
    repeat case_bool_decide; set_solver.
Qed.

Lemma abs_set_present it l k v :
  NoDup l → covered it l → k ∈ l →
  abs (mk (<[toString k:=v]> it) l) = JsMap.set (abs (mk it l)) k v.
Proof.
  induction l as [|k' l IH]; intros Hnd Hc Hk; [by apply elem_of_nil in Hk|].
  apply NoDup_cons in Hnd as [Hni Hnd]. rewrite !abs_cons.
  destruct (Hc k') as [v' Hv']; [left|]. rewrite Hv'. cbn [JsMap.set JsMap.del].
  assert (covered it l) by (intros k0 ?; apply Hc; by right).
  case_decide as Heq.
  - subst k'. rewrite lookup_insert_eq. f_equal.
    rewrite abs_set_aux. by rewrite bool_decide_false.
  - rewrite lookup_insert_ne by (by intros ?%(inj toString)). rewrite Hv'.
    f_equal. apply IH; set_solver.
Qed.

Lemma abs_get m k : wf m → get m k = JsMap.get (abs m) k.
Proof.
  intros Hwf. destruct m as [it l]. rewrite get_abs by exact (wf_covered _ Hwf).
  pose proof (fm_has_elem _ k Hwf) as Hh. unfold has, get in *; cbn in *.
  case_bool_decide; [done|]. destruct (it !! toString k); naive_solver.
Qed.

Lemma abs_has m k : wf m → has m k = JsMap.has (abs m) k.
Proof.
  intros Hwf. unfold has, JsMap.has. pose proof (abs_get m k Hwf) as Hg.
  unfold get in Hg. by rewrite Hg.
Qed.

Lemma abs_set m k v : wf m → abs (set m k v) = JsMap.set (abs m) k v.
Proof.
  intros Hwf. pose proof (fm_has_elem m k Hwf) as Hh. unfold set.
  destruct m as [it l]; cbn [items keyOrder] in *. destruct (has (mk it l) k).
  - apply abs_set_present; [apply Hwf|exact (wf_covered _ Hwf)|naive_solver].
  - assert (k ∉ l) by naive_solver. rewrite abs_app, abs_set_aux.
    rewrite bool_decide_false by done.
    rewrite JsMap.set_new.
    + f_equal. rewrite abs_cons. by rewrite lookup_insert_eq.
    + rewrite get_abs by exact (wf_covered _ Hwf). by rewrite bool_decide_false.
Qed.

Lemma abs_delete m k : wf m → abs (delete m k).1 = JsMap.del (abs m) k.
Proof.
  intros Hwf. pose proof (fm_has_elem m k Hwf) as Hh. unfold delete.
  destruct m as [it l]; cbn [items keyOrder] in *.
  destruct (has (mk it l) k) eqn:Hb; cbn [fst].
  - clear Hh Hb. pose proof (wf_covered _ Hwf) as Hc. cbn in Hc. clear Hwf.
    induction l as [|k' l IH]; [done|]. rewrite filter_cons, abs_cons.
    destruct (Hc k') as [v' Hv']; [left|]. rewrite Hv'. cbn [JsMap.set JsMap.del].
    assert (covered it l) by (intros k0 ?; apply Hc; by right).
    repeat case_decide; subst; try done; [|by apply IH].
    rewrite abs_cons, lookup_delete_ne, Hv' by (by intros ?%(inj toString)).
    f_equal. by apply IH.
  - rewrite JsMap.del_not_in; [done|].
    rewrite keys_abs by exact (wf_covered _ Hwf). naive_solver.
Qed.

Lemma abs_entries m : wf m → entries m = (fun kv => (kv.1, Some kv.2)) <$> abs m.
Proof.
  intros Hwf. destruct m as [it l]. pose proof (wf_covered _ Hwf) as Hc.
  cbn in Hc. unfold entries; cbn [items keyOrder]. clear Hwf.
  induction l as [|k l IH]; [done|]. rewrite abs_cons, fmap_cons.
  destruct (Hc k) as [v Hv]; [left|]. rewrite Hv, fmap_cons. f_equal.
  apply IH. intros k0 ?. apply Hc. by right.
Qed.

Lemma abs_size m : wf m → size m = length (abs m).
Proof.
  intros Hwf. destruct m as [it l]. unfold size; cbn [keyOrder].
  rewrite <-(keys_abs it l) at 1 by exact (wf_covered _ Hwf).
  unfold JsMap.keys. by rewrite length_fmap.
Qed.

End FastMap.
Arguments t K V : clear implicits.
End FastMap.

(** ** Sets *)

Module FastSet.
Section FastSet.
Context {K : Type} `{FastKey K}.

Record t : Type := mk { items : gmap string bool; keyOrder : list K }.

Definition empty : t := mk ∅ [].

Definition size (s : t) : nat := length (keyOrder s).

Definition has (s : t) (v : K) : bool :=
  match items s !! toString v with Some _ => true | None => false end.

Definition add (s : t) (v : K) : t :=
  if has s v then s
  else mk (<[toString v := true]> (items s)) (keyOrder s ++ [v]).

Definition delete (s : t) (v : K) : t * bool :=
  if has s v
  then (mk (base.delete (toString v) (items s)) (filter (.≠ v) (keyOrder s)), true)
  else (s, false).

Definition clear (s : t) : t := empty.

Definition addAll (s s' : t) : t := foldl add s (keyOrder s').

Definition values (s : t) : list K := keyOrder s.

Definition forEach {S} (s : t) (callback : S → K → K → S) (st : S) : S :=
  foldl (fun st v => callback st v v) st (keyOrder s).

Definition of_iterable (l : list K) : t := foldl add empty l.

Definition of_fast (s' : t) : t := addAll empty s'.

Definition wf (s : t) : Prop :=
  NoDup (keyOrder s) ∧
  ∀ x, is_Some (items s !! x) ↔ ∃ k, k ∈ keyOrder s ∧ x = toString k.

Lemma fs_has_elem s v : wf s → has s v = JsSet.has (keyOrder s) v.
Proof.
  intros [_ Hd]. unfold has, JsSet.has. specialize (Hd (toString v)).
  destruct (items s !! toString v); case_bool_decide as Hin; try done.
  - destruct Hd as [Hd _]. destruct Hd as (k' & ? & ->%(inj toString)); eauto. done.
  - destruct Hd as [_ Hd]. by destruct Hd as [? ?]; [eauto|].
Qed.

Lemma fs_wf_empty : wf empty.
Proof.
  split; [constructor|]. intros s. split; [by intros [? ?]|].
  by intros (k & ?%elem_of_nil & _).
Qed.

Lemma fs_wf_add s v : wf s → wf (add s v).
Proof.
  intros Hwf. pose proof (fs_has_elem s v Hwf) as Hh. destruct Hwf as [Hnd Hd].
  unfold add. destruct (has s v); [done|]. symmetry in Hh. apply JsSet.jset_has_false in Hh.
  split; cbn.
  - apply NoDup_app. split; [done|]. split; [|apply NoDup_singleton].
    by intros x Hx ->%list_elem_of_singleton.
  - intros x. setoid_rewrite elem_of_app. setoid_rewrite list_elem_of_singleton.
    destruct (decide (x = toString v)) as [->|Hne].
    + rewrite lookup_insert_eq. naive_solver.
    + rewrite lookup_insert_ne, Hd by congruence. naive_solver.
Qed.

Lemma fs_wf_delete s v : wf s → wf (delete s v).1.
Proof.
  intros [Hnd Hd]. unfold delete. destruct (has s v); [|done].
  split; cbn; [by apply NoDup_filter|]. intros x. setoid_rewrite list_elem_of_filter.
  destruct (decide (x = toString v)) as [->|Hne].
  - rewrite lookup_delete_eq. split; [by intros [? ?]|].
    intros (k' & [Hne _] & Heq%(inj toString)). congruence.
  - rewrite lookup_delete_ne, Hd by congruence. split; [|naive_solver].
    intros (k' & ? & ->). exists k'. naive_solver.
Qed.

Lemma fs_keys_add s v : wf s → keyOrder (add s v) = JsSet.add (keyOrder s) v.
Proof.
  intros Hwf. unfold add, JsSet.add. rewrite (fs_has_elem s v Hwf).
  by destruct (JsSet.has (keyOrder s) v).
Qed.

Lemma fs_keys_delete s v : wf s → keyOrder (delete s v).1 = JsSet.del (keyOrder s) v.
Proof.
  intros Hwf. unfold delete, JsSet.del. rewrite (fs_has_elem s v Hwf).
  destruct (JsSet.has (keyOrder s) v) eqn:Hb; [done|]. cbn.
  apply JsSet.jset_has_false in Hb. symmetry. apply filter_all.
  apply Forall_forall. intros x Hx ->. done.
Qed.

Lemma fs_wf_fold_add l s : wf s → wf (foldl add s l).
Proof. revert s. induction l; simpl; auto using fs_wf_add. Qed.

Lemma fs_keys_fold_add l s :
  wf s → keyOrder (foldl add s l) = foldl JsSet.add (keyOrder s) l.
Proof.
  revert s. induction l as [|v l IH]; intros s Hs; [done|]. cbn [foldl].
  rewrite IH by auto using fs_wf_add. by rewrite fs_keys_add.
Qed.

End FastSet.
Arguments t K : clear implicits.
End FastSet.

(** ** Key instances *)

(** Decimal digits and the minus sign: the characters of [BigInt.toString()]. *)
Definition decimal_char (a : ascii) : bool :=
  let n := Ascii.nat_of_ascii a in
  (48 <=? n)%nat && (n <=? 57)%nat || (n =? 45)%nat.

Fixpoint decimal_string (s : string) : bool :=
  match s with
  | EmptyString => true
  | String a s' => decimal_char a && decimal_string s'
  end.

Lemma pretty_N_char_decimal x : decimal_char (pretty_N_char x) = true.
Proof. unfold pretty_N_char. repeat (case_match; try reflexivity). Qed.

Lemma pretty_N_go_decimal x s :
  decimal_string s = true → decimal_string (pretty_N_go x s) = true.
Proof.
  revert s. induction (N.lt_wf_0 x) as [x _ IH]. intros s Hs.
  destruct (decide (x = 0)%N) as [->|Hx]; [by rewrite pretty_N_go_0|].
  rewrite pretty_N_go_step by lia. apply IH; [by apply N.div_lt; lia|].
  cbn. by rewrite pretty_N_char_decimal.
Qed.

Lemma pretty_N_decimal (n : N) : decimal_string (pretty n) = true.
Proof.
  unfold pretty, pretty_N. case_decide; [done|]. by apply pretty_N_go_decimal.
Qed.

Lemma pretty_Z_decimal (z : Z) : decimal_string (pretty z) = true.
Proof.
  destruct z as [|p|p]; cbn; [done|apply (pretty_N_decimal (N.pos p))..].
Qed.

(** BigInt keys, and the integer [number] keys of [FastNumberMap] (integers
    whose [toString] is their decimal form, i.e. below [10^21]). *)
#[export, program] Instance fast_key_Z : FastKey Z := {| toString := pretty |}.
Next Obligation.
  intros z Hin. pose proof (pretty_Z_decimal z) as Hd.
  repeat (apply elem_of_cons in Hin as [Heq|Hin]; [by rewrite Heq in Hd|]).
  by apply elem_of_nil in Hin.
Qed.

(** String keys that are not names of [Object.prototype]. *)
Definition plain_string : Type := dsig (fun s : string => s ∉ object_prototype_names).

Definition plain (s : string) (H : bool_decide (s ∉ object_prototype_names)) : plain_string :=
  dexist s (bool_decide_unpack _ H).

#[export] Instance plain_string_inj : Inj (=) (=) (proj1_sig : plain_string → string).
Proof. intros x y. by apply dsig_eq. Qed.

#[export, program] Instance fast_key_string : FastKey plain_string :=
  {| fk_eq := _; toString := proj1_sig |}.
Next Obligation. intros k. apply (proj2_dsig k). Qed.

(** ** The classes of src/utils/fast, one per key type *)

Module FastBigIntMap.
Section FastBigIntMap.
Definition t : Type := FastMap.t Z Z.
Definition size (m : t) : nat := FastMap.size m.
Definition setAll (m m' : t) : t := FastMap.setAll m m'.
Definition set (m : t) (k : Z) (v : Z) : t := FastMap.set m k v.
Definition get (m : t) (k : Z) : option Z := FastMap.get m k.
Definition has (m : t) (k : Z) : bool := FastMap.has m k.
Definition delete (m : t) (k : Z) : t * bool := FastMap.delete m k.
Definition clear (m : t) : t := FastMap.clear m.
Definition entries (m : t) : list (Z * option Z) := FastMap.entries m.
Definition keys (m : t) : list Z := FastMap.keys m.
Definition values (m : t) : list (option Z) := FastMap.values m.
Definition forEach {S} (m : t) (callback : S → option Z → Z → S) (s : S) : S :=
  FastMap.forEach m callback s.
Definition getOrInsert (m : t) (k : Z) (v : Z) : t * option Z :=
  FastMap.getOrInsert m k v.
Definition getOrInsertComputed (m : t) (k : Z) (f : Z → Z) : t * option Z :=
  FastMap.getOrInsertComputed m k f.
Definition of_iterable (l : list (Z * Z)) : t := FastMap.of_iterable l.
End FastBigIntMap.
End FastBigIntMap.

Module FastStringMap.
Section FastStringMap.
Context {T : Type}.
Definition t : Type := FastMap.t plain_string T.
Definition size (m : t) : nat := FastMap.size m.
Definition setAll (m m' : t) : t := FastMap.setAll m m'.
Definition set (m : t) (k : plain_string) (v : T) : t := FastMap.set m k v.
Definition get (m : t) (k : plain_string) : option T := FastMap.get m k.
Definition has (m : t) (k : plain_string) : bool := FastMap.has m k.
Definition delete (m : t) (k : plain_string) : t * bool := FastMap.delete m k.
Definition clear (m : t) : t := FastMap.clear m.
Definition entries (m : t) : list (plain_string * option T) := FastMap.entries m.
Definition keys (m : t) : list plain_string := FastMap.keys m.
Definition values (m : t) : list (option T) := FastMap.values m.
Definition forEach {S} (m : t) (callback : S → option T → plain_string → S) (s : S) : S :=
  FastMap.forEach m callback s.
Definition getOrInsert (m : t) (k : plain_string) (v : T) : t * option T :=
  FastMap.getOrInsert m k v.
Definition getOrInsertComputed (m : t) (k : plain_string) (f : plain_string → T) : t * option T :=
  FastMap.getOrInsertComputed m k f.
Definition of_iterable (l : list (plain_string * T)) : t := FastMap.of_iterable l.
End FastStringMap.
End FastStringMap.

Module FastNumberMap.
Section FastNumberMap.
Context {T : Type}.
Definition t : Type := FastMap.t Z T.
Definition size (m : t) : nat := FastMap.size m.
Definition setAll (m m' : t) : t := FastMap.setAll m m'.
Definition set (m : t) (k : Z) (v : T) : t := FastMap.set m k v.
Definition get (m : t) (k : Z) : option T := FastMap.get m k.
Definition has (m : t) (k : Z) : bool := FastMap.has m k.
Definition delete (m : t) (k : Z) : t * bool := FastMap.delete m k.
Definition clear (m : t) : t := FastMap.clear m.
Definition entries (m : t) : list (Z * option T) := FastMap.entries m.
Definition keys (m : t) : list Z := FastMap.keys m.
Definition values (m : t) : list (option T) := FastMap.values m.
Definition forEach {S} (m : t) (callback : S → option T → Z → S) (s : S) : S :=
  FastMap.forEach m callback s.
Definition getOrInsert (m : t) (k : Z) (v : T) : t * option T :=
  FastMap.getOrInsert m k v.
Definition getOrInsertComputed (m : t) (k : Z) (f : Z → T) : t * option T :=
  FastMap.getOrInsertComputed m k f.
Definition of_iterable (l : list (Z * T)) : t := FastMap.of_iterable l.
End FastNumberMap.
End FastNumberMap.

Module FastBigIntSet.
Definition t : Type := FastSet.t Z.
Definition size (s : t) : nat := FastSet.size s.
Definition add (s : t) (v : Z) : t := FastSet.add s v.
Definition has (s : t) (v : Z) : bool := FastSet.has s v.
Definition delete (s : t) (v : Z) : t * bool := FastSet.delete s v.
Definition clear (s : t) : t := FastSet.clear s.
Definition addAll (s s' : t) : t := FastSet.addAll s s'.
Definition values (s : t) : list Z := FastSet.values s.
Definition forEach {S} (s : t) (callback : S → Z → Z → S) (st : S) : S :=
  FastSet.forEach s callback st.
Definition of_iterable (l : list Z) : t := FastSet.of_iterable l.
End FastBigIntSet.

Module FastStringSet.
Definition t : Type := FastSet.t plain_string.
Definition size (s : t) : nat := FastSet.size s.
Definition add (s : t) (v : plain_string) : t := FastSet.add s v.
Definition has (s : t) (v : plain_string) : bool := FastSet.has s v.
Definition delete (s : t) (v : plain_string) : t * bool := FastSet.delete s v.
Definition clear (s : t) : t := FastSet.clear s.
Definition addAll (s s' : t) : t := FastSet.addAll s s'.
Definition values (s : t) : list plain_string := FastSet.values s.
Definition forEach {S} (s : t) (callback : S → plain_string → plain_string → S) (st : S) : S :=
  FastSet.forEach s callback st.
Definition of_iterable (l : list plain_string) : t := FastSet.of_iterable l.
End FastStringSet.

(** ** The classes implement JavaScript maps and sets

    A run is a sequence of calls; an observation is what the caller gets back.
    The specification runs the same calls on the insertion-ordered map. *)

Section Runs.
Context {K V : Type} `{FastKey K}.

Inductive map_call : Type :=
| CSet (k : K) (v : V)
| CDelete (k : K)
| CClear
| CGet (k : K)
| CHas (k : K)
| CSize
| CEntries
| CGetOrInsert (k : K) (v : V)
| CGetOrInsertComputed (k : K) (f : K → V).

Inductive map_obs : Type :=
| ONone
| OBool (b : bool)
| OVal (v : option V)
| ONum (n : nat)
| OEntries (l : list (K * option V)).

Definition fast_call (m : FastMap.t K V) (c : map_call) : FastMap.t K V * map_obs :=
  match c with
  | CSet k v => (FastMap.set m k v, ONone)
  | CDelete k => let r := FastMap.delete m k in (r.1, OBool r.2)
  | CClear => (FastMap.clear m, ONone)
  | CGet k => (m, OVal (FastMap.get m k))
  | CHas k => (m, OBool (FastMap.has m k))
  | CSize => (m, ONum (FastMap.size m))
  | CEntries => (m, OEntries (FastMap.entries m))
  | CGetOrInsert k v => let r := FastMap.getOrInsert m k v in (r.1, OVal r.2)
  | CGetOrInsertComputed k f => let r := FastMap.getOrInsertComputed m k f in (r.1, OVal r.2)
  end.

(** What the ECMAScript [Map] does on the same call. *)
Definition js_call (m : list (K * V)) (c : map_call) : list (K * V) * map_obs :=
  match c with
  | CSet k v => (JsMap.set m k v, ONone)
  | CDelete k => (JsMap.del m k, OBool (JsMap.has m k))
  | CClear => ([], ONone)
  | CGet k => (m, OVal (JsMap.get m k))
  | CHas k => (m, OBool (JsMap.has m k))
  | CSize => (m, ONum (length m))
  | CEntries => (m, OEntries ((fun kv => (kv.1, Some kv.2)) <$> m))
  | CGetOrInsert k v =>
      if JsMap.has m k then (m, OVal (JsMap.get m k)) else (JsMap.set m k v, OVal (Some v))
  | CGetOrInsertComputed k f =>
      if JsMap.has m k then (m, OVal (JsMap.get m k))
      else (JsMap.set m k (f k), OVal (Some (f k)))
  end.

Fixpoint run {M} (call : M → map_call → M * map_obs) (m : M) (cs : list map_call)
  : M * list map_obs :=
  match cs with
  | [] => (m, [])
  | c :: cs' =>
      let r := call m c in
      let r' := run call r.1 cs' in
      (r'.1, r.2 :: r'.2)
  end.

Lemma fast_call_sim m c :
  FastMap.wf m →
  FastMap.wf (fast_call m c).1 ∧
  js_call (FastMap.abs m) c = (FastMap.abs (fast_call m c).1, (fast_call m c).2).
Proof.
  intros Hwf. destruct c as [k v|k| |k|k| | |k v|k f]; cbn [fast_call js_call fst snd].
  - split; [by apply FastMap.fm_wf_set|]. by rewrite FastMap.abs_set.
  - split; [by apply FastMap.fm_wf_delete|]. rewrite FastMap.abs_delete by done.
    rewrite <-FastMap.abs_has by done. unfold FastMap.delete.
    by destruct (FastMap.has m k).
  - split; [apply FastMap.fm_wf_empty|done].
  - by rewrite FastMap.abs_get.
  - by rewrite FastMap.abs_has.
  - by rewrite FastMap.abs_size.
  - by rewrite FastMap.abs_entries.
  - unfold FastMap.getOrInsert. rewrite <-FastMap.abs_has, <-FastMap.abs_get by done.
    destruct (FastMap.has m k); cbn [fst snd]; [done|].
    split; [by apply FastMap.fm_wf_set|]. by rewrite FastMap.abs_set.
  - unfold FastMap.getOrInsertComputed.
    rewrite <-FastMap.abs_has, <-FastMap.abs_get by done.
    destruct (FastMap.has m k); cbn [fst snd]; [done|].
    split; [by apply FastMap.fm_wf_set|]. by rewrite FastMap.abs_set.
Qed.

(** Any sequence of calls on a fast map returns what the same calls on a
    JavaScript [Map] return: values, membership, size and the entries in
    insertion order, and the pair stays consistent. *)
Theorem fast_map_refines_js_map (m : FastMap.t K V) (cs : list map_call) :
  FastMap.wf m →
  (run fast_call m cs).2 = (run js_call (FastMap.abs m) cs).2 ∧
  FastMap.wf (run fast_call m cs).1.
Proof.
  revert m. induction cs as [|c cs IH]; intros m Hwf; [done|]. cbn.
  destruct (fast_call_sim m c Hwf) as [Hwf' Hsim]. rewrite Hsim. cbn.
  destruct (IH _ Hwf') as [-> ?]. done.
Qed.

End Runs.
Arguments map_call K V : clear implicits.
Arguments map_obs K V : clear implicits.

Lemma fast_map_refines_js_map_witness :
  (run fast_call (FastMap.empty : FastMap.t Z Z)
     [CSet 3 30; CSet 1 10; CSet 3 31; CDelete 1; CSet 1 12; CEntries]).2 =
  [ONone; ONone; ONone; OBool true; ONone; OEntries [(3, Some 31); (1, Some 12)]].
Proof.
  destruct (fast_map_refines_js_map (FastMap.empty : FastMap.t Z Z)
     [CSet 3 30; CSet 1 10; CSet 3 31; CDelete 1; CSet 1 12; CEntries]
     FastMap.fm_wf_empty) as [-> _].
  vm_compute. reflexivity.
Defined.

(** Building a set from values keeps the first occurrence of each value in
    order, and copying a set ([addAll] into an empty set) preserves it. *)
Theorem fast_set_of_iterable {K} `{FastKey K} (l : list K) :
  let s := FastSet.of_iterable l in
  FastSet.values s = foldl JsSet.add [] l ∧
  NoDup (FastSet.values s) ∧
  (∀ v, FastSet.has s v = true ↔ v ∈ l) ∧
  FastSet.values (FastSet.of_fast s) = FastSet.values s.
Proof.
  cbn. pose proof (FastSet.fs_wf_fold_add l FastSet.empty FastSet.fs_wf_empty) as Hwf.
  fold (FastSet.of_iterable l) in Hwf.
  assert (Hk : FastSet.keyOrder (FastSet.of_iterable l) = foldl JsSet.add [] l)
    by apply FastSet.fs_keys_fold_add, FastSet.fs_wf_empty.
  assert (Hel : ∀ (l s : list K) v, v ∈ foldl JsSet.add s l ↔ v ∈ s ∨ v ∈ l).
  { clear. induction l as [|x l IH]; intros s v; cbn; [set_solver|].
    rewrite IH, JsSet.elem_of_add. set_solver. }
  unfold FastSet.values. split; [done|]. split; [apply Hwf|]. split.
  - intros v. rewrite FastSet.fs_has_elem, JsSet.jset_has_spec, Hk, Hel by done. set_solver.
  - unfold FastSet.of_fast, FastSet.addAll.
    rewrite FastSet.fs_keys_fold_add by apply FastSet.fs_wf_empty. cbn.
    assert (Hadd : ∀ (l s : list K), NoDup (s ++ l) → foldl JsSet.add s l = s ++ l).
    { clear. induction l as [|x l IH]; intros s Hnd; cbn; [by rewrite app_nil_r|].
      assert (JsSet.add s x = s ++ [x]) as ->.
      { unfold JsSet.add. apply NoDup_app in Hnd as (_ & Hd & _).
        destruct (JsSet.has s x) eqn:Hh; [|done]. apply JsSet.jset_has_spec in Hh.
        exfalso. eapply Hd; [done|left]. }
      rewrite IH; rewrite <-app_assoc; done. }
    rewrite Hadd; [done|apply Hwf].
Qed.
