(* ===== verification/ConsensusRules.v ===== *)
(** * Consensus rule flags (src/src/src/vm/consensus/ConsensusRules.ts)

    A [ConsensusRules] object wraps a BigInt used as a bit set.  The methods
    that return a new object are functions, the mutating ones return the new
    object state.  The specification is the set of indices of the bits set. *)

From S2P Require Import Prelude.

Record ConsensusRules : Type := mkRules { value : Z }.

Definition NONE : Z := 0.
Definition UNSAFE_QUANTUM_SIGNATURES_ALLOWED : Z := 1.
Definition CONTRACT_UPDATES_ALLOWED : Z := 2.
Definition RESERVED_FLAG_2 : Z := 4.

Module Rules.

Definition new : ConsensusRules := mkRules 0.
Definition fromBigint (v : Z) : ConsensusRules := mkRules v.

Definition combine (flags : list Z) : ConsensusRules :=
  mkRules (foldl Z.lor 0 flags).

Definition reset (r : ConsensusRules) : ConsensusRules := mkRules 0.
Definition asBigInt (r : ConsensusRules) : Z := value r.

(** [DataView.setBigInt64(0, v, false)]: the low 64 bits, most significant
    byte first. *)
Definition toBeBytes (r : ConsensusRules) : list Z :=
  (fun i => Z.land (Z.shiftr (value r) (8 * (7 - Z.of_nat i))) 255) <$> seq 0 8.

Definition contains (r other : ConsensusRules) : bool :=
  Z.land (value r) (value other) =? value other.
Definition containsFlag (r : ConsensusRules) (flag : Z) : bool :=
  Z.land (value r) flag =? flag.
Definition intersects (r other : ConsensusRules) : bool :=
  negb (Z.land (value r) (value other) =? 0).
Definition intersectsFlag (r : ConsensusRules) (flag : Z) : bool :=
  negb (Z.land (value r) flag =? 0).
Definition isEmpty (r : ConsensusRules) : bool := value r =? 0.

Definition union (r other : ConsensusRules) : ConsensusRules :=
  mkRules (Z.lor (value r) (value other)).
Definition intersection (r other : ConsensusRules) : ConsensusRules :=
  mkRules (Z.land (value r) (value other)).
Definition difference (r other : ConsensusRules) : ConsensusRules :=
  mkRules (Z.land (value r) (Z.lnot (value other))).
Definition symmetricDifference (r other : ConsensusRules) : ConsensusRules :=
  mkRules (Z.lxor (value r) (value other)).
Definition complement (r : ConsensusRules) : ConsensusRules :=
  mkRules (Z.lnot (value r)).

Definition insert (r other : ConsensusRules) : ConsensusRules :=
  mkRules (Z.lor (value r) (value other)).
Definition insertFlag (r : ConsensusRules) (flag : Z) : ConsensusRules :=
  mkRules (Z.lor (value r) flag).
Definition remove (r other : ConsensusRules) : ConsensusRules :=
  mkRules (Z.land (value r) (Z.lnot (value other))).
Definition removeFlag (r : ConsensusRules) (flag : Z) : ConsensusRules :=
  mkRules (Z.land (value r) (Z.lnot flag)).
Definition toggle (r other : ConsensusRules) : ConsensusRules :=
  mkRules (Z.lxor (value r) (value other)).
Definition toggleFlag (r : ConsensusRules) (flag : Z) : ConsensusRules :=
  mkRules (Z.lxor (value r) flag).

Definition set (r other : ConsensusRules) (v : bool) : ConsensusRules :=
  if v then insert r other else remove r other.
Definition setFlag (r : ConsensusRules) (flag : Z) (v : bool) : ConsensusRules :=
  if v then insertFlag r flag else removeFlag r flag.

Definition clone (r : ConsensusRules) : ConsensusRules := mkRules (value r).
Definition equals (r other : ConsensusRules) : bool := value r =? value other.

(** The 64 iterations of [toBinaryString], with [result] and [val] as the loop
    variables. *)
Fixpoint binary_loop (n : nat) (val : Z) (result : string) : string :=
  match n with
  | O => result
  | S n' =>
      binary_loop n' (Z.shiftr val 1)
        ((if Z.land val 1 =? 0 then "0" else "1") +:+ result)
  end.

Definition toBinaryString (r : ConsensusRules) : string :=
  "0b" +:+ binary_loop 64 (value r) "".

Definition createConsensusRules (flags : list Z) : ConsensusRules := combine flags.

End Rules.

(** ** Specification: sets of bit indices *)

Definition bits (r : ConsensusRules) (i : Z) : Prop := Z.testbit (value r) i = true.
Definition flag_bits (f : Z) (i : Z) : Prop := Z.testbit f i = true.

(** Reading a big-endian byte sequence and a binary numeral back. *)
Definition be_combine (bs : list Z) : Z := foldl (fun acc b => 256 * acc + b) 0 bs.

Fixpoint parse_binary (acc : Z) (s : string) : option Z :=
  match s with
  | EmptyString => Some acc
  | String a s' =>
      if Ascii.eqb a "0" then parse_binary (2 * acc) s'
      else if Ascii.eqb a "1" then parse_binary (2 * acc + 1) s'
      else None
  end.

Lemma land_eq_subset a b :
  (Z.land a b =? b) = true ↔ ∀ i, 0 ≤ i → Z.testbit b i = true → Z.testbit a i = true.
Proof.
  rewrite Z.eqb_eq. split.
  - intros Heq i Hi Hb. rewrite <-Heq, Z.land_spec in Hb. by apply andb_true_iff in Hb as [? _].
  - intros Hsub. apply Z.bits_inj'. intros i Hi. rewrite Z.land_spec.
    specialize (Hsub i Hi). destruct (Z.testbit b i); [by rewrite Hsub|by rewrite andb_false_r].
Qed.

Lemma nonzero_bit z : z ≠ 0 → ∃ i, 0 ≤ i ∧ Z.testbit z i = true.
Proof.
  intros Hz. destruct (decide (0 < z)) as [Hpos|Hneg].
  - exists (Z.log2 z). split; [apply Z.log2_nonneg|by apply Z.bit_log2].
  - exists (Z.succ (Z.log2 (Z.pred (- z)))). split; [pose proof (Z.log2_nonneg (Z.pred (-z))); lia|].
    apply Z.bits_above_log2_neg; lia.
Qed.

Lemma land_nonzero_common a b :
  (Z.land a b =? 0) = false ↔ ∃ i, Z.testbit a i = true ∧ Z.testbit b i = true.
Proof.
  rewrite Z.eqb_neq. split.
  - intros (i & _ & Hi)%nonzero_bit. exists i.
    by rewrite Z.land_spec, andb_true_iff in Hi.
  - intros (i & Ha & Hb) H0.
    assert (Z.testbit (Z.land a b) i = true) as Hi by (by rewrite Z.land_spec, Ha, Hb).
    by rewrite H0, Z.bits_0 in Hi.
Qed.

Lemma be_combine_app l b : be_combine (l ++ [b]) = 256 * be_combine l + b.
Proof. unfold be_combine. by rewrite foldl_app. Qed.

(** One more byte of a big-endian prefix. *)
Lemma be_step v k :
  0 ≤ k →
  256 * (Z.shiftr v (8 * (k + 1))) + Z.land (Z.shiftr v (8 * k)) 255 = Z.shiftr v (8 * k).
Proof.
  intros Hk. replace (8 * (k + 1)) with (8 * k + 8) by lia.
  rewrite <-Z.shiftr_shiftr by lia. set (w := Z.shiftr v (8 * k)).
  change 255 with (Z.ones 8). rewrite Z.land_ones by lia.
  rewrite Z.shiftr_div_pow2 by lia. change (2 ^ 8) with 256.
  pose proof (Z.div_mod w 256). lia.
Qed.

(** The first [n] bytes of a 64-bit value are its high [8 n] bits. *)
Lemma be_prefix w n :
  Z.shiftr w 64 = 0 → (n ≤ 8)%nat →
  be_combine ((fun i => Z.land (Z.shiftr w (8 * (7 - Z.of_nat i))) 255) <$> seq 0 n) =
  Z.shiftr w (8 * (8 - Z.of_nat n)).
Proof.
  intros Hw. induction n as [|n IH]; intros Hn; [by rewrite <-Hw at 1|].
  rewrite seq_S, fmap_app. cbn [fmap list_fmap]. rewrite be_combine_app, IH by lia.
  replace (8 * (8 - Z.of_nat n)) with (8 * ((7 - Z.of_nat n) + 1)) by lia.
  rewrite Nat.add_0_l, be_step by lia. f_equal. lia.
Qed.

Lemma land_ones_shiftr v n :
  0 ≤ n → Z.land (Z.shiftr v n) 255 = Z.land (Z.shiftr (v mod 2 ^ (n + 8)) n) 255.
Proof.
  intros Hn. change 255 with (Z.ones 8). rewrite !Z.land_ones by lia.
  apply Z.bits_inj'. intros i Hi.
  destruct (decide (i < 8)) as [Hlt|Hge].
  - rewrite !Z.mod_pow2_bits_low by lia. rewrite !Z.shiftr_spec by lia.
    by rewrite Z.mod_pow2_bits_low by lia.
  - by rewrite !Z.mod_pow2_bits_high by lia.
Qed.

(** The loop writes [n] digits and they denote [val] modulo [2^n]. *)
Lemma binary_loop_parse n val acc result :
  parse_binary acc (Rules.binary_loop n val result) =
  parse_binary (2 ^ Z.of_nat n * acc + val mod 2 ^ Z.of_nat n) result.
Proof.
  revert val acc result. induction n as [|n IH]; intros val acc result.
  - cbn [Rules.binary_loop]. change (2 ^ Z.of_nat 0) with 1.
    rewrite Z.mod_1_r. f_equal. lia.
  - cbn [Rules.binary_loop]. rewrite IH. change (Z.land val 1) with (Z.land val (Z.ones 1)).
    rewrite Z.land_ones, Z.shiftr_div_pow2 by lia. change (2 ^ 1) with 2.
    rewrite Nat2Z.inj_succ, Z.pow_succ_r by lia.
    rewrite (Z.rem_mul_r val 2 (2 ^ Z.of_nat n)) by (try apply Z.pow_pos_nonneg; lia).
    pose proof (Z.mod_pos_bound val 2). destruct (Z.eqb_spec (val mod 2) 0) as [Hz|Hz].
    + change ("0" +:+ result) with (String "0" result).
      cbn [parse_binary Ascii.eqb Bool.eqb]. f_equal. lia.
    + change ("1" +:+ result) with (String "1" result).
      cbn [parse_binary Ascii.eqb Bool.eqb]. f_equal. lia.
Qed.

(** ** Theorems *)

(** Every operation is the set operation on the indices of the bits set:
    the constructors, the pure operators and the mutators. *)
Theorem rules_are_bit_sets (r o : ConsensusRules) (f i : Z) (b : bool) :
  0 ≤ i →
  (bits (Rules.union r o) i ↔ bits r i ∨ bits o i) ∧
  (bits (Rules.intersection r o) i ↔ bits r i ∧ bits o i) ∧
  (bits (Rules.difference r o) i ↔ bits r i ∧ ¬ bits o i) ∧
  (bits (Rules.symmetricDifference r o) i ↔ ¬ (bits r i ↔ bits o i)) ∧
  (bits (Rules.complement r) i ↔ ¬ bits r i) ∧
  (bits (Rules.set r o b) i ↔ if b then bits r i ∨ bits o i else bits r i ∧ ¬ bits o i) ∧
  (bits (Rules.setFlag r f b) i ↔
     if b then bits r i ∨ flag_bits f i else bits r i ∧ ¬ flag_bits f i) ∧
  (bits (Rules.toggle r o) i ↔ ¬ (bits r i ↔ bits o i)) ∧
  (bits (Rules.toggleFlag r f) i ↔ ¬ (bits r i ↔ flag_bits f i)).
Proof.
  intros Hi. unfold bits, flag_bits, Rules.union, Rules.intersection, Rules.difference,
    Rules.symmetricDifference, Rules.complement, Rules.set, Rules.setFlag, Rules.toggle,
    Rules.toggleFlag, Rules.insert, Rules.remove, Rules.insertFlag, Rules.removeFlag.
  destruct b; cbn [value];
    rewrite ?Z.lor_spec, ?Z.land_spec, ?Z.lxor_spec, ?Z.lnot_spec by done;
    destruct (Z.testbit (value r) i), (Z.testbit (value o) i), (Z.testbit f i); cbn;
    naive_solver.
Qed.

Lemma rules_are_bit_sets_witness :
  0 ≤ 1 ∧ (bits (Rules.setFlag (mkRules 5) 2 true) 1 ↔ bits (mkRules 5) 1 ∨ flag_bits 2 1).
Proof.
  split; [lia|].
  exact (proj1 (proj2 (proj2 (proj2 (proj2 (proj2 (proj2
    (rules_are_bit_sets (mkRules 5) (mkRules 0) 2 1 true ltac:(lia))))))))).
Defined.

(** The tests decide inclusion, intersection, emptiness and equality of the bit
    sets, and a combination of flags has exactly the bits of its flags. *)
Theorem rules_tests_decide (r o : ConsensusRules) (f : Z) (flags : list Z) :
  (Rules.contains r o = true ↔ ∀ i, 0 ≤ i → bits o i → bits r i) ∧
  (Rules.containsFlag r f = true ↔ ∀ i, 0 ≤ i → flag_bits f i → bits r i) ∧
  (Rules.intersects r o = true ↔ ∃ i, bits r i ∧ bits o i) ∧
  (Rules.intersectsFlag r f = true ↔ ∃ i, bits r i ∧ flag_bits f i) ∧
  (Rules.isEmpty r = true ↔ ∀ i, 0 ≤ i → ¬ bits r i) ∧
  (Rules.equals r o = true ↔ ∀ i, 0 ≤ i → bits r i ↔ bits o i) ∧
  (∀ i, bits (Rules.createConsensusRules flags) i ↔ ∃ g, g ∈ flags ∧ flag_bits g i).
Proof.
  unfold bits, flag_bits, Rules.contains, Rules.containsFlag, Rules.intersects,
    Rules.intersectsFlag, Rules.isEmpty, Rules.equals.
  split_and!.
  - apply land_eq_subset.
  - apply land_eq_subset.
  - rewrite negb_true_iff. apply land_nonzero_common.
  - rewrite negb_true_iff. apply land_nonzero_common.
  - rewrite Z.eqb_eq. split; [intros -> i _; by rewrite Z.bits_0|].
    intros Hno. destruct (decide (value r = 0)) as [|Hne]; [done|].
    destruct (nonzero_bit _ Hne) as (i & Hi & Hb). by destruct (Hno i Hi).
  - rewrite Z.eqb_eq. split; [by intros ->|].
    intros Heq. apply Z.bits_inj'. intros i Hi. specialize (Heq i Hi).
    destruct (Z.testbit (value r) i), (Z.testbit (value o) i); naive_solver.
  - intros i. unfold Rules.createConsensusRules, Rules.combine; cbn [value].
    assert (Hgen : ∀ l z, Z.testbit (foldl Z.lor z l) i = true ↔
        Z.testbit z i = true ∨ ∃ g, g ∈ l ∧ Z.testbit g i = true).
    { induction l as [|g l IH]; intros z; cbn; [set_solver|].
      rewrite IH, Z.lor_spec, orb_true_iff. set_solver. }
    rewrite Hgen, Z.bits_0. naive_solver.
Qed.

(** Serialisation round trips: the eight big-endian bytes and the 64-digit
    binary numeral both denote the value modulo [2^64]. *)
Theorem rules_serialisation_roundtrip (r : ConsensusRules) :
  be_combine (Rules.toBeBytes r) = value r mod 2 ^ 64 ∧
  Forall (fun b => 0 ≤ b < 256) (Rules.toBeBytes r) ∧
  ∃ digits, Rules.toBinaryString r = "0b" +:+ digits ∧
    parse_binary 0 digits = Some (value r mod 2 ^ 64).
Proof.
  split_and!.
  - set (w := value r mod 2 ^ 64).
    assert (Hb : Rules.toBeBytes r = Rules.toBeBytes (mkRules w)).
    { apply list_fmap_ext. intros i j Hij. apply lookup_seq in Hij as [-> Hlt]. cbn [value].
      rewrite (land_ones_shiftr (value r)), (land_ones_shiftr w) by lia.
      unfold w. rewrite Z.mod_mod_divide; [done|].
      exists (2 ^ (64 - (8 * (7 - Z.of_nat (0 + i)) + 8))). rewrite <-Z.pow_add_r by lia.
      f_equal. lia. }
    assert (Hw : 0 ≤ w < 2 ^ 64) by (apply Z.mod_pos_bound; lia).
    assert (H64 : Z.shiftr w 64 = 0).
    { rewrite Z.shiftr_div_pow2 by lia. by apply Z.div_small. }
    rewrite Hb. unfold Rules.toBeBytes; cbn [value].
    rewrite (be_prefix w 8) by (done || lia). apply Z.shiftr_0_r.
  - apply Forall_fmap, Forall_true. intros i. cbn. change 255 with (Z.ones 8).
    rewrite Z.land_ones by lia. apply Z.mod_pos_bound. lia.
  - exists (Rules.binary_loop 64 (value r) ""). split; [done|].
    rewrite binary_loop_parse. cbn [parse_binary]. f_equal.
Qed.
