(* ===== verification/Consensus.v ===== *)
(** * Consensus configuration
    (src/src/src/poc/configurations and processor/consensus/ConsensusTracker.ts)

    The configuration record of a consensus version, the Roswell version, the
    [OPNetConsensus] singleton that selects the version for a block height, and
    the tracker the indexer consults before it processes a block. *)

From S2P Require Import Prelude ConsensusRules.
From Stdlib Require Import SpecFloat.

(** ** Enumerations *)

Inductive Consensus : Type :=
| Roswell | Rachel | Kecksburg | Phoenix | Aurora | Rendlesham | Lazar | ShagHarbor
| Exeter | Stephenville | Valensole | Socorro | Pascagoula | Tehran | Westall
| Hopkinsville | Belgium | Breeze | Flatwoods | Maury | Varginha | Trindade | Levelland
| Wanaque | Coyame | Delphos.

#[export] Instance Consensus_eq : EqDecision Consensus.
Proof. solve_decision. Defined.

(** The numeric value of the enum member, and its name ([Consensus[value]]). *)
Definition Consensus_value (c : Consensus) : Z :=
  match c with
  | Roswell => 0 | Rachel => 1 | Kecksburg => 2 | Phoenix => 3 | Aurora => 4
  | Rendlesham => 5 | Lazar => 6 | ShagHarbor => 7 | Exeter => 8 | Stephenville => 9
  | Valensole => 10 | Socorro => 11 | Pascagoula => 12 | Tehran => 13 | Westall => 14
  | Hopkinsville => 15 | Belgium => 16 | Breeze => 17 | Flatwoods => 18 | Maury => 20
  | Varginha => 21 | Trindade => 22 | Levelland => 23 | Wanaque => 24 | Coyame => 25
  | Delphos => 26
  end.

Definition Consensus_name (c : Consensus) : string :=
  match c with
  | Roswell => "Roswell" | Rachel => "Rachel" | Kecksburg => "Kecksburg"
  | Phoenix => "Phoenix" | Aurora => "Aurora" | Rendlesham => "Rendlesham"
  | Lazar => "Lazar" | ShagHarbor => "ShagHarbor" | Exeter => "Exeter"
  | Stephenville => "Stephenville" | Valensole => "Valensole" | Socorro => "Socorro"
  | Pascagoula => "Pascagoula" | Tehran => "Tehran" | Westall => "Westall"
  | Hopkinsville => "Hopkinsville" | Belgium => "Belgium" | Breeze => "Breeze"
  | Flatwoods => "Flatwoods" | Maury => "Maury" | Varginha => "Varginha"
  | Trindade => "Trindade" | Levelland => "Levelland" | Wanaque => "Wanaque"
  | Coyame => "Coyame" | Delphos => "Delphos"
  end.

Inductive ChainIds : Type := Bitcoin | Fractal | Dogecoin | Litecoin.

Inductive BitcoinNetwork : Type := mainnet | testnet | testnet4 | regtest | signet | custom.

#[export] Instance ChainIds_eq : EqDecision ChainIds.
Proof. solve_decision. Defined.

#[export] Instance BitcoinNetwork_eq : EqDecision BitcoinNetwork.
Proof. solve_decision. Defined.

Inductive MLDSASecurityLevel : Type := LEVEL2 | LEVEL3 | LEVEL5.

(** [{ [key in ChainIds]?: { [key in BitcoinNetwork]?: A } }] *)
Definition per_network (A : Type) : Type :=
  list (ChainIds * list (BitcoinNetwork * A)).

Definition network_lookup {A} (t : per_network A) (c : ChainIds) (n : BitcoinNetwork)
  : option A :=
  chain ← JsMap.get t c; JsMap.get chain n.

(** ** The configuration record (types/IOPNetConsensus.ts, types/SpecialContracts.ts) *)

Definition TransactionInputFlags_hasCoinbase : Z := 1.
Definition TransactionInputFlags_hasWitnesses : Z := 2.
Definition TransactionOutputFlags_hasTo : Z := 1.
Definition TransactionOutputFlags_hasScriptPubKey : Z := 2.
Definition TransactionOutputFlags_OP_RETURN : Z := 4.

Section Types.
Context `{BtcLib}.

Record SpecialContract : Type := {
  sc_address : Address;
  freeGas : bool;
  bypassBlockLimit : bool;
  maxExternalGas : Z;
  transactionGasLimit : Z
}.

Definition SpecialContracts : Type := list (string * SpecialContract).

Record OPNetEnabledConfigs : Type := { OE_ENABLED : bool; OE_BLOCK : Z }.

Record EarlyMiningConfig : Type := {
  EM_ENABLED : bool;
  WHITELISTED_PUBLIC_KEY : option Address;
  EXPIRES_AT_BLOCK : option Z;
  PATCH_2_ENABLE_AT_BLOCK : option Z;
  EXPIRES_AT_BLOCK_PATCH_2 : option Z
}.

Record EpochPatches : Type := { GRAFFITI_LENGTH_PATCH_BLOCK_HEIGHT : Z }.

Record EpochConfig : Type := {
  EPOCH_ENABLED : bool;
  BLOCKS_PER_EPOCH : Z;
  MIN_DIFFICULTY : Z;
  GENESIS_PROPOSER_PUBLIC_KEY : Address;
  GRAFFITI_LENGTH : Z;
  TIMELOCK_BLOCKS_REWARD : Z;
  SOLUTION_LIFETIME : Z;
  EARLY_MINING : option (per_network EarlyMiningConfig);
  PATCH : per_network EpochPatches
}.

Record GenericConfig : Type := {
  ENABLED_AT_BLOCK : Z;
  NEXT_CONSENSUS : Consensus;
  NEXT_CONSENSUS_BLOCK : Z;
  IS_READY_FOR_NEXT_CONSENSUS : bool;
  ALLOW_LEGACY : bool
}.

Record ContractsConfig : Type := {
  MAXIMUM_CONTRACT_SIZE_COMPRESSED : Z;
  MAXIMUM_CALLDATA_SIZE_COMPRESSED : Z;
  SPECIAL_CONTRACTS : per_network SpecialContracts
}.

Record MLDSAConfig : Type := {
  ENABLED_LEVELS : list MLDSASecurityLevel;
  MAX_LOADS : Z
}.

(** The [number] parameters of the gas predictor are IEEE doubles. *)
Record GasConfig : Type := {
  COLD_STORAGE_LOAD : Z;
  GAS_PENALTY_FACTOR : Z;
  TARGET_GAS : Z;
  SMOOTH_OUT_GAS_INCREASE : Z;
  MAX_THEORETICAL_GAS : Z;
  TRANSACTION_MAX_GAS : Z;
  EMULATION_MAX_GAS : Z;
  PANIC_GAS_COST : Z;
  SAT_TO_GAS_RATIO : Z;
  MIN_BASE_GAS : spec_float;
  SMOOTHING_FACTOR : spec_float;
  ALPHA1 : spec_float;
  ALPHA2 : spec_float;
  U_TARGET : spec_float
}.

Record TransactionsConfig : Type := {
  MAXIMUM_EVENT_LENGTH : Z;
  MAXIMUM_TOTAL_EVENT_LENGTH : Z;
  MAXIMUM_EVENT_NAME_LENGTH : Z;
  MAXIMUM_RECEIPT_LENGTH : Z;
  MAXIMUM_DEPLOYMENT_DEPTH : Z;
  MAXIMUM_UPDATE_DEPTH : Z;
  MAXIMUM_CALL_DEPTH : Z;
  STORAGE_COST_PER_BYTE : Z;
  REENTRANCY_GUARD : bool;
  SKIP_PROOF_VALIDATION_FOR_EXECUTION_BEFORE_TRANSACTION : bool;
  ENABLE_ACCESS_LIST : bool
}.

Record VMConfig : Type := {
  CONSENSUS_RULES : ConsensusRules;
  CURRENT_DEPLOYMENT_VERSION : Z;
  MAXIMUM_INPUTS : Z;
  MAXIMUM_OUTPUTS : Z;
  WRITE_FLAGS : bool;
  WRITE_COINBASE : bool;
  WRITE_WITNESSES : bool;
  WRITE_SCRIPT_PUB_KEY : bool;
  OP_RETURN_ENABLED : bool;
  OP_RETURN_MAXIMUM_SIZE : Z
}.

Record IOPNetConsensus : Type := {
  CONSENSUS : Consensus;
  CONSENSUS_NAME : string;
  OPNET_ENABLED : per_network OPNetEnabledConfigs;
  PROTOCOL_ID : bytes;
  EPOCH : EpochConfig;
  GENERIC : GenericConfig;
  PREIMAGE_LENGTH : Z;
  CONTRACTS : ContractsConfig;
  MAX_DECOMPRESSED_SIZE : Z;
  MLDSA : MLDSAConfig;
  GAS : GasConfig;
  TRANSACTIONS : TransactionsConfig;
  VM : VMConfig;
  MAXIMUM_TRANSACTION_BROADCAST_SIZE : Z;
  PSBT_MAXIMUM_TRANSACTION_BROADCAST_SIZE : Z;
  MINIMAL_PSBT_ACCEPTANCE_FEE_VB_PER_SAT : Z
}.

(** [{ [key in Consensus]?: IOPNetConsensus }]: [Object.keys] lists integer
    keys in increasing order, which is the order of this list. *)
Definition IOPNetConsensusObj : Type := list (Consensus * option IOPNetConsensus).

End Types.

(** ** The Roswell consensus (consensus/RoswellConsensus.ts, roswell/) *)

(** Doubles written in the configuration: 1.0, 0.5 and 0.4. *)
Definition number_1_0 : spec_float := S754_finite false 4503599627370496 (-52).
Definition number_0_5 : spec_float := S754_finite false 4503599627370496 (-53).
Definition number_0_4 : spec_float := S754_finite false 7205759403792794 (-54).

Section Roswell.
Context `{BtcLib}.

Definition nativeSwapRegtest : Address :=
  Address_fromString "0xfcab8f4f47c83846581eb2c1b07918971af2100d245444d9c3dee1a3dadd6d4f".
Definition nativeSwapMainnet : Address :=
  Address_fromString "0xbaf131d22120efe459586eb9eda2590f78044851bfcda49365ed1c1dbc863ee4".
Definition nativeSwapTestnet : Address :=
  Address_fromString "0x4397befe4e067390596b3c296e77fe86589487bf3bf3f0a9a93ce794e2d78fb5".

(** [{ ...nativeSwapContractSettings, address }] *)
Definition nativeSwapContractSettings (address : Address) : SpecialContract := {|
  sc_address := address;
  freeGas := true;
  bypassBlockLimit := true;
  maxExternalGas := 12000000000;
  transactionGasLimit := 600000000000
|}.

Definition SPECIAL_CONTRACTS_ROSWELL_REGTEST : SpecialContracts :=
  [(Address_toHex nativeSwapRegtest, nativeSwapContractSettings nativeSwapRegtest)].
Definition SPECIAL_CONTRACTS_ROSWELL_TESTNET : SpecialContracts :=
  [(Address_toHex nativeSwapTestnet, nativeSwapContractSettings nativeSwapTestnet)].
Definition SPECIAL_CONTRACTS_ROSWELL_TESTNET4 : SpecialContracts := [].
Definition SPECIAL_CONTRACTS_ROSWELL_MAINNET : SpecialContracts :=
  [(Address_toHex nativeSwapMainnet, nativeSwapContractSettings nativeSwapMainnet)].

Definition RoswellConsensusRules : ConsensusRules :=
  Rules.insertFlag (mkRules 0) UNSAFE_QUANTUM_SIGNATURES_ALLOWED.

Definition Roswell_OPNET_ENABLED : per_network OPNetEnabledConfigs :=
  [(Bitcoin,
    [(mainnet, {| OE_ENABLED := true; OE_BLOCK := 941396 |});
     (testnet, {| OE_ENABLED := true; OE_BLOCK := 100 |});
     (regtest, {| OE_ENABLED := true; OE_BLOCK := 100 |})])].

(** The whitelisted key is built from an ML-DSA hash and a legacy key; equality
    of addresses is on the former. *)
Definition Roswell_EPOCH : EpochConfig := {|
  EPOCH_ENABLED := true;
  BLOCKS_PER_EPOCH := 5;
  MIN_DIFFICULTY := 35;
  GENESIS_PROPOSER_PUBLIC_KEY := Address_dead;
  GRAFFITI_LENGTH := 16;
  TIMELOCK_BLOCKS_REWARD := 75;
  SOLUTION_LIFETIME := 80;
  EARLY_MINING := Some
    [(Bitcoin,
      [(mainnet,
        {| EM_ENABLED := true;
           WHITELISTED_PUBLIC_KEY := Some (Address_fromString
             "0xb884f251011f1b2f747a477b0d019c3abea15c889ea5e404bf7ed5e219af7de1");
           EXPIRES_AT_BLOCK := Some 955357;
           PATCH_2_ENABLE_AT_BLOCK := Some 948230;
           EXPIRES_AT_BLOCK_PATCH_2 := Some 1000069 |});
       (testnet,
        {| EM_ENABLED := false; WHITELISTED_PUBLIC_KEY := None; EXPIRES_AT_BLOCK := None;
           PATCH_2_ENABLE_AT_BLOCK := None; EXPIRES_AT_BLOCK_PATCH_2 := None |});
       (regtest,
        {| EM_ENABLED := true; WHITELISTED_PUBLIC_KEY := None; EXPIRES_AT_BLOCK := None;
           PATCH_2_ENABLE_AT_BLOCK := None; EXPIRES_AT_BLOCK_PATCH_2 := None |})])];
  PATCH :=
    [(Bitcoin,
      [(mainnet, {| GRAFFITI_LENGTH_PATCH_BLOCK_HEIGHT := 943452 |});
       (testnet, {| GRAFFITI_LENGTH_PATCH_BLOCK_HEIGHT := 12583 |});
       (regtest, {| GRAFFITI_LENGTH_PATCH_BLOCK_HEIGHT := 0 |})])]
|}.

Definition Roswell_GENERIC : GenericConfig := {|
  ENABLED_AT_BLOCK := -1;
  NEXT_CONSENSUS := Rachel;
  NEXT_CONSENSUS_BLOCK := 953020;
  IS_READY_FOR_NEXT_CONSENSUS := false;
  ALLOW_LEGACY := false
|}.

Definition Roswell_CONTRACTS : ContractsConfig := {|
  MAXIMUM_CONTRACT_SIZE_COMPRESSED := 1536 * 1024;
  MAXIMUM_CALLDATA_SIZE_COMPRESSED := 380 * 1024;
  SPECIAL_CONTRACTS :=
    [(Bitcoin,
      [(mainnet, SPECIAL_CONTRACTS_ROSWELL_MAINNET);
       (testnet, SPECIAL_CONTRACTS_ROSWELL_TESTNET);
       (testnet4, SPECIAL_CONTRACTS_ROSWELL_TESTNET4);
       (regtest, SPECIAL_CONTRACTS_ROSWELL_REGTEST)])]
|}.

Definition Roswell_GAS : GasConfig := {|
  COLD_STORAGE_LOAD := 21000000;
  GAS_PENALTY_FACTOR := 1;
  TARGET_GAS := 20000000000001;
  SMOOTH_OUT_GAS_INCREASE := 1000000000;
  MAX_THEORETICAL_GAS := 20000000000000;
  TRANSACTION_MAX_GAS := 150000000000;
  EMULATION_MAX_GAS := 149000000000;
  PANIC_GAS_COST := 100000000;
  SAT_TO_GAS_RATIO := 1000000;
  MIN_BASE_GAS := number_1_0;
  SMOOTHING_FACTOR := number_0_4;
  ALPHA1 := number_0_5;
  ALPHA2 := number_1_0;
  U_TARGET := number_1_0
|}.

Definition Roswell_TRANSACTIONS : TransactionsConfig := {|
  MAXIMUM_EVENT_LENGTH := 1024 * 1024;
  MAXIMUM_TOTAL_EVENT_LENGTH := 1024 * 1024 * 2;
  MAXIMUM_EVENT_NAME_LENGTH := 64;
  MAXIMUM_RECEIPT_LENGTH := 2048;
  MAXIMUM_DEPLOYMENT_DEPTH := 2;
  MAXIMUM_CALL_DEPTH := 50;
  REENTRANCY_GUARD := false;
  STORAGE_COST_PER_BYTE := 50000;
  SKIP_PROOF_VALIDATION_FOR_EXECUTION_BEFORE_TRANSACTION := true;
  ENABLE_ACCESS_LIST := false;
  MAXIMUM_UPDATE_DEPTH := 1
|}.

Definition Roswell_VM : VMConfig := {|
  CONSENSUS_RULES := RoswellConsensusRules;
  CURRENT_DEPLOYMENT_VERSION := 0;
  MAXIMUM_INPUTS := 250;
  MAXIMUM_OUTPUTS := 250;
  WRITE_FLAGS := true;
  WRITE_COINBASE := true;
  WRITE_WITNESSES := true;
  WRITE_SCRIPT_PUB_KEY := true;
  OP_RETURN_ENABLED := true;
  OP_RETURN_MAXIMUM_SIZE := 1200
|}.

Definition RoswellConsensus : IOPNetConsensus := {|
  CONSENSUS := Roswell;
  CONSENSUS_NAME := "Roswell";
  OPNET_ENABLED := Roswell_OPNET_ENABLED;
  PROTOCOL_ID := fromHex "e784995a412d773988c4b8e333d7b39dfb3cabf118d0d645411a916ca2407939";
  EPOCH := Roswell_EPOCH;
  GENERIC := Roswell_GENERIC;
  PREIMAGE_LENGTH := 20;
  CONTRACTS := Roswell_CONTRACTS;
  MAX_DECOMPRESSED_SIZE := 1024 * 1024 * 2;
  MAXIMUM_TRANSACTION_BROADCAST_SIZE := 400000;
  PSBT_MAXIMUM_TRANSACTION_BROADCAST_SIZE := 0;
  MLDSA := {| ENABLED_LEVELS := [LEVEL2]; MAX_LOADS := 50 |};
  GAS := Roswell_GAS;
  TRANSACTIONS := Roswell_TRANSACTIONS;
  VM := Roswell_VM;
  MINIMAL_PSBT_ACCEPTANCE_FEE_VB_PER_SAT := 5
|}.

End Roswell.

(** ** The configuration singleton (OPNetConsensus.ts) *)

(** The part of [Config] that is read here. *)
Record NodeConfig : Type := {
  CHAIN_ID : ChainIds;
  NETWORK : BitcoinNetwork;
  REINDEX : bool;
  REINDEX_FROM_BLOCK : Z
}.

Inductive consensus_error : Type :=
| ConsensusNotSet
| ChainNotSupported
| NetworkNotSupported
| InvalidBlockHeight (h : Z)
| NextConsensusNotSet
| NextConsensusNotReady
| NextConsensusNotFound
(** BigInt division by [0n]. *)
| RangeError
(** [process.exit(code)]: the process ends, no handler runs. *)
| ProcessExit (code : Z).

Module OPNetConsensus.
Section OPNetConsensus.
Context `{BtcLib} (Config : NodeConfig) (allConsensus : IOPNetConsensusObj).

(** The object; a callback is known by its index, and [notified] records the
    calls made to the callbacks, oldest first. *)
Record state : Type := mkState {
  blockHeight : Z;
  callbacks : list nat;
  consensus_ : option IOPNetConsensus;
  notified : list (nat * string * bool)
}.

Definition initial : state := mkState 0 [] None [].

Definition imminentConsensusBlockDifference : Z := 1008.

Definition consensus (s : state) : result consensus_error IOPNetConsensus :=
  match consensus_ s with Some c => Ok c | None => Throw ConsensusNotSet end.

Definition consensusEpochPatches (s : state) : result consensus_error EpochPatches :=
  c ← consensus s;
  match JsMap.get (PATCH (EPOCH c)) (CHAIN_ID Config) with
  | None => Throw ChainNotSupported
  | Some chainConfig =>
      match JsMap.get chainConfig (NETWORK Config) with
      | None => Throw NetworkNotSupported
      | Some networkConfig => Ok networkConfig
      end
  end.

Definition allowUnsafeSignatures (s : state) : result consensus_error bool :=
  c ← consensus s;
  Ok (Rules.containsFlag (CONSENSUS_RULES (VM c)) UNSAFE_QUANTUM_SIGNATURES_ALLOWED).

Definition consensusRules (s : state) : result consensus_error ConsensusRules :=
  c ← consensus s; Ok (CONSENSUS_RULES (VM c)).

Definition opnetEnabled (s : state) : result consensus_error OPNetEnabledConfigs :=
  c ← consensus s;
  Ok (default {| OE_ENABLED := false; OE_BLOCK := 0 |}
        (network_lookup (OPNET_ENABLED c) (CHAIN_ID Config) (NETWORK Config))).

Definition allowContractUpdates (s : state) : result consensus_error bool :=
  c ← consensus s;
  Ok (Rules.containsFlag (CONSENSUS_RULES (VM c)) CONTRACT_UPDATES_ALLOWED).

Definition calculateCurrentEpoch (s : state) (h : Z) : result consensus_error Z :=
  if decide (h < 0) then Throw (InvalidBlockHeight h)
  else c ← consensus s; bdiv RangeError h (BLOCKS_PER_EPOCH (EPOCH c)).

Definition addConsensusUpgradeCallback (cb : nat) (s : state) : state :=
  mkState (blockHeight s) (callbacks s ++ [cb]) (consensus_ s) (notified s).

Definition isNextConsensusImminent (s : state) : result consensus_error bool :=
  c ← consensus s;
  Ok (bool_decide (NEXT_CONSENSUS_BLOCK (GENERIC c) - blockHeight s
                   ≤ imminentConsensusBlockDifference)).

Definition specialContract (s : state) (address : string)
  : result consensus_error (option SpecialContract) :=
  c ← consensus s;
  Ok (network ← network_lookup (SPECIAL_CONTRACTS (CONTRACTS c)) (CHAIN_ID Config) (NETWORK Config);
      JsMap.get network address).

Definition isConsensusBlock (s : state) : result consensus_error bool :=
  c ← consensus s; Ok (bool_decide (NEXT_CONSENSUS_BLOCK (GENERIC c) = blockHeight s)).

Definition getBlockHeight (s : state) : Z := blockHeight s.

Definition isReadyForNextConsensus (s : state) : result consensus_error bool :=
  c ← consensus s; Ok (IS_READY_FOR_NEXT_CONSENSUS (GENERIC c)).

Definition hasConsensus (s : state) : bool := bool_decide (is_Some (consensus_ s)).

Definition set_consensus (s : state) (c : option IOPNetConsensus) : state :=
  mkState (blockHeight s) (callbacks s) c (notified s).

Definition triggerConsensusEnforcementCallbacks (wasReady : bool)
  : stx state consensus_error unit := fun s =>
  match consensus s with
  | Throw e => (s, Throw e)
  | Ok c =>
      let nextConsensusName := Consensus_name (NEXT_CONSENSUS (GENERIC c)) in
      (mkState (blockHeight s) (callbacks s) (consensus_ s)
         (notified s ++ ((fun cb => (cb, nextConsensusName, wasReady)) <$> callbacks s)),
       Ok tt)
  end.

(** Replacing the consensus by the next one; [#consensus] is cleared before the
    checks, so a failure leaves the node without a consensus. *)
Definition enforceNextConsensus : stx state consensus_error unit := fun s =>
  match consensus s with
  | Throw e => (s, Throw e)
  | Ok c =>
      let nextConsensus := NEXT_CONSENSUS (GENERIC c) in
      if decide (Consensus_value nextConsensus = 0) then (s, Throw NextConsensusNotSet)
      else
        let isReady := IS_READY_FOR_NEXT_CONSENSUS (GENERIC c) in
        match triggerConsensusEnforcementCallbacks isReady s with
        | (s1, Throw e) => (s1, Throw e)
        | (s1, Ok _) =>
            let s2 := set_consensus s1 None in
            if isReady
            then match mjoin (JsMap.get allConsensus nextConsensus) with
                 | None => (s2, Throw NextConsensusNotFound)
                 | Some consensusConfig => (set_consensus s2 (Some consensusConfig), Ok tt)
                 end
            else (s2, Throw NextConsensusNotReady)
        end
  end.

(** The loop of [updateConfigurations] over the known versions. *)
Fixpoint updateConfigurations_loop (table : IOPNetConsensusObj) (s : state)
  : state * result consensus_error unit :=
  match table with
  | [] => (s, Ok tt)
  | (_, None) :: _ => (s, Throw (ProcessExit 1))
  | (_, Some consensusConfig) :: table' =>
      if decide (blockHeight s < ENABLED_AT_BLOCK (GENERIC consensusConfig))
      then updateConfigurations_loop table' s
      else
        let s' := set_consensus s (Some consensusConfig) in
        if decide (blockHeight s ≤ NEXT_CONSENSUS_BLOCK (GENERIC consensusConfig))
        then (s', Ok tt)
        else if IS_READY_FOR_NEXT_CONSENSUS (GENERIC consensusConfig)
        then updateConfigurations_loop table' s'
        else (s', Throw (ProcessExit 1))
  end.

Definition updateConfigurations : stx state consensus_error unit :=
  updateConfigurations_loop allConsensus.

Definition setBlockHeight (h : Z) (wasReorg : bool) : stx state consensus_error unit := fun s =>
  let h' := if REINDEX Config && negb (hasConsensus s) && negb wasReorg
            then REINDEX_FROM_BLOCK Config else h in
  let s1 := mkState h' (callbacks s) (consensus_ s) (notified s) in
  match (if hasConsensus s1 then (s1, Ok tt) else updateConfigurations s1) with
  | (s2, Throw e) => (s2, Throw e)
  | (s2, Ok _) =>
      match consensus_ s2 with
      | Some c =>
          if decide (NEXT_CONSENSUS_BLOCK (GENERIC c) ≤ h')
          then enforceNextConsensus s2 else (s2, Ok tt)
      | None => (s2, Ok tt)
      end
  end.

End OPNetConsensus.
End OPNetConsensus.

(** ** The tracker (ConsensusTracker.ts) *)

Module ConsensusTracker.
Section ConsensusTracker.
Context `{BtcLib} (Config : NodeConfig) (allConsensus : IOPNetConsensusObj).

(** [hasConsensus() && isConsensusBlock() && !isReadyForNextConsensus()]: the
    getters throw without a consensus, which the first conjunct excludes. *)
Definition verifyConsensus (s : OPNetConsensus.state) : result consensus_error bool :=
  if OPNetConsensus.hasConsensus s
  then b ← OPNetConsensus.isConsensusBlock s;
       if b : bool then r ← OPNetConsensus.isReadyForNextConsensus s; Ok (negb r)
       else Ok false
  else Ok false.

(** The body of the [try] block; the last statement of the source only logs a
    warning, but its getters can throw. *)
Definition try_set (h : Z) : stx OPNetConsensus.state consensus_error bool := fun s =>
  match verifyConsensus s with
  | Throw e => (s, Throw e)
  | Ok true => (s, Ok true)
  | Ok false =>
      match OPNetConsensus.setBlockHeight Config allConsensus h false s with
      | (s', Throw e) => (s', Throw e)
      | (s', Ok _) =>
          match verifyConsensus s' with
          | Throw e => (s', Throw e)
          | Ok true => (s', Ok true)
          | Ok false =>
              (s', i ← OPNetConsensus.isNextConsensusImminent s';
                   if i : bool
                   then _ ← OPNetConsensus.isReadyForNextConsensus s'; Ok false
                   else Ok false)
          end
      end
  end.

(** [catch { return true; }]; [process.exit] is not an exception. *)
Definition setConsensusBlockHeight (h : Z) : stx OPNetConsensus.state consensus_error bool :=
  fun s =>
  match try_set h s with
  | (s', Ok b) => (s', Ok b)
  | (s', Throw (ProcessExit code)) => (s', Throw (ProcessExit code))
  | (s', Throw _) => (s', Ok true)
  end.

End ConsensusTracker.
End ConsensusTracker.

(** ** Theorems *)

(** The versions this node knows: [allConsensus] of the source. *)
Definition nodeConsensus `{BtcLib} : IOPNetConsensusObj := [(Roswell, Some RoswellConsensus)].

Section Upgrade.
Context `{BtcLib} (Config : NodeConfig) (table : IOPNetConsensusObj).

(** The consensus in force is one the node knows. *)
Definition known (s : OPNetConsensus.state) : Prop :=
  match OPNetConsensus.consensus_ s with
  | None => True
  | Some c => ∃ k, (k, Some c) ∈ table
  end.

Lemma update_loop_spec t s s' :
  OPNetConsensus.updateConfigurations_loop t s = (s', Ok tt) →
  OPNetConsensus.blockHeight s' = OPNetConsensus.blockHeight s ∧
  (OPNetConsensus.consensus_ s' = OPNetConsensus.consensus_ s ∨
   ∃ k c, (k, Some c) ∈ t ∧ OPNetConsensus.consensus_ s' = Some c ∧
     ENABLED_AT_BLOCK (GENERIC c) ≤ OPNetConsensus.blockHeight s).
Proof.
  revert s. induction t as [|[k [c|]] t IH]; intros s; cbn.
  - intros [= <-]. auto.
  - repeat case_decide.
    + intros [? [?|(k' & c' & ? & ? & ?)]]%IH; split; auto.
      right. exists k', c'. split; [by right|]. auto.
    + intros [= <-]. split; [done|]. right. exists k, c. split; [left|]. split; [done|]. lia.
    + destruct (IS_READY_FOR_NEXT_CONSENSUS (GENERIC c)); [|done].
      intros [Hh [Hc|(k' & c' & ? & ? & ?)]]%IH; cbn in *; split; auto; right.
      * exists k, c. split; [left|]. split; [done|]. lia.
      * exists k', c'. split; [by right|]. auto.
  - done.
Qed.

Lemma enforce_spec s s' :
  OPNetConsensus.enforceNextConsensus table s = (s', Ok tt) →
  ∃ c c', OPNetConsensus.consensus_ s = Some c ∧
    IS_READY_FOR_NEXT_CONSENSUS (GENERIC c) = true ∧
    JsMap.get table (NEXT_CONSENSUS (GENERIC c)) = Some (Some c') ∧
    OPNetConsensus.consensus_ s' = Some c' ∧
    OPNetConsensus.blockHeight s' = OPNetConsensus.blockHeight s.
Proof.
  unfold OPNetConsensus.enforceNextConsensus, OPNetConsensus.consensus,
    OPNetConsensus.triggerConsensusEnforcementCallbacks, OPNetConsensus.consensus.
  destruct (OPNetConsensus.consensus_ s) as [c|] eqn:Hc; [|done].
  case_decide; [done|]. cbn.
  destruct (IS_READY_FOR_NEXT_CONSENSUS (GENERIC c)) eqn:Hr; [|done].
  destruct (JsMap.get table (NEXT_CONSENSUS (GENERIC c))) as [[c'|]|] eqn:Hg; cbn; [|done..].
  intros [= <-]. by exists c, c'.
Qed.

(** When [setBlockHeight] returns, the version in force is known to the node,
    and either it has not expired at the new height, or it was installed by an
    upgrade whose predecessor had expired and was ready for it. *)
Theorem setBlockHeight_sound h wasReorg s s' c :
  known s →
  OPNetConsensus.setBlockHeight Config table h wasReorg s = (s', Ok tt) →
  OPNetConsensus.consensus_ s' = Some c →
  known s' ∧
  (OPNetConsensus.blockHeight s' < NEXT_CONSENSUS_BLOCK (GENERIC c) ∨
   ∃ c0, IS_READY_FOR_NEXT_CONSENSUS (GENERIC c0) = true ∧
     NEXT_CONSENSUS_BLOCK (GENERIC c0) ≤ OPNetConsensus.blockHeight s' ∧
     JsMap.get table (NEXT_CONSENSUS (GENERIC c0)) = Some (Some c)).
Proof.
  intros Hk. unfold OPNetConsensus.setBlockHeight.
  set (h' := if _ && _ && _ then _ else _).
  set (s1 := OPNetConsensus.mkState h' _ _ _).
  destruct (if OPNetConsensus.hasConsensus s1 then _ else _) as [s2 [[]|e]] eqn:E2; [|done].
  assert (OPNetConsensus.blockHeight s2 = h' ∧ known s2) as [Hh2 Hk2].
  { destruct (OPNetConsensus.hasConsensus s1); [by injection E2 as <-|].
    apply update_loop_spec in E2 as [Hh Hc]. split; [done|]. unfold known.
    destruct Hc as [->|(k & c' & Hin & -> & _)]; [done|eauto]. }
  destruct (OPNetConsensus.consensus_ s2) as [c2|] eqn:Hc2.
  - case_decide as Hexp.
    + intros (c0 & c' & Hc0 & Hr & Hg & Hc' & Hh')%enforce_spec. intros Hc.
      assert (c' = c) as -> by congruence. assert (c2 = c0) as -> by congruence. split.
      * unfold known. rewrite Hc'. eauto using JsMap.get_elem_of.
      * right. exists c0. rewrite Hh', Hh2. done.
    + intros [= <-]. rewrite Hc2. intros [= <-]. split; [done|]. left. lia.
  - intros [= <-]. by rewrite Hc2.
Qed.

(** A consensus is in force, and the node is ready for an upgrade at its block. *)
Definition consensus_in_force (s : OPNetConsensus.state) : Prop :=
  ∃ c, OPNetConsensus.consensus_ s = Some c ∧
    (NEXT_CONSENSUS_BLOCK (GENERIC c) = OPNetConsensus.blockHeight s →
     IS_READY_FOR_NEXT_CONSENSUS (GENERIC c) = true).

(** The tracker lets its caller proceed only then. *)
Lemma tracker_lets_proceed h s s' :
  ConsensusTracker.setConsensusBlockHeight Config table h s = (s', Ok false) →
  consensus_in_force s'.
Proof.
  unfold ConsensusTracker.setConsensusBlockHeight, ConsensusTracker.try_set.
  destruct (ConsensusTracker.verifyConsensus s) as [[]|e]; [done| |by destruct e].
  destruct (OPNetConsensus.setBlockHeight _ _ _ _ s) as [s1 [[]|e]]; [|by destruct e].
  unfold ConsensusTracker.verifyConsensus, OPNetConsensus.hasConsensus,
    OPNetConsensus.isConsensusBlock, OPNetConsensus.isReadyForNextConsensus,
    OPNetConsensus.isNextConsensusImminent, OPNetConsensus.consensus.
  destruct (OPNetConsensus.consensus_ s1) as [c|] eqn:Hc; cbn.
  - case_bool_decide as Hb; cbn.
    + destruct (IS_READY_FOR_NEXT_CONSENSUS (GENERIC c)) eqn:Hr; cbn; [|done].
      intros Heq. exists c. case_bool_decide; simplify_eq; auto.
    + intros Heq. exists c. case_bool_decide; simplify_eq; naive_solver.
  - done.
Qed.

End Upgrade.

Section Node.
Context `{BtcLib} (Config : NodeConfig).

(** The height that is set: a node that reindexes starts at the block of its
    configuration, whatever it is given, unless it goes back. *)
Definition set_height (h : Z) (wasReorg : bool) (s : OPNetConsensus.state) : Z :=
  if REINDEX Config && negb (OPNetConsensus.hasConsensus s) && negb wasReorg then REINDEX_FROM_BLOCK Config else h.

(** The states in which this node runs: no version selected yet, or Roswell. *)
Definition node_state (s : OPNetConsensus.state) : Prop :=
  OPNetConsensus.consensus_ s = None ∨ OPNetConsensus.consensus_ s = Some RoswellConsensus.

(** The node's versions at every height: Roswell below block 953020; at the
    upgrade block the update throws, the callbacks are told that Rachel is not
    ready and no consensus is left; beyond it a fresh process exits. *)
Lemma node_setBlockHeight h wasReorg s :
  node_state s → let h' := set_height h wasReorg s in -1 ≤ h' →
  let r := OPNetConsensus.setBlockHeight Config nodeConsensus h wasReorg s in
  (h' < 953020 →
     r = (OPNetConsensus.mkState h' (OPNetConsensus.callbacks s) (Some RoswellConsensus)
            (OPNetConsensus.notified s), Ok tt)) ∧
  (953020 ≤ h' → h' = 953020 ∨ OPNetConsensus.consensus_ s = Some RoswellConsensus →
     r.2 = Throw NextConsensusNotReady ∧ OPNetConsensus.consensus_ r.1 = None ∧
     OPNetConsensus.notified r.1 = OPNetConsensus.notified s ++
       ((fun cb => (cb, "Rachel", false)) <$> OPNetConsensus.callbacks s)) ∧
  (953020 < h' → OPNetConsensus.consensus_ s = None → r.2 = Throw (ProcessExit 1)).
Proof.
  intros Hs h' Hh. unfold OPNetConsensus.setBlockHeight. fold (set_height h wasReorg s). fold h'. clearbody h'.
  unfold OPNetConsensus.updateConfigurations, nodeConsensus,
    OPNetConsensus.hasConsensus, OPNetConsensus.enforceNextConsensus,
    OPNetConsensus.triggerConsensusEnforcementCallbacks, OPNetConsensus.consensus.
  destruct Hs as [Hs|Hs]; rewrite Hs; cbn -[RoswellConsensus].
  - change (ENABLED_AT_BLOCK (GENERIC RoswellConsensus)) with (-1).
    change (NEXT_CONSENSUS_BLOCK (GENERIC RoswellConsensus)) with 953020.
    change (IS_READY_FOR_NEXT_CONSENSUS (GENERIC RoswellConsensus)) with false.
    rewrite decide_False by lia.
    destruct (decide (h' ≤ 953020)); cbn -[RoswellConsensus].
    + change (NEXT_CONSENSUS_BLOCK (GENERIC RoswellConsensus)) with 953020.
      case_decide; split_and!; intros; try lia; cbn; auto.
    + split_and!; intros; try lia; [|done]. naive_solver lia.
  - change (NEXT_CONSENSUS_BLOCK (GENERIC RoswellConsensus)) with 953020.
    case_decide; split_and!; intros; try lia; try done; cbn; auto.
Qed.

(** Before the update the tracker stops only at the upgrade block itself. *)
Lemma node_verify s :
  node_state s → OPNetConsensus.blockHeight s ≠ 953020 ∨ OPNetConsensus.consensus_ s = None →
  ConsensusTracker.verifyConsensus s = Ok false.
Proof.
  intros [Hs|Hs] Hb; unfold ConsensusTracker.verifyConsensus, OPNetConsensus.hasConsensus,
    OPNetConsensus.isConsensusBlock, OPNetConsensus.consensus; rewrite Hs; [done|].
  cbn -[RoswellConsensus]. change (NEXT_CONSENSUS_BLOCK (GENERIC RoswellConsensus)) with 953020.
  destruct Hb as [Hb|Hb]; [|congruence]. by rewrite bool_decide_false.
Qed.

(** C30: What the tracker answers on this node at every height.  The height is the
    one it is given, or, while a node that reindexes has no consensus, the block
    from which it reindexes.  Below block 953020 the indexer proceeds under
    Roswell.  A node that reaches the upgrade block is stopped: its callbacks
    are told that Rachel is not ready, and no consensus is left.  A process that
    starts beyond it, or goes on after being stopped, exits. *)
Theorem node_tracker h s :
  node_state s → OPNetConsensus.blockHeight s ≠ 953020 ∨ OPNetConsensus.consensus_ s = None →
  let h' := set_height h false s in -1 ≤ h' →
  let r := ConsensusTracker.setConsensusBlockHeight Config nodeConsensus h s in
  (h' < 953020 →
     r = (OPNetConsensus.mkState h' (OPNetConsensus.callbacks s) (Some RoswellConsensus)
            (OPNetConsensus.notified s), Ok false)) ∧
  (953020 ≤ h' → h' = 953020 ∨ OPNetConsensus.consensus_ s = Some RoswellConsensus →
     r.2 = Ok true ∧ OPNetConsensus.consensus_ r.1 = None ∧
     OPNetConsensus.notified r.1 = OPNetConsensus.notified s ++
       ((fun cb => (cb, "Rachel", false)) <$> OPNetConsensus.callbacks s)) ∧
  (953020 < h' → OPNetConsensus.consensus_ s = None → r.2 = Throw (ProcessExit 1)).
Proof.
  intros Hs Hb h' Hh. cbv zeta.
  unfold ConsensusTracker.setConsensusBlockHeight, ConsensusTracker.try_set.
  rewrite (node_verify s Hs Hb). cbn [negb].
  destruct (node_setBlockHeight h false s Hs Hh) as (Hlow & Hat & Hpast).
  fold h' in Hlow, Hat, Hpast. clearbody h'. destruct (OPNetConsensus.setBlockHeight Config nodeConsensus h false s) as [s1 r1].
  cbn [fst snd] in *. split_and!.
  - intros Hlt. specialize (Hlow Hlt) as [= -> ->]. rewrite node_verify; [|by right|left; cbn; lia].
    unfold OPNetConsensus.isNextConsensusImminent, OPNetConsensus.isReadyForNextConsensus,
      OPNetConsensus.consensus. cbn -[RoswellConsensus].
    by case_bool_decide.
  - intros Hge Hc. destruct (Hat Hge Hc) as (-> & ? & ?). done.
  - intros Hgt Hn. by rewrite (Hpast Hgt Hn).
Qed.

End Node.

(** A mainnet node without reindexing. *)
Definition mainnet_config : NodeConfig := {|
  CHAIN_ID := Bitcoin; NETWORK := mainnet; REINDEX := false; REINDEX_FROM_BLOCK := 0 |}.

Definition started (h : Z) : OPNetConsensus.state (H := string_btclib) :=
  OPNetConsensus.mkState h [] (Some (@RoswellConsensus string_btclib)) [].

Lemma setBlockHeight_sound_witness :
  known (@nodeConsensus string_btclib) (started 941396).
Proof.
  apply (setBlockHeight_sound mainnet_config nodeConsensus 941396 false
    OPNetConsensus.initial (started 941396) RoswellConsensus I); reflexivity.
Defined.

Lemma node_tracker_witness :
  (ConsensusTracker.setConsensusBlockHeight mainnet_config nodeConsensus 953020
     (started 953019)).2 = Ok true.
Proof.
  destruct (node_tracker mainnet_config 953020 (started 953019)
    (or_intror eq_refl) ltac:(left; cbn; lia) ltac:(vm_compute; discriminate)) as (_ & H1 & _).
  apply H1; [vm_compute; discriminate|left; reflexivity].
Defined.
