(* ===== verification/Gas.v ===== *)
(** * Gas accounting

    [BlockGasPredictor] (processor/gas/BlockGasPredictor.ts) computes the base
    gas price of the next block from an exponential moving average,
    [GasTracker] (vm/runtime/GasTracker.ts) counts the gas of a transaction,
    and [calculateMaxGas] (utils/GasUtils.ts) converts a fee into a gas limit. *)

From S2P Require Import Prelude ConsensusRules Consensus.
From Stdlib Require Import SpecFloat.

(** ** Numbers *)

(** Multiplication of IEEE doubles. *)
Definition number_mul (a b : spec_float) : spec_float := SFmul 53 1024 a b.

(** [Math.round]: the nearest integer, ties toward positive infinity; [None]
    when the result is not finite. *)
Definition math_round (x : spec_float) : option Z :=
  match x with
  | S754_zero _ => Some 0
  | S754_finite s m e =>
      let v := if s then Zneg m else Zpos m in
      Some (if decide (0 ≤ e) then v * 2 ^ e
            else (2 * v + 2 ^ (- e)) / 2 ^ (- e + 1))
  | S754_infinity _ | S754_nan => None
  end.

(** [BigInt(x)] throws a RangeError unless [x] is an integer. *)
Definition bigint_of_number (x : spec_float) : option Z :=
  match x with
  | S754_zero _ => Some 0
  | S754_finite s m e =>
      let v := if s then Zneg m else Zpos m in
      if decide (0 ≤ e) then Some (v * 2 ^ e)
      else if decide (v mod 2 ^ (- e) = 0) then Some (v / 2 ^ (- e)) else None
  | S754_infinity _ | S754_nan => None
  end.

(** [Number(100000000n)] *)
Definition number_scalingFactor : spec_float := S754_finite false 6710886400000000 (-26).

Inductive gas_error : Type :=
| DivisionByZero
| BigIntRangeError
| NegativeGas
| NegativeSpecialGas
| OutOfGasFree (used limit : Z)
| OutOfGas (used limit : Z)
| SpecialGasNotZero.

(** ** The predictor *)

Module BlockGasPredictor.

Definition scalingFactor : Z := 10 ^ 8.
Definition one : Z := scalingFactor.

Record CalculatedBlockGas : Type := { bNext : Z; ema : Z }.

Record t : Type := mk {
  gasTarget : Z;
  bMin : Z;
  smoothingFactor : Z;
  alpha1 : Z;
  alpha2 : Z;
  uTarget : Z;
  currentB : Z
}.

(** [BigInt(Math.round(value * Number(scalingFactor)))] *)
Definition toBase (v : spec_float) : result gas_error Z :=
  match math_round (number_mul v number_scalingFactor) with
  | Some z => Ok z
  | None => Throw BigIntRangeError
  end.

Definition toBaseBigInt (v : Z) : Z := v * scalingFactor.

Definition construct (bMin : spec_float) (currentB : option Z) (gasTarget smoothTarget : Z)
    (smoothingFactor alpha1 alpha2 uTarget : spec_float) : result gas_error t :=
  bMin' ← toBase bMin;
  smoothing' ← toBase smoothingFactor;
  alpha1' ← toBase alpha1;
  alpha2' ← toBase alpha2;
  uTarget' ← toBase uTarget;
  Ok (mk (gasTarget + smoothTarget) bMin' smoothing' alpha1' alpha2' uTarget'
        (match currentB with
         | Some b => if decide (0 < b) then b else bMin'
         | None => bMin'
         end)).

Definition max (a b : Z) : Z := if decide (b < a) then a else b.

Definition multiplyBigInt (a b : Z) : Z := Z.quot (a * b) scalingFactor.

Definition divideBigInt (a b : Z) : result gas_error Z :=
  if decide (b = 0) then Throw DivisionByZero
  else Ok (Z.quot (a * scalingFactor) b).

Definition calculateUCurrent (p : t) (usedBlockGas : Z) : result gas_error Z :=
  divideBigInt (usedBlockGas * scalingFactor) (gasTarget p).

Definition calculateEMA (p : t) (uCurrentScaled previousEMAScaled : Z) : Z :=
  let alphaPart := multiplyBigInt (smoothingFactor p) uCurrentScaled in
  let oneMinusAlphaScaled := one - smoothingFactor p in
  let emaPart := multiplyBigInt oneMinusAlphaScaled previousEMAScaled in
  alphaPart + emaPart.

Definition calculateAdjustment (p : t) (emaScaled alphaScaled sign : Z) : Z :=
  let diff := if decide (uTarget p < emaScaled)
              then emaScaled - uTarget p else uTarget p - emaScaled in
  let adjustmentChange := Z.quot (alphaScaled * diff) scalingFactor in
  if decide (sign = 1) then one + adjustmentChange else one - adjustmentChange.

Definition calculateBNext (p : t) (adjustmentScaled : Z) : Z :=
  let multiplied := multiplyBigInt (currentB p) adjustmentScaled in
  max multiplied (bMin p).

Definition set_currentB (p : t) (b : Z) : t :=
  mk (gasTarget p) (bMin p) (smoothingFactor p) (alpha1 p) (alpha2 p) (uTarget p) b.

Definition calculateNextBaseGas (p : t) (usedBlockGas prevEMA : Z)
  : t * result gas_error CalculatedBlockGas :=
  let prevEMA' := if decide (prevEMA = 0) then uTarget p else prevEMA in
  match calculateUCurrent p usedBlockGas with
  | Throw e => (p, Throw e)
  | Ok u =>
      let uCurrent := Z.quot u scalingFactor in
      let ema0 := calculateEMA p uCurrent prevEMA' in
      let emaScaled := if decide (ema0 < 50000) then 50000 else ema0 in
      let alpha := if decide (gasTarget p < usedBlockGas) then alpha1 p else alpha2 p in
      let sign := if decide (uTarget p < emaScaled) then 1 else -1 in
      let adjustment := calculateAdjustment p emaScaled alpha sign in
      let b := calculateBNext p adjustment in
      (set_currentB p b, Ok {| bNext := b; ema := emaScaled |})
  end.

End BlockGasPredictor.

(** ** The tracker *)

Module GasTracker.
Section GasTracker.
Context `{BtcLib} (TX_MAX : Z).   (** [OPNetConsensus.consensus.GAS.TRANSACTION_MAX_GAS] *)

Record t : Type := mk {
  gasUsed : Z;
  maxGas : Z;
  specialGas : Z;
  paidMaximum_ : Z;
  settings : option SpecialContract
}.

Definition max (a b : Z) : Z := if decide (b < a) then a else b.
Definition cap (m c : Z) : Z := if decide (m < c) then m else c.

(** [settings.transactionGasLimit ? settings.transactionGasLimit : TX_MAX] *)
Definition gas_limit (sc : SpecialContract) : Z :=
  if truthy_big (transactionGasLimit sc) then transactionGasLimit sc else TX_MAX.

Definition construct (max_gas : Z) (sc : option SpecialContract) : t :=
  match sc with
  | Some c =>
      if freeGas c
      then mk 0 (cap max_gas (maxExternalGas c)) 0 (cap max_gas (gas_limit c)) sc
      else mk 0 (cap max_gas TX_MAX) 0 (cap max_gas TX_MAX) sc
  | None => mk 0 (cap max_gas TX_MAX) 0 (cap max_gas TX_MAX) sc
  end.

Definition specialGasUsed (g : t) : Z := specialGas g.

Definition paidMaximum (g : t) : Z := max (paidMaximum_ g) (specialGasUsed g + gasUsed g).

Definition convertSatToGas (sat maxGas ratio : Z) : Z :=
  let gas := sat * ratio in if decide (gas < maxGas) then gas else maxGas.

Definition combinedGas (g : t) (external : bool) : Z :=
  if external then gasUsed g else gasUsed g + specialGas g.

Definition maxGasVM (g : t) (external : bool) : Z :=
  match settings g with
  | Some c =>
      if external && freeGas c then maxExternalGas c
      else gas_limit c - maxExternalGas c
  | None => maxGas g
  end.

Definition set_gas (g : t) (gas : Z) : t :=
  mk gas (maxGas g) (specialGas g) (paidMaximum_ g) (settings g).
Definition set_special (g : t) (special : Z) : t :=
  mk (gasUsed g) (maxGas g) special (paidMaximum_ g) (settings g).

Definition setFinalGasUsed (g : t) (gas special : Z) : t * result gas_error unit :=
  if decide (gas < 0) then (g, Throw NegativeGas)
  else if decide (special < 0) then (g, Throw NegativeSpecialGas)
  else (set_special (set_gas g gas) special, Ok tt).

Definition countGas (g : t) (gas max_gas : Z) : t * result gas_error unit :=
  if decide (max_gas < gas) then (g, Throw (OutOfGas gas max_gas))
  else (set_gas g gas, Ok tt).

(** The contract of the special settings is the caller, in a call that is not
    external, and its gas is free. *)
Definition free_call (g : t) (isExternCall : bool) (from : option Address) : bool :=
  match settings g, from with
  | Some c, Some a => negb isExternCall && freeGas c && bool_decide (a = sc_address c)
  | _, _ => false
  end.

Definition setGasUsed (g : t) (gas special : Z) (isExternCall : bool) (from : option Address)
  : t * result gas_error unit :=
  if decide (gas < 0) then (g, Throw NegativeGas)
  else
    let max_gas := maxGasVM g isExternCall in
    if free_call g isExternCall from
    then
      let newGas := gas + special in
      if decide (max_gas < newGas) then (g, Throw (OutOfGasFree newGas max_gas))
      else (set_special g newGas, Ok tt)
    else if truthy_big special then (g, Throw SpecialGasNotZero)
    else countGas g gas max_gas.

End GasTracker.
End GasTracker.

(** ** Fee to gas (utils/GasUtils.ts) *)

Definition calculateMaxGas (SAT_TO_GAS : Z) (isSimulation : bool)
    (gasInSat baseGas TRANSACTION_MAX : Z) : result gas_error Z :=
  let gas := if isSimulation then TRANSACTION_MAX
             else GasTracker.convertSatToGas gasInSat TRANSACTION_MAX SAT_TO_GAS in
  let gasToScale := BlockGasPredictor.toBaseBigInt gas in
  bdiv BigIntRangeError gasToScale baseGas.

(** ** The base gas of a block (the gas part of processor/block/Block.ts) *)

Module BlockGas.
Section BlockGas.
Context (GASC : GasConfig) (SIMULATE_HIGH_GAS_USAGE : bool).

Inductive block_gas_error : Type :=
| DuplicatePredictor
| PredictorNotFound
| Gas (e : gas_error).

Record t : Type := mk {
  prevEMA : Z;
  prevBaseGas_ : Z;
  blockUsedGas : Z;
  blockGasPredictor : option BlockGasPredictor.t;
  predictedGas : option BlockGasPredictor.CalculatedBlockGas
}.

Definition initial : t := mk 0 0 0 None None.

(** [previousBlockHeaders.ema || 0] and [.baseGas || 0] of the stored header. *)
Definition setGasParameters (b : t) (previousBlockHeaders : option (Z * Z)) : t :=
  match previousBlockHeaders with
  | Some (ema, baseGas) =>
      mk ema baseGas (blockUsedGas b) (blockGasPredictor b) (predictedGas b)
  | None => b
  end.

Definition prevBaseGas (b : t) : result gas_error Z :=
  if truthy_big (prevBaseGas_ b) then Ok (prevBaseGas_ b)
  else match bigint_of_number (number_mul (MIN_BASE_GAS GASC) number_scalingFactor) with
       | Some z => Ok z
       | None => Throw BigIntRangeError
       end.

(** [this.blockUsedGas += evaluation.totalGasUsed] *)
Definition addUsedGas (b : t) (g : Z) : t :=
  mk (prevEMA b) (prevBaseGas_ b) (blockUsedGas b + g) (blockGasPredictor b) (predictedGas b).

Definition calculateNextBlockBaseGas : stx t block_gas_error unit := fun b =>
  match blockGasPredictor b with
  | Some _ => (b, Throw DuplicatePredictor)
  | None =>
      match (prev ← prevBaseGas b;
             BlockGasPredictor.construct (MIN_BASE_GAS GASC) (Some prev) (TARGET_GAS GASC)
               (SMOOTH_OUT_GAS_INCREASE GASC) (SMOOTHING_FACTOR GASC) (ALPHA1 GASC)
               (ALPHA2 GASC) (U_TARGET GASC)) with
      | Throw e => (b, Throw (Gas e))
      | Ok p =>
          let used := if SIMULATE_HIGH_GAS_USAGE
                      then blockUsedGas b + (TARGET_GAS GASC - 1000000) else blockUsedGas b in
          match BlockGasPredictor.calculateNextBaseGas p used (prevEMA b) with
          | (p', Throw e) =>
              (mk (prevEMA b) (prevBaseGas_ b) used (Some p') (predictedGas b), Throw (Gas e))
          | (p', Ok g) =>
              (mk (prevEMA b) (prevBaseGas_ b) used (Some p') (Some g), Ok tt)
          end
      end
  end.

End BlockGas.
End BlockGas.

(** Processing one block after a header with [ema] and [baseGas] (none before
    the first block), having used [used] gas: what goes into its own header. *)
Definition next_header (GASC : GasConfig) (prev : option (Z * Z)) (used : Z)
  : result BlockGas.block_gas_error (Z * Z) :=
  let b := BlockGas.addUsedGas (BlockGas.setGasParameters BlockGas.initial prev) used in
  match BlockGas.calculateNextBlockBaseGas GASC false b with
  | (b', Ok _) =>
      match BlockGas.predictedGas b' with
      | Some g => Ok (BlockGasPredictor.ema g, BlockGasPredictor.bNext g)
      | None => Throw BlockGas.PredictorNotFound
      end
  | (_, Throw e) => Throw e
  end.

(** The headers of a chain, from the gas used by each block. *)
Fixpoint chain_headers (GASC : GasConfig) (prev : option (Z * Z)) (used : list Z)
  : result BlockGas.block_gas_error (list (Z * Z)) :=
  match used with
  | [] => Ok []
  | u :: us =>
      hd ← next_header GASC prev u;
      rest ← chain_headers GASC (Some hd) us;
      Ok (hd :: rest)
  end.

(** ** Lemmas on the predictor *)

Section Predictor.
Import BlockGasPredictor.

(** The parameters make sense: every consensus configuration satisfies this. *)
Definition sane (p : t) : Prop :=
  0 < gasTarget p ∧ 0 ≤ smoothingFactor p ≤ one ∧ 0 ≤ alpha1 p ∧ 0 ≤ alpha2 p ∧
  50000 ≤ uTarget p ∧ 0 < bMin p ≤ currentB p.

Lemma scaling_pos : 0 < scalingFactor.
Proof. reflexivity. Qed.

Lemma scale_le a x : 0 ≤ a → 0 ≤ x → x ≤ scalingFactor → multiplyBigInt a x ≤ a.
Proof.
  intros. pose proof scaling_pos. unfold multiplyBigInt.
  rewrite Z.quot_div_nonneg by nia. apply Z.div_le_upper_bound; nia.
Qed.

Lemma scale_ge a x : 0 ≤ a → scalingFactor ≤ x → a ≤ multiplyBigInt a x.
Proof.
  intros. pose proof scaling_pos. unfold multiplyBigInt.
  rewrite Z.quot_div_nonneg by nia. apply Z.div_le_lower_bound; nia.
Qed.

Lemma scale_nonneg a x : 0 ≤ a → 0 ≤ x → 0 ≤ multiplyBigInt a x.
Proof.
  intros. pose proof scaling_pos. unfold multiplyBigInt.
  rewrite Z.quot_div_nonneg by nia. apply Z.div_pos; nia.
Qed.

(** The moving average is between 0 and the larger of its two inputs. *)
Lemma ema_bounds p u prev :
  0 ≤ smoothingFactor p ≤ one → 0 ≤ u → 0 ≤ prev →
  0 ≤ calculateEMA p u prev ≤ Z.max u prev.
Proof.
  intros Hs Hu Hp. pose proof scaling_pos as Hsc. unfold calculateEMA, one in *.
  pose proof (scale_nonneg (smoothingFactor p) u).
  pose proof (scale_nonneg (scalingFactor - smoothingFactor p) prev).
  split; [lia|]. unfold multiplyBigInt in *.
  rewrite !Z.quot_div_nonneg in * by nia.
  set (a := smoothingFactor p) in *. set (S := scalingFactor) in *.
  pose proof (Z.mul_div_le (a * u) S Hsc). pose proof (Z.mul_div_le ((S - a) * prev) S Hsc).
  set (x := a * u / S) in *. set (y := (S - a) * prev / S) in *.
  apply Z.mul_le_mono_pos_l with S; [lia|].
  assert (a * u ≤ a * Z.max u prev) by nia.
  assert ((S - a) * prev ≤ (S - a) * Z.max u prev) by nia. lia.
Qed.

(** Utilisation: at most 1 (scaled) exactly when the block is within target. *)
Lemma utilisation_bound p used u :
  0 < gasTarget p → 0 ≤ used → calculateUCurrent p used = Ok u →
  0 ≤ Z.quot u scalingFactor ∧ (used ≤ gasTarget p → Z.quot u scalingFactor ≤ scalingFactor).
Proof.
  intros Ht Hu. pose proof scaling_pos as Hs. unfold calculateUCurrent, divideBigInt.
  case_decide; [lia|]. intros [= <-].
  set (S := scalingFactor) in *.
  rewrite (Z.quot_div_nonneg _ (gasTarget p)) by nia.
  assert (0 ≤ used * S * S / gasTarget p) by (apply Z.div_pos; nia).
  rewrite Z.quot_div_nonneg by lia. split; [apply Z.div_pos; lia|]. intros Hle.
  apply Z.div_le_upper_bound; [lia|]. apply Z.div_le_upper_bound; [lia|]. nia.
Qed.

Lemma adjustment_sign p e alpha :
  0 ≤ alpha →
  (uTarget p < e → one ≤ calculateAdjustment p e alpha 1) ∧
  (e ≤ uTarget p → calculateAdjustment p e alpha (-1) ≤ one).
Proof.
  intros Ha. pose proof scaling_pos as Hs. unfold calculateAdjustment.
  split; intros He; [rewrite !decide_True by (done || lia)|rewrite !decide_False by (done || lia)].
  - rewrite Z.quot_div_nonneg by nia.
    assert (0 ≤ alpha * (e - uTarget p) / scalingFactor) by (apply Z.div_pos; nia). lia.
  - rewrite Z.quot_div_nonneg by nia.
    assert (0 ≤ alpha * (uTarget p - e) / scalingFactor) by (apply Z.div_pos; nia). lia.
Qed.

(** One step of a sane predictor: it does not throw, the average and the price
    stay above their floors, and the predictor stays sane. *)
Lemma next_base_gas_step p used prev :
  sane p → 0 ≤ used → 0 ≤ prev →
  ∃ g, calculateNextBaseGas p used prev = (set_currentB p (bNext g), Ok g) ∧
    50000 ≤ ema g ∧ bMin p ≤ bNext g ∧ sane (set_currentB p (bNext g)) ∧
    (used ≤ gasTarget p → prev ≤ scalingFactor → uTarget p = scalingFactor →
       ema g ≤ uTarget p) ∧
    (ema g ≤ uTarget p → bNext g ≤ currentB p) ∧
    (uTarget p < ema g → currentB p ≤ bNext g).
Proof.
  intros (Ht & Hs & Ha1 & Ha2 & Hu & Hb) Hused Hprev.
  destruct (calculateUCurrent p used) as [u|e] eqn:Eu;
    [|unfold calculateUCurrent, divideBigInt in Eu; case_decide; [lia|done]].
  destruct (utilisation_bound p used u Ht Hused Eu) as [Hu0 Hu1].
  unfold calculateNextBaseGas. rewrite Eu.
  set (prev' := if decide (prev = 0) then uTarget p else prev).
  assert (0 ≤ prev' ∧ (prev ≤ scalingFactor → uTarget p = scalingFactor → prev' ≤ scalingFactor))
    as [Hp0 Hp1] by (unfold prev'; case_decide; lia).
  pose proof (ema_bounds p (Z.quot u scalingFactor) prev' Hs Hu0 Hp0) as He.
  set (e0 := calculateEMA _ _ _) in *.
  set (e := if decide (e0 < 50000) then 50000 else e0).
  assert (50000 ≤ e ∧ (e0 ≤ uTarget p → e ≤ uTarget p)) as [He1 He2]
    by (unfold e; case_decide; lia).
  set (alpha := if decide (gasTarget p < used) then alpha1 p else alpha2 p).
  assert (0 ≤ alpha) as Hal by (unfold alpha; case_decide; lia).
  destruct (adjustment_sign p e alpha Hal) as [Hup Hdown].
  exists {| bNext := calculateBNext p (calculateAdjustment p e alpha
                       (if decide (uTarget p < e) then 1 else -1)); ema := e |}.
  split; [reflexivity|]. cbn [ema bNext].
  unfold calculateBNext. rewrite (bmax_spec _ _ : max _ _ = _).
  split; [done|]. split; [lia|]. split; [unfold sane, set_currentB; cbn; lia|].
  split; [intros; apply He2; lia|]. split; intros Hcmp.
  - rewrite decide_False by lia. specialize (Hdown Hcmp).
    set (adj := calculateAdjustment p e alpha (-1)) in *.
    destruct (decide (0 ≤ adj)).
    + assert (multiplyBigInt (currentB p) adj ≤ currentB p)
        by (apply scale_le; [lia|done|exact Hdown]). lia.
    + enough (multiplyBigInt (currentB p) adj ≤ 0) by lia. unfold multiplyBigInt.
      pose proof scaling_pos. rewrite <-(Z.opp_involutive (currentB p * adj)).
      rewrite Z.quot_opp_l by lia. rewrite Z.quot_div_nonneg by nia.
      assert (0 ≤ - (currentB p * adj) / scalingFactor) by (apply Z.div_pos; nia). lia.
  - rewrite decide_True by lia. specialize (Hup Hcmp).
    assert (currentB p ≤ multiplyBigInt (currentB p) (calculateAdjustment p e alpha 1))
      by (apply scale_ge; [lia|exact Hup]). lia.
Qed.

End Predictor.

(** ** Theorems: the base gas price *)

(** The predictor a Roswell block builds from the previous price. *)
Definition roswell_predictor (prev : Z) : BlockGasPredictor.t :=
  BlockGasPredictor.mk 20001000000001 (10 ^ 8) 40000000 50000000 (10 ^ 8) (10 ^ 8) prev.

Lemma roswell_construct prev :
  0 < prev →
  BlockGasPredictor.construct (MIN_BASE_GAS Roswell_GAS) (Some prev) (TARGET_GAS Roswell_GAS)
    (SMOOTH_OUT_GAS_INCREASE Roswell_GAS) (SMOOTHING_FACTOR Roswell_GAS) (ALPHA1 Roswell_GAS)
    (ALPHA2 Roswell_GAS) (U_TARGET Roswell_GAS) = Ok (roswell_predictor prev).
Proof.
  intros Hp. unfold BlockGasPredictor.construct.
  change (BlockGasPredictor.toBase (MIN_BASE_GAS Roswell_GAS)) with (Ok (E := gas_error) (10 ^ 8)).
  change (BlockGasPredictor.toBase (SMOOTHING_FACTOR Roswell_GAS))
    with (Ok (E := gas_error) 40000000).
  change (BlockGasPredictor.toBase (ALPHA1 Roswell_GAS)) with (Ok (E := gas_error) 50000000).
  change (BlockGasPredictor.toBase (ALPHA2 Roswell_GAS)) with (Ok (E := gas_error) (10 ^ 8)).
  change (BlockGasPredictor.toBase (U_TARGET Roswell_GAS)) with (Ok (E := gas_error) (10 ^ 8)).
  cbn -[Z.pow]. by rewrite decide_True.
Qed.

(** The previous header as the predictor sees it. *)
Definition header_ok (h : Z * Z) : Prop := 50000 ≤ h.1 ∧ 10 ^ 8 ≤ h.2.
Definition prev_ok (prev : option (Z * Z)) : Prop :=
  match prev with Some h => header_ok h | None => True end.
Definition prev_ema (prev : option (Z * Z)) : Z := from_option fst 0 prev.
Definition prev_price (prev : option (Z * Z)) : Z := from_option snd (10 ^ 8) prev.

Lemma roswell_next_header prev used :
  prev_ok prev → 0 ≤ used →
  ∃ h, next_header Roswell_GAS prev used = Ok h ∧ header_ok h ∧
    (used ≤ 20001000000001 → prev_ema prev ≤ 10 ^ 8 → h.1 ≤ 10 ^ 8) ∧
    (h.1 ≤ 10 ^ 8 → h.2 ≤ prev_price prev) ∧ (10 ^ 8 < h.1 → prev_price prev ≤ h.2).
Proof.
  intros Hprev Hu. set (p := roswell_predictor (prev_price prev)).
  assert (Hpp : 10 ^ 8 ≤ prev_price prev ∧ 0 ≤ prev_ema prev).
  { destruct prev as [[e b]|]; [destruct Hprev|]; cbn -[Z.pow] in *; lia. }
  destruct (next_base_gas_step p used (prev_ema prev)) as
    (g & Hg & He & Hb & _ & Hle & Hdown & Hup); [|done|lia|].
  { unfold sane, p; cbn -[Z.pow]. unfold BlockGasPredictor.one, BlockGasPredictor.scalingFactor. lia. }
  exists (BlockGasPredictor.ema g, BlockGasPredictor.bNext g).
  split; [|unfold header_ok; cbn -[Z.pow]; split_and!; auto].
  unfold next_header, BlockGas.calculateNextBlockBaseGas.
  assert (BlockGas.prevBaseGas Roswell_GAS
    (BlockGas.addUsedGas (BlockGas.setGasParameters BlockGas.initial prev) used) =
    Ok (prev_price prev)) as Hpb.
  { destruct prev as [[e b]|]; [|reflexivity].
    unfold BlockGas.prevBaseGas, truthy_big; cbn -[Z.pow] in *.
    rewrite bool_decide_true by lia. done. }
  rewrite Hpb. cbn [mbind result_bind]. rewrite roswell_construct by lia. fold p.
  destruct prev as [[e b]|]; cbn [BlockGas.addUsedGas BlockGas.setGasParameters BlockGas.initial
    BlockGas.blockGasPredictor BlockGas.blockUsedGas BlockGas.prevEMA]; rewrite Z.add_0_l;
    unfold prev_ema in Hg; cbn [from_option fst] in Hg; by rewrite Hg.
Qed.

Lemma chain_headers_length GASC prev used hs :
  chain_headers GASC prev used = Ok hs → length hs = length used.
Proof.
  revert prev hs. induction used as [|u us IH]; intros prev hs; cbn [chain_headers].
  - by intros [= <-].
  - destruct (next_header GASC prev u) as [h|]; cbn [mbind result_bind]; [|done].
    destruct (chain_headers GASC (Some h) us) as [rest|] eqn:E; cbn [mbind result_bind]; [|done].
    intros [= <-]. cbn. f_equal. eauto.
Qed.

(** Along any Roswell chain the base gas is computed without an exception for
    every block, the moving average stays at or above 50000 and the price at or
    above the minimum base gas (1.0, scaled by 10^8). *)
Theorem base_gas_floor prev (used : list Z) :
  prev_ok prev → Forall (fun u => 0 ≤ u) used →
  ∃ hs, chain_headers Roswell_GAS prev used = Ok hs ∧ length hs = length used ∧
    Forall header_ok hs.
Proof.
  revert prev. induction used as [|u us IH]; intros prev Hprev Hused.
  - by exists [].
  - apply Forall_cons in Hused as [Hu Hus]. cbn [chain_headers].
    destruct (roswell_next_header prev u Hprev Hu) as (h & -> & Hh & _).
    destruct (IH (Some h) Hh Hus) as (hs & Ehs & Hlen & Hall).
    exists (h :: hs). cbn [mbind result_bind]. rewrite Ehs. cbn. auto.
Qed.

Lemma base_gas_floor_witness :
  ∃ hs, chain_headers Roswell_GAS None [0; 30000000000000; 50] = Ok hs ∧ length hs = 3%nat ∧
    Forall header_ok hs.
Proof. apply (base_gas_floor None [0; 30000000000000; 50]); [exact I|repeat constructor; lia]. Defined.

(** While no block uses more than the target (target gas plus smoothing), the
    price of every block from genesis is exactly the minimum base gas. *)
Theorem base_gas_constant_within_target (used : list Z) hs :
  Forall (fun u => 0 ≤ u ≤ TARGET_GAS Roswell_GAS + SMOOTH_OUT_GAS_INCREASE Roswell_GAS) used →
  chain_headers Roswell_GAS None used = Ok hs →
  Forall (fun h => h.2 = 10 ^ 8) hs.
Proof.
  assert (Hgen : ∀ prev hs, prev_ok prev → prev_ema prev ≤ 10 ^ 8 → prev_price prev = 10 ^ 8 →
    Forall (fun u => 0 ≤ u ≤ 20001000000001) used →
    chain_headers Roswell_GAS prev used = Ok hs → Forall (fun h => h.2 = 10 ^ 8) hs).
  { clear hs. induction used as [|u us IH]; intros prev hs Hok He Hp Hused; cbn [chain_headers].
    - by intros [= <-].
    - apply Forall_cons in Hused as [[Hu0 Hu] Hus].
      destruct (roswell_next_header prev u Hok Hu0) as (h & -> & Hh & H1 & H2 & _).
      cbn [mbind result_bind].
      destruct (chain_headers Roswell_GAS (Some h) us) as [rest|] eqn:E; [|done].
      cbn [mbind result_bind]. intros [= <-].
      specialize (H1 Hu He). specialize (H2 H1).
      assert (h.2 = 10 ^ 8) by (destruct Hh; lia).
      constructor; [done|]. apply (IH (Some h)); auto. }
  intros Hused. apply (Hgen None); cbn -[Z.pow]; auto; lia.
Qed.

Lemma base_gas_constant_within_target_witness :
  Forall (fun h => h.2 = 10 ^ 8)
    [(64999999, 10 ^ 8); (44999998, 10 ^ 8)].
Proof.
  apply (base_gas_constant_within_target [2500125000000; 3000150000000]).
  - repeat constructor; vm_compute; discriminate.
  - vm_compute. reflexivity.
Defined.

(** For any sane parameters the price moves with the average: up or equal when
    the average exceeds the target utilisation, down or equal otherwise, never
    below the minimum. *)
Theorem base_gas_follows_average p used prev p' g :
  sane p → 0 ≤ used → 0 ≤ prev →
  BlockGasPredictor.calculateNextBaseGas p used prev = (p', Ok g) →
  BlockGasPredictor.bMin p ≤ BlockGasPredictor.bNext g ∧
  (BlockGasPredictor.uTarget p < BlockGasPredictor.ema g →
     BlockGasPredictor.currentB p ≤ BlockGasPredictor.bNext g) ∧
  (BlockGasPredictor.ema g ≤ BlockGasPredictor.uTarget p →
     BlockGasPredictor.bNext g ≤ BlockGasPredictor.currentB p) ∧
  sane p'.
Proof.
  intros Hs Hu Hp. destruct (next_base_gas_step p used prev Hs Hu Hp)
    as (g' & -> & _ & Hb & Hs' & _ & Hdown & Hup).
  intros [= <- <-]. auto.
Qed.

Lemma base_gas_follows_average_witness :
  BlockGasPredictor.currentB (roswell_predictor (2 * 10 ^ 8)) ≤ 279995500.
Proof.
  refine (proj1 (proj2 (base_gas_follows_average (roswell_predictor (2 * 10 ^ 8))
    45000000000000 (15 * 10 ^ 7) (roswell_predictor 279995500)
    {| BlockGasPredictor.bNext := 279995500; BlockGasPredictor.ema := 179995500 |} _ _ _ _)) _).
  - unfold sane. vm_compute. intuition discriminate.
  - lia.
  - lia.
  - vm_compute. reflexivity.
  - vm_compute. reflexivity.
Defined.

(** ** Theorems: the gas of a transaction *)

Section Tracker.
Context `{BtcLib} (TX_MAX : Z).
Import GasTracker.

(** Exactly when a gas update is accepted, and what it does; a refused update
    leaves the tracker unchanged. *)
Lemma setGasUsed_spec g gas special ext from :
  let r := setGasUsed TX_MAX g gas special ext from in
  let free := free_call g ext from in
  (r.2 = Ok tt ↔ 0 ≤ gas ∧
     if free then gas + special ≤ maxGasVM TX_MAX g ext
     else special = 0 ∧ gas ≤ maxGasVM TX_MAX g ext) ∧
  (r.2 = Ok tt → r.1 = if free then set_special g (gas + special) else set_gas g gas) ∧
  (r.2 ≠ Ok tt → r.1 = g).
Proof.
  cbn. unfold setGasUsed, countGas, truthy_big.
  destruct (free_call g ext from); repeat (case_decide || case_bool_decide); cbn;
    split_and!; try done; split; intros; try done; lia || (exfalso; lia).
Qed.

(** Trackers reached from a fresh one by accepted updates. *)
Inductive reached (g0 : t) : t → Prop :=
| reached_start : reached g0 g0
| reached_step g g' gas special ext from :
    reached g0 g → setGasUsed TX_MAX g gas special ext from = (g', Ok tt) → reached g0 g'.

Lemma setGasUsed_frame g gas special ext from g' :
  setGasUsed TX_MAX g gas special ext from = (g', Ok tt) →
  settings g' = settings g ∧ maxGas g' = maxGas g ∧ paidMaximum_ g' = paidMaximum_ g.
Proof.
  intros Hr. pose proof (setGasUsed_spec g gas special ext from) as (_ & H2 & _).
  rewrite Hr in H2. cbn in H2. rewrite H2 by done.
  by destruct (free_call g ext from).
Qed.

Lemma reached_frame g0 g :
  reached g0 g →
  settings g = settings g0 ∧ maxGas g = maxGas g0 ∧ paidMaximum_ g = paidMaximum_ g0.
Proof.
  induction 1 as [|g g' gas special ext from _ IH Hs]; [done|].
  apply setGasUsed_frame in Hs. destruct Hs as (-> & -> & ->). done.
Qed.

(** The tracker of a transaction without special settings, with limit [M]. *)
Definition ordinary (M : Z) (g : t) : Prop :=
  settings g = None ∧ maxGas g = M ∧ paidMaximum_ g = M ∧ specialGas g = 0 ∧ 0 ≤ gasUsed g ≤ M.

Lemma ordinary_construct max_gas :
  0 ≤ max_gas → 0 ≤ TX_MAX → ordinary (Z.min max_gas TX_MAX) (construct TX_MAX max_gas None).
Proof. intros. unfold ordinary. cbn. rewrite (bmin_spec _ _ : cap _ _ = _). split_and!; try done; lia. Qed.

Lemma ordinary_reached M g0 g : ordinary M g0 → reached g0 g → ordinary M g.
Proof.
  intros H0 Hr. induction Hr as [|g g' gas special ext from Hr IH Hs]; [done|].
  pose proof (setGasUsed_spec g gas special ext from) as (H1 & H2 & _).
  rewrite Hs in H1, H2. cbn in H1, H2. rewrite H2 by done. clear H2.
  destruct IH as (Hset & Hmax & Hp & Hsp & Hg). unfold free_call, maxGasVM in *. rewrite Hset in *.
  unfold ordinary. cbn. destruct H1 as [H1 _]. specialize (H1 eq_refl). rewrite Hmax in H1. split_and!; done || lia.
Qed.

(** With a special contract, the gas its own frames use is counted apart and is
    at most the contract's limit minus its external allowance, and the gas of
    the other frames is at most the larger of the two allowances. *)
Theorem special_contract_limit max_gas c g :
  freeGas c = true → 0 ≤ maxExternalGas c ≤ gas_limit TX_MAX c →
  reached (construct TX_MAX max_gas (Some c)) g →
  specialGasUsed g ≤ gas_limit TX_MAX c - maxExternalGas c ∧
  0 ≤ gasUsed g ≤ Z.max (maxExternalGas c) (gas_limit TX_MAX c - maxExternalGas c).
Proof.
  intros Hf Hle Hr. unfold specialGasUsed.
  induction Hr as [|g g' gas special ext from Hr IH Hs].
  - cbn. rewrite Hf. cbn. lia.
  - pose proof (setGasUsed_spec g gas special ext from) as (H1 & H2 & _).
    rewrite Hs in H1, H2. cbn in H1, H2. rewrite H2 by done. clear H2.
    destruct (reached_frame _ _ Hr) as (Hset & _ & _).
    assert (settings g = Some c) as Hset' by (rewrite Hset; cbn; by rewrite Hf).
    destruct H1 as [H1 _]. specialize (H1 eq_refl).
    unfold free_call, maxGasVM in *. rewrite Hset', Hf in *.
    destruct from as [a|]; [destruct (bool_decide (a = sc_address c))|]; destruct ext; cbn in *; lia.
Qed.

Lemma convertSatToGas_spec sat m ratio : convertSatToGas sat m ratio = Z.min (sat * ratio) m.
Proof. apply bmin_spec. Qed.

(** C26: The limit a fee buys at a price at or above the minimum base gas: never
    more than the transaction maximum, never more gas than was paid for, and
    no more when the price rises. *)
Lemma calculateMaxGas_sound ratio isSimulation gasInSat baseGas baseGas' :
  10 ^ 8 ≤ baseGas ≤ baseGas' → 0 ≤ gasInSat → 0 ≤ ratio → 0 ≤ TX_MAX →
  ∃ m m', calculateMaxGas ratio isSimulation gasInSat baseGas TX_MAX = Ok m ∧
    calculateMaxGas ratio isSimulation gasInSat baseGas' TX_MAX = Ok m' ∧
    0 ≤ m' ≤ m ∧ m ≤ TX_MAX ∧
    (isSimulation = false → m * baseGas ≤ gasInSat * ratio * 10 ^ 8).
Proof.
  intros Hb Hs Hr HT. unfold calculateMaxGas, bdiv. rewrite !decide_False by lia.
  rewrite !convertSatToGas_spec.
  set (gas := if isSimulation then _ else _).
  assert (Hgas : 0 ≤ gas ≤ TX_MAX ∧ (isSimulation = false → gas ≤ gasInSat * ratio))
    by (unfold gas; destruct isSimulation; nia).
  unfold BlockGasPredictor.toBaseBigInt, BlockGasPredictor.scalingFactor.
  eexists _, _. split; [reflexivity|]. split; [reflexivity|].
  rewrite !Z.quot_div_nonneg by nia. split_and!.
  - apply Z.div_pos; nia.
  - apply Z.div_le_compat_l; lia.
  - apply Z.div_le_upper_bound; nia.
  - intros Hsim. destruct Hgas as [Hg1 Hg2]. specialize (Hg2 Hsim).
    pose proof (Z.mul_div_le (gas * 10 ^ 8) baseGas ltac:(lia)). nia.
Qed.

End Tracker.

Lemma special_contract_limit_witness :
  let c := nativeSwapContractSettings (H := string_btclib) "swap" in
  GasTracker.specialGasUsed (GasTracker.mk 0 500 90 500 (Some c)) ≤
    600000000000 - 12000000000.
Proof.
  refine (proj1 (special_contract_limit (H := string_btclib) 150000000000 500
    (nativeSwapContractSettings (H := string_btclib) "swap") _ eq_refl _ _)).
  - vm_compute. split; discriminate.
  - eapply (reached_step (H := string_btclib) 150000000000 _ _ _ 70 20 false (Some "swap")); [apply reached_start|].
    reflexivity.
Defined.
