(* ===== verification/TransactionSorter.v ===== *)
(** * Ordering the transactions of a block
    (processor/transaction/transaction-sorter/TransactionSorter.ts)

    Rewards first, then a topological traversal of the dependency graph that
    always emits the available transaction of highest effective priority.  The
    priority queue is the npm package @datastructures-js/priority-queue: the
    model takes it as an interface, and [compare] of @btc-vision/bitcoin as an
    argument.  The comparator reads and writes a cache, so it is a stateful
    function. *)

From S2P Require Import Prelude.

Inductive sort_error : Type :=
| CountChanged (expected got : nat)
| TransactionNotFound (id : string)
(** Not an exception of the code: the fuel of a loop ran out. *)
| OutOfFuel.

(** ** The priority queue interface *)

Class PriorityQueue : Type := {
  pq : Type → Type;
  pq_new : ∀ {A}, pq A;
  pq_isEmpty : ∀ {A}, pq A → bool;
  pq_enqueue : ∀ {A S E}, (A → A → stx S E Z) → A → pq A → stx S E (pq A);
  pq_dequeue : ∀ {A S E}, (A → A → stx S E Z) → pq A → stx S E (option A * pq A);
  (** the contents, in some order *)
  pq_elems : ∀ {A}, pq A → list A
}.

(** A comparator that keeps an invariant of its state and does not throw on
    the elements at hand. *)
Definition cmp_safe {A S E} (I : S → Prop) (P : A → Prop) (cmp : A → A → stx S E Z) : Prop :=
  ∀ a b s, P a → P b → I s → ∃ s' z, cmp a b s = (s', Ok z) ∧ I s'.

(** The documented behaviour: a queue holds what was enqueued and not yet
    dequeued, whatever the comparator answers. *)
Class PriorityQueueLaws `{PriorityQueue} : Prop := {
  pq_new_elems : ∀ A, pq_elems (pq_new : pq A) = [];
  pq_isEmpty_elems : ∀ A (q : pq A), pq_isEmpty q = true ↔ pq_elems q = [];
  pq_enqueue_elems : ∀ A S E (I : S → Prop) (P : A → Prop) (cmp : A → A → stx S E Z) a q s,
    cmp_safe I P cmp → I s → P a → Forall P (pq_elems q) →
    ∃ s' q', pq_enqueue cmp a q s = (s', Ok q') ∧ I s' ∧ pq_elems q' ≡ₚ a :: pq_elems q;
  pq_dequeue_elems : ∀ A S E (I : S → Prop) (P : A → Prop) (cmp : A → A → stx S E Z) q s,
    cmp_safe I P cmp → I s → Forall P (pq_elems q) → pq_elems q ≠ [] →
    ∃ s' x q', pq_dequeue cmp q s = (s', Ok (Some x, q')) ∧ I s' ∧
      pq_elems q ≡ₚ x :: pq_elems q'
}.

(** [Array.prototype.sort] with a comparator: a stable sort.  The order of the
    comparisons is left to implementations; this one inserts from the right. *)
Fixpoint sort_insert {A S E} (cmp : A → A → stx S E Z) (x : A) (l : list A) : stx S E (list A) :=
  match l with
  | [] => mret [x]
  | y :: l' =>
      c ← cmp x y;
      if decide (c ≤ 0) then mret (x :: y :: l')
      else r ← sort_insert cmp x l'; mret (y :: r)
  end.

Fixpoint js_sort {A S E} (cmp : A → A → stx S E Z) (l : list A) : stx S E (list A) :=
  match l with
  | [] => mret []
  | x :: l' => r ← js_sort cmp l'; sort_insert cmp x r
  end.

(** ** Data *)

(** A JavaScript value as [safeBigInt] distinguishes it; numbers are integers. *)
Inductive js_value : Type := JBigInt (z : Z) | JNumber (z : Z) | JOther.

Record TransactionInput : Type := { originalTransactionId : bytes }.

Inductive OPNetTransactionTypes : Type := Generic | Deployment | Interaction.

#[export] Instance OPNetTransactionTypes_eq : EqDecision OPNetTransactionTypes.
Proof. solve_decision. Defined.

Record Transaction : Type := mkTx {
  transactionIdString : string;
  computedIndexingHash : bytes;
  inputs : list TransactionInput;
  priorityFee : js_value;
  index : nat;
  transactionType : OPNetTransactionTypes
}.

Record DependencyGraph : Type := mkGraph {
  transactionsById : list (string * Transaction);
  adjacency : list (string * list string);
  inDegree : list (string * Z)
}.

(** The [effectivePriorityCache] and [visiting] collections of a sort. *)
Record cmp_state : Type := mkCmp { cache : list (string * Z); visiting : list string }.

Module TransactionSorter.
Section TransactionSorter.
Context `{BtcLib} `{PriorityQueue} (compare : bytes → bytes → Z).

Fixpoint order_loop (ids : list string) (transactions newOrder : list Transaction)
  : result sort_error (list Transaction) :=
  match ids with
  | [] => Ok newOrder
  | id :: ids' =>
      match list_find (fun t => transactionIdString t = id) transactions with
      | Some (_, tx) => order_loop ids' transactions (newOrder ++ [tx])
      | None => Throw (TransactionNotFound id)
      end
  end.

Definition sortTransactionsByOrder (transactionIds : list string)
    (transactions : list Transaction) : result sort_error (list Transaction) :=
  if decide (length transactionIds = length transactions)
  then order_loop transactionIds transactions []
  else Throw (CountChanged (length transactions) (length transactionIds)).

Definition is_reward (t : Transaction) : bool :=
  existsb (fun i => (length (originalTransactionId i) =? 0)%nat) (inputs t).

Definition partitionByRewardStatus (transactions : list Transaction)
  : list Transaction * list Transaction :=
  (List.filter is_reward transactions,
   List.filter (fun t =>
     forallb (fun i => negb (length (originalTransactionId i) =? 0)%nat) (inputs t)) transactions).

Definition getTx (txId : string) (graph : DependencyGraph) : result sort_error Transaction :=
  match JsMap.get (transactionsById graph) txId with
  | Some tx => Ok tx
  | None => Throw (TransactionNotFound txId)
  end.

Definition getInputTransactionId (original : bytes) : option string :=
  if decide (length original = 0%nat) then None else Some (toHex original).

(** One input of [childId]: the edge from its parent, unless it is already
    there, the parent is not in the block, or it is the child itself. *)
Definition add_edge (byId : list (string * Transaction)) (childId : string)
    (g : list (string * list string) * list (string * Z)) (input : TransactionInput)
  : list (string * list string) * list (string * Z) :=
  match getInputTransactionId (originalTransactionId input) with
  | None => g
  | Some parentId =>
      if negb (truthy_str parentId) || negb (JsMap.has byId parentId)
         || bool_decide (parentId = childId)
      then g
      else match JsMap.get g.1 parentId with
           | Some children =>
               if JsSet.has children childId then g
               else (JsMap.set g.1 parentId (JsSet.add children childId),
                     JsMap.set g.2 childId (default 0 (JsMap.get g.2 childId) + 1))
           | None => g
           end
  end.

Definition buildDependencyGraph (transactions : list Transaction) : DependencyGraph :=
  let byId := JsMap.of_list ((fun tx => (transactionIdString tx, tx)) <$> transactions) in
  let adjacency0 := foldl (fun m id => JsMap.set m id []) [] (JsMap.keys byId) in
  let inDegree0 := foldl (fun m id => JsMap.set m id 0) [] (JsMap.keys byId) in
  let g := foldl (fun g tx => foldl (add_edge byId (transactionIdString tx)) g (inputs tx))
             (adjacency0, inDegree0) transactions in
  mkGraph byId g.1 g.2.

Definition safeBigInt (v : js_value) : Z :=
  match v with JBigInt z => z | JNumber z => z | JOther => 0 end.

Definition getTransactionPriority (tx : Transaction) : Z := safeBigInt (priorityFee tx).

Definition compareHashes (txA txB : Transaction) : Z :=
  compare (computedIndexingHash txA) (computedIndexingHash txB).

(** The [forEach] over the children in [computeEffectivePriority]. *)
Fixpoint best_child (rec : Transaction → stx cmp_state sort_error Z) (graph : DependencyGraph)
    (children : list string) (bestPriority : Z) : stx cmp_state sort_error Z :=
  match children with
  | [] => mret bestPriority
  | childId :: children' =>
      child ← slift (getTx childId graph);
      childPriority ← rec child;
      best_child rec graph children'
        (if decide (bestPriority < childPriority) then childPriority else bestPriority)
  end.

(** The recursion goes through transactions that are not being visited, so the
    number of transactions bounds its depth. *)
Fixpoint computeEffectivePriority (fuel : nat) (graph : DependencyGraph) (tx : Transaction)
  : stx cmp_state sort_error Z := fun s =>
  match fuel with
  | O => (s, Throw OutOfFuel)
  | S fuel' =>
      let txId := transactionIdString tx in
      match JsMap.get (cache s) txId with
      | Some cachedPriority => (s, Ok cachedPriority)
      | None =>
          if JsSet.has (visiting s) txId then (s, Ok (getTransactionPriority tx))
          else
            let s1 := mkCmp (cache s) (JsSet.add (visiting s) txId) in
            match best_child (computeEffectivePriority fuel' graph) graph
                    (default [] (JsMap.get (adjacency graph) txId))
                    (getTransactionPriority tx) s1 with
            | (s2, Throw e) => (s2, Throw e)
            | (s2, Ok bestPriority) =>
                (mkCmp (JsMap.set (cache s2) txId bestPriority) (JsSet.del (visiting s2) txId),
                 Ok bestPriority)
            end
      end
  end.

Definition fuel_of (graph : DependencyGraph) : nat := S (length (transactionsById graph)).

Definition comparePriority (graph : DependencyGraph) (a b : Transaction)
  : stx cmp_state sort_error Z :=
  effA ← computeEffectivePriority (fuel_of graph) graph a;
  effB ← computeEffectivePriority (fuel_of graph) graph b;
  if decide (effA ≠ effB) then mret (if decide (effB < effA) then -1 else 1)
  else
    let priorityA := getTransactionPriority a in
    let priorityB := getTransactionPriority b in
    if decide (priorityA ≠ priorityB) then mret (if decide (priorityB < priorityA) then -1 else 1)
    else mret (compareHashes a b).

(** [graph.inDegree.forEach]: enqueue the transactions without parents. *)
Fixpoint enqueue_roots (graph : DependencyGraph) (degrees : list (string * Z)) (q : pq Transaction)
  : stx cmp_state sort_error (pq Transaction) :=
  match degrees with
  | [] => mret q
  | (txId, degree) :: degrees' =>
      if decide (degree = 0)
      then tx ← slift (getTx txId graph);
           q' ← pq_enqueue (comparePriority graph) tx q;
           enqueue_roots graph degrees' q'
      else enqueue_roots graph degrees' q
  end.

(** [children?.forEach]: decrement, and enqueue a child whose last parent was
    emitted. *)
Fixpoint release_children (graph : DependencyGraph) (children : list string)
    (deg : list (string * Z)) (q : pq Transaction)
  : stx cmp_state sort_error (list (string * Z) * pq Transaction) :=
  match children with
  | [] => mret (deg, q)
  | childId :: children' =>
      let updated := default 0 (JsMap.get deg childId) - 1 in
      let deg' := JsMap.set deg childId updated in
      if decide (updated = 0)
      then child ← slift (getTx childId graph);
           q' ← pq_enqueue (comparePriority graph) child q;
           release_children graph children' deg' q'
      else release_children graph children' deg' q
  end.

(** The [while (!availableTxs.isEmpty())] loop.  [dequeue] of a queue that is
    not empty returns an element. *)
Fixpoint traverse (fuel : nat) (graph : DependencyGraph) (deg : list (string * Z))
    (q : pq Transaction) (resultTxs : list Transaction)
  : stx cmp_state sort_error (list Transaction) :=
  match fuel with
  | O => sthrow OutOfFuel
  | S fuel' =>
      if pq_isEmpty q then mret resultTxs
      else
        d ← pq_dequeue (comparePriority graph) q;
        match d with
        | (None, _) => sthrow (TransactionNotFound "")
        | (Some nextTx, q1) =>
            r ← release_children graph
                  (default [] (JsMap.get (adjacency graph) (transactionIdString nextTx))) deg q1;
            traverse fuel' graph r.1 r.2 (resultTxs ++ [nextTx])
        end
  end.

(** The transactions of the graph that were not emitted. *)
Definition remaining_txs (graph : DependencyGraph) (resultTxs : list Transaction)
  : list Transaction :=
  List.filter (fun txA =>
    negb (existsb (fun txB =>
      bool_decide (transactionIdString txA = transactionIdString txB)) resultTxs))
    (JsMap.values (transactionsById graph)).

Definition sortByFeeWithDependencies_stx (transactions : list Transaction)
  : stx cmp_state sort_error (list Transaction) :=
  let graph := buildDependencyGraph transactions in
  q ← enqueue_roots graph (inDegree graph) pq_new;
  resultTxs ← traverse (fuel_of graph) graph (inDegree graph) q [];
  if decide (length resultTxs = length (transactionsById graph))
  then mret resultTxs
  else sorted ← js_sort (comparePriority graph) (remaining_txs graph resultTxs);
       mret (resultTxs ++ sorted).

Definition sortByFeeWithDependencies (transactions : list Transaction)
  : result sort_error (list Transaction) :=
  (sortByFeeWithDependencies_stx transactions (mkCmp [] [])).2.

Definition set_index (i : nat) (tx : Transaction) : Transaction :=
  mkTx (transactionIdString tx) (computedIndexingHash tx) (inputs tx) (priorityFee tx) i (transactionType tx).

Definition sortTransactions (transactions : list Transaction)
  : result sort_error (list Transaction) :=
  let initialLength := length transactions in
  let parts := partitionByRewardStatus transactions in
  sortedNonRewards ← sortByFeeWithDependencies parts.2;
  let finalList := imap set_index (parts.1 ++ sortedNonRewards) in
  if decide (length finalList = initialLength) then Ok finalList
  else Throw (CountChanged initialLength (length finalList)).

End TransactionSorter.
End TransactionSorter.
