(* ===== verification/TransactionSorterFacts.v ===== *)
(** * Facts about the ordering of the transactions of a block

    The dependency graph is what the inputs say, the comparator never throws,
    and the traversal is a topological one: [sortTransactions] returns every
    transaction once, rewards first and parents before their children. *)

From S2P Require Import Prelude TransactionSorter.
Import TransactionSorter.

(** ** JavaScript's sort *)

Section js_sort.
Context {A S E : Type} (I : S → Prop) (P : A → Prop) (cmp : A → A → stx S E Z).
Hypothesis Hcmp : cmp_safe I P cmp.

Lemma sort_insert_perm x l s :
  I s → P x → Forall P l →
  ∃ s' l', sort_insert cmp x l s = (s', Ok l') ∧ I s' ∧ l' ≡ₚ x :: l.
Proof.
  intros Hs Hx Hl. revert s Hs. induction Hl as [|y l Hy Hl IH]; intros s Hs; [by eexists _, _|].
  destruct (Hcmp x y s) as (s1 & z & Hz & Hs1); [done..|].
  cbn [sort_insert]. unfold mbind, stx_bind. rewrite Hz. case_decide.
  - by eexists _, _.
  - destruct (IH s1 Hs1) as (s2 & l2 & -> & Hs2 & Hp). eexists _, _. split; [done|].
    split; [done|]. rewrite Hp. constructor.
Qed.

Lemma js_sort_perm l s :
  I s → Forall P l → ∃ s' l', js_sort cmp l s = (s', Ok l') ∧ I s' ∧ l' ≡ₚ l.
Proof.
  intros Hs Hl. revert s Hs. induction Hl as [|x l Hx Hl IH]; intros s Hs; [by eexists _, _|].
  destruct (IH s Hs) as (s1 & l1 & H1 & Hs1 & Hp1).
  cbn [js_sort]. unfold mbind, stx_bind. rewrite H1.
  destruct (sort_insert_perm x l1 s1) as (s2 & l2 & -> & Hs2 & Hp2); [done..| |].
  - by rewrite Hp1.
  - eexists _, _. split; [done|]. split; [done|]. by rewrite Hp2, Hp1.
Qed.
End js_sort.

(** ** The dependency graph *)

Definition ids_of (l : list Transaction) : list string := transactionIdString <$> l.

Definition graph_keys (g : DependencyGraph) : list string := JsMap.keys (transactionsById g).

Definition children (g : DependencyGraph) (p : string) : list string :=
  default [] (JsMap.get (adjacency g) p).

Definition parents (g : DependencyGraph) (c : string) : list string :=
  filter (fun p => c ∈ children g p) (graph_keys g).

(** The transaction is the one the graph has under its identifier. *)
Definition in_graph (g : DependencyGraph) (tx : Transaction) : Prop :=
  JsMap.get (transactionsById g) (transactionIdString tx) = Some tx.

Record graph_wf (g : DependencyGraph) : Prop := {
  gw_nodup : NoDup (graph_keys g);
  gw_ids : ∀ id tx, JsMap.get (transactionsById g) id = Some tx → transactionIdString tx = id;
  gw_deg_keys : JsMap.keys (inDegree g) = graph_keys g;
  gw_children_nodup : ∀ p, NoDup (children g p);
  gw_children_in : ∀ p c, c ∈ children g p → c ∈ graph_keys g;
  gw_children_parent : ∀ p c, c ∈ children g p → p ∈ graph_keys g;
  gw_degree : ∀ c, c ∈ graph_keys g →
    JsMap.get (inDegree g) c = Some (Z.of_nat (length (parents g c)))
}.

Lemma in_graph_key g tx : in_graph g tx → transactionIdString tx ∈ graph_keys g.
Proof. intros Hin. apply JsMap.elem_of_keys. by eexists. Qed.

Lemma getTx_ok g id :
  graph_wf g → id ∈ graph_keys g →
  ∃ tx, getTx id g = Ok tx ∧ transactionIdString tx = id ∧ in_graph g tx.
Proof.
  intros Hw [tx Htx]%JsMap.elem_of_keys. exists tx. unfold getTx, in_graph.
  rewrite Htx. pose proof (gw_ids _ Hw _ _ Htx) as <-. done.
Qed.

Lemma elem_of_parents g p c : graph_wf g → p ∈ parents g c ↔ c ∈ children g p.
Proof.
  intros Hw. unfold parents. rewrite list_elem_of_filter. split; [naive_solver|].
  intros Hc. split; [done|]. by eapply gw_children_parent.
Qed.

(** Transactions of the graph are determined by their identifiers. *)
Lemma in_graph_inj g tx1 tx2 :
  in_graph g tx1 → in_graph g tx2 → transactionIdString tx1 = transactionIdString tx2 → tx1 = tx2.
Proof. unfold in_graph. intros H1 H2 Heq. rewrite Heq in H1. congruence. Qed.

Lemma in_graph_ids_perm g l1 l2 :
  Forall (in_graph g) l1 → Forall (in_graph g) l2 → NoDup (ids_of l1) →
  ids_of l1 ≡ₚ ids_of l2 → l1 ≡ₚ l2.
Proof.
  rewrite !Forall_forall. intros H1 H2 Hnd Hp.
  assert (NoDup l1) by (by apply (NoDup_fmap_1 transactionIdString)).
  assert (NoDup l2) by (apply (NoDup_fmap_1 transactionIdString); by rewrite <-Hp).
  apply NoDup_Permutation; [done..|]. intros tx. split; intros Hin.
  - assert (transactionIdString tx ∈ ids_of l2) as (tx' & Heq & Hin')%list_elem_of_fmap.
    { rewrite <-Hp. by apply list_elem_of_fmap_2. }
    rewrite (in_graph_inj g tx tx'); auto.
  - assert (transactionIdString tx ∈ ids_of l1) as (tx' & Heq & Hin')%list_elem_of_fmap.
    { rewrite Hp. by apply list_elem_of_fmap_2. }
    rewrite (in_graph_inj g tx tx'); auto.
Qed.

(** ** The effective priority is total

    Every recursive call enters a transaction that is not being visited, and
    [visiting] is what it was when the call returns. *)

Section effective_priority.
Context (g : DependencyGraph) (Hwf : graph_wf g).

Lemma best_child_ok rec cs best s :
  (∀ tx s', in_graph g tx → visiting s' = visiting s →
     ∃ s'' z, rec tx s' = (s'', Ok z) ∧ visiting s'' = visiting s) →
  (∀ c, c ∈ cs → c ∈ graph_keys g) →
  ∃ s' z, best_child rec g cs best s = (s', Ok z) ∧ visiting s' = visiting s.
Proof.
  intros Hrec. remember (visiting s) as v eqn:Hv. symmetry in Hv.
  revert s best Hv. induction cs as [|c cs IH]; intros s best Hv Hin; [by eexists _, _|].
  destruct (getTx_ok g c) as (tx & Hg & Hid & Htx); [done|apply Hin; left|].
  cbn [best_child]. unfold mbind, stx_bind, slift. rewrite Hg.
  destruct (Hrec tx s) as (s1 & z1 & -> & Hv1); [done..|].
  apply IH; [done|]. intros c' ?. apply Hin. by right.
Qed.

Lemma computeEffectivePriority_ok fuel tx s :
  in_graph g tx → NoDup (visiting s) → visiting s ⊆ graph_keys g →
  (length (graph_keys g) < length (visiting s) + fuel)%nat →
  ∃ s' z, computeEffectivePriority fuel g tx s = (s', Ok z) ∧ visiting s' = visiting s.
Proof.
  revert tx s. induction fuel as [|fuel IH]; intros tx s Htx Hnd Hsub Hlen.
  { exfalso. apply NoDup_submseteq, submseteq_length in Hsub; [lia|done]. }
  cbn [computeEffectivePriority]. destruct (JsMap.get (cache s) _) as [z|]; [by eexists _, _|].
  destruct (JsSet.has (visiting s) _) eqn:Hv; [by eexists _, _|].
  apply JsSet.jset_has_false in Hv.
  assert (JsSet.add (visiting s) (transactionIdString tx)
          = visiting s ++ [transactionIdString tx]) as Hadd.
  { unfold JsSet.add. by rewrite (proj2 (JsSet.jset_has_false _ _)). }
  set (s1 := mkCmp (cache s) (JsSet.add (visiting s) (transactionIdString tx))).
  destruct (best_child_ok (computeEffectivePriority fuel g)
    (children g (transactionIdString tx)) (getTransactionPriority tx) s1)
    as (s2 & z & Hb & Hv2).
  - intros tx' s' Htx' Hs'. rewrite <-Hs'. apply IH; [done|..]; rewrite Hs'; cbn [visiting s1].
    + by apply JsSet.NoDup_add.
    + intros x [->|Hx]%JsSet.elem_of_add; [by apply in_graph_key|by apply Hsub].
    + rewrite Hadd, length_app. cbn [length]. lia.
  - intros c Hc. by eapply gw_children_in.
  - unfold children in Hb. rewrite Hb. eexists _, _. split; [done|]. cbn [visiting].
    rewrite Hv2. cbn [visiting s1]. rewrite Hadd. unfold JsSet.del.
    rewrite filter_app, filter_cons, filter_nil, decide_False, app_nil_r by naive_solver.
    apply filter_all, Forall_forall. by intros x Hx ->.
Qed.

(** The comparator of a sort never throws, and no transaction is left marked
    as being visited. *)
Lemma comparePriority_safe compare :
  cmp_safe (fun s => visiting s = []) (in_graph g) (comparePriority compare g).
Proof.
  intros a b s Ha Hb Hs.
  destruct (computeEffectivePriority_ok (fuel_of g) a s) as (s1 & za & H1 & Hs1);
    rewrite ?Hs; [done|constructor|set_solver| |].
  { unfold fuel_of, graph_keys, JsMap.keys. rewrite length_fmap. cbn. lia. }
  destruct (computeEffectivePriority_ok (fuel_of g) b s1) as (s2 & zb & H2 & Hs2);
    rewrite ?Hs1, ?Hs; [done|constructor|set_solver| |].
  { unfold fuel_of, graph_keys, JsMap.keys. rewrite length_fmap. cbn. lia. }
  unfold comparePriority, mbind, stx_bind. rewrite H1, H2.
  repeat case_decide; eexists _, _; (split; [done|congruence]).
Qed.
End effective_priority.

(** ** The traversal *)

(** Every identifier comes after all its parents. *)
Definition topological (g : DependencyGraph) (l : list string) : Prop :=
  dep_order (parents g) l.

(** The parents of [c] that are not in [E]. *)
Definition pending (g : DependencyGraph) (E : list string) (c : string) : list string :=
  filter (.∉ E) (parents g c).

Lemma pending_snoc_in g E x c :
  graph_wf g → x ∉ E → c ∈ children g x → length (pending g E c) = S (length (pending g (E ++ [x]) c)).
Proof.
  intros Hw Hx Hc. assert (NoDup (parents g c)) as Hnd by apply NoDup_filter, gw_nodup, Hw.
  apply elem_of_parents in Hc; [|done]. unfold pending.
  revert Hnd Hc. generalize (parents g c). intros l Hnd Hc.
  assert (∀ l : list string, x ∉ l → filter (.∉ E ++ [x]) l = filter (.∉ E) l) as Hsame.
  { intros l0 Hl0. apply filter_ext_elem. intros y Hy.
    rewrite elem_of_app, list_elem_of_singleton. naive_solver. }
  apply list_elem_of_split in Hc as (l1 & l2 & ->).
  apply NoDup_app in Hnd as (_ & Hd & [Hx2 _]%NoDup_cons).
  assert (x ∉ l1) by (intros Hi; apply (Hd x Hi); left).
  rewrite !filter_app, !filter_cons, !length_app, !Hsame by done.
  rewrite (decide_True (P := x ∉ E)) by done. rewrite decide_False by set_solver.
  cbn [length]. lia.
Qed.

Lemma pending_snoc_out g E x c :
  graph_wf g → c ∉ children g x → pending g (E ++ [x]) c = pending g E c.
Proof.
  intros Hw Hc. apply filter_ext_elem. intros y Hy.
  rewrite elem_of_app, list_elem_of_singleton.
  split; [naive_solver|]. intros Hy' [?| ->]; [done|].
  apply Hc. by apply elem_of_parents.
Qed.

Section traversal.
Context `{PriorityQueue} `{!PriorityQueueLaws} (compare : bytes → bytes → Z).
Context (g : DependencyGraph) (Hwf : graph_wf g).

(** A queue of transactions of the graph. *)
Definition queue_ok (q : pq Transaction) : Prop := Forall (in_graph g) (pq_elems q).
Definition queue_ids (q : pq Transaction) : list string := ids_of (pq_elems q).

Lemma enqueue_id id q s :
  id ∈ graph_keys g → queue_ok q → visiting s = [] →
  ∃ tx s' q', getTx id g = Ok tx ∧ pq_enqueue (comparePriority compare g) tx q s = (s', Ok q') ∧
    visiting s' = [] ∧ queue_ok q' ∧ queue_ids q' ≡ₚ id :: queue_ids q.
Proof.
  intros Hid Hq Hs. destruct (getTx_ok g id) as (tx & Hg & Heq & Htx); [done..|].
  destruct (pq_enqueue_elems _ _ _ _ _ _ tx q s (comparePriority_safe g Hwf compare))
    as (s' & q' & He & Hs' & Hp); [done..|].
  exists tx, s', q'. split_and!; [done..| |].
  - unfold queue_ok. rewrite Hp. by constructor.
  - unfold queue_ids, ids_of. rewrite Hp, fmap_cons. by rewrite Heq.
Qed.

Lemma enqueue_roots_ok degrees q s :
  (∀ id, id ∈ degrees.*1 → id ∈ graph_keys g) → queue_ok q → visiting s = [] →
  ∃ s' q', enqueue_roots compare g degrees q s = (s', Ok q') ∧ visiting s' = [] ∧ queue_ok q' ∧
    queue_ids q' ≡ₚ (filter (fun kv => kv.2 = 0) degrees).*1 ++ queue_ids q.
Proof.
  revert q s. induction degrees as [|[id d] degrees IH]; intros q s Hin Hq Hs.
  { by eexists _, _. }
  assert (∀ id, id ∈ degrees.*1 → id ∈ graph_keys g) as Hin'.
  { intros i Hi. apply Hin. csimpl. by right. }
  cbn [enqueue_roots]. rewrite filter_cons. cbn [snd]. case_decide; [|by apply IH].
  destruct (enqueue_id id q s) as (tx & s1 & q1 & Hg & He & Hs1 & Hq1 & Hp1);
    [apply Hin; csimpl; left|done..|].
  unfold mbind, stx_bind, slift. rewrite Hg, He.
  destruct (IH q1 s1) as (s2 & q2 & -> & Hs2 & Hq2 & Hp2); [done..|].
  eexists _, _. split_and!; [done..|]. rewrite Hp2, Hp1. csimpl. symmetry. apply Permutation_middle.
Qed.

Lemma release_children_ok cs deg q s :
  NoDup cs → (∀ c, c ∈ cs → c ∈ graph_keys g) → queue_ok q → visiting s = [] →
  ∃ s' deg' q', release_children compare g cs deg q s = (s', Ok (deg', q')) ∧
    visiting s' = [] ∧ queue_ok q' ∧
    (∀ id, JsMap.get deg' id = if decide (id ∈ cs)
       then Some (default 0 (JsMap.get deg id) - 1) else JsMap.get deg id) ∧
    queue_ids q' ≡ₚ filter (fun c => default 0 (JsMap.get deg c) = 1) cs ++ queue_ids q.
Proof.
  revert deg q s. induction cs as [|c cs IH]; intros deg q s Hnd Hin Hq Hs.
  { by eexists _, _, _. }
  apply NoDup_cons in Hnd as [Hc Hnd].
  assert (∀ c, c ∈ cs → c ∈ graph_keys g) as Hin' by (intros c' ?; apply Hin; by right).
  set (deg1 := JsMap.set deg c (default 0 (JsMap.get deg c) - 1)).
  assert (∀ id, (if decide (id ∈ cs) then Some (default 0 (JsMap.get deg1 id) - 1)
                 else JsMap.get deg1 id)
              = if decide (id ∈ c :: cs) then Some (default 0 (JsMap.get deg id) - 1)
                else JsMap.get deg id) as Hdeg.
  { intros id. unfold deg1. rewrite JsMap.get_set.
    destruct (decide (c = id)) as [->|Hne].
    - by rewrite decide_False, decide_True by set_solver.
    - by destruct (decide (id ∈ cs)); [rewrite decide_True by set_solver|
        rewrite decide_False by set_solver]. }
  assert (filter (fun c => default 0 (JsMap.get deg1 c) = 1) cs
          = filter (fun c => default 0 (JsMap.get deg c) = 1) cs) as Hfil.
  { apply filter_ext_elem. intros x Hx. unfold deg1. rewrite JsMap.get_set_ne; set_solver. }
  cbn [release_children]. fold deg1. rewrite filter_cons. case_decide as Hz.
  - rewrite decide_True by lia.
    destruct (enqueue_id c q s) as (tx & s1 & q1 & Hg & He & Hs1 & Hq1 & Hp1);
      [apply Hin; left|done..|].
    unfold mbind, stx_bind, slift. rewrite Hg, He.
    destruct (IH deg1 q1 s1) as (s2 & deg2 & q2 & -> & Hs2 & Hq2 & Hd2 & Hp2); [done..|].
    eexists _, _, _. split_and!; [done..| |].
    + intros id. by rewrite Hd2, Hdeg.
    + rewrite Hp2, Hp1, Hfil. symmetry. apply Permutation_middle.
  - rewrite decide_False by lia.
    destruct (IH deg1 q s) as (s2 & deg2 & q2 & -> & Hs2 & Hq2 & Hd2 & Hp2); [done..|].
    eexists _, _, _. split_and!; [done..| |].
    + intros id. by rewrite Hd2, Hdeg.
    + by rewrite Hp2, Hfil.
Qed.

(** What the loop maintains: [E] was emitted, [deg] counts the parents that
    were not, and the queue holds the transactions that wait for none. *)
Record loop_inv (E : list string) (deg : list (string * Z)) (q : pq Transaction) : Prop := {
  li_nodup : NoDup (E ++ queue_ids q);
  li_queue : queue_ok q;
  li_deg : ∀ c, c ∈ graph_keys g → JsMap.get deg c = Some (Z.of_nat (length (pending g E c)));
  li_ready : ∀ c, c ∈ E ++ queue_ids q ↔ c ∈ graph_keys g ∧ pending g E c = [];
  li_topo : topological g E
}.

Lemma loop_inv_init s :
  visiting s = [] →
  ∃ s' q, enqueue_roots compare g (inDegree g) pq_new s = (s', Ok q) ∧ visiting s' = [] ∧
    loop_inv [] (inDegree g) q.
Proof.
  intros Hs. assert (∀ c, pending g [] c = parents g c) as Hpend.
  { intros c. apply filter_all, Forall_forall. set_solver. }
  destruct (enqueue_roots_ok (inDegree g) pq_new s) as (s' & q & He & Hs' & Hq & Hp).
  { intros id Hid. rewrite <-(gw_deg_keys _ Hwf). done. }
  { unfold queue_ok. rewrite pq_new_elems. constructor. }
  { done. }
  unfold queue_ids in Hp at 2. rewrite pq_new_elems, app_nil_r in Hp.
  assert (JsMap.wf (inDegree g)) as Hnd.
  { unfold JsMap.wf. rewrite gw_deg_keys by done. by apply gw_nodup. }
  exists s', q. split_and!; [done..|]. constructor; cbn [app].
  - rewrite Hp. eapply sublist_NoDup; [exact Hnd|]. apply fmap_sublist, sublist_filter.
  - done.
  - intros c Hc. rewrite Hpend. by apply gw_degree.
  - intros c. rewrite Hp, list_elem_of_fmap, Hpend. split.
    + intros ([c' d] & -> & [Hd Hin]%list_elem_of_filter). cbn in *. subst d.
      assert (c' ∈ graph_keys g) as Hk.
      { rewrite <-(gw_deg_keys _ Hwf). apply list_elem_of_fmap. by eexists (_, _). }
      split; [done|]. apply JsMap.elem_of_get in Hin; [|done].
      rewrite (gw_degree _ Hwf c' Hk) in Hin. apply nil_length_inv. simplify_eq. lia.
    + intros [Hk Hnil]. pose proof (gw_degree _ Hwf c Hk) as Hd. rewrite Hnil in Hd.
      exists (c, 0). split; [done|]. apply list_elem_of_filter.
      split; [done|]. by apply JsMap.get_elem_of.
  - apply dep_order_nil.
Qed.

(** One turn: [x] leaves the queue and its children are released. *)
Lemma loop_inv_step E deg q x q1 s :
  loop_inv E deg q → pq_elems q ≡ₚ x :: pq_elems q1 → visiting s = [] →
  ∃ s' deg' q', release_children compare g (children g (transactionIdString x)) deg q1 s
      = (s', Ok (deg', q')) ∧ visiting s' = [] ∧ in_graph g x ∧
    loop_inv (E ++ [transactionIdString x]) deg' q'.
Proof.
  intros [Hnd Hq Hdeg Hready Htopo] Hp Hs. set (xid := transactionIdString x).
  assert (queue_ids q ≡ₚ xid :: queue_ids q1) as Hids by (unfold queue_ids, ids_of; by rewrite Hp).
  unfold queue_ok in Hq. rewrite Hp in Hq. apply Forall_cons in Hq as [Hx Hq1].
  rewrite Hids in Hnd. setoid_rewrite Hids in Hready.
  destruct (Hready xid) as [[Hidk Hid0] _]; [set_solver|].
  assert (xid ∉ E) as HidE by (apply NoDup_app in Hnd; set_solver).
  destruct (release_children_ok (children g xid) deg q1 s)
    as (s' & deg' & q' & Hr & Hs' & Hq' & Hd' & Hp'); [by apply gw_children_nodup| |done..|].
  { intros c. by apply gw_children_in. }
  assert (∀ c, c ∈ children g xid → pending g E c ≠ []) as Hpos.
  { intros c Hc Hnil. pose proof (pending_snoc_in g E xid c Hwf HidE Hc) as Hl.
    rewrite Hnil in Hl. discriminate Hl. }
  assert (∀ c, c ∈ filter (fun c => default 0 (JsMap.get deg c) = 1) (children g xid)
     ↔ c ∈ children g xid ∧ pending g (E ++ [xid]) c = []) as Hnew.
  { intros c. rewrite list_elem_of_filter.
    assert (c ∈ children g xid → default 0 (JsMap.get deg c) = 1 ↔ pending g (E ++ [xid]) c = []).
    { intros Hc. rewrite Hdeg by (by eapply gw_children_in). cbn [from_option id].
      rewrite (pending_snoc_in g E xid c) by done. destruct (pending g (E ++ [xid]) c); [done|].
      cbn [length]. split; [lia|done]. }
    naive_solver. }
  exists s', deg', q'. split_and!; [done..|]. constructor.
  - rewrite Hp', <-app_assoc. cbn [app].
    rewrite (Permutation_middle (filter _ _)), (Permutation_app_comm (filter _ _)), app_assoc.
    apply NoDup_app. split_and!; [done| |apply NoDup_filter, gw_children_nodup, Hwf].
    intros c Hc1 [Hc2 _]%Hnew. apply Hready in Hc1 as [_ Hc1]. by eapply Hpos.
  - done.
  - intros c Hc. rewrite Hd'. case_decide as Hcc.
    + rewrite Hdeg by done. cbn [from_option id]. rewrite (pending_snoc_in g E xid c) by done. f_equal. lia.
    + rewrite pending_snoc_out by done. by apply Hdeg.
  - intros c. rewrite Hp', <-app_assoc. cbn [app].
    rewrite (Permutation_middle (filter _ _)), (Permutation_app_comm (filter _ _)), app_assoc.
    rewrite elem_of_app, Hready, Hnew. destruct (decide (c ∈ children g xid)) as [Hc|Hc].
    + split; [|naive_solver]. intros [[? ?]|[_ ?]]; [by destruct (Hpos c Hc)|].
      split; [by eapply gw_children_in|done].
    + rewrite pending_snoc_out by done. naive_solver.
  - apply dep_order_snoc; [done|]. intros p Hpp. destruct (decide (p ∈ E)); [done|].
    assert (p ∈ pending g E xid) as Hin by (by apply list_elem_of_filter).
    rewrite Hid0 in Hin. by apply elem_of_nil in Hin.
Qed.

(** The emitted transactions: each once, after its parents; what is left out
    waits for a parent that is left out too. *)
Record emitted (out : list Transaction) : Prop := {
  em_nodup : NoDup (ids_of out);
  em_graph : Forall (in_graph g) out;
  em_topo : topological g (ids_of out);
  em_ready : ∀ c, c ∈ ids_of out ↔ c ∈ graph_keys g ∧ pending g (ids_of out) c = []
}.

Lemma traverse_ok fuel deg q res s :
  loop_inv (ids_of res) deg q → Forall (in_graph g) res → visiting s = [] →
  (length (graph_keys g) < length res + fuel)%nat →
  ∃ s' out, traverse compare fuel g deg q res s = (s', Ok out) ∧ visiting s' = [] ∧ emitted out.
Proof.
  revert deg q res s. induction fuel as [|fuel IH]; intros deg q res s Hinv Hres Hs Hlen.
  { exfalso. assert (ids_of res ⊆ graph_keys g) as Hsub.
    { intros c Hc. apply (li_ready _ _ _ Hinv). set_solver. }
    apply NoDup_submseteq, submseteq_length in Hsub.
    - unfold ids_of in Hsub. rewrite length_fmap in Hsub. lia.
    - by destruct (proj1 (NoDup_app _ _) (li_nodup _ _ _ Hinv)). }
  cbn [traverse]. destruct (pq_isEmpty q) eqn:Hemp.
  - apply pq_isEmpty_elems in Hemp. eexists _, _. split_and!; [done..|].
    destruct Hinv as [Hnd _ _ Hready Htopo]. unfold queue_ids in Hnd, Hready.
    rewrite Hemp in Hnd. setoid_rewrite Hemp in Hready. rewrite app_nil_r in Hnd.
    setoid_rewrite app_nil_r in Hready. by constructor.
  - destruct (pq_dequeue_elems _ _ _ _ _ _ q s (comparePriority_safe g Hwf compare))
      as (s1 & x & q1 & Hd & Hs1 & Hp); [done|by apply Hinv| |].
    { intros Hnil%pq_isEmpty_elems. congruence. }
    unfold mbind, stx_bind. rewrite Hd.
    destruct (loop_inv_step _ _ _ x q1 s1 Hinv Hp Hs1) as (s2 & deg2 & q2 & Hr & Hs2 & Hx & Hinv2).
    unfold children in Hr. rewrite Hr. cbn [fst snd]. apply IH.
    + unfold ids_of. by rewrite fmap_app.
    + apply Forall_app; auto.
    + done.
    + rewrite length_app. cbn [length]. lia.
Qed.

(** The transactions that were not emitted are those that were left out. *)
Lemma remaining_ids out :
  ids_of (remaining_txs g out) = filter (.∉ ids_of out) (graph_keys g).
Proof.
  unfold remaining_txs, graph_keys, JsMap.keys, JsMap.values, ids_of.
  pose proof (gw_ids _ Hwf) as Hids.
  assert (∀ id tx, (id, tx) ∈ transactionsById g → transactionIdString tx = id) as Hin.
  { intros id tx Hin. apply Hids, JsMap.elem_of_get; [apply (gw_nodup _ Hwf)|done]. }
  clear Hids. induction (transactionsById g) as [|[id tx] l IH]; [done|]. csimpl.
  rewrite filter_cons. destruct (existsb _ _) eqn:Hex.
  - apply existsb_exists in Hex as (tx' & Hin' & Heq%bool_decide_eq_true).
    rewrite (Hin id tx) in Heq by left. cbn [negb].
    rewrite decide_False; [apply IH; intros; apply Hin; by right|].
    intros Hn. apply Hn, list_elem_of_fmap. exists tx'. split; [done|by apply list_elem_of_In].
  - cbn [negb]. rewrite decide_True; [csimpl; rewrite IH by (intros; apply Hin; by right);
      f_equal; apply Hin; left|].
    intros (tx' & -> & Hin')%list_elem_of_fmap. apply not_true_iff_false in Hex. apply Hex.
    apply existsb_exists. exists tx'. split; [by apply list_elem_of_In|].
    apply bool_decide_eq_true, Hin. left.
Qed.
End traversal.

(** ** The graph that is built *)

Section build.
Context `{BtcLib}.

(** The input of a transaction [c] names the transaction [p] of the block. *)
Definition names_parent (K : list string) (c : string) (i : TransactionInput) (p : string) : Prop :=
  getInputTransactionId (originalTransactionId i) = Some p ∧ p ≠ "" ∧ p ∈ K ∧ p ≠ c.

Definition kids (adj : list (string * list string)) (p : string) : list string :=
  default [] (JsMap.get adj p).

Record edges_ok (K : list string) (e : list (string * list string) * list (string * Z)) : Prop := {
  eo_adj : JsMap.keys e.1 = K;
  eo_deg : JsMap.keys e.2 = K;
  eo_nodup : ∀ p, NoDup (kids e.1 p);
  eo_in : ∀ p c, c ∈ kids e.1 p → c ∈ K;
  eo_count : ∀ c, c ∈ K →
    JsMap.get e.2 c = Some (Z.of_nat (length (filter (fun p => c ∈ kids e.1 p) K)))
}.

(** [add_edge] either finds no new edge or adds one child to one parent. *)
Lemma add_edge_cases byId c i e :
  JsMap.keys e.1 = JsMap.keys byId →
  (add_edge byId c e i = e ∧
     (∀ p, names_parent (JsMap.keys byId) c i p → c ∈ kids e.1 p)) ∨
  (∃ p, names_parent (JsMap.keys byId) c i p ∧ (c ∉ kids e.1 p) ∧
     add_edge byId c e i = (JsMap.set e.1 p (kids e.1 p ++ [c]),
                            JsMap.set e.2 c (default 0 (JsMap.get e.2 c) + 1))).
Proof.
  intros Hk. unfold add_edge, names_parent.
  destruct (getInputTransactionId _) as [p|]; [|left; split; [done|naive_solver]].
  destruct (negb (truthy_str p) || _ || _) eqn:Hskip.
  - left. split; [done|]. intros p' ([= <-] & Hne & Hin & Hc). exfalso.
    rewrite !orb_true_iff, !negb_true_iff in Hskip. destruct Hskip as [[Ht|Hh]|Heq].
    + by destruct p.
    + apply JsMap.has_spec in Hin. congruence.
    + by apply bool_decide_eq_true in Heq.
  - rewrite !orb_false_iff, !negb_false_iff in Hskip.
    destruct Hskip as [[Ht Hh%JsMap.has_spec] Hne%bool_decide_eq_false].
    assert (is_Some (JsMap.get e.1 p)) as [cs Hcs] by (by rewrite <-JsMap.elem_of_keys, Hk).
    assert (kids e.1 p = cs) as Hkids by (unfold kids; by rewrite Hcs).
    rewrite Hcs. destruct (JsSet.has cs c) eqn:Hhas.
    + left. split; [done|]. intros p' ([= <-] & _). rewrite Hkids. by apply JsSet.jset_has_spec.
    + right. exists p. pose proof Hhas as Hni%JsSet.jset_has_false. rewrite Hkids.
      unfold JsSet.add. rewrite Hhas. split_and!; try done. by intros ->.
Qed.

Lemma kids_set adj p c p' :
  kids (JsMap.set adj p (kids adj p ++ [c])) p'
  = if decide (p = p') then kids adj p ++ [c] else kids adj p'.
Proof. unfold kids. rewrite JsMap.get_set. by case_decide. Qed.

Lemma keys_set_in {V} (m : list (string * V)) k v :
  k ∈ JsMap.keys m → JsMap.keys (JsMap.set m k v) = JsMap.keys m.
Proof. intros Hk. rewrite JsMap.keys_set. by rewrite (proj2 (JsMap.has_spec m k) Hk). Qed.

Lemma add_edge_ok byId c i e :
  NoDup (JsMap.keys byId) → c ∈ JsMap.keys byId →
  edges_ok (JsMap.keys byId) e → edges_ok (JsMap.keys byId) (add_edge byId c e i).
Proof.
  set (K := JsMap.keys byId). intros HK Hc [Ha Hd Hn Hi Hcount].
  destruct (add_edge_cases byId c i e Ha) as [[-> _]|(p & (_ & _ & HpK & Hpc) & Hni & ->)];
    [by constructor|].
  assert (∀ p' x, x ∈ kids (JsMap.set e.1 p (kids e.1 p ++ [c])) p'
    ↔ x ∈ kids e.1 p' ∨ p' = p ∧ x = c) as Hkid.
  { intros p' x. rewrite kids_set. case_decide; subst; [|naive_solver].
    rewrite elem_of_app, list_elem_of_singleton. naive_solver. }
  fold K in HpK. clearbody K. constructor; cbn [fst snd].
  - rewrite keys_set_in; by rewrite ?Ha.
  - rewrite keys_set_in; by rewrite ?Hd.
  - intros p'. rewrite kids_set. case_decide; [|done]. apply NoDup_app.
    split_and!; [done| |apply NoDup_singleton]. by intros x Hx ->%list_elem_of_singleton.
  - intros p' x [?|[-> ->]]%Hkid; [by eapply Hi|done].
  - intros x Hx. rewrite JsMap.get_set. destruct (decide (c = x)) as [<-|Hcx].
    + rewrite Hcount by done. cbn [from_option id]. f_equal.
      apply list_elem_of_split in HpK as (K1 & K2 & HKeq). rewrite HKeq in HK |- *.
      apply NoDup_app in HK as (_ & Hdis & [Hp2 _]%NoDup_cons).
      assert (p ∉ K1) as Hp1 by (intros Hi1; apply (Hdis p Hi1); left).
      rewrite !filter_app, !filter_cons, !length_app, decide_False by done.
      rewrite decide_True by (apply Hkid; naive_solver).
      assert (∀ L : list string, p ∉ L → filter (fun p0 => c ∈ kids (JsMap.set e.1 p (kids e.1 p ++ [c])) p0) L
                         = filter (fun p0 => c ∈ kids e.1 p0) L) as Hsame.
      { intros L HL. apply filter_ext_elem. intros y Hy. rewrite Hkid. naive_solver. }
      rewrite !Hsame by done. cbn [length]. lia.
    + rewrite Hcount by done. do 3 f_equal. apply filter_ext_elem. intros y _.
      rewrite Hkid. naive_solver.
Qed.

Definition edge_step (byId : list (string * Transaction)) e tx :=
  foldl (add_edge byId (transactionIdString tx)) e (inputs tx).

Definition no_edges (K : list string) : list (string * list string) * list (string * Z) :=
  ((fun k => (k, [])) <$> K, (fun k => (k, 0)) <$> K).

Definition by_id (txs : list Transaction) : list (string * Transaction) :=
  JsMap.of_list ((fun tx => (transactionIdString tx, tx)) <$> txs).

Lemma buildDependencyGraph_eq txs :
  let e := foldl (edge_step (by_id txs)) (no_edges (JsMap.keys (by_id txs))) txs in
  buildDependencyGraph txs = mkGraph (by_id txs) e.1 e.2.
Proof.
  cbv zeta. unfold buildDependencyGraph. fold (by_id txs). unfold no_edges.
  rewrite (JsMap.foldl_set_new [] _ (fun _ => [])), (JsMap.foldl_set_new [] _ (fun _ => 0));
    [done| |done| |done]; apply JsMap.wf_of_list.
Qed.

Lemma by_id_keys txs id : id ∈ JsMap.keys (by_id txs) ↔ id ∈ ids_of txs.
Proof.
  unfold by_id. rewrite JsMap.elem_of_of_list_keys. unfold JsMap.keys, ids_of.
  by rewrite <-list_fmap_compose.
Qed.

Lemma get_const {V} (v : V) (K : list string) k :
  JsMap.get ((fun k => (k, v)) <$> K) k = if decide (k ∈ K) then Some v else None.
Proof.
  induction K as [|k' K IH]; [done|]. rewrite fmap_cons. cbn [JsMap.get]. rewrite IH.
  repeat case_decide; set_solver.
Qed.

Lemma no_edges_ok K : edges_ok K (no_edges K).
Proof.
  assert (∀ p, kids (no_edges K).1 p = []) as Hk.
  { intros p. unfold kids. cbn [fst no_edges]. rewrite get_const. by case_decide. }
  constructor.
  - unfold JsMap.keys. cbn [fst no_edges]. by rewrite <-list_fmap_compose, list_fmap_id.
  - unfold JsMap.keys. cbn [snd no_edges]. by rewrite <-list_fmap_compose, list_fmap_id.
  - intros p. rewrite Hk. constructor.
  - intros p c. rewrite Hk. by intros ?%elem_of_nil.
  - intros c Hc. cbn [snd no_edges]. rewrite get_const, decide_True by done. f_equal.
    rewrite (filter_ext_elem _ (fun _ => False)); [clear; by induction K|].
    intros p _. rewrite Hk. set_solver.
Qed.

Lemma built_edges_ok txs :
  edges_ok (JsMap.keys (by_id txs))
    (foldl (edge_step (by_id txs)) (no_edges (JsMap.keys (by_id txs))) txs).
Proof.
  apply (foldl_invariant (edges_ok _)); [apply no_edges_ok|]. intros e tx Htx He.
  apply (foldl_invariant (edges_ok _)); [done|]. intros e' i _. apply add_edge_ok; [apply JsMap.wf_of_list|].
  apply by_id_keys. by apply list_elem_of_fmap_2.
Qed.

Lemma buildDependencyGraph_wf txs : graph_wf (buildDependencyGraph txs).
Proof.
  rewrite buildDependencyGraph_eq. destruct (built_edges_ok txs) as [Ha Hd Hn Hi Hc].
  constructor; cbn [transactionsById adjacency inDegree graph_keys].
  - apply JsMap.wf_of_list.
  - intros id tx Hg. apply JsMap.get_of_list in Hg.
    by apply list_elem_of_fmap in Hg as (tx' & [= -> ->] & _).
  - exact Hd.
  - exact Hn.
  - exact Hi.
  - intros p c Hin. unfold graph_keys. cbn [transactionsById]. rewrite <-Ha.
    apply JsMap.elem_of_keys. unfold children in Hin. cbn [adjacency] in Hin.
    destruct (JsMap.get _ p); [by eexists|by apply elem_of_nil in Hin].
  - exact Hc.
Qed.

(** The edges are those the inputs name. *)
Lemma add_edge_kids byId c i e p x :
  JsMap.keys e.1 = JsMap.keys byId →
  x ∈ kids (add_edge byId c e i).1 p
  ↔ x ∈ kids e.1 p ∨ x = c ∧ names_parent (JsMap.keys byId) c i p.
Proof.
  intros Hk. destruct (add_edge_cases byId c i e Hk) as [[-> Hin]|(p' & Hp' & Hni & ->)].
  - split; [by left|]. intros [?|[-> ?]]; auto.
  - cbn [fst]. rewrite kids_set. destruct (decide (p' = p)) as [<-|Hne].
    + rewrite elem_of_app, list_elem_of_singleton. naive_solver.
    + split; [by left|]. intros [?|[-> Hp]]; [done|]. destruct Hp as [Hp _], Hp' as [Hp' _].
      congruence.
Qed.

Lemma inputs_kids byId c ins e p x :
  NoDup (JsMap.keys byId) → c ∈ JsMap.keys byId → edges_ok (JsMap.keys byId) e →
  x ∈ kids (foldl (add_edge byId c) e ins).1 p
  ↔ x ∈ kids e.1 p ∨ x = c ∧ ∃ i, i ∈ ins ∧ names_parent (JsMap.keys byId) c i p.
Proof.
  intros HK Hc. revert e. induction ins as [|i ins IH]; intros e He; cbn [foldl]; [set_solver|].
  rewrite IH by (by apply add_edge_ok). rewrite add_edge_kids by apply He. set_solver.
Qed.

Lemma built_kids_iff byId txs e p x :
  NoDup (JsMap.keys byId) → (∀ tx, tx ∈ txs → transactionIdString tx ∈ JsMap.keys byId) →
  edges_ok (JsMap.keys byId) e →
  x ∈ kids (foldl (edge_step byId) e txs).1 p
  ↔ x ∈ kids e.1 p ∨ ∃ tx i, tx ∈ txs ∧ transactionIdString tx = x ∧ i ∈ inputs tx ∧
      names_parent (JsMap.keys byId) x i p.
Proof.
  intros HK. revert e. induction txs as [|tx txs IH]; intros e Htx He; cbn [foldl]; [set_solver|].
  assert (transactionIdString tx ∈ JsMap.keys byId) as Hc by (apply Htx; left).
  rewrite IH; [|intros; apply Htx; by right|].
  - unfold edge_step. rewrite inputs_kids by done. set_solver.
  - apply (foldl_invariant (edges_ok _)); [done|]. intros e' i _. by apply add_edge_ok.
Qed.

(** [child] spends an output of [parent]. *)
Definition spends (child parent : Transaction) : Prop :=
  ∃ i, i ∈ inputs child ∧ originalTransactionId i ≠ [] ∧
    toHex (originalTransactionId i) = transactionIdString parent.

Lemma names_parent_spends K child parent :
  (∃ i, i ∈ inputs child ∧
     names_parent K (transactionIdString child) i (transactionIdString parent))
  ↔ spends child parent ∧ transactionIdString parent ≠ "" ∧
    transactionIdString parent ∈ K ∧ transactionIdString parent ≠ transactionIdString child.
Proof.
  unfold names_parent, spends, getInputTransactionId. split.
  - intros (i & Hi & Hg & Hne & HK & Hc). case_decide as Hl; [done|]. simplify_eq.
    split_and!; [|done..]. exists i. split_and!; [done| |done]. by intros Hn; rewrite Hn in Hl.
  - intros ((i & Hi & Hnil & Heq) & Hne & HK & Hc). exists i.
    rewrite decide_False by (by intros ?%nil_length_inv). by rewrite Heq.
Qed.

(** With distinct identifiers, the parents of a transaction in the graph are
    the other transactions whose outputs it spends. *)
Lemma parents_spends txs child parent :
  NoDup (ids_of txs) → child ∈ txs → parent ∈ txs →
  transactionIdString parent ∈ parents (buildDependencyGraph txs) (transactionIdString child)
  ↔ spends child parent ∧ transactionIdString parent ≠ "" ∧
    transactionIdString parent ≠ transactionIdString child.
Proof.
  intros Hnd Hc Hp. rewrite elem_of_parents by apply buildDependencyGraph_wf.
  rewrite buildDependencyGraph_eq. unfold children. cbn [adjacency]. fold (kids).
  change (default [] (JsMap.get ?a ?k)) with (kids a k).
  rewrite built_kids_iff; [|apply JsMap.wf_of_list|intros; apply by_id_keys; by apply list_elem_of_fmap_2
    |apply no_edges_ok].
  assert (transactionIdString parent ∈ JsMap.keys (by_id txs)) as HK
    by (apply by_id_keys; by apply list_elem_of_fmap_2).
  transitivity (∃ i, i ∈ inputs child ∧
    names_parent (JsMap.keys (by_id txs)) (transactionIdString child) i (transactionIdString parent));
    [|rewrite names_parent_spends; naive_solver].
  split.
  - intros [Hno|(tx & i & Htx & Hid & Hi & Hn)].
    + unfold kids in Hno. cbn [fst no_edges] in Hno. rewrite get_const in Hno.
      case_decide; by apply elem_of_nil in Hno.
    + assert (tx = child) as -> by (by apply (NoDup_fmap_inj transactionIdString txs)). eauto.
  - intros (i & Hi & Hn). right. eauto 10.
Qed.
End build.

(** ** Sorting *)

Section sorting.
Context `{BtcLib} `{PriorityQueue} `{!PriorityQueueLaws} (compare : bytes → bytes → Z).

Definition acyclic (g : DependencyGraph) : Prop := acyclic_deps (parents g).

(** Without cycles everything is emitted. *)
Lemma emitted_all g out :
  acyclic g → emitted g out → ∀ c, c ∈ graph_keys g → c ∈ ids_of out.
Proof.
  intros [rank Hrank] Hem c. induction c as [c IH] using (induction_ltof1 _ rank).
  intros Hc. apply (em_ready _ _ Hem). split; [done|].
  destruct (pending g (ids_of out) c) as [|p l] eqn:Hpend; [done|]. exfalso.
  assert (p ∈ pending g (ids_of out) c) as [Hp Hpc]%list_elem_of_filter by (rewrite Hpend; left).
  apply Hp, IH; [by apply Hrank|]. by apply list_elem_of_filter in Hpc as [_ ?].
Qed.

Lemma remaining_in_graph g out :
  graph_wf g → Forall (in_graph g) (remaining_txs g out).
Proof.
  intros Hwf. apply Forall_forall. intros tx Htx%list_elem_of_In.
  apply List.filter_In in Htx as [Htx _].
  apply list_elem_of_In, list_elem_of_fmap in Htx as ([id tx'] & -> & Hin). cbn [snd].
  unfold in_graph. apply JsMap.elem_of_get in Hin; [|by apply gw_nodup].
  by rewrite (gw_ids _ Hwf _ _ Hin).
Qed.

Lemma emitted_sub g out : emitted g out → ∀ c, c ∈ ids_of out → c ∈ graph_keys g.
Proof. intros Hem c Hc. by apply (em_ready _ _ Hem) in Hc as [? _]. Qed.

(** The sort returns: every identifier of the graph once, and in topological
    order when there is no cycle. *)
Lemma sortByFee_ok txs :
  let g := buildDependencyGraph txs in
  ∃ out, sortByFeeWithDependencies compare txs = Ok out ∧
    Forall (in_graph g) out ∧ ids_of out ≡ₚ graph_keys g ∧
    (acyclic g → topological g (ids_of out)).
Proof.
  intros g. pose proof (buildDependencyGraph_wf txs : graph_wf g) as Hwf.
  unfold sortByFeeWithDependencies, sortByFeeWithDependencies_stx. fold g.
  destruct (loop_inv_init compare g Hwf (mkCmp [] [])) as (s1 & q & He & Hs1 & Hinv); [done|].
  destruct (traverse_ok compare g Hwf (fuel_of g) (inDegree g) q [] s1)
    as (s2 & out & Ht & Hs2 & Hem); [done|constructor|done| |].
  { unfold fuel_of, graph_keys, JsMap.keys. rewrite length_fmap. cbn. lia. }
  unfold mbind, stx_bind. rewrite He, Ht. pose proof (emitted_sub _ _ Hem) as Hsub.
  pose proof (NoDup_submseteq _ _ (em_nodup _ _ Hem) Hsub) as Hss. case_decide as Hlen.
  - exists out. split_and!; [done|apply Hem| |intros _; apply Hem].
    apply submseteq_length_Permutation; [done|].
    unfold graph_keys, JsMap.keys, ids_of. rewrite !length_fmap. lia.
  - destruct (js_sort_perm _ _ _ (comparePriority_safe g Hwf compare) (remaining_txs g out) s2)
      as (s3 & l & Hl & _ & Hperm); [done| |].
    { by apply remaining_in_graph. }
    rewrite Hl. exists (out ++ l).
    assert (ids_of l ≡ₚ filter (.∉ ids_of out) (graph_keys g)) as Hids.
    { rewrite <-remaining_ids by done. unfold ids_of. by rewrite Hperm. }
    assert (ids_of (out ++ l) ≡ₚ graph_keys g) as Hall.
    { unfold ids_of. rewrite fmap_app. fold (ids_of out) (ids_of l). rewrite Hids.
      apply NoDup_Permutation; [|by apply gw_nodup|].
      - apply NoDup_app. split_and!; [apply Hem| |apply NoDup_filter, gw_nodup, Hwf].
        intros x Hx [Hn _]%list_elem_of_filter. done.
      - intros x. rewrite elem_of_app, list_elem_of_filter.
        destruct (decide (x ∈ ids_of out)); naive_solver. }
    split_and!; [done| |done|].
    + apply Forall_app. split; [apply Hem|]. rewrite Hperm. by apply remaining_in_graph.
    + intros Hac. exfalso. apply Hlen. pose proof (emitted_all g out Hac Hem) as Hfull.
      apply NoDup_submseteq, submseteq_length in Hfull; [|by apply gw_nodup].
      apply submseteq_length in Hss. unfold graph_keys, JsMap.keys, ids_of in Hss, Hfull.
      rewrite !length_fmap in Hss, Hfull. lia.
Qed.

(** ** The block order *)

Definition nonRewards (txs : list Transaction) : list Transaction :=
  filter (fun t => is_reward t = false) txs.

Lemma partition_spec txs :
  partitionByRewardStatus txs = (filter (fun t => is_reward t = true) txs, nonRewards txs).
Proof.
  unfold partitionByRewardStatus, nonRewards. f_equal.
  - induction txs as [|t txs IH]; [done|]. rewrite filter_cons. cbn [List.filter].
    rewrite IH. destruct (is_reward t) eqn:Hr; [by rewrite decide_True|by rewrite decide_False].
  - induction txs as [|t txs IH]; [done|]. rewrite filter_cons. cbn [List.filter]. rewrite IH.
    assert (forallb (fun i => negb (length (originalTransactionId i) =? 0)%nat) (inputs t)
            = negb (is_reward t)) as ->.
    { unfold is_reward. induction (inputs t) as [|i l IHl]; [done|]. cbn. rewrite IHl.
      by rewrite negb_orb. }
    destruct (is_reward t) eqn:Hr; [by rewrite decide_False|by rewrite decide_True].
Qed.

Lemma partition_length txs :
  length txs = (length (filter (fun t => is_reward t = true) txs) + length (nonRewards txs))%nat.
Proof.
  unfold nonRewards. induction txs as [|t txs IH]; [done|]. rewrite !filter_cons.
  destruct (is_reward t); repeat case_decide; try done; cbn [length]; lia.
Qed.

(** [sortTransactions] as a function of what [sortByFeeWithDependencies] returns. *)
Lemma sortTransactions_eq txs rest :
  sortByFeeWithDependencies compare (nonRewards txs) = Ok rest →
  let n := (length (filter (fun t => is_reward t = true) txs) + length rest)%nat in
  sortTransactions compare txs
  = if decide (length rest = length (nonRewards txs))
    then Ok (imap set_index (filter (fun t => is_reward t = true) txs ++ rest))
    else Throw (CountChanged (length txs) n).
Proof.
  intros Hs n. unfold sortTransactions. rewrite partition_spec. cbn [fst snd].
  rewrite Hs. cbn [mbind result_bind]. rewrite length_imap, length_app. fold n.
  pose proof (partition_length txs). subst n. do 2 case_decide; try done; lia.
Qed.

Lemma by_id_distinct txs : NoDup (ids_of txs) → by_id txs = (fun tx => (transactionIdString tx, tx)) <$> txs.
Proof.
  intros Hnd. apply JsMap.of_list_id. unfold JsMap.keys. by rewrite <-list_fmap_compose.
Qed.

Lemma sortByFee_perm txs out :
  NoDup (ids_of txs) → Forall (in_graph (buildDependencyGraph txs)) out →
  ids_of out ≡ₚ graph_keys (buildDependencyGraph txs) → out ≡ₚ txs.
Proof.
  intros Hnd Hg Hp. set (g := buildDependencyGraph txs) in *.
  assert (transactionsById g = (fun tx => (transactionIdString tx, tx)) <$> txs) as Hbid.
  { unfold g. rewrite buildDependencyGraph_eq. by apply by_id_distinct. }
  assert (graph_keys g = ids_of txs) as Hk.
  { unfold graph_keys, JsMap.keys. rewrite Hbid. by rewrite <-list_fmap_compose. }
  apply (in_graph_ids_perm g); [done| |by rewrite Hp, Hk|by rewrite Hp, Hk].
  apply Forall_forall. intros tx Htx. unfold in_graph. apply JsMap.elem_of_get.
  - apply (gw_nodup _ (buildDependencyGraph_wf txs)).
  - rewrite Hbid. apply list_elem_of_fmap. by exists tx.
Qed.

(** With distinct identifiers, [sortTransactions] returns: the rewards in
    their order, then every other transaction once, each with its position as
    [index]; no comparison throws and no loop runs out of fuel, whatever the
    dependencies (cycles included) and the fees. *)
Theorem sortTransactions_permutation txs :
  NoDup (ids_of (nonRewards txs)) →
  ∃ rest, sortTransactions compare txs
    = Ok (imap set_index (filter (fun t => is_reward t = true) txs ++ rest)) ∧
    rest ≡ₚ nonRewards txs.
Proof.
  intros Hnd. destruct (sortByFee_ok (nonRewards txs)) as (rest & Hs & Hg & Hp & _).
  exists rest. pose proof (sortByFee_perm _ _ Hnd Hg Hp) as Hperm.
  by rewrite (sortTransactions_eq _ _ Hs), decide_True by (by rewrite Hperm).
Qed.

(** A block that holds an identifier twice is refused: the graph keeps one
    transaction per identifier, and the count check throws. *)
Theorem sortTransactions_duplicate txs :
  (NoDup (ids_of (nonRewards txs)) → False) →
  ∃ n, (n < length txs)%nat ∧ sortTransactions compare txs = Throw (CountChanged (length txs) n).
Proof.
  intros Hdup. destruct (sortByFee_ok (nonRewards txs)) as (rest & Hs & Hg & Hp & _).
  pose proof (buildDependencyGraph_wf (nonRewards txs)) as Hwf.
  assert (graph_keys (buildDependencyGraph (nonRewards txs)) ⊆ ids_of (nonRewards txs)) as Hsub.
  { intros id. rewrite buildDependencyGraph_eq. apply by_id_keys. }
  pose proof (NoDup_submseteq _ _ (gw_nodup _ Hwf) Hsub) as Hss.
  assert (length rest < length (nonRewards txs))%nat as Hlt.
  { destruct (decide (length (nonRewards txs) ≤ length rest)%nat) as [Hle|]; [exfalso|lia].
    apply Hdup. rewrite <-(submseteq_length_Permutation _ _ Hss); [by apply gw_nodup|].
    rewrite <-Hp. unfold ids_of. by rewrite !length_fmap. }
  rewrite (sortTransactions_eq _ _ Hs), decide_False by lia.
  eexists. split; [|done]. pose proof (partition_length txs). lia.
Qed.

(** No transaction spends, directly or not, its own outputs. *)
Definition acyclic_spending (txs : list Transaction) : Prop :=
  ∃ rank : string → nat, ∀ child parent, child ∈ txs → parent ∈ txs → spends child parent →
    transactionIdString parent ≠ transactionIdString child →
    (rank (transactionIdString parent) < rank (transactionIdString child))%nat.

Lemma acyclic_spending_graph txs :
  NoDup (ids_of txs) → acyclic_spending txs → acyclic (buildDependencyGraph txs).
Proof.
  intros Hnd [rank Hrank]. exists rank. intros c p Hpc.
  assert (∀ id, id ∈ graph_keys (buildDependencyGraph txs) →
    ∃ tx, tx ∈ txs ∧ id = transactionIdString tx) as Hk.
  { intros id. rewrite buildDependencyGraph_eq.
    intros (tx & -> & Htx)%by_id_keys%list_elem_of_fmap. eauto. }
  pose proof (buildDependencyGraph_wf txs) as Hwf.
  destruct (Hk p) as (parent & Hp & ->); [by apply list_elem_of_filter in Hpc as [_ ?]|].
  destruct (Hk c) as (child & Hc & ->).
  { apply elem_of_parents in Hpc; [|done]. by eapply gw_children_in. }
  apply parents_spends in Hpc as (Hsp & _ & Hne); [|done..]. by apply Hrank.
Qed.

(** C36: Parents come before their children: when no transaction depends on
    itself, the position of every transaction of the sorted block that is not
    a reward is after that of each transaction of the block it spends. *)
Theorem sortTransactions_parents_first txs out i j child parent :
  NoDup (ids_of txs) → acyclic_spending txs → sortTransactions compare txs = Ok out →
  out !! i = Some child → out !! j = Some parent →
  is_reward child = false → spends child parent →
  transactionIdString parent ≠ "" → transactionIdString parent ≠ transactionIdString child →
  (j < i)%nat ∧ index parent = j ∧ index child = i.
Proof.
  intros Hnd Hac Hsort Hi Hj Hrew Hsp Hne0 Hne.
  set (rewards := filter (fun t => is_reward t = true) txs).
  assert (∀ t, t ∈ nonRewards txs → t ∈ txs) as Hsub
    by (intros t Ht; by apply list_elem_of_filter in Ht as [_ ?]).
  assert (NoDup (ids_of (nonRewards txs))) as Hnd'.
  { eapply sublist_NoDup; [exact Hnd|]. apply fmap_sublist, sublist_filter. }
  destruct (sortByFee_ok (nonRewards txs)) as (rest & Hs & Hg & Hp & Htopo).
  pose proof (sortByFee_perm _ _ Hnd' Hg Hp) as Hperm.
  rewrite (sortTransactions_eq _ _ Hs), decide_True in Hsort by (by rewrite Hperm).
  injection Hsort as <-. rewrite list_lookup_imap in Hi, Hj. fold rewards in Hi, Hj.
  apply fmap_Some in Hi as (c & Hi & ->), Hj as (p & Hj & ->). cbn [index set_index].
  split_and!; [|done..].
  assert (acyclic_spending (nonRewards txs)) as Hac'.
  { destruct Hac as [rank Hrank]. exists rank. intros x y Hx Hy. apply Hrank; auto. }
  specialize (Htopo (acyclic_spending_graph _ Hnd' Hac')).
  assert (length rewards ≤ i)%nat as Hir.
  { destruct (decide (i < length rewards)%nat) as [Hlt|]; [|lia]. exfalso.
    rewrite lookup_app_l in Hi by done. apply list_elem_of_lookup_2, list_elem_of_filter in Hi.
    destruct Hi as [Hi _]. change (is_reward (set_index i c)) with (is_reward c) in Hrew. congruence. }
  destruct (decide (j < length rewards)%nat); [lia|].
  rewrite lookup_app_r in Hi, Hj by lia.
  assert (transactionIdString p ∈ parents (buildDependencyGraph (nonRewards txs))
    (transactionIdString c)) as Hpar.
  { apply list_elem_of_lookup_2 in Hi as Hci. apply list_elem_of_lookup_2 in Hj as Hpj.
    rewrite Hperm in Hci, Hpj. by apply parents_spends. }
  apply list_elem_of_split_length in Hi as (l1 & l2 & Heq & Hlen).
  assert (transactionIdString p ∈ ids_of l1) as Hin.
  { eapply Htopo; [|exact Hpar]. unfold ids_of. by rewrite Heq, fmap_app. }
  apply list_elem_of_fmap in Hin as (p' & Hpp & [k Hk]%list_elem_of_lookup).
  assert (rest !! k = Some p') as Hk' by (rewrite Heq; by apply lookup_app_l_Some).
  assert (NoDup (ids_of rest)) as Hndr by (unfold ids_of; by rewrite Hperm).
  assert (k = j - length rewards)%nat as ->.
  { eapply NoDup_lookup; [exact Hndr| |]; unfold ids_of; rewrite list_lookup_fmap;
      [by rewrite Hk'|by rewrite Hj; cbn; f_equal]. }
  apply lookup_lt_Some in Hk. lia.
Qed.

(** ** Reordering by a list of identifiers *)

Lemma order_loop_spec ids txs acc :
  match order_loop ids txs acc with
  | Ok out => ∃ found, out = acc ++ found ∧ ids_of found = ids ∧ Forall (.∈ txs) found
  | Throw (TransactionNotFound id) => id ∈ ids ∧ id ∉ ids_of txs
  | Throw _ => False
  end.
Proof.
  revert acc. induction ids as [|id ids IH]; intros acc; cbn [order_loop].
  { exists []. by rewrite app_nil_r. }
  destruct (list_find _ txs) as [[k tx]|] eqn:Hf.
  - apply list_find_Some in Hf as (Hk & Hid & _). specialize (IH (acc ++ [tx])).
    destruct (order_loop ids txs (acc ++ [tx])) as [out|[| id'|]]; [|done| |done].
    + destruct IH as (found & -> & <- & Hall). exists (tx :: found). split_and!.
      * by rewrite <-app_assoc.
      * unfold ids_of. rewrite fmap_cons. by f_equal.
      * constructor; [by eapply list_elem_of_lookup_2|done].
    + destruct IH. split; [by right|done].
  - apply list_find_None in Hf. rewrite Forall_forall in Hf. split; [left|].
    intros (tx & -> & Htx)%list_elem_of_fmap. by eapply Hf.
Qed.

(** [sortTransactionsByOrder] puts the transactions in the order of the
    identifiers, and throws when the counts differ or an identifier has no
    transaction. *)
Theorem sortTransactionsByOrder_spec ids txs :
  match sortTransactionsByOrder ids txs with
  | Ok out => ids_of out = ids ∧ Forall (.∈ txs) out ∧ length out = length txs ∧
      (NoDup ids → out ≡ₚ txs)
  | Throw (CountChanged n m) => n = length txs ∧ m = length ids ∧ n ≠ m
  | Throw (TransactionNotFound id) => length ids = length txs ∧ id ∈ ids ∧ id ∉ ids_of txs
  | Throw OutOfFuel => False
  end.
Proof.
  unfold sortTransactionsByOrder. case_decide as Hlen; [|done].
  pose proof (order_loop_spec ids txs []) as Hl.
  destruct (order_loop ids txs []) as [out|[| id'|]]; [|done|naive_solver|done].
  destruct Hl as (found & -> & <- & Hall). cbn [app]. unfold ids_of in Hlen |- *.
  rewrite length_fmap in Hlen. split_and!; [done..|]. intros Hnd%NoDup_fmap_1.
  apply submseteq_length_Permutation; [|lia]. apply NoDup_submseteq; [done|].
  rewrite Forall_forall in Hall. exact Hall.
Qed.

(** Round trip: the identifiers of a sorted block, applied to the block in
    any other order, give the sorted block back. *)
Theorem sortTransactionsByOrder_roundtrip txs shuffled :
  NoDup (ids_of txs) → shuffled ≡ₚ txs → sortTransactionsByOrder (ids_of txs) shuffled = Ok txs.
Proof.
  intros Hnd Hp. pose proof (sortTransactionsByOrder_spec (ids_of txs) shuffled) as Hs.
  destruct (sortTransactionsByOrder _ _) as [out|[n m|id|]].
  - f_equal. destruct Hs as (Hids & Hall0 & _).
    assert (Forall (.∈ txs) out) as Hall
      by (eapply Forall_impl; [exact Hall0|]; intros x; cbn beta; by rewrite Hp).
    clear Hall0.
    clear Hp. revert txs Hnd Hids Hall.
    assert (∀ l1 l2 txs, NoDup (ids_of txs) → Forall (.∈ txs) l1 → Forall (.∈ txs) l2 →
      ids_of l1 = ids_of l2 → l1 = l2) as Hgen.
    { intros l1 l2 txs Hnd Hl1 Hl2 Heq. revert l2 Hl2 Heq.
      induction Hl1 as [|x l1 Hx Hl1 IH]; intros [|y l2] Hl2 [=]; [done|].
      apply Forall_cons in Hl2 as [Hy Hl2]. f_equal; [|by apply IH].
      by apply (NoDup_fmap_inj transactionIdString txs). }
    intros txs Hnd Hids Hall. eapply Hgen; [exact Hnd|exact Hall| |exact Hids].
    by apply Forall_forall.
  - destruct Hs as (-> & -> & Hne). rewrite Hp in Hne. unfold ids_of in Hne.
    by rewrite length_fmap in Hne.
  - destruct Hs as (_ & Hin & Hni). unfold ids_of in Hni. by rewrite Hp in Hni.
  - done.
Qed.
End sorting.

(** ** A queue, for the evaluation of examples

    An unordered list whose [dequeue] extracts a least element. *)

Fixpoint extract_min {A S E} (cmp : A → A → stx S E Z) (x : A) (l : list A)
  : stx S E (A * list A) :=
  match l with
  | [] => mret (x, [])
  | y :: l' =>
      c ← cmp x y;
      if decide (c ≤ 0) then r ← extract_min cmp x l'; mret (r.1, y :: r.2)
      else r ← extract_min cmp y l'; mret (r.1, x :: r.2)
  end.

#[export] Instance list_queue : PriorityQueue := {|
  pq := list;
  pq_new := fun A => [];
  pq_isEmpty := fun A q => match q with [] => true | _ => false end;
  pq_enqueue := fun A S E cmp a q => mret (a :: q);
  pq_dequeue := fun A S E cmp q =>
    match q with
    | [] => mret (None, [])
    | x :: l => r ← extract_min cmp x l; mret (Some r.1, r.2)
    end;
  pq_elems := fun A q => q
|}.

Lemma extract_min_spec {A S E} (I : S → Prop) (P : A → Prop) (cmp : A → A → stx S E Z) x l s :
  cmp_safe I P cmp → I s → P x → Forall P l →
  ∃ s' r, extract_min cmp x l s = (s', Ok r) ∧ I s' ∧ x :: l ≡ₚ r.1 :: r.2.
Proof.
  intros Hcmp Hs Hx Hl. revert x s Hs Hx. induction Hl as [|y l Hy Hl IH]; intros x s Hs Hx.
  { by eexists _, _. }
  destruct (Hcmp x y s) as (s1 & z & Hz & Hs1); [done..|].
  cbn [extract_min]. unfold mbind, stx_bind. rewrite Hz. case_decide.
  - destruct (IH x s1) as (s2 & r & -> & Hs2 & Hp); [done..|].
    eexists _, _. split; [done|]. split; [done|]. cbn [fst snd].
    transitivity (y :: x :: l); [constructor|]. rewrite Hp. constructor.
  - destruct (IH y s1) as (s2 & r & -> & Hs2 & Hp); [done..|].
    eexists _, _. split; [done|]. split; [done|]. cbn [fst snd].
    rewrite Hp. constructor.
Qed.

#[export] Instance list_queue_laws : PriorityQueueLaws.
Proof.
  constructor.
  - done.
  - by intros A [].
  - intros A S E I P cmp a q s _ Hs _ _. by eexists _, _.
  - intros A S E I P cmp [|x l] s Hcmp Hs Hall Hne; [done|].
    apply Forall_cons in Hall as [Hx Hl].
    destruct (extract_min_spec I P cmp x l s) as (s' & r & He & Hs' & Hp); [done..|].
    cbn [pq_dequeue list_queue]. unfold mbind, stx_bind. rewrite He. by eexists _, _, _.
Qed.

(** ** A concrete block *)

Definition compare_bytes (a b : bytes) : Z :=
  match a, b with x :: _, y :: _ => x - y | _, _ => 0 end.

(** A coinbase, a parent "a" of low fee, its child "b" of high fee, "c". *)
Definition block_coinbase : Transaction := mkTx "cb" [9] [{| originalTransactionId := [] |}] JOther 7 Generic.
Definition block_a : Transaction := mkTx "a" [1] [{| originalTransactionId := [0] |}] (JBigInt 1) 7 Generic.
Definition block_b : Transaction := mkTx "b" [2] [{| originalTransactionId := [97] |}] (JBigInt 100) 7 Generic.
Definition block_c : Transaction := mkTx "c" [3] [{| originalTransactionId := [0] |}] (JBigInt 50) 7 Generic.
Definition example_block : list Transaction := [block_c; block_b; block_coinbase; block_a].

Definition example_sorted : list Transaction :=
  [set_index 0 block_coinbase; set_index 1 block_a; set_index 2 block_b; set_index 3 block_c].

(** The parent of the best transaction is pulled before a better one. *)
Lemma example_block_sorted :
  sortTransactions (H := string_btclib) compare_bytes example_block = Ok example_sorted.
Proof. vm_compute. reflexivity. Qed.

Lemma sortTransactions_permutation_witness :
  NoDup (ids_of (nonRewards example_block)) ∧
  ∃ rest, sortTransactions (H := string_btclib) compare_bytes example_block
    = Ok (imap set_index (filter (fun t => is_reward t = true) example_block ++ rest)) ∧
    rest ≡ₚ nonRewards example_block.
Proof.
  assert (NoDup (ids_of (nonRewards example_block))) as Hnd by (vm_compute; repeat constructor; set_solver).
  split; [exact Hnd|].
  exact (sortTransactions_permutation (H := string_btclib) compare_bytes example_block Hnd).
Defined.

Lemma sortTransactions_duplicate_witness :
  (NoDup (ids_of (nonRewards [block_a; block_a])) → False) ∧
  ∃ n, (n < 2)%nat ∧ sortTransactions (H := string_btclib) compare_bytes [block_a; block_a]
    = Throw (CountChanged 2 n).
Proof.
  assert (NoDup (ids_of (nonRewards [block_a; block_a])) → False) as Hdup.
  { vm_compute. intros [Hni _]%NoDup_cons. apply Hni. left. }
  split; [exact Hdup|].
  exact (sortTransactions_duplicate (H := string_btclib) compare_bytes [block_a; block_a] Hdup).
Defined.

Lemma sortTransactions_parents_first_witness :
  is_reward block_b = false ∧
  ∃ i j, example_sorted !! i = Some (set_index 2 block_b) ∧
    example_sorted !! j = Some (set_index 1 block_a) ∧ (j < i)%nat.
Proof.
  split; [reflexivity|]. exists 2%nat, 1%nat. split; [reflexivity|]. split; [reflexivity|].
  refine (proj1 (sortTransactions_parents_first (H := string_btclib) compare_bytes example_block
    example_sorted 2 1 (set_index 2 block_b) (set_index 1 block_a) _ _
    example_block_sorted eq_refl eq_refl eq_refl _ _ _)).
  - vm_compute. repeat constructor; set_solver.
  - exists (fun id => if decide (id = "b") then 1%nat else 0%nat).
    intros child parent Hc Hp (i & Hi & _ & Heq) Hne. revert Heq Hne.
    apply list_elem_of_In in Hc, Hp, Hi.
    repeat destruct Hc as [<-|Hc]; try destruct Hc; repeat destruct Hi as [<-|Hi]; try destruct Hi;
      repeat destruct Hp as [<-|Hp]; try destruct Hp; vm_compute; try done; lia.
  - exists {| originalTransactionId := [97] |}. split; [left|]. split; [done|reflexivity].
  - done.
  - done.
Defined.

Lemma sortTransactionsByOrder_roundtrip_witness :
  NoDup (ids_of example_sorted) ∧ rev example_sorted ≡ₚ example_sorted ∧
  sortTransactionsByOrder (ids_of example_sorted) (rev example_sorted) = Ok example_sorted.
Proof.
  assert (NoDup (ids_of example_sorted)) as Hnd by (vm_compute; repeat constructor; set_solver).
  assert (rev example_sorted ≡ₚ example_sorted) as Hp by (symmetry; apply Permutation_rev).
  split; [exact Hnd|]. split; [exact Hp|].
  exact (sortTransactionsByOrder_roundtrip example_sorted (rev example_sorted) Hnd Hp).
Defined.
