(* ===== verification/PluginData.v ===== *)
(** * The data of a plugin
    (plugins/interfaces/IPluginMetadata.ts, IPluginPermissions.ts, IPluginFile.ts)

    The metadata a plugin declares, the permissions it asks for, and the parts of
    its file.  Optional properties are options, [number]s are integers, and the
    untyped parts (index options, configuration defaults) are property trees. *)

From S2P Require Import Prelude.

(** A JavaScript value as a property tree; numbers are integers. *)
Inductive js_prop : Type :=
| PUndefined
| PBool (b : bool)
| PNumber (z : Z)
| PString (s : string)
| PArray (items : list js_prop)
| PObject (fields : list (string * js_prop)).

(** ** Metadata *)

Record IPluginAuthor : Type := {
  author_name : string;
  author_email : option string;
  author_url : option string
}.

Record IPluginRepository : Type := { repository_type : string; repository_url : string }.

Inductive signature_algorithm : Type := SIG_MLDSA44 | SIG_MLDSA65 | SIG_MLDSA87.

Record IPluginSignature : Type := {
  algorithm : signature_algorithm;
  publicKeyHash : string
}.

Inductive cpu_priority : Type := priority_low | priority_normal | priority_high.

Record memory_limits : Type := {
  maxHeapMB : option Z;
  maxOldGenMB : option Z;
  maxYoungGenMB : option Z
}.
Record cpu_limits : Type := {
  maxThreads : option Z;
  cpuPriority : option cpu_priority
}.
Record timeout_limits : Type := {
  initMs : option Z;
  hookMs : option Z;
  shutdownMs : option Z
}.

Record IPluginResources : Type := {
  memory : option memory_limits;
  cpu : option cpu_limits;
  timeout : option timeout_limits
}.

Record IPluginLifecycle : Type := {
  loadPriority : option Z;
  enabledByDefault : option bool;
  requiresRestart : option bool
}.

Record IPluginHooksConfig : Type := {
  onLoad : option string;
  onUnload : option string;
  onEnable : option string;
  onDisable : option string
}.

Inductive config_type : Type := CString | CNumber | CBoolean | CObject | CArray.

Record config_entry : Type := {
  entry_type : config_type;
  entry_required : option bool;
  entry_default : option js_prop
}.

Record IPluginConfigSchema : Type := { schema : option (list (string * config_entry)) }.

(** ** Permissions *)

Inductive index_direction : Type :=
| index_asc | index_desc | index_text | index_2dsphere | index_2d | index_hashed.

Record IIndexDefinition : Type := {
  index_keys : list (string * index_direction);
  index_options : option (list (string * js_prop))
}.

Record IDatabasePermissions : Type := {
  db_enabled : bool;
  collections : list string;
  indexes : option (list (string * list IIndexDefinition))
}.

Record IBlockPermissions : Type := {
  preProcess : bool;
  postProcess : bool;
  block_onChange : bool
}.

Record IEpochPermissions : Type := { epoch_onChange : bool; onFinalized : bool }.

Record IMempoolPermissions : Type := { txFeed : bool; txSubmit : bool }.

Inductive http_method : Type := GET | POST | PUT | DELETE | PATCH.

Record IPluginRouteDefinition : Type := {
  route_path : string;
  route_method : http_method;
  route_handler : string;
  rateLimit : option Z
}.

Record IPluginWebSocketHandler : Type := {
  opcode : string;
  requestTypeName : string;
  responseTypeName : string;
  handlerName : string;
  pushTypeName : option string
}.

Record IWebSocketPermissions : Type := {
  protoFile : option string;
  namespace : option string;
  ws_handlers : option (list IPluginWebSocketHandler)
}.

Record IApiPermissions : Type := {
  addEndpoints : bool;
  addWebsocket : bool;
  basePath : option string;
  routes : option (list IPluginRouteDefinition);
  websocket : option IWebSocketPermissions
}.

Record IThreadingPermissions : Type := { maxWorkers : Z; maxMemoryMB : Z }.

Record IFilesystemPermissions : Type := { configDir : bool; tempDir : bool }.

Record IBlockchainPermissions : Type := {
  allow_blocks : bool;
  allow_transactions : bool;
  allow_contracts : bool;
  allow_utxos : bool
}.

Record IPluginPermissions : Type := {
  database : option IDatabasePermissions;
  blocks : option IBlockPermissions;
  epochs : option IEpochPermissions;
  mempool : option IMempoolPermissions;
  api : option IApiPermissions;
  threading : option IThreadingPermissions;
  filesystem : option IFilesystemPermissions;
  blockchain : option IBlockchainPermissions
}.

Inductive PluginType : Type := standalone | library.

(** [target] and [type] have one value each ('bytenode', 'plugin'). *)
Record IPluginMetadata : Type := {
  name : string;
  version : string;
  opnetVersion : string;
  main : string;
  checksum_decl : string;
  author : IPluginAuthor;
  contributors : option (list IPluginAuthor);
  repository : option IPluginRepository;
  homepage : option string;
  bugs_url : option string;
  license : option string;
  is_private : option bool;
  description : option string;
  keywords : option (list string);
  dependencies_decl : option (list (string * string));
  optionalDependencies : option (list (string * string));
  peerDependencies : option (list (string * string));
  signature_decl : option IPluginSignature;
  pluginType : PluginType;
  permissions : option IPluginPermissions;
  resources : option IPluginResources;
  lifecycle : option IPluginLifecycle;
  hooks : option IPluginHooksConfig;
  config : option IPluginConfigSchema
}.

Definition DEFAULT_LIFECYCLE : IPluginLifecycle := {|
  loadPriority := Some 100;
  enabledByDefault := Some true;
  requiresRestart := Some false
|}.

Definition DEFAULT_RESOURCES : IPluginResources := {|
  memory := Some {| maxHeapMB := Some 256; maxOldGenMB := Some 128; maxYoungGenMB := Some 64 |};
  cpu := Some {| maxThreads := Some 2; cpuPriority := Some priority_normal |};
  timeout := Some {| initMs := Some 30000; hookMs := Some 5000; shutdownMs := Some 10000 |}
|}.

Definition DEFAULT_PERMISSIONS : IPluginPermissions := {|
  database := Some {| db_enabled := false; collections := []; indexes := None |};
  blocks := Some {| preProcess := false; postProcess := false; block_onChange := false |};
  epochs := Some {| epoch_onChange := false; onFinalized := false |};
  mempool := Some {| txFeed := false; txSubmit := false |};
  api := Some {| addEndpoints := false; addWebsocket := false; basePath := None; routes := None;
                 websocket := None |};
  threading := Some {| maxWorkers := 1; maxMemoryMB := 256 |};
  filesystem := Some {| configDir := false; tempDir := false |};
  blockchain := Some {| allow_blocks := false; allow_transactions := false;
                        allow_contracts := false; allow_utxos := false |}
|}.

(** ** The permissions as a property tree

    [getWithPermission] walks the object by the names of its properties. *)

Definition prop_opt {A} (f : A → js_prop) (o : option A) : js_prop :=
  match o with Some a => f a | None => PUndefined end.

Definition index_direction_prop (d : index_direction) : js_prop :=
  match d with
  | index_asc => PNumber 1 | index_desc => PNumber (-1) | index_text => PString "text"
  | index_2dsphere => PString "2dsphere" | index_2d => PString "2d" | index_hashed => PString "hashed"
  end.

Definition index_prop (d : IIndexDefinition) : js_prop :=
  PObject [("keys", PObject ((fun kv => (kv.1, index_direction_prop kv.2)) <$> index_keys d));
           ("options", prop_opt PObject (index_options d))].

Definition database_prop (d : IDatabasePermissions) : js_prop :=
  PObject [("enabled", PBool (db_enabled d)); ("collections", PArray (PString <$> collections d));
           ("indexes", prop_opt (fun l => PObject ((fun kv =>
             (kv.1, PArray (index_prop <$> kv.2))) <$> l)) (indexes d))].

Definition http_method_prop (m : http_method) : js_prop :=
  PString (match m with GET => "GET" | POST => "POST" | PUT => "PUT" | DELETE => "DELETE"
           | PATCH => "PATCH" end).

Definition route_prop (r : IPluginRouteDefinition) : js_prop :=
  PObject [("path", PString (route_path r)); ("method", http_method_prop (route_method r));
           ("handler", PString (route_handler r)); ("rateLimit", prop_opt PNumber (rateLimit r))].

Definition ws_handler_prop (h : IPluginWebSocketHandler) : js_prop :=
  PObject [("opcode", PString (opcode h)); ("requestType", PString (requestTypeName h));
           ("responseType", PString (responseTypeName h)); ("handler", PString (handlerName h));
           ("pushType", prop_opt PString (pushTypeName h))].

Definition websocket_prop (w : IWebSocketPermissions) : js_prop :=
  PObject [("protoFile", prop_opt PString (protoFile w)); ("namespace", prop_opt PString (namespace w));
           ("handlers", prop_opt (fun l => PArray (ws_handler_prop <$> l)) (ws_handlers w))].

Definition api_prop (a : IApiPermissions) : js_prop :=
  PObject [("addEndpoints", PBool (addEndpoints a)); ("addWebsocket", PBool (addWebsocket a));
           ("basePath", prop_opt PString (basePath a));
           ("routes", prop_opt (fun l => PArray (route_prop <$> l)) (routes a));
           ("websocket", prop_opt websocket_prop (websocket a))].

Definition permissions_prop (p : IPluginPermissions) : js_prop :=
  PObject [
    ("database", prop_opt database_prop (database p));
    ("blocks", prop_opt (fun b => PObject [("preProcess", PBool (preProcess b));
       ("postProcess", PBool (postProcess b)); ("onChange", PBool (block_onChange b))]) (blocks p));
    ("epochs", prop_opt (fun e => PObject [("onChange", PBool (epoch_onChange e));
       ("onFinalized", PBool (onFinalized e))]) (epochs p));
    ("mempool", prop_opt (fun m => PObject [("txFeed", PBool (txFeed m));
       ("txSubmit", PBool (txSubmit m))]) (mempool p));
    ("api", prop_opt api_prop (api p));
    ("threading", prop_opt (fun t => PObject [("maxWorkers", PNumber (maxWorkers t));
       ("maxMemoryMB", PNumber (maxMemoryMB t))]) (threading p));
    ("filesystem", prop_opt (fun f => PObject [("configDir", PBool (configDir f));
       ("tempDir", PBool (tempDir f))]) (filesystem p));
    ("blockchain", prop_opt (fun b => PObject [("blocks", PBool (allow_blocks b));
       ("transactions", PBool (allow_transactions b)); ("contracts", PBool (allow_contracts b));
       ("utxos", PBool (allow_utxos b))]) (blockchain p))].

(** ** The file *)

(** [new TextEncoder().encode('OPNETPLG')] *)
Definition PLUGIN_MAGIC_BYTES : bytes := [79; 80; 78; 69; 84; 80; 76; 71].

Definition PLUGIN_FORMAT_VERSION : Z := 1.

Inductive MLDSALevel : Type := MLDSA44 | MLDSA65 | MLDSA87.

(** The numbers of the enum, and [mldsaLevel in MLDSALevel]. *)
Definition MLDSALevel_value (l : MLDSALevel) : Z :=
  match l with MLDSA44 => 0 | MLDSA65 => 1 | MLDSA87 => 2 end.

Definition MLDSALevel_of (b : Z) : option MLDSALevel :=
  if decide (b = 0) then Some MLDSA44 else if decide (b = 1) then Some MLDSA65
  else if decide (b = 2) then Some MLDSA87 else None.

Definition MLDSA_PUBLIC_KEY_SIZES (l : MLDSALevel) : Z :=
  match l with MLDSA44 => 1312 | MLDSA65 => 1952 | MLDSA87 => 2592 end.

Definition MLDSA_SIGNATURE_SIZES (l : MLDSALevel) : Z :=
  match l with MLDSA44 => 2420 | MLDSA65 => 3309 | MLDSA87 => 4627 end.

Record IParsedPluginFile : Type := mkFile {
  formatVersion : Z;
  mldsaLevel : MLDSALevel;
  publicKey : bytes;
  signature : bytes;
  file_metadata : IPluginMetadata;
  rawMetadata : string;
  bytecode : bytes;
  proto : option bytes;
  checksum : bytes
}.

Record IPluginFileHeader : Type := mkFileHeader {
  magic : bytes;
  header_version : Z;
  header_level : MLDSALevel;
  header_publicKey : bytes;
  header_signature : bytes
}.

Definition calculateHeaderSize (level : MLDSALevel) : Z :=
  8 + 4 + 1 + MLDSA_PUBLIC_KEY_SIZES level + MLDSA_SIGNATURE_SIZES level.

Definition MIN_PLUGIN_FILE_SIZE : Z :=
  8 + 4 + 1 + MLDSA_PUBLIC_KEY_SIZES MLDSA44 + MLDSA_SIGNATURE_SIZES MLDSA44
  + 4 + 2 + 4 + 1 + 4 + 32.

Definition MAX_METADATA_SIZE : Z := 1024 * 1024.
Definition MAX_BYTECODE_SIZE : Z := 100 * 1024 * 1024.
Definition MAX_PROTO_SIZE : Z := 1024 * 1024.
