(* ===== verification/PluginLoader.v ===== *)
(** * Reading plugin files (plugins/loader/PluginLoader.ts)

    The parser of [.opnet] files and the renaming of files.  Bytes are integers
    from 0 to 255.  UTF-8, JSON, SHA-256, the file system and [path.join] are
    arguments; the metadata is whatever JSON.parse gives, cast without a check
    as the code does. *)

From S2P Require Import Prelude PluginData.

Inductive load_error : Type :=
| DISCOVERY_FAILED
| READ_FAILED
| FILE_TOO_SMALL
| INVALID_MAGIC
| UNSUPPORTED_VERSION
| INVALID_MLDSA_LEVEL
| BUFFER_OVERFLOW
| METADATA_TOO_LARGE
| INVALID_METADATA_JSON
| BYTECODE_TOO_LARGE
| PROTO_TOO_LARGE
| CHECKSUM_MISMATCH
(** What DataView throws for a read outside the buffer; not a PluginLoadError. *)
| RangeError.

(** [buffer.length] *)
Definition blen (b : bytes) : Z := Z.of_nat (length b).

(** [buffer.subarray(start, end)], for offsets that are not negative. *)
Definition subarray (b : bytes) (start stop : Z) : bytes :=
  take (Z.to_nat (stop - start)) (drop (Z.to_nat start) b).

(** [view.getUint32(offset, true)]: little endian. *)
Definition getUint32 (b : bytes) (offset : Z) : result load_error Z :=
  match subarray b offset (offset + 4) with
  | [b0; b1; b2; b3] => Ok (b0 + 256 * b1 + 65536 * b2 + 16777216 * b3)
  | _ => Throw RangeError
  end.

Record IDiscoveredPlugin : Type := {
  disc_filePath : string;
  isDisabled : bool;
  disc_pluginId : string
}.

(** [String.prototype.endsWith], and [replace] of the first occurrence. *)
Definition endsWith (s suffix : string) : bool :=
  let n := String.length s in let m := String.length suffix in
  (m <=? n)%nat && String.eqb (String.substring (n - m) m s) suffix.

Definition replace_first (s pat rep : string) : string :=
  match String.index 0 pat s with
  | Some i => String.substring 0 i s +:+ rep +:+
              String.substring (i + String.length pat)
                (String.length s - (i + String.length pat)) s
  | None => s
  end.

Module PluginLoader.
Section PluginLoader.
Context (utf8_decode : bytes → string) (utf8_encode : string → bytes).
Context (json_metadata : string → option IPluginMetadata) (sha256 : bytes → bytes).

Definition parseHeader (buffer : bytes) : result load_error IPluginFileHeader :=
  if decide (blen buffer < 13) then Throw FILE_TOO_SMALL
  else
    let magic := subarray buffer 0 8 in
    if decide (magic ≠ PLUGIN_MAGIC_BYTES) then Throw INVALID_MAGIC
    else
      version ← getUint32 buffer 8;
      if decide (version ≠ PLUGIN_FORMAT_VERSION) then Throw UNSUPPORTED_VERSION
      else
        match (buffer !! 12%nat) ≫= MLDSALevel_of with
        | None => Throw INVALID_MLDSA_LEVEL
        | Some mldsaLevel =>
            let offset := 13 in
            let publicKeySize := MLDSA_PUBLIC_KEY_SIZES mldsaLevel in
            if decide (blen buffer < offset + publicKeySize) then Throw BUFFER_OVERFLOW
            else
              let publicKey := subarray buffer offset (offset + publicKeySize) in
              let offset := offset + publicKeySize in
              let signatureSize := MLDSA_SIGNATURE_SIZES mldsaLevel in
              if decide (blen buffer < offset + signatureSize) then Throw BUFFER_OVERFLOW
              else
                Ok (mkFileHeader magic version mldsaLevel publicKey
                      (subarray buffer offset (offset + signatureSize)))
        end.

Definition computeChecksum (raw : string) (code : bytes) (schema : option bytes) : bytes :=
  sha256 (utf8_encode raw ++ code ++ default [] schema).

(** A length field with its two bound checks, and the bytes it announces. *)
Definition read_block (buffer : bytes) (offset max : Z) (too_large : load_error)
  : result load_error (bytes * Z) :=
  if decide (blen buffer < offset + 4) then Throw BUFFER_OVERFLOW
  else
    len ← getUint32 buffer offset;
    let offset := offset + 4 in
    if decide (max < len) then Throw too_large
    else if decide (blen buffer < offset + len) then Throw BUFFER_OVERFLOW
    else Ok (subarray buffer offset (offset + len), offset + len).

(** The schema is absent when its length is zero. *)
Definition read_proto (buffer : bytes) (offset : Z) : result load_error (option bytes * Z) :=
  if decide (blen buffer < offset + 4) then Throw BUFFER_OVERFLOW
  else
    protoLength ← getUint32 buffer offset;
    let offset := offset + 4 in
    if decide (0 < protoLength)
    then
      if decide (MAX_PROTO_SIZE < protoLength) then Throw PROTO_TOO_LARGE
      else if decide (blen buffer < offset + protoLength) then Throw BUFFER_OVERFLOW
      else Ok (Some (subarray buffer offset (offset + protoLength)), offset + protoLength)
    else Ok (None, offset).

Definition parse_buffer (buffer : bytes) : result load_error IParsedPluginFile :=
  if decide (blen buffer < MIN_PLUGIN_FILE_SIZE) then Throw FILE_TOO_SMALL
  else
    header ← parseHeader buffer;
    m ← read_block buffer (calculateHeaderSize (header_level header)) MAX_METADATA_SIZE
          METADATA_TOO_LARGE;
    let rawMetadata := utf8_decode m.1 in
    match json_metadata rawMetadata with
    | None => Throw INVALID_METADATA_JSON
    | Some metadata =>
        c ← read_block buffer m.2 MAX_BYTECODE_SIZE BYTECODE_TOO_LARGE;
        p ← read_proto buffer c.2;
        if decide (blen buffer < p.2 + 32) then Throw BUFFER_OVERFLOW
        else
          let checksum := subarray buffer p.2 (p.2 + 32) in
          if decide (checksum ≠ computeChecksum rawMetadata c.1 p.1) then Throw CHECKSUM_MISMATCH
          else Ok (mkFile (header_version header) (header_level header) (header_publicKey header)
                     (header_signature header) metadata rawMetadata c.1 p.1 checksum)
    end.

Definition parsePluginFile (readFileSync : string → option bytes) (filePath : string)
  : result load_error IParsedPluginFile :=
  match readFileSync filePath with
  | None => Throw READ_FAILED
  | Some buffer => parse_buffer buffer
  end.

(** ** Names of files *)

Definition isPluginFileDisabled (filePath : string) : bool := endsWith filePath ".opnet.disabled".

(** The new path, and the rename that was asked for. *)
Definition disablePluginFile (filePath : string) : string * option (string * string) :=
  if isPluginFileDisabled filePath then (filePath, None)
  else
    let disabledPath := filePath +:+ ".disabled" in
    (disabledPath, Some (filePath, disabledPath)).

Definition enablePluginFile (filePath : string) : string * option (string * string) :=
  if negb (isPluginFileDisabled filePath) then (filePath, None)
  else
    let enabledPath := replace_first filePath ".opnet.disabled" ".opnet" in
    (enabledPath, Some (filePath, enabledPath)).

(** One entry of the directory. *)
Definition discover_file (join : string → string) (f : string) : option IDiscoveredPlugin :=
  if endsWith f ".opnet.disabled"
  then Some {| disc_filePath := join f; isDisabled := true;
               disc_pluginId := replace_first f ".opnet.disabled" "" |}
  else if endsWith f ".opnet"
  then Some {| disc_filePath := join f; isDisabled := false;
               disc_pluginId := replace_first f ".opnet" "" |}
  else None.

(** [readdirSync] is [None] when the directory does not exist (it is created),
    and throws when the scan fails. *)
Definition discoverAllPlugins (readdirSync : result string (option (list string)))
    (join : string → string) : result load_error (list IDiscoveredPlugin) :=
  match readdirSync with
  | Throw _ => Throw DISCOVERY_FAILED
  | Ok None => Ok []
  | Ok (Some files) => Ok (omap (discover_file join) files)
  end.

Definition discoverPlugins (readdirSync : result string (option (list string)))
    (join : string → string) : result load_error (list string) :=
  match discoverAllPlugins readdirSync join with
  | Throw e => Throw e
  | Ok discovered => Ok (disc_filePath <$> filter (fun p => isDisabled p = false) discovered)
  end.

End PluginLoader.
End PluginLoader.

Import PluginLoader.

(** ** Lemmas on reads *)

Lemma blen_app a b : blen (a ++ b) = blen a + blen b.
Proof. unfold blen. rewrite length_app. lia. Qed.

Lemma blen_nonneg b : 0 ≤ blen b.
Proof. unfold blen. lia. Qed.

(** A read at the end of a prefix gives what follows it. *)
Lemma subarray_app pre x post n :
  n = blen pre → subarray (pre ++ x ++ post) n (n + blen x) = x.
Proof.
  intros ->. unfold subarray, blen. rewrite Nat2Z.id, drop_app_length.
  replace (Z.to_nat _) with (length x) by lia. by rewrite take_app_length.
Qed.

(** A read inside the buffer splits it. *)
Lemma subarray_split b n len :
  0 ≤ n → 0 ≤ len → n + len ≤ blen b →
  blen (subarray b n (n + len)) = len ∧
  b = take (Z.to_nat n) b ++ subarray b n (n + len) ++ drop (Z.to_nat (n + len)) b.
Proof.
  intros Hn Hl Hb. unfold subarray, blen in *.
  replace (n + len - n) with len by lia. split.
  - rewrite length_take, length_drop. lia.
  - replace (Z.to_nat (n + len)) with (Z.to_nat n + Z.to_nat len)%nat by lia.
    rewrite <-drop_drop. by rewrite take_drop, take_drop.
Qed.

(** The four bytes of a length. *)
Definition u32 (z : Z) : bytes :=
  [z mod 256; z / 256 mod 256; z / 65536 mod 256; z / 16777216 mod 256].

Lemma u32_decode z :
  0 ≤ z < 4294967296 →
  z mod 256 + 256 * (z / 256 mod 256) + 65536 * (z / 65536 mod 256)
  + 16777216 * (z / 16777216 mod 256) = z.
Proof.
  intros Hz.
  pose proof (Z.div_mod z 256 ltac:(lia)). pose proof (Z.div_mod (z / 256) 256 ltac:(lia)).
  pose proof (Z.div_mod (z / 65536) 256 ltac:(lia)).
  rewrite (Z.mod_small (z / 16777216)).
  2: { split; [apply Z.div_pos; lia|apply Z.div_lt_upper_bound; lia]. }
  replace (z / 65536) with (z / 256 / 256) in * by (rewrite Z.div_div by lia; done).
  replace (z / 16777216) with (z / 256 / 256 / 256) in * by (rewrite !Z.div_div by lia; done).
  lia.
Qed.

Lemma getUint32_app pre z post n :
  n = blen pre → 0 ≤ z < 4294967296 → getUint32 (pre ++ u32 z ++ post) n = Ok z.
Proof.
  intros Hn Hz. unfold getUint32. change 4 with (blen (u32 z)).
  rewrite subarray_app by done. cbn [u32]. by rewrite u32_decode.
Qed.

(** The bound checks of the parser make its reads safe. *)
Lemma getUint32_ok b n : 0 ≤ n → n + 4 ≤ blen b → ∃ z, getUint32 b n = Ok z.
Proof.
  intros Hn Hb. destruct (subarray_split b n 4 Hn ltac:(lia) Hb) as [Hl _]. unfold getUint32.
  destruct (subarray b n (n + 4)) as [|b0 [|b1 [|b2 [|b3 [|]]]]]; unfold blen in Hl; cbn in Hl;
    try lia. by eexists.
Qed.

(** Bytes are between 0 and 255. *)
Definition is_bytes (b : bytes) : Prop := Forall (fun z => 0 ≤ z < 256) b.

Lemma is_bytes_subarray b n m : is_bytes b → is_bytes (subarray b n m).
Proof. intros Hb. unfold subarray, is_bytes. by apply Forall_take, Forall_drop. Qed.

Lemma u32_of_bytes b0 b1 b2 b3 :
  is_bytes [b0; b1; b2; b3] →
  u32 (b0 + 256 * b1 + 65536 * b2 + 16777216 * b3) = [b0; b1; b2; b3] ∧
  0 ≤ b0 + 256 * b1 + 65536 * b2 + 16777216 * b3 < 4294967296.
Proof.
  unfold is_bytes. rewrite !Forall_cons. intros (H0 & H1 & H2 & H3 & _). split; [|lia].
  unfold u32. f_equal; [|f_equal; [|f_equal; [|f_equal]]].
  - symmetry. apply (Z.mod_unique_pos _ _ (b1 + 256 * b2 + 65536 * b3)); lia.
  - rewrite <-(Z.div_unique_pos _ 256 (b1 + 256 * b2 + 65536 * b3) b0) by lia.
    symmetry. apply (Z.mod_unique_pos _ _ (b2 + 256 * b3)); lia.
  - rewrite <-(Z.div_unique_pos _ 65536 (b2 + 256 * b3) (b0 + 256 * b1)) by lia.
    symmetry. apply (Z.mod_unique_pos _ _ b3); lia.
  - rewrite <-(Z.div_unique_pos _ 16777216 b3 (b0 + 256 * b1 + 65536 * b2)) by lia.
    apply Z.mod_small. lia.
Qed.

Lemma getUint32_inv b n z :
  is_bytes b → getUint32 b n = Ok z → u32 z = subarray b n (n + 4) ∧ 0 ≤ z < 4294967296.
Proof.
  intros Hb. unfold getUint32. pose proof (is_bytes_subarray b n (n + 4) Hb) as Hs.
  destruct (subarray b n (n + 4)) as [|b0 [|b1 [|b2 [|b3 [|]]]]]; try done.
  intros [= <-]. by apply u32_of_bytes.
Qed.

(** ** The format of the file *)

Section format.
Context (utf8_decode : bytes → string) (utf8_encode : string → bytes).
Context (json_metadata : string → option IPluginMetadata) (sha256 : bytes → bytes).

(** A file as the parser reads it: magic, version, level, key, signature, then
    the three blocks with their lengths, and the checksum. *)
Definition header_layout (level : MLDSALevel) (pk sig : bytes) : bytes :=
  PLUGIN_MAGIC_BYTES ++ u32 PLUGIN_FORMAT_VERSION ++ [MLDSALevel_value level] ++ pk ++ sig.

Definition block (b : bytes) : bytes := u32 (blen b) ++ b.

Definition file_layout (level : MLDSALevel) (pk sig meta code : bytes) (schema : option bytes)
    (sum : bytes) : bytes :=
  header_layout level pk sig ++ block meta ++ block code ++ block (default [] schema) ++ sum.

(** The sizes the format allows. *)
Definition sizes_ok (level : MLDSALevel) (pk sig meta code : bytes) (schema : option bytes) : Prop :=
  blen pk = MLDSA_PUBLIC_KEY_SIZES level ∧ blen sig = MLDSA_SIGNATURE_SIZES level ∧
  blen meta ≤ MAX_METADATA_SIZE ∧ blen code ≤ MAX_BYTECODE_SIZE ∧
  match schema with Some p => 0 < blen p ≤ MAX_PROTO_SIZE | None => True end.

Lemma blen_u32 z : blen (u32 z) = 4.
Proof. done. Qed.

Lemma block_app x post : block x ++ post = u32 (blen x) ++ x ++ post.
Proof. done. Qed.

Lemma blen_block b : blen (block b) = 4 + blen b.
Proof. unfold block. by rewrite blen_app. Qed.

Lemma header_layout_size level pk sig :
  blen pk = MLDSA_PUBLIC_KEY_SIZES level → blen sig = MLDSA_SIGNATURE_SIZES level →
  blen (header_layout level pk sig) = calculateHeaderSize level.
Proof.
  intros Hp Hs. unfold header_layout, calculateHeaderSize. rewrite !blen_app, Hp, Hs.
  change (blen PLUGIN_MAGIC_BYTES) with 8. change (blen (u32 PLUGIN_FORMAT_VERSION)) with 4.
  change (blen [MLDSALevel_value level]) with 1. lia.
Qed.

Lemma level_roundtrip level : MLDSALevel_of (MLDSALevel_value level) = Some level.
Proof. by destruct level. Qed.

Lemma level_inv b level : MLDSALevel_of b = Some level → b = MLDSALevel_value level.
Proof. unfold MLDSALevel_of. repeat case_decide; intros [= <-]; done. Qed.

Lemma parseHeader_layout level pk sig post :
  blen pk = MLDSA_PUBLIC_KEY_SIZES level → blen sig = MLDSA_SIGNATURE_SIZES level →
  parseHeader (header_layout level pk sig ++ post)
  = Ok (mkFileHeader PLUGIN_MAGIC_BYTES PLUGIN_FORMAT_VERSION level pk sig).
Proof.
  intros Hp Hs. pose proof (header_layout_size level pk sig Hp Hs) as Hsize.
  set (buffer := header_layout level pk sig ++ post).
  assert (blen buffer = calculateHeaderSize level + blen post) as Hlen
    by (unfold buffer; by rewrite blen_app, Hsize).
  pose proof (blen_nonneg post). pose proof (blen_nonneg pk). pose proof (blen_nonneg sig).
  unfold calculateHeaderSize in Hlen.
  assert (subarray buffer 0 8 = PLUGIN_MAGIC_BYTES) as Hmagic by reflexivity.
  assert (getUint32 buffer 8 = Ok PLUGIN_FORMAT_VERSION) as Hver by reflexivity.
  assert (mbind MLDSALevel_of ((buffer : bytes) !! 12%nat) = Some level) as Hlev
    by (change (MLDSALevel_of (MLDSALevel_value level) = Some level); apply level_roundtrip).
  assert (subarray buffer 13 (13 + MLDSA_PUBLIC_KEY_SIZES level) = pk) as Hpk.
  { rewrite <-Hp. unfold buffer, header_layout. rewrite <-!app_assoc.
    rewrite (app_assoc _ (u32 _)), (app_assoc (_ ++ _) [_]). by apply subarray_app. }
  assert (subarray buffer (13 + MLDSA_PUBLIC_KEY_SIZES level)
    (13 + MLDSA_PUBLIC_KEY_SIZES level + MLDSA_SIGNATURE_SIZES level) = sig) as Hsig.
  { rewrite <-Hs. unfold buffer, header_layout. rewrite <-!app_assoc.
    rewrite (app_assoc _ (u32 _)), (app_assoc (_ ++ _) [_]), (app_assoc (_ ++ _) pk).
    apply subarray_app. rewrite blen_app, Hp. done. }
  unfold parseHeader. rewrite decide_False by lia. rewrite Hmagic, Hver.
  rewrite decide_False by (intros Hn; by apply Hn). cbn [mbind result_bind].
  rewrite decide_False by (intros Hn; by apply Hn).
  rewrite Hlev. cbv zeta.
  rewrite !decide_False by lia. by rewrite Hpk, Hsig.
Qed.

Lemma read_block_layout pre x post n max e :
  n = blen pre → blen x ≤ max → max < 4294967296 →
  read_block (pre ++ block x ++ post) n max e = Ok (x, n + 4 + blen x).
Proof.
  intros Hn Hx Hmax. pose proof (blen_nonneg x). pose proof (blen_nonneg post). unfold read_block.
  assert (blen (pre ++ u32 (blen x) ++ x ++ post) = n + (4 + blen x) + blen post) as Hlen.
  { rewrite !blen_app, blen_u32. lia. }
  rewrite block_app.
  rewrite decide_False by lia. rewrite (getUint32_app _ _ _ n Hn) by lia.
  cbn [mbind result_bind]. rewrite !decide_False by lia.
  rewrite (app_assoc pre).
  rewrite subarray_app; [done|]. rewrite blen_app, blen_u32. lia.
Qed.

Lemma read_proto_layout pre schema post n :
  n = blen pre → match schema with Some p => 0 < blen p ≤ MAX_PROTO_SIZE | None => True end →
  read_proto (pre ++ block (default [] schema) ++ post) n
  = Ok (schema, n + 4 + blen (default [] schema)).
Proof.
  intros Hn Hp. unfold read_proto. pose proof (blen_nonneg post).
  set (x := default [] schema).
  assert (0 ≤ blen x ≤ MAX_PROTO_SIZE) as Hx.
  { unfold x. destruct schema as [p|]; cbn [from_option id]; [lia|].
    change (blen []) with 0. unfold MAX_PROTO_SIZE. lia. }
  assert (MAX_PROTO_SIZE < 4294967296) as Hmax by (unfold MAX_PROTO_SIZE; lia).
  assert (blen (pre ++ u32 (blen x) ++ x ++ post) = n + (4 + blen x) + blen post) as Hlen.
  { rewrite !blen_app, blen_u32. lia. }
  rewrite block_app.
  rewrite decide_False by lia. rewrite (getUint32_app _ _ _ n Hn) by lia.
  cbn [mbind result_bind]. destruct schema as [p|]; subst x; cbn [from_option id] in *.
  - rewrite decide_True by lia. rewrite !decide_False by lia.
    rewrite (app_assoc pre).
    rewrite subarray_app; [done|]. rewrite blen_app, blen_u32. lia.
  - change (blen []) with 0. rewrite decide_False by lia. do 2 f_equal. lia.
Qed.

(** Round trip: every file of the declared format whose metadata parses and
    whose checksum is that of its contents is read back exactly; what follows
    the checksum is ignored. *)
Theorem parse_layout level pk sig meta metadata code schema rest :
  sizes_ok level pk sig meta code schema → 2 ≤ blen meta → 1 ≤ blen code →
  json_metadata (utf8_decode meta) = Some metadata →
  let sum := computeChecksum utf8_encode sha256 (utf8_decode meta) code schema in
  blen sum = 32 →
  parse_buffer utf8_decode utf8_encode json_metadata sha256
    (file_layout level pk sig meta code schema sum ++ rest)
  = Ok (mkFile 1 level pk sig metadata (utf8_decode meta) code schema sum).
Proof.
  intros (Hpk & Hsig & Hmeta & Hcode & Hschema) Hm2 Hc1 Hjson sum Hsum. unfold parse_buffer.
  pose proof (header_layout_size level pk sig Hpk Hsig) as Hhdr.
  pose proof (blen_nonneg rest) as Hrest. pose proof (blen_nonneg (default [] schema)) as Hsch.
  set (h := header_layout level pk sig) in *.
  assert (file_layout level pk sig meta code schema sum ++ rest
    = h ++ block meta ++ block code ++ block (default [] schema) ++ sum ++ rest) as Hfile.
  { unfold file_layout. fold h. by rewrite <-!app_assoc. }
  rewrite Hfile.
  assert (MIN_PLUGIN_FILE_SIZE ≤ calculateHeaderSize level + 47) as Hmin
    by (unfold MIN_PLUGIN_FILE_SIZE, calculateHeaderSize; destruct level; cbn; lia).
  rewrite decide_False by (rewrite !blen_app, !blen_block, Hhdr; lia).
  rewrite (parseHeader_layout level pk sig _ Hpk Hsig : parseHeader (h ++ _) = _).
  cbn [mbind result_bind header_level].
  rewrite read_block_layout by (done || (unfold MAX_METADATA_SIZE; lia)).
  cbn [mbind result_bind fst snd]. rewrite Hjson.
  rewrite (app_assoc h), read_block_layout
    by (done || (unfold MAX_BYTECODE_SIZE; lia) || (rewrite blen_app, blen_block; lia)).
  cbn [mbind result_bind fst snd].
  rewrite (app_assoc (h ++ block meta)), read_proto_layout
    by (done || (rewrite !blen_app, !blen_block; lia)).
  cbn [mbind result_bind fst snd].
  set (n := calculateHeaderSize level + 4 + blen meta + 4 + blen code + 4 + blen (default [] schema)).
  rewrite decide_False by (rewrite !blen_app, !blen_block, Hhdr; unfold n; lia).
  assert (subarray (((h ++ block meta) ++ block code) ++ block (default [] schema) ++ sum ++ rest) n
    (n + 32) = sum) as Hs.
  { rewrite (app_assoc (_ ++ block code)), <-Hsum. apply subarray_app.
    rewrite !blen_app, !blen_block. unfold n. lia. }
  rewrite Hs. rewrite decide_False by (intros Hn; by apply Hn). done.
Qed.

(** ** Reading backwards *)

(** The buffer is known up to [n]. *)
Definition known (b : bytes) (n : Z) (pre : bytes) : Prop :=
  0 ≤ n ≤ blen b ∧ b = pre ++ drop (Z.to_nat n) b ∧ blen pre = n.

Lemma known_extend b n pre len :
  known b n pre → 0 ≤ len → n + len ≤ blen b →
  known b (n + len) (pre ++ subarray b n (n + len)) ∧ blen (subarray b n (n + len)) = len.
Proof.
  intros (Hn & Hb & Hpre) Hl Hle.
  destruct (subarray_split b n len ltac:(lia) Hl Hle) as [Hlen Hsplit]. split; [|done].
  assert (pre = take (Z.to_nat n) b) as Hp.
  { rewrite Hb at 1. rewrite take_app_length'; [done|]. unfold blen in Hpre. lia. }
  split; [lia|]. split; [|rewrite blen_app; lia]. rewrite Hp, <-app_assoc. exact Hsplit.
Qed.

Lemma known_u32 b n pre z :
  is_bytes b → known b n pre → n + 4 ≤ blen b → getUint32 b n = Ok z →
  known b (n + 4) (pre ++ u32 z) ∧ 0 ≤ z < 4294967296.
Proof.
  intros Hb Hk Hle Hz. destruct (getUint32_inv b n z Hb Hz) as [-> Hr]. split; [|done].
  by apply known_extend.
Qed.

Lemma read_block_inv b n pre max e x n' :
  is_bytes b → known b n pre → read_block b n max e = Ok (x, n') →
  known b n' (pre ++ block x) ∧ blen x ≤ max.
Proof.
  intros Hb Hk. unfold read_block. case_decide as H1; [done|].
  destruct (getUint32 b n) as [len|] eqn:Hlen; cbn [mbind result_bind]; [|done].
  case_decide as H2; [done|]. case_decide as H3; [done|]. intros [= <- <-].
  destruct (known_u32 b n pre len Hb Hk ltac:(lia) Hlen) as [Hk1 Hr].
  destruct (known_extend b (n + 4) (pre ++ u32 len) len Hk1 ltac:(lia) ltac:(lia)) as [Hk2 Hl].
  split; [|lia]. unfold block. rewrite Hl. by rewrite app_assoc.
Qed.

Lemma read_proto_inv b n pre schema n' :
  is_bytes b → known b n pre → read_proto b n = Ok (schema, n') →
  known b n' (pre ++ block (default [] schema)) ∧
  match schema with Some p => 0 < blen p ≤ MAX_PROTO_SIZE | None => True end.
Proof.
  intros Hb Hk. unfold read_proto. case_decide as H1; [done|].
  destruct (getUint32 b n) as [len|] eqn:Hlen; cbn [mbind result_bind]; [|done].
  destruct (known_u32 b n pre len Hb Hk ltac:(lia) Hlen) as [Hk1 Hr].
  case_decide as H2.
  - case_decide as H3; [done|]. case_decide as H4; [done|]. intros [= <- <-].
    destruct (known_extend b (n + 4) (pre ++ u32 len) len Hk1 ltac:(lia) ltac:(lia)) as [Hk2 Hl].
    cbn [from_option id]. split; [|lia]. unfold block. rewrite Hl. by rewrite app_assoc.
  - intros [= <- <-]. split; [|done]. assert (len = 0) as -> by lia. exact Hk1.
Qed.

Lemma parseHeader_inv b h :
  is_bytes b → parseHeader b = Ok h →
  known b (calculateHeaderSize (header_level h))
    (header_layout (header_level h) (header_publicKey h) (header_signature h)) ∧
  header_version h = 1 ∧
  blen (header_publicKey h) = MLDSA_PUBLIC_KEY_SIZES (header_level h) ∧
  blen (header_signature h) = MLDSA_SIGNATURE_SIZES (header_level h).
Proof.
  intros Hb. unfold parseHeader. case_decide as H1; [done|]. case_decide as H2; [done|].
  destruct (getUint32 b 8) as [v|] eqn:Hv; cbn [mbind result_bind]; [|done].
  case_decide as H3; [done|].
  destruct ((b !! 12%nat) ≫= MLDSALevel_of) as [level|] eqn:Hl; [|done]. cbv zeta.
  case_decide as H4; [done|]. case_decide as H5; [done|]. intros [= <-].
  cbn [header_level header_publicKey header_signature header_version].
  assert (known b 0 []) as Hk0 by (split; [pose proof (blen_nonneg b); lia|done]).
  destruct (known_extend b 0 [] 8 Hk0 ltac:(lia) ltac:(lia)) as [Hk1 _].
  change (subarray b 0 (0 + 8)) with (subarray b 0 8) in Hk1.
  rewrite H2 in Hk1. cbn [app] in Hk1.
  destruct (known_u32 b (0 + 8) _ v Hb Hk1 ltac:(lia) Hv) as [Hk2 _].
  destruct (known_extend b (0 + 8 + 4) _ 1 Hk2 ltac:(lia) ltac:(lia)) as [Hk3 Hl3].
  assert (subarray b (0 + 8 + 4) (0 + 8 + 4 + 1) = [MLDSALevel_value level]) as Hlev.
  { destruct (b !! 12%nat) as [x|] eqn:Hx; [|done]. apply level_inv in Hl. subst x.
    change (subarray b (0 + 8 + 4) (0 + 8 + 4 + 1)) with (take 1 (drop 12 b)).
    by rewrite (drop_S _ _ _ Hx). }
  rewrite Hlev in Hk3.
  assert (0 ≤ MLDSA_PUBLIC_KEY_SIZES level ∧ 0 ≤ MLDSA_SIGNATURE_SIZES level) as [Hp0 Hs0]
    by (destruct level; cbn; lia).
  destruct (known_extend b (0 + 8 + 4 + 1) _ (MLDSA_PUBLIC_KEY_SIZES level) Hk3 Hp0 ltac:(lia))
    as [Hk4 Hl4].
  destruct (known_extend b (0 + 8 + 4 + 1 + MLDSA_PUBLIC_KEY_SIZES level) _
    (MLDSA_SIGNATURE_SIZES level) Hk4 Hs0 ltac:(lia)) as [Hk5 Hl5].
  split_and!; [|exact H3|exact Hl4|exact Hl5].
  unfold header_layout, calculateHeaderSize. rewrite <-!app_assoc in Hk5.
  rewrite H3 in Hk5. exact Hk5.
Qed.

(** Nothing is made up: what [parsePluginFile] returns are consecutive
    pieces of the file in the declared format, of the allowed sizes, with the
    checksum of exactly these contents and metadata that parsed; whatever
    follows the checksum is ignored. *)
Theorem parse_sound buffer f :
  is_bytes buffer →
  parse_buffer utf8_decode utf8_encode json_metadata sha256 buffer = Ok f →
  ∃ meta rest,
    buffer = file_layout (mldsaLevel f) (publicKey f) (signature f) meta (bytecode f) (proto f)
               (checksum f) ++ rest ∧
    sizes_ok (mldsaLevel f) (publicKey f) (signature f) meta (bytecode f) (proto f) ∧
    formatVersion f = 1 ∧ rawMetadata f = utf8_decode meta ∧
    json_metadata (rawMetadata f) = Some (file_metadata f) ∧ blen (checksum f) = 32 ∧
    checksum f = computeChecksum utf8_encode sha256 (rawMetadata f) (bytecode f) (proto f).
Proof.
  intros Hb. unfold parse_buffer. case_decide as H1; [done|].
  destruct (parseHeader buffer) as [h|] eqn:Hh; cbn [mbind result_bind]; [|done].
  destruct (parseHeader_inv buffer h Hb Hh) as (Hk0 & Hver & Hpk & Hsig).
  destruct (read_block buffer (calculateHeaderSize (header_level h)) _ _) as [[meta n1]|] eqn:Hm;
    cbn [mbind result_bind fst snd]; [|done].
  destruct (read_block_inv _ _ _ _ _ _ _ Hb Hk0 Hm) as [Hk1 Hmax1].
  destruct (json_metadata (utf8_decode meta)) as [metadata|] eqn:Hjson; [|done].
  destruct (read_block buffer n1 _ _) as [[code n2]|] eqn:Hc; cbn [mbind result_bind fst snd]; [|done].
  destruct (read_block_inv _ _ _ _ _ _ _ Hb Hk1 Hc) as [Hk2 Hmax2].
  destruct (read_proto buffer n2) as [[schema n3]|] eqn:Hp; cbn [mbind result_bind fst snd]; [|done].
  destruct (read_proto_inv _ _ _ _ _ Hb Hk2 Hp) as [Hk3 Hmax3].
  case_decide as H2; [done|]. case_decide as H3; [done|]. intros [= <-].
  destruct (known_extend buffer n3 _ 32 Hk3 ltac:(lia) ltac:(lia)) as [(_ & Hbuf & _) Hl].
  exists meta, (drop (Z.to_nat (n3 + 32)) buffer).
  cbn [mldsaLevel publicKey signature bytecode proto checksum formatVersion rawMetadata file_metadata].
  split_and!; try done.
  unfold file_layout. rewrite Hbuf at 1. by rewrite <-!app_assoc.
Qed.

(** The bound checks are sufficient: no read of the parser leaves the
    buffer, whatever the file holds. *)
Theorem parse_never_out_of_range buffer :
  is_bytes buffer →
  parse_buffer utf8_decode utf8_encode json_metadata sha256 buffer = Throw RangeError → False.
Proof.
  intros Hb. assert (∀ n pre max e, known buffer n pre → e ≠ RangeError →
    read_block buffer n max e = Throw RangeError → False) as Hblock.
  { intros n pre max e [Hn _] He. unfold read_block. case_decide as H1; [done|].
    destruct (getUint32_ok buffer n ltac:(lia) ltac:(lia)) as [z ->]. cbn [mbind result_bind].
    repeat case_decide; congruence. }
  unfold parse_buffer. case_decide as H1; [done|].
  destruct (parseHeader buffer) as [h|e] eqn:Hh; cbn [mbind result_bind].
  - destruct (parseHeader_inv buffer h Hb Hh) as (Hk0 & _).
    destruct (read_block buffer (calculateHeaderSize (header_level h)) _ _) as [[meta n1]|] eqn:Hm;
      cbn [mbind result_bind fst snd];
      [|intros [= ->]; exact (Hblock _ _ _ METADATA_TOO_LARGE Hk0 ltac:(discriminate) Hm)].
    destruct (read_block_inv _ _ _ _ _ _ _ Hb Hk0 Hm) as [Hk1 _].
    destruct (json_metadata _); [|done].
    destruct (read_block buffer n1 _ _) as [[code n2]|] eqn:Hc;
      cbn [mbind result_bind fst snd];
      [|intros [= ->]; exact (Hblock _ _ _ BYTECODE_TOO_LARGE Hk1 ltac:(discriminate) Hc)].
    destruct (read_block_inv _ _ _ _ _ _ _ Hb Hk1 Hc) as [[Hn2 _] _].
    destruct (read_proto buffer n2) as [[schema n3]|] eqn:Hp; cbn [mbind result_bind fst snd].
    + repeat case_decide; done.
    + intros [= ->]. revert Hp. unfold read_proto. case_decide as H2; [done|].
      destruct (getUint32_ok buffer n2 ltac:(lia) ltac:(lia)) as [z ->]. cbn [mbind result_bind].
      repeat case_decide; done.
  - intros [= ->]. revert Hh. unfold parseHeader. repeat (case_decide; [done|]).
    destruct (getUint32_ok buffer 8 ltac:(lia) ltac:(lia)) as [z ->]. cbn [mbind result_bind].
    case_decide; [done|]. destruct (_ ≫= _); [|done]. cbv zeta. repeat case_decide; done.
Qed.
End format.

(** ** Enabling and disabling files *)

Lemma append_length s1 s2 : String.length (s1 +:+ s2) = (String.length s1 + String.length s2)%nat.
Proof.
  induction s1 as [|a s1 IH]; [done|]. change (S (String.length (s1 +:+ s2)) =
    S (String.length s1 + String.length s2)%nat). by rewrite IH.
Qed.

Lemma substring_append s1 s2 : String.substring (String.length s1) (String.length s2) (s1 +:+ s2) = s2.
Proof.
  induction s1 as [|a s1 IH]; [|exact IH].
  change (String.substring 0 (String.length s2) s2 = s2).
  induction s2 as [|b s2 IH]; [done|]. cbn. by f_equal.
Qed.

Lemma endsWith_append s suffix : endsWith (s +:+ suffix) suffix = true.
Proof.
  unfold endsWith. rewrite append_length.
  replace (String.length s + String.length suffix - String.length suffix)%nat with (String.length s) by lia.
  rewrite substring_append, String.eqb_refl, andb_true_r. apply Nat.leb_le. lia.
Qed.

(** A disabled file is recognised as such, and disabling is idempotent: a
    second call renames nothing. *)
Lemma disable_is_idempotent p :
  let d := (disablePluginFile (p +:+ ".opnet")).1 in
  isPluginFileDisabled (p +:+ ".opnet") = false →
  isPluginFileDisabled d = true ∧ disablePluginFile d = (d, None) ∧
  (enablePluginFile (p +:+ ".opnet")) = (p +:+ ".opnet", None).
Proof.
  intros d Hd. unfold d, disablePluginFile, enablePluginFile. rewrite Hd. cbn [fst negb].
  assert ((p +:+ ".opnet") +:+ ".disabled" = p +:+ ".opnet.disabled") as ->.
  { clear. induction p as [|a p IH]; [done|].
    exact (f_equal (String a) IH). }
  assert (isPluginFileDisabled (p +:+ ".opnet.disabled") = true) as Hdis by apply endsWith_append.
  rewrite Hdis. split_and!; done.
Qed.

(** ** A concrete file *)

Definition ascii_decode (b : bytes) : string :=
  String.string_of_list_ascii ((fun z => Ascii.ascii_of_nat (Z.to_nat z)) <$> b).
Definition ascii_encode (s : string) : bytes :=
  (fun a => Z.of_nat (Ascii.nat_of_ascii a)) <$> String.list_ascii_of_string s.

Definition example_metadata : IPluginMetadata := {|
  name := "x"; version := "1"; opnetVersion := "1"; main := "index.jsc"; checksum_decl := "";
  author := {| author_name := "op"; author_email := None; author_url := None |};
  contributors := None; repository := None; homepage := None; bugs_url := None; license := None;
  is_private := None; description := None; keywords := None; dependencies_decl := None;
  optionalDependencies := None; peerDependencies := None; signature_decl := None;
  pluginType := standalone; permissions := None; resources := None; lifecycle := None;
  hooks := None; config := None
|}.

Definition json_example (s : string) : option IPluginMetadata :=
  if String.eqb s "{}" then Some example_metadata else None.

(** Not a hash: the sum of the bytes, thirty-two times. *)
Definition sum32 (b : bytes) : bytes := repeat (foldr Z.add 0 b mod 256) 32.

Definition example_meta : bytes := [123; 125].
Definition example_pk : bytes := repeat 7 1312.
Definition example_sig : bytes := repeat 9 2420.
Definition example_sum : bytes := computeChecksum ascii_encode sum32 "{}" [1; 2; 3] (Some [5]).

Definition example_file : bytes :=
  file_layout MLDSA44 example_pk example_sig example_meta [1; 2; 3] (Some [5]) example_sum ++ [0].

Definition example_parsed : IParsedPluginFile :=
  mkFile 1 MLDSA44 example_pk example_sig example_metadata "{}" [1; 2; 3] (Some [5]) example_sum.

Lemma example_is_bytes : is_bytes example_file.
Proof.
  refine (bool_decide_unpack (Forall (fun z => 0 ≤ z < 256) example_file) _).
  vm_compute. exact I.
Defined.

Lemma parse_layout_witness :
  parse_buffer ascii_decode ascii_encode json_example sum32 example_file = Ok example_parsed.
Proof.
  refine (parse_layout ascii_decode ascii_encode json_example sum32 MLDSA44 example_pk example_sig
    example_meta example_metadata [1; 2; 3] (Some [5]) [0] _ _ _ _ _).
  - vm_compute. repeat split; discriminate.
  - vm_compute. discriminate.
  - vm_compute. discriminate.
  - vm_compute. reflexivity.
  - vm_compute. reflexivity.
Defined.

Lemma parse_sound_witness :
  is_bytes example_file ∧ ∃ meta rest,
    example_file = file_layout MLDSA44 example_pk example_sig meta [1; 2; 3] (Some [5])
                     example_sum ++ rest.
Proof.
  split; [exact example_is_bytes|].
  destruct (parse_sound ascii_decode ascii_encode json_example sum32 example_file example_parsed
    example_is_bytes ltac:(vm_compute; reflexivity)) as (meta & rest & Hlayout & _).
  exists meta, rest. exact Hlayout.
Defined.

Lemma parse_never_out_of_range_witness :
  is_bytes example_file ∧
  (parse_buffer ascii_decode ascii_encode json_example sum32 example_file = Throw RangeError → False).
Proof.
  split; [exact example_is_bytes|].
  exact (parse_never_out_of_range ascii_decode ascii_encode json_example sum32 example_file
    example_is_bytes).
Defined.
