(* ===== verification/PluginRegistry.v ===== *)
(** * The plugin registry
    (plugins/interfaces/IPluginState.ts, plugins/registry/PluginRegistry.ts)

    The plugins known to the node, their lifecycle states and the order in
    which they are loaded.  The registry is a JavaScript Map from the plugin
    name to a record that the code mutates in place; the model updates the
    entry of the map.  [semver.satisfies] is an argument; the listeners of state
    changes are identities of an abstract type, and their calls are a log. *)

From S2P Require Import Prelude PluginData.

(** ** Lifecycle *)

Inductive PluginState : Type :=
| DISCOVERED | VALIDATED | LOADING | LOADED | SYNCING | ENABLED | DISABLED | CRASHED | ERROR
| UNLOADING.

#[export] Instance PluginState_eq : EqDecision PluginState.
Proof. solve_decision. Defined.

Definition VALID_STATE_TRANSITIONS (s : PluginState) : list PluginState :=
  match s with
  | DISCOVERED => [VALIDATED; ERROR]
  | VALIDATED => [LOADING; ERROR]
  | LOADING => [LOADED; ERROR]
  | LOADED => [SYNCING; ENABLED; DISABLED; UNLOADING]
  | SYNCING => [ENABLED; ERROR; CRASHED]
  | ENABLED => [DISABLED; CRASHED; UNLOADING]
  | DISABLED => [ENABLED; SYNCING; UNLOADING]
  | CRASHED => [ENABLED; SYNCING; UNLOADING]
  | ERROR => [DISCOVERED]
  | UNLOADING => [DISCOVERED]
  end.

Definition isValidStateTransition (from to : PluginState) : bool :=
  bool_decide (to ∈ VALID_STATE_TRANSITIONS from).

(** ** Data *)

Record IPluginError : Type := {
  code : string;
  message : string;
  err_stack : option string;
  err_timestamp : Z
}.

(** The persisted install state (IPluginInstallState.ts). *)
Record IPluginInstallState : Type := {
  inst_pluginId : string;
  installedVersion : string;
  chainId : Z;
  inst_network : string;
  installedAt : Z;
  inst_enabledAtBlock : Z;
  lastSyncedBlock : Z;
  syncCompleted : bool;
  inst_collections : list string;
  updatedAt : Z
}.

Record IRegisteredPlugin : Type := mkPlugin {
  id : string;
  filePath : string;
  file : IParsedPluginFile;
  metadata : IPluginMetadata;
  state : PluginState;
  workerId : option Z;
  error : option IPluginError;
  loadedAt : option Z;
  enabledAt : option Z;
  enabledAtBlock : option Z;
  dependents : list string;
  dependencies : list string;
  isFirstInstall : option bool;
  installState : option IPluginInstallState;
  isFileDisabled : option bool
}.

Record IPluginStateChange : Type := {
  change_pluginId : string;
  previousState : PluginState;
  newState : PluginState;
  change_timestamp : Z;
  change_error : option IPluginError
}.

Inductive registry_error : Type :=
| AlreadyRegistered (id : string)
| PluginNotFound (id : string)
| InvalidTransition (id : string) (from to : PluginState)
| CircularDependency (cycle : list string) (id : string)
| MissingDependency (pluginId dependency : string)
| VersionMismatch (pluginId dependency : string)
(** Not an exception of the code: the fuel of a recursion ran out. *)
| RegistryFuel.

Definition set_links (ds : list string) (deps : list string) (p : IRegisteredPlugin)
  : IRegisteredPlugin :=
  mkPlugin (id p) (filePath p) (file p) (metadata p) (state p) (workerId p) (error p) (loadedAt p)
    (enabledAt p) (enabledAtBlock p) ds deps (isFirstInstall p) (installState p) (isFileDisabled p).

Definition set_dependents (f : list string → list string) (p : IRegisteredPlugin)
  : IRegisteredPlugin := set_links (f (dependents p)) (dependencies p) p.

Definition set_dependencies (f : list string → list string) (p : IRegisteredPlugin)
  : IRegisteredPlugin := set_links (dependents p) (f (dependencies p)) p.

(** The depth-first searches. *)
Record dfs_state : Type := mkDfs { visited : list string; recursionStack : list string;
                                   path : list string }.
Record visit_state : Type := mkVisit { v_visited : list string; temp : list string;
                                       v_result : list IRegisteredPlugin }.

(** The first occurrence of a string in an array. *)
Fixpoint indexOf (l : list string) (x : string) : nat :=
  match l with
  | [] => 0
  | y :: l' => if decide (y = x) then 0 else S (indexOf l' x)
  end.

(** [Array.prototype.sort] with a pure comparator: a stable sort. *)
Fixpoint insert_by {A} (cmp : A → A → Z) (x : A) (l : list A) : list A :=
  match l with
  | [] => [x]
  | y :: l' => if decide (cmp x y ≤ 0) then x :: y :: l' else y :: insert_by cmp x l'
  end.
Definition sort_by {A} (cmp : A → A → Z) (l : list A) : list A := foldr (insert_by cmp) [] l.

(** [toUpperCase] on the first character, for the ASCII letters of a plugin name. *)
Definition upper_ascii (a : Ascii.ascii) : Ascii.ascii :=
  let n := Ascii.nat_of_ascii a in
  if decide (97 ≤ n ∧ n ≤ 122)%nat then Ascii.ascii_of_nat (n - 32) else a.

Module PluginRegistry.
Section PluginRegistry.
Context (Listener : Type) `{EqDecision Listener} (satisfies : string → string → bool).

Record t : Type := mk {
  plugins : list (string * IRegisteredPlugin);
  stateListeners : list Listener;
  (** the calls of the listeners, oldest first *)
  notified : list (Listener * IPluginStateChange)
}.

Definition initial : t := mk [] [] [].

Definition set_plugins (r : t) (ps : list (string * IRegisteredPlugin)) : t :=
  mk ps (stateListeners r) (notified r).

Definition getPluginNamespace (pluginId : string) : string :=
  String.concat "" ((fun part =>
    match part with
    | EmptyString => EmptyString
    | String a rest => String (upper_ascii a) rest
    end) <$> split_on "-" pluginId).

Definition register (r : t) (path : string) (parsed : IParsedPluginFile)
  : result registry_error (t * IRegisteredPlugin) :=
  let meta := file_metadata parsed in
  let i := name meta in
  if JsMap.has (plugins r) i then Throw (AlreadyRegistered i)
  else
    let plugin := mkPlugin i path parsed meta DISCOVERED None None None None None [] []
                    None None None in
    Ok (set_plugins r (JsMap.set (plugins r) i plugin), plugin).

(** Change the record of a plugin in place, when it is registered. *)
Definition update (ps : list (string * IRegisteredPlugin)) (i : string)
    (f : IRegisteredPlugin → IRegisteredPlugin) : list (string * IRegisteredPlugin) :=
  match JsMap.get ps i with
  | Some p => JsMap.set ps i (f p)
  | None => ps
  end.

Definition unregister (r : t) (i : string) : t :=
  match JsMap.get (plugins r) i with
  | None => r
  | Some plugin =>
      let ps := foldl (fun ps depId =>
          update ps depId (set_dependents (fun l => JsSet.del l i)))
        (plugins r) (dependencies plugin) in
      set_plugins r (JsMap.del ps i)
  end.

Definition get (r : t) (i : string) : option IRegisteredPlugin := JsMap.get (plugins r) i.

Definition getAll (r : t) : list IRegisteredPlugin := JsMap.values (plugins r).

Definition getByState (r : t) (s : PluginState) : list IRegisteredPlugin :=
  filter (fun p => state p = s) (getAll r).

Definition getEnabled (r : t) : list IRegisteredPlugin := getByState r ENABLED.

(** [current[part]], on own properties. *)
Definition prop (current : js_prop) (part : string) : js_prop :=
  match current with
  | PObject fields => default PUndefined (JsMap.get fields part)
  | _ => PUndefined
  end.

Definition has_permission (permission : string) (p : IRegisteredPlugin) : bool :=
  match foldl prop (prop_opt permissions_prop (permissions (metadata p))) (split_on "." permission) with
  | PBool b => b
  | _ => false
  end.

Definition getWithPermission (r : t) (permission : string) : list IRegisteredPlugin :=
  List.filter (has_permission permission) (getEnabled r).

(** [now1] and [now2] are what the two calls of [Date.now] return. *)
Definition setState (now1 now2 : Z) (r : t) (i : string) (new : PluginState)
    (err : option IPluginError) : result registry_error t :=
  match JsMap.get (plugins r) i with
  | None => Throw (PluginNotFound i)
  | Some p =>
      if negb (isValidStateTransition (state p) new)
      then Throw (InvalidTransition i (state p) new)
      else
        let p' := mkPlugin (id p) (filePath p) (file p) (metadata p) new (workerId p) err
          (if decide (new = LOADED) then Some now1 else loadedAt p)
          (if decide (new = LOADED) then enabledAt p
           else if decide (new = ENABLED) then Some now1 else enabledAt p)
          (enabledAtBlock p) (dependents p) (dependencies p) (isFirstInstall p)
          (installState p) (isFileDisabled p) in
        let change := {| change_pluginId := i; previousState := state p; newState := new;
                         change_timestamp := now2; change_error := err |} in
        Ok (mk (JsMap.set (plugins r) i p') (stateListeners r)
              (notified r ++ ((fun l => (l, change)) <$> stateListeners r)))
  end.

Definition onStateChange (r : t) (l : Listener) : t :=
  mk (plugins r) (JsSet.add (stateListeners r) l) (notified r).

Definition offStateChange (r : t) (l : Listener) : t :=
  mk (plugins r) (JsSet.del (stateListeners r) l) (notified r).

(** ** Dependencies *)

Definition clear_deps (p : IRegisteredPlugin) : IRegisteredPlugin :=
  set_dependents (fun _ => []) (set_dependencies (fun _ => []) p).

Definition dep_names (p : IRegisteredPlugin) : list string :=
  JsMap.keys (default [] (dependencies_decl (metadata p))).

(** [for (const depName of Object.keys(deps))]: the edges of one plugin. *)
Definition link (i : string) (ps : list (string * IRegisteredPlugin)) (depName : string)
  : list (string * IRegisteredPlugin) :=
  if JsMap.has ps depName
  then update (update ps i (set_dependencies (fun l => JsSet.add l depName)))
         depName (set_dependents (fun l => JsSet.add l i))
  else ps.

Definition buildDependencyGraph (ps : list (string * IRegisteredPlugin))
  : list (string * IRegisteredPlugin) :=
  let cleared := (fun '(i, p) => (i, clear_deps p)) <$> ps in
  foldl (fun ps' '(i, p) => foldl (link i) ps' (dep_names p)) cleared cleared.

Definition deps_of (ps : list (string * IRegisteredPlugin)) (i : string) : list string :=
  from_option dependencies [] (JsMap.get ps i).

Fixpoint dfs (fuel : nat) (ps : list (string * IRegisteredPlugin)) (i : string)
  : stx dfs_state registry_error unit := fun s =>
  match fuel with
  | O => (s, Throw RegistryFuel)
  | S fuel' =>
      let s1 := mkDfs (JsSet.add (visited s) i) (JsSet.add (recursionStack s) i) (path s ++ [i]) in
      match sfor (deps_of ps i) (fun depId => fun s' =>
          if negb (JsSet.has (visited s') depId) then dfs fuel' ps depId s'
          else if JsSet.has (recursionStack s') depId
          then (s', Throw (CircularDependency
                  (drop (indexOf (path s') depId) (path s') ++ [depId]) i))
          else (s', Ok tt)) s1 with
      | (s2, Throw e) => (s2, Throw e)
      | (s2, Ok _) =>
          (mkDfs (visited s2) (JsSet.del (recursionStack s2) i) (removelast (path s2)), Ok tt)
      end
  end.

Definition reg_fuel (ps : list (string * IRegisteredPlugin)) : nat := S (length ps).

Definition detectCycles (ps : list (string * IRegisteredPlugin)) : result registry_error unit :=
  (sfor (JsMap.keys ps) (fun i => fun s =>
     if JsSet.has (visited s) i then (s, Ok tt) else dfs (reg_fuel ps) ps i s)
     (mkDfs [] [] [])).2.

(** One dependency of [validateDependencies]; the warnings are only logged. *)
Definition validate_dep (ps : list (string * IRegisteredPlugin)) (p : IRegisteredPlugin)
    (u : unit) (dep : string * string) : result registry_error unit :=
  match JsMap.get ps dep.1 with
  | None => Throw (MissingDependency (id p) dep.1)
  | Some d =>
      if negb (satisfies (version (metadata d)) dep.2)
      then Throw (VersionMismatch (id p) dep.1) else Ok tt
  end.

Definition validateDependencies (ps : list (string * IRegisteredPlugin))
  : result registry_error unit :=
  rfold (fun _ p => rfold (validate_dep ps p) tt (default [] (dependencies_decl (metadata p))))
    tt (JsMap.values ps).

Fixpoint visit (fuel : nat) (ps : list (string * IRegisteredPlugin)) (i : string)
  : stx visit_state registry_error unit := fun s =>
  match fuel with
  | O => (s, Throw RegistryFuel)
  | S fuel' =>
      if JsSet.has (v_visited s) i then (s, Ok tt)
      else if JsSet.has (temp s) i then (s, Ok tt)
      else
        let s1 := mkVisit (v_visited s) (JsSet.add (temp s) i) (v_result s) in
        match JsMap.get ps i with
        | None => (mkVisit (v_visited s1) (JsSet.del (temp s1) i) (v_result s1), Ok tt)
        | Some plugin =>
            match sfor (dependencies plugin) (visit fuel' ps) s1 with
            | (s2, Throw e) => (s2, Throw e)
            | (s2, Ok _) =>
                (mkVisit (JsSet.add (v_visited s2) i) (JsSet.del (temp s2) i)
                   (v_result s2 ++ [plugin]), Ok tt)
            end
        end
  end.

Definition priority (ps : list (string * IRegisteredPlugin)) (i : string) : option Z :=
  (fun p => default 100 (lifecycle (metadata p) ≫= loadPriority)) <$> JsMap.get ps i.

Definition by_priority (ps : list (string * IRegisteredPlugin)) (a b : string) : Z :=
  match priority ps a, priority ps b with
  | Some x, Some y => x - y
  | _, _ => 0
  end.

Definition topologicalSort (ps : list (string * IRegisteredPlugin))
  : result registry_error (list IRegisteredPlugin) :=
  let sortedIds := sort_by (by_priority ps) (JsMap.keys ps) in
  match sfor sortedIds (visit (reg_fuel ps) ps) (mkVisit [] [] []) with
  | (s, Ok _) => Ok (v_result s)
  | (_, Throw e) => Throw e
  end.

(** The registry keeps the rebuilt graph when a check throws. *)
Definition resolveDependencies : stx t registry_error (list IRegisteredPlugin) := fun r =>
  let ps := buildDependencyGraph (plugins r) in
  (set_plugins r ps,
   _ ← detectCycles ps; _ ← validateDependencies ps; topologicalSort ps).

Definition getUnloadOrder : stx t registry_error (list IRegisteredPlugin) :=
  order ← resolveDependencies; mret (reverse order).

Definition lookup_all (r : t) (ids : list string) : list IRegisteredPlugin :=
  omap (get r) ids.

Definition getDependents (r : t) (i : string) : list IRegisteredPlugin :=
  match get r i with Some p => lookup_all r (dependents p) | None => [] end.

Definition getDependencies (r : t) (i : string) : list IRegisteredPlugin :=
  match get r i with Some p => lookup_all r (dependencies p) | None => [] end.

Definition areDependenciesReady (r : t) (i : string) : bool :=
  match get r i with
  | None => false
  | Some p =>
      forallb (fun depId =>
        match get r depId with
        | Some dep => bool_decide (state dep = ENABLED)
        | None => false
        end) (dependencies p)
  end.

End PluginRegistry.
End PluginRegistry.
