(* ===== verification/PluginRegistryFacts.v ===== *)
(** * Facts about the plugin registry

    The registry stays well formed under every operation, the lifecycle is the
    declared automaton, and [resolveDependencies] returns a load order exactly
    when the declared dependencies are present, compatible and acyclic. *)

From S2P Require Import Prelude PluginData PluginRegistry.
Import PluginRegistry.

(** ** The two depth-first searches *)

Section search.
Context (ps : list (string * IRegisteredPlugin)).
Let K : list string := JsMap.keys ps.
Let deps : string → list string := deps_of ps.
Hypothesis HK : NoDup K.
Hypothesis Hid : ∀ i p, JsMap.get ps i = Some p → id p = i.
Hypothesis Hdeps : ∀ x d, d ∈ deps x → d ∈ K.

Lemma deps_dom x d : d ∈ deps x → x ∈ K.
Proof.
  unfold deps, deps_of, K. intros Hd. apply JsMap.elem_of_keys.
  destruct (JsMap.get ps x); [by eexists|by apply elem_of_nil in Hd].
Qed.

(** [F] holds the finished plugins in the order they finished. *)
Record dfs_inv (s : dfs_state) (F : list string) : Prop := {
  di_stack : recursionStack s = path s;
  di_path : NoDup (path s);
  di_visited : NoDup (visited s);
  di_sub : visited s ⊆ K;
  di_chain : dep_chain deps (path s);
  di_order : dep_order deps F;
  di_disj : ∀ x, x ∈ F → x ∉ path s;
  di_split : ∀ x, x ∈ visited s ↔ x ∈ F ∨ x ∈ path s
}.

(** The outcome of a search from [s]: progress, or a cycle. *)
Definition dfs_post (s : dfs_state) (F : list string) (want : list string)
    (r : dfs_state * result registry_error unit) : Prop :=
  match r with
  | (s', Ok _) => path s' = path s ∧ (length (visited s) ≤ length (visited s'))%nat ∧
      ∃ F', dfs_inv s' F' ∧ F ⊆ F' ∧ want ⊆ F'
  | (_, Throw (CircularDependency c _)) => dep_cycle deps c
  | _ => False
  end.

Lemma indexOf_split l x : x ∈ l → ∃ l1 l2, l = l1 ++ x :: l2 ∧ drop (indexOf l x) l = x :: l2.
Proof.
  induction l as [|y l IH]; [by intros ?%elem_of_nil|]. cbn [indexOf].
  destruct (decide (y = x)) as [->|Hne]; [by exists [], l|].
  intros [->|Hx]%elem_of_cons; [done|]. destruct (IH Hx) as (l1 & l2 & -> & Hd).
  exists (y :: l1), l2. split; [done|]. by rewrite skipn_cons.
Qed.

(** A dependency that is on the stack closes a cycle. *)
Lemma stack_cycle π i d :
  dep_chain deps (π ++ [i]) → d ∈ deps i → d ∈ π ++ [i] →
  dep_cycle deps (drop (indexOf (π ++ [i]) d) (π ++ [i]) ++ [d]).
Proof.
  intros Hc Hd Hin. destruct (indexOf_split _ _ Hin) as (l1 & l2 & Heq & ->).
  exists d, l2. split; [done|].
  pose proof (dep_chain_snoc deps π i d Hc Hd) as Hc'.
  assert (π ++ [i; d] = l1 ++ (d :: l2) ++ [d]) as Hs.
  { rewrite app_assoc, <-Heq, <-app_assoc. done. }
  rewrite Hs in Hc'. by eapply dep_chain_app_r.
Qed.

Definition dfs_body (fuel : nat) (i depId : string) : stx dfs_state registry_error unit := fun s' =>
  if negb (JsSet.has (visited s') depId) then dfs fuel ps depId s'
  else if JsSet.has (recursionStack s') depId
  then (s', Throw (CircularDependency (drop (indexOf (path s') depId) (path s') ++ [depId]) i))
  else (s', Ok tt).

(** The loop over the dependencies, given that the recursive calls are right. *)
Lemma dfs_loop fuel i π ds s F :
  (∀ s0 F0 j, dfs_inv s0 F0 → j ∈ K → j ∉ visited s0 → dep_chain deps (path s0 ++ [j]) →
     (length K < length (visited s0) + fuel)%nat → dfs_post s0 F0 [j] (dfs fuel ps j s0)) →
  dfs_inv s F → path s = π ++ [i] → (∀ d, d ∈ ds → d ∈ deps i) →
  (length K < length (visited s) + fuel)%nat →
  dfs_post s F ds (sfor ds (dfs_body fuel i) s).
Proof.
  intros IH. revert s F. induction ds as [|d ds IHds]; intros s F Hinv Hpath Hds Hlen.
  { cbn. split_and!; [done..|]. exists F. set_solver. }
  cbn [sfor]. unfold mbind, stx_bind.
  assert (d ∈ deps i) as Hd by (apply Hds; left).
  assert (∀ s' F', dfs_inv s' F' → path s' = path s → (length (visited s) ≤ length (visited s'))%nat →
    F ⊆ F' → d ∈ F' → dfs_post s F (d :: ds) (sfor ds (dfs_body fuel i) s')) as Hnext.
  { intros s' F' Hinv' Hp' Hle HF HdF.
    specialize (IHds s' F' Hinv' (eq_trans Hp' Hpath)
      (fun d' Hd' => Hds d' (list_elem_of_further _ _ _ Hd')) ltac:(lia)).
    destruct (sfor ds (dfs_body fuel i) s') as [s2 [u|[]]]; try done. cbn in IHds |- *.
    destruct IHds as (Hp2 & Hle2 & F2 & Hi2 & HF2 & Hw2).
    split_and!; [congruence|lia|]. exists F2. set_solver. }
  unfold dfs_body at 1. destruct (JsSet.has (visited s) d) eqn:Hv; cbn [negb].
  - apply JsSet.jset_has_spec in Hv. rewrite (di_stack _ _ Hinv).
    destruct (JsSet.has (path s) d) eqn:Hst.
    + apply JsSet.jset_has_spec in Hst. cbn. rewrite Hpath in Hst |- *.
      apply stack_cycle; [|done..]. rewrite <-Hpath. apply Hinv.
    + apply JsSet.jset_has_false in Hst. apply Hnext with (F' := F); [done..|].
      apply (di_split _ _ Hinv) in Hv. naive_solver.
  - apply JsSet.jset_has_false in Hv.
    assert (dfs_post s F [d] (dfs fuel ps d s)) as Hrec.
    { apply IH; [done|by eapply Hdeps|done| |done]. rewrite Hpath, <-app_assoc.
      apply dep_chain_snoc; [|done]. rewrite <-Hpath. apply Hinv. }
    destruct (dfs fuel ps d s) as [s' [u|[]]]; try done. cbn in Hrec.
    destruct Hrec as (Hp' & Hle & F' & Hi' & HF & Hw).
    apply Hnext with F'; try done. apply Hw. left.
Qed.

Lemma dfs_ok fuel s F i :
  dfs_inv s F → i ∈ K → i ∉ visited s → dep_chain deps (path s ++ [i]) →
  (length K < length (visited s) + fuel)%nat → dfs_post s F [i] (dfs fuel ps i s).
Proof.
  revert s F i. induction fuel as [|fuel IH]; intros s F i Hinv HiK Hiv Hch Hlen.
  { exfalso. pose proof (NoDup_submseteq _ _ (di_visited _ _ Hinv) (di_sub _ _ Hinv)) as Hs.
    apply submseteq_length in Hs. lia. }
  cbn [dfs]. set (s1 := mkDfs _ _ _).
  assert (i ∉ path s) as Hip by (intros Hi; apply Hiv, (di_split _ _ Hinv); by right).
  assert (visited s1 = visited s ++ [i]) as Hv1.
  { cbn. unfold JsSet.add. by rewrite (proj2 (JsSet.jset_has_false _ _)). }
  assert (recursionStack s1 = path s1) as Hr1.
  { cbn. unfold JsSet.add. rewrite (di_stack _ _ Hinv).
    by rewrite (proj2 (JsSet.jset_has_false _ _)). }
  assert (dfs_inv s1 F) as Hinv1.
  { destruct Hinv as [Hst Hp Hv Hsub Hc Ho Hdis Hsp]. constructor.
    - done.
    - cbn. apply NoDup_app. split_and!; [done|set_solver|apply NoDup_singleton].
    - rewrite Hv1. apply NoDup_app. split_and!; [done|set_solver|apply NoDup_singleton].
    - rewrite Hv1. set_solver.
    - exact Hch.
    - done.
    - intros x Hx. cbn. rewrite elem_of_app, list_elem_of_singleton. intros [?| ->].
      + by eapply Hdis.
      + apply Hiv, Hsp. by left.
    - intros x. rewrite Hv1. cbn. rewrite !elem_of_app, Hsp. tauto. }
  assert (dfs_post s1 F (deps i) (sfor (deps i) (dfs_body fuel i) s1)) as Hloop.
  { apply dfs_loop with (path s); [exact IH|done..|]. rewrite Hv1, length_app. cbn. lia. }
  unfold dfs_body in Hloop. fold (deps i).
  destruct (sfor (deps i) _ s1) as [s2 [u|[]]]; try done. cbn [dfs_post] in Hloop |- *.
  destruct Hloop as (Hp2 & Hle & F2 & Hinv2 & HF & Hw).
  change (path s1) with (path s ++ [i]) in Hp2.
  rewrite Hp2, removelast_last. rewrite Hv1, length_app in Hle. cbn in Hle.
  split_and!; [done|cbn [visited length] in *; lia|]. exists (F2 ++ [i]).
  assert (i ∉ F2) as HiF by (intros Hi; apply (di_disj _ _ Hinv2 i Hi); rewrite Hp2; set_solver).
  split_and!; [|set_solver..].
  destruct Hinv2 as [Hst Hp Hv Hsub Hc Ho Hdis Hsp]. rewrite Hp2 in Hst, Hp, Hc, Hdis, Hsp.
  constructor; cbn.
  - rewrite Hst. unfold JsSet.del. rewrite filter_app, filter_cons, filter_nil.
    rewrite decide_False, app_nil_r by naive_solver. apply filter_all, Forall_forall.
    by intros x Hx ->.
  - apply Hinv.
  - done.
  - done.
  - apply Hinv.
  - apply dep_order_snoc; [done|]. intros d Hd. by apply Hw.
  - intros x. rewrite elem_of_app, list_elem_of_singleton. intros [Hx| ->]; [|done].
    intros Hxp. apply (Hdis x Hx). cbn. set_solver.
  - intros x. rewrite Hsp. cbn. set_solver.
Qed.

(** [detectCycles] throws exactly for a cycle; when it returns there is none. *)
Lemma detectCycles_ok :
  match detectCycles ps with
  | Ok _ => acyclic_deps deps
  | Throw (CircularDependency c _) => dep_cycle deps c
  | Throw _ => False
  end.
Proof.
  unfold detectCycles. fold K.
  set (body := fun i s => if JsSet.has (visited s) i then (s, Ok tt) else dfs (reg_fuel ps) ps i s).
  assert (∀ ids s F, (∀ i, i ∈ ids → i ∈ K) → dfs_inv s F → path s = [] →
    dfs_post s F ids (sfor ids body s)) as Hloop.
  { induction ids as [|i ids IH]; intros s F Hin Hinv Hp.
    { cbn. split_and!; [done..|]. exists F. set_solver. }
    cbn [sfor]. unfold mbind, stx_bind.
    assert (∀ s' F', dfs_inv s' F' → path s' = [] → (length (visited s) ≤ length (visited s'))%nat →
      F ⊆ F' → i ∈ F' → dfs_post s F (i :: ids) (sfor ids body s')) as Hnext.
    { intros s' F' Hinv' Hp' Hle HF HiF.
      specialize (IH s' F' (fun d' Hd' => Hin d' (list_elem_of_further _ _ _ Hd')) Hinv' Hp').
      destruct (sfor ids body s') as [s2 [u|[]]]; try done. cbn in IH |- *.
      destruct IH as (Hp2 & Hle2 & F2 & Hi2 & HF2 & Hw2).
      split_and!; [congruence|lia|]. exists F2. set_solver. }
    unfold body at 1. destruct (JsSet.has (visited s) i) eqn:Hv.
    - apply Hnext with F; try done. apply JsSet.jset_has_spec in Hv.
      apply (di_split _ _ Hinv) in Hv. rewrite Hp in Hv. set_solver.
    - apply JsSet.jset_has_false in Hv.
      assert (dfs_post s F [i] (dfs (reg_fuel ps) ps i s)) as Hrec.
      { apply dfs_ok; [done|apply Hin; left|done|rewrite Hp; apply dep_chain_singleton|].
        unfold reg_fuel, K, JsMap.keys. rewrite length_fmap. lia. }
      destruct (dfs _ ps i s) as [s' [u|[]]]; try done. cbn in Hrec.
      destruct Hrec as (Hp' & Hle & F' & Hi' & HF & Hw).
      apply Hnext with F'; [done|congruence|done..|]. apply Hw. left. }
  assert (dfs_inv (mkDfs [] [] []) []) as Hinit.
  { constructor; cbn; try done; try constructor; try set_solver.
    - by intros [].
    - by intros []. }
  specialize (Hloop K _ _ (fun i Hi => Hi) Hinit eq_refl).
  destruct (sfor K body _) as [s [u|[]]]; try done. cbn in Hloop |- *.
  destruct Hloop as (_ & _ & F & Hinv & _ & HF).
  apply (dep_order_acyclic deps F); [apply Hinv|]. intros x d Hd. by eapply HF, deps_dom.
Qed.

(** The second search, on an acyclic graph. *)
Record visit_inv (s : visit_state) : Prop := {
  vi_visited : v_visited s = id <$> v_result s;
  vi_nodup : NoDup (v_visited s);
  vi_sub : v_visited s ⊆ K;
  vi_order : dep_order deps (v_visited s);
  vi_disj : ∀ x, x ∈ temp s → x ∉ v_visited s;
  vi_reg : ∀ p, p ∈ v_result s → JsMap.get ps (id p) = Some p
}.

Definition visit_post (s : visit_state) (want : list string)
    (r : visit_state * result registry_error unit) : Prop :=
  ∃ s', r = (s', Ok tt) ∧ visit_inv s' ∧ temp s' = temp s ∧
    v_visited s ⊆ v_visited s' ∧ want ⊆ v_visited s'.

Lemma visit_loop fuel rank r ds s :
  (∀ s0 j, visit_inv s0 → NoDup (temp s0) → temp s0 ⊆ K → j ∈ K →
     (∀ t, t ∈ temp s0 → rank j < rank t)%nat →
     (length K < length (temp s0) + fuel)%nat → visit_post s0 [j] (visit fuel ps j s0)) →
  visit_inv s → NoDup (temp s) → temp s ⊆ K → (∀ d, d ∈ ds → d ∈ K ∧ rank d < r)%nat →
  (∀ t, t ∈ temp s → r ≤ rank t)%nat → (length K < length (temp s) + fuel)%nat →
  visit_post s ds (sfor ds (visit fuel ps) s).
Proof.
  intros IH. revert s. induction ds as [|d ds IHds]; intros s Hinv Hnd Hsub Hds Hr Hlen.
  { exists s. set_solver. }
  cbn [sfor]. unfold mbind, stx_bind. destruct (Hds d) as [HdK Hdr]; [left|].
  destruct (IH s d) as (s1 & -> & Hinv1 & Ht1 & Hv1 & Hw1); [done..| |done|].
  { intros t Ht%Hr. lia. }
  destruct (IHds s1) as (s2 & -> & Hinv2 & Ht2 & Hv2 & Hw2); rewrite ?Ht1; try done.
  { intros d' Hd'. apply Hds. by right. }
  exists s2. split_and!; [done..|congruence| |]; set_solver.
Qed.

Lemma visit_ok rank fuel s i :
  (∀ x d, d ∈ deps x → rank d < rank x)%nat →
  visit_inv s → NoDup (temp s) → temp s ⊆ K → i ∈ K → (∀ t, t ∈ temp s → rank i < rank t)%nat →
  (length K < length (temp s) + fuel)%nat → visit_post s [i] (visit fuel ps i s).
Proof.
  intros Hrank. revert s i. induction fuel as [|fuel IH]; intros s i Hinv Hnd Hsub HiK Hr Hlen.
  { exfalso. apply NoDup_submseteq, submseteq_length in Hsub; [lia|done]. }
  cbn [visit]. destruct (JsSet.has (v_visited s) i) eqn:Hv.
  { apply JsSet.jset_has_spec in Hv. exists s. set_solver. }
  apply JsSet.jset_has_false in Hv. destruct (JsSet.has (temp s) i) eqn:Ht.
  { apply JsSet.jset_has_spec in Ht. apply Hr in Ht. lia. }
  pose proof Ht as Hti%JsSet.jset_has_false.
  set (s1 := mkVisit _ _ _).
  assert (temp s1 = temp s ++ [i]) as Ht1 by (cbn; unfold JsSet.add; by rewrite Ht).
  assert (deps i = from_option dependencies [] (JsMap.get ps i)) as Hdi by done.
  pose proof HiK as [p Hp]%JsMap.elem_of_keys. rewrite Hp in Hdi |- *. cbn [from_option] in Hdi.
  rewrite <-Hdi.
  destruct (visit_loop fuel rank (rank i) (deps i) s1) as (s2 & -> & Hinv2 & Ht2 & Hv2 & Hw2).
  - intros. by apply IH.
  - destruct Hinv as [H1 H2 H3 H4 H5 H6]. constructor; try done.
    rewrite Ht1. intros x [?| ->%list_elem_of_singleton]%elem_of_app; [by apply H5|done].
  - rewrite Ht1. apply NoDup_app. split_and!; [done|set_solver|apply NoDup_singleton].
  - rewrite Ht1. set_solver.
  - intros d Hd. split; [by eapply Hdeps|by apply Hrank].
  - rewrite Ht1. intros t [Hts| ->%list_elem_of_singleton]%elem_of_app; [apply Hr in Hts; lia|lia].
  - rewrite Ht1, length_app. cbn. lia.
  - change (v_visited s1) with (v_visited s) in Hv2.
    assert (i ∉ v_visited s2) as Hni by (apply Hinv2; rewrite Ht2, Ht1; set_solver).
    assert (JsSet.add (v_visited s2) i = v_visited s2 ++ [i]) as Hadd.
    { unfold JsSet.add. by rewrite (proj2 (JsSet.jset_has_false _ _)). }
    assert (JsSet.del (temp s2) i = temp s) as Hdel.
    { rewrite Ht2, Ht1. unfold JsSet.del. rewrite filter_app, filter_cons, filter_nil.
      rewrite decide_False, app_nil_r by naive_solver. apply filter_all, Forall_forall.
      by intros x Hx ->. }
    rewrite Hadd, Hdel. eexists. split; [done|]. cbn [temp v_visited].
    split_and!; [|done|set_solver|set_solver].
    destruct Hinv2 as [H1 H2 H3 H4 H5 H6]. constructor; cbn [temp v_visited v_result].
    + rewrite fmap_app, H1. cbn. by rewrite (Hid _ _ Hp).
    + apply NoDup_app. split_and!; [done| |apply NoDup_singleton].
      by intros x Hx ->%list_elem_of_singleton.
    + set_solver.
    + apply dep_order_snoc; [done|exact Hw2].
    + intros x Hx [Hx2| ->%list_elem_of_singleton]%elem_of_app; [|done].
      eapply H5; [|exact Hx2]. rewrite Ht2, Ht1. set_solver.
    + intros q [Hq| ->%list_elem_of_singleton]%elem_of_app; [by apply H6|].
      by rewrite (Hid _ _ Hp).
Qed.

Lemma insert_by_perm {A} (cmp : A → A → Z) x l : insert_by cmp x l ≡ₚ x :: l.
Proof.
  induction l as [|y l IH]; [done|]. cbn [insert_by]. case_decide; [done|].
  rewrite IH. constructor.
Qed.

Lemma sort_by_perm {A} (cmp : A → A → Z) l : sort_by cmp l ≡ₚ l.
Proof.
  unfold sort_by. induction l as [|x l IH]; [done|]. cbn [foldr].
  by rewrite insert_by_perm, IH.
Qed.

Lemma topologicalSort_ok :
  acyclic_deps deps →
  ∃ out, topologicalSort ps = Ok out ∧ id <$> out ≡ₚ K ∧ dep_order deps (id <$> out) ∧
    ∀ p, p ∈ out → JsMap.get ps (id p) = Some p.
Proof.
  intros [rank Hrank]. unfold topologicalSort. fold K.
  destruct (visit_loop (reg_fuel ps) rank (S (max_list (rank <$> K)))
    (sort_by (by_priority ps) K) (mkVisit [] [] [])) as (s & -> & Hinv & _ & _ & Hw).
  - intros. by apply visit_ok with rank.
  - constructor; cbn; try done; try constructor; try set_solver. by intros [].
  - constructor.
  - set_solver.
  - intros d Hd. rewrite sort_by_perm in Hd. split; [done|].
    assert (rank d ≤ max_list (rank <$> K))%nat; [|lia].
    apply max_list_elem_of_le. by apply list_elem_of_fmap_2.
  - set_solver.
  - unfold reg_fuel, K, JsMap.keys. rewrite length_fmap. cbn. lia.
  - exists (v_result s). destruct Hinv as [H1 H2 H3 H4 _ H6]. rewrite <-H1.
    split_and!; [done| |done|done]. apply NoDup_Permutation; [done..|].
    intros x. split; [apply H3|]. intros Hx. apply Hw. by rewrite sort_by_perm.
Qed.
End search.

(** ** The links between plugins *)

Section links.
Implicit Types ps : list (string * IRegisteredPlugin).

Lemma get_update ps i f j :
  JsMap.get (update ps i f) j
  = if decide (i = j) then f <$> JsMap.get ps j else JsMap.get ps j.
Proof.
  unfold update. destruct (JsMap.get ps i) eqn:Hi.
  - rewrite JsMap.get_set. case_decide as Hd; [|done]. subst. by rewrite Hi.
  - case_decide as Hd; [|done]. subst. by rewrite Hi.
Qed.

Lemma keys_update ps i f : JsMap.keys (update ps i f) = JsMap.keys ps.
Proof.
  unfold update. destruct (JsMap.get ps i) eqn:Hi; [|done].
  rewrite JsMap.keys_set. unfold JsMap.has. by rewrite Hi.
Qed.

Lemma keys_link i ps d : JsMap.keys (link i ps d) = JsMap.keys ps.
Proof. unfold link. destruct (JsMap.has ps d); [|done]. by rewrite !keys_update. Qed.

(** Links aside, the records do not change. *)
Lemma core_link i ps d j : clear_deps <$> JsMap.get (link i ps d) j = clear_deps <$> JsMap.get ps j.
Proof.
  unfold link. destruct (JsMap.has ps d); [|done].
  rewrite !get_update. repeat case_decide; by destruct (JsMap.get ps j).
Qed.

Definition dependents_of ps (i : string) : list string :=
  from_option dependents [] (JsMap.get ps i).

Lemma link_deps i ps d x y :
  i ∈ JsMap.keys ps →
  y ∈ deps_of (link i ps d) x ↔ y ∈ deps_of ps x ∨ x = i ∧ y = d ∧ d ∈ JsMap.keys ps.
Proof.
  intros Hi. unfold link, deps_of. destruct (JsMap.has ps d) eqn:Hd.
  - apply JsMap.has_spec in Hd. rewrite !get_update. apply JsMap.elem_of_keys in Hi as [p Hp].
    destruct (decide (i = x)) as [->|Hix].
    + rewrite Hp. destruct (decide (d = x)); cbn; rewrite JsSet.elem_of_add; naive_solver.
    + destruct (decide (d = x)); destruct (JsMap.get ps x); cbn; naive_solver.
  - split; [by left|]. intros [?|(_ & _ & Hk)]; [done|]. apply JsMap.has_spec in Hk. congruence.
Qed.

Lemma link_dependents i ps d x y :
  y ∈ dependents_of (link i ps d) x
  ↔ y ∈ dependents_of ps x ∨ x = d ∧ y = i ∧ d ∈ JsMap.keys ps.
Proof.
  unfold link, dependents_of. destruct (JsMap.has ps d) eqn:Hd.
  - apply JsMap.has_spec in Hd. rewrite !get_update. pose proof Hd as [p Hp]%JsMap.elem_of_keys.
    destruct (decide (d = x)) as [->|Hdx].
    + rewrite Hp. destruct (decide (i = x)); cbn; rewrite JsSet.elem_of_add; naive_solver.
    + destruct (decide (i = x)); destruct (JsMap.get ps x); cbn; naive_solver.
  - split; [by left|]. intros [?|(_ & _ & Hk)]; [done|]. apply JsMap.has_spec in Hk. congruence.
Qed.

(** What linking adds to a graph: the declared edges [E] between plugins. *)
Record linked ps ps' (E : string → string → Prop) : Prop := {
  lk_keys : JsMap.keys ps' = JsMap.keys ps;
  lk_core : ∀ j, clear_deps <$> JsMap.get ps' j = clear_deps <$> JsMap.get ps j;
  lk_deps : ∀ x y, y ∈ deps_of ps' x ↔ y ∈ deps_of ps x ∨ E x y;
  lk_dependents : ∀ x y, y ∈ dependents_of ps' x ↔ y ∈ dependents_of ps x ∨ E y x
}.

Lemma linked_names i ps ds :
  i ∈ JsMap.keys ps →
  linked ps (foldl (link i) ps ds) (fun x y => x = i ∧ y ∈ ds ∧ y ∈ JsMap.keys ps).
Proof.
  revert ps. induction ds as [|d ds IH]; intros ps Hi; cbn [foldl]; [constructor; set_solver|].
  destruct (IH (link i ps d)) as [H1 H2 H3 H4]; [by rewrite keys_link|].
  rewrite keys_link in H1. constructor.
  - done.
  - intros j. by rewrite H2, core_link.
  - intros x y. rewrite H3, keys_link, link_deps by done. set_solver.
  - intros x y. rewrite H4, keys_link, link_dependents. set_solver.
Qed.

Lemma linked_all ps (l : list (string * IRegisteredPlugin)) :
  (∀ i p, (i, p) ∈ l → i ∈ JsMap.keys ps) →
  linked ps (foldl (fun ps' '(i, p) => foldl (link i) ps' (dep_names p)) ps l)
    (fun x y => ∃ p, (x, p) ∈ l ∧ y ∈ dep_names p ∧ y ∈ JsMap.keys ps).
Proof.
  revert ps. induction l as [|[i p] l IH]; intros ps Hin; cbn [foldl]; [constructor; set_solver|].
  destruct (linked_names i ps (dep_names p)) as [G1 G2 G3 G4]; [apply (Hin i p); left|].
  destruct (IH (foldl (link i) ps (dep_names p))) as [H1 H2 H3 H4].
  { intros j q Hj. rewrite G1. apply (Hin j q). by right. }
  setoid_rewrite G1 in H3. setoid_rewrite G1 in H4. constructor.
  - congruence.
  - intros j. by rewrite H2, G2.
  - intros x y. rewrite H3, G3. setoid_rewrite elem_of_cons. naive_solver.
  - intros x y. rewrite H4, G4. setoid_rewrite elem_of_cons. naive_solver.
Qed.
End links.

(** ** Dependency resolution *)

Section resolution.
Context (Listener : Type) `{EqDecision Listener} (satisfies : string → string → bool).
Implicit Types ps : list (string * IRegisteredPlugin).

(** One entry per name, under the name of its metadata. *)
Definition registry_wf ps : Prop :=
  JsMap.wf ps ∧ ∀ i p, JsMap.get ps i = Some p → id p = i ∧ name (metadata p) = i.

(** The names a plugin declares to depend on. *)
Definition declared ps (i : string) : list string := from_option dep_names [] (JsMap.get ps i).

(** A declared dependency is registered in a version of the range. *)
Definition dependencies_met ps : Prop :=
  ∀ i p d range, JsMap.get ps i = Some p →
    (d, range) ∈ default [] (dependencies_decl (metadata p)) →
    ∃ q, JsMap.get ps d = Some q ∧ satisfies (version (metadata q)) range = true.

Definition clear_entry (ip : string * IRegisteredPlugin) : string * IRegisteredPlugin :=
  (ip.1, clear_deps ip.2).

Lemma get_cleared ps i : JsMap.get (clear_entry <$> ps) i = clear_deps <$> JsMap.get ps i.
Proof.
  induction ps as [|[j p] ps IH]; [done|]. csimpl. by case_decide.
Qed.

Lemma build_eq ps :
  buildDependencyGraph ps
  = foldl (fun ps' '(i, p) => foldl (link i) ps' (dep_names p)) (clear_entry <$> ps)
      (clear_entry <$> ps).
Proof.
  unfold buildDependencyGraph.
  assert (((fun '(i, p) => (i, clear_deps p)) <$> ps) = (clear_entry <$> ps)) as ->; [|done].
  apply list_fmap_ext. by intros ? [].
Qed.

Lemma build_spec ps :
  registry_wf ps →
  JsMap.keys (buildDependencyGraph ps) = JsMap.keys ps ∧
  (∀ i, clear_deps <$> JsMap.get (buildDependencyGraph ps) i = clear_deps <$> JsMap.get ps i) ∧
  (∀ x y, y ∈ deps_of (buildDependencyGraph ps) x ↔ y ∈ declared ps x ∧ y ∈ JsMap.keys ps) ∧
  (∀ x y, y ∈ dependents_of (buildDependencyGraph ps) x ↔ x ∈ declared ps y ∧ x ∈ JsMap.keys ps).
Proof.
  intros [Hnd Hid]. rewrite build_eq.
  assert (JsMap.keys (clear_entry <$> ps) = JsMap.keys ps) as Hk.
  { unfold JsMap.keys. rewrite <-list_fmap_compose. by apply list_fmap_ext. }
  destruct (linked_all (clear_entry <$> ps) (clear_entry <$> ps)) as [H1 H2 H3 H4].
  { intros i p Hin. apply list_elem_of_fmap. by exists (i, p). }
  assert (∀ x y, (∃ p, (x, p) ∈ clear_entry <$> ps ∧ y ∈ dep_names p ∧
    y ∈ JsMap.keys (clear_entry <$> ps)) ↔ y ∈ declared ps x ∧ y ∈ JsMap.keys ps) as HE.
  { intros x y. rewrite Hk. unfold declared. split.
    - intros (p & ([i q] & [= -> ->] & Hin)%list_elem_of_fmap & Hy & HyK).
      rewrite (JsMap.elem_of_get _ _ _ Hnd Hin). done.
    - intros [Hy HyK]. destruct (JsMap.get ps x) as [p|] eqn:Hp; [|by apply elem_of_nil in Hy].
      exists (clear_deps p). split_and!; [|done..]. apply list_elem_of_fmap.
      exists (x, p). split; [done|]. by apply JsMap.get_elem_of. }
  assert (∀ x, deps_of (clear_entry <$> ps) x = []) as Hd0.
  { intros x. unfold deps_of. rewrite get_cleared. by destruct (JsMap.get ps x). }
  assert (∀ x, dependents_of (clear_entry <$> ps) x = []) as Hd1.
  { intros x. unfold dependents_of. rewrite get_cleared. by destruct (JsMap.get ps x). }
  split_and!.
  - by rewrite H1.
  - intros i. rewrite H2, get_cleared. by destruct (JsMap.get ps i).
  - intros x y. rewrite H3, Hd0, HE, elem_of_nil. tauto.
  - intros x y. rewrite H4, Hd1, HE, elem_of_nil. tauto.
Qed.

(** What does not depend on the links. *)
Lemma core_get {ps ps' : list (string * IRegisteredPlugin)} {i p'} :
  (∀ i, clear_deps <$> JsMap.get ps' i = clear_deps <$> JsMap.get ps i) →
  JsMap.get ps' i = Some p' →
  ∃ p, JsMap.get ps i = Some p ∧ id p' = id p ∧ metadata p' = metadata p ∧ state p' = state p ∧
    loadedAt p' = loadedAt p ∧ enabledAt p' = enabledAt p ∧ error p' = error p.
Proof.
  intros Hc Hp. specialize (Hc i). rewrite Hp in Hc. destruct (JsMap.get ps i) as [p|]; [|done].
  injection Hc as Hc. exists p. destruct p, p'. by simplify_eq/=.
Qed.

Lemma validate_spec ps :
  registry_wf ps →
  match validateDependencies satisfies ps with
  | Ok _ => dependencies_met ps
  | Throw (MissingDependency i d) => d ∈ declared ps i ∧ d ∉ JsMap.keys ps
  | Throw (VersionMismatch i d) => ∃ p q range, JsMap.get ps i = Some p ∧
      (d, range) ∈ default [] (dependencies_decl (metadata p)) ∧
      JsMap.get ps d = Some q ∧ satisfies (version (metadata q)) range = false
  | Throw _ => False
  end.
Proof.
  intros [Hnd Hid]. unfold validateDependencies, dependencies_met.
  assert (∀ p ds, match rfold (validate_dep satisfies ps p) tt ds with
    | Ok _ => ∀ d range, (d, range) ∈ ds →
        ∃ q, JsMap.get ps d = Some q ∧ satisfies (version (metadata q)) range = true
    | Throw (MissingDependency i d) => i = id p ∧ d ∈ ds.*1 ∧ d ∉ JsMap.keys ps
    | Throw (VersionMismatch i d) => i = id p ∧ ∃ q range, (d, range) ∈ ds ∧
        JsMap.get ps d = Some q ∧ satisfies (version (metadata q)) range = false
    | Throw _ => False
    end) as Hin.
  { intros p. induction ds as [|[d range] ds IH]; [set_solver|]. cbn [rfold].
    unfold validate_dep at 2. cbn [fst snd]. destruct (JsMap.get ps d) as [q|] eqn:Hq.
    - destruct (satisfies (version (metadata q)) range) eqn:Hs; cbn [negb mbind result_bind].
      + destruct (rfold _ tt ds) as [u|[]]; try done.
        * intros d' r' [[= -> ->]|Hd']%elem_of_cons; [eauto|auto].
        * destruct IH as (-> & ? & ?). csimpl. split_and!; [done|by right|done].
        * destruct IH as (-> & q' & r' & ? & ?). split; [done|]. exists q', r'.
          split; [by right|done].
      + split; [done|]. exists q, range. split; [left|done].
    - cbn. split_and!; [done|left|]. rewrite JsMap.elem_of_keys, Hq. by intros []. }
  assert (∀ l, (∀ p, p ∈ l → JsMap.get ps (id p) = Some p) →
    match rfold (fun _ p => rfold (validate_dep satisfies ps p) tt
                   (default [] (dependencies_decl (metadata p)))) tt l with
    | Ok _ => ∀ p d range, p ∈ l → (d, range) ∈ default [] (dependencies_decl (metadata p)) →
        ∃ q, JsMap.get ps d = Some q ∧ satisfies (version (metadata q)) range = true
    | Throw (MissingDependency i d) => d ∈ declared ps i ∧ d ∉ JsMap.keys ps
    | Throw (VersionMismatch i d) => ∃ p q range, JsMap.get ps i = Some p ∧
        (d, range) ∈ default [] (dependencies_decl (metadata p)) ∧
        JsMap.get ps d = Some q ∧ satisfies (version (metadata q)) range = false
    | Throw _ => False
    end) as Hout.
  { induction l as [|p l IH]; intros Hl; [set_solver|]. cbn [rfold].
    assert (JsMap.get ps (id p) = Some p) as Hp by (apply Hl; left).
    specialize (Hin p (default [] (dependencies_decl (metadata p)))).
    destruct (rfold (validate_dep satisfies ps p) tt _) as [[]|[]]; cbn [mbind result_bind]; try done.
    - specialize (IH (fun q Hq => Hl q (list_elem_of_further _ _ _ Hq))).
      destruct (rfold _ tt l) as [u'|[]]; try done.
      intros q d range [->|Hq]%elem_of_cons; [apply Hin|by eapply IH].
    - destruct Hin as (-> & Hd & HK). split; [|done]. unfold declared. by rewrite Hp.
    - destruct Hin as (-> & q & range & ? & ? & ?). by exists p, q, range. }
  assert (∀ p, p ∈ JsMap.values ps → JsMap.get ps (id p) = Some p) as Hvals.
  { intros p ([i q] & -> & Hp)%list_elem_of_fmap.
    apply JsMap.elem_of_get in Hp; [|done]. cbn. by rewrite (proj1 (Hid _ _ Hp)). }
  specialize (Hout (JsMap.values ps) Hvals).
  destruct (rfold _ tt (JsMap.values ps)) as [u|[]]; try done.
  intros i p d range Hp Hd. eapply Hout; [|exact Hd].
  apply list_elem_of_fmap. exists (i, p). split; [done|]. by apply JsMap.get_elem_of.
Qed.

(** The graph of the declared dependencies between registered plugins. *)
Definition registered_deps ps (i : string) : list string :=
  filter (.∈ JsMap.keys ps) (declared ps i).

Lemma dep_relation_equiv (d1 d2 : string → list string) :
  (∀ x y, y ∈ d1 x ↔ y ∈ d2 x) →
  (acyclic_deps d1 ↔ acyclic_deps d2) ∧ (∀ l, dep_order d1 l ↔ dep_order d2 l) ∧
  (∀ c, dep_cycle d1 c ↔ dep_cycle d2 c).
Proof.
  intros Heq. unfold acyclic_deps, dep_order, dep_cycle, dep_chain.
  split_and!; setoid_rewrite Heq; done.
Qed.

Lemma resolve_cases (r : t Listener) :
  registry_wf (plugins _ r) →
  let ps := plugins _ r in
  match (resolveDependencies _ satisfies r).2 with
  | Ok out => acyclic_deps (registered_deps ps) ∧ dependencies_met ps ∧
      id <$> out ≡ₚ JsMap.keys ps ∧ dep_order (registered_deps ps) (id <$> out) ∧
      ∀ p, p ∈ out → JsMap.get (buildDependencyGraph ps) (id p) = Some p
  | Throw (CircularDependency c _) => dep_cycle (registered_deps ps) c
  | Throw (MissingDependency i d) => d ∈ declared ps i ∧ d ∉ JsMap.keys ps
  | Throw (VersionMismatch i d) => ∃ p q range, JsMap.get ps i = Some p ∧
      (d, range) ∈ default [] (dependencies_decl (metadata p)) ∧
      JsMap.get ps d = Some q ∧ satisfies (version (metadata q)) range = false
  | Throw _ => False
  end.
Proof.
  intros Hwf ps. cbn [snd resolveDependencies]. fold ps. fold ps in Hwf.
  destruct (build_spec ps Hwf) as (Hk & Hcore & Hd & _). set (g := buildDependencyGraph ps) in *.
  assert (∀ i p, JsMap.get g i = Some p → id p = i ∧ name (metadata p) = i) as Hgid.
  { intros i p (q & Hq & -> & -> & _)%(core_get Hcore). by apply Hwf. }
  assert (registry_wf g) as Hgwf.
  { split; [|done]. unfold JsMap.wf. rewrite Hk. apply Hwf. }
  assert (∀ x y, y ∈ deps_of g x ↔ y ∈ registered_deps ps x) as Heq.
  { intros x y. rewrite Hd. unfold registered_deps. rewrite list_elem_of_filter. tauto. }
  destruct (dep_relation_equiv _ _ Heq) as (Hacy & Hord & Hcyc).
  assert (∀ x d, d ∈ deps_of g x → d ∈ JsMap.keys g) as Hdom.
  { intros x d Hx. rewrite Hk. by apply Hd in Hx as [_ ?]. }
  assert (∀ i p, JsMap.get g i = Some p → id p = i) as Hgid1 by (intros; by apply Hgid).
  assert (NoDup (JsMap.keys g)) as HgK by apply Hgwf.
  pose proof (detectCycles_ok g HgK Hgid1 Hdom) as Hdet.
  destruct (detectCycles g) as [u|[]]; cbn [mbind result_bind]; try done; [|by apply Hcyc].
  pose proof (validate_spec g Hgwf) as Hval.
  destruct (validateDependencies satisfies g) as [u'|[]]; cbn [mbind result_bind]; try done.
  - destruct (topologicalSort_ok g HgK Hgid1 Hdom Hdet) as (out & -> & Hperm & Hto & Hreg).
    split_and!; [by apply Hacy| |by rewrite Hperm, Hk|by apply Hord|done].
    intros i p d range Hp Hdr. assert (∃ p', JsMap.get g i = Some p') as [p' Hp'].
    { apply JsMap.elem_of_keys. rewrite Hk. apply JsMap.elem_of_keys. by eexists. }
    destruct (core_get Hcore Hp') as (p0 & Hp0 & _ & Hm & _). simplify_eq. rewrite <-Hm in Hdr.
    destruct (Hval i p' d range Hp' Hdr) as (q & Hq & Hs).
    destruct (core_get Hcore Hq) as (q0 & Hq0 & _ & Hmq & _). exists q0. by rewrite <-Hmq.
  - destruct Hval as [H1 H2]. rewrite Hk in H2. split; [|done]. revert H1. unfold declared.
    destruct (JsMap.get g pluginId) as [p|] eqn:Hp; [|by intros ?%elem_of_nil].
    destruct (core_get Hcore Hp) as (p0 & -> & _ & Hm & _). cbn. unfold dep_names. by rewrite Hm.
  - destruct Hval as (p & q & range & Hp & Hdr & Hq & Hs).
    destruct (core_get Hcore Hp) as (p0 & Hp0 & _ & Hm & _).
    destruct (core_get Hcore Hq) as (q0 & Hq0 & _ & Hmq & _).
    exists p0, q0, range. rewrite <-Hm, <-Hmq. done.
Qed.

(** [resolveDependencies] returns a load order exactly when the declared
    dependencies are present, in a version of their range, and without a
    cycle; otherwise it throws. *)
Theorem resolveDependencies_decides (r : t Listener) :
  registry_wf (plugins _ r) →
  (∃ out, (resolveDependencies _ satisfies r).2 = Ok out) ↔
  acyclic_deps (registered_deps (plugins _ r)) ∧ dependencies_met (plugins _ r).
Proof.
  intros Hwf. pose proof (resolve_cases r Hwf) as Hres. cbv zeta in Hres.
  destruct (resolveDependencies _ satisfies r).2 as [out|e] eqn:Hr.
  - split; [|eauto]. intros _. tauto.
  - split; [by intros [? ?]|]. intros [Hac Hmet]. exfalso.
    destruct e; try done.
    + by eapply dep_cycle_not_acyclic.
    + destruct Hres as [Hd Hni]. unfold declared in Hd.
      destruct (JsMap.get (plugins _ r) pluginId) as [p|] eqn:Hp; [|by apply elem_of_nil in Hd].
      apply list_elem_of_fmap in Hd as ([d range] & -> & Hin).
      destruct (Hmet _ p _ _ Hp Hin) as (q & Hq & _). apply Hni, JsMap.elem_of_keys. by eexists.
    + destruct Hres as (p & q & range & Hp & Hin & Hq & Hs).
      destruct (Hmet _ p _ _ Hp Hin) as (q' & Hq' & Hs'). simplify_eq. congruence.
Qed.

Lemma resolveDependencies_load_order (r : t Listener) out :
  registry_wf (plugins _ r) →
  (resolveDependencies _ satisfies r).2 = Ok out →
  id <$> out ≡ₚ JsMap.keys (plugins _ r) ∧
  dep_order (declared (plugins _ r)) (id <$> out) ∧
  dependencies_met (plugins _ r) ∧
  (getUnloadOrder _ satisfies r).2 = Ok (reverse out).
Proof.
  intros Hwf Hr. pose proof (resolve_cases r Hwf) as Hres. cbv zeta in Hres.
  rewrite Hr in Hres. destruct Hres as (_ & Hmet & Hperm & Ho & _). split_and!; [done| |done|].
  - intros l1 x l2 Heq d Hd. apply (Ho l1 x l2 Heq).
    unfold registered_deps. apply list_elem_of_filter. split; [|done].
    unfold declared in Hd. destruct (JsMap.get (plugins _ r) x) as [p|] eqn:Hp;
      [|by apply elem_of_nil in Hd].
    apply list_elem_of_fmap in Hd as ([d' range] & -> & Hin).
    destruct (Hmet _ p _ _ Hp Hin) as (q & Hq & _). apply JsMap.elem_of_keys. by eexists.
  - unfold getUnloadOrder, mbind, stx_bind.
    destruct (resolveDependencies _ satisfies r) as [r' res]. cbn in Hr. by subst.
Qed.

(** C39: The load order has every plugin once, after all the plugins it
    declares to depend on, and those are registered in a compatible version;
    the unload order has the dependents first. *)
Theorem resolveDependencies_order (r : t Listener) out :
  registry_wf (plugins _ r) →
  (resolveDependencies _ satisfies r).2 = Ok out →
  id <$> out ≡ₚ JsMap.keys (plugins _ r) ∧
  dep_order (declared (plugins _ r)) (id <$> out) ∧
  dependencies_met (plugins _ r) ∧
  (getUnloadOrder _ satisfies r).2 = Ok (reverse out).
Proof. apply resolveDependencies_load_order. Qed.

(** A refusal is justified: the reported cycle is a cycle of declared
    dependencies, a reported missing or incompatible dependency is declared and
    absent or outside its range; no search runs out. *)
Theorem resolveDependencies_errors (r : t Listener) e :
  registry_wf (plugins _ r) →
  (resolveDependencies _ satisfies r).2 = Throw e →
  match e with
  | CircularDependency c _ => dep_cycle (registered_deps (plugins _ r)) c
  | MissingDependency i d => d ∈ declared (plugins _ r) i ∧ d ∉ JsMap.keys (plugins _ r)
  | VersionMismatch i d => ∃ p q range, JsMap.get (plugins _ r) i = Some p ∧
      (d, range) ∈ default [] (dependencies_decl (metadata p)) ∧
      JsMap.get (plugins _ r) d = Some q ∧ satisfies (version (metadata q)) range = false
  | _ => False
  end.
Proof.
  intros Hwf Hr. pose proof (resolve_cases r Hwf) as Hres. cbv zeta in Hres.
  rewrite Hr in Hres. by destruct e.
Qed.

(** ** Lifecycle *)

(** The operations of the registry, with any arguments. *)
Inductive reg_step : t Listener → t Listener → Prop :=
| step_register r file meta r' p :
    register _ r file meta = Ok (r', p) → reg_step r r'
| step_unregister r i : reg_step r (unregister _ r i)
| step_setState now1 now2 r i s e r' :
    setState _ now1 now2 r i s e = Ok r' → reg_step r r'
| step_resolve r : reg_step r (resolveDependencies _ satisfies r).1
| step_on r l : reg_step r (onStateChange _ r l)
| step_off r l : reg_step r (offStateChange _ r l).

Definition reachable (r : t Listener) : Prop := rtc reg_step (initial _) r.

(** The states a plugin is in only after its code was loaded. *)
Definition after_load (s : PluginState) : bool :=
  match s with
  | LOADED | SYNCING | ENABLED | DISABLED | CRASHED | UNLOADING => true
  | _ => false
  end.

Definition plugin_ok (i : string) (p : IRegisteredPlugin) : Prop :=
  id p = i ∧ name (metadata p) = i ∧
  (after_load (state p) = true → is_Some (loadedAt p)) ∧
  (state p = ENABLED → is_Some (enabledAt p)).

(** A recorded dependent is registered, and depends on the plugin. *)
Definition links_ok ps : Prop := ∀ x y, y ∈ dependents_of ps x → x ∈ deps_of ps y.

Record registry_inv (r : t Listener) : Prop := {
  ri_wf : JsMap.wf (plugins _ r);
  ri_plugins : ∀ i p, JsMap.get (plugins _ r) i = Some p → plugin_ok i p;
  ri_links : links_ok (plugins _ r);
  ri_listeners : NoDup (stateListeners _ r);
  ri_notified : ∀ l c, (l, c) ∈ notified _ r →
    newState c ∈ VALID_STATE_TRANSITIONS (previousState c)
}.

Lemma registry_inv_wf r : registry_inv r → registry_wf (plugins _ r).
Proof. intros [Hnd Hp _ _ _]. split; [done|]. intros i p Hi%Hp. by destruct Hi as (? & ? & _). Qed.

Lemma links_ok_set ps i p :
  links_ok ps →
  dependents p ⊆ dependents_of ps i →
  (∀ x, x ∈ deps_of ps i → x ∈ dependencies p) →
  links_ok (JsMap.set ps i p).
Proof.
  intros Hl Hsub Hsup x y. unfold dependents_of, deps_of. rewrite !JsMap.get_set.
  intros Hy. assert (x ∈ deps_of ps y) as Hxy.
  { apply Hl. destruct (decide (i = x)) as [->|]; [by apply Hsub|done]. }
  destruct (decide (i = y)) as [->|]; [by apply Hsup|done].
Qed.

Lemma inv_register r file meta r' p :
  registry_inv r → register _ r file meta = Ok (r', p) → registry_inv r'.
Proof.
  intros [Hnd Hp Hl Hli Hno]. unfold register. destruct (JsMap.has _ _) eqn:Hh; [done|].
  intros [= <- <-]. constructor; cbn; try done.
  - by apply JsMap.wf_set.
  - intros i q. rewrite JsMap.get_set. case_decide as Hi; [|by apply Hp].
    intros [= <-]. by repeat split.
  - apply links_ok_set; [done|apply list_subseteq_nil|]. unfold deps_of, JsMap.has in *.
    destruct (JsMap.get _ _); [done|]. by intros x ?%elem_of_nil.
Qed.

(** Removing a name from the dependents of the given plugins. *)
Definition drop_dependent (i : string) ps (d : string) :=
  update ps d (set_dependents (fun l => JsSet.del l i)).

Lemma drop_dependents_spec i ds ps :
  let ps' := foldl (drop_dependent i) ps ds in
  JsMap.keys ps' = JsMap.keys ps ∧
  (∀ j, deps_of ps' j = deps_of ps j) ∧
  (∀ j p', JsMap.get ps' j = Some p' → ∃ p, JsMap.get ps j = Some p ∧ clear_deps p' = clear_deps p) ∧
  (∀ x y, y ∈ dependents_of ps' x ↔ y ∈ dependents_of ps x ∧ (x ∈ ds → y ≠ i)).
Proof.
  revert ps. induction ds as [|d ds IH]; intros ps; cbn [foldl].
  { split_and!; [done|done|eauto|set_solver]. }
  destruct (IH (drop_dependent i ps d)) as (H1 & H2 & H3 & H4).
  assert (∀ j, deps_of (drop_dependent i ps d) j = deps_of ps j) as Hd.
  { intros j. unfold deps_of, drop_dependent. rewrite get_update.
    case_decide; [|done]. by destruct (JsMap.get ps j). }
  split_and!.
  - by rewrite H1; apply keys_update.
  - intros j. by rewrite H2, Hd.
  - intros j p' (p & Hp & Hc)%H3. unfold drop_dependent in Hp. rewrite get_update in Hp.
    case_decide; [|by eauto]. destruct (JsMap.get ps j) as [q|]; [|done].
    injection Hp as <-. by exists q.
  - intros x y. rewrite H4. unfold drop_dependent, dependents_of. rewrite get_update.
    case_decide as Hdx.
    + destruct (JsMap.get ps x) as [q|]; cbn; [|set_solver].
      rewrite JsSet.elem_of_del. set_solver.
    + set_solver.
Qed.

Lemma inv_unregister r i : registry_inv r → registry_inv (unregister _ r i).
Proof.
  intros Hinv. pose proof Hinv as [Hnd Hp Hl Hli Hno]. unfold unregister.
  destruct (JsMap.get (plugins _ r) i) as [p|] eqn:Hi; [|done].
  change (foldl _ (plugins _ r) (dependencies p))
    with (foldl (drop_dependent i) (plugins _ r) (dependencies p)).
  destruct (drop_dependents_spec i (dependencies p) (plugins _ r)) as (H1 & H2 & H3 & H4).
  set (ps := foldl _ _ _) in *.
  assert (deps_of (plugins _ r) i = dependencies p) as Hdi by (unfold deps_of; by rewrite Hi).
  constructor; cbn; try done.
  - apply JsMap.wf_del. unfold JsMap.wf. by rewrite H1.
  - intros j q. destruct (decide (i = j)) as [->|Hij]; [by rewrite JsMap.get_del_eq|].
    rewrite JsMap.get_del_ne by done. intros (q0 & Hq0 & Hc)%H3. apply Hp in Hq0.
    destruct q, q0. cbn in Hc. simplify_eq/=. done.
  - intros x y. unfold dependents_of, deps_of.
    destruct (decide (i = x)) as [->|Hix];
      [rewrite JsMap.get_del_eq; cbn; by intros ?%elem_of_nil|].
    rewrite (JsMap.get_del_ne _ i x) by done. change (from_option dependents [] _) with (dependents_of ps x).
    intros [Hy Hne]%H4. apply Hl in Hy. destruct (decide (i = y)) as [->|Hiy].
    + rewrite Hdi in Hy. by apply Hne in Hy.
    + rewrite JsMap.get_del_ne by done. change (x ∈ deps_of ps y). by rewrite H2.
Qed.

Lemma inv_setState now1 now2 r i s e r' :
  registry_inv r → setState _ now1 now2 r i s e = Ok r' → registry_inv r'.
Proof.
  intros [Hnd Hp Hl Hli Hno]. unfold setState.
  destruct (JsMap.get (plugins _ r) i) as [p|] eqn:Hi; [|done].
  destruct (isValidStateTransition (state p) s) eqn:Hv; [|done]. intros [= <-].
  apply bool_decide_eq_true in Hv. constructor; cbn; try done.
  - by apply JsMap.wf_set.
  - intros j q. rewrite JsMap.get_set. case_decide as Hij; [|by apply Hp].
    intros [= <-]. subst j. destruct (Hp _ _ Hi) as (H1 & H2 & H3 & H4).
    unfold plugin_ok. cbn. split_and!; [done..| |].
    + intros Ha. case_decide; [by exists now1|]. apply H3.
      apply list_elem_of_In in Hv. destruct (state p), s; cbn in Hv |- *; naive_solver.
    + intros ->. rewrite decide_False, decide_True by done. by exists now1.
  - apply links_ok_set; [done|..]; unfold dependents_of, deps_of; by rewrite Hi.
  - intros l c [Hc|Hc]%elem_of_app; [by eapply Hno|].
    apply list_elem_of_fmap in Hc as (l' & [= _ ->] & _). done.
Qed.

Lemma inv_resolve r : registry_inv r → registry_inv (resolveDependencies _ satisfies r).1.
Proof.
  intros Hinv. pose proof (registry_inv_wf _ Hinv) as Hwf. destruct Hinv as [Hnd Hp Hl Hli Hno].
  destruct (build_spec _ Hwf) as (Hk & Hcore & Hd & Hde). constructor; cbn; try done.
  - unfold JsMap.wf. by rewrite Hk.
  - intros i p' (p & Hi & H1 & H2 & H3 & H4 & H5 & _)%(core_get Hcore).
    unfold plugin_ok. rewrite H1, H2, H3, H4, H5. by apply Hp.
  - intros x y. by rewrite Hde, Hd.
Qed.

Lemma reachable_inv r : reachable r → registry_inv r.
Proof.
  assert (registry_inv (initial _)) as H0.
  { constructor; cbn; [apply JsMap.wf_nil|intros i p [=]|by intros x y ?%elem_of_nil|constructor|set_solver]. }
  assert (∀ r0, rtc reg_step r0 r → registry_inv r0 → registry_inv r) as Hgen; [|by intros Hr; eapply Hgen].
  clear H0. intros r0 Hr. induction Hr as [r0|r1 r2 r3 Hst _ IH]; [done|]. intros H0. apply IH.
  destruct Hst; eauto using inv_register, inv_unregister, inv_setState, inv_resolve.
  - destruct H0. constructor; cbn; try done. by apply JsSet.NoDup_add.
  - destruct H0. constructor; cbn; try done. by apply JsSet.NoDup_del.
Qed.

(** Whatever the operations, names are unique and are those of the
    metadata; a plugin in a state that follows loading has a load time and an
    enabled one an enabling time; a recorded dependent is registered and depends
    on the plugin; listeners are told valid transitions only. *)
Theorem registry_reachable r :
  reachable r →
  JsMap.wf (plugins _ r) ∧
  (∀ i p, get _ r i = Some p → plugin_ok i p) ∧
  (∀ i p, p ∈ getDependents _ r i → ∃ j, get _ r j = Some p ∧ i ∈ dependencies p) ∧
  (∀ l c, (l, c) ∈ notified _ r → newState c ∈ VALID_STATE_TRANSITIONS (previousState c)).
Proof.
  intros Hr%reachable_inv. destruct Hr as [Hnd Hp Hl Hli Hno]. split_and!; [done..| |done].
  intros i p. unfold getDependents, get at 1, lookup_all.
  destruct (JsMap.get (plugins _ r) i) as [q|] eqn:Hq; [|by intros ?%elem_of_nil].
  intros (y & Hy & Hget)%list_elem_of_omap. exists y. split; [done|].
  specialize (Hl i y). unfold dependents_of, deps_of in Hl. unfold get in Hget.
  rewrite Hq, Hget in Hl. by apply Hl.
Qed.

(** [areDependenciesReady], on a registry whose links were just resolved:
    every declared dependency is enabled. *)
Theorem areDependenciesReady_spec (r : t Listener) out i p :
  registry_wf (plugins _ r) → (resolveDependencies _ satisfies r).2 = Ok out →
  get _ r i = Some p →
  areDependenciesReady _ (resolveDependencies _ satisfies r).1 i = true ↔
  ∀ d, d ∈ dep_names p → ∃ q, get _ r d = Some q ∧ state q = ENABLED.
Proof.
  intros Hwf Hok Hp. destruct (build_spec _ Hwf) as (Hk & Hcore & Hd & _).
  destruct (resolveDependencies_load_order r out Hwf Hok) as (_ & _ & Hmet & _).
  cbn [resolveDependencies fst]. unfold areDependenciesReady, get in *. cbn [plugins set_plugins].
  set (g := buildDependencyGraph (plugins _ r)) in *.
  assert (∃ p', JsMap.get g i = Some p') as [p' Hp'].
  { apply JsMap.elem_of_keys. rewrite Hk. apply JsMap.elem_of_keys. by eexists. }
  assert (∀ d, d ∈ dependencies p' ↔ d ∈ dep_names p) as Hdeps.
  { intros d. specialize (Hd i d). unfold deps_of, declared in Hd. rewrite Hp', Hp in Hd.
    cbn in Hd. rewrite Hd. split; [by intros [? _]|]. intros Hdn. split; [done|].
    apply list_elem_of_fmap in Hdn as ([d' range] & -> & Hin).
    destruct (Hmet _ _ _ _ Hp Hin) as (q & Hq & _). apply JsMap.elem_of_keys. by eexists. }
  rewrite Hp', forallb_forall. split.
  - intros Hall d Hdn. apply Hdeps, list_elem_of_In, Hall in Hdn.
    destruct (JsMap.get g d) as [q'|] eqn:Hq'; [|done]. apply bool_decide_eq_true in Hdn.
    destruct (core_get Hcore Hq') as (q & Hq & _ & _ & Hs & _). exists q. by rewrite <-Hs.
  - intros Hall d Hin%list_elem_of_In%Hdeps. destruct (Hall d Hin) as (q & Hq & Hs).
    assert (∃ q', JsMap.get g d = Some q') as [q' Hq'].
    { apply JsMap.elem_of_keys. rewrite Hk. apply JsMap.elem_of_keys. by eexists. }
    rewrite Hq'. destruct (core_get Hcore Hq') as (q0 & Hq0 & _ & _ & Hs0 & _).
    apply bool_decide_eq_true. rewrite Hs0. congruence.
Qed.
End resolution.

(** ** A concrete registry *)

Definition metadata_of (n v : string) (deps : list (string * string)) : IPluginMetadata := {|
  name := n; version := v; opnetVersion := "1"; main := "index.jsc"; checksum_decl := "";
  author := {| author_name := "op"; author_email := None; author_url := None |};
  contributors := None; repository := None; homepage := None; bugs_url := None; license := None;
  is_private := None; description := None; keywords := None; dependencies_decl := Some deps;
  optionalDependencies := None; peerDependencies := None; signature_decl := None;
  pluginType := library; permissions := None; resources := None; lifecycle := None;
  hooks := None; config := None
|}.

Definition meta (n v : string) (deps : list (string * string)) : IParsedPluginFile :=
  mkFile 1 MLDSA44 [] [] (metadata_of n v deps) "" [] None [].

Definition same_version (v range : string) : bool := String.eqb v range.

(** "app" was found before the library it depends on. *)
Definition two_plugins : t nat :=
  match (r ← register nat (initial nat) "app.opnet" (meta "app" "2" [("lib", "1")]);
         register nat r.1 "lib.opnet" (meta "lib" "1" [])) with
  | Ok (r, _) => r
  | Throw _ => initial nat
  end.

Definition cyclic_plugins : t nat :=
  match (r ← register nat (initial nat) "a.opnet" (meta "a" "1" [("b", "1")]);
         register nat r.1 "b.opnet" (meta "b" "1" [("a", "1")])) with
  | Ok (r, _) => r
  | Throw _ => initial nat
  end.

Lemma two_plugins_reachable : reachable nat same_version two_plugins.
Proof.
  eapply rtc_l.
  { eapply (step_register nat same_version (initial nat) "app.opnet" (meta "app" "2" [("lib", "1")])).
    vm_compute. reflexivity. }
  eapply rtc_l; [|apply rtc_refl].
  eapply (step_register nat same_version _ "lib.opnet" (meta "lib" "1" [])).
  vm_compute. reflexivity.
Defined.

Lemma cyclic_plugins_reachable : reachable nat same_version cyclic_plugins.
Proof.
  eapply rtc_l.
  { eapply (step_register nat same_version (initial nat) "a.opnet" (meta "a" "1" [("b", "1")])).
    vm_compute. reflexivity. }
  eapply rtc_l; [|apply rtc_refl].
  eapply (step_register nat same_version _ "b.opnet" (meta "b" "1" [("a", "1")])).
  vm_compute. reflexivity.
Defined.

Lemma two_plugins_wf : registry_wf (plugins _ two_plugins).
Proof. eapply registry_inv_wf, reachable_inv, two_plugins_reachable. Defined.

Lemma cyclic_plugins_wf : registry_wf (plugins _ cyclic_plugins).
Proof. eapply registry_inv_wf, reachable_inv, cyclic_plugins_reachable. Defined.

Definition load_order : list IRegisteredPlugin :=
  match (resolveDependencies nat same_version two_plugins).2 with Ok out => out | Throw _ => [] end.

Lemma resolveDependencies_decides_witness :
  registry_wf (plugins _ two_plugins) ∧
  acyclic_deps (registered_deps (plugins _ two_plugins)) ∧
  dependencies_met same_version (plugins _ two_plugins).
Proof.
  split; [exact two_plugins_wf|].
  apply (proj1 (resolveDependencies_decides nat same_version two_plugins two_plugins_wf)).
  exists load_order. vm_compute. reflexivity.
Defined.

Lemma resolveDependencies_order_witness :
  id <$> load_order = ["lib"; "app"] ∧
  dep_order (declared (plugins _ two_plugins)) (id <$> load_order).
Proof.
  split; [vm_compute; reflexivity|].
  refine (proj1 (proj2 (resolveDependencies_order nat same_version two_plugins load_order
    two_plugins_wf _))).
  vm_compute. reflexivity.
Defined.

Lemma resolveDependencies_errors_witness :
  dep_cycle (registered_deps (plugins _ cyclic_plugins)) ["a"; "b"; "a"].
Proof.
  refine (resolveDependencies_errors nat same_version cyclic_plugins
    (CircularDependency ["a"; "b"; "a"] "b") cyclic_plugins_wf _).
  vm_compute. reflexivity.
Defined.

Lemma registry_reachable_witness :
  reachable nat same_version two_plugins ∧ JsMap.wf (plugins _ two_plugins).
Proof.
  split; [exact two_plugins_reachable|].
  exact (proj1 (registry_reachable nat same_version two_plugins two_plugins_reachable)).
Defined.

Lemma areDependenciesReady_spec_witness :
  ∃ p, get nat two_plugins "app" = Some p ∧
  (areDependenciesReady nat (resolveDependencies nat same_version two_plugins).1 "app" = true ↔
   ∀ d, d ∈ dep_names p → ∃ q, get nat two_plugins d = Some q ∧ state q = ENABLED).
Proof.
  eexists. split; [vm_compute; reflexivity|].
  apply (areDependenciesReady_spec nat same_version two_plugins load_order "app").
  - exact two_plugins_wf.
  - vm_compute. reflexivity.
  - vm_compute. reflexivity.
Defined.
