(* ===== verification/PluginOpcodes.v ===== *)
(** * The WebSocket opcodes of plugins
    (plugins/api/websocket/PluginOpcodeRegistry.ts)

    Each plugin that serves WebSocket requests is given a block of opcodes.
    Parsing a protobuf schema and looking a type up in it are arguments
    (protobufjs is not part of the repository), as is the worker pool. *)

From S2P Require Import Prelude PluginData PluginRegistry.

Definition PLUGIN_REQUEST_OPCODE_BASE : Z := 160. (* 0xa0 *)
Definition PLUGIN_RESPONSE_OPCODE_BASE : Z := 192. (* 0xc0 *)
Definition OPCODES_PER_PLUGIN : Z := 8.

Record IOpcodeAllocation : Type := {
  alloc_pluginId : string;
  requestBase : Z;
  responseBase : Z;
  count : Z
}.

Inductive opcode_error : Type :=
| ProtoParse (e : string)
| NoSchema (pluginId : string)
| NoSuchType (e : string).

Module PluginOpcodeRegistry.
Section PluginOpcodeRegistry.
Context (Root PType : Type).
Context (parse : bytes → result string Root) (lookupType : Root → string → result string PType).

Record IRegisteredHandler : Type := mkHandler {
  pluginId : string;
  opcodeName : string;
  requestOpcode : Z;
  responseOpcode : Z;
  handler : string;
  requestType : PType;
  responseType : PType;
  pushType : option PType
}.

Record t : Type := mk {
  allocations : list (string * IOpcodeAllocation);
  handlers : list (Z * IRegisteredHandler);
  protoRoots : list (string * Root);
  nextRequestOpcode : Z;
  nextResponseOpcode : Z
}.

Definition initial : t := mk [] [] [] PLUGIN_REQUEST_OPCODE_BASE PLUGIN_RESPONSE_OPCODE_BASE.

Definition loadProtoSchema (plugin : string) (protoContent : bytes) : stx t opcode_error unit :=
  fun s =>
  match parse protoContent with
  | Ok root => (mk (allocations s) (handlers s) (JsMap.set (protoRoots s) plugin root)
                  (nextRequestOpcode s) (nextResponseOpcode s), Ok tt)
  | Throw e => (s, Throw (ProtoParse e))
  end.

Definition allocateOpcodes (plugin : string) (handlerCount : Z) (s : t) : t * IOpcodeAllocation :=
  match JsMap.get (allocations s) plugin with
  | Some existing => (s, existing)
  | None =>
      let allocation := {| alloc_pluginId := plugin;
                           requestBase := nextRequestOpcode s;
                           responseBase := nextResponseOpcode s;
                           count := Z.min handlerCount OPCODES_PER_PLUGIN |} in
      (mk (JsMap.set (allocations s) plugin allocation) (handlers s) (protoRoots s)
         (nextRequestOpcode s + OPCODES_PER_PLUGIN) (nextResponseOpcode s + OPCODES_PER_PLUGIN),
       allocation)
  end.

Definition lookup (root : Root) (name : string) : result opcode_error PType :=
  match lookupType root name with
  | Ok ty => Ok ty
  | Throw e => Throw (NoSuchType e)
  end.

Definition registerHandler (plugin : string) (handlerDef : IPluginWebSocketHandler)
    (reqOpcode respOpcode : Z) (ns : option string) : stx t opcode_error IRegisteredHandler := fun s =>
  match JsMap.get (protoRoots s) plugin with
  | None => (s, Throw (NoSchema plugin))
  | Some root =>
      let prefix := if truthy_ostr ns then default "" ns +:+ "." else "" in
      match (requestT ← lookup root (prefix +:+ requestTypeName handlerDef);
             responseT ← lookup root (prefix +:+ responseTypeName handlerDef);
             pushT ← (if truthy_ostr (pushTypeName handlerDef)
                      then p ← lookup root (prefix +:+ default "" (pushTypeName handlerDef));
                           Ok (Some p)
                      else Ok None);
             Ok (mkHandler plugin (opcode handlerDef) reqOpcode respOpcode (handlerName handlerDef)
                   requestT responseT pushT)) with
      | Throw e => (s, Throw e)
      | Ok h => (mk (allocations s) (JsMap.set (handlers s) reqOpcode h) (protoRoots s)
                   (nextRequestOpcode s) (nextResponseOpcode s), Ok h)
      end
  end.

(** The [for] loop of [registerPlugin]: a handler that fails is reported and
    skipped. *)
Fixpoint register_loop (plugin : string) (allocation : IOpcodeAllocation) (ns : option string)
    (i : Z) (defs : list IPluginWebSocketHandler) (s : t) (registered : list IRegisteredHandler)
  : t * list IRegisteredHandler :=
  match defs with
  | [] => (s, registered)
  | d :: defs' =>
      match registerHandler plugin d (requestBase allocation + i) (responseBase allocation + i) ns s with
      | (s', Ok h) => register_loop plugin allocation ns (i + 1) defs' s' (registered ++ [h])
      | (s', Throw _) => register_loop plugin allocation ns (i + 1) defs' s' registered
      end
  end.

(** The configuration when the plugin serves WebSocket requests: with the
    permission, and at least one handler. *)
Definition ws_config (p : IRegisteredPlugin)
  : option (IWebSocketPermissions * list IPluginWebSocketHandler) :=
  permissions ← (permissions (metadata p) ≫= api);
  if negb (addWebsocket permissions) then None
  else
    wsConfig ← websocket permissions;
    defs ← ws_handlers wsConfig;
    if decide (length defs = 0%nat) then None else Some (wsConfig, defs).

Definition registerPlugin (p : IRegisteredPlugin) : stx t opcode_error (list IRegisteredHandler) := fun s =>
  match ws_config p with
  | None => (s, Ok [])
  | Some (wsConfig, defs) =>
      match (match truthy_ostr (protoFile wsConfig), proto (file p) with
             | true, Some schema => loadProtoSchema (id p) schema s
             | _, _ => (s, Ok tt)
             end) with
      | (s1, Throw e) => (s1, Throw e)
      | (s1, Ok _) =>
          let '(s2, allocation) := allocateOpcodes (id p) (Z.of_nat (length defs)) s1 in
          let '(s3, registered) :=
            register_loop (id p) allocation (namespace wsConfig) 0 defs s2 [] in
          (s3, Ok registered)
      end
  end.

Fixpoint delete_range (m : list (Z * IRegisteredHandler)) (base : Z) (n : nat)
  : list (Z * IRegisteredHandler) :=
  match n with
  | O => m
  | S n' => delete_range (JsMap.del m base) (base + 1) n'
  end.

Definition unregisterPlugin (plugin : string) (s : t) : t :=
  match JsMap.get (allocations s) plugin with
  | None => s
  | Some allocation =>
      mk (JsMap.del (allocations s) plugin)
        (delete_range (handlers s) (requestBase allocation) (Z.to_nat (count allocation)))
        (JsMap.del (protoRoots s) plugin) (nextRequestOpcode s) (nextResponseOpcode s)
  end.

Definition getHandler (s : t) (op : Z) : option IRegisteredHandler := JsMap.get (handlers s) op.

Definition isPluginOpcode (op : Z) : bool :=
  bool_decide (PLUGIN_REQUEST_OPCODE_BASE ≤ op) && bool_decide (op < 224). (* 0xe0 *)

Definition getAllHandlers (s : t) : list IRegisteredHandler := JsMap.values (handlers s).

Definition getPluginHandlers (s : t) (plugin : string) : list IRegisteredHandler :=
  filter (fun h => pluginId h = plugin) (getAllHandlers s).

Definition getProtoType (s : t) (plugin typeName : string) : option PType :=
  match JsMap.get (protoRoots s) plugin with
  | None => None
  | Some root => match lookupType root typeName with Ok ty => Some ty | Throw _ => None end
  end.

End PluginOpcodeRegistry.

(** ** Running a handler *)

Section executeHandler.
Context {Listener PType Json : Type}.
(** The worker's answer: success, the result as JSON text, an error text. *)
Context (executeWsHandler : string → string → Json → string → string →
           result string (bool * string * option string)).
Context (json_parse : string → result string Json).

Record ws_answer : Type := { success : bool; answer : option Json; answer_error : option string }.

Definition executeHandler (registry : PluginRegistry.t Listener) (h : IRegisteredHandler PType)
    (request : Json) (requestId clientId : string) : ws_answer :=
  let unavailable := {| success := false; answer := None;
                        answer_error := Some "Plugin not available" |} in
  match PluginRegistry.get Listener registry (pluginId _ h) with
  | None => unavailable
  | Some plugin =>
      if decide (state plugin ≠ ENABLED) then unavailable
      else
        match (r ← executeWsHandler (pluginId _ h) (handler _ h) request requestId clientId;
               if negb r.1.1
               then Ok {| success := false; answer := None;
                          answer_error := Some (if truthy_ostr r.2 then default "" r.2
                                                else "Handler failed") |}
               else j ← json_parse r.1.2;
                    Ok {| success := true; answer := Some j; answer_error := None |}) with
        | Ok a => a
        | Throw message => {| success := false; answer := None; answer_error := Some message |}
        end
  end.
End executeHandler.
End PluginOpcodeRegistry.

Import PluginOpcodeRegistry.

(** ** Lemmas *)

Section opcodes.
Context {Root PType : Type}.
Context (parse : bytes → result string Root) (lookupType : Root → string → result string PType).
Abbreviation state := (t Root PType).
Abbreviation alloc_of s p := (JsMap.get (allocations Root PType s) p).
Abbreviation handlers_of s := (handlers Root PType s).

Definition alloc_ok (s : state) (p : string) (a : IOpcodeAllocation) : Prop :=
  alloc_pluginId a = p ∧ PLUGIN_REQUEST_OPCODE_BASE ≤ requestBase a ∧
  requestBase a + OPCODES_PER_PLUGIN ≤ nextRequestOpcode _ _ s ∧
  responseBase a = requestBase a + 32 ∧ 0 ≤ count a ≤ OPCODES_PER_PLUGIN.

(** A handler sits under its own opcode, inside the block of its plugin. *)
Definition handler_ok (s : state) (o : Z) (h : IRegisteredHandler PType) : Prop :=
  requestOpcode _ h = o ∧ responseOpcode _ h = o + 32 ∧
  ∃ a, alloc_of s (pluginId _ h) = Some a ∧ requestBase a ≤ o < requestBase a + count a.

Record op_inv (s : state) : Prop := {
  oi_next : nextResponseOpcode _ _ s = nextRequestOpcode _ _ s + 32;
  oi_base : PLUGIN_REQUEST_OPCODE_BASE ≤ nextRequestOpcode _ _ s;
  oi_alloc : ∀ p a, alloc_of s p = Some a → alloc_ok s p a;
  oi_disjoint : ∀ p q a b, p ≠ q → alloc_of s p = Some a → alloc_of s q = Some b →
    requestBase a + OPCODES_PER_PLUGIN ≤ requestBase b ∨
    requestBase b + OPCODES_PER_PLUGIN ≤ requestBase a;
  oi_handlers : ∀ o h, JsMap.get (handlers_of s) o = Some h → handler_ok s o h
}.

Lemma register_loop_inv p a ns i defs s reg :
  op_inv s → alloc_of s p = Some a → 0 ≤ i → i + Z.of_nat (length defs) ≤ count a →
  op_inv (register_loop _ _ lookupType p a ns i defs s reg).1.
Proof.
  revert i s reg. induction defs as [|d defs IH]; intros i s reg Hinv Ha Hi Hlen; [done|].
  cbn [length] in Hlen. cbn [register_loop]. unfold registerHandler.
  destruct (JsMap.get (protoRoots _ _ s) p) as [root|]; [|apply IH; [done..|lia|lia]].
  destruct (mbind _ _) as [h|e] eqn:Hh; [|apply IH; [done..|lia|lia]].
  assert (pluginId _ h = p ∧ requestOpcode _ h = requestBase a + i ∧
          responseOpcode _ h = responseBase a + i) as (Hp & Hreq & Hresp).
  { js_inv. done. }
  apply IH; [|done|lia|lia]. clear IH Hh.
  destruct Hinv as [H1 H2 H3 H4 H5]. constructor; cbn; try done.
  intros o h'. rewrite JsMap.get_set. case_decide as Ho; [|by apply H5].
  intros [= <-]. destruct (H3 _ _ Ha) as (_ & _ & _ & Hr & _).
  unfold handler_ok. cbn. split_and!; [lia|lia|]. exists a. rewrite Hp. split; [done|lia].
Qed.

Lemma allocate_inv p n s :
  op_inv s → alloc_of s p = None → 0 ≤ n →
  let '(s', a) := allocateOpcodes _ _ p n s in
  op_inv s' ∧ alloc_of s' p = Some a ∧ count a = Z.min n OPCODES_PER_PLUGIN.
Proof.
  intros [H1 H2 H3 H4 H5] Hp Hn. unfold allocateOpcodes. rewrite Hp.
  unfold OPCODES_PER_PLUGIN, PLUGIN_REQUEST_OPCODE_BASE in *.
  split_and!; [|by cbn; rewrite JsMap.get_set_eq|done].
  constructor; cbn.
  - lia.
  - unfold PLUGIN_REQUEST_OPCODE_BASE. lia.
  - intros q a. rewrite JsMap.get_set. unfold alloc_ok, OPCODES_PER_PLUGIN, PLUGIN_REQUEST_OPCODE_BASE.
    case_decide as Hq; cbn [nextRequestOpcode].
    + intros [= <-]. subst q. cbn. split_and!; [done|lia..].
    + intros (? & ? & ? & ? & ?)%H3. unfold OPCODES_PER_PLUGIN, PLUGIN_REQUEST_OPCODE_BASE in *. split_and!; [done|lia..].
  - intros q1 q2 a b Hne. rewrite !JsMap.get_set. unfold OPCODES_PER_PLUGIN.
    destruct (decide (p = q1)) as [<-|], (decide (p = q2)) as [<-|]; try done; intros Ha Hb.
    + simplify_eq. cbn. apply H3 in Hb as (_ & _ & Hb & _). unfold OPCODES_PER_PLUGIN in *. lia.
    + simplify_eq. cbn. apply H3 in Ha as (_ & _ & Ha & _). unfold OPCODES_PER_PLUGIN in *. lia.
    + by eapply (H4 q1 q2).
  - intros o h (Hr & Hs & a & Ha & Hb)%H5. unfold handler_ok. cbn.
    split_and!; [done..|]. exists a. rewrite JsMap.get_set_ne; [done|]. intros ->. congruence.
Qed.

Lemma load_proto_inv p bs s s' r :
  op_inv s → loadProtoSchema _ _ parse p bs s = (s', r) →
  op_inv s' ∧ allocations _ _ s' = allocations _ _ s.
Proof.
  unfold loadProtoSchema. destruct (parse bs); intros Hinv [= <- _]; [|done].
  split; [|done]. by destruct Hinv; constructor.
Qed.

(** Plugins are registered when they are enabled and removed when they are
    disabled, with at most [OPCODES_PER_PLUGIN] handlers each. *)
Inductive op_step : state → state → Prop :=
| op_register s p :
    alloc_of s (id p) = None →
    (∀ c defs, ws_config p = Some (c, defs) → (length defs ≤ 8)%nat) →
    op_step s (registerPlugin _ _ parse lookupType p s).1
| op_unregister s p : op_step s (unregisterPlugin _ _ p s).

Lemma register_inv s p :
  op_inv s → alloc_of s (id p) = None →
  (∀ c defs, ws_config p = Some (c, defs) → (length defs ≤ 8)%nat) →
  op_inv (registerPlugin _ _ parse lookupType p s).1.
Proof.
  intros Hinv Hp Hn. unfold registerPlugin. destruct (ws_config p) as [[c defs]|] eqn:Hc; [|done].
  specialize (Hn c defs eq_refl).
  assert (∀ s1, op_inv s1 → alloc_of s1 (id p) = None →
    op_inv (let '(s2, allocation) := allocateOpcodes _ _ (id p) (Z.of_nat (length defs)) s1 in
            let '(s3, registered) :=
              register_loop _ _ lookupType (id p) allocation (namespace c) 0 defs s2 [] in
            (s3, @Ok opcode_error _ registered)).1) as Hrest.
  { intros s1 H1 Hp1. pose proof (allocate_inv (id p) (Z.of_nat (length defs)) s1 H1 Hp1
      ltac:(lia)) as Ha.
    destruct (allocateOpcodes _ _ _ _ _) as [s2 a]. destruct Ha as (H2 & Ha & Hcount).
    pose proof (register_loop_inv (id p) a (namespace c) 0 defs s2 [] H2 Ha ltac:(lia)) as H3.
    destruct (register_loop _ _ _ _ _ _ _ _ _ _) as [s3 reg]. apply H3.
    unfold OPCODES_PER_PLUGIN in Hcount. lia. }
  destruct (truthy_ostr (protoFile c)); [destruct (proto (file p)) as [bs|]|].
  - destruct (loadProtoSchema _ _ parse (id p) bs s) as [s1 r] eqn:Hl.
    destruct (load_proto_inv _ _ _ _ _ Hinv Hl) as [H1 Ha]. destruct r; [|done].
    apply Hrest; [done|]. by rewrite Ha.
  - by apply Hrest.
  - by apply Hrest.
Qed.

Lemma get_delete_range m base n o :
  JsMap.get (delete_range PType m base n) o
  = if decide (base ≤ o < base + Z.of_nat n) then None else JsMap.get m o.
Proof.
  revert m base. induction n as [|n IH]; intros m base; cbn [delete_range].
  { by rewrite decide_False by lia. }
  rewrite IH. destruct (decide (o = base)) as [->|Hne].
  - rewrite JsMap.get_del_eq. repeat case_decide; try done; lia.
  - rewrite JsMap.get_del_ne by done. repeat case_decide; try done; lia.
Qed.

(** Unregistering removes the handlers of the plugin and no other. *)
Lemma unregister_handlers s p o :
  op_inv s →
  JsMap.get (handlers_of (unregisterPlugin _ _ p s)) o
  = match JsMap.get (handlers_of s) o with
    | Some h => if decide (pluginId _ h = p) then None else Some h
    | None => None
    end.
Proof.
  intros [H1 H2 H3 H4 H5]. unfold unregisterPlugin.
  destruct (JsMap.get (allocations _ _ s) p) as [a|] eqn:Ha; cbn.
  - destruct (H3 _ _ Ha) as (_ & _ & _ & _ & Hc). rewrite get_delete_range, Z2Nat.id by lia.
    destruct (JsMap.get (handlers_of s) o) as [h|] eqn:Ho; [|by case_decide].
    destruct (H5 _ _ Ho) as (_ & _ & b & Hb & Hin). destruct (decide (pluginId _ h = p)) as [Heq|Hne].
    + rewrite Heq in Hb. simplify_eq. by rewrite decide_True.
    + rewrite decide_False; [done|]. destruct (H3 _ _ Hb) as (_ & _ & _ & _ & Hcb).
      pose proof (H4 _ _ _ _ Hne Hb Ha). lia.
  - destruct (JsMap.get (handlers_of s) o) as [h|] eqn:Ho; [|done].
    rewrite decide_False; [done|]. intros <-. destruct (H5 _ _ Ho) as (_ & _ & b & Hb & _). congruence.
Qed.

Lemma unregister_inv s p : op_inv s → op_inv (unregisterPlugin _ _ p s).
Proof.
  intros Hinv. pose proof (fun o => unregister_handlers s p o Hinv) as Hh.
  unfold unregisterPlugin in *. destruct (JsMap.get (allocations _ _ s) p) as [a|] eqn:Ha; [|done].
  destruct Hinv as [H1 H2 H3 H4 H5]. constructor; cbn in *; try done.
  - intros q b. destruct (decide (p = q)) as [<-|]; [by rewrite JsMap.get_del_eq|].
    rewrite JsMap.get_del_ne by done. apply H3.
  - intros q1 q2 b1 b2 Hne.
    destruct (decide (p = q1)) as [<-|]; [by rewrite JsMap.get_del_eq|].
    destruct (decide (p = q2)) as [<-|]; [by rewrite JsMap.get_del_eq|].
    rewrite !JsMap.get_del_ne by done. by apply H4.
  - intros o h. rewrite Hh. destruct (JsMap.get (handlers_of s) o) as [h'|] eqn:Ho; [|done].
    case_decide as Hp; [done|]. intros [= <-]. destruct (H5 _ _ Ho) as (Hr & Hs & b & Hb & Hin).
    unfold handler_ok. cbn. split_and!; [done..|]. exists b. by rewrite JsMap.get_del_ne.
Qed.

Lemma op_reachable_inv s : rtc op_step (initial _ _) s → op_inv s.
Proof.
  assert (∀ s0, rtc op_step s0 s → op_inv s0 → op_inv s) as Hgen.
  { intros s0 Hr. induction Hr as [s0|s1 s2 s3 Hst _ IH]; [done|]. intros H0. apply IH.
    destruct Hst; [by apply register_inv|by apply unregister_inv]. }
  intros Hr. apply (Hgen _ Hr). constructor; cbn; done.
Qed.

(** ** Properties *)

(** Routing is sound: under every registered opcode is a handler of that
    opcode, in the block of its own plugin and answered 0x20 above; the blocks of
    two plugins are disjoint; and until the fifth block is given out, requests
    and responses are plugin opcodes of their two separate ranges. *)
Theorem plugin_opcodes_sound (s : state) :
  rtc op_step (initial _ _) s →
  (∀ o h, getHandler _ _ s o = Some h → handler_ok s o h) ∧
  (∀ o h p a, getHandler _ _ s o = Some h → alloc_of s p = Some a → pluginId _ h ≠ p →
     ¬ (requestBase a ≤ o < requestBase a + OPCODES_PER_PLUGIN)) ∧
  (nextRequestOpcode _ _ s ≤ PLUGIN_RESPONSE_OPCODE_BASE →
   ∀ o h, getHandler _ _ s o = Some h →
     isPluginOpcode o = true ∧ isPluginOpcode (responseOpcode _ h) = true ∧
     o < PLUGIN_RESPONSE_OPCODE_BASE ≤ responseOpcode _ h).
Proof.
  intros Hr%op_reachable_inv. pose proof Hr as [H1 H2 H3 H4 H5]. unfold getHandler. split_and!.
  - exact H5.
  - intros o h p a (Hreq & Hresp & b & Hb & Hin)%H5 Ha Hne.
    pose proof (H4 _ _ _ _ Hne Hb Ha). destruct (H3 _ _ Hb) as (_ & _ & _ & _ & ?). lia.
  - intros Hlim o h (Hreq & Hresp & a & Ha & Hin)%H5.
    destruct (H3 _ _ Ha) as (_ & Hlo & Hhi & _ & Hc). unfold isPluginOpcode.
    unfold PLUGIN_REQUEST_OPCODE_BASE, PLUGIN_RESPONSE_OPCODE_BASE, OPCODES_PER_PLUGIN in *.
    rewrite Hresp, !andb_true_iff, !bool_decide_eq_true. lia.
Qed.

(** Unregistering a plugin removes all its handlers and keeps every other. *)
Theorem unregisterPlugin_spec (s : state) p o :
  rtc op_step (initial _ _) s →
  getHandler _ _ (unregisterPlugin _ _ p s) o
  = match getHandler _ _ s o with
    | Some h => if decide (pluginId _ h = p) then None else Some h
    | None => None
    end.
Proof. intros Hr%op_reachable_inv. by apply unregister_handlers. Qed.
End opcodes.

(** A plugin that is not enabled serves nothing, whatever the worker pool
    would answer; an answer that reports success comes from an enabled plugin,
    a successful worker and a result that parses. *)
Theorem executeHandler_spec {Listener PType Json : Type} exec1 exec2 (json_parse : string → result string Json)
    (r : PluginRegistry.t Listener) (h : IRegisteredHandler PType) request requestId clientId :
  ((∀ p, PluginRegistry.get Listener r (pluginId _ h) = Some p → PluginRegistry.state p ≠ ENABLED) →
   executeHandler exec1 json_parse r h request requestId clientId
   = executeHandler exec2 json_parse r h request requestId clientId ∧
   success (executeHandler exec1 json_parse r h request requestId clientId) = false) ∧
  (success (executeHandler exec1 json_parse r h request requestId clientId) = true →
   ∃ p text e j, PluginRegistry.get Listener r (pluginId _ h) = Some p ∧
     PluginRegistry.state p = ENABLED ∧
     exec1 (pluginId _ h) (handler _ h) request requestId clientId = Ok (true, text, e) ∧
     json_parse text = Ok j ∧
     answer (executeHandler exec1 json_parse r h request requestId clientId) = Some j).
Proof.
  unfold executeHandler. destruct (PluginRegistry.get Listener r (pluginId _ h)) as [p|] eqn:Hp.
  - destruct (decide (PluginRegistry.state p ≠ ENABLED)) as [|He].
    + split; done.
    + split; [intros Hno; by destruct He; apply Hno|].
      destruct (exec1 _ _ _ _ _) as [[[ok text] e]|]; [|done]. cbn [mbind result_bind fst snd].
      destruct ok; [|done]. cbn [negb]. destruct (json_parse text) as [j|] eqn:Hj; [|done].
      intros _. exists p, text, e, j. split_and!; [done| |done..]. by apply dec_stable.
  - split; [done|]. done.
Qed.

(** ** Concrete plugins *)

Definition any_schema (_ : bytes) : result string unit := Ok tt.
Definition any_type (_ : unit) (n : string) : result string string := Ok n.

Definition ws_metadata (n : string) (ops : list string) : IPluginMetadata := {|
  name := n; version := "1"; opnetVersion := "1"; main := "index.jsc"; checksum_decl := "";
  author := {| author_name := "op"; author_email := None; author_url := None |};
  contributors := None; repository := None; homepage := None; bugs_url := None; license := None;
  is_private := None; description := None; keywords := None; dependencies_decl := None;
  optionalDependencies := None; peerDependencies := None; signature_decl := None;
  pluginType := standalone;
  permissions := Some {| database := None; blocks := None; epochs := None; mempool := None;
    api := Some {| addEndpoints := false; addWebsocket := true; basePath := None; routes := None;
      websocket := Some {| protoFile := Some "p.proto"; namespace := Some n;
        ws_handlers := Some ((fun o => {| opcode := o; requestTypeName := "Req";
          responseTypeName := "Res"; handlerName := o; pushTypeName := None |}) <$> ops) |} |};
    threading := None; filesystem := None; blockchain := None |};
  resources := None; lifecycle := None; hooks := None; config := None
|}.

Definition ws_example (n : string) (ops : list string) : IRegisteredPlugin :=
  mkPlugin n (n +:+ ".opnet") (mkFile 1 MLDSA44 [] [] (ws_metadata n ops) "" [] (Some []) [])
    (ws_metadata n ops) LOADED None None None None None [] [] None None None.

Definition register_all (ps : list IRegisteredPlugin) : t unit string :=
  foldl (fun s p => (registerPlugin unit string any_schema any_type p s).1) (initial _ _) ps.

Definition chat : t unit string := register_all [ws_example "chat" ["join"; "send"]].

Lemma chat_reachable : rtc (op_step any_schema any_type) (initial _ _) chat.
Proof.
  apply rtc_once. apply (op_register any_schema any_type (initial _ _)); [done|].
  intros c defs. vm_compute. intros [= <- <-]. cbn. lia.
Defined.

Lemma plugin_opcodes_sound_witness :
  rtc (op_step any_schema any_type) (initial _ _) chat ∧
  ∃ h, getHandler _ _ chat 161 = Some h ∧ handler_ok chat 161 h ∧ isPluginOpcode 161 = true.
Proof.
  split; [exact chat_reachable|]. eexists. split; [vm_compute; reflexivity|].
  pose proof (plugin_opcodes_sound any_schema any_type chat chat_reachable) as (Hok & _ & Hrange).
  split; [apply Hok; vm_compute; reflexivity|].
  eapply Hrange; [vm_compute; discriminate|vm_compute; reflexivity].
Defined.

Lemma unregisterPlugin_spec_witness :
  rtc (op_step any_schema any_type) (initial _ _) chat ∧
  getHandler _ _ (unregisterPlugin _ _ "chat" chat) 160 = None.
Proof.
  split; [exact chat_reachable|].
  rewrite (unregisterPlugin_spec any_schema any_type chat "chat" 160 chat_reachable).
  vm_compute. reflexivity.
Defined.

(** The fifth block of requests is the first block of responses: the fifth
    plugin is asked on the opcode the first one answers on. *)
Lemma fifth_plugin_collides :
  let s := register_all ((fun n => ws_example n ["op"]) <$> ["a"; "b"; "c"; "d"; "e"]) in
  ∃ h1 h5, getHandler _ _ s 160 = Some h1 ∧ getHandler _ _ s 192 = Some h5 ∧
    pluginId _ h1 = "a" ∧ pluginId _ h5 = "e" ∧ responseOpcode _ h1 = requestOpcode _ h5.
Proof. vm_compute. eexists _, _. split_and!; reflexivity. Qed.

(** The count of a block is capped, the loop over the handlers is not: a ninth
    handler takes an opcode of the next block and survives its plugin. *)
Lemma ninth_handler_survives :
  let s := register_all [ws_example "big" ["1"; "2"; "3"; "4"; "5"; "6"; "7"; "8"; "9"]] in
  nextRequestOpcode _ _ s = 168 ∧
  ∃ h, getHandler _ _ (unregisterPlugin _ _ "big" s) 168 = Some h ∧ pluginId _ h = "big".
Proof. vm_compute. split; [reflexivity|]. eexists. split; reflexivity. Qed.
