(* ===== verification/HeaderValidator.v ===== *)
(** * Checksums of block headers
    (block/merkle/ChecksumMerkle.ts, block/merkle/MerkleTree.ts [toBytes],
    vm/BlockHeaderValidator.ts)

    A block commits to six values by a Merkle tree; a header is accepted when
    the proofs it carries verify against its root and it links to the checksum
    of the block before.  The Merkle trees come from the npm package
    rust-merkle-tree and the byte writers from @btc-vision/transaction: they are
    an interface here, with the documented laws in a separate class. *)

From S2P Require Import Prelude.

(** ** The Merkle tree package *)

Class MerkleLib : Type := {
  RustMerkleTree : Type;
  (** [new MerkleTree(values)] *)
  tree_new : list bytes → RustMerkleTree;
  rootHex : RustMerkleTree → string;
  hashes : RustMerkleTree → list bytes;
  getIndexHash : RustMerkleTree → bytes → nat;
  (** [tree.getProof(i).proofHashesHex()] *)
  getProofHashesHex : RustMerkleTree → nat → list string;
  (** [MerkleTree.hash] and [new MerkleProof(proof).verify(root, leaf)] *)
  merkle_hash : bytes → bytes;
  merkle_verify : list bytes → bytes → bytes → bool;
  (** The buffer of a [BinaryWriter] after [writeU8] and [writeBytes]. *)
  write_u8_bytes : Z → bytes → bytes;
  hexToUint8Array : string → bytes
}.

(** [String.prototype.startsWith] and [slice] on the "0x" prefix. *)
Definition strip0x (s : string) : string :=
  match s with
  | String a (String b rest) => if decide (a = "0"%char ∧ b = "x"%char) then rest else s
  | _ => s
  end.

Definition ZERO_HASH : string :=
  "0x0000000000000000000000000000000000000000000000000000000000000000".

(** MerkleTree.ts [toBytes]. *)
Definition toBytes `{BtcLib} (bytesStr : string) : bytes := fromHex (strip0x bytesStr).

(** What the node relies on: leaves keep their order, and the proof the tree
    gives for a leaf verifies against its root. *)
Class MerkleLaws `{BtcLib} `{MerkleLib} : Prop := {
  hashes_new : ∀ l, hashes (tree_new l) = merkle_hash <$> l;
  proof_verifies : ∀ l x, x ∈ l →
    merkle_verify (toBytes <$> getProofHashesHex (tree_new l)
                     (getIndexHash (tree_new l) (merkle_hash x)))
      (toBytes (rootHex (tree_new l))) (merkle_hash x) = true;
  hex_zero : hexToUint8Array ZERO_HASH = repeat 0 32
}.

Inductive header_error : Type :=
| TreeNotGenerated
| BlockChecksumNotFound
| BlockDataNotFound
| InvalidPreviousChecksum (height : Z)
| PreviousChecksumNotFound
| ProofNotFound (index : Z).

Definition BlockHeaderChecksumProof : Type := list (Z * list string).

(** [s || fallback] on a string. *)
Definition or_else (s fallback : string) : string := if truthy_str s then s else fallback.

Module ChecksumMerkle.
Section ChecksumMerkle.
Context `{BtcLib} `{MerkleLib}.

Record t : Type := mk { tree : option RustMerkleTree; values : list (Z * bytes) }.

Definition initial : t := mk None [].

Definition root (m : t) : result header_error string :=
  match tree m with Some tr => Ok (rootHex tr) | None => Throw TreeNotGenerated end.

Definition leaf (value : Z * bytes) : bytes := write_u8_bytes value.1 value.2.

Definition verify (rootBytes : bytes) (value : Z * bytes) (proof : list string) : bool :=
  merkle_verify (toBytes <$> proof) rootBytes (merkle_hash (leaf value)).

Definition generateTree (m : t) : t := mk (Some (tree_new (leaf <$> values m))) (values m).

Definition setBlockData (previousBlockHash previousBlockChecksum blockHash blockMerkleRoot
    blockStateRoot blockReceiptRoot : string) (m : t) : t :=
  generateTree (mk (tree m)
    (values m ++ [(0, hexToUint8Array (or_else previousBlockHash ZERO_HASH));
                  (1, hexToUint8Array (or_else previousBlockChecksum ZERO_HASH));
                  (2, hexToUint8Array (or_else blockHash ZERO_HASH));
                  (3, hexToUint8Array (or_else blockMerkleRoot ZERO_HASH));
                  (4, hexToUint8Array (or_else blockStateRoot ZERO_HASH));
                  (5, hexToUint8Array (or_else blockReceiptRoot ZERO_HASH))])).

Definition getProofs (m : t) : result header_error BlockHeaderChecksumProof :=
  match tree m with
  | None => Throw TreeNotGenerated
  | Some tr => Ok (imap (fun i h => (Z.of_nat i, getProofHashesHex tr (getIndexHash tr h)))
                     (hashes tr))
  end.

End ChecksumMerkle.
End ChecksumMerkle.

(** ** Headers *)

(** A stored header; heights are the integers their Decimal128 form denotes. *)
Record BlockHeaderDocument : Type := mkHeader {
  hd_hash : string;
  hd_height : Z;
  hd_checksumRoot : string;
  hd_previousBlockHash : string;
  hd_previousBlockChecksum : string;
  hd_merkleRoot : string;
  hd_storageRoot : string;
  hd_receiptRoot : string;
  hd_checksumProofs : BlockHeaderChecksumProof
}.

(** [Partial<BlockHeaderDocument>] *)
Record PartialHeader : Type := mkPartial {
  ph_hash : option string;
  ph_height : option Z;
  ph_checksumRoot : option string;
  ph_previousBlockHash : option string;
  ph_previousBlockChecksum : option string;
  ph_merkleRoot : option string;
  ph_storageRoot : option string;
  ph_receiptRoot : option string;
  ph_checksumProofs : option BlockHeaderChecksumProof
}.

Definition to_partial (h : BlockHeaderDocument) : PartialHeader :=
  mkPartial (Some (hd_hash h)) (Some (hd_height h)) (Some (hd_checksumRoot h))
    (Some (hd_previousBlockHash h)) (Some (hd_previousBlockChecksum h)) (Some (hd_merkleRoot h))
    (Some (hd_storageRoot h)) (Some (hd_receiptRoot h)) (Some (hd_checksumProofs h)).

Module BlockHeaderValidator.
Section BlockHeaderValidator.
Context `{BtcLib} `{MerkleLib}.
(** [OP_NET.MODE === LIGHT], [enableCaching], and [vmStorage.getBlockHeader]. *)
Context (LIGHT enableCaching : bool) (storage : Z → option BlockHeaderDocument).

(** The state is the cache, a Map from heights to headers. *)
Definition t : Type := list (Z * BlockHeaderDocument).

Definition ensureCacheSizeWithinLimit (c : t) : t := if decide (100 < length c)%nat then [] else c.

Definition setToCache (blockHeader : BlockHeaderDocument) (c : t) : t :=
  if enableCaching
  then JsMap.set (ensureCacheSizeWithinLimit c) (hd_height blockHeader) blockHeader
  else c.

Definition setLastBlockHeader (blockHeader : BlockHeaderDocument) (c : t) : t :=
  setToCache blockHeader c.

Definition clear (c : t) : t := [].

Definition getBlockHeader {E} (height : Z) : stx t E (option BlockHeaderDocument) := fun c =>
  match JsMap.get c height with
  | Some h => (c, Ok (Some h))
  | None =>
      match storage height with
      | Some h => (setToCache h c, Ok (Some h))
      | None => (c, Ok None)
      end
  end.

Definition getPreviousBlockChecksumOfHeight (height : Z) : stx t header_error string :=
  let newHeight := height - 1 in
  blockRootStates ← getBlockHeader newHeight;
  if decide (newHeight < 0) then mret ZERO_HASH
  else
    match blockRootStates with
    | Some h =>
        if truthy_str (hd_checksumRoot h) then mret (hd_checksumRoot h)
        else if LIGHT then mret ZERO_HASH else sthrow (InvalidPreviousChecksum newHeight)
    | None => if LIGHT then mret ZERO_HASH else sthrow (InvalidPreviousChecksum newHeight)
    end.

Fixpoint getProofForIndex (proofs : BlockHeaderChecksumProof) (index : Z)
  : result header_error (list string) :=
  match proofs with
  | [] => Throw (ProofNotFound index)
  | (i, proof) :: proofs' => if decide (i = index) then Ok proof else getProofForIndex proofs' index
  end.

(** One of the six [ChecksumMerkle.verify] calls. *)
Definition check_proof (checksumRoot : bytes) (proofs : BlockHeaderChecksumProof)
    (value : Z * bytes) : result header_error bool :=
  proof ← getProofForIndex proofs value.1;
  Ok (ChecksumMerkle.verify checksumRoot value proof).

Definition prev_hash_bytes (prevBlockHash : option string) : bytes :=
  if truthy_ostr prevBlockHash then hexToUint8Array (default "" prevBlockHash) else repeat 0 32.

Definition validateBlockChecksum (blockHeader : PartialHeader) : stx t header_error bool :=
  match ph_checksumRoot blockHeader, ph_height blockHeader with
  | Some checksum, Some blockHeight =>
      if negb (truthy_str checksum) then sthrow BlockChecksumNotFound
      else
        match ph_receiptRoot blockHeader, ph_storageRoot blockHeader, ph_hash blockHeader,
              ph_merkleRoot blockHeader, ph_checksumProofs blockHeader with
        | Some blockReceipt, Some blockStorage, Some blockHash, Some blockMerkelRoot, Some proofs =>
            if negb (truthy_str blockReceipt && truthy_str blockStorage && truthy_str blockHash
                     && truthy_str blockMerkelRoot)
            then sthrow BlockDataNotFound
            else
              let checksumRoot := fromHex (strip0x checksum) in
              previousBlockChecksum ← getPreviousBlockChecksumOfHeight blockHeight;
              if negb (truthy_str previousBlockChecksum) then sthrow PreviousChecksumNotFound
              else if decide (ph_previousBlockChecksum blockHeader ≠ Some previousBlockChecksum)
              then mret false
              else slift (
                b0 ← check_proof checksumRoot proofs
                       (0, prev_hash_bytes (ph_previousBlockHash blockHeader));
                b1 ← check_proof checksumRoot proofs (1, hexToUint8Array previousBlockChecksum);
                b2 ← check_proof checksumRoot proofs (2, hexToUint8Array blockHash);
                b3 ← check_proof checksumRoot proofs (3, hexToUint8Array blockMerkelRoot);
                b4 ← check_proof checksumRoot proofs (4, hexToUint8Array blockStorage);
                b5 ← check_proof checksumRoot proofs (5, hexToUint8Array blockReceipt);
                Ok (b0 && b1 && b2 && b3 && b4 && b5))
        | _, _, _, _, _ => sthrow BlockDataNotFound
        end
  | _, _ => sthrow BlockChecksumNotFound
  end.

End BlockHeaderValidator.
End BlockHeaderValidator.

(** The header of a block as [signBlock] (Block.ts) completes it: the checksum
    tree of its six values, its root and its proofs. *)
Definition signBlock `{BtcLib} `{MerkleLib} (hash : string) (height : Z)
    (previousBlockHash previousBlockChecksum merkleRoot storageRoot receiptRoot : string)
  : result header_error BlockHeaderDocument :=
  let m := ChecksumMerkle.setBlockData previousBlockHash previousBlockChecksum hash merkleRoot
             storageRoot receiptRoot ChecksumMerkle.initial in
  checksumRoot ← ChecksumMerkle.root m;
  proofs ← ChecksumMerkle.getProofs m;
  Ok (mkHeader hash height checksumRoot previousBlockHash previousBlockChecksum merkleRoot
        storageRoot receiptRoot proofs).

Import BlockHeaderValidator.

(** ** Lemmas *)

Section cache.
Context (LIGHT enableCaching : bool) (storage : Z → option BlockHeaderDocument).

(** The cache agrees with the storage. *)
Definition cache_fresh (c : t) : Prop := ∀ h d, JsMap.get c h = Some d → storage h = Some d.

(** Headers are stored under their height. *)
Definition storage_heights : Prop := ∀ h d, storage h = Some d → hd_height d = h.

Lemma setToCache_fresh h d c :
  cache_fresh c → storage h = Some d → hd_height d = h → cache_fresh (setToCache enableCaching d c).
Proof.
  intros Hc Hd Hh h' d'. unfold setToCache, ensureCacheSizeWithinLimit.
  destruct enableCaching; [|apply Hc]. rewrite JsMap.get_set.
  case_decide as He; [intros [= <-]; congruence|]. case_decide; [done|apply Hc].
Qed.

Lemma getBlockHeader_fresh {E} h c :
  storage_heights → cache_fresh c →
  ∃ c', getBlockHeader (E := E) enableCaching storage h c = (c', Ok (storage h)) ∧ cache_fresh c'.
Proof.
  intros Hs Hc. unfold getBlockHeader. destruct (JsMap.get c h) as [d|] eqn:Hg.
  - exists c. by rewrite (Hc _ _ Hg).
  - destruct (storage h) as [d|] eqn:Hd; [|by exists c].
    eexists. split; [done|]. eapply setToCache_fresh; eauto.
Qed.
End cache.

Section validation.
Context `{BtcLib} `{MerkleLib}.
Context (LIGHT enableCaching : bool) (storage : Z → option BlockHeaderDocument).
Hypothesis Hheights : storage_heights storage.

(** The checksum a header at this height has to link to. *)
Definition link_target (height : Z) : result header_error string :=
  if decide (height - 1 < 0) then Ok ZERO_HASH
  else match storage (height - 1) with
       | Some h => if truthy_str (hd_checksumRoot h) then Ok (hd_checksumRoot h)
                   else if LIGHT then Ok ZERO_HASH else Throw (InvalidPreviousChecksum (height - 1))
       | None => if LIGHT then Ok ZERO_HASH else Throw (InvalidPreviousChecksum (height - 1))
       end.

Lemma previous_checksum_eq height c :
  cache_fresh storage c →
  ∃ c', getPreviousBlockChecksumOfHeight LIGHT enableCaching storage height c
        = (c', link_target height) ∧ cache_fresh storage c'.
Proof.
  intros Hc. unfold getPreviousBlockChecksumOfHeight, mbind, stx_bind, link_target.
  destruct (getBlockHeader_fresh (E := header_error) enableCaching storage (height - 1) c Hheights Hc) as (c' & -> & Hc').
  case_decide; [by eexists|]. destruct (storage (height - 1)) as [h|]; [destruct (truthy_str _)|];
    try destruct LIGHT; by eexists.
Qed.

(** A fresh cache does not change the verdict. *)
Lemma validate_fresh ph c :
  cache_fresh storage c →
  (validateBlockChecksum LIGHT enableCaching storage ph c).2
  = (validateBlockChecksum LIGHT enableCaching storage ph []).2 ∧
  cache_fresh storage (validateBlockChecksum LIGHT enableCaching storage ph c).1.
Proof.
  intros Hc. unfold validateBlockChecksum.
  repeat (case_match; try done). unfold mbind, stx_bind.
  destruct (previous_checksum_eq z c Hc) as (c1 & -> & Hc1).
  destruct (previous_checksum_eq z [] (fun h d (Hn : JsMap.get [] h = Some d) =>
    ltac:(discriminate Hn))) as (c2 & -> & Hc2).
  destruct (link_target z); [|done]. repeat case_match; simplify_eq; try done.
Qed.

(** The value a header commits to, and that a carried proof verifies. *)
Definition proves (h : BlockHeaderDocument) (value : Z * bytes) : Prop :=
  ∃ proof, getProofForIndex (hd_checksumProofs h) value.1 = Ok proof ∧
    ChecksumMerkle.verify (toBytes (hd_checksumRoot h)) value proof = true.

Lemma check_proof_true h value :
  check_proof (toBytes (hd_checksumRoot h)) (hd_checksumProofs h) value = Ok true ↔ proves h value.
Proof.
  unfold check_proof, proves. destruct (getProofForIndex _ _) as [p|]; cbn.
  - split; [intros [= ?]; eauto|]. by intros (p' & [= <-] & ->).
  - split; [done|]. by intros (p' & ? & _).
Qed.

Definition committed (h : BlockHeaderDocument) (previous : string) : list (Z * bytes) :=
  [(0, prev_hash_bytes (Some (hd_previousBlockHash h))); (1, hexToUint8Array previous);
   (2, hexToUint8Array (hd_hash h)); (3, hexToUint8Array (hd_merkleRoot h));
   (4, hexToUint8Array (hd_storageRoot h)); (5, hexToUint8Array (hd_receiptRoot h))].

Definition complete (h : BlockHeaderDocument) : Prop :=
  truthy_str (hd_checksumRoot h) = true ∧ truthy_str (hd_receiptRoot h) = true ∧
  truthy_str (hd_storageRoot h) = true ∧ truthy_str (hd_hash h) = true ∧
  truthy_str (hd_merkleRoot h) = true.

Lemma six_checks (c0 c1 c2 c3 c4 c5 : result header_error bool) :
  (b0 ← c0; b1 ← c1; b2 ← c2; b3 ← c3; b4 ← c4; b5 ← c5;
   Ok (b0 && b1 && b2 && b3 && b4 && b5)) = Ok true ↔
  c0 = Ok true ∧ c1 = Ok true ∧ c2 = Ok true ∧ c3 = Ok true ∧ c4 = Ok true ∧ c5 = Ok true.
Proof.
  destruct c0 as [[]|], c1 as [[]|], c2 as [[]|], c3 as [[]|], c4 as [[]|], c5 as [[]|];
    cbn; naive_solver.
Qed.

Lemma validate_true h c :
  cache_fresh storage c →
  (validateBlockChecksum LIGHT enableCaching storage (to_partial h) c).2 = Ok true ↔
  complete h ∧ link_target (hd_height h) = Ok (hd_previousBlockChecksum h) ∧
  truthy_str (hd_previousBlockChecksum h) = true ∧
  Forall (proves h) (committed h (hd_previousBlockChecksum h)).
Proof.
  intros Hc. unfold validateBlockChecksum, complete. cbn [ph_checksumRoot ph_height ph_receiptRoot
    ph_storageRoot ph_hash ph_merkleRoot ph_checksumProofs ph_previousBlockChecksum
    ph_previousBlockHash to_partial].
  destruct (truthy_str (hd_checksumRoot h)); cbn [negb]; [|split; [done|naive_solver]].
  destruct (truthy_str (hd_receiptRoot h)); cbn [negb andb]; [|split; [done|naive_solver]].
  destruct (truthy_str (hd_storageRoot h)); cbn [negb andb]; [|split; [done|naive_solver]].
  destruct (truthy_str (hd_hash h)); cbn [negb andb]; [|split; [done|naive_solver]].
  destruct (truthy_str (hd_merkleRoot h)); cbn [negb andb]; [|split; [done|naive_solver]].
  unfold mbind at 1, stx_bind at 1.
  destruct (previous_checksum_eq (hd_height h) c Hc) as (c' & -> & Hc').
  destruct (link_target (hd_height h)) as [prev|e]; [|split; [done|naive_solver]].
  destruct (truthy_str prev) eqn:Hprev; cbn [negb];
    [|split; [done|intros (_ & Heq & Ht & _); injection Heq as Heq; congruence]].
  case_decide as Hne;
    [split; [done|intros (_ & Heq & _); injection Heq as Heq; by destruct Hne; f_equal]|].
  assert (hd_previousBlockChecksum h = prev) as Heq.
  { by injection Hne. }
  unfold slift. cbn [snd]. rewrite six_checks, Heq. fold (toBytes (hd_checksumRoot h)).
  rewrite !check_proof_true. unfold committed. rewrite !Forall_cons, Forall_nil. naive_solver.
Qed.
End validation.

(** ** Properties *)

Section properties.
Context `{BtcLib} `{MerkleLib}.
Context (LIGHT enableCaching : bool) (storage : Z → option BlockHeaderDocument).

(** A header is accepted exactly when it is complete, names the checksum of
    the stored block before it (the zero hash at genesis), and carries for each
    of its six values a proof that verifies against its checksum root. *)
Theorem validateBlockChecksum_decides h c :
  storage_heights storage → cache_fresh storage c →
  (validateBlockChecksum LIGHT enableCaching storage (to_partial h) c).2 = Ok true ↔
  complete h ∧ link_target LIGHT storage (hd_height h) = Ok (hd_previousBlockChecksum h) ∧
  truthy_str (hd_previousBlockChecksum h) = true ∧
  Forall (proves h) (committed h (hd_previousBlockChecksum h)).
Proof. intros Hs Hc. by apply validate_true. Qed.

(** In a stored chain whose headers all validate (full mode), every block
    links to the checksum root of the block before it, down to genesis. *)
Theorem validated_chain_links n c :
  storage_heights storage → cache_fresh storage c → LIGHT = false →
  (∀ k, 0 ≤ k ≤ n → ∃ h, storage k = Some h ∧
     (validateBlockChecksum LIGHT enableCaching storage (to_partial h) c).2 = Ok true) →
  ∀ k h, 0 ≤ k ≤ n → storage k = Some h →
    if decide (k = 0) then hd_previousBlockChecksum h = ZERO_HASH
    else ∃ h', storage (k - 1) = Some h' ∧ hd_previousBlockChecksum h = hd_checksumRoot h'.
Proof.
  intros Hs Hc -> Hall k h Hk Hh. destruct (Hall k Hk) as (h0 & Hh0 & Hv). simplify_eq.
  apply validate_true in Hv as (_ & Hl & _); [|done..]. unfold link_target in Hl.
  rewrite (Hs _ _ Hh) in Hl. destruct (decide (k = 0)) as [Hk0|Hk0].
  - rewrite decide_True in Hl by lia. by injection Hl as <-.
  - rewrite decide_False in Hl by lia. destruct (storage (k - 1)) as [h'|]; [|done].
    exists h'. split; [done|]. destruct (truthy_str _); [|done]. by injection Hl as <-.
Qed.

Lemma or_else_truthy s f : truthy_str s = true → or_else s f = s.
Proof. unfold or_else. by intros ->. Qed.

Lemma getProofForIndex_imap tr (l : list bytes) (i : nat) x n :
  l !! i = Some x →
  getProofForIndex (imap (fun j h => (Z.of_nat (n + j), getProofHashesHex tr (getIndexHash tr h))) l)
    (Z.of_nat (n + i)) = Ok (getProofHashesHex tr (getIndexHash tr x)).
Proof.
  revert i n. induction l as [|y l IH]; intros i n; [done|]. rewrite imap_cons.
  destruct i as [|i]; cbn [lookup list_lookup getProofForIndex].
  - intros [= ->]. by rewrite decide_True.
  - intros Hi. rewrite decide_False by lia.
    replace (n + S i)%nat with (S n + i)%nat by lia.
    rewrite <-(IH i (S n) Hi). f_equal. apply imap_ext. intros j h _. cbn. do 2 f_equal. lia.
Qed.

(** Round trip: the header that [signBlock] builds on the checksum of the
    stored block before it is accepted by [validateBlockChecksum]. *)
Theorem signed_header_validates `{!MerkleLaws} hash height prevHash prevChecksum merkleRoot
    storageRoot receiptRoot h c :
  storage_heights storage → cache_fresh storage c →
  link_target LIGHT storage height = Ok prevChecksum →
  Forall (fun s => truthy_str s = true) [hash; prevChecksum; merkleRoot; storageRoot; receiptRoot] →
  signBlock hash height prevHash prevChecksum merkleRoot storageRoot receiptRoot = Ok h →
  truthy_str (hd_checksumRoot h) = true →
  (validateBlockChecksum LIGHT enableCaching storage (to_partial h) c).2 = Ok true.
Proof.
  intros Hs Hc Hlink Ht. rewrite !Forall_cons in Ht. destruct Ht as (T1 & T2 & T3 & T4 & T5 & _).
  unfold signBlock, ChecksumMerkle.setBlockData, ChecksumMerkle.initial, ChecksumMerkle.generateTree,
    ChecksumMerkle.root, ChecksumMerkle.getProofs.
  cbn [ChecksumMerkle.tree ChecksumMerkle.values app mbind result_bind].
  set (vals := [_; _; _; _; _; _]). set (tr := tree_new _). intros [= <-] T0.
  apply validate_true; [done..|]. cbn [hd_height hd_previousBlockChecksum].
  split; [by repeat split|]. split; [done|]. split; [done|].
  assert (committed (mkHeader hash height (rootHex tr) prevHash prevChecksum merkleRoot storageRoot
    receiptRoot (imap (fun i x => (Z.of_nat i, getProofHashesHex tr (getIndexHash tr x))) (hashes tr)))
    prevChecksum = vals) as ->.
  { unfold committed, vals, prev_hash_bytes, or_else. rewrite T1, T2, T3, T4, T5.
    cbn [hd_previousBlockHash hd_hash hd_merkleRoot hd_storageRoot hd_receiptRoot truthy_ostr
      from_option].
    destruct (truthy_str prevHash); [done|]. by rewrite hex_zero. }
  apply Forall_lookup. intros i v Hi. unfold proves. cbn [hd_checksumProofs hd_checksumRoot].
  assert (v.1 = Z.of_nat i) as Hvi.
  { unfold vals in Hi. do 6 (destruct i as [|i]; [by injection Hi as <-|]). done. }
  exists (getProofHashesHex tr (getIndexHash tr (merkle_hash (ChecksumMerkle.leaf v)))). split.
  - rewrite Hvi. apply (getProofForIndex_imap tr (hashes tr) i _ 0).
    unfold tr. rewrite hashes_new. rewrite !list_lookup_fmap. by rewrite Hi.
  - unfold ChecksumMerkle.verify. apply proof_verifies. apply list_elem_of_fmap_2.
    by eapply list_elem_of_lookup_2.
Qed.

(** The cache never changes an answer while it agrees with the storage, and
    it never holds more than 101 headers. *)
Theorem getBlockHeader_cached height c :
  storage_heights storage → cache_fresh storage c → (length c ≤ 101)%nat →
  ∃ c', getBlockHeader (E := header_error) enableCaching storage height c = (c', Ok (storage height)) ∧
    cache_fresh storage c' ∧ (length c' ≤ 101)%nat.
Proof.
  intros Hs Hc Hlen.
  destruct (getBlockHeader_fresh (E := header_error) enableCaching storage height c Hs Hc)
    as (c' & Heq & Hc'). exists c'. split; [done|]. split; [done|].
  unfold getBlockHeader in Heq. destruct (JsMap.get c height); [by simplify_eq|].
  destruct (storage height) as [h|]; [|by simplify_eq]. injection Heq as <-.
  unfold setToCache, ensureCacheSizeWithinLimit. destruct enableCaching; [|done].
  assert (∀ m : t, length (JsMap.set m (hd_height h) h) ≤ S (length m))%nat as Hset.
  { induction m as [|[k v] m IH]; cbn; [lia|]. case_decide; cbn; lia. }
  case_decide; [cbn; lia|]. specialize (Hset c). lia.
Qed.
End properties.

(** ** A concrete tree, and a chain of two headers

    One byte per leaf; the root lists them, so the proofs are empty. *)

Definition sum_hash (b : bytes) : bytes := [64 + (foldr Z.add 0 b) mod 64].

Definition chars (l : bytes) : string :=
  String.string_of_list_ascii ((fun z => Ascii.ascii_of_nat (Z.to_nat z)) <$> l).

Definition sum_merkle : MerkleLib := {|
  RustMerkleTree := list bytes;
  tree_new := fun l => sum_hash <$> l;
  rootHex := fun t => chars (104 :: concat t);
  hashes := fun t => t;
  getIndexHash := fun t h => default 0%nat (fst <$> list_find (h =.) t);
  getProofHashesHex := fun t i => [];
  merkle_hash := sum_hash;
  merkle_verify := fun proof root leaf => forallb (fun b => bool_decide (b ∈ root)) leaf;
  write_u8_bytes := fun u b => u :: b;
  hexToUint8Array := fun s => if String.eqb s ZERO_HASH then repeat 0 32
                              else @fromHex string_btclib s
|}.

Lemma codes_chars l :
  Forall (fun z => 0 ≤ z < 256) l → @fromHex string_btclib (chars l) = l.
Proof.
  intros Hl. unfold chars. cbn [fromHex string_btclib].
  rewrite String.list_ascii_of_string_of_list_ascii, <-list_fmap_compose.
  induction Hl as [|z l Hz Hl IH]; [done|]. rewrite fmap_cons, IH. f_equal. cbn.
  rewrite Ascii.nat_ascii_embedding by lia. lia.
Qed.

Lemma strip0x_other a s : a ≠ "0"%char → strip0x (String a s) = String a s.
Proof. intros Ha. destruct s as [|b s]; [done|]. cbn. rewrite decide_False; naive_solver. Qed.

Lemma sum_merkle_laws : @MerkleLaws string_btclib sum_merkle.
Proof.
  constructor; [done| |reflexivity]. intros l x Hx.
  assert (Forall (fun z => 0 ≤ z < 256) (104 :: concat (sum_hash <$> l))) as Hr.
  { constructor; [lia|]. clear Hx. induction l as [|y l IH]; [constructor|].
    cbn. constructor; [|done]. pose proof (Z.mod_pos_bound (foldr Z.add 0 y) 64). lia. }
  assert (@toBytes string_btclib (@rootHex sum_merkle (@tree_new sum_merkle l))
          = 104 :: concat (sum_hash <$> l)) as ->.
  { transitivity (@fromHex string_btclib (chars (104 :: concat (sum_hash <$> l)))).
    - unfold toBytes. f_equal. apply (strip0x_other "h"). done.
    - by apply codes_chars. }
  cbn [merkle_verify sum_merkle merkle_hash]. apply forallb_forall. intros b Hb.
  apply bool_decide_eq_true. right. apply list_elem_of_In, in_concat.
  exists (sum_hash x). split; [|done]. apply list_elem_of_In. by apply list_elem_of_fmap_2.
Qed.

Definition sign_example (hash : string) (height : Z) (prev : string) : BlockHeaderDocument :=
  match @signBlock string_btclib sum_merkle hash height "" prev "merkle" "storage" "receipt" with
  | Ok h => h
  | Throw _ => mkHeader "" 0 "" "" "" "" "" "" []
  end.

Definition header0 : BlockHeaderDocument := sign_example "genesis" 0 ZERO_HASH.
Definition header1 : BlockHeaderDocument := sign_example "block1" 1 (hd_checksumRoot header0).

Definition two_headers (h : Z) : option BlockHeaderDocument :=
  if decide (h = 0) then Some header0 else if decide (h = 1) then Some header1 else None.

Lemma two_headers_heights : storage_heights two_headers.
Proof. intros h d. unfold two_headers. repeat case_decide; intros [= <-]; vm_compute; done. Qed.

Lemma empty_cache_fresh storage : cache_fresh storage [].
Proof. done. Qed.

Lemma signed_header_validates_witness :
  (@validateBlockChecksum string_btclib sum_merkle false true two_headers
     (to_partial header1) []).2 = Ok true.
Proof.
  refine (@signed_header_validates string_btclib sum_merkle false true two_headers sum_merkle_laws
    "block1" 1 "" (hd_checksumRoot header0) "merkle" "storage" "receipt" header1 []
    two_headers_heights (empty_cache_fresh _) _ _ _ _).
  - vm_compute. reflexivity.
  - vm_compute. repeat constructor.
  - vm_compute. reflexivity.
  - vm_compute. reflexivity.
Defined.

Lemma validateBlockChecksum_decides_witness :
  (@validateBlockChecksum string_btclib sum_merkle false true two_headers
     (to_partial header0) []).2 = Ok true ∧
  Forall (@proves string_btclib sum_merkle header0)
    (@committed sum_merkle header0 (hd_previousBlockChecksum header0)).
Proof.
  split; [vm_compute; reflexivity|].
  refine (proj2 (proj2 (proj2 (proj1 (@validateBlockChecksum_decides string_btclib sum_merkle false
    true two_headers header0 [] two_headers_heights (empty_cache_fresh _)) _)))).
  vm_compute. reflexivity.
Defined.

Lemma validated_chain_links_witness :
  hd_previousBlockChecksum header0 = ZERO_HASH ∧
  ∃ h', two_headers 0 = Some h' ∧ hd_previousBlockChecksum header1 = hd_checksumRoot h'.
Proof.
  assert (∀ k, 0 ≤ k ≤ 1 → ∃ h, two_headers k = Some h ∧
    (@validateBlockChecksum string_btclib sum_merkle false true two_headers (to_partial h) []).2
    = Ok true) as Hall.
  { intros k Hk. assert (k = 0 ∨ k = 1) as [Hk0|Hk0] by lia; rewrite Hk0.
    - exists header0. split; [reflexivity|vm_compute; reflexivity].
    - exists header1. split; [reflexivity|vm_compute; reflexivity]. }
  pose proof (@validated_chain_links string_btclib sum_merkle false true two_headers 1 []
    two_headers_heights (empty_cache_fresh _) eq_refl Hall) as Hlinks.
  split; [exact (Hlinks 0 header0 ltac:(lia) eq_refl)|exact (Hlinks 1 header1 ltac:(lia) eq_refl)].
Defined.

Lemma getBlockHeader_cached_witness :
  ∃ c', getBlockHeader (E := header_error) true two_headers 1 [] = (c', Ok (Some header1)) ∧
    cache_fresh two_headers c' ∧ (length c' ≤ 101)%nat.
Proof.
  exact (getBlockHeader_cached true two_headers 1 [] two_headers_heights (empty_cache_fresh _)
    ltac:(cbn; lia)).
Defined.
