(* ===== verification/Reorg.v ===== *)
(** * Detecting a reorganisation of the chain
    (processor/reorg/ReorgWatchdog.ts)

    After a block was executed the watchdog decides whether it still extends the
    stored chain; if not, it looks for the last good block and tells its
    listeners.  The Bitcoin RPC client, the storage of headers and the listeners
    are arguments; the header validator, whose cache is part of the state, is the
    one of [HeaderValidator]. *)

From S2P Require Import Prelude HeaderValidator.

Record LastBlock : Type := mkLast {
  lb_hash : option string;
  lb_checksum : option string;
  lb_blockNumber : option Z;
  lb_opnetBlock : option BlockHeaderDocument
}.

Definition no_block : LastBlock := mkLast None None None None.

Record HeaderInfo : Type := mkInfo {
  blockNumber : Z;
  blockHash : string;
  previousBlockHash : string
}.

Inductive reorg_error : Type :=
| LastBlockNotSet
| CurrentHeaderNotSet
| RpcError (e : string)
| NoBlockHash (height : Z)
| NoRpcHeader (height : Z)
| FetchingBlockHash
| FetchingBlockHeader
| FetchingLastGood
| FetchingPrevious (height : Z)
| BlockNotReady
| ListenerFailed (e : string)
(** Not an exception of the code: the fuel of a loop ran out. *)
| ReorgFuel.

(** What is read of a block; the getters throw until the block is finalised. *)
Record Block : Type := mkBlock {
  bk_height : Z;
  bk_hash : string;
  bk_previousBlockHash : string;
  bk_previousBlockChecksum : option string;
  (** checksumRoot and getBlockHeaderDocument() *)
  bk_signed : option (string * BlockHeaderDocument)
}.

Module ReorgWatchdog.
Section ReorgWatchdog.
Context `{BtcLib} `{MerkleLib}.
Context (LIGHT enableCaching ALWAYS_ENABLE_REORG_VERIFICATION : bool).
(** [rpcClient.getBlockHash] (null when unknown) and the [previousblockhash] of
    [rpcClient.getBlockHeader]; both can reject. *)
Context (getBlockHash : Z → result string (option string)).
Context (getRpcHeader : string → result string (option string)).
Context (storage : Z → option BlockHeaderDocument).
Context (Listener : Type) (listen : Listener → Z → Z → string → result string unit).

Record t : Type := mk {
  reorgListeners : list Listener;
  lastBlock : LastBlock;
  currentHeader_ : option HeaderInfo;
  validator : BlockHeaderValidator.t;
  (** the calls of the listeners, oldest first *)
  notified : list (Listener * (Z * Z * string))
}.

Definition initial : t := mk [] no_block None [] [].

Definition set_lastBlock (b : LastBlock) (s : t) : t :=
  mk (reorgListeners s) b (currentHeader_ s) (validator s) (notified s).
Definition set_header (h : option HeaderInfo) (s : t) : t :=
  mk (reorgListeners s) (lastBlock s) h (validator s) (notified s).
Definition set_validator (v : BlockHeaderValidator.t) (s : t) : t :=
  mk (reorgListeners s) (lastBlock s) (currentHeader_ s) v (notified s).
Definition log_call (l : Listener) (c : Z * Z * string) (s : t) : t :=
  mk (reorgListeners s) (lastBlock s) (currentHeader_ s) (validator s) (notified s ++ [(l, c)]).

Definition pendingBlockHeight (s : t) : result reorg_error Z :=
  match lb_blockNumber (lastBlock s) with Some n => Ok n | None => Throw LastBlockNotSet end.

Definition currentHeader (s : t) : result reorg_error HeaderInfo :=
  match currentHeader_ s with Some h => Ok h | None => Throw CurrentHeaderNotSet end.

(** height, hash and previousblockhash of the RPC header *)
Definition onBlockChange (height : Z) (hash prev : string) (s : t) : t :=
  set_header (Some (mkInfo height hash prev)) s.

Definition subscribeToReorgs (cb : Listener) (s : t) : t :=
  mk (reorgListeners s ++ [cb]) (lastBlock s) (currentHeader_ s) (validator s) (notified s).

(** An awaited call of the RPC client. *)
Definition rpc {A} (r : result string A) : result reorg_error A :=
  match r with Ok a => Ok a | Throw e => Throw (RpcError e) end.

(** [init] calls itself on the height below when the stored header of that
    height is missing. *)
Fixpoint init (fuel : nat) (currentHeight : Z) : stx t reorg_error unit := fun s =>
  match fuel with
  | O => (s, Throw ReorgFuel)
  | S fuel' =>
      match (h ← rpc (getBlockHash currentHeight);
             hash ← (if truthy_ostr h then Ok (default "" h) else Throw (NoBlockHash currentHeight));
             hd ← rpc (getRpcHeader hash);
             match hd with
             | Some prev => Ok (mkInfo currentHeight hash prev)
             | None => Throw (NoRpcHeader currentHeight)
             end) with
      | Throw e => (s, Throw e)
      | Ok info =>
          let s1 := set_header (Some info) s in
          if decide (currentHeight - 1 = -1)
          then (set_lastBlock (mkLast None None (Some (-1)) None) s1, Ok tt)
          else
            let height := currentHeight - 1 in
            match storage height with
            | None => init fuel' height s1
            | Some lb =>
                (set_lastBlock (mkLast (Some (hd_hash lb)) (Some (hd_checksumRoot lb))
                   (Some currentHeight) (Some lb)) s1, Ok tt)
            end
      end
  end.

Definition init_fuel (currentHeight : Z) : nat := S (Z.to_nat currentHeight).

Definition updateBlock (block : Block) : stx t reorg_error unit := fun s =>
  match bk_signed block with
  | None => (s, Throw BlockNotReady)
  | Some (checksumRoot, doc) =>
      (set_lastBlock (mkLast (Some (bk_hash block)) (Some checksumRoot) (Some (bk_height block))
         (Some doc)) s, Ok tt)
  end.

(** The first loop of [revertToLastGoodBlock]: [None] is its early return. *)
Fixpoint find_common (fuel : nat) (previousBlock : Z) : result reorg_error (option Z) :=
  match fuel with
  | O => Throw ReorgFuel
  | S fuel' =>
      let previousBlock := previousBlock - 1 in
      if decide (previousBlock < 0) then Ok None
      else
        currentBlockHash ← rpc (getBlockHash previousBlock);
        match currentBlockHash, storage previousBlock with
        | None, _ => Throw FetchingBlockHash
        | Some _, None => Throw FetchingBlockHeader
        | Some hash, Some savedBlockHeader =>
            if decide (hd_hash savedBlockHeader = hash) then Ok (Some previousBlock)
            else find_common fuel' previousBlock
        end
  end.

(** [validateBlockChecksum] under [try]: a throw counts as a bad block. *)
Definition checksum_good (hdr : BlockHeaderDocument) (s : t) : t * bool :=
  match BlockHeaderValidator.validateBlockChecksum LIGHT enableCaching storage (to_partial hdr)
          (validator s) with
  | (v, Ok b) => (set_validator v s, b)
  | (v, Throw _) => (set_validator v s, false)
  end.

(** The second loop: [do ... while (previousBlock-- > 0)]. *)
Fixpoint find_verified (fuel : nat) (previousBlock : Z) : stx t reorg_error Z := fun s =>
  match fuel with
  | O => (s, Throw ReorgFuel)
  | S fuel' =>
      match storage previousBlock with
      | None => (s, Ok previousBlock)
      | Some opnetHeaders =>
          let '(s1, good) := checksum_good opnetHeaders s in
          if good then (s1, Ok previousBlock)
          else if decide (0 < previousBlock) then find_verified fuel' (previousBlock - 1) s1
          else (s1, Ok (previousBlock - 1))
      end
  end.

Definition revertToLastGoodBlock (height : Z) : stx t reorg_error Z := fun s =>
  match find_common (S (Z.to_nat height)) height with
  | Throw e => (s, Throw e)
  | Ok None => (s, Ok 0)
  | Ok (Some previousBlock) => find_verified (S (Z.to_nat previousBlock)) previousBlock s
  end.

Definition notifyReorgListeners (fromHeight toHeight : Z) (newBest : string)
  : stx t reorg_error unit := fun s =>
  sfor (reorgListeners s) (fun l s' =>
    let s1 := log_call l (fromHeight, toHeight, newBest) s' in
    match listen l fromHeight toHeight newBest with
    | Ok _ => (s1, Ok tt)
    | Throw e => (s1, Throw (ListenerFailed e))
    end) s.

Definition restoreBlockchain (tip : Z) : stx t reorg_error unit :=
  lastGoodBlock ← revertToLastGoodBlock tip;
  match storage lastGoodBlock with
  | None => sthrow FetchingLastGood
  | Some lastGoodBlockHeader =>
      _ ← smod (set_lastBlock no_block);
      notifyReorgListeners (lastGoodBlock + 1) tip (hd_hash lastGoodBlockHeader)
  end.

Definition getLastBlockHash (height : Z) : stx t reorg_error (option LastBlock) := fun s =>
  let lb := lastBlock s in
  if decide (height = -1) then (s, Ok None)
  else if truthy_ostr (lb_hash lb) && truthy_ostr (lb_checksum lb)
          && bool_decide (lb_blockNumber lb = Some height)
  then (s, Ok (Some (mkLast (lb_hash lb) (lb_checksum lb) None (lb_opnetBlock lb))))
  else
    match BlockHeaderValidator.getBlockHeader (E := reorg_error) enableCaching storage height
            (validator s) with
    | (v, Ok (Some d)) =>
        (set_validator v s,
         Ok (Some (mkLast (Some (hd_hash d)) (Some (hd_checksumRoot d)) (Some height) (Some d))))
    | (v, Ok None) => (set_validator v s, Throw (FetchingPrevious height))
    | (v, Throw e) => (set_validator v s, Throw e)
    end.

(** The last [try] of [verifyChainReorg]; a throw counts as a reorganisation. *)
Definition check_proofs (block : Block) (opnetBlock : BlockHeaderDocument)
  : stx t reorg_error bool := fun s =>
  match BlockHeaderValidator.validateBlockChecksum LIGHT enableCaching storage
          (to_partial opnetBlock) (validator s) with
  | (v, Throw _) => (set_validator v s, Ok true)
  | (v, Ok verifiedProofs) =>
      match bk_previousBlockChecksum block with
      | None => (set_validator v s, Ok true)
      | Some checksum =>
          (set_validator v s,
           Ok (negb (String.eqb (hd_checksumRoot opnetBlock) checksum) || negb verifiedProofs))
      end
  end.

Definition verifyChainReorg (block : Block) : stx t reorg_error bool :=
  let previousBlock := bk_height block - 1 in
  if decide (previousBlock ≤ 0) then mret false
  else
    previous ← getLastBlockHash previousBlock;
    match previous with
    | None => sthrow (FetchingPrevious previousBlock)
    | Some p =>
        match lb_opnetBlock p with
        | None => sthrow (FetchingPrevious previousBlock)
        | Some opnetBlock =>
            if decide (Some (bk_previousBlockHash block) ≠ lb_hash p) then mret true
            else check_proofs block opnetBlock
        end
    end.

(** The tip and the block of an indexing task. *)
Definition verifyChainReorgForBlock (tip : Z) (block : Block) : stx t reorg_error bool :=
  header ← ((fun s => (s, currentHeader s)) : stx t reorg_error HeaderInfo);
  if bool_decide (100 ≤ blockNumber header - tip) && negb ALWAYS_ENABLE_REORG_VERIFICATION
  then _ ← updateBlock block; mret false
  else
    chainReorged ← verifyChainReorg block;
    if negb chainReorged
    then
      if bool_decide (blockNumber header = tip) && negb (String.eqb (blockHash header) (bk_hash block))
      then _ ← restoreBlockchain tip; mret true
      else _ ← updateBlock block; mret false
    else _ ← restoreBlockchain tip; mret true.

End ReorgWatchdog.
End ReorgWatchdog.
