(* ===== verification/ReorgFacts.v ===== *)
(** * Facts about the reorganisation watchdog

    The block it reverts to is the highest one the network agrees on and whose
    checksum validates; a block is let through only when it extends the stored
    chain; every search ends. *)

From S2P Require Import Prelude HeaderValidator Reorg.
Import ReorgWatchdog.

Section watchdog.
Context `{BtcLib} `{MerkleLib}.
Context (LIGHT enableCaching ALWAYS : bool).
Context (getBlockHash : Z → result string (option string)).
Context (getRpcHeader : string → result string (option string)).
Context (storage : Z → option BlockHeaderDocument).
Context {Listener : Type} (listen : Listener → Z → Z → string → result string unit).
Hypothesis Hheights : storage_heights storage.
Implicit Types s : t Listener.

(** The network and the storage have the same block, or not, at a height. *)
Definition same_block (h : Z) : Prop :=
  ∃ d hash, storage h = Some d ∧ getBlockHash h = Ok (Some hash) ∧ hd_hash d = hash.
Definition other_block (h : Z) : Prop :=
  ∃ d hash, storage h = Some d ∧ getBlockHash h = Ok (Some hash) ∧ hd_hash d ≠ hash.

(** The stored header at a height validates, or not. *)
Definition valid_header (d : BlockHeaderDocument) : bool :=
  match (BlockHeaderValidator.validateBlockChecksum LIGHT enableCaching storage (to_partial d) []).2
  with Ok b => b | Throw _ => false end.
Definition bad_header (h : Z) : Prop := ∃ d, storage h = Some d ∧ valid_header d = false.

(** The watchdog's validator cache agrees with the storage. *)
Definition fresh s : Prop := cache_fresh storage (validator _ s).

(** Nothing but the validator cache changed. *)
Definition only_cache s s' : Prop :=
  s' = set_validator _ (validator _ s') s ∧ fresh s'.

Lemma only_cache_refl s : fresh s → only_cache s s.
Proof. intros Hf. split; [by destruct s|done]. Qed.

Lemma only_cache_trans s1 s2 s3 : only_cache s1 s2 → only_cache s2 s3 → only_cache s1 s3.
Proof. intros [H1 _] [H2 ?]. split; [|done]. rewrite H2, H1. by destruct s1. Qed.

Lemma find_common_spec fuel p :
  (Z.to_nat p < fuel)%nat →
  match find_common getBlockHash storage fuel p with
  | Ok None => ∀ h, 0 ≤ h < p → other_block h
  | Ok (Some g) => 0 ≤ g < p ∧ same_block g ∧ ∀ h, g < h < p → other_block h
  | Throw e => e ≠ ReorgFuel ∧ ∃ h, 0 ≤ h < p ∧ (∀ k, h < k < p → other_block k) ∧
      ¬ same_block h ∧ ¬ other_block h
  end.
Proof.
  revert p. induction fuel as [|fuel IH]; intros p Hf; [lia|]. cbn [find_common].
  case_decide as Hp; [intros h ?; lia|].
  assert (∀ h, p - 1 < h < p → other_block h) as Htop by (intros h ?; lia).
  destruct (getBlockHash (p - 1)) as [[hash|]|e] eqn:Hh; cbn [rpc mbind result_bind].
  - destruct (storage (p - 1)) as [d|] eqn:Hd.
    + case_decide as Heq.
      * split; [lia|]. split; [by exists d, hash|done].
      * assert (other_block (p - 1)) as Ho by (by exists d, hash).
        specialize (IH (p - 1) ltac:(lia)).
        assert (∀ g, (∀ h, g < h < p - 1 → other_block h) → ∀ h, g < h < p → other_block h) as Hext.
        { intros g Hg h Hhp. destruct (decide (h = p - 1)) as [->|]; [done|]. apply Hg. lia. }
        destruct (find_common _ _ fuel (p - 1)) as [[g|]|e].
        -- destruct IH as (? & ? & ?). split; [lia|]. eauto.
        -- intros h Hhp. apply (Hext (-1)); [|lia]. intros k Hk. apply IH. lia.
        -- destruct IH as (? & h & ? & ? & ?). split; [done|]. exists h. split; [lia|]. eauto.
    + split; [done|]. exists (p - 1). split; [lia|]. split; [done|].
      split; intros (d & ? & ? & _); congruence.
  - split; [done|]. exists (p - 1). split; [lia|]. split; [done|].
    split; intros (d & ? & _ & ? & _); congruence.
  - split; [done|]. exists (p - 1). split; [lia|]. split; [done|].
    split; intros (d & ? & _ & ? & _); congruence.
Qed.

Lemma checksum_good_spec d s :
  fresh s →
  ∃ s', checksum_good LIGHT enableCaching storage Listener d s = (s', valid_header d) ∧
    only_cache s s'.
Proof.
  intros Hf. unfold checksum_good.
  destruct (validate_fresh LIGHT enableCaching storage Hheights (to_partial d) (validator _ s) Hf)
    as [Hr Hc].
  unfold valid_header. rewrite <-Hr. clear Hr.
  destruct (BlockHeaderValidator.validateBlockChecksum _ _ _ _ (validator _ s)) as [v [b|e]];
    cbn in Hc |- *; eexists; (split; [done|]); split; done.
Qed.

Lemma find_verified_spec fuel p s :
  fresh s → 0 ≤ p → (Z.to_nat p < fuel)%nat →
  ∃ s' b, find_verified LIGHT enableCaching storage Listener fuel p s = (s', Ok b) ∧
    only_cache s s' ∧ -1 ≤ b ≤ p ∧ (∀ h, b < h ≤ p → bad_header h) ∧
    (0 ≤ b → ∀ d, storage b = Some d → valid_header d = true).
Proof.
  revert p s. induction fuel as [|fuel IH]; intros p s Hf Hp Hfuel; [lia|]. cbn [find_verified].
  destruct (storage p) as [d|] eqn:Hd.
  - destruct (checksum_good_spec d s Hf) as (s1 & -> & Hc1). destruct (valid_header d) eqn:Hv.
    + exists s1, p. split_and!; [done|done|lia|lia|intros h ?; lia|]. intros _ d' ?. congruence.
    + assert (bad_header p) as Hbad by (by exists d). case_decide as Hpos.
      * destruct (IH (p - 1) s1) as (s2 & b & -> & Hc2 & Hb & Hbads & Hok); [apply Hc1|lia|lia|].
        exists s2, b. split_and!; [done|by eapply only_cache_trans|lia|lia| |done].
        intros h Hh. destruct (decide (h = p)) as [->|]; [done|]. apply Hbads. lia.
      * exists s1, (p - 1). split_and!; [done|done|lia|lia| |lia].
        intros h Hh. by replace h with p by lia.
  - exists s, p. split_and!; [done|by apply only_cache_refl|lia|lia|intros h ?; lia|congruence].
Qed.

(** The block to go back to from [tip]: below every disagreement with the
    network and every invalid checksum. *)
Definition last_good (tip b : Z) : Prop :=
  (b = 0 ∧ ∀ h, 0 ≤ h < tip → other_block h) ∨
  ∃ g, 0 ≤ g < tip ∧ same_block g ∧ (∀ h, g < h < tip → other_block h) ∧
    -1 ≤ b ≤ g ∧ (∀ h, b < h ≤ g → bad_header h) ∧
    (0 ≤ b → ∀ d, storage b = Some d → valid_header d = true).

Lemma revert_cases tip s :
  fresh s →
  match revertToLastGoodBlock LIGHT enableCaching getBlockHash storage Listener tip s with
  | (s', Ok b) => only_cache s s' ∧ last_good tip b
  | (s', Throw e) => s' = s ∧ e ≠ ReorgFuel ∧ ∃ h, 0 ≤ h < tip ∧
      (∀ k, h < k < tip → other_block k) ∧ ¬ same_block h ∧ ¬ other_block h
  end.
Proof.
  intros Hf. unfold revertToLastGoodBlock.
  pose proof (find_common_spec (S (Z.to_nat tip)) tip ltac:(lia)) as Hc.
  destruct (find_common _ _ _ tip) as [[g|]|e].
  - destruct Hc as (Hg & Hsame & Hoth).
    destruct (find_verified_spec (S (Z.to_nat g)) g s Hf ltac:(lia) ltac:(lia))
      as (s' & b & -> & Hcache & Hb & Hbad & Hok).
    split; [done|]. right. exists g. split_and!; try done; lia.
  - split; [by apply only_cache_refl|]. by left.
  - split; [done|]. done.
Qed.

(** [revertToLastGoodBlock] ends, and returns the last good block: the
    network and the storage agree on it or on a block above it, they disagree
    on all higher blocks, every header between fails validation, and its own,
    when stored, validates ([-1] when none does, [0] when nothing is common).
    It throws only at a height where a header or the network is unavailable. *)
Theorem revertToLastGoodBlock_spec tip s :
  fresh s →
  match revertToLastGoodBlock LIGHT enableCaching getBlockHash storage Listener tip s with
  | (s', Ok b) => only_cache s s' ∧ last_good tip b
  | (s', Throw e) => s' = s ∧ e ≠ ReorgFuel ∧ ∃ h, 0 ≤ h < tip ∧
      (∀ k, h < k < tip → other_block k) ∧ ¬ same_block h ∧ ¬ other_block h
  end.
Proof. apply revert_cases. Qed.

(** What the listeners are told, when none of them throws. *)
Lemma notify_spec from to newBest s s' :
  notifyReorgListeners Listener listen from to newBest s = (s', Ok tt) →
  notified _ s' = notified _ s ++ ((fun l => (l, (from, to, newBest))) <$> reorgListeners _ s) ∧
  reorgListeners _ s' = reorgListeners _ s ∧ lastBlock _ s' = lastBlock _ s ∧
  currentHeader_ _ s' = currentHeader_ _ s ∧ validator _ s' = validator _ s.
Proof.
  unfold notifyReorgListeners.
  assert (∀ ls s0, sfor ls (fun l s' =>
      let s1 := log_call _ l (from, to, newBest) s' in
      match listen l from to newBest with
      | Ok _ => (s1, Ok tt)
      | Throw e => (s1, Throw (ListenerFailed e))
      end) s0 = (s', Ok tt) →
    notified _ s' = notified _ s0 ++ ((fun l => (l, (from, to, newBest))) <$> ls) ∧
    reorgListeners _ s' = reorgListeners _ s0 ∧ lastBlock _ s' = lastBlock _ s0 ∧
    currentHeader_ _ s' = currentHeader_ _ s0 ∧ validator _ s' = validator _ s0) as Hgen.
  { induction ls as [|l ls IH]; intros s0; cbn [sfor].
    - intros [= <-]. by rewrite app_nil_r.
    - unfold mbind, stx_bind. destruct (listen l from to newBest); [|done].
      intros (-> & -> & -> & -> & ->)%IH. cbn. by rewrite <-app_assoc. }
  apply Hgen.
Qed.

Lemma restore_spec tip s s' :
  fresh s →
  restoreBlockchain LIGHT enableCaching getBlockHash storage Listener listen tip s = (s', Ok tt) →
  ∃ b d, last_good tip b ∧ storage b = Some d ∧
    notified _ s' = notified _ s ++
      ((fun l => (l, (b + 1, tip, hd_hash d))) <$> reorgListeners _ s) ∧
    lastBlock _ s' = no_block ∧ fresh s'.
Proof.
  intros Hf. unfold restoreBlockchain, mbind, stx_bind.
  pose proof (revert_cases tip s Hf) as Hr.
  destruct (revertToLastGoodBlock _ _ _ _ _ tip s) as [s1 [b|e]]; [|done].
  destruct Hr as [[Hs1 Hf1] Hlg]. destruct (storage b) as [d|] eqn:Hd; [|done].
  unfold smod. intros (Hn & _ & Hl & _ & Hv)%notify_spec. exists b, d.
  split_and!; [done|done| |by rewrite Hl|unfold fresh; by rewrite Hv].
  rewrite Hn. cbn. rewrite Hs1. done.
Qed.

(** The header the watchdog compares a block of height [h + 1] with: the block
    it let through last, when that is block [h], or the stored header. *)
Definition previous_header s (h : Z) (hash : string) (d : BlockHeaderDocument) : Prop :=
  (lb_blockNumber (lastBlock _ s) = Some h ∧ lb_hash (lastBlock _ s) = Some hash ∧
   lb_opnetBlock (lastBlock _ s) = Some d) ∨
  (storage h = Some d ∧ hd_hash d = hash).

Lemma getLastBlockHash_spec h s s' p :
  fresh s →
  getLastBlockHash enableCaching storage Listener h s = (s', Ok (Some p)) →
  only_cache s s' ∧ ∀ d hash, lb_opnetBlock p = Some d → lb_hash p = Some hash →
    previous_header s h hash d.
Proof.
  intros Hf. unfold getLastBlockHash. case_decide; [done|].
  destruct (truthy_ostr _ && _ && _) eqn:Hc.
  - rewrite !andb_true_iff in Hc. destruct Hc as [_ Hn%bool_decide_eq_true].
    intros [= <- <-]. split; [by apply only_cache_refl|]. cbn. intros d hash ? ?. left. done.
  - destruct (getBlockHeader_fresh (E := reorg_error) enableCaching storage h (validator _ s)
      Hheights Hf) as (c' & -> & Hc'). destruct (storage h) as [d|] eqn:Hd; [|done].
    intros [= <- <-]. split; [done|]. intros d' hash [= <-] [= <-]. right. done.
Qed.

Lemma verifyChainReorg_spec block s s' r :
  fresh s →
  verifyChainReorg LIGHT enableCaching storage Listener block s = (s', Ok r) →
  only_cache s s' ∧
  (r = false → bk_height block ≤ 1 ∨ ∃ d,
     previous_header s (bk_height block - 1) (bk_previousBlockHash block) d ∧
     valid_header d = true ∧ bk_previousBlockChecksum block = Some (hd_checksumRoot d)).
Proof.
  intros Hf. unfold verifyChainReorg. case_decide as Hg.
  { intros [= <- <-]. split; [by apply only_cache_refl|]. left. lia. }
  unfold mbind, stx_bind.
  destruct (getLastBlockHash enableCaching storage Listener (bk_height block - 1) s)
    as [s1 [[p|]|e]] eqn:Hlast; try done.
  destruct (getLastBlockHash_spec _ _ _ _ Hf Hlast) as [Hc1 Hprev].
  destruct (lb_opnetBlock p) as [d|] eqn:Hd; [|done].
  case_decide as Hhash; [intros [= <- <-]; done|].
  unfold check_proofs.
  destruct (validate_fresh LIGHT enableCaching storage Hheights (to_partial d) (validator _ s1)
    (proj2 Hc1)) as [Hr Hcache].
  destruct (BlockHeaderValidator.validateBlockChecksum _ _ _ _ (validator _ s1)) as [v res] eqn:Hval.
  cbn [fst snd] in Hr, Hcache.
  assert (only_cache s1 (set_validator _ v s1)) as Hc2 by done.
  assert (only_cache s (set_validator _ v s1)) as Hc3 by (by eapply only_cache_trans).
  destruct res as [b|e]; [|intros [= <- <-]; done].
  destruct (bk_previousBlockChecksum block) as [checksum|] eqn:Hck; [|intros [= <- <-]; done].
  intros [= <- <-]. split; [done|]. rewrite orb_false_iff, !negb_false_iff.
  intros [<-%String.eqb_eq ->]. right. exists d. split_and!; [by apply Hprev| |done].
  unfold valid_header. by rewrite <-Hr.
Qed.

(** C35: What is known of a block that is let through ([false]).  It has a checksum
    of its own and becomes the last block, and no listener is called.  When the
    node is 100 blocks or more behind, and is not told to verify always (it is
    not by default), nothing was checked.  Otherwise a block at the network's
    tip is the network's block, and a block beyond height 1 extends the chain:
    the header below it, stored or of the block last accepted, has the hash and
    the checksum the block names, and validates. *)
Theorem accepted_block_extends tip block s s' :
  fresh s →
  verifyChainReorgForBlock LIGHT enableCaching ALWAYS getBlockHash storage Listener listen
    tip block s = (s', Ok false) →
  ∃ info checksum doc, currentHeader_ _ s = Some info ∧ bk_signed block = Some (checksum, doc) ∧
    lastBlock _ s' = mkLast (Some (bk_hash block)) (Some checksum) (Some (bk_height block)) (Some doc) ∧
    notified _ s' = notified _ s ∧ fresh s' ∧
    ((100 ≤ blockNumber info - tip ∧ ALWAYS = false) ∨
     ((blockNumber info = tip → blockHash info = bk_hash block) ∧
      (bk_height block ≤ 1 ∨ ∃ d,
        previous_header s (bk_height block - 1) (bk_previousBlockHash block) d ∧
        valid_header d = true ∧ bk_previousBlockChecksum block = Some (hd_checksumRoot d)))).
Proof.
  intros Hf. unfold verifyChainReorgForBlock, mbind, stx_bind, currentHeader.
  destruct (currentHeader_ _ s) as [info|] eqn:Hcur; [|done].
  assert (∀ s1 s2, only_cache s s1 → (let (s3, r) := updateBlock Listener block s1 in
      match r with Ok _ => (s3, Ok false) | Throw e => (s3, Throw e) end) = (s2, Ok false) →
    ∃ checksum doc, bk_signed block = Some (checksum, doc) ∧
      lastBlock _ s2 = mkLast (Some (bk_hash block)) (Some checksum) (Some (bk_height block)) (Some doc) ∧
      notified _ s2 = notified _ s ∧ fresh s2) as Hupd.
  { intros s1 s2 [Hs1 Hf1]. unfold updateBlock. destruct (bk_signed block) as [[checksum doc]|]; [|done].
    intros [= <-]. exists checksum, doc. split_and!; [done|done| |done]. by rewrite Hs1. }
  destruct (bool_decide (100 ≤ blockNumber info - tip) && negb ALWAYS) eqn:Hfar.
  - apply andb_true_iff in Hfar as [Hfar%bool_decide_eq_true Halw%negb_true_iff].
    intros Heq. destruct (Hupd s s') as (checksum & doc & ? & ? & ? & ?); [by apply only_cache_refl|exact Heq|].
    exists info, checksum, doc. split_and!; try done. by left.
  - destruct (verifyChainReorg LIGHT enableCaching storage Listener block s) as [s1 [r|e]] eqn:Hv; [|done].
    destruct (verifyChainReorg_spec _ _ _ _ Hf Hv) as [Hc Hr]. destruct r; cbn [negb].
    + destruct (restoreBlockchain _ _ _ _ _ _ tip s1) as [s2 [[]|e]]; done.
    + destruct (bool_decide (blockNumber info = tip) && negb (String.eqb (blockHash info) (bk_hash block))) eqn:Htip.
      * destruct (restoreBlockchain _ _ _ _ _ _ tip s1) as [s2 [[]|e]]; done.
      * intros Heq. destruct (Hupd s1 s' Hc Heq) as (checksum & doc & ? & ? & ? & ?).
        exists info, checksum, doc. split_and!; try done. right. split; [|by apply Hr].
        intros Hb. apply andb_false_iff in Htip as [Htip%bool_decide_eq_false|Htip]; [done|].
        apply negb_false_iff in Htip. by apply String.eqb_eq.
Qed.

(** When a reorganisation is found ([true]) every listener was told, in
    order, to go back to just after the last good block, with its stored hash,
    and the last block is forgotten. *)
Theorem reorg_notifies_last_good tip block s s' :
  fresh s →
  verifyChainReorgForBlock LIGHT enableCaching ALWAYS getBlockHash storage Listener listen
    tip block s = (s', Ok true) →
  ∃ b d, last_good tip b ∧ storage b = Some d ∧
    notified _ s' = notified _ s ++
      ((fun l => (l, (b + 1, tip, hd_hash d))) <$> reorgListeners _ s) ∧
    lastBlock _ s' = no_block ∧ fresh s'.
Proof.
  intros Hf. unfold verifyChainReorgForBlock, mbind, stx_bind, currentHeader.
  destruct (currentHeader_ _ s) as [info|]; [|done].
  assert (∀ s1, (let (s3, r) := updateBlock Listener block s1 in
      match r with Ok _ => (s3, Ok false) | Throw e => (s3, Throw e) end) = (s', Ok true) → False) as Hupd.
  { intros s1. unfold updateBlock. by destruct (bk_signed block) as [[checksum doc]|]. }
  assert (∀ s1, only_cache s s1 →
    (let (s3, r) := restoreBlockchain LIGHT enableCaching getBlockHash storage Listener listen tip s1 in
      match r with Ok _ => (s3, Ok true) | Throw e => (s3, Throw e) end) = (s', Ok true) →
    ∃ b d, last_good tip b ∧ storage b = Some d ∧
      notified _ s' = notified _ s ++
        ((fun l => (l, (b + 1, tip, hd_hash d))) <$> reorgListeners _ s) ∧
      lastBlock _ s' = no_block ∧ fresh s') as Hres.
  { intros s1 [Hs1 Hf1].
    destruct (restoreBlockchain _ _ _ _ _ _ tip s1) as [s2 [[]|e]] eqn:Hr; [|done].
    intros [= <-]. apply restore_spec in Hr; [|done]. by rewrite Hs1 in Hr. }
  destruct (bool_decide _ && negb ALWAYS); [intros Heq; by destruct (Hupd s)|].
  destruct (verifyChainReorg LIGHT enableCaching storage Listener block s) as [s1 [r|e]] eqn:Hv; [|done].
  destruct (verifyChainReorg_spec _ _ _ _ Hf Hv) as [Hc _]. destruct r; cbn [negb]; [by apply Hres|].
  destruct (bool_decide _ && negb _); [by apply Hres|]. intros Heq. by destruct (Hupd s1).
Qed.

(** Starting the watchdog ends: from a height with no stored header below it
    goes down to the first height that has one (or to 0), where it stands; the
    height it reports is that one, [-1] at the bottom. *)
Theorem init_spec h s :
  0 ≤ h →
  match init getBlockHash getRpcHeader storage Listener (init_fuel h) h s with
  | (s', Ok _) => ∃ h' info, 0 ≤ h' ≤ h ∧ (∀ k, h' < k ≤ h → storage (k - 1) = None) ∧
      currentHeader_ _ s' = Some info ∧ blockNumber info = h' ∧
      getBlockHash h' = Ok (Some (blockHash info)) ∧
      ((h' = 0 ∧ pendingBlockHeight _ s' = Ok (-1)) ∨
       ∃ d, 0 < h' ∧ storage (h' - 1) = Some d ∧ pendingBlockHeight _ s' = Ok h' ∧
         lb_opnetBlock (lastBlock _ s') = Some d)
  | (_, Throw e) => match e with RpcError _ | NoBlockHash _ | NoRpcHeader _ => True | _ => False end
  end.
Proof.
  intros Hh. unfold init_fuel. remember (S (Z.to_nat h)) as fuel eqn:Hfuel.
  assert (Z.to_nat h < fuel)%nat as Hlt by lia. clear Hfuel. revert h s Hh Hlt.
  induction fuel as [|fuel IH]; intros h s Hh Hlt; [lia|]. cbn [init].
  destruct (getBlockHash h) as [[hash|]|e] eqn:Hhash; cbn -[init decide]; try done.
  destruct (truthy_str hash); cbn -[init decide]; try done.
  destruct (getRpcHeader hash) as [[prev|]|e]; cbn -[init decide]; try done.
  case_decide as H1.
  - assert (h = 0) as -> by lia. exists 0, (mkInfo 0 hash prev).
    split_and!; try done; [intros k ?; lia|by left].
  - destruct (storage (h - 1)) as [d|] eqn:Hd.
    + exists h, (mkInfo h hash prev). split_and!; try done; [intros k ?; lia|].
      right. exists d. split_and!; try done. lia.
    + specialize (IH (h - 1) (set_header _ (Some (mkInfo h hash prev)) s) ltac:(lia) ltac:(lia)).
      destruct (init _ _ _ _ fuel (h - 1) _) as [s' [[]|e]]; [|done].
      destruct IH as (h' & info & ? & Hnone & ? & ? & ? & ?). exists h', info.
      split_and!; try done; try lia. intros k Hk.
      destruct (decide (k = h)) as [->|]; [done|]. apply Hnone. lia.
Qed.

(** When not even the genesis header validates the search goes below it, and
    the node cannot recover by itself. *)
Lemma no_good_block_throws tip s g :
  fresh s → 0 ≤ g < tip → same_block g → (∀ h, g < h < tip → other_block h) →
  (∀ h, 0 ≤ h ≤ g → bad_header h) → storage (-1) = None →
  ∃ s', restoreBlockchain LIGHT enableCaching getBlockHash storage Listener listen tip s
    = (s', Throw FetchingLastGood).
Proof.
  intros Hf Hg Hsame Hoth Hbad Hneg. unfold restoreBlockchain, mbind, stx_bind.
  pose proof (revert_cases tip s Hf) as Hr.
  destruct (revertToLastGoodBlock _ _ _ _ _ tip s) as [s1 [b|e]].
  - destruct Hr as [_ [[-> Hall]|(g' & Hg' & Hsame' & Hoth' & Hb & Hbads & Hok)]].
    + exfalso. destruct Hsame as (d & hash & ? & ? & ?), (Hall g ltac:(lia)) as (d' & hash' & ? & ? & ?).
      congruence.
    + assert (g' = g) as ->.
      { destruct (Z.lt_trichotomy g' g) as [Hlt|[?|Hlt]]; [|done|]; exfalso.
        - destruct Hsame as (d & hash & ? & ? & ?), (Hoth' g ltac:(lia)) as (d' & hash' & ? & ? & ?).
          congruence.
        - destruct Hsame' as (d & hash & ? & ? & ?), (Hoth g' ltac:(lia)) as (d' & hash' & ? & ? & ?).
          congruence. }
      assert (b = -1) as ->.
      { destruct (decide (0 ≤ b)) as [Hb0|]; [|lia]. exfalso.
        destruct (Hbad b ltac:(lia)) as (d & Hd & Hv). specialize (Hok Hb0 d Hd). congruence. }
      rewrite Hneg. by eexists.
  - exfalso. destruct Hr as (_ & _ & h & Hh & Hk & Hns & Hno).
    destruct (Z.lt_trichotomy h g) as [Hlt|[->|Hlt]]; [|done|].
    + specialize (Hk g ltac:(lia)).
      destruct Hsame as (d & hash & ? & ? & ?), Hk as (d' & hash' & ? & ? & ?). congruence.
    + apply Hno, Hoth. lia.
Qed.
End watchdog.

(** ** A concrete chain

    Two stored headers; the network agrees on the first only. *)

Definition network (fork : bool) (h : Z) : result string (option string) :=
  if decide (h = 0) then Ok (Some "genesis")
  else if decide (h = 1) then Ok (Some (if fork then "other" else "block1"))
  else if decide (h = 2) then Ok (Some "block2") else Ok None.

Definition network_header (hash : string) : result string (option string) := Ok (Some "prev").

Definition quiet (l : nat) (from to : Z) (newBest : string) : result string unit := Ok tt.

Definition watching : t nat :=
  onBlockChange nat 2 "block2" "block1" (subscribeToReorgs nat 7%nat (initial nat)).

Definition block2 (prev : string) : Block :=
  mkBlock 2 "block2" prev (Some (hd_checksumRoot header1))
    (Some ("root2", sign_example "block2" 2 (hd_checksumRoot header1))).

Lemma watching_fresh : fresh two_headers watching.
Proof. done. Qed.

Lemma revertToLastGoodBlock_spec_witness :
  fresh two_headers watching ∧
  @last_good string_btclib sum_merkle false true (network true) two_headers 2 0.
Proof.
  split; [exact watching_fresh|].
  pose proof (@revertToLastGoodBlock_spec string_btclib sum_merkle false true (network true)
    two_headers nat two_headers_heights 2 watching watching_fresh) as Hr.
  assert ((@revertToLastGoodBlock string_btclib sum_merkle false true (network true) two_headers nat
    2 watching).2 = Ok 0) as Heq by (vm_compute; reflexivity).
  destruct (@revertToLastGoodBlock string_btclib sum_merkle false true (network true) two_headers nat
    2 watching) as [s' r]. cbn in Heq. subst r. exact (proj2 Hr).
Defined.

Lemma accepted_block_extends_witness :
  ∃ d, previous_header two_headers watching 1 "block1" d ∧
    @valid_header string_btclib sum_merkle false true two_headers d = true ∧
    bk_previousBlockChecksum (block2 "block1") = Some (hd_checksumRoot d).
Proof.
  assert (∃ s', @verifyChainReorgForBlock string_btclib sum_merkle false true true (network false)
    two_headers nat quiet 2 (block2 "block1") watching = (s', Ok false)) as [s' Hs'].
  { eexists. vm_compute. reflexivity. }
  destruct (@accepted_block_extends string_btclib sum_merkle false true true (network false)
    two_headers nat quiet two_headers_heights 2 (block2 "block1") watching s' watching_fresh Hs')
    as (info & checksum & doc & _ & _ & _ & _ & _ & [[_ Hno]|[_ [Hle|Hd]]]).
  - discriminate Hno.
  - exfalso. cbn in Hle. lia.
  - exact Hd.
Defined.

Lemma reorg_notifies_last_good_witness :
  ∃ b d, @last_good string_btclib sum_merkle false true (network true) two_headers 2 b ∧
    two_headers b = Some d.
Proof.
  assert (∃ s', @verifyChainReorgForBlock string_btclib sum_merkle false true true (network true)
    two_headers nat quiet 2 (block2 "other") watching = (s', Ok true)) as [s' Hs'].
  { eexists. vm_compute. reflexivity. }
  destruct (@reorg_notifies_last_good string_btclib sum_merkle false true true (network true)
    two_headers nat quiet two_headers_heights 2 (block2 "other") watching s' watching_fresh Hs')
    as (b & d & Hlg & Hd & _).
  exists b, d. split; [exact Hlg|exact Hd].
Defined.

Lemma init_spec_witness :
  0 ≤ 2 ∧ ∃ h', 0 ≤ h' ≤ 2 ∧ ∀ k, h' < k ≤ 2 → two_headers (k - 1) = None.
Proof.
  split; [lia|].
  pose proof (init_spec (network false) network_header two_headers 2 (initial nat) ltac:(lia)) as Hi.
  assert ((init (network false) network_header two_headers nat (init_fuel 2) 2 (initial nat)).2
    = Ok tt) as Heq by (vm_compute; reflexivity).
  destruct (init (network false) network_header two_headers nat (init_fuel 2) 2 (initial nat)) as [s' r].
  cbn in Heq. subst r. destruct Hi as (h' & info & Hh' & Hn & _). exists h'. split; [exact Hh'|exact Hn].
Defined.
