(* ===== verification/ChainObserver.v ===== *)
(** * The synchronisation status of the indexer
    (processor/observer/ChainObserver.ts)

    Heights of the indexer and of the Bitcoin node, the height kept in the
    database across restarts, and the selection of the consensus at each change.
    RPC and database calls are arguments: their answers, or the error they
    reject with.  A method that awaits in the middle is split at the await, so
    that [BlockIndexer] can interleave it with others. *)

From S2P Require Import Prelude ConsensusRules Consensus.

Record SynchronisationStatus : Type := mkStatus {
  bestBlockHash : option string;
  currentBlockHash : option string;
  pendingBlockHeight : Z;
  targetBlockHeight : Z;
  bestTip : Z;
  initialBlockDownload : bool;
  isDownloading : bool;
  isReorging : bool;
  isSyncing : bool;
  chain_ : option string
}.

Inductive observer_error : Type :=
| NextTipGreaterThanTarget
| ChainNotSet
| ConsensusHeightNotSet
| InvalidFromHeight
| ChainHeightNotFound
| ChainInfoNotFound
| BlockHashNotFound
(** A rejected RPC or database call. *)
| Rejected (e : string)
(** [process.exit]. *)
| Exited (code : Z).

(** What is read of the answer to getblockchaininfo. *)
Record BlockchainInfo : Type := {
  info_bestblockhash : string;
  info_chain : string;
  info_initialblockdownload : bool
}.

Module ChainObserver.
Section ChainObserver.
Context `{BtcLib} (Config : NodeConfig) (table : IOPNetConsensusObj).

(** The status, the [inProgressBlock] of the database document when there is
    one, and the consensus singleton. *)
Record t : Type := mk {
  status : SynchronisationStatus;
  inProgressBlock : option Z;
  selector : OPNetConsensus.state
}.

Definition initial_status : SynchronisationStatus :=
  mkStatus None None 0 0 0 false false false false None.

Definition set_status (f : SynchronisationStatus → SynchronisationStatus) (o : t) : t :=
  mk (f (status o)) (inProgressBlock o) (selector o).

Definition set_pending (h : Z) (s : SynchronisationStatus) : SynchronisationStatus :=
  mkStatus (bestBlockHash s) (currentBlockHash s) h (targetBlockHeight s) (bestTip s)
    (initialBlockDownload s) (isDownloading s) (isReorging s) (isSyncing s) (chain_ s).
Definition set_target (h : Z) (s : SynchronisationStatus) : SynchronisationStatus :=
  mkStatus (bestBlockHash s) (currentBlockHash s) (pendingBlockHeight s) h (bestTip s)
    (initialBlockDownload s) (isDownloading s) (isReorging s) (isSyncing s) (chain_ s).
Definition set_tip (h : Z) (s : SynchronisationStatus) : SynchronisationStatus :=
  mkStatus (bestBlockHash s) (currentBlockHash s) (pendingBlockHeight s) (targetBlockHeight s) h
    (initialBlockDownload s) (isDownloading s) (isReorging s) (isSyncing s) (chain_ s).
Definition set_best (hash : string) (s : SynchronisationStatus) : SynchronisationStatus :=
  mkStatus (Some hash) (currentBlockHash s) (pendingBlockHeight s) (targetBlockHeight s) (bestTip s)
    (initialBlockDownload s) (isDownloading s) (isReorging s) (isSyncing s) (chain_ s).
Definition set_reorging (s : SynchronisationStatus) : SynchronisationStatus :=
  mkStatus (bestBlockHash s) (currentBlockHash s) (pendingBlockHeight s) (targetBlockHeight s)
    (bestTip s) (initialBlockDownload s) (isDownloading s) true (isSyncing s) (chain_ s).
Definition set_chain (info : BlockchainInfo) (s : SynchronisationStatus) : SynchronisationStatus :=
  mkStatus (Some (info_bestblockhash info)) (currentBlockHash s) (pendingBlockHeight s)
    (targetBlockHeight s) (bestTip s) (info_initialblockdownload info) (isDownloading s)
    (isReorging s) (isSyncing s) (Some (info_chain info)).

Definition updateStatus (s : SynchronisationStatus) : SynchronisationStatus :=
  mkStatus (bestBlockHash s) (currentBlockHash s) (pendingBlockHeight s) (targetBlockHeight s)
    (bestTip s) (initialBlockDownload s) (bool_decide (pendingBlockHeight s < targetBlockHeight s))
    (isReorging s) (bool_decide (pendingBlockHeight s ≠ targetBlockHeight s)) (chain_ s).

Definition pendingTaskHeight (o : t) : Z := bestTip (status o).

(** The getter [nextBestTip] advances the tip and returns the one before. *)
Definition nextBestTip : stx t observer_error Z := fun o =>
  if decide (targetBlockHeight (status o) < bestTip (status o))
  then (o, Throw NextTipGreaterThanTarget)
  else (set_status (set_tip (bestTip (status o) + 1)) o, Ok (bestTip (status o))).

Definition chain (o : t) : result observer_error string :=
  if truthy_ostr (chain_ (status o)) then Ok (default "" (chain_ (status o)))
  else Throw ChainNotSet.

Definition onBlockChange (height : Z) (hash : string) (o : t) : t :=
  set_status (fun s => updateStatus (set_best hash (set_target height s))) o.

(** [consensusTracker.setConsensusBlockHeight], and the throw when it says the
    node cannot proceed. *)
Definition setConsensus (h : Z) : stx t observer_error unit := fun o =>
  match ConsensusTracker.setConsensusBlockHeight Config table h (selector o) with
  | (c, Ok false) => (mk (status o) (inProgressBlock o) c, Ok tt)
  | (c, Ok true) => (mk (status o) (inProgressBlock o) c, Throw ConsensusHeightNotSet)
  | (c, Throw (ProcessExit code)) => (mk (status o) (inProgressBlock o) c, Throw (Exited code))
  | (c, Throw _) => (mk (status o) (inProgressBlock o) c, Throw ConsensusHeightNotSet)
  end.

(** [updateCurrentBlockInProgress(network, Number(pendingBlockHeight + 1n))]: the
    number is computed before the call is awaited. *)
Definition store_progress (n : Z) (write : result string unit) : stx t observer_error unit := fun o =>
  match write with
  | Ok _ => (mk (status o) (Some n) (selector o), Ok tt)
  | Throw e => (o, Throw (Rejected e))
  end.

Definition setNewHeight (height : Z) (write : result string unit) : stx t observer_error unit :=
  _ ← smod (set_status (set_pending height));
  store_progress (height + 1) write.

Definition fetchChainHeight (rpc : result string (option Z)) : result observer_error Z :=
  match rpc with
  | Throw e => Throw (Rejected e)
  | Ok None => Throw ChainHeightNotFound
  | Ok (Some h) => Ok h
  end.

Definition fetchChainInfo (rpc : result string (option BlockchainInfo))
  : result observer_error BlockchainInfo :=
  match rpc with
  | Throw e => Throw (Rejected e)
  | Ok None => Throw ChainInfoNotFound
  | Ok (Some i) => Ok i
  end.

Definition fetchBlockHash (rpc : result string (option string)) : result observer_error string :=
  match rpc with
  | Throw e => Throw (Rejected e)
  | Ok h => if truthy_ostr h then Ok (default "" h) else Throw BlockHashNotFound
  end.

(** A network without a document is at block 0. *)
Definition fetchCurrentHeightFromDB (read : result string unit) (o : t) : result observer_error Z :=
  match read with
  | Throw e => Throw (Rejected e)
  | Ok _ =>
      let block := default 0 (inProgressBlock o) in
      if decide (block ≤ 0) then Ok block else Ok (block - 1)
  end.

(** ** [onChainReorganisation], up to its await and after it *)

Definition reorg_begin (fromHeight : Z) (newBest : string) : stx t observer_error unit :=
  _ ← smod (set_status set_reorging);
  o ← sget;
  if decide (fromHeight = 0) then sthrow InvalidFromHeight
  else smod (set_status (fun s => set_pending fromHeight (set_best newBest s))).

(** Both calls are awaited; the error of the first wins. *)
Definition reorg_end (fromHeight : Z) (rpc : result string (option Z)) (write : result string unit)
  : stx t observer_error unit := fun o =>
  let '(o1, w) := store_progress (fromHeight + 1) write o in
  (blockHeight ← slift (fetchChainHeight rpc);
   _ ← slift w;
   _ ← setConsensus fromHeight;
   smod (set_status (fun s => updateStatus (set_tip fromHeight (set_target blockHeight s))))) o1.

Definition onChainReorganisation (fromHeight : Z) (newBest : string)
    (rpc : result string (option Z)) (write : result string unit) : stx t observer_error unit :=
  _ ← reorg_begin fromHeight newBest;
  reorg_end fromHeight rpc write.

(** ** Start *)

Definition sync (read : result string unit) (rpc : result string (option Z))
    (info : result string (option BlockchainInfo)) : stx t observer_error unit := fun o =>
  match (opnetHeight ← fetchCurrentHeightFromDB read o;
         chainHeight ← fetchChainHeight rpc;
         chainInfo ← fetchChainInfo info;
         Ok (opnetHeight, chainHeight, chainInfo)) with
  | Throw e => (o, Throw e)
  | Ok (opnetHeight, chainHeight, chainInfo) =>
      let pending := if REINDEX Config then REINDEX_FROM_BLOCK Config else opnetHeight in
      (set_status (fun s => updateStatus (set_chain chainInfo
         (set_target chainHeight (set_tip pending (set_pending pending s))))) o, Ok tt)
  end.

Definition init (read : result string unit) (rpc : result string (option Z))
    (info : result string (option BlockchainInfo)) : stx t observer_error unit :=
  _ ← sync read rpc info;
  o ← sget;
  setConsensus (pendingTaskHeight o).

End ChainObserver.
End ChainObserver.

Import ChainObserver.

(** ** Theorems *)

Section Observer.
Context `{BtcLib} (Config : NodeConfig) (table : IOPNetConsensusObj).

(** The promise of the tracker, as the observer uses it: when it lets the caller
    proceed, a consensus is in force (the proof is the tracker's). *)
Class TrackerSound : Prop :=
  tracker_sound : ∀ h s s',
    ConsensusTracker.setConsensusBlockHeight Config table h s = (s', Ok false) →
    consensus_in_force s'.

Context `{!TrackerSound}.

Lemma setConsensus_ok h o o' :
  setConsensus Config table h o = (o', Ok tt) →
  status o' = status o ∧ inProgressBlock o' = inProgressBlock o ∧ consensus_in_force (selector o').
Proof.
  unfold setConsensus.
  destruct (ConsensusTracker.setConsensusBlockHeight Config table h (selector o)) as [c [[]|[]]] eqn:E;
    intros Heq; simplify_eq. apply tracker_sound in E. done.
Qed.

Lemma setConsensus_status h o o' r :
  setConsensus Config table h o = (o', r) →
  status o' = status o ∧ inProgressBlock o' = inProgressBlock o.
Proof.
  unfold setConsensus.
  destruct (ConsensusTracker.setConsensusBlockHeight Config table h (selector o)) as [c [[]|[]]];
    intros Heq; by simplify_eq.
Qed.

(** The two halves around the await, as the indexer runs them. *)
Lemma reorg_begin_ok from best o o' :
  reorg_begin from best o = (o', Ok tt) →
  pendingBlockHeight (status o') = from ∧ bestTip (status o') = bestTip (status o).
Proof. unfold reorg_begin, mbind, stx_bind. cbn. case_decide; [done|]. by intros [= <-]. Qed.

Lemma reorg_end_ok from rpc write o o' :
  reorg_end Config table from rpc write o = (o', Ok tt) →
  pendingBlockHeight (status o') = pendingBlockHeight (status o) ∧ bestTip (status o') = from.
Proof.
  unfold reorg_end, store_progress, slift, mbind, stx_bind.
  destruct rpc as [[n|]|e], write as [[]|e']; cbn -[setConsensus]; try done.
  destruct (setConsensus Config table from _) as [o2 [[]|e]] eqn:E; [|done].
  apply setConsensus_status in E as [Hs _]. intros [= <-]. cbn. by rewrite Hs.
Qed.

(** C40: What a reorganisation does to the status, on every branch.  When it
    succeeds the indexer resumes at the first reverted height, with the height of
    the node as its target and a consensus in force; when it fails the next task
    is still the one before the call. *)
Theorem onChainReorganisation_spec from best rpc write o :
  match onChainReorganisation Config table from best rpc write o with
  | (o', Ok _) =>
      from ≠ 0 ∧ pendingBlockHeight (status o') = from ∧ bestTip (status o') = from ∧
      rpc = Ok (Some (targetBlockHeight (status o'))) ∧ write = Ok tt ∧
      inProgressBlock o' = Some (from + 1) ∧ bestBlockHash (status o') = Some best ∧
      isSyncing (status o') = bool_decide (from ≠ targetBlockHeight (status o')) ∧
      consensus_in_force (selector o')
  | (o', Throw e) =>
      bestTip (status o') = bestTip (status o) ∧
      targetBlockHeight (status o') = targetBlockHeight (status o) ∧
      (e = InvalidFromHeight ↔ from = 0) ∧
      pendingBlockHeight (status o') =
        if decide (from = 0) then pendingBlockHeight (status o) else from
  end.
Proof.
  unfold onChainReorganisation, reorg_begin, reorg_end, store_progress, slift, mbind, stx_bind.
  cbn -[setConsensus].
  destruct (decide (from = 0)) as [->|Hf]; cbn -[setConsensus]; [by split_and!|].
  destruct rpc as [[n|]|e], write as [[]|e']; cbn -[setConsensus];
    try (split_and!; try done; naive_solver).
  destruct (setConsensus Config table from _) as [o2 [[]|e]] eqn:E; cbn -[setConsensus].
  - apply setConsensus_ok in E as (Hs & Hi & Hc). by rewrite Hs, Hi.
  - pose proof E as (Hs & _)%setConsensus_status. rewrite Hs. cbn -[setConsensus].
    split_and!; try done. split; [intros ->|done]. exfalso. revert E. unfold setConsensus. cbn -[setConsensus].
    by destruct (ConsensusTracker.setConsensusBlockHeight Config table from (selector o)) as [? [[]|[]]].
Qed.

(** The height is kept across restarts: a process that starts on the database
    left by [setNewHeight] resumes at that very height (the next block is the
    one after the last processed), with a consensus in force. *)
Theorem restart_resumes h o o1 fresh rpc info o2 :
  0 ≤ h → REINDEX Config = false →
  setNewHeight h (Ok tt) o = (o1, Ok tt) →
  init Config table (Ok tt) rpc info (mk fresh (inProgressBlock o1) OPNetConsensus.initial) = (o2, Ok tt) →
  pendingBlockHeight (status o2) = h ∧ pendingTaskHeight o2 = h ∧
  rpc = Ok (Some (targetBlockHeight (status o2))) ∧
  isDownloading (status o2) = bool_decide (h < targetBlockHeight (status o2)) ∧
  consensus_in_force (selector o2).
Proof.
  intros Hh Hr [= <-]. unfold init, sync, fetchCurrentHeightFromDB, mbind, stx_bind, result_bind.
  cbn -[setConsensus].
  rewrite decide_False by lia. rewrite Hr. cbn -[setConsensus].
  destruct rpc as [[n|]|]; [|done..]. destruct info as [[i|]|]; [|done..]. cbn -[setConsensus].
  replace (h + 1 - 1) with h by lia. intros (Hs & _ & Hc)%setConsensus_ok.
  unfold pendingTaskHeight. rewrite Hs. done.
Qed.
End Observer.

#[export] Instance consensus_tracker_sound `{BtcLib} Config table : TrackerSound Config table.
Proof. intros h s s'. apply tracker_lets_proceed. Qed.

(** ** Witnesses *)

#[local] Existing Instance string_btclib.

Definition example_info : BlockchainInfo := {|
  info_bestblockhash := "b0"; info_chain := "main"; info_initialblockdownload := false |}.

Definition example_observer : t (H := string_btclib) :=
  mk (mkStatus (Some "b9") None 941500 941510 941505 false true false true (Some "main"))
    (Some 941501) (started 941500).

Lemma onChainReorganisation_spec_witness :
  let r := onChainReorganisation mainnet_config nodeConsensus 941498 "b1" (Ok (Some 941511)) (Ok tt)
             example_observer in
  r.2 = Ok tt ∧ bestTip (status r.1) = 941498 ∧ targetBlockHeight (status r.1) = 941511.
Proof.
  pose proof (onChainReorganisation_spec mainnet_config nodeConsensus 941498 "b1" (Ok (Some 941511))
    (Ok tt) example_observer) as Hspec.
  destruct (onChainReorganisation _ _ _ _ _ _ _) as [o' [[]|e]] eqn:E.
  - destruct Hspec as (_ & _ & Ht & Hr & _). cbn. split_and!; [done|exact Ht|congruence].
  - exfalso. revert E. clear. vm_compute. discriminate.
Defined.

Lemma restart_resumes_witness :
  ∃ o2, init mainnet_config nodeConsensus (Ok tt) (Ok (Some 941510)) (Ok (Some example_info))
          (mk initial_status (inProgressBlock (setNewHeight 941501 (Ok tt) example_observer).1)
             OPNetConsensus.initial) = (o2, Ok tt) ∧
    pendingBlockHeight (status o2) = 941501.
Proof.
  destruct (init mainnet_config nodeConsensus (Ok tt) (Ok (Some 941510)) (Ok (Some example_info))
          (mk initial_status (inProgressBlock (setNewHeight 941501 (Ok tt) example_observer).1)
             OPNetConsensus.initial)) as [o2 [[]|e]] eqn:E.
  - exists o2. split; [done|].
    destruct (restart_resumes mainnet_config nodeConsensus 941501 example_observer _ initial_status
      _ _ o2 ltac:(lia) eq_refl eq_refl E) as [Hp _]. exact Hp.
  - exfalso. revert E. clear. vm_compute. discriminate.
Defined.
