(* ===== verification/StorageRevert.v ===== *)
(** * Reverting the stored chain
    (vm/storage/databases/VMMongoStorage.ts, db/repositories)

    [revertDataUntilBlock] and [revertBlockHeadersOnly] as the deletions they ask
    of the repositories.  A collection is the list of its documents; of a
    document the heights the deletions look at are kept, the rest is a payload.
    Deletions awaited together are a list whose order is left open. *)

From S2P Require Import Prelude.

Section Storage.
Context {P : Type}.

(** A document of one of the collections with a single height: blockHeight of a
    transaction, contract or mempool entry, lastSeenAt of a pointer, height of a
    header, blockNumber of a witness, fromBlock of a reorganisation, startBlock
    of an epoch, confirmedAt of a submission. *)
Record doc : Type := Doc { at_height : Z; payload : P }.

Record utxo : Type := Utxo { blockHeight : Z; deletedAtBlock : option Z; u_payload : P }.

Record mldsa_key : Type := Mldsa {
  insertedBlockHeight : Z;
  exposedBlockHeight : option Z;
  publicKey : option bytes;
  m_payload : P
}.

Record db : Type := mkDb {
  transactions : list doc;
  contracts : list doc;
  pointers : list doc;
  headers : list doc;
  witnesses : list doc;
  reorgs : list doc;
  epochs : list doc;
  submissions : list doc;
  unspent : list utxo;
  mldsaKeys : list mldsa_key;
  targetEpochs : list P;
  mempool : list doc;
  inProgressBlock : Z
}.

(** ** Queries *)

(** [{ $gte: from }] and [{ $gte: from, $lt: to }]; an absent field never
    matches. *)
Definition gte (from : Z) (h : Z) : bool := bool_decide (from ≤ h).
Definition in_range (from to : Z) (h : Z) : bool := bool_decide (from ≤ h < to).
Definition matches (q : Z → bool) (h : option Z) : bool := match h with Some z => q z | None => false end.

(** [delete(criteria)] and [updateMany(criteria, update)]. *)
Definition delete {D} (criteria : D → bool) (l : list D) : list D :=
  List.filter (fun d => negb (criteria d)) l.
Definition updateMany {D} (criteria : D → bool) (update : D → D) (l : list D) : list D :=
  (fun d => if criteria d then update d else d) <$> l.

(** ** The repositories *)

Definition deleteTransactionsFromBlockHeight (h : Z) := delete (fun d => gte h (at_height d)).
Definition deleteTransactionsInRange (from to : Z) := delete (fun d => in_range from to (at_height d)).
Definition deleteContractsFromBlockHeight (h : Z) := delete (fun d => gte h (at_height d)).
Definition deleteContractsInRange (from to : Z) := delete (fun d => in_range from to (at_height d)).
Definition deletePointerFromBlockHeight (h : Z) := delete (fun d => gte h (at_height d)).
Definition deletePointerInRange (from to : Z) := delete (fun d => in_range from to (at_height d)).
Definition deleteBlockHeadersFromBlockHeight (h : Z) := delete (fun d => gte h (at_height d)).
Definition deleteBlockHeadersInRange (from to : Z) := delete (fun d => in_range from to (at_height d)).
Definition deleteBlockWitnessesFromHeight (h : Z) := delete (fun d => gte h (at_height d)).
Definition deleteBlockWitnessesInRange (from to : Z) := delete (fun d => in_range from to (at_height d)).
Definition deleteReorgs (h : Z) := delete (fun d => gte h (at_height d)).
Definition deleteReorgsInRange (from to : Z) := delete (fun d => in_range from to (at_height d)).
Definition deleteEpochFromBitcoinBlockNumber (h : Z) := delete (fun d => gte h (at_height d)).
Definition deleteEpochInRange (from to : Z) := delete (fun d => in_range from to (at_height d)).
Definition deleteSubmissionsFromBlock (h : Z) := delete (fun d => gte h (at_height d)).
Definition deleteSubmissionsInRange (from to : Z) := delete (fun d => in_range from to (at_height d)).

(** Unspent outputs: those created are deleted, those spent are unspent again (a
    field set to undefined is stored as null, the default of the driver). *)
Definition unspend (u : utxo) : utxo := Utxo (blockHeight u) None (u_payload u).

Definition deleteUnspentFromBlockHeight (h : Z) (l : list utxo) : list utxo :=
  updateMany (fun u => matches (gte h) (deletedAtBlock u)) unspend
    (delete (fun u => gte h (blockHeight u)) l).

Definition deleteUnspentInRange (from to : Z) (l : list utxo) : list utxo :=
  updateMany (fun u => matches (in_range from to) (deletedAtBlock u)) unspend
    (delete (fun u => in_range from to (blockHeight u)) l).

Definition deleteUnspentGreaterThanBlockHeight (h : Z) (l : list utxo) : list utxo :=
  if decide (h < 0) then [] else delete (fun u => gte h (blockHeight u)) l.

(** Public keys: those exposed are hidden again, those inserted are deleted. *)
Definition hide (k : mldsa_key) : mldsa_key := Mldsa (insertedBlockHeight k) None None (m_payload k).

Definition nullPublicKeyFromBlockHeight (h : Z) : list mldsa_key → list mldsa_key :=
  updateMany (fun k => matches (gte h) (exposedBlockHeight k)) hide.

Definition deleteFromBlockHeight (h : Z) (l : list mldsa_key) : list mldsa_key :=
  delete (fun k => gte h (insertedBlockHeight k)) (nullPublicKeyFromBlockHeight h l).

Definition deleteInRange (from to : Z) (l : list mldsa_key) : list mldsa_key :=
  delete (fun k => in_range from to (insertedBlockHeight k))
    (updateMany (fun k => matches (in_range from to) (exposedBlockHeight k)) hide l).

Definition deleteAllTargetEpochs (l : list P) : list P := [].

Definition deleteMempoolGreaterThanBlockHeight (h : Z) (l : list doc) : list doc :=
  if decide (h ≤ 0) then [] else delete (fun d => bool_decide (h < at_height d)) l.

(** [getLatestBlock]: a header of the greatest height. *)
Definition getLatestBlock (l : list doc) : option Z :=
  match l with
  | [] => None
  | d :: l' => Some (foldl (fun m x => m `max` at_height x) (at_height d) l')
  end.

(** ** The calls *)

Inductive repository : Type :=
| Transactions | Contracts | Pointers | Headers | Witnesses | Reorgs | Epochs | Submissions
| Unspent | MldsaKeys.

Inductive command : Type :=
| DeleteAllTargetEpochs
| DeleteFrom (r : repository) (h : Z)
| DeleteRange (r : repository) (from to : Z)
| MempoolGreater (h : Z)
| UnspentGreater (h : Z).

Definition set_docs (r : repository) (f : list doc → list doc) (d : db) : db :=
  let g r' l := match r, r' with
                | Transactions, Transactions | Contracts, Contracts | Pointers, Pointers
                | Headers, Headers | Witnesses, Witnesses | Reorgs, Reorgs | Epochs, Epochs
                | Submissions, Submissions => f l
                | _, _ => l
                end in
  mkDb (g Transactions (transactions d)) (g Contracts (contracts d)) (g Pointers (pointers d))
    (g Headers (headers d)) (g Witnesses (witnesses d)) (g Reorgs (reorgs d)) (g Epochs (epochs d))
    (g Submissions (submissions d)) (unspent d) (mldsaKeys d) (targetEpochs d) (mempool d)
    (inProgressBlock d).

Definition set_unspent (f : list utxo → list utxo) (d : db) : db :=
  mkDb (transactions d) (contracts d) (pointers d) (headers d) (witnesses d) (reorgs d) (epochs d)
    (submissions d) (f (unspent d)) (mldsaKeys d) (targetEpochs d) (mempool d) (inProgressBlock d).

Definition set_mldsa (f : list mldsa_key → list mldsa_key) (d : db) : db :=
  mkDb (transactions d) (contracts d) (pointers d) (headers d) (witnesses d) (reorgs d) (epochs d)
    (submissions d) (unspent d) (f (mldsaKeys d)) (targetEpochs d) (mempool d) (inProgressBlock d).

Definition set_others (f : list P → list P) (g : list doc → list doc) (d : db) : db :=
  mkDb (transactions d) (contracts d) (pointers d) (headers d) (witnesses d) (reorgs d) (epochs d)
    (submissions d) (unspent d) (mldsaKeys d) (f (targetEpochs d)) (g (mempool d)) (inProgressBlock d).

Definition exec (d : db) (c : command) : db :=
  match c with
  | DeleteAllTargetEpochs => set_others deleteAllTargetEpochs id d
  | DeleteFrom Transactions h => set_docs Transactions (deleteTransactionsFromBlockHeight h) d
  | DeleteFrom Contracts h => set_docs Contracts (deleteContractsFromBlockHeight h) d
  | DeleteFrom Pointers h => set_docs Pointers (deletePointerFromBlockHeight h) d
  | DeleteFrom Headers h => set_docs Headers (deleteBlockHeadersFromBlockHeight h) d
  | DeleteFrom Witnesses h => set_docs Witnesses (deleteBlockWitnessesFromHeight h) d
  | DeleteFrom Reorgs h => set_docs Reorgs (deleteReorgs h) d
  | DeleteFrom Epochs h => set_docs Epochs (deleteEpochFromBitcoinBlockNumber h) d
  | DeleteFrom Submissions h => set_docs Submissions (deleteSubmissionsFromBlock h) d
  | DeleteFrom Unspent h => set_unspent (deleteUnspentFromBlockHeight h) d
  | DeleteFrom MldsaKeys h => set_mldsa (deleteFromBlockHeight h) d
  | DeleteRange Transactions f t => set_docs Transactions (deleteTransactionsInRange f t) d
  | DeleteRange Contracts f t => set_docs Contracts (deleteContractsInRange f t) d
  | DeleteRange Pointers f t => set_docs Pointers (deletePointerInRange f t) d
  | DeleteRange Headers f t => set_docs Headers (deleteBlockHeadersInRange f t) d
  | DeleteRange Witnesses f t => set_docs Witnesses (deleteBlockWitnessesInRange f t) d
  | DeleteRange Reorgs f t => set_docs Reorgs (deleteReorgsInRange f t) d
  | DeleteRange Epochs f t => set_docs Epochs (deleteEpochInRange f t) d
  | DeleteRange Submissions f t => set_docs Submissions (deleteSubmissionsInRange f t) d
  | DeleteRange Unspent f t => set_unspent (deleteUnspentInRange f t) d
  | DeleteRange MldsaKeys f t => set_mldsa (deleteInRange f t) d
  | MempoolGreater h => set_others id (deleteMempoolGreaterThanBlockHeight h) d
  | UnspentGreater h => set_unspent (deleteUnspentGreaterThanBlockHeight h) d
  end.

(** ** [revertDataUntilBlock] *)

(** The parts of the configuration; [REINDEX_BATCH_SIZE] is an integer. *)
Context (DEV_MODE REINDEX_PURGE_UTXOS : bool) (REINDEX_BATCH_SIZE : Z).

Definition BATCH_SIZE : Z :=
  if decide (REINDEX_BATCH_SIZE = 0) then 1000 else REINDEX_BATCH_SIZE.

(** The repositories in the order they are asked; outside DEV_MODE the calls
    run together. *)
Definition purged_repositories (purgeUtxos : bool) : list repository :=
  if DEV_MODE
  then [Transactions] ++ (if purgeUtxos then [Unspent] else []) ++
       [Contracts; Pointers; Headers; Witnesses; Reorgs; Epochs; Submissions; MldsaKeys]
  else [Transactions; Contracts; Pointers; Headers; Witnesses; Reorgs; Epochs; Submissions] ++
       (if purgeUtxos then [Unspent] else []) ++ [MldsaKeys].

Definition upperBound (d : db) (blockId : Z) : Z :=
  let blockHeaderHeight := default blockId (getLatestBlock (headers d)) in
  let derivedUpper := if decide (inProgressBlock d < blockHeaderHeight)
                      then blockHeaderHeight else inProgressBlock d in
  if decide (blockId < derivedUpper) then derivedUpper else blockId.

(** The walk down from the upper bound: [for (to = upperBound; to > blockId; to
    -= BATCH_SIZE)]; [None] when the fuel runs out. *)
Fixpoint batches (fuel : nat) (blockId to : Z) : option (list (Z * Z)) :=
  if decide (to ≤ blockId) then Some []
  else match fuel with
       | O => None
       | S fuel' =>
           let from := if decide (to - BATCH_SIZE < blockId) then blockId else to - BATCH_SIZE in
           cons (from, to) <$> batches fuel' blockId (to - BATCH_SIZE)
       end.

Definition revertDataUntilBlock (fuel : nat) (blockId : Z) (purgeUtxosOverride : option bool)
    (d : db) : option (list command) :=
  let upper := upperBound d blockId in
  let purgeUtxos := default REINDEX_PURGE_UTXOS purgeUtxosOverride in
  let repos := purged_repositories purgeUtxos in
  ranges ← batches fuel blockId upper;
  Some ([DeleteAllTargetEpochs] ++ ((fun r => DeleteFrom r upper) <$> repos) ++
        (ranges ≫= fun ft => (fun r => DeleteRange r ft.1 ft.2) <$> repos) ++
        (if decide (blockId ≤ 0)
         then MempoolGreater blockId :: (if purgeUtxos then [UnspentGreater blockId] else [])
         else [])).

Definition revert_fuel (d : db) (blockId : Z) : nat := Z.to_nat (upperBound d blockId - blockId).

(** ** [revertBlockHeadersOnly]: the walk goes up. *)
Fixpoint header_batches (fuel : nat) (from upper : Z) : option (list (Z * Z)) :=
  if decide (upper < from) then Some []
  else match fuel with
       | O => None
       | S fuel' => cons (from, from + BATCH_SIZE) <$> header_batches fuel' (from + BATCH_SIZE) upper
       end.

Definition revertBlockHeadersOnly (fuel : nat) (blockId : Z) (d : db) : option (list command) :=
  let upper := default blockId (getLatestBlock (headers d)) in
  ranges ← header_batches fuel blockId upper;
  Some (ranges ≫= fun ft => [DeleteRange Headers ft.1 ft.2; DeleteRange Witnesses ft.1 ft.2]).

(** ** The specification: the database as it was below a height *)

Definition truncate_docs (b : Z) (l : list doc) : list doc := List.filter (fun x => bool_decide (at_height x < b)) l.

Definition truncate_unspent (b : Z) (u : utxo) : option utxo :=
  if decide (blockHeight u < b)
  then Some (if matches (gte b) (deletedAtBlock u) then unspend u else u) else None.

Definition truncate_key (b : Z) (k : mldsa_key) : option mldsa_key :=
  if decide (insertedBlockHeight k < b)
  then Some (if matches (gte b) (exposedBlockHeight k) then hide k else k) else None.

Definition truncate (b : Z) (purgeUtxos : bool) (d : db) : db :=
  mkDb (truncate_docs b (transactions d)) (truncate_docs b (contracts d)) (truncate_docs b (pointers d))
    (truncate_docs b (headers d)) (truncate_docs b (witnesses d)) (truncate_docs b (reorgs d))
    (truncate_docs b (epochs d)) (truncate_docs b (submissions d))
    (if purgeUtxos then if decide (b < 0) then [] else omap (truncate_unspent b) (unspent d)
     else unspent d)
    (omap (truncate_key b) (mldsaKeys d)) [] (if decide (b ≤ 0) then [] else mempool d)
    (inProgressBlock d).
End Storage.

Arguments doc : clear implicits.
Arguments utxo : clear implicits.
Arguments mldsa_key : clear implicits.
Arguments db : clear implicits.

(** ** Theorems *)

#[export] Instance repository_eq_dec : EqDecision repository.
Proof. solve_decision. Defined.

(** The heights of a repository a command deletes. *)
Definition hits (c : command) (r : repository) (h : Z) : bool :=
  match c with
  | DeleteFrom r' from => bool_decide (r' = r) && gte from h
  | DeleteRange r' from to => bool_decide (r' = r) && in_range from to h
  | _ => false
  end.

(** Creation heights of unspent outputs: [UnspentGreater] counts too. *)
Definition hits_created (c : command) (h : Z) : bool :=
  match c with
  | UnspentGreater from => bool_decide (from < 0) || gte from h
  | _ => hits c Unspent h
  end.

Section Facts.
Context {P : Type}.
Implicit Types (d : db P) (c : command) (l : list command).

(** A plain collection by its repository. *)
Definition docs_of (r : repository) d : list (doc P) :=
  match r with
  | Transactions => transactions d | Contracts => contracts d | Pointers => pointers d
  | Headers => headers d | Witnesses => witnesses d | Reorgs => reorgs d | Epochs => epochs d
  | Submissions => submissions d | Unspent | MldsaKeys => []
  end.

Lemma delete_none {D} (f : D → bool) (x : list D) : (∀ a, f a = false) → delete f x = x.
Proof. intros Hf. unfold delete. induction x as [|a x IH]; cbn; [done|]. by rewrite Hf, IH. Qed.

Lemma delete_ext {D} (f g : D → bool) (x : list D) : (∀ a, f a = g a) → delete f x = delete g x.
Proof. intros Hf. unfold delete. induction x as [|a x IH]; cbn; [done|]. by rewrite Hf, IH. Qed.

Lemma delete_ext_in {D} (f g : D → bool) (x : list D) :
  (∀ a, a ∈ x → f a = g a) → delete f x = delete g x.
Proof.
  intros Hf. unfold delete. induction x as [|a x IH]; cbn; [done|].
  rewrite Hf by left. rewrite IH; [done|]. intros; apply Hf; by right.
Qed.

Lemma delete_delete {D} (f g : D → bool) (x : list D) :
  delete f (delete g x) = delete (fun a => g a || f a) x.
Proof.
  unfold delete. induction x as [|a x IH]; cbn; [done|].
  destruct (g a); cbn; [done|]. destruct (f a); cbn; by rewrite IH.
Qed.

Lemma omap_step {A B C} (f : A → option B) (g : B → option C) (x : list A) :
  omap g (omap f x) = omap (fun a => f a ≫= g) x.
Proof.
  induction x as [|a x IH]; cbn; [done|]. destruct (f a); cbn; [|done].
  destruct (g b); cbn; by rewrite IH.
Qed.

Lemma omap_ext_all {A B} (f g : A → option B) (x : list A) :
  (∀ a, f a = g a) → omap f x = omap g x.
Proof. intros Hf. induction x as [|a x IH]; cbn; [done|]. by rewrite Hf, IH. Qed.

Lemma omap_some {A} (f : A → option A) (x : list A) : (∀ a, f a = Some a) → omap f x = x.
Proof. intros Hf. induction x as [|a x IH]; cbn; [done|]. by rewrite Hf, IH. Qed.

(** *** One command *)

Lemma exec_docs r d c :
  docs_of r (exec d c) = delete (fun x => hits c r (at_height x)) (docs_of r d).
Proof.
  destruct c as [|[] ?|[] ? ?|?|?], r; cbn [docs_of exec hits]; try done;
    first [by apply delete_ext | symmetry; by apply delete_none].
Qed.

Definition unspent_step c (u : utxo P) : option (utxo P) :=
  if hits_created c (blockHeight u) then None
  else Some (if matches (hits c Unspent) (deletedAtBlock u) then unspend u else u).

Lemma unspent_omap (f g : Z → bool) (x : list (utxo P)) :
  updateMany (fun u => matches g (deletedAtBlock u)) unspend (delete (fun u => f (blockHeight u)) x) =
  omap (fun u => if f (blockHeight u) then None
                 else Some (if matches g (deletedAtBlock u) then unspend u else u)) x.
Proof.
  unfold updateMany, delete. induction x as [|u x IH]; cbn; [done|].
  destruct (f (blockHeight u)); cbn; by rewrite <-IH.
Qed.

Lemma matches_none (h : option Z) (q : Z → bool) : (∀ z, q z = false) → matches q h = false.
Proof. destruct h; cbn; auto. Qed.

Lemma exec_unspent d c : unspent (exec d c) = omap (unspent_step c) (unspent d).
Proof.
  assert (∀ c', (∀ h, hits_created c' h = false) → (∀ h, hits c' Unspent h = false) →
    unspent d = omap (unspent_step c') (unspent d)) as Hid.
  { intros c' H1 H2. symmetry. apply omap_some. intros u. unfold unspent_step.
    by rewrite H1, matches_none. }
  destruct c as [|[] ?|[] ? ?|?|h]; cbn;
    try (apply Hid; intros; cbn; rewrite ?bool_decide_false by done; done).
  - unfold deleteUnspentFromBlockHeight. rewrite unspent_omap. apply omap_ext_all. intros u.
    unfold unspent_step. cbn. rewrite !bool_decide_true by done. done.
  - unfold deleteUnspentInRange. rewrite unspent_omap. apply omap_ext_all. intros u.
    unfold unspent_step. cbn. rewrite !bool_decide_true by done. done.
  - clear Hid. unfold deleteUnspentGreaterThanBlockHeight, unspent_step, hits_created.
    destruct (decide (h < 0)) as [Hh|Hh].
    + rewrite bool_decide_true by done. cbn.
      induction (unspent d) as [|u x IH]; [done|exact IH].
    + rewrite bool_decide_false by done. cbn. unfold delete.
      induction (unspent d) as [|u x IH]; cbn; [done|].
      destruct (gte h (blockHeight u)); cbn; rewrite IH; [done|].
      by rewrite matches_none.
Qed.

Definition key_step c (k : mldsa_key P) : option (mldsa_key P) :=
  if hits c MldsaKeys (insertedBlockHeight k) then None
  else Some (if matches (hits c MldsaKeys) (exposedBlockHeight k) then hide k else k).

Lemma keys_omap (f g : Z → bool) (x : list (mldsa_key P)) :
  delete (fun k => f (insertedBlockHeight k))
    (updateMany (fun k => matches g (exposedBlockHeight k)) hide x) =
  omap (fun k => if f (insertedBlockHeight k) then None
                 else Some (if matches g (exposedBlockHeight k) then hide k else k)) x.
Proof.
  unfold updateMany, delete. induction x as [|k x IH]; cbn; [done|].
  destruct (matches g (exposedBlockHeight k)); cbn;
    destruct (f (insertedBlockHeight k)); cbn; by rewrite IH.
Qed.

Lemma exec_keys d c : mldsaKeys (exec d c) = omap (key_step c) (mldsaKeys d).
Proof.
  assert (∀ c', (∀ h, hits c' MldsaKeys h = false) → mldsaKeys d = omap (key_step c') (mldsaKeys d))
    as Hid.
  { intros c' H1. symmetry. apply omap_some. intros k. unfold key_step. by rewrite H1, matches_none. }
  destruct c as [|[] ?|[] ? ?|?|h]; cbn;
    try (apply Hid; intros; cbn; rewrite ?bool_decide_false by done; done).
  - unfold deleteFromBlockHeight, nullPublicKeyFromBlockHeight. rewrite keys_omap.
    apply omap_ext_all. intros k. unfold key_step. cbn. rewrite !bool_decide_true by done. done.
  - unfold deleteInRange. rewrite keys_omap. apply omap_ext_all. intros k. unfold key_step. cbn.
    rewrite !bool_decide_true by done. done.
Qed.

(** *** A plan *)

Lemma foldl_docs r d l :
  docs_of r (foldl exec d l) =
  delete (fun x => existsb (fun c => hits c r (at_height x)) l) (docs_of r d).
Proof.
  revert d. induction l as [|c l IH]; intros d; cbn [foldl existsb].
  - by rewrite delete_none.
  - by rewrite IH, exec_docs, delete_delete.
Qed.

Lemma matches_or (f g : Z → bool) h :
  matches (fun z => f z || g z) h = matches f h || matches g h.
Proof. by destruct h. Qed.

Lemma foldl_unspent d l :
  unspent (foldl exec d l) =
  omap (fun u => if existsb (fun c => hits_created c (blockHeight u)) l then None
          else Some (if matches (fun z => existsb (fun c => hits c Unspent z) l) (deletedAtBlock u)
                     then unspend u else u)) (unspent d).
Proof.
  revert d. induction l as [|c l IH]; intros d; cbn [foldl].
  - symmetry. apply omap_some. intros u. cbn. by rewrite matches_none.
  - rewrite IH, exec_unspent, omap_step. apply omap_ext_all. intros u. unfold unspent_step.
    cbn [existsb]. rewrite matches_or. destruct (hits_created c (blockHeight u)); cbn; [done|].
    destruct (matches (hits c Unspent) (deletedAtBlock u)); cbn; [|done].
    by destruct (existsb _ l).
Qed.

Lemma foldl_keys d l :
  mldsaKeys (foldl exec d l) =
  omap (fun k => if existsb (fun c => hits c MldsaKeys (insertedBlockHeight k)) l then None
          else Some (if matches (fun z => existsb (fun c => hits c MldsaKeys z) l) (exposedBlockHeight k)
                     then hide k else k)) (mldsaKeys d).
Proof.
  revert d. induction l as [|c l IH]; intros d; cbn [foldl].
  - symmetry. apply omap_some. intros u. cbn. by rewrite matches_none.
  - rewrite IH, exec_keys, omap_step. apply omap_ext_all. intros k. unfold key_step.
    cbn [existsb]. rewrite matches_or. destruct (hits c MldsaKeys (insertedBlockHeight k)); cbn; [done|].
    destruct (matches (hits c MldsaKeys) (exposedBlockHeight k)); cbn; [|done].
    by destruct (existsb _ l).
Qed.

Definition is_mempool b c : bool := match c with MempoolGreater h => bool_decide (h = b) | _ => false end.
Definition is_targets c : bool := match c with DeleteAllTargetEpochs => true | _ => false end.

(** A plan deletes what is at [b] or above and nothing below. *)
Record plan_ok (b : Z) (purge : bool) l : Prop := {
  plan_bounded c r h : c ∈ l → hits c r h = true → b ≤ h;
  plan_unspent c h : c ∈ l → hits c Unspent h = true → purge = true;
  plan_all_unspent c h : c ∈ l → c = UnspentGreater h → h = b ∧ purge = true;
  plan_mempool c h : c ∈ l → c = MempoolGreater h → h = b ∧ b ≤ 0
}.

Record plan_full (b : Z) (purge : bool) l : Prop := {
  full_covers r h : r ≠ Unspent ∨ purge = true → b ≤ h → existsb (fun c => hits c r h) l = true;
  full_targets : existsb is_targets l = true;
  full_mempool : b ≤ 0 → existsb (is_mempool b) l = true;
  full_unspent : b < 0 → purge = true → UnspentGreater b ∈ l
}.

Lemma covered_iff b purge l r h :
  plan_ok b purge l → plan_full b purge l → r ≠ Unspent ∨ purge = true →
  existsb (fun c => hits c r h) l = gte b h.
Proof.
  intros Hok Hfull Hr. unfold gte. case_bool_decide as Hh.
  - by apply (full_covers _ _ _ Hfull).
  - destruct (existsb _ l) eqn:E; [|done]. apply existsb_exists in E as (c & Hc & Hhit).
    apply list_elem_of_In in Hc. by specialize (plan_bounded _ _ _ Hok c r h Hc Hhit).
Qed.

Lemma delete_truncate b (x : list (doc P)) :
  delete (fun a => gte b (at_height a)) x = truncate_docs b x.
Proof.
  unfold delete, truncate_docs, gte. induction x as [|a x IH]; cbn; [done|].
  repeat case_bool_decide; cbn; rewrite IH; done || lia.
Qed.

Lemma matches_ext (f g : Z → bool) h : (∀ z, f z = g z) → matches f h = matches g h.
Proof. destruct h; cbn; auto. Qed.

Lemma created_iff b purge l h :
  plan_ok b purge l → plan_full b purge l →
  existsb (fun c => hits_created c h) l =
  (if purge then bool_decide (b < 0) || gte b h else false).
Proof.
  intros Hok Hfull. destruct (existsb _ l) eqn:E.
  - apply existsb_exists in E as (c & Hc & Hhit). apply list_elem_of_In in Hc.
    destruct c as [|r' ?|r' ? ?| |h0]; cbn in Hhit; try done;
      try (rewrite (plan_unspent _ _ _ Hok _ h Hc Hhit);
           pose proof (plan_bounded _ _ _ Hok _ Unspent h Hc Hhit);
           unfold gte; rewrite (bool_decide_true (b ≤ h)) by done; by rewrite orb_true_r).
    destruct (plan_all_unspent _ _ _ Hok _ h0 Hc eq_refl) as [-> ->]. done.
  - destruct purge eqn:Hp; [|done]. symmetry. apply orb_false_iff. split.
    + case_bool_decide as Hb; [|done]. exfalso.
      pose proof (full_unspent _ _ _ Hfull Hb eq_refl) as Hin. apply list_elem_of_In in Hin.
      assert (existsb (fun c => hits_created c h) l = true) as E'; [|congruence].
      apply existsb_exists. eexists. split; [exact Hin|]. cbn. by rewrite bool_decide_true.
    + destruct (gte b h) eqn:Hg; [|done]. unfold gte in Hg. apply bool_decide_eq_true in Hg.
      pose proof (full_covers _ _ _ Hfull Unspent h (or_intror eq_refl) Hg) as Hc.
      apply existsb_exists in Hc as (c & Hc & Hhit).
      assert (existsb (fun c => hits_created c h) l = true) as E'; [|congruence].
      apply existsb_exists. exists c. split; [done|]. by destruct c.
Qed.

Lemma foldl_mempool d l b purge :
  plan_ok b purge l →
  mempool (foldl exec d l) = if existsb (is_mempool b) l then [] else mempool d.
Proof.
  intros Hok. assert (∀ c h, c ∈ l → c = MempoolGreater h → h = b ∧ b ≤ 0) as Hm
    by apply (plan_mempool _ _ _ Hok). clear Hok. revert d Hm.
  induction l as [|c l IH]; intros d Hm; cbn [foldl existsb]; [done|].
  rewrite IH by (intros ? ? ?; apply Hm; by right).
  destruct (existsb (is_mempool b) l); [by rewrite orb_true_r|]. rewrite orb_false_r.
  destruct c as [|[] ?|[] ? ?|h|?]; cbn; try done.
  destruct (Hm _ h (list_elem_of_here _ _) eq_refl) as [-> Hb]. rewrite bool_decide_true by done.
  unfold deleteMempoolGreaterThanBlockHeight. by rewrite decide_True.
Qed.

Lemma foldl_targets d l :
  targetEpochs (foldl exec d l) = if existsb is_targets l then [] else targetEpochs d.
Proof.
  revert d. induction l as [|c l IH]; intros d; cbn [foldl existsb]; [done|]. rewrite IH.
  destruct c as [|[] ?|[] ? ?|h|?]; cbn; try done. by destruct (existsb is_targets l).
Qed.

Lemma foldl_progress d l : inProgressBlock (foldl exec d l) = inProgressBlock d.
Proof.
  revert d. induction l as [|c l IH]; intros d; cbn [foldl]; [done|]. rewrite IH.
  by destruct c as [|[] ?|[] ? ?|h|?].
Qed.

Lemma db_eq d1 d2 :
  (∀ r, docs_of r d1 = docs_of r d2) → unspent d1 = unspent d2 → mldsaKeys d1 = mldsaKeys d2 →
  targetEpochs d1 = targetEpochs d2 → mempool d1 = mempool d2 →
  inProgressBlock d1 = inProgressBlock d2 → d1 = d2.
Proof.
  intros Hd. pose proof (Hd Transactions). pose proof (Hd Contracts). pose proof (Hd Pointers).
  pose proof (Hd Headers). pose proof (Hd Witnesses). pose proof (Hd Reorgs). pose proof (Hd Epochs).
  pose proof (Hd Submissions). destruct d1, d2; cbn in *; congruence.
Qed.

(** Whatever its order, a full plan leaves the database truncated. *)
Lemma plan_truncates b purge d l :
  plan_ok b purge l → plan_full b purge l → foldl exec d l = truncate b purge d.
Proof.
  intros Hok Hfull. apply db_eq.
  - intros r. rewrite foldl_docs. destruct (decide (r = Unspent)) as [->|Hr]; [done|].
    rewrite (delete_ext _ (fun x => gte b (at_height x))) by
      (intros x; by apply (covered_iff b purge); auto).
    rewrite delete_truncate. by destruct r.
  - rewrite foldl_unspent. cbn. destruct purge.
    + destruct (decide (b < 0)) as [Hb|Hb].
      * induction (unspent d) as [|u x IH]; cbn; [done|].
        rewrite (created_iff b true) by done. by rewrite bool_decide_true.
      * apply omap_ext_all. intros u. unfold truncate_unspent.
        rewrite (created_iff b true), bool_decide_false by done. unfold gte at 1. cbn.
        destruct (decide (blockHeight u < b)); case_bool_decide; try lia; [|done].
        erewrite matches_ext; [done|]. intros z. by apply (covered_iff b true); auto.
    + apply omap_some. intros u. rewrite (created_iff b false) by done.
      rewrite matches_none; [done|]. intros z. destruct (existsb _ l) eqn:E; [|done].
      apply existsb_exists in E as (c & Hc & Hhit). apply list_elem_of_In in Hc.
      by specialize (plan_unspent _ _ _ Hok c z Hc Hhit).
  - rewrite foldl_keys. cbn. apply omap_ext_all. intros k. unfold truncate_key.
    rewrite (covered_iff b purge) by auto. unfold gte at 1.
    destruct (decide (insertedBlockHeight k < b)); case_bool_decide; try lia; [|done].
    erewrite matches_ext; [done|]. intros z. by apply (covered_iff b purge); auto.
  - rewrite foldl_targets. by rewrite (full_targets _ _ _ Hfull).
  - rewrite (foldl_mempool _ _ b purge) by done. cbn. destruct (decide (b ≤ 0)) as [Hb|Hb].
    + by rewrite (full_mempool _ _ _ Hfull).
    + destruct (existsb (is_mempool b) l) eqn:E; [|done].
      apply existsb_exists in E as ([] & Hc & Hhit); try done. apply list_elem_of_In in Hc.
      by destruct (plan_mempool _ _ _ Hok _ _ Hc eq_refl).
  - exact (foldl_progress d l).
Qed.

(** *** The plans of the code *)

Context (DEV_MODE REINDEX_PURGE_UTXOS : bool) (REINDEX_BATCH_SIZE : Z).
Local Abbreviation batch := (BATCH_SIZE REINDEX_BATCH_SIZE).

Lemma batches_spec fuel b to rs :
  0 < batch → batches REINDEX_BATCH_SIZE fuel b to = Some rs →
  (∀ ft, ft ∈ rs → b ≤ ft.1) ∧ (∀ h, b ≤ h < to → ∃ ft, ft ∈ rs ∧ ft.1 ≤ h < ft.2).
Proof.
  intros Hb. revert to rs. induction fuel as [|fuel IH]; intros to rs; cbn.
  - destruct (decide (to ≤ b)); [|done]. intros [= <-].
    split; [by intros ? ?%not_elem_of_nil|intros; lia].
  - destruct (decide (to ≤ b)) as [Ht|Ht].
    { intros [= <-]. split; [by intros ? ?%not_elem_of_nil|intros; lia]. }
    destruct (batches _ fuel b (to - batch)) as [rs'|] eqn:E; cbn; [|done].
    intros [= <-]. destruct (IH _ _ E) as [Hlow Hcov]. split.
    + intros ft [->|Hft]%elem_of_cons; [|auto]. cbn. case_decide; lia.
    + intros h Hh. destruct (decide (h < to - batch)) as [Hlt|Hlt].
      * destruct (Hcov h ltac:(lia)) as (ft & Hft & Hr). exists ft. split; [by right|done].
      * eexists. split; [left|]. cbn. case_decide; lia.
Qed.

Lemma batches_total fuel b to :
  0 < batch → to - b ≤ Z.of_nat fuel → is_Some (batches REINDEX_BATCH_SIZE fuel b to).
Proof.
  intros Hb. revert to. induction fuel as [|fuel IH]; intros to Hf; cbn.
  - rewrite decide_True by lia. eauto.
  - destruct (decide (to ≤ b)); [eauto|].
    destruct (IH (to - batch) ltac:(lia)) as [rs ->]. cbn. eauto.
Qed.

Lemma repositories_spec purge r :
  r ∈ purged_repositories DEV_MODE purge ↔ r ≠ Unspent ∨ purge = true.
Proof.
  unfold purged_repositories.
  destruct DEV_MODE, purge; cbn; rewrite !elem_of_cons, elem_of_nil; destruct r; intuition congruence.
Qed.

Lemma upperBound_ge d b : b ≤ upperBound d b.
Proof. unfold upperBound. repeat case_decide; lia. Qed.

(** The commands of [revertDataUntilBlock]. *)
Definition command_shape b (purge : bool) upper (rs : list (Z * Z)) c : Prop :=
  c = DeleteAllTargetEpochs ∨
  (∃ r, (r ≠ Unspent ∨ purge = true) ∧
     (c = DeleteFrom r upper ∨ ∃ ft, ft ∈ rs ∧ c = DeleteRange r ft.1 ft.2)) ∨
  (b ≤ 0 ∧ (c = MempoolGreater b ∨ purge = true ∧ c = UnspentGreater b)).

Lemma command_cases fuel b o d l c :
  revertDataUntilBlock DEV_MODE REINDEX_PURGE_UTXOS REINDEX_BATCH_SIZE fuel b o d = Some l →
  ∃ rs, batches REINDEX_BATCH_SIZE fuel b (upperBound d b) = Some rs ∧
  (c ∈ l ↔ command_shape b (default REINDEX_PURGE_UTXOS o) (upperBound d b) rs c).
Proof.
  set (purge := default REINDEX_PURGE_UTXOS o). intros Hl. unfold command_shape. unfold revertDataUntilBlock in Hl. fold purge in Hl.
  destruct (batches _ fuel b (upperBound d b)) as [rs|]; cbn [mbind option_bind] in Hl; [|done].
  exists rs. split; [done|]. injection Hl as <-.
  rewrite elem_of_cons, !elem_of_app, list_elem_of_fmap, list_elem_of_bind.
  setoid_rewrite list_elem_of_fmap. setoid_rewrite repositories_spec. split.
  - intros [->|[(r & -> & Hr)|[(ft & (r & -> & Hr) & Hft)|Hz]]]; [by left|..]; [eauto 10..|].
    right. right. destruct (decide (b ≤ 0)); [|by apply not_elem_of_nil in Hz]. split; [done|].
    apply elem_of_cons in Hz as [->|Hz]; [by left|right]. destruct purge; [|by apply not_elem_of_nil in Hz].
    by apply list_elem_of_singleton in Hz.
  - intros [->|[(r & Hr & [->|(ft & Hft & ->)])|(Hb & [->|[Hp ->]])]]; [by left|right..]; [eauto 10..| |].
    + right. right. rewrite decide_True by done. left.
    + right. right. rewrite decide_True, Hp by done. right. left.
Qed.

Lemma revert_plan_ok fuel b o d l l' :
  0 < batch →
  revertDataUntilBlock DEV_MODE REINDEX_PURGE_UTXOS REINDEX_BATCH_SIZE fuel b o d = Some l →
  (∀ c, c ∈ l' → c ∈ l) → plan_ok b (default REINDEX_PURGE_UTXOS o) l'.
Proof.
  intros Hb Hl Hsub. pose proof (upperBound_ge d b) as Hup.
  assert (∀ c, c ∈ l' → ∃ rs, (∀ ft, ft ∈ rs → b ≤ ft.1) ∧
    command_shape b (default REINDEX_PURGE_UTXOS o) (upperBound d b) rs c) as Hcases.
  { intros c Hc%Hsub. destruct (command_cases _ _ _ _ _ c Hl) as (rs & Hrs & Hiff).
    exists rs. split; [exact (proj1 (batches_spec _ _ _ _ Hb Hrs))|exact (proj1 Hiff Hc)]. }
  split.
  - intros c r h Hc Hhit.
    destruct (Hcases c Hc) as (rs & Hlow & [->|[(r' & _ & [->|(ft & Hft & ->)])|(_ & [->|[_ ->]])]]);
      cbn in Hhit; try done; apply andb_true_iff in Hhit as [_ Hh].
    + unfold gte in Hh. apply bool_decide_eq_true in Hh. lia.
    + unfold in_range in Hh. apply bool_decide_eq_true in Hh. specialize (Hlow ft Hft). lia.
  - intros c h Hc Hhit.
    destruct (Hcases c Hc) as (rs & Hlow & [->|[(r' & Hr & [->|(ft & Hft & ->)])|(_ & [->|[_ ->]])]]);
      cbn in Hhit; try done; apply andb_true_iff in Hhit as [He%bool_decide_eq_true _]; naive_solver.
  - intros c h Hc ->.
    destruct (Hcases _ Hc) as (rs & _ & [?|[(r' & _ & [?|(ft & Hft & ?)])|(_ & [?|[? ?]])]]); by simplify_eq.
  - intros c h Hc ->.
    destruct (Hcases _ Hc) as (rs & _ & [?|[(r' & _ & [?|(ft & Hft & ?)])|(? & [?|[? ?]])]]); by simplify_eq.
Qed.

Lemma revert_total b o d :
  0 < batch →
  is_Some (revertDataUntilBlock DEV_MODE REINDEX_PURGE_UTXOS REINDEX_BATCH_SIZE
             (revert_fuel d b) b o d).
Proof.
  intros Hb. destruct (batches_total (revert_fuel d b) b (upperBound d b) Hb) as [rs Hrs].
  - unfold revert_fuel. pose proof (upperBound_ge d b). lia.
  - unfold revertDataUntilBlock. rewrite Hrs. cbn. eauto.
Qed.

Lemma existsb_elem (f : command → bool) l c : c ∈ l → f c = true → existsb f l = true.
Proof. intros Hc%list_elem_of_In Hf. apply existsb_exists. eauto. Qed.

Lemma revert_plan_full fuel b o d l l' :
  0 < batch →
  revertDataUntilBlock DEV_MODE REINDEX_PURGE_UTXOS REINDEX_BATCH_SIZE fuel b o d = Some l →
  (∀ c, c ∈ l → c ∈ l') → plan_full b (default REINDEX_PURGE_UTXOS o) l'.
Proof.
  intros Hb Hl Hsub.
  pose proof (λ c, command_cases _ _ _ _ _ c Hl) as Hcases. cbv zeta in Hcases.
  split.
  - intros r h Hr Hh. destruct (Hcases DeleteAllTargetEpochs) as (rs & Hrs & _).
    destruct (decide (upperBound d b ≤ h)) as [Hup|Hup].
    + apply (existsb_elem _ _ (DeleteFrom r (upperBound d b))).
      * apply Hsub. destruct (Hcases (DeleteFrom r (upperBound d b))) as (rs' & _ & Hiff).
        apply Hiff. right. left. eauto.
      * cbn. unfold gte. by rewrite !bool_decide_true.
    + destruct (batches_spec _ _ _ _ Hb Hrs) as [_ Hcov].
      destruct (Hcov h ltac:(lia)) as (ft & Hft & Hin).
      apply (existsb_elem _ _ (DeleteRange r ft.1 ft.2)).
      * apply Hsub. destruct (Hcases (DeleteRange r ft.1 ft.2)) as (rs' & Hrs' & Hiff).
        simplify_eq. apply Hiff. right. left. eauto 10.
      * cbn. unfold in_range. by rewrite !bool_decide_true.
  - apply (existsb_elem _ _ DeleteAllTargetEpochs); [|done]. apply Hsub.
    destruct (Hcases DeleteAllTargetEpochs) as (rs & _ & Hiff). apply Hiff. by left.
  - intros Hb0. apply (existsb_elem _ _ (MempoolGreater b)); [|cbn; by rewrite bool_decide_true].
    apply Hsub. destruct (Hcases (MempoolGreater b)) as (rs & _ & Hiff). apply Hiff.
    right. right. split; [done|by left].
  - intros Hb0 Hp. apply Hsub. destruct (Hcases (UnspentGreater b)) as (rs & _ & Hiff).
    apply Hiff. right. right. split; [lia|auto].
Qed.

(** What a part of a plan deletes would be deleted anyway. *)
Lemma truncate_absorbs b purge d l :
  plan_ok b purge l → truncate b purge (foldl exec d l) = truncate b purge d.
Proof.
  intros Hok.
  assert (∀ r h, existsb (fun c => hits c r h) l = true → b ≤ h) as Hhit.
  { intros r h (c & Hc%list_elem_of_In & Hc')%existsb_exists. by apply (plan_bounded _ _ _ Hok c r). }
  assert (∀ h, existsb (fun c => hits_created c h) l = true → purge = true ∧ (b < 0 ∨ b ≤ h)) as Hcr.
  { intros h (c & Hc%list_elem_of_In & Hc')%existsb_exists.
    destruct c as [|r' ?|r' ? ?| |h0]; cbn in Hc'; try done;
      try (split; [by apply (plan_unspent _ _ _ Hok _ h Hc)|right; by apply (plan_bounded _ _ _ Hok _ Unspent h Hc)]).
    destruct (plan_all_unspent _ _ _ Hok _ h0 Hc eq_refl) as [-> ->]. split; [done|].
    apply orb_true_iff in Hc' as [Hc'|Hc']; apply bool_decide_eq_true in Hc'; auto. }
  apply db_eq.
  - intros r. assert (∀ d', docs_of r (truncate b purge d') = truncate_docs b (docs_of r d')) as Ht by by destruct r.
    rewrite !Ht, foldl_docs, <-!delete_truncate, delete_delete. apply delete_ext. intros x.
    destruct (existsb _ l) eqn:E; [|done]. apply Hhit in E. unfold gte. by rewrite bool_decide_true.
  - cbn. destruct purge.
    + destruct (decide (b < 0)) as [|Hb]; [done|]. rewrite foldl_unspent, omap_step.
      apply omap_ext_all. intros u. unfold truncate_unspent.
      destruct (existsb _ l) eqn:E; cbn [mbind option_bind].
      * destruct (Hcr _ E) as [_ [?|?]]; [lia|]. by rewrite decide_False by lia.
      * destruct (matches _ (deletedAtBlock u)) eqn:Em; [|done]. cbn [unspend blockHeight deletedAtBlock matches].
        destruct (deletedAtBlock u) as [z|] eqn:Hz; [|done]. cbn in Em |- *. apply Hhit in Em.
        unfold gte. by rewrite bool_decide_true.
    + rewrite foldl_unspent. apply omap_some. intros u. destruct (existsb _ l) eqn:E.
      { by destruct (Hcr _ E). }
      rewrite matches_none; [done|]. intros z. destruct (existsb (fun c => hits c Unspent z) l) eqn:E'; [|done].
      apply existsb_exists in E' as (c & Hc%list_elem_of_In & Hc').
      by specialize (plan_unspent _ _ _ Hok c z Hc Hc').
  - cbn. rewrite foldl_keys, omap_step. apply omap_ext_all. intros k. unfold truncate_key.
    destruct (existsb _ l) eqn:E; cbn [mbind option_bind].
    + apply Hhit in E. by rewrite decide_False by lia.
    + destruct (matches _ (exposedBlockHeight k)) eqn:Em; [|done].
      cbn [hide insertedBlockHeight exposedBlockHeight matches].
      destruct (exposedBlockHeight k) as [z|] eqn:Hz; [|done]. cbn in Em |- *. apply Hhit in Em.
      unfold gte. by rewrite bool_decide_true.
  - done.
  - cbn. destruct (decide (b ≤ 0)) as [|Hb]; [done|]. rewrite (foldl_mempool _ _ b purge) by done.
    destruct (existsb (is_mempool b) l) eqn:E; [|done].
    apply existsb_exists in E as ([] & Hc%list_elem_of_In & Hc'); try done.
    by destruct (plan_mempool _ _ _ Hok _ _ Hc eq_refl).
  - exact (foldl_progress d l).
Qed.

(** C9: Reverting to a height leaves the database as it was below that height,
    in whatever order the repositories are served; and when an earlier attempt
    was interrupted after any part of its calls, reverting again leaves the same
    database.  The walk over the batches ends. *)
Theorem revertDataUntilBlock_truncates b o d :
  0 < batch →
  let revert d := revertDataUntilBlock DEV_MODE REINDEX_PURGE_UTXOS REINDEX_BATCH_SIZE
                    (revert_fuel d b) b o d in
  ∃ l, revert d = Some l ∧
  ∀ part, (∀ c, c ∈ part → c ∈ l) →
  ∃ l', revert (foldl exec d part) = Some l' ∧
  ∀ served, served ≡ₚ l' →
    foldl exec (foldl exec d part) served = truncate b (default REINDEX_PURGE_UTXOS o) d.
Proof.
  intros Hb revert. destruct (revert_total b o d Hb) as [l Hl]. exists l. split; [exact Hl|].
  intros part Hpart. destruct (revert_total b o (foldl exec d part) Hb) as [l' Hl'].
  exists l'. split; [exact Hl'|]. intros served Hserved.
  rewrite (plan_truncates b (default REINDEX_PURGE_UTXOS o)).
  - apply truncate_absorbs. by apply (revert_plan_ok (revert_fuel d b) b o d l).
  - apply (revert_plan_ok _ _ _ _ _ _ Hb Hl'). intros c. by rewrite Hserved.
  - apply (revert_plan_full _ _ _ _ _ _ Hb Hl'). intros c. by rewrite Hserved.
Qed.

(** *** Headers only *)

Lemma header_batches_spec fuel b upper :
  0 < batch → upper - b < Z.of_nat fuel →
  ∃ rs, header_batches REINDEX_BATCH_SIZE fuel b upper = Some rs ∧
    (∀ ft, ft ∈ rs → b ≤ ft.1) ∧ (∀ h, b ≤ h ≤ upper → ∃ ft, ft ∈ rs ∧ ft.1 ≤ h < ft.2).
Proof.
  intros Hb. revert b. induction fuel as [|fuel IH]; intros b Hf; cbn.
  - rewrite decide_True by lia. eexists. split; [done|].
    split; [by intros ? ?%not_elem_of_nil|intros; lia].
  - destruct (decide (upper < b)) as [Hu|Hu].
    { eexists. split; [done|]. split; [by intros ? ?%not_elem_of_nil|intros; lia]. }
    destruct (IH (b + batch) ltac:(lia)) as (rs & -> & Hlow & Hcov). cbn. eexists. split; [done|]. split.
    + intros ft [->|Hft]%elem_of_cons; [cbn; lia|]. specialize (Hlow ft Hft). lia.
    + intros h Hh. destruct (decide (h < b + batch)) as [Hlt|Hlt].
      * eexists. split; [left|]. cbn. lia.
      * destruct (Hcov h ltac:(lia)) as (ft & Hft & Hr). exists ft. split; [by right|done].
Qed.

Lemma latest_ge (l : list (doc P)) x h :
  x ∈ l → getLatestBlock l = Some h → at_height x ≤ h.
Proof.
  destruct l as [|y l]; [done|]. cbn. intros Hx [= <-].
  assert (∀ m, m ≤ foldl (fun m x => m `max` at_height x) m l ∧
    (x ∈ l → at_height x ≤ foldl (fun m x => m `max` at_height x) m l)) as Hf.
  { clear Hx. induction l as [|z l IH]; intros m; cbn; [split; [lia|by intros ?%not_elem_of_nil]|].
    destruct (IH (m `max` at_height z)) as [H1 H2]. split; [lia|].
    intros [->|Hin]%elem_of_cons; [lia|auto]. }
  destruct (Hf (at_height y)) as [H1 H2]. apply elem_of_cons in Hx as [->|Hx]; auto.
Qed.

(** The resync purge removes exactly the headers at the height and above, and
    touches nothing but headers and witnesses. *)
Lemma revertBlockHeadersOnly_spec b d :
  0 < batch →
  ∃ l, revertBlockHeadersOnly REINDEX_BATCH_SIZE
         (S (Z.to_nat (default b (getLatestBlock (headers d)) - b))) b d = Some l ∧
  ∀ served, served ≡ₚ l →
    headers (foldl exec d served) = truncate_docs b (headers d) ∧
    ∀ r, r ≠ Headers → r ≠ Witnesses →
      docs_of r (foldl exec d served) = docs_of r d.
Proof.
  intros Hb. unfold revertBlockHeadersOnly. set (upper := default b _).
  destruct (header_batches_spec (S (Z.to_nat (upper - b))) b upper Hb ltac:(lia))
    as (rs & -> & Hlow & Hcov).
  eexists. split; [reflexivity|]. intros served Hserved.
  assert (∀ c, c ∈ served ↔ ∃ ft, ft ∈ rs ∧
    (c = DeleteRange Headers ft.1 ft.2 ∨ c = DeleteRange Witnesses ft.1 ft.2)) as Hin.
  { intros c. rewrite Hserved, list_elem_of_bind. split.
    - intros (ft & Hc & Hft). exists ft. split; [done|].
      apply elem_of_cons in Hc as [->|Hc%list_elem_of_singleton]; auto.
    - intros (ft & Hft & Hc). exists ft. split; [|done]. rewrite !elem_of_cons. tauto. }
  assert (∀ r h, existsb (fun c => hits c r h) served = true →
    (r = Headers ∨ r = Witnesses) ∧ b ≤ h) as Hhit.
  { intros r h (c & Hc%list_elem_of_In & Hh)%existsb_exists.
    apply Hin in Hc as (ft & Hft & [->| ->]); cbn in Hh;
      apply andb_true_iff in Hh as [He%bool_decide_eq_true Hr%bool_decide_eq_true];
      specialize (Hlow ft Hft); split; auto; lia. }
  split.
  - change (headers (foldl exec d served)) with (docs_of Headers (foldl exec d served)).
    rewrite foldl_docs, <-delete_truncate. apply delete_ext_in. intros x Hx.
    unfold gte. case_bool_decide as Hbx.
    + destruct (Hcov (at_height x)) as (ft & Hft & Hr).
      { split; [done|]. unfold upper. cbn [docs_of] in Hx.
        destruct (getLatestBlock (headers d)) as [h|] eqn:E; [by apply (latest_ge _ _ _ Hx)|].
        destruct (headers d); [by apply not_elem_of_nil in Hx|done]. }
      apply (existsb_elem _ _ (DeleteRange Headers ft.1 ft.2)); [apply Hin; eauto|].
      cbn. unfold in_range. by rewrite !bool_decide_true.
    + destruct (existsb _ served) eqn:E; [|done]. by apply Hhit in E as [_ ?].
  - intros r H1 H2. rewrite foldl_docs. apply delete_none. intros x.
    destruct (existsb _ served) eqn:E; [|done]. apply Hhit in E as [[?|?] _]; done.
Qed.
End Facts.

(** ** A concrete database *)

Definition example_db : db unit :=
  let at_ h := Doc h tt in
  mkDb (at_ <$> [0; 3; 4; 9]) [at_ 2] [at_ 5] (at_ <$> [0; 1; 2; 3; 4]) [at_ 4] [] [at_ 0; at_ 5] []
    [Utxo 1 (Some 4) tt; Utxo 3 None tt] [Mldsa 1 (Some 5) (Some [7]) tt] [tt] [at_ 0] 5.

Lemma revertDataUntilBlock_truncates_witness :
  0 < BATCH_SIZE 2 ∧
  ∃ l l', revertDataUntilBlock false false 2 (revert_fuel example_db 3) 3 (Some true) example_db = Some l ∧
    let d := foldl exec example_db (take 4 l) in
    revertDataUntilBlock false false 2 (revert_fuel d 3) 3 (Some true) d = Some l' ∧
    foldl exec d (reverse l') = truncate 3 true example_db.
Proof.
  split; [by vm_compute|].
  destruct (revertDataUntilBlock_truncates false false 2 3 (Some true) example_db
    ltac:(by vm_compute)) as (l & Hl & Hpart).
  destruct (Hpart (take 4 l)) as (l' & Hl' & Hserved).
  { intros c Hc. rewrite <-(take_drop 4 l). apply elem_of_app. by left. }
  exists l, l'. split; [exact Hl|]. split; [exact Hl'|].
  exact (Hserved (reverse l') (reverse_Permutation l')).
Defined.
