(* ===== verification/BlockIndexer.v ===== *)
(** * The block indexer
    (processor/BlockIndexer.ts, processor/tasks/IndexingTask.ts)

    The indexer keeps a queue of prefetched blocks, executes one at a time, and
    reverts the chain when a reorganisation is found.  Its methods are
    asynchronous and run interleaved: the state holds the suspended calls (of
    [process] and of [revertChain]), and one step runs one of them from an await
    to the next, or delivers an event.  What a call awaits (block execution,
    database, other threads) is an answer given with the step.

    [init] before [registerEvents], the resync mode and the log are left out. *)

From S2P Require Import Prelude ConsensusRules Consensus ChainObserver.

(** ** Tasks (IndexingTask.ts) *)

Record Task : Type := mkTask {
  tip : Z;
  task_reorged : bool;            (* chainReorged *)
  signal : bool;                  (* the signal of the abort controller *)
  controller : bool;              (* _abortController is set *)
  prefetching : bool;             (* prefetchPromise is set *)
  promise : option (option string);  (* pending, or resolved with an error or none *)
  has_block : bool;               (* _block is set *)
  (** The header in [finalizeBlock]: not asked, being written, written. *)
  write : option bool
}.

Module IndexingTask.

Definition create (t : Z) : Task := mkTask t false false true true None false None.

Definition set_reorged (b : bool) (k : Task) : Task :=
  mkTask (tip k) b (signal k) (controller k) (prefetching k) (promise k) (has_block k) (write k).
Definition set_write (w : option bool) (k : Task) : Task :=
  mkTask (tip k) (task_reorged k) (signal k) (controller k) (prefetching k) (promise k) (has_block k) w.

Definition aborted (k : Task) : bool := negb (controller k) || signal k.

(** [destroy], with [clear]. *)
Definition destroy (k : Task) : Task :=
  if controller k
  then mkTask (tip k) (task_reorged k) (signal k) false false (promise k) (has_block k) (write k)
  else k.

(** The signal fires once; its handler resolves a pending prefetch. *)
Definition abort (k : Task) : Task :=
  mkTask (tip k) (task_reorged k) true (controller k) (prefetching k)
    (if negb (signal k) && prefetching k && bool_decide (promise k = None)
     then Some (Some "Task aborted") else promise k) (has_block k) (write k).

(** [cancel] up to its await; it ends with [destroy]. *)
Definition cancel (reorged : bool) (k : Task) : Task :=
  let k := set_reorged reorged k in
  if controller k then abort k else k.

(** The answer to the block request in [processPrefetch]: an error when the
    request failed or the task was aborted meanwhile. *)
Definition processPrefetch (r : result string unit) (k : Task) : Task :=
  if prefetching k && bool_decide (promise k = None)
  then match r with
       | Ok _ =>
           if aborted k
           then mkTask (tip k) (task_reorged k) (signal k) (controller k) (prefetching k)
                  (Some (Some "Task aborted")) (has_block k) (write k)
           else mkTask (tip k) (task_reorged k) (signal k) (controller k) (prefetching k)
                  (Some None) true (write k)
       | Throw e =>
           mkTask (tip k) (task_reorged k) (signal k) (controller k) (prefetching k)
             (Some (Some e)) (has_block k) (write k)
       end
  else k.

End IndexingTask.

(** ** Suspended calls *)

(** Where a call of [IndexingTask.process] (inside [processNextTask]) waits. *)
Inductive process_pc : Type :=
| AtThrow          (* the prefetch promise was not set *)
| AtPrefetch       (* the prefetched block and the challenge solutions *)
| AtExecute        (* block.execute and block.processSubmissions *)
| AtRevertBlock    (* revertBlock after a failed execution *)
| AtVerify         (* the reorganisation watchdog *)
| AtRestore        (* the watchdog waits for revertChain *)
| Restored (ok : bool)
| AtDelete         (* deleteTransactionsById *)
| AtFinalize       (* block.finalizeBlock and the conflict detection *)
| AtEpoch          (* onCompletedTask: epochManager.updateEpoch *)
| AtHeight         (* onCompletedTask: chainObserver.setNewHeight *)
| AtRecover        (* the catch of processNextTask waits for revertChain *)
| Recovered.

Inductive revert_caller : Type :=
| ByRegression
| ByWatchdog (task : nat)
| ByError (task : nat).

Inductive revert_pc : Type :=
| RStopCurrent (second : bool) (task : nat)                   (* stopAllTasks *)
| RStopTask (second : bool) (task : nat) (rest : list nat)
| RStopEnd (second : bool)
| RThreads         (* notifyThreadReorg *)
| RKill            (* killAllPendingWrites *)
| RData            (* revertDataUntilBlock *)
| RObserver        (* chainObserver.onChainReorganisation *)
| RSetReorg        (* setReorg *)
| RPlugins.        (* notifyPluginsOfReorg *)

Record revert : Type := mkRevert {
  r_from : Z;
  r_to : Z;
  r_best : string;
  r_reorged : bool;
  r_caller : revert_caller;
  r_pc : revert_pc
}.

Definition set_rpc (pc : revert_pc) (r : revert) : revert :=
  mkRevert (r_from r) (r_to r) (r_best r) (r_reorged r) (r_caller r) pc.

(** What an awaited call answers. *)
Inductive answer : Type :=
| Done
| Failed (e : string)
(** The watchdog found nothing, threw, or reverts from a height. *)
| NoReorg
| Reorg (fromHeight : Z) (newBest : string)
(** finalizeBlock returned, with the conflicts dealt with; or the conflict
    detection failed and did not wait for it. *)
| Finalised (ok : bool)
| ConflictsFailed (e : string)
(** revertDataUntilBlock failed when the headers from a height on were gone. *)
| Partial (h : Z)
(** The two awaited calls of onChainReorganisation. *)
| Observed (rpc : result string (option Z)) (written : result string unit).

Inductive event : Type :=
| BlockChange (height : Z) (hash : string)
| Prefetched (task : nat) (r : result string unit)
(** The block aborts its own controller (a save failed). *)
| SignalAborted (task : nat)
(** The header of a block being finalised reaches the storage. *)
| Written (task : nat)
| Resume (task : nat) (a : answer)
| ResumeRevert (i : nat) (a : answer).

(** ** The indexer (BlockIndexer.ts) *)

Module BlockIndexer.
Section BlockIndexer.
Context `{BtcLib} (Config : NodeConfig) (table : IOPNetConsensusObj).
Context (prefetchQueueSize PROCESS_ONLY_X_BLOCK : Z).

Record t : Type := mk {
  chainReorged : bool;
  taskInProgress : bool;
  currentTask : option nat;
  started : bool;
  indexingTasks : list nat;
  processedBlocks : Z;
  (** every task ever created; the others refer to them by index *)
  tasks : list Task;
  observer : ChainObserver.t;
  (** the heights of the stored headers *)
  stored : gset Z;
  processes : list (nat * process_pc);
  reverts : list revert;
  (** the process has exited *)
  exited : bool
}.

Definition set_reorg (b : bool) (s : t) : t :=
  mk b (taskInProgress s) (currentTask s) (started s) (indexingTasks s) (processedBlocks s) (tasks s)
    (observer s) (stored s) (processes s) (reverts s) (exited s).
Definition set_lock (b : bool) (c : option nat) (s : t) : t :=
  mk (chainReorged s) b c (started s) (indexingTasks s) (processedBlocks s) (tasks s)
    (observer s) (stored s) (processes s) (reverts s) (exited s).
Definition set_started (s : t) : t :=
  mk (chainReorged s) (taskInProgress s) (currentTask s) true (indexingTasks s) (processedBlocks s)
    (tasks s) (observer s) (stored s) (processes s) (reverts s) (exited s).
Definition set_queue (q : list nat) (s : t) : t :=
  mk (chainReorged s) (taskInProgress s) (currentTask s) (started s) q (processedBlocks s) (tasks s)
    (observer s) (stored s) (processes s) (reverts s) (exited s).
Definition count_block (s : t) : t :=
  mk (chainReorged s) (taskInProgress s) (currentTask s) (started s) (indexingTasks s)
    (if decide (PROCESS_ONLY_X_BLOCK = 0) then processedBlocks s else processedBlocks s + 1) (tasks s)
    (observer s) (stored s) (processes s) (reverts s) (exited s).
Definition set_tasks (f : list Task → list Task) (s : t) : t :=
  mk (chainReorged s) (taskInProgress s) (currentTask s) (started s) (indexingTasks s)
    (processedBlocks s) (f (tasks s)) (observer s) (stored s) (processes s) (reverts s) (exited s).
Definition set_observer (o : ChainObserver.t) (s : t) : t :=
  mk (chainReorged s) (taskInProgress s) (currentTask s) (started s) (indexingTasks s)
    (processedBlocks s) (tasks s) o (stored s) (processes s) (reverts s) (exited s).
Definition set_stored (st : gset Z) (s : t) : t :=
  mk (chainReorged s) (taskInProgress s) (currentTask s) (started s) (indexingTasks s)
    (processedBlocks s) (tasks s) (observer s) st (processes s) (reverts s) (exited s).
Definition set_processes (p : list (nat * process_pc)) (s : t) : t :=
  mk (chainReorged s) (taskInProgress s) (currentTask s) (started s) (indexingTasks s)
    (processedBlocks s) (tasks s) (observer s) (stored s) p (reverts s) (exited s).
Definition set_reverts (r : list revert) (s : t) : t :=
  mk (chainReorged s) (taskInProgress s) (currentTask s) (started s) (indexingTasks s)
    (processedBlocks s) (tasks s) (observer s) (stored s) (processes s) r (exited s).
Definition set_exited (s : t) : t :=
  mk (chainReorged s) (taskInProgress s) (currentTask s) (started s) (indexingTasks s)
    (processedBlocks s) (tasks s) (observer s) (stored s) (processes s) (reverts s) true.

Definition on_task (i : nat) (f : Task → Task) (s : t) : t := set_tasks (alter f i) s.

(** After [init]: the events are registered, nothing runs. *)
Definition initial (o : ChainObserver.t) (st : gset Z) : t :=
  mk false false None false [] 0 [] o st [] [] false.

Definition pc_of (s : t) (i : nat) : option process_pc :=
  snd <$> (snd <$> list_find (fun p => p.1 = i) (processes s)).

Definition set_pc (i : nat) (pc : process_pc) (s : t) : t :=
  set_processes ((fun p => if decide (p.1 = i) then (i, pc) else p) <$> processes s) s.

Definition drop_process (i : nat) (s : t) : t :=
  set_processes (filter (fun p => p.1 ≠ i) (processes s)) s.

(** *** Starting tasks *)

(** [nextTask]: the tip cannot be above the target, so the constructor of the
    task does not throw; a throw of [nextBestTip] is logged. *)
Definition nextTask (s : t) : t :=
  match ChainObserver.nextBestTip (observer s) with
  | (o, Ok h) =>
      let s := set_observer o s in
      if decide (targetBlockHeight (ChainObserver.status o) < h) then s
      else set_queue (indexingTasks s ++ [length (tasks s)])
             (set_tasks (fun l => l ++ [IndexingTask.create h]) s)
  | (o, Throw _) => set_observer o s
  end.

Fixpoint start_loop (n : nat) (s : t) : t :=
  match n with
  | O => s
  | S n' =>
      if decide (targetBlockHeight (ChainObserver.status (observer s)) < ChainObserver.pendingTaskHeight (observer s)) then s
      else start_loop n' (nextTask s)
  end.

(** [processNextTask] up to the first await; called with a queue that is not
    empty. *)
Definition processNextTask (s : t) : t :=
  if taskInProgress s then s
  else match indexingTasks s with
       | [] => s
       | i :: q =>
           let s := set_queue q (set_lock true (Some i) s) in
           let pc := if default false (prefetching <$> tasks s !! i) then AtPrefetch else AtThrow in
           set_processes (processes s ++ [(i, pc)]) s
       end.

Definition startTasks (s : t) : t :=
  if chainReorged s then s
  else
    let s := start_loop (Z.to_nat (prefetchQueueSize - Z.of_nat (length (indexingTasks s)))) s in
    if decide (indexingTasks s = []) then s else processNextTask s.

Definition limit_reached (s : t) : bool :=
  bool_decide (PROCESS_ONLY_X_BLOCK ≠ 0 ∧ PROCESS_ONLY_X_BLOCK ≤ processedBlocks s).

Definition releaseLockAndCallNextTask (mayRestartTask : bool) (s : t) : t :=
  let s := set_lock false None s in
  if limit_reached s then s
  else if mayRestartTask && negb (chainReorged s) then startTasks s else s.

(** *** [revertChain] *)

(** [stopAllTasks]: cancel the current task, then those of the queue. *)
Definition stop_queue (second : bool) (l : list nat) (reorged : bool) (s : t) : t * revert_pc :=
  match l with
  | [] => (set_queue [] (set_lock (taskInProgress s) None s), RStopEnd second)
  | i :: rest => (on_task i (IndexingTask.cancel reorged) s, RStopTask second i rest)
  end.

Definition stopAllTasks (second : bool) (reorged : bool) (s : t) : t * revert_pc :=
  match currentTask s with
  | Some i => (on_task i (IndexingTask.cancel reorged) s, RStopCurrent second i)
  | None => stop_queue second (indexingTasks s) reorged s
  end.

Definition revertChain (fromHeight toHeight : Z) (newBest : string) (reorged : bool)
    (caller : revert_caller) (s : t) : t :=
  let '(s, pc) := stopAllTasks false reorged (set_reorg true s) in
  set_reverts (reverts s ++ [mkRevert fromHeight toHeight newBest reorged caller pc]) s.

(** The caller goes on: a regression starts the tasks again, or logs. *)
Definition revert_return (ok : bool) (r : revert) (s : t) : t :=
  match r_caller r with
  | ByRegression => if ok then startTasks s else s
  | ByWatchdog i => set_pc i (Restored ok) s
  | ByError i => set_pc i Recovered s
  end.

(** The catch of [revertChain]: the node stays locked once the storage was
    modified. *)
Definition revert_failed (storageModified : bool) (r : revert) (s : t) : t :=
  revert_return false r (if storageModified then s else set_reorg false s).

Definition drop_from (h : Z) (st : gset Z) : gset Z := filter (fun x => x < h) st.

(** A cancelled task may be destroyed once its prefetch has settled. *)
Definition settled (i : nat) (s : t) : bool :=
  match tasks s !! i with
  | Some k => negb (prefetching k) || bool_decide (promise k ≠ None)
  | None => true
  end.

(** One call of [revertChain] from its await on; [None] when the answer is not
    one it can get.  [s] is without the call itself. *)
Definition resume_revert (r : revert) (a : answer) (s : t) : option t :=
  let suspend sp := let '(s, pc) := sp in Some (set_reverts (reverts s ++ [set_rpc pc r]) s) in
  let plugins s := suspend (s, RPlugins) in
  match r_pc r, a with
  | RStopCurrent second i, Done =>
      if settled i s
      then let s := on_task i IndexingTask.destroy s in
           suspend (stop_queue second (indexingTasks s) (r_reorged r) s)
      else None
  | RStopTask second i rest, Done =>
      if settled i s
      then suspend (stop_queue second rest (r_reorged r) (on_task i IndexingTask.destroy s))
      else None
  | RStopEnd false, Done => suspend (stopAllTasks true (r_reorged r) s)
  | RStopEnd true, Done => suspend (s, RThreads)
  | RThreads, Done => suspend (s, RKill)
  | RKill, Done => suspend (s, RData)
  | RThreads, Failed _ | RKill, Failed _ | RData, Failed _ => Some (revert_failed false r s)
  | RData, Partial h =>
      if decide (r_from r ≤ h)
      then Some (revert_failed false r (set_stored (drop_from h (stored s)) s)) else None
  | RData, Done =>
      let s := set_stored (drop_from (r_from r) (stored s)) s in
      match ChainObserver.reorg_begin (r_from r) (r_best r) (observer s) with
      | (o, Ok _) => suspend (set_observer o s, RObserver)
      | (o, Throw _) => Some (revert_failed true r (set_observer o s))
      end
  | RObserver, Observed rpc written =>
      match ChainObserver.reorg_end Config table (r_from r) rpc written (observer s) with
      | (o, Throw (Exited _)) => Some (set_exited (set_observer o s))
      | (o, Throw _) => Some (revert_failed true r (set_observer o s))
      | (o, Ok _) =>
          let s := set_observer o s in
          if r_reorged r
          then if decide (r_from r ≤ 0) then Some (revert_failed true r s)
               else suspend (s, RSetReorg)
          else plugins s
      end
  | RSetReorg, Done => plugins s
  | RSetReorg, Failed _ | RPlugins, Failed _ => Some (revert_failed true r s)
  | RPlugins, Done => Some (revert_return true r (set_reorg false s))
  | _, _ => None
  end.

(** *** [processNextTask], after the await *)

Definition process_returns (i : nat) (s : t) : t :=
  releaseLockAndCallNextTask true (drop_process i s).

(** The catch block: an error while the chain is being reverted is only logged;
    otherwise the chain is reverted from the last processed block. *)
Definition process_throws (i : nat) (s : t) : t :=
  let silent := match currentTask s with
                | None => true
                | Some c => default false (task_reorged <$> tasks s !! c)
                end in
  if chainReorged s || silent then process_returns i s
  else
    let pending := pendingBlockHeight (ChainObserver.status (observer s)) in
    if decide (0 < pending - 1)
    then revertChain pending (pending - 1) "processing-error" false (ByError i) (set_pc i AtRecover s)
    else releaseLockAndCallNextTask false (drop_process i s).

(** The catch of [process] destroys the task first. *)
Definition task_throws (i : nat) (s : t) : t := process_throws i (on_task i IndexingTask.destroy s).

(** [processBlock] after the execution. *)
Definition verify_reorg (i : nat) (k : Task) (s : t) : t :=
  if task_reorged k then set_pc i AtDelete s
  else if controller k then set_pc i AtVerify s
  else set_pc i AtDelete (on_task i (IndexingTask.set_reorged true) s).

(** The conflicts and [finalizeBlock] are started together. *)
Definition finalize (i : nat) (k : Task) (s : t) : t :=
  set_pc i AtFinalize (if signal k then s else on_task i (IndexingTask.set_write (Some false)) s).

(** [onComplete], which is [onCompletedTask]. *)
Definition complete (i : nat) (k : Task) (s : t) : t :=
  if task_reorged k || IndexingTask.aborted k then process_returns i s else set_pc i AtEpoch s.

(** One call of [process] from its await on. *)
Definition resume_process (i : nat) (k : Task) (pc : process_pc) (a : answer) (s : t) : option t :=
  match pc, a with
  | AtThrow, Done => Some (process_throws i s)
  | AtPrefetch, (Done | Failed _) =>
      match promise k with
      | None => None
      | Some error =>
          match a, error, has_block k with
          | Done, None, true =>
              match ConsensusTracker.setConsensusBlockHeight Config table (tip k)
                      (ChainObserver.selector (observer s)) with
              | (c, r) =>
                  let o := observer s in
                  let s := set_observer (ChainObserver.mk (ChainObserver.status o) (ChainObserver.inProgressBlock o) c) s in
                  let s := on_task i (fun k => mkTask (tip k) (task_reorged k) (signal k)
                             (controller k) false (promise k) (has_block k) (write k)) s in
                  match r with
                  | Ok false => Some (set_pc i AtExecute s)
                  | Throw (ProcessExit _) => Some (set_exited s)
                  | _ => Some (task_throws i s)
                  end
              end
          | _, _, _ => Some (task_throws i s)
          end
      end
  | AtExecute, Done => Some (verify_reorg i k s)
  | AtExecute, Failed _ => Some (set_pc i AtRevertBlock s)
  | AtRevertBlock, (Done | Failed _) => Some (task_throws i s)
  | AtVerify, NoReorg => Some (set_pc i AtDelete (on_task i (IndexingTask.set_reorged false) s))
  | AtVerify, Failed _ => Some (task_throws i s)
  | AtVerify, Reorg fromHeight newBest =>
      Some (revertChain fromHeight (tip k) newBest true (ByWatchdog i) (set_pc i AtRestore s))
  | Restored true, Done => Some (set_pc i AtDelete (on_task i (IndexingTask.set_reorged true) s))
  | Restored false, Done => Some (task_throws i s)
  | AtDelete, Done => Some (finalize i k s)
  | AtDelete, Failed _ => Some (task_throws i s)
  | AtFinalize, Finalised true =>
      if decide (write k = Some true)
      then if signal k then Some (task_throws i s) else Some (complete i k s)
      else None
  | AtFinalize, Finalised false =>
      Some (task_throws i (on_task i (fun k => if decide (write k = Some false)
                                               then IndexingTask.set_write None k else k) s))
  | AtFinalize, ConflictsFailed _ => Some (task_throws i s)
  | AtEpoch, Done =>
      if negb (taskInProgress s) then Some (task_throws i s)
      else Some (set_pc i AtHeight
             (set_observer (ChainObserver.set_status (ChainObserver.set_pending (tip k)) (observer s)) s))
  | AtEpoch, Failed _ => Some (task_throws i s)
  | AtHeight, Done =>
      let o := (ChainObserver.store_progress (tip k + 1) (Ok tt) (observer s)).1 in
      Some (process_returns i (count_block (on_task i IndexingTask.destroy (set_observer o s))))
  | AtHeight, Failed _ => Some (task_throws i s)
  | Recovered, Done => Some (process_returns i s)
  | _, _ => None
  end.

(** *** [onBlockChange] *)

Definition is_regression (height : Z) (s : t) : bool :=
  started s && negb (chainReorged s) &&
  bool_decide (0 < height ∧ height ≤ pendingBlockHeight (ChainObserver.status (observer s))).

Definition onBlockChange (height : Z) (hash : string) (s : t) : t :=
  let s := set_observer (ChainObserver.onBlockChange height hash (observer s)) s in
  if limit_reached s then s
  else if is_regression height s
  then revertChain height (pendingBlockHeight (ChainObserver.status (observer s))) hash true ByRegression s
  else if negb (started s) then set_started (startTasks s)
  else if taskInProgress s && negb (bool_decide (indexingTasks s = [])) then s
  else startTasks s.

(** ** One step *)

Definition step (s : t) (e : event) : option t :=
  if exited s then None
  else match e with
  | BlockChange height hash => Some (onBlockChange height hash s)
  | Prefetched i r => Some (on_task i (IndexingTask.processPrefetch r) s)
  | SignalAborted i => Some (on_task i IndexingTask.abort s)
  | Written i =>
      k ← tasks s !! i;
      if decide (write k = Some false)
      then Some (on_task i (IndexingTask.set_write (Some true)) (set_stored ({[tip k]} ∪ stored s) s))
      else None
  | Resume i a =>
      pc ← pc_of s i;
      k ← tasks s !! i;
      resume_process i k pc a s
  | ResumeRevert n a =>
      r ← reverts s !! n;
      resume_revert r a (set_reverts (delete n (reverts s)) s)
  end.

Definition run (s : t) (l : list event) : option t :=
  foldl (fun o e => o ≫= fun s => step s e) (Some s) l.

End BlockIndexer.
End BlockIndexer.

Import BlockIndexer.
