(* ===== verification/BlockIndexerFacts.v ===== *)
(** * Properties of the block indexer

    Every property is an invariant of the interleaved steps of [BlockIndexer]. *)

From S2P Require Import Prelude ConsensusRules Consensus ChainObserver BlockIndexer.
Import BlockIndexer.BlockIndexer.

Section Facts.
Context `{BtcLib} (Config : NodeConfig) (table : IOPNetConsensusObj).
Context (prefetchQueueSize PROCESS_ONLY_X_BLOCK : Z).
Local Abbreviation step := (step Config table prefetchQueueSize PROCESS_ONLY_X_BLOCK).
Local Abbreviation run := (run Config table prefetchQueueSize PROCESS_ONLY_X_BLOCK).
Local Abbreviation startTasks := (startTasks prefetchQueueSize).
Local Abbreviation process_returns := (process_returns prefetchQueueSize PROCESS_ONLY_X_BLOCK).
Local Abbreviation process_throws := (process_throws prefetchQueueSize PROCESS_ONLY_X_BLOCK).
Local Abbreviation task_throws := (task_throws prefetchQueueSize PROCESS_ONLY_X_BLOCK).
Implicit Types (s : t) (i : nat).

(** ** Runs *)

Lemma run_snoc s l e : run s (l ++ [e]) = run s l ≫= fun s' => step s' e.
Proof. unfold BlockIndexer.BlockIndexer.run. by rewrite foldl_app. Qed.

(** A property of the first state that every step preserves. *)
Lemma run_invariant (P : t → Prop) s0 :
  P s0 → (∀ s e s', P s → step s e = Some s' → P s') →
  ∀ l s, run s0 l = Some s → P s.
Proof.
  intros H0 Hstep l. induction l as [|e l IH] using rev_ind; intros s.
  - by intros [= <-].
  - rewrite run_snoc. destruct (run s0 l) as [s1|] eqn:E; [|done]. cbn. eauto.
Qed.

(** ** One task at a time *)

(** The lock is held exactly while a call of [processNextTask] runs. *)
Definition lock_inv s : Prop :=
  processes s = [] ∧ taskInProgress s = false ∨
  ∃ p, processes s = [p] ∧ taskInProgress s = true.

(** [s'] has the calls and the lock of [s]. *)
Definition same_lock s s' : Prop :=
  processes s' = processes s ∧ taskInProgress s' = taskInProgress s.

Lemma same_lock_inv s s' : same_lock s s' → lock_inv s → lock_inv s'.
Proof. unfold lock_inv. by intros [-> ->]. Qed.

Lemma start_loop_lock n s : same_lock s (start_loop n s).
Proof.
  revert s. induction n as [|n IH]; intros s; cbn; [done|]. case_decide; [done|].
  destruct (IH (nextTask s)) as [Hp Hl]. unfold same_lock. rewrite Hp, Hl. unfold nextTask.
  destruct (ChainObserver.nextBestTip (observer s)) as [o [h|e]]; [|done]. by case_decide.
Qed.

Lemma startTasks_lock s : lock_inv s → lock_inv (startTasks s).
Proof.
  intros Hs. unfold BlockIndexer.BlockIndexer.startTasks. destruct (chainReorged s); [done|].
  set (s1 := start_loop _ s). assert (lock_inv s1) as H1 by (by eapply same_lock_inv, Hs; apply start_loop_lock).
  clearbody s1. case_decide; [done|]. unfold processNextTask.
  destruct H1 as [[Hp Hl]|(p & Hp & Hl)]; rewrite Hl.
  - destruct (indexingTasks s1) as [|i q]; [by left|]. right. eexists. cbn. by rewrite Hp.
  - right. eauto.
Qed.

Lemma stop_lock second reorged s : same_lock s (stopAllTasks second reorged s).1.
Proof.
  unfold stopAllTasks, stop_queue. destruct (currentTask s); [done|]. by destruct (indexingTasks s).
Qed.

Lemma revertChain_lock from to best reorged c s :
  same_lock s (revertChain from to best reorged c s).
Proof.
  unfold revertChain. destruct (stop_lock false reorged (set_reorg true s)) as [Hp Hl].
  destruct (stopAllTasks _ _ _) as [s1 pc]. done.
Qed.

Lemma set_pc_lock i pc s : lock_inv s → lock_inv (set_pc i pc s).
Proof.
  unfold lock_inv. cbn. intros [[-> ->]|(p & -> & ->)]; [by left|right]. cbn. eauto.
Qed.

Lemma revert_return_lock ok r s : lock_inv s → lock_inv (revert_return prefetchQueueSize ok r s).
Proof.
  intros Hs. unfold revert_return. destruct (r_caller r); [|by apply set_pc_lock..].
  destruct ok; [by apply startTasks_lock|done].
Qed.

Lemma revert_failed_lock m r s : lock_inv s → lock_inv (revert_failed prefetchQueueSize m r s).
Proof. intros Hs. apply revert_return_lock. by destruct m. Qed.

Lemma stop_queue_lock second l reorged s : same_lock s (stop_queue second l reorged s).1.
Proof. by destruct l. Qed.

Lemma lock_inv_pair s (sp : t * revert_pc) r :
  lock_inv s → same_lock s sp.1 →
  lock_inv (let '(s', pc) := sp in set_reverts (reverts s' ++ [set_rpc pc r]) s').
Proof. destruct sp as [s' pc]. intros Hs Hl. exact (same_lock_inv _ _ Hl Hs). Qed.

Lemma resume_revert_lock r a s s' :
  lock_inv s → resume_revert Config table prefetchQueueSize r a s = Some s' → lock_inv s'.
Proof.
  intros Hs. unfold resume_revert.
  destruct (r_pc r) as [sec j|sec j rest|[]| | | | | |], a; try done; cbn -[stopAllTasks stop_queue].
  - destruct (settled j s); [|done].
    pose proof (stop_queue_lock sec (indexingTasks (on_task j IndexingTask.destroy s)) (r_reorged r)
      (on_task j IndexingTask.destroy s)) as Hq.
    destruct (stop_queue _ _ _ _). intros [= <-]. exact (same_lock_inv _ _ Hq Hs).
  - destruct (settled j s); [|done].
    pose proof (stop_queue_lock sec rest (r_reorged r) (on_task j IndexingTask.destroy s)) as Hq.
    destruct (stop_queue _ _ _ _). intros [= <-]. exact (same_lock_inv _ _ Hq Hs).
  - by intros [= <-].
  - pose proof (stop_lock true (r_reorged r) s) as Hq.
    destruct (stopAllTasks _ _ _). intros [= <-]. exact (same_lock_inv _ _ Hq Hs).
  - by intros [= <-].
  - intros [= <-]. by apply revert_failed_lock.
  - by intros [= <-].
  - intros [= <-]. by apply revert_failed_lock.
  - destruct (ChainObserver.reorg_begin _ _ _) as [o [[]|e]]; intros [= <-]; [done|].
    by apply revert_failed_lock.
  - intros [= <-]. by apply revert_failed_lock.
  - case_decide; [|done]. intros [= <-]. by apply revert_failed_lock.
  - destruct (ChainObserver.reorg_end _ _ _ _ _ _) as [o [[]|e]].
    + destruct (r_reorged r); [case_decide|]; intros [= <-]; try done. by apply revert_failed_lock.
    + destruct e; intros [= <-]; done || by apply revert_failed_lock.
  - by intros [= <-].
  - intros [= <-]. by apply revert_failed_lock.
  - intros [= <-]. by apply revert_return_lock.
  - intros [= <-]. by apply revert_failed_lock.
Qed.

(** *** A call of [process] *)

Lemma pc_of_single s i pc :
  lock_inv s → pc_of s i = Some pc → processes s = [(i, pc)] ∧ taskInProgress s = true.
Proof.
  unfold pc_of. intros [[Hp Hl]|([j pc'] & Hp & Hl)]; rewrite Hp; [done|]. cbn.
  case_decide; cbn; intros Heq; by simplify_eq.
Qed.

Lemma pc_of_set s i pc pc' : processes s = [(i, pc)] → pc_of (set_pc i pc' s) i = Some pc'.
Proof.
  intros Hp. unfold pc_of, set_pc, set_processes. cbn [processes]. rewrite Hp. cbn.
  destruct (decide (i = i)); [|done]. cbn. by destruct (decide (i = i)).
Qed.

Lemma release_lock may s : processes s = [] → lock_inv (releaseLockAndCallNextTask prefetchQueueSize PROCESS_ONLY_X_BLOCK may s).
Proof.
  intros Hp. unfold releaseLockAndCallNextTask.
  assert (lock_inv (set_lock false None s)) as Hl by (by left).
  destruct (limit_reached _ _); [done|]. destruct (may && _); [by apply startTasks_lock|done].
Qed.

Lemma drop_single s i pc : processes s = [(i, pc)] → processes (drop_process i s) = [].
Proof. intros Hp. cbn. rewrite Hp. rewrite filter_cons_False; [done|]. cbn. congruence. Qed.

Lemma process_returns_lock s i pc : processes s = [(i, pc)] → lock_inv (process_returns i s).
Proof. intros Hp. by apply release_lock, (drop_single s i pc). Qed.

Lemma process_throws_lock s i pc :
  processes s = [(i, pc)] → taskInProgress s = true → lock_inv (process_throws i s).
Proof.
  intros Hp Hl. unfold BlockIndexer.BlockIndexer.process_throws.
  destruct (chainReorged s || _); [by eapply process_returns_lock|]. case_decide.
  - eapply same_lock_inv; [apply revertChain_lock|]. apply set_pc_lock. right. eauto.
  - by apply release_lock, (drop_single s i pc).
Qed.

Lemma resume_process_lock i k pc a s s' :
  processes s = [(i, pc)] → taskInProgress s = true →
  resume_process Config table prefetchQueueSize PROCESS_ONLY_X_BLOCK i k pc a s = Some s' →
  lock_inv s'.
Proof.
  intros Hp Hl.
  assert (∀ s1, processes s1 = [(i, pc)] → taskInProgress s1 = true → lock_inv (task_throws i s1)) as Ht.
  { intros s1 H1 H2. by apply (process_throws_lock _ i pc). }
  assert (lock_inv s) as Hs by (right; eauto).
  assert (∀ pc' s1, processes s1 = [(i, pc)] → taskInProgress s1 = true → lock_inv (set_pc i pc' s1)) as Hpc.
  { intros pc' s1 H1 H2. apply set_pc_lock. right. eauto. }
  assert (lock_inv (process_returns i s)) as Hret by (by eapply process_returns_lock).
  destruct pc as [| | | | | |[]| | | | | |], a as [| | | |[]| | |];
    cbn -[ConsensusTracker.setConsensusBlockHeight]; try done.
  all: try (intros [= <-]; by apply Ht || by apply Hpc || by apply (process_throws_lock _ _ _ Hp Hl)).
  all: try (destruct (promise k) as [err|]; [|done]).
  - destruct err as [err|]; [intros [= <-]; by apply Ht|].
    destruct (has_block k); [|intros [= <-]; by apply Ht].
    destruct (ConsensusTracker.setConsensusBlockHeight _ _ _ _) as [c [[]|[]]]; intros [= <-];
      by apply Ht || by apply Hpc || done.
  - intros [= <-]. by apply Ht.
  - intros [= <-]. unfold verify_reorg. repeat case_match; by apply Hpc.
  - intros [= <-]. eapply same_lock_inv; [apply revertChain_lock|]. by apply Hpc.
  - intros [= <-]. unfold finalize. destruct (signal k); by apply Hpc.
  - case_decide; [|done]. destruct (signal k); intros [= <-]; [by apply Ht|].
    unfold complete. case_match; [done|by apply Hpc].
  - rewrite Hl. intros [= <-]. by apply Hpc.
  - intros [= <-]. by apply (process_returns_lock _ i AtHeight).
  - by intros [= <-].
Qed.

Lemma step_lock s e s' : lock_inv s → step s e = Some s' → lock_inv s'.
Proof.
  intros Hs. unfold BlockIndexer.BlockIndexer.step. destruct (exited s); [done|].
  destruct e as [h hash|i r|i|i|i a|n a].
  - intros [= <-]. unfold onBlockChange. set (s1 := set_observer _ s).
    assert (lock_inv s1) as H1 by done. clearbody s1.
    repeat case_match; try done.
    + eapply same_lock_inv; [apply revertChain_lock|done].
    + by apply (startTasks_lock s1).
    + by apply startTasks_lock.
  - by intros [= <-].
  - by intros [= <-].
  - destruct (tasks s !! i) as [k|]; cbn; [|done]. case_decide; [|done]. by intros [= <-].
  - destruct (pc_of s i) as [pc|] eqn:Hpc; cbn; [|done].
    apply (pc_of_single _ _ _ Hs) in Hpc as [Hp Hl].
    destruct (tasks s !! i) as [k|]; cbn; [|done]. by apply resume_process_lock.
  - destruct (reverts s !! n) as [r|]; cbn; [|done]. by apply resume_revert_lock.
Qed.

(** At most one call of [processNextTask] is running, and the lock is held
    meanwhile. *)
Definition exclusive s : Prop :=
  (length (processes s) ≤ 1)%nat ∧ (taskInProgress s = true ↔ processes s ≠ []).

(** Blocks are processed one at a time: whatever is interleaved, at most one
    call of [processNextTask] is running, the lock is held exactly while it
    runs, and so the check of [onCompletedTask] for two running tasks never
    fires. *)
Theorem one_task_at_a_time o st l s :
  run (initial o st) l = Some s →
  exclusive s ∧
  (∀ i k, pc_of s i = Some AtEpoch → tasks s !! i = Some k → exited s = false →
     ∃ s', step s (Resume i Done) = Some s' ∧ pc_of s' i = Some AtHeight ∧
       pendingBlockHeight (ChainObserver.status (observer s')) = tip k).
Proof.
  intros Hrun. assert (lock_inv s) as Hs.
  { eapply (run_invariant lock_inv); [|exact step_lock|exact Hrun]. by left. }
  split.
  - split; [destruct Hs as [[-> _]|(p & -> & _)]; cbn; lia|].
    destruct Hs as [[-> ->]|(p & -> & ->)]; done.
  - intros i k Hpc Hk Hex. pose proof (pc_of_single _ _ _ Hs Hpc) as [Hp Hl].
    unfold BlockIndexer.BlockIndexer.step. rewrite Hex, Hpc, Hk. cbn. rewrite Hl. cbn.
    eexists. split; [done|]. split; [|done]. by apply (pc_of_set _ i AtEpoch).
Qed.
End Facts.

(** ** Examples *)

#[local] Existing Instance string_btclib.

Definition regtest_config : NodeConfig := {|
  CHAIN_ID := Bitcoin; NETWORK := regtest; REINDEX := false; REINDEX_FROM_BLOCK := 0 |}.

Definition example_observer (p : Z) : ChainObserver.t :=
  ChainObserver.mk (ChainObserver.set_tip p (ChainObserver.set_pending p ChainObserver.initial_status))
    None OPNetConsensus.initial.

(** A regtest node that has the blocks below [p] and prefetches two blocks. *)
Definition node (p : nat) : t :=
  initial (example_observer (Z.of_nat p)) (list_to_set (Z.of_nat <$> seq 0 p)).

Abbreviation play := (BlockIndexer.BlockIndexer.run regtest_config nodeConsensus 2 0).

(** What the calls answer while block [i] is processed, up to the write of its
    header. *)
Definition until_written (i : nat) : list event :=
  [Prefetched i (Ok tt); Resume i Done; Resume i Done; Resume i NoReorg; Resume i Done; Written i].

Definition one_block (i : nat) : list event :=
  until_written i ++ [Resume i (Finalised true); Resume i Done; Resume i Done].

(** To show that a run succeeds without writing its state down. *)
Lemma some_of {A} (o : option A) :
  match o with Some _ => true | None => false end = true → ∃ x, o = Some x.
Proof. destruct o; [eauto|done]. Qed.

Lemma one_task_at_a_time_witness :
  ∃ s, play (node 2) (BlockChange 4 "a" :: one_block 0 ++ removelast (one_block 1)) = Some s ∧
    (length (processes s) ≤ 1)%nat ∧ processes s ≠ [].
Proof.
  destruct (some_of (l ← (λ s, processes s) <$>
      play (node 2) (BlockChange 4 "a" :: one_block 0 ++ removelast (one_block 1));
      if decide (l = []) then None else Some ())) as [x Hx]; [vm_compute; reflexivity|].
  destruct (play (node 2) _) as [s|] eqn:E; [|done]. exists s. split; [done|].
  destruct (one_task_at_a_time regtest_config nodeConsensus 2 0 (example_observer 2) _ _ s E) as ([Hl _] & _).
  split; [exact Hl|]. cbn in Hx. by case_decide.
Defined.
