(* ===== verification/BlockIndexerOrder.v ===== *)
(** * The order of the stored blocks

    The blocks reach the storage in the order of their heights, with no gap and
    none twice, also across reverts.  The property needs the steps to be [calm]:
    the interleavings it leaves out, where the property fails, are the examples
    at the end of the file. *)

From S2P Require Import Prelude ConsensusRules Consensus ChainObserver BlockIndexer BlockIndexerFacts.
Import BlockIndexer.BlockIndexer.

(** Split the conjunctions that are visible, and no definition. *)
Ltac conjs := repeat match goal with |- _ ∧ _ => split end.

(** ** The invariant *)

Section Invariant.
Context `{BtcLib}.
Implicit Types (s : t) (i : nat) (k : Task) (m : Z).

Definition pending s : Z := pendingBlockHeight (ChainObserver.status (observer s)).
Definition best s : Z := bestTip (ChainObserver.status (observer s)).

(** The call of the current task: its block is the next one, until its header is
    written. *)
Definition live_ok m (pc : process_pc) k : Prop :=
  controller k = true ∧ task_reorged k = false ∧
  match pc with
  | AtThrow | AtPrefetch | AtExecute | AtRevertBlock | AtVerify | AtDelete => write k = None ∧ tip k = m
  | AtFinalize => if decide (write k = Some true) then tip k + 1 = m else tip k = m
  | AtEpoch | AtHeight => write k = Some true ∧ tip k + 1 = m
  | AtRestore | Restored _ | AtRecover | Recovered => False
  end.

(** A call whose task was cancelled writes nothing any more. *)
Definition dead_ok (pc : process_pc) k : Prop :=
  match pc with
  | AtThrow | AtPrefetch | AtExecute | AtRevertBlock =>
      write k = None ∧ signal k = true ∧ task_reorged k = true
  | AtDelete | AtFinalize | AtRestore | Restored _ => write k = None ∧ signal k = true
  | AtRecover | Recovered => write k ≠ Some false
  | AtVerify | AtEpoch | AtHeight => False
  end.

Definition dead s : Prop :=
  ∀ i pc, (i, pc) ∈ processes s → ∃ k, tasks s !! i = Some k ∧ dead_ok pc k.

Definition no_writes s : Prop := ∀ i k, tasks s !! i = Some k → write k ≠ Some false.

(** The queue holds the heights from [n] on, without a gap. *)
Definition queue_ok (n : Z) s : Prop :=
  best s = n + Z.of_nat (length (indexingTasks s)) ∧
  ∀ j i, indexingTasks s !! j = Some i → ∃ k, tasks s !! i = Some k ∧
    tip k = n + Z.of_nat j ∧ write k = None ∧ task_reorged k = false ∧ controller k = true.

Definition apart s : Prop := ∀ i pc, (i, pc) ∈ processes s → i ∉ indexingTasks s.

Definition idle m s : Prop :=
  currentTask s = None ∧ dead s ∧ no_writes s ∧ queue_ok m s ∧ apart s.

Definition working m s : Prop :=
  ∃ i pc k, processes s = [(i, pc)] ∧ currentTask s = Some i ∧ tasks s !! i = Some k ∧
    live_ok m pc k ∧ queue_ok (tip k + 1) s ∧ apart s ∧
    (∀ j k', j ≠ i → tasks s !! j = Some k' → write k' ≠ Some false).

Definition stopped s : Prop := indexingTasks s = [] ∧ currentTask s = None.

Definition caller_ok s (r : revert) : Prop :=
  match r_caller r with
  | ByRegression => True
  | ByWatchdog i => ∀ pc, (i, pc) ∈ processes s → pc = AtRestore
  | ByError i => ∀ pc, (i, pc) ∈ processes s → pc = AtRecover
  end ∧
  (r_reorged r = true ∨ ∀ i pc, (i, pc) ∈ processes s → pc = AtRecover).

Definition revert_ok m s (r : revert) : Prop :=
  caller_ok s r ∧ 0 ≤ r_from r ∧
  match r_pc r with
  | RStopCurrent _ _ | RStopTask _ _ _ => r_from r ≤ m
  | RStopEnd _ | RThreads | RKill | RData => r_from r ≤ m ∧ stopped s
  | RObserver => m = r_from r ∧ pending s = r_from r ∧ stopped s
  | RSetReorg | RPlugins => m = r_from r ∧ pending s = r_from r ∧ best s = r_from r ∧ stopped s
  end.

Definition reverting m s : Prop :=
  chainReorged s = true ∧ dead s ∧ no_writes s ∧
  (reverts s = [] ∨ ∃ r, reverts s = [r] ∧ revert_ok m s r).

Definition unlocked m s : Prop :=
  chainReorged s = false ∧ reverts s = [] ∧ pending s ≤ m ∧ (idle m s ∨ working m s).

Definition segment (st : gset Z) m : Prop := 0 ≤ m ∧ ∀ h, h ∈ st ↔ 0 ≤ h < m.

Definition ordered m s : Prop :=
  lock_inv s ∧ segment (stored s) m ∧ (∀ i pc, (i, pc) ∈ processes s → is_Some (tasks s !! i)) ∧
  (unlocked m s ∨ reverting m s).

(** ** Calm steps *)

(** A regression may be noticed while the current block is fetched or executed,
    or after it was aborted; not while it is verified, written or completed. *)
Definition quiet s : Prop :=
  ∀ i pc, (i, pc) ∈ processes s →
    match pc with
    | AtThrow | AtPrefetch | AtExecute | AtRevertBlock => True
    | AtDelete | AtFinalize => ∃ k, tasks s !! i = Some k ∧ signal k = true ∧ write k = None
    | AtRestore | Restored _ | AtRecover | Recovered => True
    | AtVerify | AtEpoch | AtHeight => False
    end.

Definition calm s (e : event) : Prop :=
  match e with
  | BlockChange height _ => is_regression height s = true → quiet s
  | Resume i a =>
      2 ≤ pending s ∧
      match a with
      | ConflictsFailed _ => ∀ k, tasks s !! i = Some k → write k ≠ Some false
      | Reorg fromHeight _ => ∀ k, tasks s !! i = Some k → 0 ≤ fromHeight ≤ tip k
      | _ => True
      end
  | ResumeRevert n (Failed _ | Partial _) =>
      ∀ r, reverts s !! n = Some r → r_pc r ≠ RThreads ∧ r_pc r ≠ RKill ∧ r_pc r ≠ RData
  | _ => True
  end.
End Invariant.

(** ** Changing one task *)

Section Tasks.
Context `{BtcLib}.
Implicit Types (s : t) (i j : nat) (k : Task) (m : Z).

Lemma on_task_lookup f j s i k' :
  tasks (on_task j f s) !! i = Some k' ↔
  ∃ k, tasks s !! i = Some k ∧ k' = if decide (j = i) then f k else k.
Proof.
  unfold on_task, set_tasks. cbn [tasks]. rewrite list_lookup_alter.
  destruct (decide (j = i)) as [->|Hn]; [rewrite fmap_Some|]; naive_solver.
Qed.

Lemma on_task_some f j s i : is_Some (tasks (on_task j f s) !! i) ↔ is_Some (tasks s !! i).
Proof.
  unfold on_task, set_tasks. cbn [tasks]. rewrite list_lookup_alter.
  destruct (decide (j = i)) as [->|Hn]; [by rewrite fmap_is_Some|done].
Qed.

Lemma dead_on_task f j s :
  dead s → (∀ pc k, (j, pc) ∈ processes s → tasks s !! j = Some k → dead_ok pc k → dead_ok pc (f k)) →
  dead (on_task j f s).
Proof.
  intros Hd Hf i pc Hin. destruct (Hd i pc Hin) as (k & Hk & Hok).
  exists (if decide (j = i) then f k else k). split; [apply on_task_lookup; eauto|].
  case_decide; [subst; eauto|done].
Qed.

Lemma no_writes_on_task f j s :
  no_writes s → (∀ k, tasks s !! j = Some k → write (f k) ≠ Some false) → no_writes (on_task j f s).
Proof.
  intros Hn Hf i k' (k & Hk & ->)%on_task_lookup. case_decide; [subst; eauto|by apply (Hn i)].
Qed.

Lemma queue_on_task n f j s :
  queue_ok n s →
  (j ∈ indexingTasks s → ∀ k, tip (f k) = tip k ∧ write (f k) = write k ∧
     task_reorged (f k) = task_reorged k ∧ controller (f k) = controller k) →
  queue_ok n (on_task j f s).
Proof.
  intros [Hb Hq] Hf. split; [done|]. intros p i Hi. destruct (Hq p i Hi) as (k & Hk & Hrest).
  exists (if decide (j = i) then f k else k). split; [apply on_task_lookup; eauto|].
  case_decide; [|done]. subst. destruct (Hf (list_elem_of_lookup_2 _ _ _ Hi) k) as (-> & -> & -> & ->).
  done.
Qed.

(** What events from outside do to a task. *)
Definition benign (f : Task → Task) : Prop :=
  ∀ k, tip (f k) = tip k ∧ write (f k) = write k ∧ task_reorged (f k) = task_reorged k ∧
       controller (f k) = controller k ∧ (signal k = true → signal (f k) = true).

Lemma benign_prefetch r : benign (IndexingTask.processPrefetch r).
Proof. intros k. unfold IndexingTask.processPrefetch. repeat case_match; done. Qed.

Lemma benign_abort : benign IndexingTask.abort.
Proof. done. Qed.

Lemma dead_ok_benign f pc k : benign f → dead_ok pc k → dead_ok pc (f k).
Proof.
  intros Hf. destruct (Hf k) as (_ & Hw & Hr & _ & Hs).
  destruct pc; cbn; rewrite ?Hw, ?Hr; naive_solver.
Qed.

Lemma live_ok_benign f m pc k : benign f → live_ok m pc k → live_ok m pc (f k).
Proof.
  intros Hf. destruct (Hf k) as (Ht & Hw & Hr & Hc & _). unfold live_ok.
  by destruct pc; rewrite ?Hw, ?Hr, ?Hc, ?Ht.
Qed.

(** Destroying changes nothing the invariant looks at in a dead task. *)
Lemma dead_ok_destroy pc k : dead_ok pc k → dead_ok pc (IndexingTask.destroy k).
Proof. unfold IndexingTask.destroy. destruct (controller k); [|done]. by destruct pc. Qed.

Lemma write_destroy k : write (IndexingTask.destroy k) = write k.
Proof. unfold IndexingTask.destroy. by destruct (controller k). Qed.

Lemma write_cancel b k : write (IndexingTask.cancel b k) = write k.
Proof. unfold IndexingTask.cancel. by destruct (controller _). Qed.

Lemma dead_ok_cancel b pc k :
  (b = true ∨ pc = AtRecover) → dead_ok pc k → dead_ok pc (IndexingTask.cancel b k).
Proof.
  intros Hb. unfold IndexingTask.cancel.
  destruct pc; cbn; destruct (controller k); cbn; intuition congruence.
Qed.

(** Cancelling the live task of a quiet call kills it. *)
Lemma cancel_live m pc k :
  live_ok m pc k →
  match pc with
  | AtThrow | AtPrefetch | AtExecute | AtRevertBlock => True
  | AtDelete | AtFinalize => signal k = true ∧ write k = None
  | _ => False
  end →
  dead_ok pc (IndexingTask.cancel true k) ∧ write k ≠ Some false.
Proof.
  intros (Hc & Hr & Hpc) Hq. unfold IndexingTask.cancel. cbn. rewrite Hc.
  destruct pc; cbn in *; try done; intuition congruence.
Qed.
End Tasks.

(** ** Starting tasks *)

Section Start.
Context `{BtcLib} (prefetchQueueSize PROCESS_ONLY_X_BLOCK : Z).
Implicit Types (s : t) (i j : nat) (k : Task) (m : Z).

Definition ids s : Prop := ∀ i pc, (i, pc) ∈ processes s → is_Some (tasks s !! i).

(** [s'] has new tasks, and nothing else that matters here. *)
Record extends s s' : Prop := {
  ext_old i k : tasks s !! i = Some k → tasks s' !! i = Some k;
  ext_new i k : tasks s' !! i = Some k → tasks s !! i = Some k ∨ write k = None;
  ext_processes : processes s' = processes s;
  ext_lock : taskInProgress s' = taskInProgress s;
  ext_current : currentTask s' = currentTask s;
  ext_stored : stored s' = stored s;
  ext_reverts : reverts s' = reverts s;
  ext_reorged : chainReorged s' = chainReorged s;
  ext_pending : pending s' = pending s
}.

Lemma extends_refl s : extends s s.
Proof. split; auto. Qed.

Lemma extends_trans s1 s2 s3 : extends s1 s2 → extends s2 s3 → extends s1 s3.
Proof.
  intros [] []. split; try congruence; [eauto|].
  intros i k Hk. destruct (ext_new1 i k Hk) as [?|?]; auto.
Qed.

Lemma nextTask_ok n s :
  queue_ok n s → apart s → ids s →
  queue_ok n (nextTask s) ∧ apart (nextTask s) ∧ extends s (nextTask s).
Proof.
  intros [Hb Hq] Ha Hi. unfold nextTask, ChainObserver.nextBestTip.
  destruct (decide (targetBlockHeight _ < _)) as [Hlt|Hlt].
  { split_and!; [by split|done|]. split; auto. }
  cbn -[IndexingTask.create]. rewrite decide_False by done. split_and!.
  - split.
    + unfold best in *. cbn. rewrite length_app. cbn. lia.
    + cbn -[IndexingTask.create]. intros j i Hj.
      apply lookup_app_Some in Hj as [Hj|[Hlen Hj]].
      * destruct (Hq j i Hj) as (k & Hk & Hrest). exists k. split; [|done].
        by apply lookup_app_l_Some.
      * apply list_lookup_singleton_Some in Hj as [Hj <-].
        exists (IndexingTask.create (best s)). rewrite lookup_app_r, Nat.sub_diag by lia.
        split; [done|]. cbn. unfold best in *. split_and!; try done. lia.
  - intros i pc Hin. cbn. rewrite elem_of_app, list_elem_of_singleton. intros [Hin'| ->].
    + by apply (Ha i pc).
    + destruct (Hi _ _ Hin) as [k Hk]. apply lookup_lt_Some in Hk. cbn in Hk. lia.
  - split; cbn -[IndexingTask.create]; auto.
    + intros i k Hk. by apply lookup_app_l_Some.
    + intros i k Hk. apply lookup_app_Some in Hk as [?|[_ Hk]]; [by left|right].
      by apply list_lookup_singleton_Some in Hk as [_ <-].
Qed.

Lemma ids_extends s s' : extends s s' → ids s → ids s'.
Proof.
  intros He Hi i pc. rewrite (ext_processes _ _ He). intros Hin.
  destruct (Hi _ _ Hin) as [k Hk]. exists k. by apply (ext_old _ _ He).
Qed.

Lemma start_loop_ok n c s :
  queue_ok n s → apart s → ids s →
  queue_ok n (start_loop c s) ∧ apart (start_loop c s) ∧ extends s (start_loop c s).
Proof.
  revert s. induction c as [|c IH]; intros s Hq Ha Hi; cbn.
  - split_and!; [done..|apply extends_refl].
  - case_decide; [split_and!; [done..|apply extends_refl]|].
    destruct (nextTask_ok n s Hq Ha Hi) as (Hq' & Ha' & He).
    destruct (IH _ Hq' Ha' (ids_extends _ _ He Hi)) as (? & ? & He').
    split_and!; [done..|]. by eapply extends_trans.
Qed.

Lemma dead_extends s s' : extends s s' → dead s → dead s'.
Proof.
  intros He Hd i pc. rewrite (ext_processes _ _ He). intros Hin.
  destruct (Hd _ _ Hin) as (k & Hk & Hok). exists k. split; [|done]. by apply (ext_old _ _ He).
Qed.

Lemma no_writes_extends s s' : extends s s' → no_writes s → no_writes s'.
Proof.
  intros He Hn i k Hk. destruct (ext_new _ _ He i k Hk) as [Hk'| ->]; [by apply (Hn i)|done].
Qed.

Lemma unlocked_ordered m s :
  lock_inv s → segment (stored s) m → ids s → unlocked m s → ordered m s.
Proof. intros. split_and!; auto. Qed.

Lemma processNextTask_ordered m s :
  lock_inv s → segment (stored s) m → ids s → chainReorged s = false → reverts s = [] →
  pending s ≤ m → idle m s → indexingTasks s ≠ [] →
  ordered m (processNextTask s).
Proof.
  intros Hl Hs Hi Hu1 Hu2 Hu3 Hidle Hne. unfold processNextTask.
  destruct Hl as [[Hp Hlk]|(p & Hp & Hlk)]; rewrite Hlk.
  2: { apply unlocked_ordered; [right; eauto|done..|]. split_and!; auto. }
  destruct Hidle as (_ & _ & Hn & [Hb Hq] & _).
  destruct (indexingTasks s) as [|i q] eqn:Eq; [done|].
  destruct (Hq 0%nat i eq_refl) as (k & Hk & Ht & Hw & Hr & Hc).
  set (pc := if default false _ then AtPrefetch else AtThrow).
  assert (pc = AtPrefetch ∨ pc = AtThrow) as Hpc by (unfold pc; case_match; auto). clearbody pc.
  assert (∀ j i', q !! j = Some i' → i' ≠ i) as Hdist.
  { intros j i' Hj ->. destruct (Hq (S j) i Hj) as (k' & Hk' & Ht' & _). simplify_eq. lia. }
  apply unlocked_ordered; [right; cbn; rewrite Hp; eauto|done|..].
  { intros i' pc'. cbn. rewrite Hp. intros Hin%list_elem_of_singleton. simplify_eq. eauto. }
  split_and!; [done..|]. right. exists i, pc, k. cbn. rewrite Hp. split_and!; [done..| | | |].
  - destruct Hpc as [-> | ->]; split_and!; cbn; try done; lia.
  - split; [unfold best in *; cbn in *; lia|]. intros j i' Hj. cbn in Hj.
    destruct (Hq (S j) i' Hj) as (k' & Hk' & Ht' & Hrest). exists k'. split; [done|].
    split; [lia|done].
  - intros i' pc' Hin. cbn in Hin. apply list_elem_of_singleton in Hin.
    simplify_eq. cbn. intros [j Hj]%list_elem_of_lookup. by apply (Hdist j i).
  - intros j k' Hj Hk'. by apply (Hn j).
Qed.

(** Whoever finds the chain unlocked and no live task may start the next one. *)
Lemma startTasks_ordered m s :
  lock_inv s → segment (stored s) m → ids s → chainReorged s = false → reverts s = [] →
  pending s ≤ m → idle m s →
  ordered m (startTasks prefetchQueueSize s).
Proof.
  intros Hl Hs Hi Hc Hr Hp (Hcur & Hd & Hn & Hq & Ha).
  unfold startTasks. rewrite Hc. set (c := Z.to_nat _). clearbody c.
  destruct (start_loop_ok m c s Hq Ha Hi) as (Hq1 & Ha1 & He).
  assert (idle m (start_loop c s)) as Hidle.
  { split_and!; try done; [by rewrite (ext_current _ _ He)|by eapply dead_extends|
      by eapply no_writes_extends]. }
  destruct He as [Hold Hnew H1 H2 H3 H4 H5 H6 H7].
  assert (lock_inv (start_loop c s)) as Hl1 by by eapply same_lock_inv, Hl.
  assert (ids (start_loop c s)) as Hi1.
  { intros i pc. rewrite H1. intros [k Hk]%Hi. eauto. }
  assert (segment (stored (start_loop c s)) m) as Hs1 by by rewrite H4.
  case_decide as Hne.
  - apply unlocked_ordered; [done..|]. split_and!; [congruence..|lia|by left].
  - apply processNextTask_ordered; try done; [congruence..|lia].
Qed.

(** With a live task the queue is only filled. *)
Lemma startTasks_working m s :
  lock_inv s → segment (stored s) m → ids s → chainReorged s = false → reverts s = [] →
  pending s ≤ m → working m s →
  ordered m (startTasks prefetchQueueSize s).
Proof.
  intros Hl Hs Hi Hc Hr Hp (i & pc & k & Hps & Hcur & Hk & Hok & Hq & Ha & Ho).
  unfold startTasks. rewrite Hc. set (c := Z.to_nat _). clearbody c.
  destruct (start_loop_ok (tip k + 1) c s Hq Ha Hi) as (Hq1 & Ha1 & [Hold Hnew H1 H2 H3 H4 H5 H6 H7]).
  assert (ordered m (start_loop c s)) as Hord.
  { apply unlocked_ordered; [by eapply same_lock_inv, Hl|by rewrite H4| |].
    - intros j pc'. rewrite H1. intros [k' Hk']%Hi. eauto.
    - unfold unlocked. conjs; [congruence..|lia|right]. exists i, pc, k. conjs; try done; [congruence..|by apply Hold|].
      intros j k' Hj Hk'. destruct (Hnew j k' Hk') as [?| ->]; [by apply (Ho j)|done]. }
  case_decide; [done|]. unfold processNextTask.
  destruct Hl as [[Hps' _]|(p & _ & Hlk)]; [congruence|]. by rewrite H2, Hlk.
Qed.
End Start.

(** ** Starting a revert *)

Section Revert.
Context `{BtcLib}.
Implicit Types (s : t) (i j : nat) (k : Task) (m : Z).

(** [stopAllTasks] changes tasks, and the queue at its end. *)
Record stops (second : bool) s (sp : t * revert_pc) : Prop := {
  stops_processes : processes sp.1 = processes s;
  stops_lock : taskInProgress sp.1 = taskInProgress s;
  stops_stored : stored sp.1 = stored s;
  stops_reverts : reverts sp.1 = reverts s;
  stops_reorged : chainReorged sp.1 = chainReorged s;
  stops_observer : observer sp.1 = observer s;
  stops_ids : ids s → ids sp.1;
  stops_pc : match sp.2 with
             | RStopCurrent b _ | RStopTask b _ _ => b = second
             | RStopEnd b => b = second ∧ stopped sp.1
             | _ => False
             end
}.

Lemma ids_on_task f j s : ids s → ids (on_task j f s).
Proof. intros Hi i pc Hin. apply on_task_some. by apply (Hi i pc). Qed.

Lemma stop_queue_stops second l reorged s : stops second s (stop_queue second l reorged s).
Proof. destruct l as [|j l]; split; try done. apply ids_on_task. Qed.

Lemma stopAllTasks_stops second reorged s : stops second s (stopAllTasks second reorged s).
Proof.
  unfold stopAllTasks. destruct (currentTask s); [|apply stop_queue_stops].
  split; try done. apply ids_on_task.
Qed.

Lemma reverting_ordered m s :
  lock_inv s → segment (stored s) m → ids s → reverting m s → ordered m s.
Proof. intros. split_and!; auto. Qed.

Lemma caller_ok_processes s s' r : processes s' = processes s → caller_ok s r → caller_ok s' r.
Proof. unfold caller_ok. by intros ->. Qed.

(** A pass of [stopAllTasks] as part of a revert. *)
Lemma stops_revert_ok m second s sp r :
  stops second s sp → caller_ok s r → 0 ≤ r_from r ≤ m →
  revert_ok m sp.1 (set_rpc sp.2 r).
Proof.
  intros Hst Hc Hf. split_and!; [by apply (caller_ok_processes s); [apply Hst|]|cbn; lia|].
  pose proof (stops_pc _ _ _ Hst) as Hpc.
  destruct sp as [s' []]; cbn in *; try done; try lia. split; [lia|apply Hpc].
Qed.

Lemma revertChain_ordered m from to newBest reorged caller s :
  lock_inv s → segment (stored s) m → ids s → reverts s = [] → 0 ≤ from ≤ m →
  dead (stopAllTasks false reorged (set_reorg true s)).1 →
  no_writes (stopAllTasks false reorged (set_reorg true s)).1 →
  caller_ok s (mkRevert from to newBest reorged caller RThreads) →
  ordered m (revertChain from to newBest reorged caller s).
Proof.
  intros Hl Hs Hi Hr Hf Hd Hn Hc. unfold revertChain.
  pose proof (stopAllTasks_stops false reorged (set_reorg true s)) as Hst.
  pose proof (stops_revert_ok m false _ _ (mkRevert from to newBest reorged caller RThreads)
    Hst (caller_ok_processes s (set_reorg true s) _ eq_refl Hc) Hf) as Hok.
  destruct (stopAllTasks false reorged (set_reorg true s)) as [s' pc]. cbn in *.
  destruct Hst as [H1 H2 H3 H4 H5 H6 H7 H8]. cbn in *.
  apply reverting_ordered; cbn.
  - eapply same_lock_inv, Hl. by split.
  - by rewrite H3.
  - by apply H7.
  - split_and!; [done..|]. right. cbn. rewrite H4, Hr. eexists. split; [done|].
    exact Hok.
Qed.

(** Stopping when no task is live kills nothing that runs. *)
Lemma stop_queue_dead l second reorged s :
  dead s → no_writes s → (∀ i pc, (i, pc) ∈ processes s → i ∉ l) →
  dead (stop_queue second l reorged s).1 ∧ no_writes (stop_queue second l reorged s).1.
Proof.
  intros Hd Hn Ha. destruct l as [|j l]; [done|]. cbn. split.
  - apply dead_on_task; [done|]. intros pc k Hin. destruct (Ha _ _ Hin). left.
  - apply no_writes_on_task; [done|]. intros k Hk. rewrite write_cancel. by apply (Hn j).
Qed.

Lemma regression_ordered m from to newBest s :
  lock_inv s → segment (stored s) m → ids s → unlocked m s → quiet s → 0 ≤ from ≤ m →
  ordered m (revertChain from to newBest true ByRegression s).
Proof.
  intros Hl Hs Hi (Hc & Hr & Hp & Hcase) Hq Hf.
  assert (dead (stopAllTasks false true (set_reorg true s)).1 ∧
    no_writes (stopAllTasks false true (set_reorg true s)).1) as [Hd Hn].
  { destruct Hcase as [(Hcur & Hd & Hn & _ & Ha)|(i & pc & k & Hp1 & Hcur & Hk & Hok & _ & _ & Hw)].
    - unfold stopAllTasks. cbn. rewrite Hcur. by apply stop_queue_dead.
    - unfold stopAllTasks. cbn. rewrite Hcur. cbn.
      destruct (cancel_live m pc k Hok) as [Hdk Hwk].
      { specialize (Hq i pc). rewrite Hp1, list_elem_of_singleton in Hq. specialize (Hq eq_refl).
        destruct Hok as (_ & _ & Hpc). destruct pc; try done; naive_solver. }
      split.
      + intros i' pc'. cbn. rewrite Hp1, list_elem_of_singleton. intros [= -> ->].
        eexists. split; [apply on_task_lookup; eauto|]. by rewrite decide_True.
      + intros j k' (k0 & Hk0 & ->)%on_task_lookup. cbn in Hk0. case_decide as Hij.
        * subst. rewrite write_cancel. congruence.
        * by apply (Hw j). }
  apply revertChain_ordered; try done. split; [done|by left].
Qed.
End Revert.

(** ** Calls that end *)

Section Ends.
Context `{BtcLib} (prefetchQueueSize PROCESS_ONLY_X_BLOCK : Z).
Local Abbreviation process_returns := (process_returns prefetchQueueSize PROCESS_ONLY_X_BLOCK).
Local Abbreviation process_throws := (process_throws prefetchQueueSize PROCESS_ONLY_X_BLOCK).
Local Abbreviation task_throws := (task_throws prefetchQueueSize PROCESS_ONLY_X_BLOCK).
Implicit Types (s : t) (i j : nat) (k : Task) (m : Z).

(** The modes in which no task is live. *)
Definition deadmode m s : Prop :=
  (chainReorged s = false ∧ reverts s = [] ∧ pending s ≤ m ∧ idle m s) ∨ reverting m s.

Lemma deadmode_ordered m s :
  lock_inv s → segment (stored s) m → ids s → deadmode m s → ordered m s.
Proof.
  intros Hl Hs Hi [(? & ? & ? & ?)|?]; [|by apply reverting_ordered].
  apply unlocked_ordered; try done. unfold unlocked. conjs; auto.
Qed.

Lemma deadmode_dead m s : deadmode m s → dead s.
Proof. intros [(_ & _ & _ & _ & Hd & _)|(_ & Hd & _)]; done. Qed.

Lemma ids_set_pc i pc s : ids s → ids (set_pc i pc s).
Proof.
  intros Hi j pc' Hin. cbn in Hin. apply list_elem_of_fmap in Hin as ([j' pc''] & Heq & Hin).
  cbn in Heq. apply (Hi j pc''). case_decide; by simplify_eq.
Qed.

(** The task of the only call may change while it stays dead. *)
Lemma deadmode_task m i pc f s :
  processes s = [(i, pc)] → deadmode m s →
  (∀ k, tasks s !! i = Some k → dead_ok pc k → dead_ok pc (f k)) →
  (∀ k, write (f k) = write k ∨ write (f k) = None) →
  deadmode m (on_task i f s).
Proof.
  intros Hp Hm Hf Hw.
  assert (dead (on_task i f s)) as Hd.
  { apply dead_on_task; [by eapply deadmode_dead|]. intros pc' k Hin. rewrite Hp in Hin.
    apply list_elem_of_singleton in Hin. simplify_eq. auto. }
  assert (no_writes s → no_writes (on_task i f s)) as Hn.
  { intros Hn. apply no_writes_on_task; [done|]. intros k Hk. destruct (Hw k) as [-> | ->]; [by apply (Hn i)|done]. }
  destruct Hm as [(H1 & H2 & H3 & H4 & _ & Hn' & Hq & Ha)|(H1 & _ & Hn' & Hr)].
  - left. unfold idle. conjs; try done; [by apply Hn|]. apply queue_on_task; [done|].
    intros Hin. destruct (Ha i pc); [rewrite Hp; left|done].
  - right. unfold reverting. conjs; auto.
Qed.

(** A dead call may go on to another await. *)
Lemma deadmode_pc m i pc pc' s :
  processes s = [(i, pc)] → deadmode m s → pc ≠ AtRestore → pc ≠ AtRecover →
  (∃ k, tasks s !! i = Some k ∧ dead_ok pc' k) →
  deadmode m (set_pc i pc' s).
Proof.
  intros Hp Hm H1 H2 (k & Hk & Hok).
  assert (processes (set_pc i pc' s) = [(i, pc')]) as Hp'.
  { cbn. rewrite Hp. cbn. by rewrite decide_True. }
  assert (dead (set_pc i pc' s)) as Hd.
  { intros j pc'' Hin. rewrite Hp' in Hin. apply list_elem_of_singleton in Hin. simplify_eq. eauto. }
  destruct Hm as [(? & ? & ? & ? & _ & ? & ? & Ha)|(? & _ & ? & Hr)].
  - left. unfold idle. conjs; try done. intros j pc'' Hin. rewrite Hp' in Hin.
    apply list_elem_of_singleton in Hin. simplify_eq. apply (Ha i pc). rewrite Hp. left.
  - right. unfold reverting. conjs; try done. destruct Hr as [Hr|(r & Hr & [Hc1 Hc2] & Hrest)]; [by left|right].
    exists r. split; [done|]. split; [|done]. split.
    + destruct (r_caller r) as [|j|j]; [done| |]; intros pc'' Hin; rewrite Hp' in Hin;
        apply list_elem_of_singleton in Hin; simplify_eq;
        [destruct H1|destruct H2]; apply Hc1; rewrite Hp; left.
    + destruct Hc2 as [?|Hc2]; [by left|]. destruct H2. apply (Hc2 i). rewrite Hp. left.
Qed.

(** A call returns when no task is live. *)
Lemma returns_unlocked m i pc s :
  processes s = [(i, pc)] → segment (stored s) m → chainReorged s = false → reverts s = [] →
  pending s ≤ m → no_writes s → queue_ok m s →
  ordered m (process_returns i s).
Proof.
  intros Hp Hs Hc Hr Hpm Hn Hq. unfold BlockIndexer.BlockIndexer.process_returns, releaseLockAndCallNextTask.
  pose proof (drop_single s i pc Hp) as Hdrop.
  set (s1 := set_lock false None (drop_process i s)).
  assert (processes s1 = []) as Hp1 by done.
  assert (idle m s1) as Hidle.
  { unfold idle. conjs; try done; intros j pc'; rewrite Hp1; by intros ?%not_elem_of_nil. }
  assert (lock_inv s1) as Hl1 by by left.
  assert (ids s1) as Hi1 by (intros j pc'; rewrite Hp1; by intros ?%not_elem_of_nil).
  destruct (limit_reached _ s1).
  - apply unlocked_ordered; try done. unfold unlocked. conjs; auto.
  - cbn [andb]. replace (chainReorged s1) with false. cbn.
    by apply startTasks_ordered.
Qed.

Lemma returns_reverting m i pc s :
  processes s = [(i, pc)] → segment (stored s) m → reverting m s →
  ordered m (process_returns i s).
Proof.
  intros Hp Hs (Hc & _ & Hn & Hr).
  unfold BlockIndexer.BlockIndexer.process_returns, releaseLockAndCallNextTask.
  pose proof (drop_single s i pc Hp) as Hdrop.
  set (s1 := set_lock false None (drop_process i s)).
  assert (processes s1 = []) as Hp1 by done.
  replace (chainReorged s1) with true by done. cbn [andb negb].
  assert (ordered m s1) as Ho; [|by destruct (limit_reached _ s1)].
  apply reverting_ordered; [by left|done| |].
  { intros j pc'; rewrite Hp1; by intros ?%not_elem_of_nil. }
  unfold reverting. conjs; [done| |done|].
  { intros j pc'; rewrite Hp1; by intros ?%not_elem_of_nil. }
  destruct Hr as [Hr|(r & Hr & _ & Hf & Hrest)]; [by left|right].
  exists r. split; [done|]. unfold revert_ok. conjs; [|done|].
  - unfold caller_ok. rewrite Hp1.
    split; [destruct (r_caller r); [done|..]; by intros ? ?%not_elem_of_nil|right].
    by intros ? ? ?%not_elem_of_nil.
  - destruct (r_pc r); cbn in Hrest |- *; unfold stopped in *; cbn; tauto.
Qed.

Lemma returns_dead m i pc s :
  processes s = [(i, pc)] → segment (stored s) m → deadmode m s → ordered m (process_returns i s).
Proof.
  intros Hp Hs [(? & ? & ? & ? & _ & ? & ? & _)|?]; [|by eapply returns_reverting].
  by eapply returns_unlocked.
Qed.

Lemma throws_dead m i pc s :
  processes s = [(i, pc)] → segment (stored s) m → deadmode m s → ordered m (process_throws i s).
Proof.
  intros Hp Hs Hm. unfold BlockIndexer.BlockIndexer.process_throws.
  assert ((chainReorged s ||
    match currentTask s with
    | None => true
    | Some c => default false (task_reorged <$> tasks s !! c)
    end) = true) as ->.
  { destruct Hm as [(_ & _ & _ & -> & _)|(-> & _)]; [apply orb_true_r|done]. }
  by eapply returns_dead.
Qed.

Lemma task_throws_dead m i pc s :
  processes s = [(i, pc)] → segment (stored s) m → deadmode m s → ordered m (task_throws i s).
Proof.
  intros Hp Hs Hm. unfold BlockIndexer.BlockIndexer.task_throws. apply (throws_dead m i pc); [done..|].
  apply (deadmode_task m i pc); [done..| |].
  - intros k _. apply dead_ok_destroy.
  - intros k. left. apply write_destroy.
Qed.

(** An error of the live task starts a revert from the last processed block. *)
Lemma throws_working m i pc k s :
  lock_inv s → segment (stored s) m → ids s → chainReorged s = false → reverts s = [] →
  2 ≤ pending s ≤ m → processes s = [(i, pc)] → currentTask s = Some i →
  tasks s !! i = Some k → task_reorged k = false → no_writes s →
  ordered m (process_throws i s).
Proof.
  intros Hl Hs Hi Hc Hr Hp Hps Hcur Hk Hre Hn. unfold BlockIndexer.BlockIndexer.process_throws.
  rewrite Hc, Hcur, Hk. cbn. rewrite Hre.
  fold (pending s). rewrite decide_True by lia.
  assert (processes (set_pc i AtRecover s) = [(i, AtRecover)]) as Hp'.
  { cbn. rewrite Hps. cbn. by rewrite decide_True. }
  apply revertChain_ordered; try done.
  - by apply set_pc_lock.
  - by apply ids_set_pc.
  - lia.
  - unfold stopAllTasks. cbn. rewrite Hcur. apply dead_on_task.
    + intros j pc'. change (processes _) with (processes (set_pc i AtRecover s)). rewrite Hp'.
      intros Hin%list_elem_of_singleton. simplify_eq. exists k. split; [done|]. by apply (Hn i).
    + intros pc' k' Hin. change (processes _) with (processes (set_pc i AtRecover s)) in Hin.
      rewrite Hp' in Hin. apply list_elem_of_singleton in Hin. simplify_eq. cbn. by rewrite write_cancel.
  - unfold stopAllTasks. cbn. rewrite Hcur. apply no_writes_on_task; [done|].
    intros k' Hk'. rewrite write_cancel. by apply (Hn i).
  - unfold caller_ok. cbn [r_caller]. rewrite Hp'. split; [|right];
      intros *; rewrite list_elem_of_singleton; intros Heq; by simplify_eq.
Qed.
End Ends.

(** ** One step *)

Section Step.
Context `{BtcLib} (Config : NodeConfig) (table : IOPNetConsensusObj).
Context (prefetchQueueSize PROCESS_ONLY_X_BLOCK : Z).
Local Abbreviation step := (step Config table prefetchQueueSize PROCESS_ONLY_X_BLOCK).
Local Abbreviation resume_process := (resume_process Config table prefetchQueueSize PROCESS_ONLY_X_BLOCK).
Local Abbreviation resume_revert := (resume_revert Config table prefetchQueueSize).
Local Abbreviation task_throws := (task_throws prefetchQueueSize PROCESS_ONLY_X_BLOCK).
Implicit Types (s : t) (i j : nat) (k : Task) (m : Z).

(** The consensus of the observer is not looked at by the invariant. *)
Definition set_selector (c : OPNetConsensus.state) s : t :=
  let o := observer s in
  set_observer (ChainObserver.mk (ChainObserver.status o) (ChainObserver.inProgressBlock o) c) s.

Lemma selector_deadmode m c s : deadmode m s → deadmode m (set_selector c s).
Proof. done. Qed.

(** The task of the call, and the call, in one move. *)
Lemma dead_goes m i pc pc' k f s :
  lock_inv s → segment (stored s) m → ids s → deadmode m s →
  processes s = [(i, pc)] → tasks s !! i = Some k → pc ≠ AtRestore → pc ≠ AtRecover →
  (dead_ok pc k → dead_ok pc (f k) ∧ dead_ok pc' (f k)) → (∀ k, write (f k) = write k) →
  ordered m (set_pc i pc' (on_task i f s)).
Proof.
  intros Hl Hs Hi Hm Hp Hk H1 H2 Hf Hw.
  assert (dead_ok pc k) as Hok.
  { destruct (deadmode_dead _ _ Hm i pc) as (k' & Hk' & ?); [rewrite Hp; left|congruence]. }
  destruct (Hf Hok) as [Hf1 Hf2].
  apply deadmode_ordered; [by apply set_pc_lock|done|by apply ids_set_pc, ids_on_task|].
  apply (deadmode_pc m i pc); try done.
  - apply (deadmode_task m i pc); try done; [intros k' Hk' _; by simplify_eq|intros k'; by left].
  - exists (f k). split; [|done]. apply on_task_lookup. exists k. by rewrite decide_True.
Qed.

Lemma dead_goes_id m i pc pc' k s :
  lock_inv s → segment (stored s) m → ids s → deadmode m s →
  processes s = [(i, pc)] → tasks s !! i = Some k → pc ≠ AtRestore → pc ≠ AtRecover →
  (dead_ok pc k → dead_ok pc' k) →
  ordered m (set_pc i pc' s).
Proof.
  intros Hl Hs Hi Hm Hp Hk H1 H2 Hf.
  assert (dead_ok pc k) as Hok.
  { destruct (deadmode_dead _ _ Hm i pc) as (k' & Hk' & ?); [rewrite Hp; left|congruence]. }
  apply deadmode_ordered; [by apply set_pc_lock|done|by apply ids_set_pc|].
  apply (deadmode_pc m i pc); eauto.
Qed.

Lemma resume_dead m i k pc a s s' :
  lock_inv s → segment (stored s) m → ids s → deadmode m s →
  processes s = [(i, pc)] → tasks s !! i = Some k →
  resume_process i k pc a s = Some s' → ordered m s'.
Proof.
  intros Hl Hs Hi Hm Hp Hk.
  assert (dead_ok pc k) as Hok.
  { destruct (deadmode_dead _ _ Hm i pc) as (k' & Hk' & ?); [rewrite Hp; left|congruence]. }
  assert (∀ s1, processes s1 = [(i, pc)] → segment (stored s1) m → deadmode m s1 →
    ordered m (task_throws i s1)) as Ht by (intros; by apply (task_throws_dead _ _ m i pc)).
  destruct pc as [| | | | | |[]| | | | | |], a as [| | | |[]| | |];
    cbn -[ConsensusTracker.setConsensusBlockHeight IndexingTask.set_reorged]; try done;
    cbn in Hok; try (destruct (promise k) as [err|]; [|done]).
  all: try (intros [= <-]; by apply Ht).
  - intros [= <-]. by apply (throws_dead _ _ m i AtThrow).
  - destruct err as [err|]; [intros [= <-]; by apply Ht|].
    destruct (has_block k); [|intros [= <-]; by apply Ht].
    destruct (ConsensusTracker.setConsensusBlockHeight _ _ _ _) as [c r].
    set (f := fun k0 => mkTask (tip k0) _ _ _ _ _ _ _).
    assert (deadmode m (on_task i f (set_selector c s))) as Hm'.
    { apply (deadmode_task m i AtPrefetch); try done. intros k'. by left. }
    assert (ordered m (set_pc i AtExecute (on_task i f (set_selector c s)))) as Hgo.
    { apply (dead_goes m i AtPrefetch AtExecute k); try done. }
    assert (ordered m (on_task i f (set_selector c s))) as Hstay.
    { apply deadmode_ordered; try done. by apply ids_on_task. }
    destruct r as [[]|[]]; intros [= <-]; try done; by apply (Ht (on_task i f (set_selector c s))).
  - intros [= <-]. unfold verify_reorg. destruct Hok as (Hw & Hsg & ->).
    by apply (dead_goes_id m i AtExecute AtDelete k).
  - intros [= <-]. by apply (dead_goes_id m i AtExecute AtRevertBlock k).
  - intros [= <-]. apply (dead_goes m i (Restored true) AtDelete k); try done.
  - intros [= <-]. unfold finalize. destruct Hok as [Hw ->].
    by apply (dead_goes_id m i AtDelete AtFinalize k).
  - destruct Hok as [-> _]. by rewrite decide_False.
  - intros [= <-]. apply Ht; try done. apply (deadmode_task m i AtFinalize); try done.
    + intros k' Hk' (? & ?). simplify_eq. rewrite decide_False by congruence. done.
    + intros k'. case_decide; [by right|by left].
  - intros [= <-]. by apply (returns_dead _ _ m i Recovered).
Qed.

(** *** The live call *)

Record at_work m i pc k s : Prop := {
  aw_lock : lock_inv s;
  aw_segment : segment (stored s) m;
  aw_ids : ids s;
  aw_reorged : chainReorged s = false;
  aw_reverts : reverts s = [];
  aw_pending : pending s ≤ m;
  aw_processes : processes s = [(i, pc)];
  aw_current : currentTask s = Some i;
  aw_task : tasks s !! i = Some k;
  aw_live : live_ok m pc k;
  aw_queue : queue_ok (tip k + 1) s;
  aw_apart : apart s;
  aw_others j k' : j ≠ i → tasks s !! j = Some k' → write k' ≠ Some false
}.

Lemma aw_notin m i pc k s : at_work m i pc k s → i ∉ indexingTasks s.
Proof. intros Hw. apply (aw_apart _ _ _ _ _ Hw i pc). rewrite (aw_processes _ _ _ _ _ Hw). left. Qed.

(** The live call goes on, with its task changed by [f]. *)
Lemma live_goes m i pc pc' f k s :
  at_work m i pc k s → live_ok m pc' (f k) → tip (f k) = tip k →
  ordered m (set_pc i pc' (on_task i f s)).
Proof.
  intros Hw Hlive Htip. pose proof (aw_notin _ _ _ _ _ Hw) as Hin. destruct Hw.
  assert (processes (set_pc i pc' (on_task i f s)) = [(i, pc')]) as Hp'.
  { cbn. rewrite aw_processes0. cbn. by rewrite decide_True. }
  assert (tasks (on_task i f s) !! i = Some (f k)) as Hk'.
  { apply on_task_lookup. exists k. by rewrite decide_True. }
  apply unlocked_ordered; [by apply set_pc_lock|done|by apply ids_set_pc, ids_on_task|].
  unfold unlocked. conjs; try done. right. exists i, pc', (f k). conjs; try done.
  - rewrite Htip. by apply (queue_on_task _ f i s).
  - intros j pc''. rewrite Hp'. intros Hj%list_elem_of_singleton. by simplify_eq.
  - intros j k' Hj (k0 & Hk0 & ->)%on_task_lookup. rewrite decide_False by done. by apply (aw_others0 j).
Qed.

Lemma live_goes_id m i pc pc' k s :
  at_work m i pc k s → live_ok m pc' k → ordered m (set_pc i pc' s).
Proof.
  intros Hw Hlive. destruct Hw.
  assert (processes (set_pc i pc' s) = [(i, pc')]) as Hp'.
  { cbn. rewrite aw_processes0. cbn. by rewrite decide_True. }
  apply unlocked_ordered; [by apply set_pc_lock|done|by apply ids_set_pc|].
  unfold unlocked. conjs; try done. right. exists i, pc', k. conjs; try done.
  intros j pc''. rewrite Hp'. intros Hj%list_elem_of_singleton. simplify_eq.
  apply (aw_apart0 i pc). rewrite aw_processes0. left.
Qed.

Lemma live_throws m i pc k f s :
  at_work m i pc k s → 2 ≤ pending s → task_reorged (f k) = false → write (f k) ≠ Some false →
  ordered m (process_throws prefetchQueueSize PROCESS_ONLY_X_BLOCK i (on_task i f s)).
Proof.
  intros Hw Hp Hr Hwr. destruct Hw.
  apply (throws_working _ _ m i pc (f k)); try done.
  - by apply ids_on_task.
  - apply on_task_lookup. exists k. by rewrite decide_True.
  - intros j k' (k0 & Hk0 & ->)%on_task_lookup. case_decide; [congruence|by apply (aw_others0 j)].
Qed.

Lemma live_task_throws m i pc k s :
  at_work m i pc k s → 2 ≤ pending s → write k ≠ Some false → ordered m (task_throws i s).
Proof.
  intros Hw Hp Hwr. apply (live_throws m i pc k); try done.
  - destruct (aw_live _ _ _ _ _ Hw) as (_ & Hr & _). unfold IndexingTask.destroy. by destruct (controller k).
  - by rewrite write_destroy.
Qed.

Lemma set_pc_same i pc s : processes s = [(i, pc)] → ∀ f, set_pc i pc (on_task i f s) = on_task i f s.
Proof.
  intros Hp f. unfold set_pc, set_processes, on_task, set_tasks. cbn. rewrite Hp. cbn.
  by rewrite decide_True.
Qed.

Lemma on_task_id i s : on_task i (fun k => k) s = s.
Proof. unfold on_task, set_tasks. rewrite list_alter_id by done. by destruct s. Qed.

Lemma on_task_twice f g i s : on_task i f (on_task i g s) = on_task i (fun k => f (g k)) s.
Proof.
  unfold on_task, set_tasks. cbn. f_equal. apply list_eq. intros j. rewrite !list_lookup_alter.
  repeat case_decide; try done. subst. by destruct (tasks s !! j).
Qed.

(** The watchdog reverts: the live task is cancelled and never written. *)
Lemma live_restores m i k from newBest s :
  at_work m i AtVerify k s → 0 ≤ from ≤ m →
  ordered m (revertChain from (tip k) newBest true (ByWatchdog i) (set_pc i AtRestore s)).
Proof.
  intros Hw Hf. destruct Hw. destruct aw_live0 as (Hc & Hr & Hwr & Ht).
  assert (processes (set_pc i AtRestore s) = [(i, AtRestore)]) as Hp'.
  { cbn. rewrite aw_processes0. cbn. by rewrite decide_True. }
  apply revertChain_ordered; try done.
  - by apply set_pc_lock.
  - by apply ids_set_pc.
  - unfold stopAllTasks. cbn [currentTask set_reorg set_pc set_processes]. rewrite aw_current0.
    intros j pc' Hin. change (processes _) with (processes (set_pc i AtRestore s)) in Hin.
    rewrite Hp' in Hin. apply list_elem_of_singleton in Hin. simplify_eq.
    exists (IndexingTask.cancel true k). split.
    + apply on_task_lookup. exists k. by rewrite decide_True.
    + unfold IndexingTask.cancel. cbn. rewrite Hc. done.
  - unfold stopAllTasks. cbn [currentTask set_reorg set_pc set_processes]. rewrite aw_current0.
    intros j k' (k0 & Hk0 & ->)%on_task_lookup. case_decide as Hij.
    + subst. rewrite write_cancel. cbn in Hk0. congruence.
    + by apply (aw_others0 j).
  - unfold caller_ok. cbn [r_caller]. rewrite Hp'. split; [|by left].
    intros *; rewrite list_elem_of_singleton; intros Heq; by simplify_eq.
Qed.

(** The block is complete: the height advances and the next task starts. *)
Lemma live_completes m i k s :
  at_work m i AtHeight k s →
  ordered m (process_returns prefetchQueueSize PROCESS_ONLY_X_BLOCK i
    (count_block PROCESS_ONLY_X_BLOCK (on_task i IndexingTask.destroy
       (set_observer (ChainObserver.store_progress (tip k + 1) (Ok tt) (observer s)).1 s)))).
Proof.
  intros Hw. pose proof (aw_notin _ _ _ _ _ Hw) as Hin. destruct Hw.
  destruct aw_live0 as (Hc & Hr & Hwr & Ht).
  apply (returns_unlocked _ _ m i AtHeight); try done.
  - intros j k' (k0 & Hk0 & ->)%on_task_lookup. cbn in Hk0. case_decide as Hij.
    + subst. rewrite write_destroy. congruence.
    + by apply (aw_others0 j).
  - rewrite <-Ht. by apply (queue_on_task _ IndexingTask.destroy i s).
Qed.

Lemma resume_working m i k pc a s s' :
  at_work m i pc k s → 2 ≤ pending s →
  match a with
  | ConflictsFailed _ => write k ≠ Some false
  | Reorg from _ => 0 ≤ from ≤ tip k
  | _ => True
  end →
  resume_process i k pc a s = Some s' → ordered m s'.
Proof.
  intros Hw Hp Hcalm. pose proof (aw_live _ _ _ _ _ Hw) as Hlive.
  pose proof Hlive as (Hc & Hr & Hpc).
  assert (write k ≠ Some false → ordered m (task_throws i s)) as Ht by by apply (live_task_throws m i pc k).
  destruct pc as [| | | | | |[]| | | | | |], a as [| | | |[]| | |];
    cbn -[ConsensusTracker.setConsensusBlockHeight IndexingTask.set_reorged]; try done;
    cbn in Hpc; try (destruct (promise k) as [err|]; [|done]).
  all: try (intros [= <-]; apply Ht; intuition congruence).
  - intros [= <-].
    rewrite <-(on_task_id i s). apply (live_throws m i AtThrow k); try done. destruct Hpc. congruence.
  - destruct err as [err|]; [intros [= <-]; apply Ht; intuition congruence|].
    destruct (has_block k); [|intros [= <-]; apply Ht; intuition congruence].
    destruct (ConsensusTracker.setConsensusBlockHeight _ _ _ _) as [c r].
    set (f := fun k0 => mkTask (tip k0) _ _ _ _ _ _ _).
    assert (at_work m i AtPrefetch k (set_selector c s)) as Hw' by by destruct Hw.
    assert (ordered m (task_throws i (on_task i f (set_selector c s)))) as Hthrow.
    { unfold BlockIndexer.BlockIndexer.task_throws. rewrite on_task_twice.
      apply (live_throws m i AtPrefetch k); try done; unfold IndexingTask.destroy; cbn;
        rewrite Hc; cbn; intuition congruence. }
    assert (ordered m (set_pc i AtExecute (on_task i f (set_selector c s)))) as Hgo.
    { by apply (live_goes m i AtPrefetch AtExecute f k). }
    destruct r as [[]|[]]; intros [= <-]; try done.
    (* the process exits with the call where it was *)
    change (ordered m (on_task i f (set_selector c s))).
    rewrite <-(set_pc_same i AtPrefetch _ (aw_processes _ _ _ _ _ Hw') f).
    by apply (live_goes m i AtPrefetch AtPrefetch f k).
  - intros [= <-]. unfold verify_reorg. rewrite Hr, Hc. by apply (live_goes_id m i AtExecute AtVerify k).
  - intros [= <-]. by apply (live_goes_id m i AtExecute AtRevertBlock k).
  - intros [= <-]. by apply (live_goes m i AtVerify AtDelete _ k).
  - intros [= <-]. apply live_restores; [done|]. destruct Hpc. lia.
  - intros [= <-]. unfold finalize. destruct (signal k).
    + apply (live_goes_id m i AtDelete AtFinalize k); [done|]. unfold live_ok. cbn.
      destruct Hpc as [-> ?]. by rewrite decide_False.
    + apply (live_goes m i AtDelete AtFinalize _ k); try done. unfold live_ok.
      rewrite decide_False by done. by destruct Hpc.
  - revert Hpc. destruct (decide (write k = Some true)) as [Hwr|]; intros Hpc; [|done].
    destruct (signal k) eqn:Hsg; intros [= <-]; [by apply Ht; rewrite Hwr|].
    unfold complete, IndexingTask.aborted. rewrite Hr, Hc, Hsg. cbn.
    by apply (live_goes_id m i AtFinalize AtEpoch k).
  - intros [= <-]. unfold BlockIndexer.BlockIndexer.task_throws. rewrite on_task_twice.
    apply (live_throws m i AtFinalize k); try done; unfold IndexingTask.destroy;
      destruct (decide (write k = Some false)); cbn; rewrite ?Hc; done.
  - destruct (aw_lock _ _ _ _ _ Hw) as [[Hl _]|(p & _ & Hl)].
    { by rewrite (aw_processes _ _ _ _ _ Hw) in Hl. }
    rewrite Hl. intros [= <-]. apply (live_goes_id m i AtEpoch AtHeight k); [|done].
    destruct Hw. split; try done. unfold pending. cbn. lia.
  - intros [= <-]. by apply live_completes.
Qed.

(** *** The revert *)

Lemma dead_set_pc j pc' s :
  dead s → (∀ pc k, (j, pc) ∈ processes s → dead_ok pc k → dead_ok pc' k) → dead (set_pc j pc' s).
Proof.
  intros Hd Hf i pc Hin. cbn in Hin. apply list_elem_of_fmap in Hin as ([i' pc0] & Heq & Hin).
  cbn in Heq. destruct (Hd i' pc0 Hin) as (k & Hk & Hok).
  case_decide; simplify_eq; exists k; split; eauto.
Qed.

Lemma stop_any second l s r :
  dead s → no_writes s → caller_ok s r →
  dead (stop_queue second l (r_reorged r) s).1 ∧ no_writes (stop_queue second l (r_reorged r) s).1.
Proof.
  intros Hd Hn [_ Hb]. destruct l as [|j l]; [done|]. cbn. split.
  - apply dead_on_task; [done|]. intros pc k Hin _. apply dead_ok_cancel.
    destruct Hb as [->|Hb]; [by left|right; by apply (Hb j)].
  - apply no_writes_on_task; [done|]. intros k Hk. rewrite write_cancel. by apply (Hn j).
Qed.

Lemma stop_all_any second s r :
  dead s → no_writes s → caller_ok s r →
  dead (stopAllTasks second (r_reorged r) s).1 ∧ no_writes (stopAllTasks second (r_reorged r) s).1.
Proof.
  intros Hd Hn Hc. unfold stopAllTasks. destruct (currentTask s) as [j|]; [|by apply stop_any].
  by apply (stop_any second [j]).
Qed.

(** Nothing is live, and the revert being run was taken out. *)
Record in_revert m s : Prop := {
  ir_lock : lock_inv s;
  ir_segment : segment (stored s) m;
  ir_ids : ids s;
  ir_reorged : chainReorged s = true;
  ir_dead : dead s;
  ir_writes : no_writes s;
  ir_reverts : reverts s = []
}.

Lemma suspend_ordered m r s :
  in_revert m s → revert_ok m s r → ordered m (set_reverts (reverts s ++ [r]) s).
Proof.
  intros [] Hok. apply reverting_ordered; try done. unfold reverting. conjs; try done.
  right. exists r. cbn. by rewrite ir_reverts0.
Qed.

Lemma stop_ordered m second r s sp :
  in_revert m s → stops second s sp → dead sp.1 → no_writes sp.1 → caller_ok s r → 0 ≤ r_from r ≤ m →
  ordered m (let '(s', pc) := sp in set_reverts (reverts s' ++ [set_rpc pc r]) s').
Proof.
  intros Hir Hst Hd Hn Hc Hf. pose proof (stops_revert_ok m second s sp r Hst Hc Hf) as Hok.
  destruct sp as [s' pc]. destruct Hir, Hst. cbn in *. apply suspend_ordered; [|done].
  split; try done; try congruence; [|by auto].
  eapply same_lock_inv; [|done]. by split.
Qed.

Lemma in_revert_destroy m j s : in_revert m s → in_revert m (on_task j IndexingTask.destroy s).
Proof.
  intros []. split; try done.
  - by apply ids_on_task.
  - apply dead_on_task; [done|]. intros pc k _ _. apply dead_ok_destroy.
  - apply no_writes_on_task; [done|]. intros k Hk. rewrite write_destroy. by apply (ir_writes0 j).
Qed.

Lemma locked_ordered m s : in_revert m s → ordered m s.
Proof. intros []. apply reverting_ordered; try done. unfold reverting. conjs; auto. Qed.

(** The call that asked for the revert is dead, and stays so. *)
Lemma caller_dead b j s :
  dead s → (∀ pc, (j, pc) ∈ processes s → pc = AtRestore) → dead (set_pc j (Restored b) s).
Proof. intros Hd Hj. apply dead_set_pc; [done|]. by intros pc k ->%Hj. Qed.

Lemma error_dead j s :
  dead s → (∀ pc, (j, pc) ∈ processes s → pc = AtRecover) → dead (set_pc j Recovered s).
Proof. intros Hd Hj. apply dead_set_pc; [done|]. by intros pc k ->%Hj. Qed.

Lemma revert_late_ordered m r s :
  in_revert m s → caller_ok s r → ordered m (revert_failed prefetchQueueSize true r s).
Proof.
  intros Hir [Hc _]. unfold revert_failed, revert_return.
  destruct (r_caller r) as [|j|j]; [by apply locked_ordered| |]; destruct Hir;
    apply locked_ordered; split; try done;
    by apply set_pc_lock || by apply ids_set_pc || by apply caller_dead || by apply error_dead.
Qed.

(** The end of a revert: the chain is unlocked, and the tasks start from the
    first reverted height. *)
Lemma revert_done_ordered m r s :
  in_revert m s → caller_ok s r → pending s = m → best s = m → stopped s →
  ordered m (revert_return prefetchQueueSize true r (set_reorg false s)).
Proof.
  intros Hir [Hc _] Hp Hb [Hq Hcur].
  assert (∀ s1, dead s1 → tasks s1 = tasks s → currentTask s1 = None → indexingTasks s1 = [] →
    best s1 = m → idle m s1) as Hidle.
  { intros s1 Hd Ht Hc1 Hq1 Hb1. unfold idle. conjs; try done.
    - intros j k. rewrite Ht. by apply (ir_writes _ _ Hir).
    - split; [rewrite Hq1; cbn; lia|]. intros j i. rewrite Hq1. by rewrite lookup_nil.
    - intros j pc _. rewrite Hq1. by intros ?%not_elem_of_nil. }
  destruct Hir. unfold revert_return. destruct (r_caller r) as [|j|j].
  - apply startTasks_ordered; try done; [unfold pending in *; cbn; lia|]. by apply Hidle.
  - apply unlocked_ordered; [by apply set_pc_lock|done|by apply ids_set_pc|].
    unfold unlocked. conjs; try done; [unfold pending in *; cbn; lia|left].
    apply Hidle; try done. by apply (caller_dead true j).
  - apply unlocked_ordered; [by apply set_pc_lock|done|by apply ids_set_pc|].
    unfold unlocked. conjs; try done; [unfold pending in *; cbn; lia|left].
    apply Hidle; try done. by apply (error_dead j).
Qed.

Lemma segment_drop (st : gset Z) m from :
  segment st m → 0 ≤ from ≤ m → segment (drop_from from st) from.
Proof.
  intros [H0 Hs] Hf. split; [lia|]. intros h. unfold drop_from.
  rewrite elem_of_filter, Hs. lia.
Qed.

Lemma in_revert_observer m o s : in_revert m s → in_revert m (set_observer o s).
Proof. by intros []. Qed.

Lemma suspend_eq (sp : t * revert_pc) r s' :
  (let '(s, pc) := sp in Some (set_reverts (reverts s ++ [set_rpc pc r]) s)) = Some s' →
  s' = (let '(s, pc) := sp in set_reverts (reverts s ++ [set_rpc pc r]) s).
Proof. destruct sp. congruence. Qed.

Lemma stopping_ordered m r a s s' :
  in_revert m s → caller_ok s r → 0 ≤ r_from r ≤ m →
  match r_pc r with RStopCurrent _ _ | RStopTask _ _ _ => True | _ => False end →
  resume_revert r a s = Some s' → ordered m s'.
Proof.
  intros Hir Hc Hf Hpc. unfold BlockIndexer.BlockIndexer.resume_revert.
  destruct (r_pc r) as [sec j|sec j rest| | | | | | |]; try done; destruct a; try done;
    destruct (settled j s); try done; intros Heq; apply suspend_eq in Heq as ->;
    apply in_revert_destroy with (j := j) in Hir.
  - eapply (stop_ordered m sec r); [done|apply stop_queue_stops|..|done|done];
      apply (stop_any sec _ _ r); try apply Hir; done.
  - eapply (stop_ordered m sec r); [done|apply stop_queue_stops|..|done|done];
      apply (stop_any sec _ _ r); try apply Hir; done.
Qed.

(** Once everything is stopped the storage is cut, and the observer moved. *)
Lemma data_ordered m r s :
  in_revert m s → caller_ok s r → 0 ≤ r_from r ≤ m → stopped s →
  ∀ s', resume_revert (set_rpc RData r) Done s = Some s' → ordered (r_from r) s'.
Proof.
  intros Hir Hc Hf Hst s'. cbn -[ChainObserver.reorg_begin].
  assert (∀ o, in_revert (r_from r) (set_observer o (set_stored (drop_from (r_from r) (stored s)) s))) as Hir'.
  { intros o. destruct Hir. split; try done. by apply (segment_drop _ m). }
  destruct (ChainObserver.reorg_begin _ _ _) as [o [[]|e]] eqn:E; intros Heq;
    apply (inj Some) in Heq as <-.
  - apply reorg_begin_ok in E as [Hp Hb].
    refine (suspend_ordered (r_from r) (set_rpc RObserver r) _ (Hir' o) _).
    split; [exact Hc|]. split; [cbn; lia|]. cbn. split; [done|]. split; [exact Hp|done].
  - exact (revert_late_ordered (r_from r) (set_rpc RData r) _ (Hir' o) Hc).
Qed.

Lemma observer_ordered m rpc w r s :
  in_revert m s → caller_ok s r → 0 ≤ r_from r → m = r_from r → pending s = m → stopped s →
  ∀ s', resume_revert (set_rpc RObserver r) (Observed rpc w) s = Some s' → ordered m s'.
Proof.
  intros Hir Hc Hf Hm Hp Hst s'. cbn -[ChainObserver.reorg_end].
  destruct (ChainObserver.reorg_end _ _ _ _ _ _) as [o [[]|e]] eqn:E.
  - apply reorg_end_ok in E as [Ho1 Ho2].
    assert (∀ pc, match pc with RSetReorg | RPlugins => True | _ => False end →
      revert_ok m (set_observer o s) (set_rpc pc r)) as Hok.
    { intros pc Hpc. split; [exact Hc|]. split; [done|]. unfold pending, best in *.
      destruct pc; try done; cbn; conjs; congruence || done. }
    destruct (r_reorged r); [destruct (decide (r_from r ≤ 0))|]; intros Heq;
      apply (inj Some) in Heq as <-.
    + exact (revert_late_ordered m (set_rpc RObserver r) _ (in_revert_observer m o s Hir) Hc).
    + exact (suspend_ordered m (set_rpc RSetReorg r) _ (in_revert_observer m o s Hir) (Hok RSetReorg I)).
    + exact (suspend_ordered m (set_rpc RPlugins r) _ (in_revert_observer m o s Hir) (Hok RPlugins I)).
  - assert (ordered m (revert_failed prefetchQueueSize true (set_rpc RObserver r) (set_observer o s))) as Hl.
    { by apply revert_late_ordered; [apply in_revert_observer|]. }
    assert (ordered m (set_observer o s)) as Hx by by apply locked_ordered, in_revert_observer.
    destruct e; intros Heq; apply (inj Some) in Heq as <-; done.
Qed.

Lemma set_rpc_same r : set_rpc (r_pc r) r = r.
Proof. by destruct r. Qed.

Lemma resume_reverting m r a s s' :
  in_revert m s → revert_ok m s r →
  match a with
  | Failed _ | Partial _ => r_pc r ≠ RThreads ∧ r_pc r ≠ RKill ∧ r_pc r ≠ RData
  | _ => True
  end →
  resume_revert r a s = Some s' → ∃ m', ordered m' s'.
Proof.
  intros Hir (Hc & Hf & Hpc) Hcalm Hstep.
  assert (∀ pc, match pc with RStopEnd _ | RThreads | RKill | RData => r_from r ≤ m ∧ stopped s
                | _ => False end → revert_ok m s (set_rpc pc r)) as Hmid.
  { intros pc Hx. split; [exact Hc|]. split; [done|]. by destruct pc. }
  rewrite <-(set_rpc_same r) in Hstep.
  destruct (r_pc r) as [sec j|sec j rest|sec| | | | | |] eqn:Epc.
  - exists m. rewrite <-Epc, set_rpc_same in Hstep. 
    apply (stopping_ordered m r a s s' Hir Hc); [lia|by rewrite Epc|exact Hstep].
  - exists m. rewrite <-Epc, set_rpc_same in Hstep. 
    apply (stopping_ordered m r a s s' Hir Hc); [lia|by rewrite Epc|exact Hstep].
  - destruct Hpc as [Hfm Hst]. exists m. destruct a; try (by destruct sec; discriminate). destruct sec; cbn -[stopAllTasks] in Hstep;
      [apply (inj Some) in Hstep as <-|apply suspend_eq in Hstep as ->].
    + by apply (suspend_ordered m (set_rpc RThreads r)), Hmid.
    + eapply (stop_ordered m true (set_rpc (RStopEnd false) r) s _ Hir); [apply stopAllTasks_stops|..|exact Hc|cbn; lia];
        apply (stop_all_any true s r); try apply Hir; done.
  - destruct Hpc as [Hfm Hst]. exists m. destruct a; try done; [|by destruct Hcalm]. apply (inj Some) in Hstep as <-.
    by apply (suspend_ordered m (set_rpc RKill r)), Hmid.
  - destruct Hpc as [Hfm Hst]. exists m. destruct a; try done; [|by destruct Hcalm as (_ & ? & _)].
    apply (inj Some) in Hstep as <-. by apply (suspend_ordered m (set_rpc RData r)), Hmid.
  - destruct Hpc as [Hfm Hst]. exists (r_from r).
    destruct a; try done; [|by destruct Hcalm as (_ & _ & ?)..]. by apply (data_ordered m r s).
  - destruct Hpc as (Hm & Hp & Hst). exists m. destruct a; try done.
    apply (observer_ordered m rpc written r s); try done. congruence.
  - destruct Hpc as (Hm & Hp & Hb & Hst). exists m. destruct a; try done; apply (inj Some) in Hstep as <-.
    + apply (suspend_ordered m (set_rpc RPlugins r)); [done|]. split; [exact Hc|]. done.
    + by apply (revert_late_ordered m (set_rpc RSetReorg r)).
  - destruct Hpc as (Hm & Hp & Hb & Hst). exists m. destruct a; try done; apply (inj Some) in Hstep as <-.
    + apply (revert_done_ordered m (set_rpc RPlugins r)); try done; congruence.
    + by apply (revert_late_ordered m (set_rpc RPlugins r)).
Qed.

(** *** Events *)

Lemma benign_ordered m f i s : benign f → ordered m s → ordered m (on_task i f s).
Proof.
  intros Hf (Hl & Hs & Hi & Hcase).
  assert (∀ k, write (f k) = write k) as Hw by (intros k; apply (Hf k)).
  assert (dead s → dead (on_task i f s)) as Hd.
  { intros Hd. apply dead_on_task; [done|]. intros pc k _ _. by apply dead_ok_benign. }
  assert (no_writes s → no_writes (on_task i f s)) as Hn.
  { intros Hn. apply no_writes_on_task; [done|]. intros k Hk. rewrite Hw. by apply (Hn i). }
  assert (∀ n, queue_ok n s → queue_ok n (on_task i f s)) as Hq.
  { intros n Hq. apply queue_on_task; [done|]. intros _ k. by destruct (Hf k) as (? & ? & ? & ? & _). }
  assert (ids (on_task i f s)) as Hi' by by apply ids_on_task.
  destruct Hcase as [(Hc & Hr & Hp & [(H1 & H2 & H3 & H4 & H5)|Hwork])|(H1 & H2 & H3 & H4)].
  - apply unlocked_ordered; try done. unfold unlocked. conjs; try done. left.
    unfold idle. conjs; auto.
  - apply unlocked_ordered; try done. unfold unlocked. conjs; try done. right.
    destruct Hwork as (j & pc & k & Hp1 & Hcur & Hk & Hok & Hqk & Ha & Ho).
    exists j, pc, (if decide (i = j) then f k else k). conjs; try done.
    + apply on_task_lookup. eauto.
    + case_decide; [by apply live_ok_benign|done].
    + case_decide; [destruct (Hf k) as (-> & _)|]; by apply Hq.
    + intros j' k' Hj (k0 & Hk0 & ->)%on_task_lookup.
      case_decide; [rewrite Hw|]; by apply (Ho j').
  - apply reverting_ordered; try done. unfold reverting. conjs; auto.
Qed.

Lemma working_at_work m s :
  lock_inv s → segment (stored s) m → ids s → chainReorged s = false → reverts s = [] →
  pending s ≤ m → working m s → ∃ i pc k, at_work m i pc k s.
Proof. intros ? ? ? ? ? ? (i & pc & k & ? & ? & ? & ? & ? & ? & ?). exists i, pc, k. by split. Qed.

(** A header reaches the storage: it is the next one. *)
Lemma written_ordered m i k s :
  ordered m s → tasks s !! i = Some k → write k = Some false →
  tip k = m ∧
  ordered (m + 1) (on_task i (IndexingTask.set_write (Some true)) (set_stored ({[tip k]} ∪ stored s) s)).
Proof.
  intros (Hl & Hs & Hi & Hcase) Hk Hw.
  destruct Hcase as [(Hc & Hr & Hp & [(_ & _ & Hn & _)|Hwork])|(_ & _ & Hn & _)];
    [by destruct (Hn i k)| |by destruct (Hn i k)].
  destruct (working_at_work m s Hl Hs Hi Hc Hr Hp Hwork) as (j & pc & k0 & Haw).
  destruct (decide (i = j)) as [<-|Hij]; [|by destruct (aw_others _ _ _ _ _ Haw i k)].
  pose proof (aw_task _ _ _ _ _ Haw) as Hk0. simplify_eq.
  pose proof (aw_live _ _ _ _ _ Haw) as (Hct & Hre & Hpc).
  assert (pc = AtFinalize ∧ tip k = m) as [-> Ht].
  { destruct pc; cbn in Hpc; try (destruct Hpc; congruence).
    by rewrite decide_False in Hpc by congruence. }
  split; [done|].
  assert (segment ({[tip k]} ∪ stored s) (m + 1)) as Hs'.
  { destruct Hs as [H0 Hs]. split; [lia|]. intros h.
    rewrite elem_of_union, elem_of_singleton, Hs. lia. }
  pose proof (aw_notin _ _ _ _ _ Haw) as Hin. destruct Haw.
  apply unlocked_ordered; [done|done|by apply ids_on_task|].
  unfold unlocked. conjs; try done; [unfold pending in *; cbn; lia|]. right.
  exists i, AtFinalize, (IndexingTask.set_write (Some true) k). conjs; try done.
  - apply on_task_lookup. exists k. cbn. by rewrite decide_True.
  - unfold live_ok. rewrite decide_True by done. conjs; [done..|cbn; lia].
  - by apply (queue_on_task _ _ i (set_stored ({[tip k]} ∪ stored s) s)).
  - intros j k' Hj (k1 & Hk1 & ->)%on_task_lookup. cbn in Hk1. rewrite decide_False by done.
    by apply (aw_others0 j).
Qed.

Lemma block_change_ordered m height hash s :
  ordered m s → calm s (BlockChange height hash) →
  ordered m (onBlockChange prefetchQueueSize PROCESS_ONLY_X_BLOCK height hash s).
Proof.
  intros Ho Hcalm. unfold onBlockChange. set (s1 := set_observer _ s).
  assert (ordered m s1) as Ho1 by exact Ho.
  assert (is_regression height s1 = is_regression height s) as Hreg by done.
  cbn in Hcalm. rewrite <-Hreg in Hcalm. assert (is_regression height s1 = true → quiet s1) as Hq by exact Hcalm.
  clearbody s1. clear Ho Hcalm Hreg s. rename s1 into s.
  assert (ordered m (startTasks prefetchQueueSize s)) as Hstart.
  { destruct Ho1 as (Hl & Hs & Hi & [(Hc & Hr & Hp & [Hidle|Hwork])|Hrev]).
    - by apply startTasks_ordered.
    - by apply startTasks_working.
    - unfold startTasks. destruct Hrev as (Hc & Hrest). rewrite Hc. by apply reverting_ordered. }
  destruct (limit_reached _ s); [done|]. destruct (is_regression height s) eqn:Hreg.
  - destruct Ho1 as (Hl & Hs & Hi & Hcase). unfold is_regression in Hreg.
    apply andb_true_iff in Hreg as [[_ Hc]%andb_true_iff Hh%bool_decide_eq_true].
    destruct Hcase as [Hu|(Hc' & _)]; [|by rewrite Hc' in Hc].
    apply regression_ordered; try done; [by apply Hq|]. destruct Hu as (_ & _ & Hp & _).
    unfold pending in Hp. lia.
  - destruct (negb (started s)); [exact Hstart|]. by destruct (taskInProgress s && _).
Qed.

Lemma calm_step m s e s' :
  ordered m s → calm s e → step s e = Some s' → ∃ m', ordered m' s'.
Proof.
  intros Ho Hcalm. unfold BlockIndexer.BlockIndexer.step. destruct (exited s); [done|].
  destruct e as [h hash|i r|i|i|i a|n a]; cbn in Hcalm.
  - intros [= <-]. exists m. by apply block_change_ordered.
  - intros [= <-]. exists m. apply benign_ordered; [apply benign_prefetch|done].
  - intros [= <-]. exists m. apply benign_ordered; [apply benign_abort|done].
  - destruct (tasks s !! i) as [k|] eqn:Hk; cbn; [|done]. case_decide; [|done]. intros [= <-].
    exists (m + 1). by apply written_ordered.
  - destruct Ho as (Hl & Hs & Hi & Hcase). destruct Hcalm as [Hp2 Hcalm].
    destruct (pc_of s i) as [pc|] eqn:Hpc; cbn; [|done].
    apply (pc_of_single _ _ _ Hl) in Hpc as [Hp Hlk].
    destruct (tasks s !! i) as [k|] eqn:Hk; cbn; [|done]. intros Hstep. exists m.
    destruct Hcase as [(Hc & Hr & Hpm & [Hidle|Hwork])|Hrev].
    + eapply (resume_dead m i k pc a s); try done. left. by conjs.
    + destruct (working_at_work m s Hl Hs Hi Hc Hr Hpm Hwork) as (j & pc' & k' & Haw).
      pose proof (aw_processes _ _ _ _ _ Haw) as Hp'. pose proof (aw_task _ _ _ _ _ Haw) as Hk'.
      rewrite Hp in Hp'. simplify_eq. apply (resume_working m _ _ _ a s s' Haw Hp2); [|exact Hstep].
      destruct a; try exact I; by apply Hcalm.
    + eapply (resume_dead m i k pc a s); try done. by right.
  - destruct Ho as (Hl & Hs & Hi & Hcase). destruct (reverts s !! n) as [r|] eqn:Hn; cbn; [|done].
    destruct Hcase as [(_ & Hr & _)|(Hc & Hd & Hw & Hr)]; [by rewrite Hr in Hn|].
    destruct Hr as [Hr|(r' & Hr & Hok)]; [by rewrite Hr in Hn|]. rewrite Hr in Hn |- *.
    apply list_lookup_singleton_Some in Hn as [-> ->].
    apply (resume_reverting m); [by split|done|].
    destruct a; try done; apply Hcalm; by rewrite ?Hr.
Qed.

(** ** Calm histories *)

Inductive calm_reach (s0 : t) : t → Prop :=
| calm_start : calm_reach s0 s0
| calm_next s e s' : calm_reach s0 s → calm s e → step s e = Some s' → calm_reach s0 s'.

(** A list of events, each calm where it comes. *)
Fixpoint calm_run (s : t) (l : list event) : Prop :=
  match l with
  | [] => True
  | e :: l => calm s e ∧ match step s e with Some s' => calm_run s' l | None => False end
  end.

Lemma calm_run_reach s0 s l s' :
  calm_reach s0 s → calm_run s l →
  run Config table prefetchQueueSize PROCESS_ONLY_X_BLOCK s l = Some s' → calm_reach s0 s'.
Proof.
  unfold BlockIndexer.BlockIndexer.run.
  revert s. induction l as [|e l IH]; intros s Hs; [by intros _ [= <-]|].
  intros [Hc Hr]. destruct (step s e) as [s1|] eqn:E; [|done]. cbn. rewrite E.
  apply IH; [|done]. by eapply calm_next.
Qed.

Lemma calm_reach_ordered m0 s0 s :
  ordered m0 s0 → calm_reach s0 s → ∃ m, ordered m s.
Proof.
  intros H0. induction 1 as [|s e s' _ [m IH] Hcalm Hstep]; [by exists m0|].
  by apply (calm_step m s e).
Qed.

Lemma initial_ordered p o st :
  segment st p → pendingBlockHeight (ChainObserver.status o) = p →
  bestTip (ChainObserver.status o) = p → ordered p (initial o st).
Proof.
  intros Hst Hp Hb. unfold ordered. conjs; [by left|done|by intros i pc ?%elem_of_nil|].
  left. unfold unlocked. conjs; [done..|unfold pending; cbn; lia|]. left. unfold idle. conjs.
  - done.
  - by intros i pc ?%elem_of_nil.
  - by intros i k.
  - split; [unfold best; cbn; lia|]. by intros j i.
  - by intros i pc ?%elem_of_nil.
Qed.

(** C1: Blocks are stored in order.  From a node whose storage holds the blocks
    below its pending height, after any calm interleaving of block changes,
    prefetches, executions, reorganisations, errors and reverts, the stored
    headers are those of an initial segment [0..m-1] of the heights: none is
    missing, and the only header that can be written next is that of height [m]. *)
Theorem blocks_in_order o st p s :
  segment st p → pendingBlockHeight (ChainObserver.status o) = p →
  bestTip (ChainObserver.status o) = p → calm_reach (initial o st) s →
  ∃ m, segment (stored s) m ∧
    ∀ i s', step s (Written i) = Some s' → (m ∉ stored s) ∧ stored s' = {[m]} ∪ stored s.
Proof.
  intros Hst Hp Hb Hreach.
  destruct (calm_reach_ordered p _ s (initial_ordered p o st Hst Hp Hb) Hreach) as [m Hm].
  exists m. split; [apply Hm|]. intros i s'. unfold BlockIndexer.BlockIndexer.step.
  destruct (exited s); [done|]. destruct (tasks s !! i) as [k|] eqn:Hk; cbn; [|done].
  case_decide; [|done]. intros [= <-]. destruct (written_ordered m i k s Hm) as [<- _]; [done..|].
  split; [|done]. destruct Hm as (_ & [_ Hseg] & _). rewrite Hseg. lia.
Qed.
End Step.

(** ** Examples *)

#[local] Existing Instance string_btclib.

Definition stored_after (l : list event) : option (list Z) :=
  (λ s, filter (λ h, h ∈ stored s) (seqZ 0 20)) <$> play (node 2) l.

Example two_blocks : stored_after (BlockChange 4 "a" :: one_block 0 ++ one_block 1) = Some [0; 1; 2; 3].
Proof. vm_compute. reflexivity. Qed.

(** A block change back to height 3 while the third task is prefetched: the node
    reverts and stores the blocks of the new chain. *)
Definition cancelled (i j : nat) : list event :=
  [ResumeRevert 0 Done; Prefetched i (Ok tt); ResumeRevert 0 Done; Prefetched j (Ok tt);
   ResumeRevert 0 Done; ResumeRevert 0 Done].
Definition reverted (h : Z) : list event :=
  [ResumeRevert 0 Done; ResumeRevert 0 Done; ResumeRevert 0 Done;
   ResumeRevert 0 (Observed (Ok (Some h)) (Ok tt)); ResumeRevert 0 Done; ResumeRevert 0 Done].

Example regression :
  stored_after (BlockChange 6 "a" :: one_block 0 ++ one_block 1 ++ [BlockChange 3 "b"] ++
    cancelled 2 3 ++ reverted 5 ++ [Resume 2 Done] ++ one_block 4 ++ until_written 5) =
  Some [0; 1; 2; 3; 4].
Proof. vm_compute. reflexivity. Qed.

(** What goes wrong when the steps are not calm.  A revert that fails before the
    storage is touched unlocks the node with an empty queue, and the tip is past
    the discarded tasks: blocks 4 and 5 are skipped. *)
Example failed_revert_skips :
  stored_after (BlockChange 6 "a" :: one_block 0 ++ one_block 1 ++ [BlockChange 2 "b"] ++
    cancelled 2 3 ++ [ResumeRevert 0 Done; ResumeRevert 0 (Failed "thread"); Resume 2 Done;
    BlockChange 8 "c"] ++ until_written 4) = Some [0; 1; 2; 3; 6].
Proof. vm_compute. reflexivity. Qed.

(** A regression while a block is written: the revert waits for the prefetch of
    the task only, and the header arrives after the storage was purged. *)
Example regression_while_writing :
  stored_after (BlockChange 6 "a" :: one_block 0 ++ removelast (until_written 1) ++
    [BlockChange 2 "b"; ResumeRevert 0 Done; Prefetched 2 (Ok tt); ResumeRevert 0 Done;
     Prefetched 3 (Ok tt)] ++ repeat (ResumeRevert 0 Done) 5 ++ [Written 1]) = Some [0; 1; 3].
Proof. vm_compute. reflexivity. Qed.

(** A regression while a block is completed: [onCompletedTask] sets the height of
    the reverted block after the revert set its own. *)
Example regression_while_completing :
  (λ s, (chainReorged s, pending s, filter (λ h, h ∈ stored s) (seqZ 0 20))) <$>
  play (node 2) (BlockChange 6 "a" :: one_block 0 ++ until_written 1 ++
    [Resume 1 (Finalised true); BlockChange 2 "b"; ResumeRevert 0 Done; Prefetched 2 (Ok tt);
     ResumeRevert 0 Done; Prefetched 3 (Ok tt)] ++ repeat (ResumeRevert 0 Done) 5 ++
    [Resume 1 Done]) = Some (true, 3, [0; 1]).
Proof. vm_compute. reflexivity. Qed.

(** A failed conflict detection does not wait for [finalizeBlock], and the chain
    is reverted while the header is still on its way. *)
Example orphaned_write :
  stored_after (BlockChange 6 "a" :: one_block 0 ++ removelast (until_written 1) ++
    [Resume 1 (ConflictsFailed "x"); ResumeRevert 0 Done; Prefetched 2 (Ok tt); ResumeRevert 0 Done;
     Prefetched 3 (Ok tt)] ++ repeat (ResumeRevert 0 Done) 5 ++ [Written 1]) = Some [0; 1; 3].
Proof. vm_compute. reflexivity. Qed.

(** An error at height 0 or 1 is not reverted, and its block is skipped when the
    next block is announced. *)
Example early_error_skips :
  (λ s, filter (λ h, h ∈ stored s) (seqZ 0 20)) <$>
  play (node 0) (BlockChange 3 "a" :: [Prefetched 0 (Ok tt); Resume 0 Done; Resume 0 (Failed "x");
    Resume 0 Done; BlockChange 4 "b"] ++ until_written 1) = Some [1].
Proof. vm_compute. reflexivity. Qed.

(** The history of [regression], up to the write of block 3, is calm. *)
Definition regression_history : list event :=
  BlockChange 6 "a" :: one_block 0 ++ one_block 1 ++ [BlockChange 3 "b"] ++
  cancelled 2 3 ++ reverted 5 ++ [Resume 2 Done] ++ removelast (until_written 4).

Lemma regression_history_calm : calm_run regtest_config nodeConsensus 2 0 (node 2) regression_history.
Proof.
  vm_compute. repeat split; try discriminate.
  intros _ i pc Hin%list_elem_of_singleton. by injection Hin as -> ->.
Qed.

Lemma play_reach s0 l s :
  play s0 l = Some s → calm_run regtest_config nodeConsensus 2 0 s0 l →
  calm_reach regtest_config nodeConsensus 2 0 s0 s.
Proof. intros E Hc. eapply calm_run_reach; [apply calm_start|exact Hc|exact E]. Qed.

Lemma regression_history_reach s :
  play (node 2) regression_history = Some s →
  calm_reach regtest_config nodeConsensus 2 0 (node 2) s.
Proof. intros E. exact (play_reach (node 2) regression_history s E regression_history_calm). Qed.

Lemma regression_history_next :
  ∃ s s', play (node 2) regression_history = Some s ∧
    BlockIndexer.BlockIndexer.step regtest_config nodeConsensus 2 0 s (Written 4) = Some s'.
Proof.
  destruct (some_of (play (node 2) (regression_history ++ [Written 4]))) as [s' E'];
    [vm_compute; reflexivity|].
  rewrite run_snoc in E'. destruct (play (node 2) regression_history) as [s|]; [|done].
  by exists s, s'.
Qed.

Lemma regression_history_stored : stored_after regression_history = Some [0; 1; 2].
Proof. vm_compute. reflexivity. Qed.

Lemma stored_after_spec l s hs h :
  play (node 2) l = Some s → stored_after l = Some hs → 0 ≤ h < 20 → (h ∈ stored s ↔ h ∈ hs).
Proof.
  unfold stored_after. intros -> [= <-] Hh.
  rewrite list_elem_of_filter, elem_of_seqZ. clear - Hh. intuition lia.
Qed.

Lemma node_segment : segment (stored (node 2)) 2.
Proof.
  split; [lia|]. intros h. cbn. rewrite elem_of_union, elem_of_singleton, elem_of_union,
    elem_of_singleton, elem_of_empty. lia.
Qed.

Lemma blocks_in_order_witness :
  ∃ s, play (node 2) regression_history = Some s ∧
    ∃ s', BlockIndexer.BlockIndexer.step regtest_config nodeConsensus 2 0 s (Written 4) = Some s' ∧
      stored s' = {[3]} ∪ stored s.
Proof.
  destruct regression_history_next as (s & s' & E & E').
  exists s. split; [exact E|]. exists s'. split; [exact E'|].
  destruct (blocks_in_order regtest_config nodeConsensus 2 0 (example_observer 2) (stored (node 2)) 2 s
    node_segment eq_refl eq_refl (regression_history_reach s E)) as (m & [_ Hm] & Hnext).
  destruct (Hnext 4%nat s' E') as [_ ->]. replace m with 3; [reflexivity|].
  pose proof (stored_after_spec _ s _ 2 E regression_history_stored ltac:(lia)) as H2.
  pose proof (stored_after_spec _ s _ 3 E regression_history_stored ltac:(lia)) as H3.
  clear - Hm H2 H3. rewrite Hm in H2, H3. rewrite !elem_of_cons, elem_of_nil in H2, H3. lia.
Defined.
