(* ===== verification/BlockIndexerProgress.v ===== *)
(** * The indexer catches up with the chain

    Liveness of the block indexer: when blocks are announced up to some height
    and what the indexer awaits succeeds, then, in whatever order the answers
    come, all the blocks get stored and the node stops working. *)

From S2P Require Import Prelude ConsensusRules Consensus ChainObserver BlockIndexer.
From S2P Require Import BlockIndexerFacts BlockIndexerOrder.
Import BlockIndexer.BlockIndexer.

Section Progress.
Context `{BtcLib} (Config : NodeConfig) (table : IOPNetConsensusObj).
Context (prefetchQueueSize : Z) (Hsize : 0 < prefetchQueueSize).
Local Abbreviation step := (step Config table prefetchQueueSize 0).
Local Abbreviation startTasks := (startTasks prefetchQueueSize).
Implicit Types (s : t) (i j : nat) (k : Task).

(** ** Good events, and what they lead to *)

(** Nothing fails, and no event is a repetition. *)
Definition good s (e : event) : Prop :=
  match e with
  | Prefetched i (Ok _) => ∃ k, tasks s !! i = Some k ∧ prefetching k = true ∧ promise k = None
  | Written _ | Resume _ (Done | NoReorg | Finalised true) => True
  | _ => False
  end.

(** Whatever good events come, [P] will hold; and some good event can come until
    it does. *)
Inductive eventually (P : t → Prop) : t → Prop :=
| eventually_now s : P s → eventually P s
| eventually_step s :
    (∃ e s', good s e ∧ step s e = Some s') →
    (∀ e s', good s e → step s e = Some s' → eventually P s') →
    eventually P s.

(** The consensus lets the [n] blocks from height [h] on be processed. *)
Fixpoint proceeds (n : nat) (h : Z) (c : OPNetConsensus.state) : Prop :=
  match n with
  | O => True
  | S n =>
      match ConsensusTracker.setConsensusBlockHeight Config table h c with
      | (c', Ok false) => proceeds n (h + 1) c'
      | _ => False
      end
  end.

(** ** The states on the way *)

(** A task of the queue: its block is there, or on its way. *)
Definition fresh (h : Z) k : Prop :=
  k = IndexingTask.create h ∨ k = IndexingTask.processPrefetch (Ok ()) (IndexingTask.create h).

(** The task whose block is processed, with the state of its header. *)
Definition body (h : Z) (w : option bool) : Task := mkTask h false false true false (Some None) true w.

Definition stage (pc : process_pc) (h : Z) k : Prop :=
  match pc with
  | AtPrefetch => fresh h k
  | AtExecute | AtVerify | AtDelete => k = body h None
  | AtFinalize => k = body h (Some false) ∨ k = body h (Some true)
  | AtEpoch | AtHeight => k = body h (Some true)
  | _ => False
  end.

Definition target s : Z := targetBlockHeight (ChainObserver.status (observer s)).
Definition selector s : OPNetConsensus.state := ChainObserver.selector (observer s).

(** The queue holds the heights from [n] on, up to [T] at most. *)
Record queued (n T : Z) s : Prop := {
  q_target : target s = T;
  q_best : best s = n + Z.of_nat (length (indexingTasks s));
  q_bound : best s ≤ T + 1;
  q_tasks p i : indexingTasks s !! p = Some i → ∃ k, tasks s !! i = Some k ∧ fresh (n + Z.of_nat p) k
}.

(** The tasks that are neither waiting nor current have nothing left to do. *)
Definition finished k : Prop := promise k ≠ None ∧ write k ≠ Some false.
Definition others (c : option nat) s : Prop :=
  ∀ j k, tasks s !! j = Some k → Some j ≠ c → j ∉ indexingTasks s → finished k.

Record running s : Prop := {
  ok_exited : exited s = false;
  ok_reorged : chainReorged s = false
}.

Record serving (T : Z) i (pc : process_pc) k s : Prop := {
  sv_running : running s;
  sv_lock : taskInProgress s = true;
  sv_current : currentTask s = Some i;
  sv_processes : processes s = [(i, pc)];
  sv_task : tasks s !! i = Some k;
  sv_notin : i ∉ indexingTasks s;
  sv_stage : stage pc (tip k) k;
  sv_tip : 0 ≤ tip k ≤ T;
  sv_queue : queued (tip k + 1) T s;
  sv_others : others (Some i) s;
  sv_stored : segment (stored s) (if decide (write k = Some true) then tip k + 1 else tip k);
  sv_consensus :
    match pc with
    | AtPrefetch => proceeds (Z.to_nat (T + 1 - tip k)) (tip k) (selector s)
    | _ => proceeds (Z.to_nat (T - tip k)) (tip k + 1) (selector s)
    end;
  sv_pending : pc = AtHeight → pending s = tip k
}.

(** All the blocks up to [T] are stored, and nothing is left to do. *)
Record caught_up (T : Z) s : Prop := {
  cu_stored : segment (stored s) (T + 1);
  cu_idle : taskInProgress s = false ∧ processes s = [] ∧ indexingTasks s = [];
  cu_pending : pending s = T;
  cu_database : ChainObserver.inProgressBlock (observer s) = Some (T + 1)
}.

(** ** Moving the current call *)

(** [s'] is [s] with the call at [pc'] and the current task replaced. *)
Record moved i (pc' : process_pc) k' s s' : Prop := {
  mv_exited : exited s' = exited s;
  mv_reorged : chainReorged s' = chainReorged s;
  mv_lock : taskInProgress s' = taskInProgress s;
  mv_current : currentTask s' = currentTask s;
  mv_queue : indexingTasks s' = indexingTasks s;
  mv_processes : processes s' = [(i, pc')];
  mv_tasks j : tasks s' !! j = if decide (j = i) then Some k' else tasks s !! j;
  mv_target : target s' = target s;
  mv_best : best s' = best s
}.

Lemma moved_serving T i pc pc' k k' s s' :
  serving T i pc k s → moved i pc' k' s s' → tip k' = tip k → stage pc' (tip k) k' →
  segment (stored s') (if decide (write k' = Some true) then tip k + 1 else tip k) →
  match pc' with
  | AtPrefetch => proceeds (Z.to_nat (T + 1 - tip k)) (tip k) (selector s')
  | _ => proceeds (Z.to_nat (T - tip k)) (tip k + 1) (selector s')
  end →
  (pc' = AtHeight → pending s' = tip k) →
  serving T i pc' k' s'.
Proof.
  intros [[] Hl Hc Hp Ht Hni Hst Htip [] Ho Hseg Hcons Hpend] [] Hk Hst' Hseg' Hcons' Hpend'.
  split; rewrite ?Hk; try congruence; try done.
  - split; congruence.
  - rewrite mv_tasks0. by rewrite decide_True.
  - split; rewrite ?mv_target0, ?mv_best0, ?mv_queue0; try done.
    intros p j Hj. rewrite mv_tasks0, decide_False; [eauto|]. intros ->.
    apply Hni. by eapply list_elem_of_lookup_2.
  - intros j kj. rewrite mv_tasks0, mv_queue0. intros Hj Hne. rewrite decide_False in Hj by congruence.
    by apply (Ho j).
Qed.

Lemma moved_set_pc i pc k pc' s :
  processes s = [(i, pc)] → tasks s !! i = Some k → moved i pc' k s (set_pc i pc' s).
Proof.
  intros Hp Hk. split; try done.
  - cbn. rewrite Hp. cbn. by rewrite decide_True.
  - intros j. cbn. by case_decide; subst.
Qed.

Lemma on_task_eq i j k f s :
  tasks s !! i = Some k → tasks (on_task i f s) !! j = if decide (j = i) then Some (f k) else tasks s !! j.
Proof.
  intros Hk. unfold on_task, set_tasks. cbn. rewrite list_lookup_alter.
  repeat case_decide; try congruence. subst. by rewrite Hk.
Qed.

Lemma moved_on_task i pc k f s :
  processes s = [(i, pc)] → tasks s !! i = Some k → moved i pc (f k) s (on_task i f s).
Proof. intros Hp Hk. split; try done. intros j. by apply on_task_eq. Qed.

Lemma moved_trans i pc1 pc2 k1 k2 s s1 s2 :
  moved i pc1 k1 s s1 → moved i pc2 k2 s1 s2 → moved i pc2 k2 s s2.
Proof.
  intros [] []. split; try congruence.
  intros j. rewrite mv_tasks1. case_decide; [done|]. rewrite mv_tasks0. by rewrite decide_False.
Qed.

(** *** The measure *)

Definition count (l : list Task) : nat := length (filter (λ p, p = None) (promise <$> l)).

Definition rank (pc : process_pc) k : nat :=
  match pc with
  | AtPrefetch => 7 | AtExecute => 6 | AtVerify => 5 | AtDelete => 4
  | AtFinalize => if decide (write k = Some true) then 2 else 3
  | AtEpoch => 1 | _ => 0
  end%nat.

Definition measure pc k s : nat := (rank pc k * S (length (tasks s)) + count (tasks s))%nat.

Lemma count_le l : (count l ≤ length l)%nat.
Proof. unfold count. rewrite <-(length_fmap promise l). apply length_filter. Qed.

Lemma moved_length i pc k k' s s' :
  tasks s !! i = Some k → moved i pc k' s s' → length (tasks s') = length (tasks s).
Proof.
  intros Hk Hm. apply Nat.le_antisymm; apply Nat.le_ngt; intros Hlt.
  - pose proof (mv_tasks _ _ _ _ _ Hm (length (tasks s))) as He.
    apply lookup_lt_is_Some in Hlt as [x Hx]. rewrite Hx in He. case_decide; subst.
    + apply lookup_lt_Some in Hk. lia.
    + rewrite lookup_ge_None_2 in He by lia. done.
  - pose proof (mv_tasks _ _ _ _ _ Hm (length (tasks s'))) as He.
    apply lookup_lt_is_Some in Hlt as [x Hx]. rewrite Hx in He.
    rewrite lookup_ge_None_2 in He by lia. by case_decide.
Qed.

Lemma moved_measure i pc pc' k k' s s' :
  tasks s !! i = Some k → moved i pc' k' s s' → promise k' = promise k →
  (rank pc' k' < rank pc k)%nat → (measure pc' k' s' < measure pc k s)%nat.
Proof.
  intros Hk Hm Hpr Hr. unfold measure. rewrite (moved_length _ _ _ _ _ _ Hk Hm).
  assert (promise <$> tasks s' = promise <$> tasks s) as He.
  { apply list_eq. intros j. rewrite !list_lookup_fmap, (mv_tasks _ _ _ _ _ Hm).
    case_decide; [|done]. subst. rewrite Hk. cbn. by rewrite Hpr. }
  unfold count. rewrite He. nia.
Qed.

(** ** A block arrives *)

Lemma count_alter l i k f :
  l !! i = Some k → promise k = None → promise (f k) ≠ None → S (count (alter f i l)) = count l.
Proof.
  intros Hk Hn Hf. unfold count. revert i Hk. induction l as [|x l IH]; intros [|i]; cbn -[filter]; try done.
  - intros [= ->]. rewrite !filter_cons. by destruct (decide (promise (f k) = None)), (decide (promise k = None)).
  - intros Hk. specialize (IH i Hk). unfold fmap, list_fmap in *. rewrite !filter_cons. case_decide; cbn -[filter] in *; lia.
Qed.

Lemma fresh_prefetched h k :
  fresh h k → promise k = None → fresh h (IndexingTask.processPrefetch (Ok ()) k).
Proof. intros [-> | ->] Hn; [by right|done]. Qed.

Lemma fresh_write h k : fresh h k → write k = None ∧ tip k = h.
Proof. by intros [-> | ->]. Qed.

Lemma prefetched_some k :
  prefetching k = true → promise k = None → promise (IndexingTask.processPrefetch (Ok ()) k) ≠ None.
Proof.
  intros Hp Hn. unfold IndexingTask.processPrefetch. rewrite Hp, Hn. cbn. by destruct (IndexingTask.aborted k).
Qed.

Lemma queued_prefetched n T j kj s :
  tasks s !! j = Some kj → promise kj = None → queued n T s →
  queued n T (on_task j (IndexingTask.processPrefetch (Ok ())) s).
Proof.
  intros Hj Hn []. split; try done. intros p i Hi. rewrite (on_task_eq _ _ _ _ _ Hj).
  destruct (q_tasks0 p i Hi) as (k & Hk & Hf).
  case_decide; [|by eauto]. subst. rewrite Hj in Hk. simplify_eq. eexists. split; [done|].
  by apply fresh_prefetched.
Qed.

Lemma stage_promise pc h k :
  stage pc h k → promise k = None → pc = AtPrefetch.
Proof. destruct pc; cbn; try done; naive_solver. Qed.

Lemma prefetch_serving T i pc k j kj s :
  serving T i pc k s → tasks s !! j = Some kj → prefetching kj = true → promise kj = None →
  let s' := on_task j (IndexingTask.processPrefetch (Ok ())) s in
  ∃ k', serving T i pc k' s' ∧ tip k' = tip k ∧ (measure pc k' s' < measure pc k s)%nat.
Proof.
  intros Hs Hj Hp Hn s'.
  assert (length (tasks s') = length (tasks s)) as Hlen by (unfold s'; cbn; by rewrite length_alter).
  assert (S (count (tasks s')) = count (tasks s)) as Hcount
    by (eapply count_alter; [done..|by apply prefetched_some]).
  pose proof (on_task_eq j) as Htasks. specialize (λ j', Htasks j' _ (IndexingTask.processPrefetch (Ok ())) _ Hj).
  fold s' in Htasks.
  destruct (decide (i = j)) as [<-|Hij].
  - pose proof (sv_task _ _ _ _ _ Hs) as Hk. assert (kj = k) as -> by congruence.
    pose proof (sv_stage _ _ _ _ _ Hs) as Hst.
    assert (pc = AtPrefetch) as -> by (by eapply stage_promise).
    exists (IndexingTask.processPrefetch (Ok ()) k).
    pose proof (fresh_prefetched _ _ Hst Hn) as Hf.
    destruct (fresh_write _ _ Hf) as [Hw Ht]. destruct (fresh_write _ _ Hst) as [Hw' _].
    conjs; [|done|unfold measure; rewrite Hlen; cbn [rank]; lia].
    pose proof (sv_stored _ _ _ _ _ Hs) as Hseg. rewrite Hw', decide_False in Hseg by done.
    eapply (moved_serving _ _ _ _ _ _ _ _ Hs); try done.
    + apply moved_on_task; [apply Hs|done].
    + by rewrite Hw, decide_False.
    + apply Hs.
  - exists k. conjs; [|done|unfold measure; rewrite Hlen; lia].
    destruct Hs. split; try done.
    + destruct sv_running0. by split.
    + rewrite Htasks. by rewrite decide_False by congruence.
    + by eapply queued_prefetched.
    + intros j' k'. rewrite Htasks. destruct (decide (j' = j)) as [->|]; [|exact (sv_others0 j' k')].
      intros _ Hne Hnq. by destruct (sv_others0 j kj).
Qed.

(** ** The next block *)

(** [s'] differs from [s] in the queue, the tasks and the tip only. *)
Record frame s s' : Prop := {
  fr_exited : exited s' = exited s;
  fr_reorged : chainReorged s' = chainReorged s;
  fr_lock : taskInProgress s' = taskInProgress s;
  fr_current : currentTask s' = currentTask s;
  fr_processes : processes s' = processes s;
  fr_stored : stored s' = stored s;
  fr_pending : pending s' = pending s;
  fr_selector : selector s' = selector s;
  fr_database : ChainObserver.inProgressBlock (observer s') = ChainObserver.inProgressBlock (observer s)
}.

Lemma frame_refl s : frame s s.
Proof. by split. Qed.

Lemma frame_trans s1 s2 s3 : frame s1 s2 → frame s2 s3 → frame s1 s3.
Proof. intros [] []. split; congruence. Qed.

Lemma nextTask_queued n T c s :
  queued n T s → others c s → best s ≤ T →
  queued n T (nextTask s) ∧ others c (nextTask s) ∧ frame s (nextTask s) ∧
  length (indexingTasks (nextTask s)) = S (length (indexingTasks s)).
Proof.
  intros [Ht Hb Hbd Hq] Ho Hle. unfold nextTask, ChainObserver.nextBestTip.
  unfold target, best in *.
  rewrite decide_False by lia. cbn -[IndexingTask.create]. rewrite decide_False by lia. conjs.
  - split; unfold target, best; cbn -[IndexingTask.create]; rewrite ?length_app; cbn; [done|lia..|].
    intros p i [Hi|[Hlen Hi]]%lookup_app_Some.
    + destruct (Hq p i Hi) as (k & Hk & Hf). exists k. split; [by apply lookup_app_l_Some|done].
    + apply list_lookup_singleton_Some in Hi as [Hp <-]. eexists.
      rewrite lookup_app_r, Nat.sub_diag by lia. split; [done|]. left. f_equal. lia.
  - intros j k. cbn -[IndexingTask.create]. rewrite elem_of_app, list_elem_of_singleton.
    intros [Hj|[Hlen Hj]]%lookup_app_Some Hne Hnq; [apply (Ho j); tauto|].
    apply list_lookup_singleton_Some in Hj as [Hj _]. destruct Hnq. right. lia.
  - by split.
  - cbn. rewrite length_app. cbn. lia.
Qed.

Lemma start_loop_queued n T c N s :
  queued n T s → others c s →
  queued n T (start_loop N s) ∧ others c (start_loop N s) ∧ frame s (start_loop N s) ∧
  (best s ≤ T → (0 < N)%nat → indexingTasks (start_loop N s) ≠ []) ∧
  (T < best s → indexingTasks (start_loop N s) = indexingTasks s) ∧
  (indexingTasks s ≠ [] → indexingTasks (start_loop N s) ≠ []).
Proof.
  revert s. induction N as [|N IH]; intros s Hq Ho; cbn.
  - conjs; try done; lia.
  - pose proof Hq as [Ht Hb Hbd _]. unfold ChainObserver.pendingTaskHeight.
    change (bestTip _) with (best s). change (targetBlockHeight _) with (target s). rewrite Ht.
    destruct (decide (T < best s)) as [Hlt|Hle].
    { conjs; try done; lia. }
    destruct (nextTask_queued n T c s Hq Ho ltac:(lia)) as (Hq1 & Ho1 & Hf1 & Hl).
    destruct (IH _ Hq1 Ho1) as (Hq2 & Ho2 & Hf2 & _ & _ & Hne).
    assert (indexingTasks (start_loop N (nextTask s)) ≠ []) as Hnn.
    { apply Hne. intros He. by rewrite He in Hl. }
    conjs; try done; eauto using frame_trans; lia.
Qed.

(** Nobody works: the storage has the blocks below [n], the queue those from [n]
    on. *)
Record between (n T : Z) s : Prop := {
  bt_running : running s;
  bt_lock : taskInProgress s = false;
  bt_processes : processes s = [];
  bt_queue : queued n T s;
  bt_others : others None s;
  bt_stored : segment (stored s) n;
  bt_consensus : proceeds (Z.to_nat (T + 1 - n)) n (selector s)
}.

Lemma startTasks_serving n T s :
  between n T s → n ≤ T → ∃ i k, tip k = n ∧ serving T i AtPrefetch k (startTasks s).
Proof.
  intros [[He Hr] Hl Hp Hq Ho Hseg Hcons] Hn. unfold BlockIndexer.BlockIndexer.startTasks. rewrite Hr.
  set (N := Z.to_nat _).
  destruct (start_loop_queued n T None N s Hq Ho) as (Hq1 & Ho1 & [] & Hne1 & _ & Hne2).
  assert (indexingTasks (start_loop N s) ≠ []) as Hne.
  { destruct (indexingTasks s) eqn:E; [|by apply Hne2]. destruct Hq as [_ Hb _ _]. rewrite E in Hb.
    cbn in Hb. apply Hne1; [lia|]. unfold N. rewrite ?E. cbn. lia. }
  set (s1 := start_loop N s) in *. clearbody s1. rewrite decide_False by done.
  unfold processNextTask. rewrite fr_lock0, Hl. destruct (indexingTasks s1) as [|i q] eqn:Eq; [done|].
  destruct Hq1 as [Ht1 Hb1 Hbd1 Hq1]. rewrite Eq in *. cbn in Hb1.
  destruct (Hq1 0%nat i eq_refl) as (k & Hk & Hf). rewrite Z.add_0_r in Hf.
  destruct (fresh_write _ _ Hf) as [Hw Htip].
  assert (prefetching k = true) as Hpf by (by destruct Hf as [-> | ->]).
  exists i, k. split; [done|].
  assert (i ∉ q) as Hni.
  { intros [p Hi]%list_elem_of_lookup. destruct (Hq1 (S p) i Hi) as (k' & Hk' & Hf').
    apply fresh_write in Hf' as [_ ?]. simplify_eq. lia. }
  cbn. rewrite Hk. cbn. rewrite Hpf. cbn.
  split; cbn; try done; try congruence.
  - split; cbn; congruence.
  - by rewrite fr_processes0, Hp.
  - destruct Hseg. lia.
  - rewrite Htip. split; unfold target, best in *; cbn; [done|lia..|].
    intros p j Hj. destruct (Hq1 (S p) j Hj) as (k' & Hk' & Hf'). exists k'. split; [done|].
    by replace (n + 1 + Z.of_nat p) with (n + Z.of_nat (S p)) by lia.
  - intros j kj Hj Hne' Hnq. apply (Ho1 j kj Hj); [done|]. rewrite Eq, not_elem_of_cons.
    split; [|exact Hnq]. congruence.
  - rewrite Hw, decide_False, fr_stored0 by done. by rewrite Htip.
  - rewrite Htip. unfold selector in *. cbn. by rewrite fr_selector0.
Qed.

Lemma startTasks_caught_up T s :
  between (T + 1) T s → pending s = T → ChainObserver.inProgressBlock (observer s) = Some (T + 1) →
  caught_up T (startTasks s).
Proof.
  intros [[He Hr] Hl Hp Hq Ho Hseg Hcons] Hpend Hdb.
  assert (indexingTasks s = [] ∧ T < best s) as [Hnil Hb].
  { destruct Hq as [_ Hb Hbd _]. destruct (indexingTasks s); cbn in Hb; [split; [done|lia]|lia]. }
  unfold BlockIndexer.BlockIndexer.startTasks. rewrite Hr.
  set (N := Z.to_nat _). clearbody N.
  destruct (start_loop_queued _ T None N s Hq Ho) as (_ & _ & [] & _ & Heq & _).
  rewrite decide_True by (rewrite Heq by done; done).
  split; [congruence|conjs; [congruence..|by rewrite Heq]|congruence|congruence].
Qed.

(** ** One step *)

Local Abbreviation resume := (resume_process Config table prefetchQueueSize 0).

Lemma update_moved i pc pc' k f s :
  processes s = [(i, pc)] → tasks s !! i = Some k →
  moved i pc' (f k) s (set_pc i pc' (on_task i f s)).
Proof.
  intros Hp Hk. eapply moved_trans; [by eapply moved_on_task|]. apply (moved_set_pc i pc); [done|].
  by rewrite (on_task_eq i i k) by done; rewrite decide_True.
Qed.

Lemma set_consensus_moved i k f c s :
  processes s = [(i, AtPrefetch)] → tasks s !! i = Some k →
  moved i AtExecute (f k) s (set_pc i AtExecute (on_task i f (set_selector c s))).
Proof.
  intros Hp Hk. destruct (update_moved i AtPrefetch AtExecute k f (set_selector c s)); [done..|].
  by split.
Qed.

(** The call goes on to its next await. *)
Definition goes_on T i pc k s s' : Prop :=
  ∃ pc' k', serving T i pc' k' s' ∧ tip k' = tip k ∧ (measure pc' k' s' < measure pc k s)%nat.

Lemma goes_on_intro T i pc pc' k k' s s' :
  serving T i pc k s → moved i pc' k' s s' → promise k' = promise k →
  (rank pc' k' < rank pc k)%nat → tip k' = tip k → stage pc' (tip k) k' →
  segment (stored s') (if decide (write k' = Some true) then tip k + 1 else tip k) →
  match pc' with
  | AtPrefetch => proceeds (Z.to_nat (T + 1 - tip k)) (tip k) (selector s')
  | _ => proceeds (Z.to_nat (T - tip k)) (tip k + 1) (selector s')
  end →
  (pc' = AtHeight → pending s' = tip k) →
  goes_on T i pc k s s'.
Proof.
  intros Hs Hm Hpr Hr. intros. exists pc', k'.
  conjs; [by eapply (moved_serving T i pc)|done|].
  eapply moved_measure; try done. apply Hs.
Qed.

Lemma fetched_goes_on T i k s s' :
  serving T i AtPrefetch k s → resume i k AtPrefetch Done s = Some s' → goes_on T i AtPrefetch k s s'.
Proof.
  intros Hs. pose proof (sv_stage _ _ _ _ _ Hs) as Hst. pose proof (sv_tip _ _ _ _ _ Hs) as Htip.
  pose proof (sv_stored _ _ _ _ _ Hs) as Hseg. pose proof (sv_consensus _ _ _ _ _ Hs) as Hcons.
  cbn -[ConsensusTracker.setConsensusBlockHeight proceeds] in *.
  destruct Hst as [Hk|Hk]; rewrite Hk at 1; [done|].
  assert (promise k = Some None ∧ has_block k = true ∧ write k = None ∧
    mkTask (tip k) (task_reorged k) (signal k) (controller k) false (promise k) (has_block k) (write k)
      = body (tip k) None) as (Hpr & Hhas & Hw & Hbody) by (by rewrite Hk).
  rewrite Hhas. cbn -[ConsensusTracker.setConsensusBlockHeight proceeds].
  replace (Z.to_nat (T + 1 - tip k)) with (S (Z.to_nat (T - tip k))) in Hcons by lia.
  cbn [proceeds] in Hcons. unfold selector in Hcons.
  destruct (ConsensusTracker.setConsensusBlockHeight Config table (tip k) _) as [c [[]|e]]; try done.
  intros [= <-]. rewrite Hw, decide_False in Hseg by done.
  eapply (goes_on_intro T i AtPrefetch AtExecute k (body (tip k) None) s); try done.
  - rewrite <-Hbody. exact (set_consensus_moved i k (λ k, mkTask (tip k) (task_reorged k) (signal k)
      (controller k) false (promise k) (has_block k) (write k)) c s
      (sv_processes _ _ _ _ _ Hs) (sv_task _ _ _ _ _ Hs)).
  - cbn. lia.
Qed.

(** The steps between the execution of a block and its completion. *)
Lemma worked_goes_on T i pc k a s s' :
  serving T i pc k s → pc ≠ AtPrefetch → pc ≠ AtHeight →
  (a = Done ∨ a = NoReorg ∨ a = Finalised true) →
  resume i k pc a s = Some s' → goes_on T i pc k s s'.
Proof.
  intros Hs H1 H2 Ha Hstep. pose proof (sv_stage _ _ _ _ _ Hs) as Hst.
  pose proof (sv_stored _ _ _ _ _ Hs) as Hseg. pose proof (sv_consensus _ _ _ _ _ Hs) as Hcons.
  pose proof (sv_processes _ _ _ _ _ Hs) as Hp. pose proof (sv_task _ _ _ _ _ Hs) as Hk.
  destruct pc; try done; cbn in Hst; destruct Ha as [-> |[-> | ->]]; cbn in Hstep; try done.
  - unfold verify_reorg in Hstep. rewrite Hst in Hstep. cbn in Hstep. injection Hstep as <-.
    eapply (goes_on_intro T i AtExecute AtVerify k k s); try done; [by eapply moved_set_pc|cbn; lia].
  - injection Hstep as <-.
    eapply (goes_on_intro T i AtVerify AtDelete k (IndexingTask.set_reorged false k) s); try done;
      [by apply (update_moved i AtVerify)|cbn; lia|by rewrite Hst].
  - injection Hstep as <-. unfold finalize.
    assert (signal k = false) as -> by (by rewrite Hst).
    rewrite Hst, decide_False in Hseg by done.
    eapply (goes_on_intro T i AtDelete AtFinalize k (IndexingTask.set_write (Some false) k) s); try done;
      [by apply (update_moved i AtDelete)|cbn; by case_decide; lia|left; by rewrite Hst].
  - case_decide as Hw; [|done]. destruct Hst as [Hst|Hst]; [by rewrite Hst in Hw|].
    unfold complete in Hstep. rewrite Hst in Hstep. cbn in Hstep. injection Hstep as <-.
    eapply (goes_on_intro T i AtFinalize AtEpoch k k s); try done; [by eapply moved_set_pc|..].
    + cbn. rewrite decide_True by done. lia.
    + by rewrite decide_True.
  - rewrite (sv_lock _ _ _ _ _ Hs) in Hstep. cbn in Hstep. injection Hstep as <-.
    set (s1 := set_observer _ s).
    assert (moved i AtHeight k s (set_pc i AtHeight s1)) as Hm.
    { destruct (moved_set_pc i AtEpoch k AtHeight s1 Hp Hk). by split. }
    eapply (goes_on_intro T i AtEpoch AtHeight k k s); try done. cbn. lia.
Qed.

(** The header reaches the storage. *)
Lemma written_goes_on T i pc k s :
  serving T i pc k s → write k = Some false →
  goes_on T i pc k s
    (on_task i (IndexingTask.set_write (Some true)) (set_stored ({[tip k]} ∪ stored s) s)).
Proof.
  intros Hs Hw. pose proof (sv_stage _ _ _ _ _ Hs) as Hst.
  pose proof (sv_stored _ _ _ _ _ Hs) as Hseg. pose proof (sv_consensus _ _ _ _ _ Hs) as Hcons.
  rewrite decide_False in Hseg by congruence.
  assert (pc = AtFinalize) as ->.
  { destruct pc; cbn in Hst; try done; [|by rewrite Hst in Hw..].
    by destruct (fresh_write _ _ Hst); congruence. }
  set (s1 := set_stored _ s).
  assert (moved i AtFinalize (IndexingTask.set_write (Some true) k) s
    (on_task i (IndexingTask.set_write (Some true)) s1)) as Hm.
  { destruct (moved_on_task i AtFinalize k (IndexingTask.set_write (Some true)) s1); [apply Hs..|].
    by split. }
  eapply (goes_on_intro T i AtFinalize AtFinalize k _ s _ Hs Hm); try done.
  - cbn. rewrite Hw. repeat case_decide; lia || congruence.
  - right. destruct Hst as [-> | ->]; done.
  - rewrite decide_True by done. cbn. destruct Hseg as [H0 Hseg]. split; [lia|]. intros h.
    rewrite elem_of_union, elem_of_singleton, Hseg. lia.
Qed.

(** The block is done: the next one is served, or the node has caught up. *)
Lemma completed_step T i k s s' :
  serving T i AtHeight k s → resume i k AtHeight Done s = Some s' →
  (tip k = T ∧ caught_up T s') ∨
  (tip k < T ∧ ∃ i' k', tip k' = tip k + 1 ∧ serving T i' AtPrefetch k' s').
Proof.
  intros Hs [= <-]. unfold process_returns, releaseLockAndCallNextTask.
  set (s1 := set_lock false None _).
  assert (between (tip k + 1) T s1 ∧ pending s1 = tip k ∧
    ChainObserver.inProgressBlock (observer s1) = Some (tip k + 1)) as (Hb & Hpend & Hdb).
  { destruct Hs as [[] ? ? Hp Hk ? Hst ? [] Ho Hseg Hcons Hpe]. cbn in Hst.
    rewrite decide_True in Hseg by (by rewrite Hst). conjs; [|by apply Hpe|done].
    assert (∀ j, tasks s1 !! j = if decide (j = i) then Some (IndexingTask.destroy k) else tasks s !! j)
      as Htasks by (intros j; exact (on_task_eq i j k IndexingTask.destroy s Hk)).
    split; try done.
    - cbn. rewrite Hp. by rewrite filter_cons_False by (cbn; congruence).
    - split; try done. intros p j Hj. rewrite Htasks, decide_False; [by apply q_tasks0|].
      intros ->. by eapply sv_notin0, list_elem_of_lookup_2.
    - intros j kj. rewrite Htasks. case_decide.
      + intros [= <-] _ _. by rewrite Hst.
      + intros Hj _ Hq. apply (Ho j kj Hj); [congruence|done].
    - by replace (T + 1 - (tip k + 1)) with (T - tip k) by lia. }
  pose proof (sv_tip _ _ _ _ _ Hs) as Htip. pose proof (ok_reorged _ (bt_running _ _ _ Hb)) as Hr.
  clearbody s1.
  assert (limit_reached 0 s1 = false) as -> by (by apply bool_decide_eq_false; intros []).
  rewrite Hr. cbn [andb negb]. destruct (decide (tip k = T)) as [Ht|Ht].
  - left. split; [done|]. apply startTasks_caught_up; rewrite <-?Ht in *; done.
  - right. split; [lia|]. apply startTasks_serving; [done|lia].
Qed.

Lemma serving_pc T i pc k s j pc' :
  serving T i pc k s → pc_of s j = Some pc' → j = i ∧ pc' = pc.
Proof.
  intros Hs Hpc. apply pc_of_single in Hpc as [Hp _]; [|right; eexists; split; apply Hs].
  rewrite (sv_processes _ _ _ _ _ Hs) in Hp. by injection Hp.
Qed.

(** Only the header of the current block can be on its way. *)
Lemma serving_write T i pc k s j kj :
  serving T i pc k s → tasks s !! j = Some kj → write kj = Some false → j = i.
Proof.
  intros Hs Hj Hw. destruct (decide (j = i)) as [|Hne]; [done|].
  destruct (decide (j ∈ indexingTasks s)) as [[p Hp]%list_elem_of_lookup|Hq].
  - destruct (q_tasks _ _ _ (sv_queue _ _ _ _ _ Hs) p j Hp) as (k' & Hk' & [? _]%fresh_write). congruence.
  - destruct (sv_others _ _ _ _ _ Hs j kj Hj) as [_ ?]; [congruence|done|done].
Qed.

Lemma good_step T i pc k s e s' :
  serving T i pc k s → good s e → step s e = Some s' →
  goes_on T i pc k s s' ∨ (tip k = T ∧ caught_up T s') ∨
  (tip k < T ∧ ∃ i' k', tip k' = tip k + 1 ∧ serving T i' AtPrefetch k' s').
Proof.
  intros Hs Hg. unfold BlockIndexer.BlockIndexer.step.
  rewrite (ok_exited _ (sv_running _ _ _ _ _ Hs)).
  destruct e as [h hash|j [[]|]|j|j|j a|n a]; cbn in Hg; try done.
  - destruct Hg as (kj & Hj & Hp & Hn). intros [= <-]. left. exists pc.
    by apply (prefetch_serving T i pc k j kj s).
  - destruct (tasks s !! j) as [kj|] eqn:Hj; cbn; [|done]. case_decide as Hw; [|done]. intros [= <-].
    left. pose proof (serving_write _ _ _ _ _ _ _ Hs Hj Hw) as ->.
    pose proof (sv_task _ _ _ _ _ Hs) as Hk. assert (kj = k) as -> by congruence.
    by apply written_goes_on.
  - destruct (pc_of s j) as [pc'|] eqn:Hpc; cbn; [|done].
    destruct (serving_pc _ _ _ _ _ _ _ Hs Hpc) as [-> ->]. rewrite (sv_task _ _ _ _ _ Hs). cbn.
    assert (a = Done ∨ a = NoReorg ∨ a = Finalised true) as Ha by (destruct a as [| | | |[]| | |]; auto; done).
    intros Hstep.
    assert (pc = AtPrefetch ∨ pc = AtHeight ∨ pc ≠ AtPrefetch ∧ pc ≠ AtHeight) as [-> |[-> |[H1 H2]]]
      by (destruct pc; auto 6).
    + left. destruct Ha as [-> |[-> | ->]]; [by apply fetched_goes_on|done..].
    + right. destruct Ha as [-> |[-> | ->]]; [by eapply completed_step|done..].
    + left. by eapply worked_goes_on.
Qed.

(** Some good event can always come. *)
Lemma good_enabled T i pc k s :
  serving T i pc k s → ∃ e s', good s e ∧ step s e = Some s'.
Proof.
  intros Hs. pose proof (sv_stage _ _ _ _ _ Hs) as Hst. pose proof (sv_task _ _ _ _ _ Hs) as Hk.
  assert (∀ a, step s (Resume i a) = resume i k pc a s) as Hresume.
  { intros a. unfold BlockIndexer.BlockIndexer.step, pc_of.
    rewrite (ok_exited _ (sv_running _ _ _ _ _ Hs)), (sv_processes _ _ _ _ _ Hs), Hk. cbn.
    destruct (decide (i = i)); [|done]. done. }
  assert (∀ a, good s (Resume i a) → is_Some (resume i k pc a s) → ∃ e s', good s e ∧ step s e = Some s') as Hgo.
  { intros a Hg [s' Hs']. exists (Resume i a), s'. by rewrite Hresume. }
  destruct pc; try done; cbn in Hst.
  - destruct Hst as [Hst|Hst].
    + exists (Prefetched i (Ok ())). eexists. split; [exists k; by rewrite Hst in *|].
      unfold BlockIndexer.BlockIndexer.step. by rewrite (ok_exited _ (sv_running _ _ _ _ _ Hs)).
    + apply (Hgo Done); [done|].
      assert (promise k = Some None ∧ has_block k = true) as [Hpr Hb] by (by rewrite Hst).
      cbn -[ConsensusTracker.setConsensusBlockHeight]. rewrite Hpr, Hb.
      by destruct (ConsensusTracker.setConsensusBlockHeight _ _ _ _) as [c [[]|[]]].
  - by apply (Hgo Done).
  - by apply (Hgo NoReorg).
  - by apply (Hgo Done).
  - destruct Hst as [Hst|Hst].
    + exists (Written i). eexists. split; [done|]. unfold BlockIndexer.BlockIndexer.step.
      rewrite (ok_exited _ (sv_running _ _ _ _ _ Hs)), Hk. cbn. by rewrite decide_True by (by rewrite Hst).
    + apply (Hgo (Finalised true)); [done|]. cbn. rewrite decide_True by (by rewrite Hst).
      by destruct (signal k).
  - apply (Hgo Done); [done|]. cbn. by rewrite (sv_lock _ _ _ _ _ Hs).
  - by apply (Hgo Done).
Qed.

Lemma serving_eventually T i pc k s :
  serving T i pc k s → eventually (caught_up T) s.
Proof.
  remember (Z.to_nat (T - tip k)) as n eqn:Hn. revert i pc k s Hn.
  induction n as [n IHn] using lt_wf_ind. intros i pc k s Hn.
  remember (measure pc k s) as r eqn:Hr. revert pc k s Hn Hr.
  induction r as [r IHr] using lt_wf_ind. intros pc k s Hn Hr Hs.
  apply eventually_step; [by eapply good_enabled|].
  intros e s' Hg Hstep. destruct (good_step _ _ _ _ _ _ _ Hs Hg Hstep)
    as [(pc' & k' & Hs' & Ht & Hm)|[[_ Hc]|(Hlt & i' & k' & Ht & Hs')]].
  - eapply (IHr (measure pc' k' s')); [lia|by rewrite Ht|done|done].
  - by apply eventually_now.
  - pose proof (sv_tip _ _ _ _ _ Hs). eapply (IHn (Z.to_nat (T - tip k'))); [lia|done|done].
Qed.

(** C4: The indexer catches up: when a node that has the blocks below [p] hears of
    block [T], then, as long as what it waits for succeeds, it stores every block
    up to [T] and comes to rest at height [T], in whatever order the blocks
    arrive and the calls are answered; it can never get stuck on the way. *)
Theorem indexer_catches_up o st p T hash :
  segment st p → bestTip (ChainObserver.status o) = p → p ≤ T →
  proceeds (Z.to_nat (T + 1 - p)) p (ChainObserver.selector o) →
  ∃ s, step (initial o st) (BlockChange T hash) = Some s ∧ eventually (caught_up T) s.
Proof.
  intros Hst Hb HT Hcons. eexists. split; [done|]. unfold onBlockChange.
  set (s1 := set_observer _ (initial o st)).
  assert (between p T s1) as Hbt.
  { split; try done; split; try done; unfold target, best; cbn; lia. }
  assert (limit_reached 0 s1 = false) as -> by (by apply bool_decide_eq_false; intros []).
  destruct (startTasks_serving p T s1 Hbt HT) as (i & k & Hk & Hs). cbn [is_regression started initial].
  change (BlockIndexer.BlockIndexer.started s1) with false. cbn [negb andb].
  apply (serving_eventually T i AtPrefetch k). by destruct Hs as [[] ? ? ? ? ? ? ? [] ?].
Qed.
End Progress.

(** ** Example *)

#[local] Existing Instance string_btclib.

Lemma node_proceeds : proceeds regtest_config nodeConsensus 3 2 OPNetConsensus.initial.
Proof. vm_compute. exact I. Qed.

Lemma indexer_catches_up_witness :
  ∃ s, BlockIndexer.BlockIndexer.step regtest_config nodeConsensus 2 0 (node 2) (BlockChange 4 "a") = Some s ∧
    eventually regtest_config nodeConsensus 2 (caught_up 4) s.
Proof.
  exact (indexer_catches_up regtest_config nodeConsensus 2 ltac:(lia) (example_observer 2)
    (stored (node 2)) 2 4 "a" node_segment eq_refl ltac:(lia) node_proceeds).
Defined.
