(* ===== verification/Evaluation.v ===== *)
(** * The evaluation of one contract call
    (vm/runtime/classes/ContractEvaluation.ts, vm/runtime/classes/AddressStack.ts,
    vm/mutables/MutableNumber.ts)

    The calls of a transaction share objects by reference: the storage, what was
    preloaded, the contracts deployed, the gas tracker, the call stack and the
    counters.  They are the [shared] state, threaded through all calls; what a
    call has of its own is its [evaluation].

    The serialisation of inputs and outputs is left out. *)

From S2P Require Import Prelude ConsensusRules Consensus Gas.

(** ** Maps of @btc-vision/transaction

    [AddressMap] and [DeterministicMap] are parameters: maps with an iteration
    order of their own. *)

Class MapLib (K : Type) `{EqDecision K} : Type := {
  MapOf : Type → Type;
  m_empty {V} : MapOf V;
  m_get {V} : MapOf V → K → option V;
  m_set {V} : MapOf V → K → V → MapOf V;
  m_entries {V} : MapOf V → list (K * V);
  m_get_empty {V} k : m_get (V := V) m_empty k = None;
  m_get_set {V} (m : MapOf V) k k' v : m_get (m_set m k v) k' = if decide (k = k') then Some v else m_get m k';
  m_entries_get {V} (m : MapOf V) k v : (k, v) ∈ m_entries m ↔ m_get m k = Some v;
  m_entries_nodup {V} (m : MapOf V) : NoDup (m_entries m).*1
}.

(** An instance for concrete examples. *)
Definition gmap_lib (K : Type) `{Countable K} : MapLib K.
Proof.
  refine {| MapOf := gmap K; m_empty V := ∅; m_get V m k := m !! k; m_set V m k v := <[k:=v]> m;
            m_entries V m := map_to_list m |}; intros V.
  - apply lookup_empty.
  - intros. by rewrite lookup_insert.
  - intros. by rewrite elem_of_map_to_list.
  - intros. apply NoDup_fst_map_to_list.
Defined.

(** What else is used of the libraries: the writer of binary data, base64, and
    the texts of the errors. *)
Inductive vm_error : Type :=
| DeploymentDepthExceeded
| UpdateDepthExceeded
| StorageAlreadySet
| ReentrancyDetected
| MaximumEventLength
| MaximumEventTypeLength
| MaximumTotalEventLength
| ContractAlreadyDeployed
| CannotParseAccessList
| VMGas (e : gas_error)
| CallStackTooDeep
| InvalidContract
| InvalidContractBytecode
| UnableToGetBlockHash
| ContractNotFound
| AlreadyDeployedCache
| DeploymentFailed
| MethodNotImplemented
| PreloadExceedsGas
| OutOfGasStorage
| ReceiptTooLong
| NativeModule (message : string)
| DatabaseError (message : string).

Class VMLib `{BtcLib} : Type := {
  AddressMaps :: MapLib Address;
  PointerMaps :: MapLib Z;
  message : vm_error → string;
  writeSelector : Z → bytes;
  writeStringWithLength : string → bytes;
  fromBase64 : string → result string bytes
}.

Section Types.
Context `{VMLib}.

Definition AddressMap (V : Type) : Type := MapOf (K := Address) V.
(** [DeterministicMap<bigint, bigint>] *)
Definition PointerStorage : Type := MapOf (K := Z) Z.
(** [FastBigIntMap], which behaves as a map (see FastCollections). *)
Definition PointerStorageMap : Type := list (Z * Z).

Record NetEvent : Type := mkEvent { event_type : list Z; event_data : bytes }.

Record ContractInformation : Type := mkInfo {
  blockHeight : Z;
  contractPublicKey : Address;
  bytecode : bytes;
  deployerPubKey : Address;
  contractSeed : bytes;
  deployerAddress : Address
}.

Definition AccessList : Type := list (string * list (string * string)).

(** What the calls of a transaction have in common. *)
Record shared : Type := mkShared {
  storage : AddressMap PointerStorage;
  preloadStorage : AddressMap PointerStorage;
  deployedContracts : AddressMap ContractInformation;
  gasTracker : GasTracker.t;
  callStack : list Address;
  contractDeployDepth : Z;
  contractUpdateDepth : Z;
  mldsaLoadCounter : Z
}.

Record ExecutionParameters : Type := mkParams {
  p_contractAddress : Address;
  p_msgSender : Address;
  p_calldata : bytes;
  p_externalCall : bool;
  p_isDeployment : bool;
  p_isUpdate : bool;
  p_memoryPagesUsed : Z;
  p_accessList : option AccessList;
  p_preloadStorageList : option (list (Address * list Z));
  p_specialContract : option SpecialContract
}.

Record evaluation : Type := mkEval {
  params : ExecutionParameters;
  memoryPagesUsed : Z;
  modifiedStorage : option (AddressMap PointerStorageMap);
  events : AddressMap (list NetEvent);
  totalEventSize : Z;
  ev_result : option bytes;
  revert : option bytes;
  touchedAddresses : AddressMap bool
}.

Record EvaluatedResult : Type := mkResult {
  changedStorage : option (AddressMap PointerStorageMap);
  loadedStorage : AddressMap PointerStorage;
  res_result : option bytes;
  res_events : AddressMap (list NetEvent);
  res_gasUsed : Z;
  res_specialGasUsed : Z;
  res_revert : option bytes;
  res_deployed : list ContractInformation
}.
End Types.

Definition set_storage `{VMLib} (x : AddressMap PointerStorage) (s : shared) : shared :=
  mkShared x (preloadStorage s) (deployedContracts s) (gasTracker s) (callStack s)
    (contractDeployDepth s) (contractUpdateDepth s) (mldsaLoadCounter s).
Definition set_preload `{VMLib} (x : AddressMap PointerStorage) (s : shared) : shared :=
  mkShared (storage s) x (deployedContracts s) (gasTracker s) (callStack s)
    (contractDeployDepth s) (contractUpdateDepth s) (mldsaLoadCounter s).
Definition set_deployed `{VMLib} (x : AddressMap ContractInformation) (s : shared) : shared :=
  mkShared (storage s) (preloadStorage s) x (gasTracker s) (callStack s)
    (contractDeployDepth s) (contractUpdateDepth s) (mldsaLoadCounter s).
Definition set_tracker `{VMLib} (x : GasTracker.t) (s : shared) : shared :=
  mkShared (storage s) (preloadStorage s) (deployedContracts s) x (callStack s)
    (contractDeployDepth s) (contractUpdateDepth s) (mldsaLoadCounter s).
Definition set_stack `{VMLib} (x : list Address) (s : shared) : shared :=
  mkShared (storage s) (preloadStorage s) (deployedContracts s) (gasTracker s) x
    (contractDeployDepth s) (contractUpdateDepth s) (mldsaLoadCounter s).
Definition set_depths `{VMLib} (d u l : Z) (s : shared) : shared :=
  mkShared (storage s) (preloadStorage s) (deployedContracts s) (gasTracker s) (callStack s) d u l.

Definition set_modified `{VMLib} x (v : evaluation) : evaluation :=
  mkEval (params v) (memoryPagesUsed v) (Some x) (events v) (totalEventSize v) (ev_result v) (revert v)
    (touchedAddresses v).
Definition set_events `{VMLib} x (v : evaluation) : evaluation :=
  mkEval (params v) (memoryPagesUsed v) (modifiedStorage v) x (totalEventSize v) (ev_result v) (revert v)
    (touchedAddresses v).
Definition set_total `{VMLib} x (v : evaluation) : evaluation :=
  mkEval (params v) (memoryPagesUsed v) (modifiedStorage v) (events v) x (ev_result v) (revert v)
    (touchedAddresses v).
Definition set_result `{VMLib} x (v : evaluation) : evaluation :=
  mkEval (params v) (memoryPagesUsed v) (modifiedStorage v) (events v) (totalEventSize v) (Some x)
    (revert v) (touchedAddresses v).
Definition set_raw_revert `{VMLib} x (v : evaluation) : evaluation :=
  mkEval (params v) (memoryPagesUsed v) (modifiedStorage v) (events v) (totalEventSize v) (ev_result v)
    (Some x) (touchedAddresses v).
Definition set_touched `{VMLib} x (v : evaluation) : evaluation :=
  mkEval (params v) (memoryPagesUsed v) (modifiedStorage v) (events v) (totalEventSize v) (ev_result v)
    (revert v) x.
Definition set_memory `{VMLib} x (v : evaluation) : evaluation :=
  mkEval (params v) x (modifiedStorage v) (events v) (totalEventSize v) (ev_result v) (revert v)
    (touchedAddresses v).

(** ** The call stack *)

Module AddressStack.
Section AddressStack.
Context `{BtcLib}.
Implicit Types (s : list Address).

Definition length (s : list Address) : Z := Z.of_nat (List.length s).
Definition push (s : list Address) (a : Address) : list Address := s ++ [a].
Definition pop (s : list Address) : list Address * option Address := (removelast s, last s).
Definition peek (s : list Address) : option Address := last s.
Definition includes (s : list Address) (a : Address) : bool := existsb (fun x => bool_decide (x = a)) s.
Definition concat (s t : list Address) : list Address := s ++ t.
End AddressStack.
End AddressStack.

(** ** RustContract.getErrorAsBuffer *)

Definition getErrorAsBuffer `{VMLib} (msg : string) : bytes :=
  writeSelector 1668521308 ++ writeStringWithLength (if decide (msg = "") then "Unknown error" else msg).

(** ** ContractEvaluation *)

Module ContractEvaluation.
Section ContractEvaluation.
Context `{VMLib} (TX : TransactionsConfig) (TX_MAX : Z).

(** A call: the shared state and its own evaluation. *)
Definition frame : Type := shared * evaluation.
Definition op : Type → Type := stx frame vm_error.

Definition on_shared (f : shared → shared) : op unit := smod (fun fr => (f fr.1, fr.2)).
Definition on_eval (f : evaluation → evaluation) : op unit := smod (fun fr => (fr.1, f fr.2)).

Definition contractAddress (v : evaluation) : Address := p_contractAddress (params v).
Definition externalCall (v : evaluation) : bool := p_externalCall (params v).

(** *** The constructor *)

Definition incrementContractDeployDepth : stx shared vm_error unit := fun s =>
  if decide (MAXIMUM_DEPLOYMENT_DEPTH TX ≤ contractDeployDepth s) then (s, Throw DeploymentDepthExceeded)
  else (set_depths (contractDeployDepth s + 1) (contractUpdateDepth s) (mldsaLoadCounter s) s, Ok tt).

Definition incrementContractUpdates : stx shared vm_error unit := fun s =>
  if decide (MAXIMUM_UPDATE_DEPTH TX ≤ contractUpdateDepth s) then (s, Throw UpdateDepthExceeded)
  else (set_depths (contractDeployDepth s) (contractUpdateDepth s + 1) (mldsaLoadCounter s) s, Ok tt).

Definition incrementMLDSALoadCounter (s : shared) : shared :=
  set_depths (contractDeployDepth s) (contractUpdateDepth s) (mldsaLoadCounter s + 1) s.

Definition getPointers (m : AddressMap PointerStorage) (a : Address) : PointerStorage :=
  default m_empty (m_get m a).

(** One contract of the access list: 32 bytes of key, 32 of value. *)
Definition parse_entry (acc : PointerStorage) (kv : string * string) : result vm_error PointerStorage :=
  match fromBase64 kv.1, fromBase64 kv.2 with
  | Ok key, Ok value =>
      if decide (length key = 32 ∧ length value = 32)%nat
      then Ok (m_set acc (be_combine key) (be_combine value)) else Throw CannotParseAccessList
  | _, _ => Throw CannotParseAccessList
  end.

Fixpoint parse_list (l : AccessList) : stx shared vm_error unit :=
  match l with
  | [] => mret tt
  | (address, keys) :: l' => fun s =>
      let contract := Address_fromString address in
      match rfold parse_entry (getPointers (storage s) contract) keys with
      | Ok current => parse_list l' (set_storage (m_set (storage s) contract current) s)
      | Throw e => (s, Throw e)
      end
  end.

Definition parseAccessList (l : option AccessList) : stx shared vm_error unit :=
  match l with Some l => parse_list l | None => mret tt end.

Definition fresh (p : ExecutionParameters) : evaluation :=
  mkEval p (p_memoryPagesUsed p) None m_empty 0 None None (m_set m_empty (p_contractAddress p) true).

Definition construct (p : ExecutionParameters) : stx shared vm_error evaluation :=
  _ ← (if p_isDeployment p then incrementContractDeployDepth else mret tt);
  _ ← (if p_isUpdate p then incrementContractUpdates else mret tt);
  _ ← smod (fun s => set_stack (AddressStack.push (callStack s) (p_contractAddress p)) s);
  _ ← (if p_externalCall p then mret tt else parseAccessList (p_accessList p));
  mret (fresh p).

(** *** Gas *)

Definition maxGas (s : shared) : Z := GasTracker.maxGas (gasTracker s).
Definition gasUsed (s : shared) : Z := GasTracker.gasUsed (gasTracker s).
Definition specialGasUsed (s : shared) : Z := GasTracker.specialGasUsed (gasTracker s).
Definition totalGasUsed (s : shared) : Z := gasUsed s + specialGasUsed s.
Definition paidMaximum (s : shared) : Z := GasTracker.paidMaximum (gasTracker s).
Definition combinedGas (v : evaluation) (s : shared) : Z :=
  GasTracker.combinedGas (gasTracker s) (externalCall v).
Definition maxGasVM (v : evaluation) (s : shared) : Z :=
  GasTracker.maxGasVM TX_MAX (gasTracker s) (externalCall v).

(** A throw of the tracker leaves it as it was. *)
Definition tracker_op (f : GasTracker.t → GasTracker.t * result gas_error unit) : op unit := fun fr =>
  match f (gasTracker fr.1) with
  | (g, Ok _) => ((set_tracker g fr.1, fr.2), Ok tt)
  | (g, Throw e) => ((set_tracker g fr.1, fr.2), Throw (VMGas e))
  end.

Definition setGasUsed (gas : Z) : op unit := fun fr =>
  tracker_op (fun g => GasTracker.setGasUsed TX_MAX g gas 0 (externalCall fr.2)
                         (Some (contractAddress fr.2))) fr.

Definition setFinalGasUsed (gas special : Z) : op unit :=
  tracker_op (fun g => GasTracker.setFinalGasUsed g gas special).

(** *** Revert *)

Definition REVERT_LIMIT : nat := 4096.

(** [set revert] *)
Definition set_revert (msg : string) (v : evaluation) : evaluation :=
  let buffer := getErrorAsBuffer msg in
  set_raw_revert (if decide (REVERT_LIMIT < length buffer)%nat
                  then getErrorAsBuffer "OP_NET: Revert error too long." else buffer) v.

Definition is_reverted (v : evaluation) : bool := bool_decide (is_Some (revert v)).

(** *** Addresses *)

Definition touchAddress (a : Address) (isContract : bool) (v : evaluation) : evaluation :=
  set_touched (m_set (touchedAddresses v) a isContract) v.
Definition touchedAddress (v : evaluation) (a : Address) : option bool := m_get (touchedAddresses v) a.

Definition isCallStackTooDeep (s : shared) : bool :=
  bool_decide (MAXIMUM_CALL_DEPTH TX ≤ AddressStack.length (callStack s)).

(** *** Storage *)

Definition setStorage (pointer value : Z) : op unit := fun fr =>
  let a := contractAddress fr.2 in
  on_shared (fun s => set_storage (m_set (storage s) a (m_set (getPointers (storage s) a) pointer value)) s) fr.

Definition addToStorage (pointer value : Z) : op unit := fun fr =>
  let a := contractAddress fr.2 in
  let current := getPointers (preloadStorage fr.1) a in
  match m_get current pointer with
  | Some _ => (fr, Throw StorageAlreadySet)
  | None =>
      on_shared (fun s => set_preload (m_set (preloadStorage s) a (m_set current pointer value)) s) fr
  end.

Definition getStorage (pointer : Z) (fr : frame) : option Z :=
  let a := contractAddress fr.2 in
  match m_get (storage fr.1) a with
  | None =>
      match m_get (preloadStorage fr.1) a with
      | Some inPreload => m_get inPreload pointer
      | None => None
      end
  | Some current =>
      match m_get current pointer with
      | Some v => Some v
      | None =>
          match m_get (preloadStorage fr.1) a with
          | Some inPreload => m_get inPreload pointer
          | None => None
          end
      end
  end.

(** Pointers and values in their numeric form; a pointer may come several times. *)
Definition preloadedStorage (l : list (Address * list (Z * option Z))) (s : shared) : shared :=
  foldl (fun s '(a, pointers) =>
    let current := foldl (fun c '(k, v) => m_set c k (default 0 v)) (getPointers (preloadStorage s) a) pointers in
    set_preload (m_set (preloadStorage s) a current) s) s l.

(** *** Events *)

Definition setTotalEventSize (size : Z) (v : evaluation) : result vm_error evaluation :=
  let newSize := totalEventSize v + size in
  if decide (MAXIMUM_TOTAL_EVENT_LENGTH TX < newSize) then Throw MaximumTotalEventLength
  else Ok (set_total newSize v).

Definition enforceEventLimits (e : NetEvent) (v : evaluation) : result vm_error evaluation :=
  if decide (MAXIMUM_EVENT_LENGTH TX < Z.of_nat (length (event_data e))) then Throw MaximumEventLength
  else if decide (MAXIMUM_EVENT_NAME_LENGTH TX < Z.of_nat (length (event_type e)))
       then Throw MaximumEventTypeLength
  else setTotalEventSize (Z.of_nat (length (event_data e))) v.

Definition emitEvent (e : NetEvent) : op unit := fun fr =>
  match enforceEventLimits e fr.2 with
  | Throw err => (fr, Throw err)
  | Ok v =>
      let a := contractAddress v in
      ((fr.1, set_events (m_set (events v) a (default [] (m_get (events v) a) ++ [e])) v), Ok tt)
  end.

(** The events of one contract.  The array of a key that is there already grows
    in place; that of a new key is put in the map at the end. *)
Fixpoint push_in_place (key : Address) (l : list NetEvent) (v : evaluation) : evaluation * result vm_error unit :=
  match l with
  | [] => (v, Ok tt)
  | e :: l' =>
      match enforceEventLimits e v with
      | Throw err => (v, Throw err)
      | Ok v =>
          push_in_place key l' (set_events (m_set (events v) key (default [] (m_get (events v) key) ++ [e])) v)
      end
  end.

Fixpoint push_new (l acc : list NetEvent) (v : evaluation) : evaluation * result vm_error (list NetEvent) :=
  match l with
  | [] => (v, Ok acc)
  | e :: l' =>
      match enforceEventLimits e v with
      | Throw err => (v, Throw err)
      | Ok v => push_new l' (acc ++ [e]) v
      end
  end.

Definition merge_key (key : Address) (l : list NetEvent) (v : evaluation) : evaluation * result vm_error unit :=
  match m_get (events v) key with
  | Some _ => push_in_place key l v
  | None =>
      match push_new l [] v with
      | (v, Ok current) => (set_events (m_set (events v) key current) v, Ok tt)
      | (v, Throw e) => (v, Throw e)
      end
  end.

Fixpoint merge_keys (l : list (Address * list NetEvent)) (v : evaluation) : evaluation * result vm_error unit :=
  match l with
  | [] => (v, Ok tt)
  | (key, es) :: l' =>
      match merge_key key es v with
      | (v, Ok _) => merge_keys l' v
      | (v, Throw e) => (v, Throw e)
      end
  end.

Definition mergeEvents (es : AddressMap (list NetEvent)) : op unit := fun fr =>
  let '(v, r) := merge_keys (m_entries es) fr.2 in ((fr.1, v), r).

(** *** Results *)

Definition merge_pointers (current : PointerStorageMap) (l : list (Z * Z)) : PointerStorageMap :=
  foldl (fun c kv => JsMap.set c kv.1 kv.2) current l.

Definition mergeStorage (l : list (Address * list (Z * Z))) (v : evaluation) : evaluation :=
  set_modified
    (foldl (fun m '(key, value) => m_set m key (merge_pointers (default [] (m_get m key)) value))
       (default m_empty (modifiedStorage v)) l) v.

(** The storage of the transaction, as [setModifiedStorage] walks it. *)
Definition storage_entries (s : shared) : list (Address * list (Z * Z)) :=
  (fun av => (av.1, m_entries av.2)) <$> m_entries (storage s).

Definition setResult (r : bytes) : op unit := fun fr =>
  ((fr.1, mergeStorage (storage_entries fr.1) (set_result r fr.2)), Ok tt).

(** [checkReentrancy]: the stack of the call that returned is the one stack of
    the transaction. *)
Definition checkReentrancy : op unit := fun fr =>
  if AddressStack.includes (callStack fr.1) (contractAddress fr.2) then (fr, Throw ReentrancyDetected)
  else (fr, Ok tt).

(** The tracker, the stack and the counters of [extern] are those of this call. *)
Definition merge (extern : evaluation) : op unit :=
  fr ← sget;
  _ ← tracker_op (fun g => GasTracker.setGasUsed TX_MAX g (gasUsed fr.1) 0 true
                             (Some (contractAddress fr.2)));
  match revert extern with
  | Some r => on_eval (set_raw_revert r)
  | None =>
      _ ← (if REENTRANCY_GUARD TX then checkReentrancy else mret tt);
      _ ← (match modifiedStorage extern with
           | Some m => on_eval (mergeStorage (m_entries m))
           | None => mret tt
           end);
      mergeEvents (events extern)
  end.

Definition addContractInformation (c : ContractInformation) : op unit := fun fr =>
  match m_get (deployedContracts fr.1) (contractPublicKey c) with
  | Some _ => (fr, Throw ContractAlreadyDeployed)
  | None => on_shared (fun s => set_deployed (m_set (deployedContracts s) (contractPublicKey c) c) s) fr
  end.

Definition deployedContract (s : shared) (a : Address) : bool :=
  bool_decide (is_Some (m_get (deployedContracts s) a)).

Definition getEvaluationResult (fr : frame) : EvaluatedResult :=
  let '(s, v) := fr in
  let reverted := is_reverted v in
  mkResult (if reverted then Some m_empty else modifiedStorage v) (preloadStorage s)
    (if reverted then Some [0] else ev_result v) (if reverted then m_empty else events v)
    (gasUsed s) (specialGasUsed s) (revert v)
    (if reverted then [] else (m_entries (deployedContracts s)).*2).

End ContractEvaluation.
End ContractEvaluation.

(** ** A library for concrete examples *)

#[local] Existing Instance string_btclib.

Definition example_vmlib : VMLib := {|
  AddressMaps := gmap_lib string;
  PointerMaps := gmap_lib Z;
  message := fun _ => "error";
  writeSelector := fun _ => [1];
  writeStringWithLength := fun s => [Z.of_nat (String.length s)];
  fromBase64 := fun _ => Throw ""
|}.
