(* ===== verification/Evaluator.v ===== *)
(** * Running a contract
    (vm/runtime/ContractEvaluator.ts, and the calls of vm/VMManager.ts it makes)

    A contract runs in a native module and asks the node for storage, calls and
    events.  What it does is a [session]: the requests it makes, each with a
    continuation for the answer, until it exits.  Sessions are arbitrary, so the
    theorems hold for any contract.  Calls of other contracts start sessions of
    their own; [fuel] bounds their nesting, and a bound that is always enough is
    proved in TransactionSafety.

    The binary form of requests and answers, the debug log and the inputs and
    outputs of the transaction are left out. *)

From S2P Require Import Prelude ConsensusRules Consensus Gas Evaluation.
Import Evaluation.ContractEvaluation.

(** ** What is asked of the rest of the node *)

Class VMHost `{VMLib} : Type := {
  (** [VMManager.getStorage] on behalf of a contract *)
  host_getStorage : Address → Z → result string (option Z);
  host_getStorageMultiple :
    list (Address * list Z) → result string (option (list (Address * list (Z * option Z))));
  (** [getContractInformation]; an error there means no contract *)
  host_getContract : Address → option ContractInformation;
  host_isContract : Address → result string bool;
  host_inContractCache : Address → bool;
  host_contractExists : Address → result string bool;
  (** [generateAddress], a hash of the salt, the deployer and the bytecode *)
  host_generateAddress : bytes → Address → bytes → Address;
  host_deployContract : ContractInformation → result string unit;
  host_getMLDSAPublicKey : Address → result string (option (Z * option bytes));
  host_getBlockHash : Z → result string (option bytes)
}.

(** The constants of the native module, and the levels of MLDSA keys. *)
Record VMConstants : Type := {
  NEW_STORAGE_SLOT_GAS_COST : Z;
  UPDATED_STORAGE_SLOT_GAS_COST : Z;
  MLDSA_key_length : Z → Z;
  MLDSA_enabled : Z → bool;
  MLDSA_MAX_LOADS : Z
}.

Section Sessions.
Context `{VMLib}.

Record CallResponse : Type := mkCall { c_isWarm : bool; c_gas : Z; c_status : Z; c_result : bytes }.
Record DeployResponse : Type := mkDeploy {
  d_address : Address; d_bytecodeLength : Z; d_gas : Z; d_status : Z; d_result : bytes }.
Record UpdateResponse : Type := mkUpdate {
  u_bytecodeLength : Z; u_gas : Z; u_status : Z; u_result : bytes }.

(** [used] is what [getUsedGas] answers afterwards, when it does. *)
Inductive session : Type :=
| Exit (status gas : Z) (data : bytes) (used : option Z)
| Reject (error : string) (used : option Z)
| Load (pointer : Z) (k : result vm_error (Z * bool) → session)
| Store (pointer value : Z) (k : session)
| Call (gas memory : Z) (to : Address) (calldata : bytes) (k : CallResponse → session)
| DeployAt (gas : Z) (template : Address) (salt calldata : bytes) (k : DeployResponse → session)
| UpdateFrom (gas : Z) (source : Address) (calldata : bytes) (k : UpdateResponse → session)
| Emit (e : NetEvent) (k : result vm_error unit → session)
| GetAccountType (a : Address) (k : result vm_error (Z * bool) → session)
| GetBlockHash (h : Z) (k : result vm_error bytes → session)
| LoadMLDSA (level : Z) (a : Address) (k : result vm_error (option bytes) → session).

(** A contract loaded: the gas used at the start, an error of the environment,
    and what it does. *)
Record instance : Type := mkInstance {
  i_used : option Z;
  i_environment : option string;
  i_session : session
}.

Inductive entry : Type := Execute | OnDeploy | OnUpdate.

Inductive ending : Type :=
| Exited (status gas : Z) (data : bytes)
| Rejected (error : string).
End Sessions.

Module ContractEvaluator.
Section ContractEvaluator.
Context `{VMHost} (TX : TransactionsConfig) (TX_MAX COLD_STORAGE_LOAD blockNumber : Z)
  (K : VMConstants).
(** The native module: a contract with its caller, the gas used, the limit, the
    memory and the calldata. *)
Context (instantiate : ContractInformation → entry → Address → Z → Z → Z → bytes → instance).

Local Abbreviation op := (stx frame vm_error).

Definition lift_host {A} (r : result string A) : op A :=
  slift (match r with Ok a => Ok a | Throw e => Throw (DatabaseError e) end).

(** [evaluation.revert = e as Error] *)
Definition revert_with (e : vm_error) : evaluation → evaluation := set_revert (message e).

(** ** Requests that do not call a contract *)

Definition getStorageState (pointer : Z) : op (option Z) :=
  fr ← sget; lift_host (host_getStorage (contractAddress fr.2) pointer).

Definition load (pointer : Z) : op (Z * bool) := fun fr =>
  match getStorage pointer fr with
  | Some v => (fr, Ok (v, false))
  | None =>
      (v ← getStorageState pointer;
       _ ← addToStorage pointer (default 0 v);
       mret (default 0 v, true)) fr
  end.

Definition store (pointer value : Z) : op unit := setStorage pointer value.

Definition onEvent (e : NetEvent) : op unit := emitEvent TX e.

Definition getAccountType (a : Address) : op (Z * bool) :=
  fr ← sget;
  match touchedAddress fr.2 a with
  | None =>
      isContract ← lift_host (host_isContract a);
      _ ← on_eval (touchAddress a isContract);
      mret (if (isContract : bool) then 1 else 0, false)
  | Some warm => mret (if (warm : bool) then 1 else 0, warm)
  end.

Definition getBlockHashImport (h : Z) : op bytes :=
  r ← lift_host (host_getBlockHash h);
  match r with Some b => (mret b : op bytes) | None => sthrow UnableToGetBlockHash end.

Definition loadMLDSA (level : Z) (a : Address) : op (option bytes) :=
  fr ← sget;
  if decide (MLDSA_MAX_LOADS K ≤ mldsaLoadCounter fr.1) then (mret None : op (option bytes))
  else
    (_ ← on_shared incrementMLDSALoadCounter;
     if negb (MLDSA_enabled K level) then (mret None : op (option bytes))
     else
       r ← lift_host (host_getMLDSAPublicKey a);
       mret (match r with
             | Some (level', Some key) =>
                 if decide (level' = level ∧ Z.of_nat (length key) = MLDSA_key_length K level)
                 then Some key else None
             | _ => None
             end)).

(** ** Other contracts *)

(** [VMManager.deployContractAtAddress].  The test for a contract that deploys
    itself compares two objects, and never holds.  A contract that exists is
    answered with the zero address. *)
Definition Address_zero : Address :=
  Address_fromString "0x0000000000000000000000000000000000000000000000000000000000000000".

Definition deployContractAtAddress (template : Address) (salt : bytes) : op (Address * Z) :=
  fr ← sget;
  match host_getContract template with
  | None => sthrow ContractNotFound
  | Some info =>
      let self := contractAddress fr.2 in
      let address := host_generateAddress salt self (drop 1 (bytecode info)) in
      if host_inContractCache address then sthrow AlreadyDeployedCache
      else if deployedContract fr.1 address then sthrow ContractAlreadyDeployed
      else
        exists_ ← lift_host (host_contractExists address);
        if (exists_ : bool) then mret (Address_zero, 0)
        else
          _ ← addContractInformation
                (mkInfo blockNumber address (bytecode info) (contractPublicKey info) salt self);
          mret (address, Z.of_nat (length (bytecode info)))
  end.

(** [setContractInformation] refuses a contract without bytecode. *)
Definition valid_information (c : ContractInformation) : bool := bool_decide (2 ≤ length (bytecode c))%nat.

Definition valid_contract (c : option ContractInformation) : option ContractInformation :=
  c ← c; if valid_information c then Some c else None.

(** The contract to call: one deployed by the transaction, or a stored one. *)
Definition find_contract (s : shared) (a : Address) : option ContractInformation :=
  match valid_contract (m_get (deployedContracts s) a) with
  | Some c => Some c
  | None => valid_contract (host_getContract a)
  end.

(** The parameters of a call made by a contract. *)
Definition call_params (v : evaluation) (to : Address) (calldata : bytes) (isDeployment isUpdate : bool)
  : ExecutionParameters :=
  mkParams to (contractAddress v) calldata true isDeployment isUpdate (memoryPagesUsed v)
    (p_accessList (params v)) None None.

Definition free_settings (v : evaluation) : bool :=
  match p_specialContract (params v) with Some c => freeGas c | None => false end.

(** ** The end of a run *)

(** [onExecutionResult], [processResult] *)
Definition processResult (status : Z) (data : bytes) : op unit := fun fr =>
  if decide (MAXIMUM_RECEIPT_LENGTH TX < Z.of_nat (length data))
  then on_eval (revert_with ReceiptTooLong) fr
  else if decide (status ≠ 0) then on_eval (set_raw_revert data) fr
  else if is_reverted fr.2 then (fr, Ok tt)
  else setResult data fr.

Definition onExecutionResult (e : ending) (used : option Z) : op unit := fun fr =>
  match e with
  | Exited status gas data =>
      (_ ← setGasUsed TX_MAX gas; processResult status data) fr
  | Rejected error =>
      let fallback fr := setGasUsed TX_MAX (paidMaximum fr.1) fr in
      let '(fr1, r) := match used with
                       | None => fallback fr
                       | Some gas =>
                           match setGasUsed TX_MAX gas fr with
                           | (fr', Ok _) => (fr', Ok tt)
                           | (fr', Throw _) => fallback fr'
                           end
                       end in
      match r with
      | Ok _ => on_eval (set_revert error) fr1
      | Throw err => (fr1, Throw err)
      end
  end.

(** [calculateGasCostStore]: the state of every pointer is read at the address of
    the evaluation, whatever contract it belongs to. *)
Definition slot_cost (isSpecial : bool) (gas cost value : Z) (key : Z) : op Z := fun fr =>
  let out : op Z := fun fr =>
    match setGasUsed TX_MAX (paidMaximum fr.1) fr with
    | (fr', Ok _) => (fr', Throw OutOfGasStorage)
    | (fr', Throw e) => (fr', Throw e)
    end in
  if negb isSpecial && bool_decide (maxGas fr.1 < gas + cost + UPDATED_STORAGE_SLOT_GAS_COST K)
  then out fr
  else
    (current ← getStorageState key;
     let cost := match current with
                 | None => cost + NEW_STORAGE_SLOT_GAS_COST K
                 | Some v => if decide (v = value) then cost else cost + UPDATED_STORAGE_SLOT_GAS_COST K
                 end in
     fr ← sget;
     if negb isSpecial && bool_decide (maxGas fr.1 < gas + cost) then out else mret cost) fr.

Fixpoint contract_cost (isSpecial : bool) (gas cost : Z) (l : list (Z * Z)) : op Z :=
  match l with
  | [] => mret cost
  | (key, value) :: l' => cost ← slot_cost isSpecial gas cost value key; contract_cost isSpecial gas cost l'
  end.

Definition is_special (v : evaluation) (a : Address) : bool :=
  match p_specialContract (params v) with
  | Some c => negb (externalCall v) && freeGas c && bool_decide (sc_address c = a)
  | None => false
  end.

Fixpoint storage_cost (l : list (Address * PointerStorageMap)) (total special : Z) : op (Z * Z) :=
  match l with
  | [] => mret (total, special)
  | (a, states) :: l' =>
      fr ← sget;
      let isSpecial := is_special fr.2 a in
      let gas := if isSpecial then specialGasUsed fr.1 + special else gasUsed fr.1 + total in
      cost ← contract_cost isSpecial gas 0 states;
      if isSpecial then storage_cost l' total (special + cost) else storage_cost l' (total + cost) special
  end.

Definition calculateGasCostStore : op unit :=
  fr ← sget;
  match modifiedStorage fr.2 with
  | None => mret tt
  | Some m =>
      totals ← storage_cost (m_entries m) 0 0;
      fr ← sget;
      setFinalGasUsed (gasUsed fr.1 + totals.1) (specialGasUsed fr.1 + totals.2)
  end.

Definition terminateEvaluation : op unit := fun fr =>
  if externalCall fr.2 || is_reverted fr.2 then (fr, Ok tt)
  else (_ ← calculateGasCostStore;
        fr ← sget;
        sfor (m_entries (deployedContracts fr.1)).*2 (fun c => lift_host (host_deployContract c))) fr.

(** [attemptToSetGasUsed], with the answer of [getUsedGas] when there is one. *)
Definition attemptToSetGasUsed (used : option Z) (fr : frame) : frame :=
  let gas := default (paidMaximum fr.1) used in
  if decide (gas < totalGasUsed fr.1) then fr else (setGasUsed TX_MAX gas fr).1.

Definition failed (used : option Z) (e : vm_error) (fr : frame) : frame :=
  let fr := attemptToSetGasUsed used fr in (fr.1, revert_with e fr.2).

(** ** The start of a run *)

Definition preloadPointers : op unit :=
  fr ← sget;
  match p_preloadStorageList (params fr.2) with
  | None => mret tt
  | Some l =>
      let total := foldl (fun n av => n + Z.of_nat (length av.2)) 0 l in
      if decide (maxGas fr.1 < COLD_STORAGE_LOAD * total) then sthrow PreloadExceedsGas
      else
        pointers ← lift_host (host_getStorageMultiple l);
        match pointers with
        | None => mret tt
        | Some p => on_shared (preloadedStorage p)
        end
  end.

Definition setEnvironment (i : instance) : op unit :=
  match i_used i with
  | None => sthrow (NativeModule "getUsedGas")
  | Some gas =>
      _ ← setGasUsed TX_MAX gas;
      match i_environment i with
      | Some e => sthrow (NativeModule e)
      | None => mret tt
      end
  end.

(** ** Calls *)

(** A computation that may run out of fuel. *)
Definition fueled (A : Type) : Type := frame → option (frame * result vm_error A).

Definition fueled_bind {A B} (c : fueled A) (k : A → fueled B) : fueled B := fun fr =>
  match c fr with
  | Some (fr', Ok a) => k a fr'
  | Some (fr', Throw e) => Some (fr', Throw e)
  | None => None
  end.
Definition fuel_lift {A} (c : op A) : fueled A := fun fr => Some (c fr).

Section Session.
(** [VMManager.callExternal] *)
Context (callExternal : ExecutionParameters → shared → option (shared * result vm_error evaluation)).

Definition internalCall (calldata : bytes) (isDeployment isUpdate : bool) (to : Address)
  : fueled (bool * bytes * Z * Z) := fun fr =>
  let isWarm := default false (touchedAddress fr.2 to) in
  match callExternal (call_params fr.2 to calldata isDeployment isUpdate) fr.1 with
  | None => None
  | Some (s, Throw e) => Some ((s, fr.2), Throw e)
  | Some (s, Ok response) =>
      Some ((_ ← merge TX TX_MAX response;
             fr ← sget;
             let status := if is_reverted response then 1 else 0 in
             let result := default [] (if is_reverted response then revert response else ev_result response) in
             mret (isWarm, result, status, gasUsed fr.1)) (s, fr.2))
  end.

(** An error in the node is an error of the call: the caller is reverted. *)
Definition call (gas memory : Z) (to : Address) (calldata : bytes) (fr : frame) : option (frame * CallResponse) :=
  match fueled_bind (fuel_lift (_ ← setGasUsed TX_MAX gas;
                                _ ← on_eval (set_memory memory);
                                fr ← sget;
                                if isCallStackTooDeep TX fr.1 then sthrow CallStackTooDeep else mret tt))
          (fun _ => internalCall calldata false false to) fr with
  | None => None
  | Some (fr, Ok (isWarm, result, status, used)) =>
      Some (fr, mkCall isWarm (if free_settings fr.2 then 0 else used - gas) status result)
  | Some (fr, Throw e) =>
      Some ((fr.1, revert_with e fr.2), mkCall false (gasUsed fr.1 - gas) 1 [])
  end.

Definition lift_counter (c : stx shared vm_error unit) : op unit := fun fr =>
  let '(s, r) := c fr.1 in ((s, fr.2), r).

(** The gas reported by a failure is counted from [usedGas], which is the gas of
    the request once it was read. *)
Definition deployContractFromAddressRaw (gas : Z) (template : Address) (salt calldata : bytes) (fr : frame)
  : option (frame * DeployResponse) :=
  let fail (usedGas : Z) (e : vm_error) (fr : frame) :=
    let v := revert_with e fr.2 in
    Some ((fr.1, v), mkDeploy Address_dead 0 (gasUsed fr.1 - usedGas) 1 (default [] (revert v))) in
  match lift_counter (incrementContractDeployDepth TX) fr with
  | (fr', Throw e) => fail (gasUsed fr.1) e fr'
  | (fr', Ok _) =>
      match fueled_bind (fuel_lift (_ ← setGasUsed TX_MAX gas;
                                    d ← deployContractAtAddress template salt;
                                    if decide (d.1 = Address_dead) then sthrow DeploymentFailed else mret d))
              (fun d => fueled_bind (internalCall calldata true false d.1)
                          (fun r fr => Some (fr, Ok (d, r)))) fr' with
      | None => None
      | Some (fr, Ok (d, (_, result, status, used))) =>
          Some (fr, mkDeploy d.1 d.2 (if free_settings fr.2 then 0 else used - gas) status result)
      | Some (fr, Throw e) => fail gas e fr
      end
  end.

(** [updateFromAddressJsFunction] is never given an implementation. *)
Definition updateContractFromAddressRaw (gas : Z) (source : Address) (calldata : bytes) (fr : frame)
  : frame * UpdateResponse :=
  let fail (usedGas : Z) (e : vm_error) (fr : frame) :=
    let v := revert_with e fr.2 in
    ((fr.1, v), mkUpdate 0 (gasUsed fr.1 - usedGas) 1 (default [] (revert v))) in
  match lift_counter (incrementContractUpdates TX) fr with
  | (fr', Throw e) => fail (gasUsed fr.1) e fr'
  | (fr', Ok _) =>
      match setGasUsed TX_MAX gas fr' with
      | (fr'', Throw e) => fail gas e fr''
      | (fr'', Ok _) => fail gas MethodNotImplemented fr''
      end
  end.

(** The requests of a contract, in turn. *)
Fixpoint serve (s : session) (fr : frame) : option (frame * (ending * option Z)) :=
  match s with
  | Exit status gas data used => Some (fr, (Exited status gas data, used))
  | Reject error used => Some (fr, (Rejected error, used))
  | Load p k => let '(fr, r) := load p fr in serve (k r) fr
  | Store p v k => serve k (store p v fr).1
  | Call gas memory to calldata k =>
      match call gas memory to calldata fr with Some (fr, r) => serve (k r) fr | None => None end
  | DeployAt gas template salt calldata k =>
      match deployContractFromAddressRaw gas template salt calldata fr with
      | Some (fr, r) => serve (k r) fr | None => None end
  | UpdateFrom gas source calldata k =>
      let '(fr, r) := updateContractFromAddressRaw gas source calldata fr in serve (k r) fr
  | Emit e k => let '(fr, r) := onEvent e fr in serve (k r) fr
  | GetAccountType a k => let '(fr, r) := getAccountType a fr in serve (k r) fr
  | GetBlockHash h k => let '(fr, r) := getBlockHashImport h fr in serve (k r) fr
  | LoadMLDSA level a k => let '(fr, r) := loadMLDSA level a fr in serve (k r) fr
  end.

(** [run]: what the constructor throws is thrown; what happens after it is in the
    evaluation. *)
Definition run (c : ContractInformation) (p : ExecutionParameters) (s : shared)
  : option (shared * result vm_error evaluation) :=
  match construct TX p s with
  | (s, Throw e) => Some (s, Throw e)
  | (s, Ok v) =>
      let fr := (s, v) in
      let done (fr : frame) := Some (fr.1, Ok fr.2) in
      if decide (maxGas s - gasUsed s < 0) then done (failed None InvalidContractBytecode fr)
      else
        let entry := if p_isDeployment p then OnDeploy else if p_isUpdate p then OnUpdate else Execute in
        let i := instantiate c entry (p_msgSender p) (combinedGas v s) (maxGasVM TX_MAX v s)
                   (memoryPagesUsed v) (p_calldata p) in
        match (_ ← setEnvironment i; preloadPointers) fr with
        | (fr, Throw e) => done (failed (i_used i) e fr)
        | (fr, Ok _) =>
            match serve (i_session i) fr with
            | None => None
            | Some (fr, (e, used)) =>
                match (_ ← onExecutionResult e used; terminateEvaluation) fr with
                | (fr, Throw e) => done (failed used e fr)
                | (fr, Ok _) => done fr
                end
            end
        end
  end.
End Session.

(** [executeCallInternal], which runs what it calls in turn. *)
Fixpoint executeCallInternal (fuel : nat) (p : ExecutionParameters) (s : shared)
  : option (shared * result vm_error evaluation) :=
  match fuel with
  | O => None
  | S fuel =>
      match find_contract s (p_contractAddress p) with
      | None => Some (s, Throw InvalidContract)
      | Some c => run (executeCallInternal fuel) c p s
      end
  end.

End ContractEvaluator.
End ContractEvaluator.
