(* ===== verification/EvaluatorFacts.v ===== *)
(** * What holds of a transaction, whatever its contracts do

    Every operation of an evaluation only lets it evolve in a few ways: these are
    gathered in [evolves], proved of each request, and carried to the calls of
    calls by induction on the fuel. *)

From S2P Require Import Prelude ConsensusRules Consensus Gas Evaluation Evaluator.
Import ContractEvaluation ContractEvaluator.

(** ** Maps *)

Section Maps.
Context `{MapLib K} {V : Type}.
Implicit Types (m : MapOf V) (k : K) (v : V).

Lemma m_entries_set m k v :
  m_entries (m_set m k v) ≡ₚ (k, v) :: filter (fun kv => kv.1 ≠ k) (m_entries m).
Proof.
  apply NoDup_Permutation.
  - apply (NoDup_fmap_1 fst), m_entries_nodup.
  - constructor.
    + rewrite list_elem_of_filter. naive_solver.
    + apply NoDup_filter. apply (NoDup_fmap_1 fst), m_entries_nodup.
  - intros [k' v']. rewrite elem_of_cons, list_elem_of_filter, !m_entries_get, m_get_set. cbn.
    case_decide; naive_solver.
Qed.

Lemma m_entries_split m k :
  m_entries m ≡ₚ (match m_get m k with Some v => [(k, v)] | None => [] end) ++
    filter (fun kv => kv.1 ≠ k) (m_entries m).
Proof.
  apply NoDup_Permutation.
  - apply (NoDup_fmap_1 fst), m_entries_nodup.
  - apply NoDup_app. split_and!.
    + destruct (m_get m k); [apply NoDup_singleton|constructor].
    + intros [k' v'] Hin. rewrite list_elem_of_filter. destruct (m_get m k); set_solver.
    + apply NoDup_filter, (NoDup_fmap_1 fst), m_entries_nodup.
  - intros [k' v']. rewrite elem_of_app, list_elem_of_filter, !m_entries_get. cbn.
    destruct (decide (k' = k)) as [->|].
    + destruct (m_get m k); set_solver.
    + destruct (m_get m k); set_solver.
Qed.
End Maps.

(** ** A property of operations that goes through binds

    The parts of an operation, found by its binds and its conditions; the rule of
    the bind and the hints of the property are given. *)

Create HintDb keeps.
Create HintDb quiet.

Ltac by_parts bind hints :=
  repeat (intros; lazymatch goal with
          | |- _ (_ ≫= _) => apply bind
          | |- _ (if ?b then _ else _) => destruct b
          | |- _ (match ?x with _ => _ end) => destruct x
          | |- _ => solve [hints ()]
          end).

(** ** What the node promises its contracts: several slots are read as one is

    A pointer may come several times in the answer, and its last value counts. *)

Definition last_entry {V} (l : list (Z * V)) (k : Z) : option V :=
  snd <$> last (filter (fun kv => kv.1 = k) l).

Lemma last_entry_snoc {V} (l : list (Z * V)) k' v k :
  last_entry (l ++ [(k', v)]) k = if decide (k' = k) then Some v else last_entry l k.
Proof.
  unfold last_entry. rewrite filter_app. cbn. case_decide; [by rewrite last_snoc|by rewrite app_nil_r].
Qed.

Class VMHostLaws `{VMHost} : Prop := {
  host_multiple l p a pointers k o :
    host_getStorageMultiple l = Ok (Some p) → (a, pointers) ∈ p → last_entry pointers k = Some o →
    host_getStorage a k = Ok o
}.

(** ** What evolves *)

Section Evolution.
Context {LB : BtcLib} {LV : @VMLib LB} {LH : @VMHost LB LV} {LL : @VMHostLaws LB LV LH}
  (TX : TransactionsConfig) (TX_MAX : Z).
Implicit Types (s : shared) (fr : frame) (a : Address).

(** A slot of the transaction's storage, of what was preloaded, and of a changed
    storage. *)
Definition stored s a (k : Z) : option Z := m_get (getPointers (storage s) a) k.
Definition preloaded s a (k : Z) : option Z := m_get (getPointers (preloadStorage s) a) k.
Definition changed (m : AddressMap PointerStorageMap) a (k : Z) : option Z :=
  JsMap.get (default [] (m_get m a)) k.

(** The value a contract sees in a slot. *)
Definition view s a (k : Z) : option Z :=
  match stored s a k with
  | Some v => Some v
  | None => match host_getStorage a k with Ok o => Some (default 0 o) | Throw _ => None end
  end.

(** What was preloaded is what the node has. *)
Definition coherent s : Prop :=
  ∀ a k v, preloaded s a k = Some v → ∃ o, host_getStorage a k = Ok o ∧ v = default 0 o.

(** The shared state only grows: contracts are pushed on the stack and never
    popped, slots are never removed, and only a contract on the stack, or of
    [own], has its storage changed. *)
Record s_evolves (own : list Address) s s' : Prop := {
  se_stack : ∃ l, callStack s' = callStack s ++ l ∧
    ∀ a k, a ∉ own → a ∉ l → stored s' a k = stored s a k;
  se_stored a k : is_Some (stored s a k) → is_Some (stored s' a k);
  se_depth : contractDeployDepth s ≤ contractDeployDepth s';
  se_coherent : coherent s → coherent s';
  se_tracker g0 : reached TX_MAX g0 (gasTracker s) → reached TX_MAX g0 (gasTracker s')
}.

(** The data of an event, summed. *)
Definition data_size (l : list NetEvent) : nat := sum_list_with (fun e => length (event_data e)) l.
Definition events_size (m : AddressMap (list NetEvent)) : nat :=
  sum_list_with (fun al => data_size al.2) (m_entries m).

Definition event_ok (e : NetEvent) : Prop :=
  Z.of_nat (length (event_data e)) ≤ MAXIMUM_EVENT_LENGTH TX ∧
  Z.of_nat (length (event_type e)) ≤ MAXIMUM_EVENT_NAME_LENGTH TX.

Definition events_ok (m : AddressMap (list NetEvent)) : Prop :=
  ∀ a l, m_get m a = Some l → Forall event_ok l.

(** An evaluation is well formed: what it changed is in the storage of the
    transaction, once for each slot, and its events are within the limits. *)
Record well_formed fr : Prop := {
  wf_modified m a k : modifiedStorage fr.2 = Some m → is_Some (changed m a k) → is_Some (stored fr.1 a k);
  wf_maps m a : modifiedStorage fr.2 = Some m → JsMap.wf (default [] (m_get m a));
  wf_events : events_ok (events fr.2);
  wf_size : Z.of_nat (events_size (events fr.2)) ≤ totalEventSize fr.2;
  wf_total : totalEventSize fr.2 ≤ MAXIMUM_TOTAL_EVENT_LENGTH TX
}.

Record evolves fr fr' : Prop := {
  ev_params : params fr'.2 = params fr.2;
  ev_shared : s_evolves [contractAddress fr.2] fr.1 fr'.1;
  ev_revert : is_Some (revert fr.2) → is_Some (revert fr'.2);
  ev_wf : well_formed fr → well_formed fr'
}.

#[export] Instance s_evolves_refl own : Reflexive (s_evolves own).
Proof. intros s. split; auto; [|lia]. exists []. by rewrite app_nil_r. Qed.

#[export] Instance s_evolves_trans own : Transitive (s_evolves own).
Proof.
  intros s1 s2 s3 [(l1 & E1 & H1) D1 P1 C1 T1] [(l2 & E2 & H2) D2 P2 C2 T2].
  split; auto; [|lia]. exists (l1 ++ l2). rewrite E2, E1, app_assoc. split; [done|].
  intros a k Ho Hl. rewrite H2, H1 by set_solver. done.
Qed.

#[export] Instance evolves_refl : Reflexive evolves.
Proof. intros fr. by split. Qed.

#[export] Instance evolves_trans : Transitive evolves.
Proof.
  intros fr1 fr2 fr3 [P1 S1 R1 W1] [P2 S2 R2 W2]. split; auto; [congruence|].
  transitivity fr2.1; [done|]. unfold contractAddress in *. by rewrite P1 in S2.
Qed.

(** What a call did is something its caller did. *)
Lemma s_evolves_callee own s s' : s_evolves [] s s' → s_evolves own s s'.
Proof.
  intros [(l & E & Hl) D P C T]. split; auto. exists l. split; [done|].
  intros a k _ Ha. apply Hl; [apply not_elem_of_nil|done].
Qed.

Definition keeps {A} (c : op A) : Prop := ∀ fr, evolves fr (c fr).1.

Lemma keeps_ret {A} (x : A) : keeps (mret x).
Proof. intros fr. reflexivity. Qed.
Lemma keeps_get : keeps sget.
Proof. intros fr. reflexivity. Qed.
Lemma keeps_throw {A} e : keeps (sthrow (A := A) e).
Proof. intros fr. reflexivity. Qed.
Lemma keeps_host {A} (r : result string A) : keeps (lift_host r).
Proof. intros fr. reflexivity. Qed.

Lemma keeps_bind {A B} (c : op A) (k : A → op B) :
  keeps c → (∀ x, keeps (k x)) → keeps (c ≫= k).
Proof.
  intros Hc Hk fr. specialize (Hc fr). unfold mbind, stx_bind.
  destruct (c fr) as [fr' [x|e]]; [|done]. transitivity fr'; [done|]. apply Hk.
Qed.

(** ** The requests of a contract, each in turn *)

Lemma s_evolves_frame own s s' :
  callStack s' = callStack s → storage s' = storage s → preloadStorage s' = preloadStorage s →
  contractDeployDepth s ≤ contractDeployDepth s' →
  (∀ g0, reached TX_MAX g0 (gasTracker s) → reached TX_MAX g0 (gasTracker s')) →
  s_evolves own s s'.
Proof.
  intros E1 E2 E3 D T.
  split; unfold stored, coherent, preloaded; rewrite ?E1, ?E2, ?E3; auto.
  exists []. by rewrite app_nil_r.
Qed.

Lemma evolves_shared fr s' : s_evolves [contractAddress fr.2] fr.1 s' → evolves fr (s', fr.2).
Proof.
  intros Hs. split; auto. intros [M W E S T]. split; auto. intros m a k Hm Hc.
  eapply se_stored; [exact Hs|]. eauto.
Qed.

Lemma evolves_eval fr v' :
  params v' = params fr.2 → modifiedStorage v' = modifiedStorage fr.2 → events v' = events fr.2 →
  totalEventSize v' = totalEventSize fr.2 → (is_Some (revert fr.2) → is_Some (revert v')) →
  evolves fr (fr.1, v').
Proof.
  intros E1 E2 E3 E4 E5. split; auto; [reflexivity|]. intros [M W E S T].
  split; cbn; rewrite ?E2, ?E3, ?E4; auto.
Qed.

Lemma keeps_tracker gas special ext from :
  keeps (tracker_op (fun g => GasTracker.setGasUsed TX_MAX g gas special ext from)).
Proof.
  intros fr. unfold tracker_op.
  destruct (GasTracker.setGasUsed _ _ _ _ _ _) as [g' [[]|e]] eqn:Eg; apply evolves_shared;
    apply s_evolves_frame; try done; cbn [set_tracker gasTracker]; intros g0 Hr.
  - eapply reached_step; eauto.
  - pose proof (setGasUsed_spec TX_MAX (gasTracker fr.1) gas special ext from) as (_ & _ & Hthrow).
    rewrite Eg in Hthrow. cbn in Hthrow. by rewrite Hthrow by done.
Qed.

Lemma keeps_setGasUsed g : keeps (setGasUsed TX_MAX g).
Proof. intros fr. unfold setGasUsed. apply keeps_tracker. Qed.

Lemma keeps_revert_with e : keeps (on_eval (revert_with e)).
Proof. intros fr. by apply evolves_eval. Qed.

Lemma stored_setStorage p x fr a k :
  stored (setStorage p x fr).1.1 a k =
    if decide (contractAddress fr.2 = a ∧ p = k) then Some x else stored fr.1 a k.
Proof.
  unfold stored, setStorage, on_shared, smod, getPointers. cbn. rewrite m_get_set.
  destruct (decide (contractAddress fr.2 = a)) as [<-|]; cbn.
  - rewrite m_get_set. destruct (decide (p = k)); [by rewrite decide_True|by rewrite decide_False by naive_solver].
  - rewrite decide_False by naive_solver. done.
Qed.

Lemma keeps_store p x : keeps (store p x).
Proof.
  intros fr. unfold store.
  assert (∃ s', (setStorage p x fr).1 = (s', fr.2) ∧ callStack s' = callStack fr.1 ∧
    preloadStorage s' = preloadStorage fr.1 ∧ contractDeployDepth s' = contractDeployDepth fr.1 ∧
    gasTracker s' = gasTracker fr.1) as (s' & Es & E1 & E2 & E3 & E4) by (by eexists).
  pose proof (stored_setStorage p x fr) as Hst. rewrite Es in *. cbn in Hst.
  apply evolves_shared. split.
  - exists []. rewrite app_nil_r. split; [done|]. intros a k Ha _. rewrite Hst.
    rewrite decide_False by set_solver. done.
  - intros a k. rewrite Hst. case_decide; [by eexists|done].
  - lia.
  - unfold coherent, preloaded. by rewrite E2.
  - by rewrite E4.
Qed.

Lemma getStorage_layers p fr :
  getStorage p fr = match stored fr.1 (contractAddress fr.2) p with
                    | Some x => Some x
                    | None => preloaded fr.1 (contractAddress fr.2) p
                    end.
Proof.
  unfold getStorage, stored, preloaded, getPointers.
  destruct (m_get (storage fr.1) _) as [c|]; cbn; rewrite ?m_get_empty;
    destruct (m_get (preloadStorage fr.1) _) as [c'|]; cbn; rewrite ?m_get_empty; try done;
    by destruct (m_get c p).
Qed.

(** A cold load adds to what was preloaded the value of the node. *)
Lemma load_cases p fr :
  (∃ x, getStorage p fr = Some x ∧ load p fr = (fr, Ok (x, false))) ∨
  (getStorage p fr = None ∧ ∃ o, host_getStorage (contractAddress fr.2) p = Ok o ∧
     ∃ s', load p fr = ((s', fr.2), Ok (default 0 o, true)) ∧
       storage s' = storage fr.1 ∧ callStack s' = callStack fr.1 ∧ gasTracker s' = gasTracker fr.1 ∧
       contractDeployDepth s' = contractDeployDepth fr.1 ∧
       ∀ a k, preloaded s' a k = if decide (contractAddress fr.2 = a ∧ p = k) then Some (default 0 o)
                                 else preloaded fr.1 a k) ∨
  (getStorage p fr = None ∧ ∃ e, host_getStorage (contractAddress fr.2) p = Throw e ∧
     load p fr = (fr, Throw (DatabaseError e))).
Proof.
  unfold load. destruct (getStorage p fr) as [x|] eqn:Eg; [left; by exists x|]. right.
  unfold getStorageState, lift_host, slift, sget, mbind, stx_bind.
  destruct (host_getStorage _ p) as [o|e]; [left|right; by eauto].
  split; [done|]. exists o. split; [done|].
  rewrite getStorage_layers in Eg. unfold stored, preloaded in Eg.
  destruct (m_get (getPointers (storage fr.1) _) p); [done|]. unfold addToStorage. rewrite Eg.
  eexists. split; [reflexivity|]. cbn. split_and!; try done.
  intros a k. unfold preloaded, getPointers. cbn. rewrite m_get_set.
  destruct (decide (contractAddress fr.2 = a)) as [<-|]; cbn.
  - rewrite m_get_set. destruct (decide (p = k)); [by rewrite decide_True|by rewrite decide_False by naive_solver].
  - rewrite decide_False by naive_solver. done.
Qed.

Lemma keeps_load p : keeps (load p).
Proof.
  intros fr. destruct (load_cases p fr) as [(x & _ & ->)|[(_ & o & Eo & s' & -> & E1 & E2 & E3 & E4 & Hp)|(_ & e & _ & ->)]];
    [reflexivity| |reflexivity].
  apply evolves_shared. split.
  - exists []. rewrite app_nil_r. split; [done|]. intros a k _ _. unfold stored. by rewrite E1.
  - intros a k. unfold stored. by rewrite E1.
  - lia.
  - intros Hc a k x. rewrite Hp. case_decide as Hd; [|apply Hc].
    intros [= <-]. destruct Hd as [<- <-]. by exists o.
  - by rewrite E3.
Qed.

(** *** Events *)

Lemma events_size_set (m : AddressMap (list NetEvent)) a l :
  (events_size (m_set m a l) + data_size (default [] (m_get m a)) = events_size m + data_size l)%nat.
Proof.
  unfold events_size. rewrite m_entries_set.
  assert (∀ f, sum_list_with f (m_entries m) = sum_list_with f _) as -> by (intros f; by rewrite (m_entries_split m a)).
  rewrite sum_list_with_app. cbn. destruct (m_get m a); cbn; unfold data_size; lia.
Qed.

Lemma data_size_app l l' : data_size (l ++ l') = (data_size l + data_size l')%nat.
Proof. apply sum_list_with_app. Qed.

(** What an evaluation has besides its events. *)
Definition same_but_events v v' : Prop :=
  params v' = params v ∧ modifiedStorage v' = modifiedStorage v ∧ revert v' = revert v.

#[local] Instance same_but_events_refl : Reflexive same_but_events.
Proof. by intros v. Qed.
#[local] Instance same_but_events_trans : Transitive same_but_events.
Proof. intros v1 v2 v3 (? & ? & ?) (? & ? & ?). split_and!; congruence. Qed.

(** Events within their limits, with [extra] counted and not yet there. *)
Definition events_wf (extra : nat) v : Prop :=
  events_ok (events v) ∧ Z.of_nat (events_size (events v) + extra) ≤ totalEventSize v ∧
  totalEventSize v ≤ MAXIMUM_TOTAL_EVENT_LENGTH TX.

Definition events_evolve v v' : Prop :=
  same_but_events v v' ∧ (events_wf 0 v → events_wf 0 v').

#[local] Instance events_evolve_refl : Reflexive events_evolve.
Proof. by intros v. Qed.
#[local] Instance events_evolve_trans : Transitive events_evolve.
Proof. intros v1 v2 v3 [? ?] [? ?]. split; [by etransitivity|auto]. Qed.

Lemma evolves_events fr v' : events_evolve fr.2 v' → evolves fr (fr.1, v').
Proof.
  intros [(E1 & E2 & E3) W]. split; cbn; rewrite ?E3; auto; [reflexivity|].
  intros [M Wm E S T]. destruct W as (? & ? & ?); [unfold events_wf; split_and!; auto; lia|].
  split; auto; cbn; [by rewrite E2..|lia].
Qed.

Lemma enforceEventLimits_ok n e v v' :
  enforceEventLimits TX e v = Ok v' → event_ok e ∧ same_but_events v v' ∧ events v' = events v ∧
  (events_wf n v → events_wf (n + length (event_data e)) v').
Proof.
  unfold enforceEventLimits, setTotalEventSize.
  repeat (case_decide; [done|]). intros [= <-]. unfold event_ok, events_wf, same_but_events.
  cbn. split_and!; try done; try lia. intros (? & ? & ?). split_and!; auto; lia.
Qed.

(** The events counted come in. *)
Lemma events_add v a l :
  Forall event_ok l → events_wf (data_size l) v →
  events_wf 0 (set_events (m_set (events v) a (default [] (m_get (events v) a) ++ l)) v).
Proof.
  intros Hl (Hok & Hs & Ht). unfold events_wf. cbn.
  pose proof (events_size_set (events v) a (default [] (m_get (events v) a) ++ l)) as Hset.
  rewrite data_size_app in Hset. split_and!; [|lia|done].
  intros a' l'. rewrite m_get_set. case_decide; [|apply Hok]. intros [= <-].
  apply Forall_app. split; [|done].
  destruct (m_get (events v) a) eqn:E; cbn; [by eapply Hok|constructor].
Qed.

Lemma data_size_one e : data_size [e] = length (event_data e).
Proof. cbn. lia. Qed.

Lemma keeps_onEvent e : keeps (onEvent TX e).
Proof.
  intros fr. unfold onEvent, emitEvent.
  destruct (enforceEventLimits TX e fr.2) as [v|err] eqn:E; [|reflexivity].
  destruct (enforceEventLimits_ok 0 _ _ _ E) as (He & Hs & Ev & Hw).
  apply evolves_events. split; [exact Hs|]. intros Hwf. apply events_add; [by apply Forall_singleton|].
  rewrite data_size_one. by apply Hw.
Qed.

Lemma push_in_place_evolves key l v : events_evolve v (push_in_place TX key l v).1.
Proof.
  revert v. induction l as [|e l IH]; intros v; [reflexivity|]. cbn.
  destruct (enforceEventLimits TX e v) as [v'|err] eqn:E; [|reflexivity].
  destruct (enforceEventLimits_ok 0 _ _ _ E) as (He & Hs & Ev & Hw).
  etransitivity; [|apply IH]. split; [exact Hs|]. intros Hwf.
  apply events_add; [by apply Forall_singleton|]. rewrite data_size_one. by apply Hw.
Qed.

Lemma events_wf_drop n v : events_wf n v → events_wf 0 v.
Proof. intros (? & ? & ?). repeat split; auto. lia. Qed.

Lemma push_new_evolves l acc v :
  Forall event_ok acc →
  let '(v', r) := push_new TX l acc v in
  same_but_events v v' ∧ events v' = events v ∧
  (events_wf (data_size acc) v → events_wf 0 v') ∧
  match r with
  | Ok acc' => Forall event_ok acc' ∧ (events_wf (data_size acc) v → events_wf (data_size acc') v')
  | Throw _ => True
  end.
Proof.
  revert acc v. induction l as [|e l IH]; intros acc v Hacc; cbn.
  - split; [done|]. split; [done|]. split; [apply events_wf_drop|]. by split.
  - destruct (enforceEventLimits TX e v) as [v'|err] eqn:E.
    + destruct (enforceEventLimits_ok (data_size acc) _ _ _ E) as (He & Hs & Ev & Hw).
      specialize (IH (acc ++ [e]) v'). destruct (push_new TX l (acc ++ [e]) v') as [v'' r].
      destruct IH as (I1 & I2 & I3 & I4); [by apply Forall_app; rewrite Forall_singleton|].
      rewrite data_size_app, data_size_one in *. split; [by etransitivity|]. split; [congruence|].
      split; [auto|]. destruct r; [|done]. destruct I4. auto.
    + split; [done|]. split; [done|]. split; [apply events_wf_drop|done].
Qed.

Lemma merge_key_evolves key l v : events_evolve v (merge_key TX key l v).1.
Proof.
  unfold merge_key. destruct (m_get (events v) key) as [l0|] eqn:Ek; [apply push_in_place_evolves|].
  pose proof (push_new_evolves l [] v (Forall_nil_2 _)) as Hp.
  destruct (push_new TX l [] v) as [v' [current|e]]; destruct Hp as (H1 & H2 & H3 & H4); cbn.
  - destruct H4 as [Hc Hw]. split; [exact H1|]. intros Hv.
    pose proof (events_add v' key current Hc (Hw Hv)) as Hadd. rewrite H2, Ek in Hadd. by rewrite H2.
  - by split.
Qed.

Lemma keeps_mergeEvents es : keeps (mergeEvents TX es).
Proof.
  intros fr. unfold mergeEvents.
  assert (∀ l v, events_evolve v (merge_keys TX l v).1) as Hl.
  { induction l as [|[key l'] l IH]; intros v; [reflexivity|]. cbn.
    pose proof (merge_key_evolves key l' v) as Hk.
    destruct (merge_key TX key l' v) as [v' [[]|e]]; [|exact Hk]. etransitivity; [exact Hk|apply IH]. }
  specialize (Hl (m_entries es) fr.2). destruct (merge_keys TX (m_entries es) fr.2) as [v' r].
  by apply evolves_events.
Qed.

(** *** The changed storage *)

Definition merge_all (m : AddressMap PointerStorageMap) (l : list (Address * list (Z * Z))) :=
  foldl (fun m '(key, value) => m_set m key (merge_pointers (default [] (m_get m key)) value)) m l.

Lemma modified_mergeStorage l v :
  modifiedStorage (mergeStorage l v) = Some (merge_all (default m_empty (modifiedStorage v)) l).
Proof. done. Qed.

Lemma changed_empty a k : changed m_empty a k = None.
Proof. unfold changed. by rewrite m_get_empty. Qed.

Lemma merge_pointers_other c l k : k ∉ l.*1 → JsMap.get (merge_pointers c l) k = JsMap.get c k.
Proof.
  unfold merge_pointers. revert c. induction l as [|[k' x'] l IH]; intros c; cbn; [done|].
  intros Hk. apply not_elem_of_cons in Hk as [Hne Hk]. rewrite IH by done.
  by apply JsMap.get_set_ne.
Qed.

Lemma merge_pointers_in c l k x :
  NoDup l.*1 → (k, x) ∈ l → JsMap.get (merge_pointers c l) k = Some x.
Proof.
  unfold merge_pointers. revert c. induction l as [|[k' x'] l IH]; intros c; cbn.
  - by intros _ ?%not_elem_of_nil.
  - intros [Hk Hl]%NoDup_cons [[= -> ->]|Hin]%elem_of_cons; [|by apply IH].
    pose proof (merge_pointers_other (JsMap.set c k' x') l k' Hk) as Ho.
    unfold merge_pointers in Ho. rewrite Ho. apply JsMap.get_set_eq.
Qed.

Lemma merge_all_other m l a k :
  (∀ value, (a, value) ∈ l → k ∉ value.*1) → changed (merge_all m l) a k = changed m a k.
Proof.
  unfold merge_all. revert m. induction l as [|[b value] l IH]; intros m Hl; cbn; [done|].
  rewrite IH by (intros value' Hv; apply Hl; by right).
  unfold changed. rewrite m_get_set. case_decide as Hb; [|done]. subst b. cbn.
  apply merge_pointers_other, Hl. by left.
Qed.

Lemma merge_all_in m l a k value x :
  NoDup l.*1 → NoDup value.*1 → (a, value) ∈ l → (k, x) ∈ value → changed (merge_all m l) a k = Some x.
Proof.
  intros Hl Hv Ha Hk. revert m Hl. induction l as [|[b value'] l IH]; intros m; cbn.
  - by apply not_elem_of_nil in Ha.
  - intros [Hb Hl]%NoDup_cons. apply elem_of_cons in Ha as [[= <- <-]|Ha]; [|by apply IH].
    etransitivity; [apply (merge_all_other (m_set m a (merge_pointers (default [] (m_get m a)) value)) l)|].
    { intros value' Hin. exfalso. apply Hb, list_elem_of_fmap. by exists (a, value'). }
    unfold changed. rewrite m_get_set, decide_True by done. by apply merge_pointers_in.
Qed.

Lemma merge_all_dom m l a k :
  is_Some (changed (merge_all m l) a k) →
  is_Some (changed m a k) ∨ ∃ value, (a, value) ∈ l ∧ k ∈ value.*1.
Proof.
  destruct (decide (Exists (fun av => av.1 = a ∧ k ∈ av.2.*1) l)) as [Hex|Hno].
  - intros _. right. apply Exists_exists in Hex as ([b value] & Hin & <- & Hk). by exists value.
  - rewrite merge_all_other; [by left|]. intros value Hin Hk. apply Hno, Exists_exists. by eexists (_, _).
Qed.

Lemma merge_all_wf m l :
  (∀ a, JsMap.wf (default [] (m_get m a))) → ∀ a, JsMap.wf (default [] (m_get (merge_all m l) a)).
Proof.
  unfold merge_all. revert m. induction l as [|[b value] l IH]; intros m Hm; cbn; [done|].
  apply IH. intros a. rewrite m_get_set. case_decide as Hb; [|apply Hm]. subst a. cbn.
  unfold merge_pointers. specialize (Hm b). revert Hm. generalize (default [] (m_get m b)).
  induction value as [|[k x] value IHv]; intros c Hc; cbn; [done|]. by apply IHv, JsMap.wf_set.
Qed.

Lemma storage_entries_fst s : (storage_entries s).*1 = (m_entries (storage s)).*1.
Proof. unfold storage_entries. rewrite <-list_fmap_compose. by apply list_fmap_ext. Qed.

Lemma storage_entries_in s a value :
  (a, value) ∈ storage_entries s ↔ ∃ st, m_get (storage s) a = Some st ∧ value = m_entries st.
Proof.
  unfold storage_entries. rewrite list_elem_of_fmap. split.
  - intros ([b st] & [= -> ->] & Hin). apply m_entries_get in Hin. by exists st.
  - intros (st & Hst & ->). exists (a, st). by rewrite m_entries_get.
Qed.

(** The storage of the transaction overrides what was changed before. *)
Lemma merge_storage_entries m s a k :
  changed (merge_all m (storage_entries s)) a k =
  match stored s a k with Some x => Some x | None => changed m a k end.
Proof.
  unfold stored, getPointers. destruct (m_get (storage s) a) as [st|] eqn:Ea; cbn.
  - destruct (m_get st k) as [x|] eqn:Ek.
    + apply merge_all_in with (value := m_entries st).
      * rewrite storage_entries_fst. apply m_entries_nodup.
      * apply m_entries_nodup.
      * apply storage_entries_in. eauto.
      * by apply m_entries_get.
    + apply merge_all_other. intros value (st' & Ha' & ->)%storage_entries_in Hin.
      assert (st' = st) as -> by congruence.
      apply list_elem_of_fmap in Hin as ([k' x] & -> & Hin). apply m_entries_get in Hin. cbn in Ek. congruence.
  - rewrite m_get_empty. apply merge_all_other.
    intros value (st' & Ha' & _)%storage_entries_in. congruence.
Qed.

Lemma evolves_mergeStorage fr l :
  (∀ a value k, (a, value) ∈ l → k ∈ value.*1 → is_Some (stored fr.1 a k)) →
  evolves fr (fr.1, mergeStorage l fr.2).
Proof.
  intros Hl. split; auto; [reflexivity|]. intros [M W E S T]. split; auto; cbn [fst snd].
  - intros m a k. rewrite modified_mergeStorage. intros [= <-] Hc.
    apply merge_all_dom in Hc as [Hc|(value & Hin & Hk)]; [|eauto].
    destruct (modifiedStorage fr.2) as [m|] eqn:Em; [eauto|]. cbn in Hc.
    rewrite changed_empty in Hc. by destruct Hc.
  - intros m a. rewrite modified_mergeStorage. intros [= <-]. apply merge_all_wf. intros b.
    destruct (modifiedStorage fr.2) as [m|]; [by apply W|]. cbn. rewrite m_get_empty. apply JsMap.wf_nil.
Qed.

Lemma keeps_setResult r : keeps (setResult r).
Proof.
  intros fr. unfold setResult. cbn [fst].
  transitivity (fr.1, set_result r fr.2); [by apply evolves_eval|].
  apply (evolves_mergeStorage (fr.1, set_result r fr.2)). cbn [fst snd].
  intros a value k (st & Ha & ->)%storage_entries_in ([k' x] & -> & Hin)%list_elem_of_fmap.
  apply m_entries_get in Hin. unfold stored, getPointers. rewrite Ha. by exists x.
Qed.

(** *** The other requests *)

#[local] Hint Resolve keeps_ret keeps_get keeps_throw keeps_host keeps_setGasUsed keeps_revert_with
  keeps_store keeps_load keeps_onEvent keeps_mergeEvents keeps_setResult : keeps.

Ltac keep := by_parts keeps_bind ltac:(fun _ => auto with keeps).

Lemma keeps_eval f :
  (∀ v, params (f v) = params v ∧ modifiedStorage (f v) = modifiedStorage v ∧ events (f v) = events v ∧
        totalEventSize (f v) = totalEventSize v ∧ (is_Some (revert v) → is_Some (revert (f v)))) →
  keeps (on_eval f).
Proof. intros Hf fr. destruct (Hf fr.2) as (? & ? & ? & ? & ?). by apply evolves_eval. Qed.

Lemma keeps_set_memory m : keeps (on_eval (set_memory m)).
Proof. by apply keeps_eval. Qed.
Lemma keeps_touch a b : keeps (on_eval (touchAddress a b)).
Proof. by apply keeps_eval. Qed.
Lemma keeps_raw_revert r : keeps (on_eval (set_raw_revert r)).
Proof. by apply keeps_eval. Qed.
Lemma keeps_set_revert m : keeps (on_eval (set_revert m)).
Proof. by apply keeps_eval. Qed.

Lemma keeps_counter : keeps (on_shared incrementMLDSALoadCounter).
Proof. intros fr. by apply evolves_shared, s_evolves_frame. Qed.

#[local] Hint Resolve keeps_set_memory keeps_touch keeps_raw_revert keeps_set_revert keeps_counter : keeps.

Lemma keeps_getAccountType a : keeps (getAccountType a).
Proof. unfold getAccountType. keep. Qed.
Lemma keeps_getBlockHash h : keeps (getBlockHashImport h).
Proof. unfold getBlockHashImport. keep. Qed.
Lemma keeps_loadMLDSA K level a : keeps (loadMLDSA K level a).
Proof. unfold loadMLDSA. keep. Qed.

Lemma keeps_addContractInformation c : keeps (addContractInformation c).
Proof.
  intros fr. unfold addContractInformation. destruct (m_get _ _); [reflexivity|].
  by apply evolves_shared, s_evolves_frame.
Qed.

#[local] Hint Resolve keeps_addContractInformation : keeps.

Lemma keeps_deployContractAtAddress b template salt : keeps (deployContractAtAddress b template salt).
Proof. unfold deployContractAtAddress. keep. Qed.

Lemma keeps_increment_deploy : keeps (lift_counter (incrementContractDeployDepth TX)).
Proof.
  intros fr. unfold lift_counter, incrementContractDeployDepth. case_decide; [by destruct fr|].
  apply evolves_shared, s_evolves_frame; try done. cbn. lia.
Qed.

Lemma keeps_increment_update : keeps (lift_counter (incrementContractUpdates TX)).
Proof.
  intros fr. unfold lift_counter, incrementContractUpdates. case_decide; [by destruct fr|].
  by apply evolves_shared, s_evolves_frame.
Qed.

Lemma keeps_updateContractFromAddressRaw gas a cd fr :
  evolves fr (updateContractFromAddressRaw TX TX_MAX gas a cd fr).1.
Proof.
  unfold updateContractFromAddressRaw. pose proof (keeps_increment_update fr) as Hi.
  destruct (lift_counter _ fr) as [fr1 [[]|e]].
  - pose proof (keeps_setGasUsed gas fr1) as Hg. destruct (setGasUsed TX_MAX gas fr1) as [fr2 [[]|e]];
      (transitivity fr1; [done|]); (transitivity fr2; [done|]); apply keeps_revert_with.
  - transitivity fr1; [done|]. apply keeps_revert_with.
Qed.

(** *** The start and the end of a run *)

Lemma preloaded_preloadedStorage p s a k x :
  preloaded (preloadedStorage p s) a k = Some x →
  preloaded s a k = Some x ∨
  ∃ pointers o, (a, pointers) ∈ p ∧ last_entry pointers k = Some o ∧ x = default 0 o.
Proof.
  unfold preloadedStorage. revert s. induction p as [|[b pointers] p IH]; intros s; [by left|]. cbn.
  intros [Hp|(ps & o & Hin & Hrest)]%IH; [|right; exists ps, o; split; [by right|done]].
  unfold preloaded, getPointers in Hp |- *. cbn in Hp. rewrite m_get_set in Hp.
  case_decide as Hb; [subst b|by left]. cbn in Hp.
  assert (∀ c, m_get (foldl (fun c '(k, v) => m_set c k (default 0 v)) c pointers) k = Some x →
    m_get c k = Some x ∨ ∃ o, last_entry pointers k = Some o ∧ x = default 0 o) as Hf.
  { clear. intros c. induction pointers as [|[k' o] ps IH] using rev_ind; [by left|].
    rewrite foldl_snoc, m_get_set, last_entry_snoc. case_decide; [|exact IH].
    intros [= <-]. right. by exists o. }
  destruct (Hf _ Hp) as [Hl|(o & Hin & ->)]; [by left|].
  right. exists pointers, o. split; [by left|done].
Qed.

Lemma preloadedStorage_frame p s :
  let s' := preloadedStorage p s in
  callStack s' = callStack s ∧ storage s' = storage s ∧ contractDeployDepth s' = contractDeployDepth s ∧
  gasTracker s' = gasTracker s.
Proof.
  cbn. unfold preloadedStorage. revert s. induction p as [|[b pointers] p IH]; intros s; [done|]. cbn.
  destruct (IH (set_preload (m_set (preloadStorage s) b
    (foldl (fun c '(k, v) => m_set c k (default 0 v)) (getPointers (preloadStorage s) b) pointers)) s))
    as (-> & -> & -> & ->). done.
Qed.

Lemma keeps_preloadPointers c : keeps (preloadPointers c).
Proof.
  intros fr. unfold preloadPointers, sget, mbind, stx_bind.
  destruct (p_preloadStorageList _) as [l|]; [|reflexivity].
  case_decide; [reflexivity|]. unfold lift_host, slift.
  destruct (host_getStorageMultiple l) as [[p|]|e] eqn:El; [|reflexivity..].
  apply evolves_shared. destruct (preloadedStorage_frame p fr.1) as (E1 & E2 & E3 & E4).
  split; unfold stored; rewrite ?E1, ?E2, ?E3, ?E4; auto; [|lia|].
  - exists []. rewrite app_nil_r. by split.
  - intros Hc a k x [Hp|(ps & o & Hin & Hk & ->)]%preloaded_preloadedStorage; [by apply Hc|].
    exists o. split; [|done]. by eapply host_multiple.
Qed.

Lemma keeps_setEnvironment i : keeps (setEnvironment TX_MAX i).
Proof. unfold setEnvironment. keep. Qed.

Lemma keeps_processResult status data : keeps (processResult TX status data).
Proof.
  intros fr. unfold processResult. case_decide; [apply keeps_revert_with|].
  case_decide; [apply keeps_raw_revert|]. destruct (is_reverted fr.2); [reflexivity|apply keeps_setResult].
Qed.

#[local] Hint Resolve keeps_processResult keeps_setEnvironment keeps_preloadPointers : keeps.

Lemma keeps_onExecutionResult e used : keeps (onExecutionResult TX TX_MAX e used).
Proof.
  intros fr. unfold onExecutionResult. destruct e as [status gas data|error].
  - revert fr. change (keeps (_ ← setGasUsed TX_MAX gas; processResult TX status data)). keep.
  - assert (∀ fr1 fr2 r, evolves fr fr1 → setGasUsed TX_MAX (paidMaximum fr1.1) fr1 = (fr2, r) → evolves fr fr2)
      as Hfall.
    { intros fr1 fr2 r H1 H2. transitivity fr1; [done|].
      pose proof (keeps_setGasUsed (paidMaximum fr1.1) fr1) as Hk. by rewrite H2 in Hk. }
    assert (∀ fr1 (r : result vm_error unit), evolves fr fr1 →
      evolves fr (match r with Ok _ => on_eval (set_revert error) fr1 | Throw err => (fr1, Throw err) end).1)
      as Hend.
    { intros fr1 [|] H1; [|done]. transitivity fr1; [done|]. apply keeps_set_revert. }
    destruct used as [gas|].
    + pose proof (keeps_setGasUsed gas fr) as Hk. destruct (setGasUsed TX_MAX gas fr) as [fr1 [[]|err]].
      * exact (Hend _ (Ok tt) Hk).
      * destruct (setGasUsed TX_MAX (paidMaximum fr1.1) fr1) as [fr2 r] eqn:E. eauto.
    + destruct (setGasUsed TX_MAX (paidMaximum fr.1) fr) as [fr2 r] eqn:E.
      apply Hend. eapply Hfall; [reflexivity|done].
Qed.

Lemma evolves_failed used e fr : evolves fr (failed TX_MAX used e fr).
Proof.
  unfold failed, attemptToSetGasUsed. case_decide; [apply keeps_revert_with|].
  etransitivity; [apply keeps_setGasUsed|apply keeps_revert_with].
Qed.

(** *** Calls of other contracts *)

(** What a call of another contract leaves behind. *)
Record called (p : ExecutionParameters) s s' (r : result vm_error evaluation) : Prop := {
  called_shared : s_evolves [] s s';
  called_ok v : r = Ok v → params v = p ∧ well_formed (s', v)
}.

Lemma evolves_merge extern fr :
  well_formed (fr.1, extern) → evolves fr (merge TX TX_MAX extern fr).1.
Proof.
  intros Hw. unfold merge.
  pose (tr := tracker_op (fun g =>
    GasTracker.setGasUsed TX_MAX g (gasUsed fr.1) 0 true (Some (contractAddress fr.2)))).
  change (evolves fr ((tr ≫= fun _ => match revert extern with
    | Some r => on_eval (set_raw_revert r)
    | None => _ ← (if REENTRANCY_GUARD TX then checkReentrancy else mret tt);
              _ ← (match modifiedStorage extern with
                   | Some m => on_eval (mergeStorage (m_entries m)) | None => mret tt end);
              mergeEvents TX (events extern) end) fr).1).
  assert (keeps tr) as Htr by apply keeps_tracker.
  pose proof (Htr fr) as H1. unfold mbind at 1, stx_bind. destruct (tr fr) as [fr1 [[]|e]]; [|done].
  transitivity fr1; [done|]. destruct (revert extern) as [r|]; [apply keeps_raw_revert|].
  unfold mbind at 1, stx_bind.
  assert ((if REENTRANCY_GUARD TX then checkReentrancy else mret tt) fr1 = (fr1, Ok tt) ∨
    ∃ e, (if REENTRANCY_GUARD TX then checkReentrancy else mret tt) fr1 = (fr1, Throw e)) as [->|[e ->]].
  { destruct (REENTRANCY_GUARD TX); [|by left]. unfold checkReentrancy.
    destruct (AddressStack.includes _ _); eauto. }
  2: { reflexivity. }
  unfold mbind, stx_bind. destruct (modifiedStorage extern) as [m|] eqn:Em; [|apply keeps_mergeEvents].
  unfold on_eval, smod. transitivity (fr1.1, mergeStorage (m_entries m) fr1.2); [|apply keeps_mergeEvents].
  apply evolves_mergeStorage. intros a value k Hin Hk.
  apply (se_stored _ _ _ (ev_shared _ _ H1)). apply (wf_modified _ Hw m a k Em).
  unfold changed. rewrite (proj1 (m_entries_get (V := PointerStorageMap) m a value) Hin).
  by apply JsMap.elem_of_keys.
Qed.

Section Calls.
Context (callExternal : ExecutionParameters → shared → option (shared * result vm_error evaluation)).
Context (external_called : ∀ p s s' r,
  p_externalCall p = true → callExternal p s = Some (s', r) → called p s s' r).

Lemma evolves_internalCall cd d u to fr fr' r :
  internalCall TX TX_MAX callExternal cd d u to fr = Some (fr', r) → evolves fr fr'.
Proof.
  unfold internalCall. set (p := call_params _ _ _ _ _).
  destruct (callExternal p fr.1) as [[s [v|e]]|] eqn:Ec; [| |done].
  - destruct (external_called p fr.1 s (Ok v) eq_refl Ec) as [Hs Hok].
    destruct (Hok v eq_refl) as [_ Hw]. intros [= Hr].
    transitivity (s, fr.2); [by apply evolves_shared, s_evolves_callee|].
    pose proof (evolves_merge v (s, fr.2) Hw) as Hm. unfold mbind at 1, stx_bind in Hr.
    destruct (merge TX TX_MAX v (s, fr.2)) as [fr2 [[]|e]]; by injection Hr as <- <-.
  - intros [= <- <-]. destruct (external_called p fr.1 s (Throw e) eq_refl Ec) as [Hs _].
    by apply evolves_shared, s_evolves_callee.
Qed.

(** A computation with fuel, started on what another one left. *)
Lemma evolves_fueled {A B} (c : op A) (k : A → fueled B) fr fr' r :
  keeps c → (∀ x fr fr' r, k x fr = Some (fr', r) → evolves fr fr') →
  fueled_bind (fuel_lift c) k fr = Some (fr', r) → evolves fr fr'.
Proof.
  intros Hc Hk. specialize (Hc fr). unfold fueled_bind, fuel_lift.
  destruct (c fr) as [fr1 [x|e]]; [|by intros [= <- <-]].
  intros Hr. transitivity fr1; eauto.
Qed.

#[local] Hint Resolve keeps_deployContractAtAddress : keeps.

Lemma evolves_call gas memory to cd fr fr' r :
  call TX TX_MAX callExternal gas memory to cd fr = Some (fr', r) → evolves fr fr'.
Proof.
  unfold call. set (c := fueled_bind _ _).
  destruct (c fr) as [[fr1 [[[[w res] st] used]|e]]|] eqn:Ec; [| |done];
    apply evolves_fueled in Ec; [intros [= <- <-]; done| | |intros [= <- <-]| |].
  1, 4: keep. 1, 3: intros; by eapply evolves_internalCall.
  transitivity fr1; [done|]. apply keeps_revert_with.
Qed.

Lemma evolves_deploy b gas template salt cd fr fr' r :
  deployContractFromAddressRaw TX TX_MAX b callExternal gas template salt cd fr = Some (fr', r) →
  evolves fr fr'.
Proof.
  unfold deployContractFromAddressRaw. pose proof (keeps_increment_deploy fr) as Hi.
  destruct (lift_counter _ fr) as [fr1 [[]|e]].
  2: { intros [= <- <-]. transitivity fr1; [done|]. apply keeps_revert_with. }
  set (c := fueled_bind _ _).
  assert (∀ fr2 x, c fr1 = Some (fr2, x) → evolves fr1 fr2) as Hc.
  { intros fr2 x. apply evolves_fueled; [keep|]. intros d fr3 fr4 y. unfold fueled_bind.
    destruct (internalCall _ _ _ _ _ _ _ fr3) as [[fr5 [z|e]]|] eqn:Ei; [| |done];
      apply evolves_internalCall in Ei; by intros [= <- <-]. }
  destruct (c fr1) as [[fr2 [[d [[[w res] st] used]]|e]]|] eqn:Ec; [| |done]; intros [= <- <-];
    (transitivity fr1; [done|]); (transitivity fr2; [by eapply Hc|]); [reflexivity|apply keeps_revert_with].
Qed.

(** Serving a contract, until it exits. *)
Lemma evolves_serve b K q fr fr' out :
  serve TX TX_MAX b K callExternal q fr = Some (fr', out) → evolves fr fr'.
Proof.
  revert fr. induction q as [status gas data used|e used|p k IH|p x k IH|gas m to cd k IH|gas t salt cd k IH|
    gas src cd k IH|e k IH|a k IH|h k IH|level a k IH]; intros fr; cbn [serve].
  1, 2: by intros [= <- <-].
  - pose proof (keeps_load p fr). destruct (load p fr) as [fr1 r]. intros Hs%IH. by transitivity fr1.
  - intros Hs%IH. etransitivity; [apply keeps_store|done].
  - destruct (call _ _ _ _ _ _ _ fr) as [[fr1 r]|] eqn:E; [|done]. apply evolves_call in E.
    intros Hs%IH. by transitivity fr1.
  - destruct (deployContractFromAddressRaw _ _ _ _ _ _ _ _ fr) as [[fr1 r]|] eqn:E; [|done].
    apply evolves_deploy in E. intros Hs%IH. by transitivity fr1.
  - pose proof (keeps_updateContractFromAddressRaw gas src cd fr).
    destruct (updateContractFromAddressRaw _ _ _ _ _ fr) as [fr1 r]. intros Hs%IH. by transitivity fr1.
  - pose proof (keeps_onEvent e fr). destruct (onEvent TX e fr) as [fr1 r]. intros Hs%IH. by transitivity fr1.
  - pose proof (keeps_getAccountType a fr). destruct (getAccountType a fr) as [fr1 r].
    intros Hs%IH. by transitivity fr1.
  - pose proof (keeps_getBlockHash h fr). destruct (getBlockHashImport h fr) as [fr1 r].
    intros Hs%IH. by transitivity fr1.
  - pose proof (keeps_loadMLDSA K level a fr). destruct (loadMLDSA K level a fr) as [fr1 r].
    intros Hs%IH. by transitivity fr1.
Qed.
End Calls.

(** *** The constructor *)

(** The contracts whose storage the access list of a simulation sets. *)
Definition listed (p : ExecutionParameters) : list Address :=
  if p_externalCall p then [] else Address_fromString <$> (default [] (p_accessList p)).*1.

Lemma parse_entries keys c c' :
  rfold parse_entry c keys = Ok c' → ∀ k, is_Some (m_get c k) → is_Some (m_get c' k).
Proof.
  revert c. induction keys as [|kv keys IH]; intros c; cbn; [by intros [= <-]|].
  unfold mbind, result_bind. destruct (parse_entry c kv) as [c1|] eqn:E; [|done].
  intros Hr k Hk. apply (IH c1 Hr). unfold parse_entry in E.
  destruct (fromBase64 kv.1), (fromBase64 kv.2); try done. case_decide; [|done].
  injection E as <-. rewrite m_get_set. case_decide; [by eexists|done].
Qed.

Lemma s_evolves_parse_list l s : s_evolves (Address_fromString <$> l.*1) s (parse_list l s).1.
Proof.
  revert s. induction l as [|[address keys] l IH]; intros s; cbn [parse_list]; [reflexivity|].
  set (a := Address_fromString address).
  destruct (rfold parse_entry (getPointers (storage s) a) keys) as [c|e] eqn:E; [|reflexivity].
  assert (∀ b k, b ≠ a → stored (set_storage (m_set (storage s) a c) s) b k = stored s b k) as Hne.
  { intros b k Hb. unfold stored, getPointers. cbn. by rewrite m_get_set, decide_False. }
  destruct (IH (set_storage (m_set (storage s) a c) s)) as [(l' & El & Hl) D P C T].
  split; auto.
  - exists l'. split; [exact El|]. intros b k Ho Hb. cbn in Ho. apply not_elem_of_cons in Ho as [Hba Ho].
    rewrite Hl by done. by apply Hne.
  - intros b k Hs. apply D. destruct (decide (b = a)) as [->|Hba]; [|by rewrite Hne].
    unfold stored, getPointers at 1. cbn. rewrite m_get_set, decide_True by done. cbn.
    by eapply parse_entries.
Qed.

Lemma construct_evolves p s s' r :
  construct TX p s = (s', r) →
  s_evolves (listed p) s s' ∧
  ∀ v, r = Ok v → v = fresh p ∧ callStack s' = callStack s ++ [p_contractAddress p].
Proof.
  unfold construct. set (c1 := if p_isDeployment p then _ else _).
  assert (∀ s, s_evolves (listed p) s (c1 s).1 ∧ callStack (c1 s).1 = callStack s) as H1.
  { intros s0. unfold c1. destruct (p_isDeployment p); [|by split].
    unfold incrementContractDeployDepth. case_decide; [by split|]. split; [|done].
    apply s_evolves_frame; try done. cbn. lia. }
  unfold mbind, stx_bind. specialize (H1 s) as [H1 K1]. destruct (c1 s) as [s1 [[]|e]];
    [|by intros [= <- <-]].
  set (c2 := if p_isUpdate p then _ else _).
  assert (∀ s, s_evolves (listed p) s (c2 s).1 ∧ callStack (c2 s).1 = callStack s) as H2.
  { intros s0. unfold c2. destruct (p_isUpdate p); [|by split].
    unfold incrementContractUpdates. case_decide; [by split|]. split; [|done].
    by apply s_evolves_frame. }
  specialize (H2 s1) as [H2 K2]. destruct (c2 s1) as [s2 [[]|e]].
  2: { intros [= <- <-]. split; [by transitivity s1|done]. }
  cbn [smod]. set (s3 := set_stack _ s2). unfold smod.
  assert (s_evolves (listed p) s2 s3) as H3.
  { split; auto; [|unfold s3; cbn; lia]. by exists [p_contractAddress p]. }
  assert (s_evolves (listed p) s3 ((if p_externalCall p then mret tt else parseAccessList (p_accessList p)) s3).1 ∧
    callStack ((if p_externalCall p then mret tt else parseAccessList (p_accessList p)) s3).1 = callStack s3) as [H4 K4].
  { unfold listed. destruct (p_externalCall p); [by split|].
    destruct (p_accessList p) as [l|]; cbn [default parseAccessList]; [|by split]. split; [apply s_evolves_parse_list|].
    generalize s3. clear. induction l as [|[address keys] l IH]; intros s; cbn [parse_list]; [done|].
    destruct (rfold _ _ _); [|done]. by rewrite IH. }
  destruct ((if p_externalCall p then mret tt else parseAccessList (p_accessList p)) s3) as [s4 [[]|e]];
    intros [= <- <-]; (split; [transitivity s1; [done|transitivity s2; [done|by transitivity s3]]|]);
    intros v; [|done]. intros [= <-]. split; [done|]. cbn in *. rewrite K4. unfold s3. cbn.
  by rewrite <-K1, <-K2.
Qed.
(** *** The storage cost, at the end of a transaction *)

(** Only the tracker changes, by accepted updates. *)
Definition gas_only fr fr' : Prop :=
  fr' = (set_tracker (gasTracker fr'.1) fr.1, fr.2) ∧
  ∀ g0, reached TX_MAX g0 (gasTracker fr.1) → reached TX_MAX g0 (gasTracker fr'.1).

Lemma gas_only_refl fr : gas_only fr fr.
Proof. split; [|auto]. by destruct fr as [[] v]. Qed.

Lemma gas_only_setGasUsed g fr : gas_only fr (setGasUsed TX_MAX g fr).1.
Proof.
  split.
  - unfold setGasUsed, tracker_op. by destruct (GasTracker.setGasUsed _ _ _ _ _ _) as [g' [|]].
  - apply (se_tracker _ _ _ (ev_shared _ _ (keeps_setGasUsed g fr))).
Qed.

Section StorageCost.
Context (K : VMConstants) (new_cost : 0 ≤ NEW_STORAGE_SLOT_GAS_COST K)
  (update_cost : 0 ≤ UPDATED_STORAGE_SLOT_GAS_COST K).

Lemma slot_cost_spec special gas cost value key fr fr' r :
  slot_cost TX_MAX K special gas cost value key fr = (fr', r) →
  gas_only fr fr' ∧
  ∀ c, r = Ok c → fr' = fr ∧ cost ≤ c ∧ (special = false → gas + c ≤ maxGas fr.1).
Proof.
  unfold slot_cost. set (out := fun fr : frame => match setGasUsed _ _ fr with (_, _) => _ end).
  assert (∀ fr', out fr = (fr', r) → gas_only fr fr' ∧ ∀ c, r ≠ Ok c) as Hout.
  { intros fr0. unfold out. pose proof (gas_only_setGasUsed (paidMaximum fr.1) fr).
    destruct (setGasUsed _ _ fr) as [fr1 [[]|e]]; by intros [= <- <-]. }
  assert (∀ fr', out fr = (fr', r) → gas_only fr fr' ∧
    ∀ c, r = Ok c → fr' = fr ∧ cost ≤ c ∧ (special = false → gas + c ≤ maxGas fr.1)) as Hout'.
  { intros fr0 [? Hr]%Hout. split; [done|]. intros c Hc. by destruct (Hr c). }
  clear Hout. destruct (negb special && _); [by apply Hout'|].
  unfold getStorageState, mbind, stx_bind, sget, lift_host, slift.
  destruct (host_getStorage (contractAddress fr.2) key) as [o|e]; [|by intros [= <- <-]; split; [apply gas_only_refl|]].
  destruct (negb special && _) eqn:E; [by apply Hout'|]. intros [= <- <-].
  split; [apply gas_only_refl|]. intros c [= <-]. split; [done|]. split.
  - destruct o; [case_decide|]; lia.
  - intros ->. cbn in E. apply bool_decide_eq_false in E. lia.
Qed.

Lemma contract_cost_spec special gas cost l fr fr' r :
  contract_cost TX_MAX K special gas cost l fr = (fr', r) →
  gas_only fr fr' ∧
  ∀ c, r = Ok c → fr' = fr ∧ cost ≤ c ∧ (special = false → c = cost ∨ gas + c ≤ maxGas fr.1).
Proof.
  revert cost. induction l as [|[key value] l IH]; intros cost; cbn [contract_cost].
  - intros [= <- <-]. split; [apply gas_only_refl|]. intros c [= <-]. auto with lia.
  - unfold mbind, stx_bind.
    destruct (slot_cost TX_MAX K special gas cost value key fr) as [fr1 [c1|e]] eqn:E;
      apply slot_cost_spec in E as [Hg Hok]; [|by intros [= <- <-]].
    destruct (Hok c1 eq_refl) as (-> & Hle & Hmax). intros [Hg' Hok']%IH. split; [done|].
    intros c Hc. destruct (Hok' c Hc) as (-> & Hle' & Hmax'). split; [done|]. split; [lia|].
    intros Hs. destruct (Hmax' Hs); auto. right. specialize (Hmax Hs). lia.
Qed.

Lemma storage_cost_spec l t sp fr fr' r :
  storage_cost TX_MAX K l t sp fr = (fr', r) →
  gas_only fr fr' ∧
  ∀ t' sp', r = Ok (t', sp') → fr' = fr ∧ (p_specialContract (params fr.2) = None →
    t ≤ t' ∧ sp' = sp ∧ (gasUsed fr.1 + t ≤ maxGas fr.1 → gasUsed fr.1 + t' ≤ maxGas fr.1)).
Proof.
  revert t sp. induction l as [|[a states] l IH]; intros t sp; cbn [storage_cost].
  - intros [= <- <-]. split; [apply gas_only_refl|]. intros t' sp' [= <- <-]. auto with lia.
  - unfold mbind, stx_bind, sget. set (special := is_special fr.2 a). set (gas := if special then _ else _).
    destruct (contract_cost TX_MAX K special gas 0 states fr) as [fr1 [c|e]] eqn:E;
      apply contract_cost_spec in E as [Hg Hok]; [|by intros [= <- <-]].
    destruct (Hok c eq_refl) as (-> & Hle & Hmax).
    assert (p_specialContract (params fr.2) = None → special = false) as Hn
      by (intros Hn; unfold special, is_special; by rewrite Hn).
    destruct special eqn:Es; intros [Hg' Hok']%IH; (split; [done|]); intros t' sp' Hr;
      destruct (Hok' t' sp' Hr) as (-> & Hb); (split; [done|]); intros Hnone;
      [by specialize (Hn Hnone)|].
    destruct (Hb Hnone) as (Hle' & -> & Hb'). split; [lia|]. split; [done|]. intros H0. apply Hb'.
    destruct (Hmax eq_refl); subst gas; lia.
Qed.

(** The end of a transaction changes the tracker only, and keeps an ordinary
    transaction within its limit. *)
Definition final fr fr' : Prop :=
  fr' = (set_tracker (gasTracker fr'.1) fr.1, fr.2) ∧
  ∀ M, p_specialContract (params fr.2) = None → ordinary M (gasTracker fr.1) → ordinary M (gasTracker fr'.1).

Lemma final_gas_only fr fr' : gas_only fr fr' → final fr fr'.
Proof.
  intros [H1 H2]. split; [done|]. intros M _ Ho. apply (ordinary_reached TX_MAX M (gasTracker fr.1)); [done|].
  apply H2, reached_start.
Qed.

Lemma calculateGasCostStore_final fr fr' r :
  calculateGasCostStore TX_MAX K fr = (fr', r) → final fr fr'.
Proof.
  unfold calculateGasCostStore, mbind, stx_bind, sget.
  destruct (modifiedStorage fr.2) as [m|]; [|intros [= <- <-]; apply final_gas_only, gas_only_refl].
  destruct (storage_cost TX_MAX K (m_entries m) 0 0 fr) as [fr1 [[t sp]|e]] eqn:E;
    apply storage_cost_spec in E as [Hg Hok]; [|intros [= <- <-]; by apply final_gas_only].
  destruct (Hok t sp eq_refl) as (-> & Hb). cbn [fst snd].
  unfold setFinalGasUsed, tracker_op, GasTracker.setFinalGasUsed.
  destruct (decide (gasUsed fr.1 + t < 0)) as [|Hge];
    [intros [= <- <-]; apply final_gas_only; split; [by destruct fr as [[] v]|auto]|].
  case_decide; [intros [= <- <-]; apply final_gas_only; split; [by destruct fr as [[] v]|auto]|].
  intros [= <- <-]. split; [done|]. intros M Hnone (H1 & H2 & H3 & H4 & H5).
  destruct (Hb Hnone) as (Ht & -> & Hmax). unfold maxGas, gasUsed, specialGasUsed, GasTracker.specialGasUsed in *.
  unfold ordinary. cbn. rewrite H2 in Hmax. rewrite H4. split_and!; try done; lia.
Qed.

Lemma terminate_final fr fr' r : terminateEvaluation TX_MAX K fr = (fr', r) → final fr fr'.
Proof.
  unfold terminateEvaluation. case_match; [intros [= <- <-]; apply final_gas_only, gas_only_refl|].
  unfold mbind, stx_bind, sget.
  destruct (calculateGasCostStore TX_MAX K fr) as [fr1 [[]|e]] eqn:E; apply calculateGasCostStore_final in E;
    [|by intros [= <- <-]].
  intros Hr. enough (fr' = fr1) as -> by done. revert Hr. generalize ((m_entries (deployedContracts fr1.1)).*2).
  intros l. induction l as [|c l IH]; cbn; [by intros [= <- <-]|]. unfold mbind, stx_bind, lift_host, slift.
  destruct (host_deployContract c); [exact IH|by intros [= <- <-]].
Qed.

Lemma failed_final used e fr :
  let fr' := failed TX_MAX used e fr in
  fr' = (set_tracker (gasTracker fr'.1) fr.1, revert_with e fr.2) ∧
  (∀ g0, reached TX_MAX g0 (gasTracker fr.1) → reached TX_MAX g0 (gasTracker fr'.1)).
Proof.
  cbn. unfold failed, attemptToSetGasUsed. case_decide.
  - split; [|auto]. by destruct fr as [[] v].
  - destruct (gas_only_setGasUsed (default (paidMaximum fr.1) used) fr) as [H1 H2]. split; [|exact H2].
    rewrite H1 at 1 2. done.
Qed.
End StorageCost.

(** *** A run, from its constructor to its end *)

Lemma well_formed_transfer fr g v :
  well_formed fr → params v = params fr.2 → modifiedStorage v = modifiedStorage fr.2 →
  events v = events fr.2 → totalEventSize v = totalEventSize fr.2 →
  well_formed (set_tracker g fr.1, v).
Proof. intros [M W E S T] E1 E2 E3 E4. split; cbn; rewrite ?E2, ?E3, ?E4; auto. Qed.

Lemma s_evolves_run p s s0 s1 :
  callStack s0 = callStack s ++ [p_contractAddress p] → s_evolves (listed p) s s0 →
  s_evolves [p_contractAddress p] s0 s1 → s_evolves (listed p) s s1.
Proof.
  intros E [(l0 & E0 & H0) D0 P0 C0 T0] [(l1 & E1 & H1) D1 P1 C1 T1].
  assert (l0 = [p_contractAddress p]) as -> by (apply (app_inv_head (callStack s)); congruence).
  split; auto; [|lia]. exists (p_contractAddress p :: l1). rewrite E1, E, <-app_assoc. split; [done|].
  intros a k Ho [Ha Hl]%not_elem_of_cons. rewrite H1, H0 by set_solver. done.
Qed.

(** The storage a successful evaluation reports is that of the transaction. *)
Definition reports s v : Prop :=
  revert v = None → ∃ m data, modifiedStorage v = Some m ∧ ev_result v = Some data ∧
    ∀ a k, changed m a k = stored s a k.

Lemma setResult_reports data fr : well_formed fr → reports fr.1 (setResult data fr).1.2.
Proof.
  intros [M _ _ _ _] _. eexists _, data. split; [apply modified_mergeStorage|]. split; [done|].
  intros a k. rewrite merge_storage_entries. destruct (stored fr.1 a k) eqn:E; [done|]. cbn.
  destruct (modifiedStorage fr.2) as [m|] eqn:Em; cbn; [|apply changed_empty].
    destruct (changed m a k) eqn:Ec; [|done]. destruct (M m a k eq_refl) as [x Hx]; [by rewrite Ec; eexists|congruence].
Qed.

Lemma onExecutionResult_reports e used fr fr' :
  well_formed fr → onExecutionResult TX TX_MAX e used fr = (fr', Ok tt) → reports fr'.1 fr'.2.
Proof.
  intros Hw. unfold onExecutionResult. destruct e as [status gas data|error].
  - unfold mbind, stx_bind. pose proof (keeps_setGasUsed gas fr) as Hk.
    destruct (setGasUsed TX_MAX gas fr) as [fr1 [[]|e]]; [|done].
    apply ev_wf in Hk; [|done]. unfold processResult.
    case_decide; [intros [= <-] Hn; discriminate Hn|]. case_decide; [intros [= <-] Hn; discriminate Hn|].
    destruct (is_reverted fr1.2) eqn:Er.
    + intros [= <-] Hn. unfold is_reverted in Er. apply bool_decide_eq_true in Er. rewrite Hn in Er.
      by destruct Er.
    + intros Hr. pose proof (setResult_reports data fr1 Hk) as Hs. by injection Hr as <-.
  - set (c := match used with None => _ | Some _ => _ end). destruct c as [fr1 [[]|err]]; [|done].
    intros [= <-] Hn; discriminate Hn.
Qed.

Section Run.
Context (COLD_STORAGE_LOAD blockNumber : Z) (K : VMConstants)
  (new_cost : 0 ≤ NEW_STORAGE_SLOT_GAS_COST K) (update_cost : 0 ≤ UPDATED_STORAGE_SLOT_GAS_COST K)
  (events_limit : 0 ≤ MAXIMUM_TOTAL_EVENT_LENGTH TX)
  (instantiate : ContractInformation → entry → Address → Z → Z → Z → bytes → instance).

Lemma fresh_well_formed s p : well_formed (s, fresh p).
Proof.
  split; cbn; [done|done| |unfold events_size|done].
  - intros a l. by rewrite m_get_empty.
  - assert (m_entries (m_empty (V := list NetEvent)) = []) as ->; [|done].
    apply elem_of_nil_inv. intros [a l]. rewrite m_entries_get, m_get_empty. done.
Qed.

(** What is left when the run of [p] from [s] ends. *)
Record ended p s s' v : Prop := {
  ended_shared : ∃ g, s_evolves (listed p) s (set_tracker g s');
  ended_stack : ∃ l, callStack s' = callStack s ++ p_contractAddress p :: l;
  ended_params : params v = p;
  ended_wf : well_formed (s', v);
  ended_external : p_externalCall p = true → s_evolves (listed p) s s';
  ended_gas M : p_specialContract p = None → ordinary M (gasTracker s) → ordinary M (gasTracker s');
  ended_reports : reports s' v
}.

Lemma ended_evolves p s s0 fr :
  construct TX p s = (s0, Ok (fresh p)) → evolves (s0, fresh p) fr → reports fr.1 fr.2 → ended p s fr.1 fr.2.
Proof.
  intros Hc Hev Hr. apply construct_evolves in Hc as [H0 Hc]. destruct (Hc _ eq_refl) as [_ Hs].
  destruct Hev as [E1 E2 E3 E4]. cbn in *.
  pose proof (s_evolves_run p s s0 fr.1 Hs H0 E2) as Hrun.
  split; auto.
  - exists (gasTracker fr.1). by replace (set_tracker _ fr.1) with fr.1 by (by destruct fr as [[] v]).
  - destruct E2 as [(l & El & _) _ _ _ _]. exists l. by rewrite El, Hs, <-app_assoc.
  - destruct fr. apply E4, fresh_well_formed.
  - intros M _ Ho. apply (ordinary_reached TX_MAX M (gasTracker s)); [done|].
    apply (se_tracker _ _ _ Hrun), reached_start.
Qed.

(** The end of the run in an evaluation that went well so far, or failed at the
    last moment. *)
Lemma ended_final p s fr1 fr2 v :
  ended p s fr1.1 fr1.2 → p_externalCall p = false → final fr1 fr2 →
  (v = fr2.2 ∨ ∃ e, v = revert_with e fr2.2) →
  ∀ g, (∀ M, ordinary M (gasTracker fr2.1) → ordinary M g) → ended p s (set_tracker g fr2.1) v.
Proof.
  intros [(g1 & H1) H2 H3 H4 H5 H6 H7] Hx [Hf Hg] Hv g Hord.
  assert (params v = p ∧ modifiedStorage v = modifiedStorage fr1.2 ∧ events v = events fr1.2 ∧
    totalEventSize v = totalEventSize fr1.2 ∧ (revert v = None → v = fr1.2)) as (V1 & V2 & V3 & V4 & V5).
  { rewrite Hf in Hv. cbn in Hv. destruct Hv as [->|[e ->]]; by rewrite <-?H3. }
  rewrite Hf. cbn [fst]. split.
  - exists g1. exact H1.
  - exact H2.
  - exact V1.
  - apply (well_formed_transfer fr1); try done; [by destruct fr1|congruence].
  - by rewrite Hx.
  - intros M Hn Ho. apply Hord, Hg; [by rewrite H3|]. by apply H6.
  - intros Hr. rewrite (V5 Hr) in Hr |- *. destruct (H7 Hr) as (m & data & Hm & Hd & Heq). by exists m, data.
Qed.

Section WithCalls.
Context (callExternal : ExecutionParameters → shared → option (shared * result vm_error evaluation)).
Context (external_called : ∀ p s s' r,
  p_externalCall p = true → callExternal p s = Some (s', r) → called p s s' r).

Lemma run_ended c p s s' r :
  run TX TX_MAX COLD_STORAGE_LOAD blockNumber K instantiate callExternal c p s = Some (s', r) →
  match r with Ok v => ended p s s' v | Throw _ => s_evolves (listed p) s s' end.
Proof.
  unfold run. destruct (construct TX p s) as [s0 [v0|e]] eqn:Ec.
  2: { intros [= <- <-]. by apply construct_evolves in Ec as [? _]. }
  pose proof Ec as Hc. apply construct_evolves in Hc as [_ Hc]. destruct (Hc v0 eq_refl) as [-> _].
  assert (∀ used e fr, evolves (s0, fresh p) fr →
    ended p s (failed TX_MAX used e fr).1 (failed TX_MAX used e fr).2) as Hfailed.
  { intros used e fr Hev. apply (ended_evolves p s s0); [done| |done].
    transitivity fr; [done|]. apply evolves_failed. }
  case_decide; [intros [= <- <-]; by apply Hfailed|].
  set (i := instantiate _ _ _ _ _ _ _). set (start := setEnvironment TX_MAX i ≫= _).
  assert (keeps start) as Hstart by (unfold start; keep; apply keeps_preloadPointers).
  specialize (Hstart (s0, fresh p)).
  destruct (start (s0, fresh p)) as [fr1 [[]|e]]; [|intros [= <- <-]; by apply Hfailed].
  destruct (serve _ _ _ _ _ _ fr1) as [[fr2 [e used]]|] eqn:Es; [|done].
  apply evolves_serve in Es; [|done]. unfold mbind, stx_bind.
  pose proof (keeps_onExecutionResult e used fr2) as Hk.
  destruct (onExecutionResult TX TX_MAX e used fr2) as [fr3 [[]|e']] eqn:Eo.
  2: { intros [= <- <-]. apply Hfailed. transitivity fr1; [done|]. by transitivity fr2. }
  assert (evolves (s0, fresh p) fr3) as Hev by (transitivity fr1; [done|]; by transitivity fr2).
  assert (ended p s fr3.1 fr3.2) as Hended.
  { apply (ended_evolves p s s0); [done..|]. apply onExecutionResult_reports in Eo; [done|].
    apply (ev_wf _ _ Es), (ev_wf _ _ Hstart), fresh_well_formed. }
  destruct (p_externalCall p) eqn:Ex.
  { unfold terminateEvaluation. replace (externalCall fr3.2) with true
      by (unfold externalCall; by rewrite (ended_params _ _ _ _ Hended)).
    by intros [= <- <-]. }
  destruct (terminateEvaluation TX_MAX K fr3) as [fr4 [[]|e4]] eqn:Et;
    apply terminate_final in Et; try done.
  - intros [= <- <-]. replace fr4.1 with (set_tracker (gasTracker fr4.1) fr4.1) by (by destruct fr4 as [[] v]).
    apply (ended_final p s fr3 fr4); auto.
  - destruct (failed_final used e4 fr4) as [Hfe Hfr]. set (ff := failed TX_MAX used e4 fr4) in *.
    intros Hr. rewrite Hfe in Hr. injection Hr as <- <-. apply (ended_final p s fr3 fr4); eauto.
    intros M Ho. apply (ordinary_reached TX_MAX M (gasTracker fr4.1)); [done|]. apply Hfr, reached_start.
Qed.
End WithCalls.

Abbreviation execute := (executeCallInternal TX TX_MAX COLD_STORAGE_LOAD blockNumber K instantiate).

Lemma execute_called fuel p s s' r :
  p_externalCall p = true → execute fuel p s = Some (s', r) → called p s s' r.
Proof.
  revert p s s' r. induction fuel as [|fuel IH]; intros p s s' r Hx; cbn [executeCallInternal]; [done|].
  assert (listed p = []) as Hl by (unfold listed; by rewrite Hx).
  destruct (find_contract s (p_contractAddress p)) as [c|]; [|by intros [= <- <-]].
  intros Hr. apply run_ended in Hr; [|done]. rewrite Hl in Hr. destruct r as [v|e]; [|by split].
  split; [rewrite <-Hl; by apply Hr|]. intros v' [= <-]. split; apply Hr.
Qed.

Lemma execute_ended fuel p s s' v : execute fuel p s = Some (s', Ok v) → ended p s s' v.
Proof.
  destruct fuel as [|fuel]; cbn [executeCallInternal]; [done|].
  destruct (find_contract s (p_contractAddress p)) as [c|]; [|done].
  intros Hr. apply run_ended in Hr; [done|]. apply execute_called.
Qed.
End Run.
End Evolution.
