(* ===== verification/TransactionSafety.v ===== *)
(** * The transactions of contracts: safety and termination

    The theorems on a whole transaction, whatever its contracts do: the
    nesting of calls is bounded, a failed call reverts the transaction,
    contracts write to their own storage only, what is loaded is what was
    stored last, and the result reports that storage. *)

From S2P Require Import Prelude ConsensusRules Consensus Gas Evaluation Evaluator EvaluatorFacts.
Import ContractEvaluation ContractEvaluator.

Section Transaction.
Context {LB : BtcLib} {LV : @VMLib LB} {LH : @VMHost LB LV} {LL : @VMHostLaws LB LV LH}.
Context (TX : TransactionsConfig) (TX_MAX COLD_STORAGE_LOAD blockNumber : Z) (K : VMConstants)
  (instantiate : ContractInformation → entry → Address → Z → Z → Z → bytes → instance).
Implicit Types (s : shared) (fr : frame) (a : Address) (p : ExecutionParameters).

Abbreviation execute := (executeCallInternal TX TX_MAX COLD_STORAGE_LOAD blockNumber K instantiate).

(** ** Termination *)

(** The calls and deployments that may still be nested. *)
Definition room s : nat :=
  Z.to_nat (MAXIMUM_CALL_DEPTH TX - AddressStack.length (callStack s)) +
  Z.to_nat (MAXIMUM_DEPLOYMENT_DEPTH TX - contractDeployDepth s).

Lemma s_evolves_length own s s' :
  s_evolves TX_MAX own s s' → AddressStack.length (callStack s) ≤ AddressStack.length (callStack s').
Proof.
  intros [(l & -> & _) _ _ _ _]. unfold AddressStack.length. rewrite length_app. lia.
Qed.

Lemma s_evolves_room own s s' : s_evolves TX_MAX own s s' → (room s' ≤ room s)%nat.
Proof. intros Hs. pose proof (s_evolves_length _ _ _ Hs). destruct Hs. unfold room. lia. Qed.

(** A frame whose calls have fuel enough: either there is room, or it cannot
    call. *)
Definition roomy (fuel : nat) fr : Prop :=
  (room fr.1 ≤ fuel)%nat ∧
  ((room fr.1 < fuel)%nat ∨ MAXIMUM_CALL_DEPTH TX ≤ AddressStack.length (callStack fr.1)).

Lemma roomy_evolves fuel fr fr' : evolves TX TX_MAX fr fr' → roomy fuel fr → roomy fuel fr'.
Proof.
  intros [_ Hs _ _] [H1 H2]. pose proof (s_evolves_room _ _ _ Hs). pose proof (s_evolves_length _ _ _ Hs).
  split; [lia|]. destruct H2; [left|right]; lia.
Qed.

Section Serving.
Context (callExternal : ExecutionParameters → shared → option (shared * result vm_error evaluation)).
Context (external_called : ∀ p s s' r,
  p_externalCall p = true → callExternal p s = Some (s', r) → called TX TX_MAX p s s' r).
Context (fuel : nat) (external_total : ∀ p s,
  p_externalCall p = true → (room s < fuel)%nat → is_Some (callExternal p s)).

Lemma internalCall_total cd d u to fr :
  (room fr.1 < fuel)%nat → is_Some (internalCall TX TX_MAX callExternal cd d u to fr).
Proof.
  intros Hr. unfold internalCall.
  destruct (external_total (call_params fr.2 to cd d u) fr.1 eq_refl Hr) as [[s' [v|e]] ->]; by eexists.
Qed.

Lemma call_total gas memory to cd fr :
  roomy fuel fr → is_Some (call TX TX_MAX callExternal gas memory to cd fr).
Proof.
  intros Hroom. unfold call, fueled_bind, fuel_lift, mbind, stx_bind, sget.
  pose proof (keeps_setGasUsed TX TX_MAX gas fr) as Hk.
  destruct (setGasUsed TX_MAX gas fr) as [fr1 [[]|e]]; [|by eexists].
  apply (roomy_evolves fuel) in Hk; [|done]. unfold on_eval, smod. cbn [fst snd].
  unfold isCallStackTooDeep. destruct Hk as [_ Hk]. cbn [fst] in Hk.
  destruct (bool_decide _) eqn:Ed; [by eexists|]. apply bool_decide_eq_false in Ed.
  unfold mret, stx_ret.
  destruct (internalCall_total cd false false to (fr1.1, set_memory memory fr1.2)) as [[fr2 [[[[? ?] ?] ?]|e]] ->];
    [cbn; lia|by eexists..].
Qed.

Lemma deploy_total gas template salt cd fr :
  roomy fuel fr →
  is_Some (deployContractFromAddressRaw TX TX_MAX blockNumber callExternal gas template salt cd fr).
Proof.
  intros [Hroom _]. unfold deployContractFromAddressRaw, lift_counter, incrementContractDeployDepth.
  case_decide as Hd; [by eexists|].
  set (fr1 := (set_depths _ _ _ fr.1, fr.2) : frame).
  assert (room fr1.1 < fuel)%nat as H1 by (unfold room, fr1 in *; cbn in *; lia).
  unfold fueled_bind, fuel_lift, mbind, stx_bind, sget.
  pose proof (keeps_setGasUsed TX TX_MAX gas fr1) as Hk.
  destruct (setGasUsed TX_MAX gas fr1) as [fr2 [[]|e]]; [|by eexists].
  pose proof (keeps_deployContractAtAddress TX TX_MAX blockNumber template salt fr2) as Hk'.
  destruct (deployContractAtAddress blockNumber template salt fr2) as [fr3 [d|e]]; [|by eexists].
  apply ev_shared, s_evolves_room in Hk, Hk'. cbn [fst] in Hk, Hk'.
  case_decide; [by eexists|]. unfold mret, stx_ret.
  destruct (internalCall_total cd true false d.1 fr3) as [[fr4 [[[[? ?] ?] ?]|e]] ->]; [lia|by eexists..].
Qed.

Lemma serve_total q fr :
  roomy fuel fr → is_Some (serve TX TX_MAX blockNumber K callExternal q fr).
Proof.
  revert fr. induction q as [status gas data used|e used|ptr k IH|ptr x k IH|gas m to cd k IH|gas t salt cd k IH|
    gas src cd k IH|e k IH|a k IH|h k IH|level a k IH]; intros fr Hr; cbn [serve].
  1, 2: by eexists.
  - pose proof (keeps_load TX TX_MAX ptr fr). destruct (load ptr fr). by eapply IH, roomy_evolves.
  - eapply IH, roomy_evolves; [apply keeps_store|done].
  - destruct (call_total gas m to cd fr Hr) as [[fr1 r] Ec]. rewrite Ec. apply evolves_call in Ec; [|done].
    by eapply IH, roomy_evolves.
  - destruct (deploy_total gas t salt cd fr Hr) as [[fr1 r] Ec]. rewrite Ec. apply evolves_deploy in Ec; [|done].
    by eapply IH, roomy_evolves.
  - pose proof (keeps_updateContractFromAddressRaw TX TX_MAX gas src cd fr).
    destruct (updateContractFromAddressRaw _ _ _ _ _ fr). by eapply IH, roomy_evolves.
  - pose proof (keeps_onEvent TX TX_MAX e fr). destruct (onEvent TX e fr). by eapply IH, roomy_evolves.
  - pose proof (keeps_getAccountType TX TX_MAX a fr). destruct (getAccountType a fr). by eapply IH, roomy_evolves.
  - pose proof (keeps_getBlockHash TX TX_MAX h fr). destruct (getBlockHashImport h fr). by eapply IH, roomy_evolves.
  - pose proof (keeps_loadMLDSA TX TX_MAX K level a fr). destruct (loadMLDSA K level a fr).
    by eapply IH, roomy_evolves.
Qed.

Lemma run_total c p s :
  (room s ≤ fuel)%nat →
  is_Some (run TX TX_MAX COLD_STORAGE_LOAD blockNumber K instantiate callExternal c p s).
Proof.
  intros Hs. unfold run. destruct (construct TX p s) as [s0 [v|e]] eqn:Ec; [|by eexists].
  apply (construct_evolves TX TX_MAX) in Ec as [He Hp]. destruct (Hp v eq_refl) as [-> Hst].
  case_decide; [by eexists|]. set (i := instantiate _ _ _ _ _ _ _). set (start := setEnvironment TX_MAX i ≫= _).
  assert (keeps TX TX_MAX start) as Hk.
  { unfold start. apply keeps_bind; [apply keeps_setEnvironment|intros; apply keeps_preloadPointers]. }
  specialize (Hk (s0, fresh p)). destruct (start (s0, fresh p)) as [fr1 [[]|e]]; [|by eexists].
  assert (roomy fuel fr1) as Hr.
  { eapply roomy_evolves; [exact Hk|]. destruct He as [_ _ Hd _ _]. unfold roomy, room in *. cbn [fst].
    rewrite Hst in *. unfold AddressStack.length in *. rewrite length_app in *. cbn [length] in *. lia. }
  destruct (serve_total (i_session i) fr1 Hr) as [[fr2 [e used]] ->].
  destruct ((_ ← onExecutionResult TX TX_MAX e used; _) fr2) as [fr3 [[]|?]]; by eexists.
Qed.
End Serving.

(** What more fuel answers, less fuel answered when it answered. *)
Section Monotone.
Context (f g : ExecutionParameters → shared → option (shared * result vm_error evaluation)).
Context (f_g : ∀ p s x, f p s = Some x → g p s = Some x).

Lemma internalCall_mono cd d u to fr x :
  internalCall TX TX_MAX f cd d u to fr = Some x → internalCall TX TX_MAX g cd d u to fr = Some x.
Proof.
  unfold internalCall. destruct (f _ fr.1) as [[s' r]|] eqn:E; [|done]. by rewrite (f_g _ _ _ E).
Qed.

Lemma fueled_bind_mono {A B} (c : op A) (k k' : A → fueled B) fr x :
  (∀ y fr x, k y fr = Some x → k' y fr = Some x) →
  fueled_bind (fuel_lift c) k fr = Some x → fueled_bind (fuel_lift c) k' fr = Some x.
Proof. intros Hk. unfold fueled_bind, fuel_lift. destruct (c fr) as [fr1 [y|e]]; auto. Qed.

Lemma call_mono gas memory to cd fr x :
  call TX TX_MAX f gas memory to cd fr = Some x → call TX TX_MAX g gas memory to cd fr = Some x.
Proof.
  unfold call. set (c := fueled_bind _ _). destruct (c fr) as [y|] eqn:E; [|done].
  eapply fueled_bind_mono in E; [rewrite E; done|]. intros ? ? ?. apply internalCall_mono.
Qed.

Lemma deploy_mono gas template salt cd fr x :
  deployContractFromAddressRaw TX TX_MAX blockNumber f gas template salt cd fr = Some x →
  deployContractFromAddressRaw TX TX_MAX blockNumber g gas template salt cd fr = Some x.
Proof.
  unfold deployContractFromAddressRaw. destruct (lift_counter _ fr) as [fr1 [[]|e]]; [|done].
  set (c := fueled_bind _ _). destruct (c fr1) as [y|] eqn:E; [|done].
  eapply fueled_bind_mono in E; [rewrite E; done|]. intros d fr2 z. unfold fueled_bind.
  destruct (internalCall TX TX_MAX f cd true false d.1 fr2) as [w|] eqn:Ei; [|done].
  by rewrite (internalCall_mono _ _ _ _ _ _ Ei).
Qed.

Lemma serve_mono q fr x :
  serve TX TX_MAX blockNumber K f q fr = Some x → serve TX TX_MAX blockNumber K g q fr = Some x.
Proof.
  revert fr. induction q as [status gas data used|e used|ptr k IH|ptr v k IH|gas m to cd k IH|gas t salt cd k IH|
    gas src cd k IH|e k IH|a k IH|h k IH|level a k IH]; intros fr; cbn [serve]; try done.
  - destruct (load ptr fr). apply IH.
  - apply IH.
  - destruct (call TX TX_MAX f gas m to cd fr) as [[fr1 r]|] eqn:E; [|done].
    rewrite (call_mono _ _ _ _ _ _ E). apply IH.
  - destruct (deployContractFromAddressRaw TX TX_MAX blockNumber f gas t salt cd fr) as [[fr1 r]|] eqn:E; [|done].
    rewrite (deploy_mono _ _ _ _ _ _ E). apply IH.
  - destruct (updateContractFromAddressRaw _ _ _ _ _ fr). apply IH.
  - destruct (onEvent TX e fr). apply IH.
  - destruct (getAccountType a fr). apply IH.
  - destruct (getBlockHashImport h fr). apply IH.
  - destruct (loadMLDSA K level a fr). apply IH.
Qed.

Lemma run_mono c p s x :
  run TX TX_MAX COLD_STORAGE_LOAD blockNumber K instantiate f c p s = Some x →
  run TX TX_MAX COLD_STORAGE_LOAD blockNumber K instantiate g c p s = Some x.
Proof.
  unfold run. destruct (construct TX p s) as [s0 [v|e]]; [|done]. case_decide; [done|].
  destruct ((_ ← setEnvironment _ _; _) (s0, v)) as [fr1 [[]|e]]; [|done].
  destruct (serve _ _ _ _ f _ fr1) as [y|] eqn:E; [|done]. by rewrite (serve_mono _ _ _ E).
Qed.
End Monotone.

Lemma execute_mono n m p s x : (n ≤ m)%nat → execute n p s = Some x → execute m p s = Some x.
Proof.
  revert m p s x. induction n as [|n IH]; intros [|m] p s x Hle; cbn [executeCallInternal]; try done; [lia|].
  destruct (find_contract s (p_contractAddress p)) as [c|]; [|done].
  apply run_mono. intros p' s' y. apply IH. lia.
Qed.

Context (new_cost : 0 ≤ NEW_STORAGE_SLOT_GAS_COST K) (update_cost : 0 ≤ UPDATED_STORAGE_SLOT_GAS_COST K)
  (events_limit : 0 ≤ MAXIMUM_TOTAL_EVENT_LENGTH TX).

(** Fuel above the room is enough. *)
Lemma execute_total fuel p s : (room s < fuel)%nat → is_Some (execute fuel p s).
Proof.
  revert p s. induction fuel as [|n IH]; intros p s Hn; [lia|]. cbn [executeCallInternal].
  destruct (find_contract s (p_contractAddress p)) as [c|]; [|by eexists].
  apply run_total with n; [|by auto|lia]. intros p' s' s'' r. by apply execute_called.
Qed.

(** C11: The calls of a transaction end, whatever its contracts do: the call depth and
    the deployments left bound their nesting, and any larger bound gives the same
    result. *)
Theorem calls_terminate p s fuel :
  (room s < fuel)%nat →
  ∃ x, execute fuel p s = Some x ∧ ∀ fuel', (room s < fuel')%nat → execute fuel' p s = Some x.
Proof.
  intros Hf. destruct (execute_total fuel p s Hf) as [x Hx]. exists x. split; [done|]. intros fuel' Hf'.
  destruct (execute_total fuel' p s Hf') as [y Hy].
  rewrite Hy. apply (execute_mono _ (Nat.max fuel fuel')) in Hx, Hy; [|lia..]. congruence.
Qed.

(** ** The requests of a run *)

Section Requests.
Context (fuel : nat) (c : ContractInformation) (p : ExecutionParameters).

Abbreviation run_c := (run TX TX_MAX COLD_STORAGE_LOAD blockNumber K instantiate (execute fuel) c p).
Abbreviation call_ := (call TX TX_MAX (execute fuel)).
Abbreviation deploy_ := (deployContractFromAddressRaw TX TX_MAX blockNumber (execute fuel)).
Abbreviation update_ := (updateContractFromAddressRaw TX TX_MAX).

(** A request answered. *)
Inductive answered : session → frame → session → frame → Prop :=
| answered_load ptr k fr fr' r : load ptr fr = (fr', r) → answered (Load ptr k) fr (k r) fr'
| answered_store ptr x k fr : answered (Store ptr x k) fr k (store ptr x fr).1
| answered_call gas m to cd k fr fr' r :
    call_ gas m to cd fr = Some (fr', r) → answered (Call gas m to cd k) fr (k r) fr'
| answered_deploy gas t salt cd k fr fr' r :
    deploy_ gas t salt cd fr = Some (fr', r) → answered (DeployAt gas t salt cd k) fr (k r) fr'
| answered_update gas a cd k fr fr' r :
    update_ gas a cd fr = (fr', r) → answered (UpdateFrom gas a cd k) fr (k r) fr'
| answered_emit e k fr fr' r : onEvent TX e fr = (fr', r) → answered (Emit e k) fr (k r) fr'
| answered_type a k fr fr' r : getAccountType a fr = (fr', r) → answered (GetAccountType a k) fr (k r) fr'
| answered_hash h k fr fr' r : getBlockHashImport h fr = (fr', r) → answered (GetBlockHash h k) fr (k r) fr'
| answered_mldsa level a k fr fr' r :
    loadMLDSA K level a fr = (fr', r) → answered (LoadMLDSA level a k) fr (k r) fr'.

(** What the contract asks, and the frame it asks it in, during a run from [s]. *)
Inductive asks s : session → frame → Prop :=
| asks_start s0 v fr :
    construct TX p s = (s0, Ok v) → ¬ maxGas s0 - gasUsed s0 < 0 →
    let i := instantiate c (if p_isDeployment p then OnDeploy else if p_isUpdate p then OnUpdate else Execute)
               (p_msgSender p) (combinedGas v s0) (maxGasVM TX_MAX v s0) (memoryPagesUsed v) (p_calldata p) in
    (_ ← setEnvironment TX_MAX i; preloadPointers COLD_STORAGE_LOAD) (s0, v) = (fr, Ok tt) →
    asks s (i_session i) fr
| asks_next q fr q' fr' : asks s q fr → answered q fr q' fr' → asks s q' fr'.

Lemma external_called_c p' s s' r :
  p_externalCall p' = true → execute fuel p' s = Some (s', r) → called TX TX_MAX p' s s' r.
Proof. by apply execute_called. Qed.

Lemma answered_evolves q fr q' fr' : answered q fr q' fr' → evolves TX TX_MAX fr fr'.
Proof.
  destruct 1 as [ptr k fr fr' r E|ptr x k fr|gas m to cd k fr fr' r E|gas t salt cd k fr fr' r E|
    gas a cd k fr fr' r E|e k fr fr' r E|a k fr fr' r E|h k fr fr' r E|level a k fr fr' r E].
  - pose proof (keeps_load TX TX_MAX ptr fr) as Hk. by rewrite E in Hk.
  - apply keeps_store.
  - eapply evolves_call; [apply external_called_c|done].
  - eapply evolves_deploy; [apply external_called_c|done].
  - pose proof (keeps_updateContractFromAddressRaw TX TX_MAX gas a cd fr) as Hk. by rewrite E in Hk.
  - pose proof (keeps_onEvent TX TX_MAX e fr) as Hk. by rewrite E in Hk.
  - pose proof (keeps_getAccountType TX TX_MAX a fr) as Hk. by rewrite E in Hk.
  - pose proof (keeps_getBlockHash TX TX_MAX h fr) as Hk. by rewrite E in Hk.
  - pose proof (keeps_loadMLDSA TX TX_MAX K level a fr) as Hk. by rewrite E in Hk.
Qed.

Lemma answered_serve q fr q' fr' :
  answered q fr q' fr' →
  serve TX TX_MAX blockNumber K (execute fuel) q fr = serve TX TX_MAX blockNumber K (execute fuel) q' fr'.
Proof. destruct 1 as [? ? ? ? ? E| |? ? ? ? ? ? ? ? E|? ? ? ? ? ? ? ? E|? ? ? ? ? ? ? E|? ? ? ? ? E|? ? ? ? ? E|
    ? ? ? ? ? E|? ? ? ? ? ? E]; cbn [serve]; by rewrite ?E. Qed.

(** A request is made in a frame that comes from the start of the run, with a
    coherent state, and its run ends as the run of what is asked. *)
Lemma asks_spec s q fr :
  asks s q fr →
  (∃ s0, construct TX p s = (s0, Ok (fresh p)) ∧ evolves TX TX_MAX (s0, fresh p) fr) ∧
  ∀ s' v, run_c s = Some (s', Ok v) → ∃ fr1 out,
    serve TX TX_MAX blockNumber K (execute fuel) q fr = Some (fr1, out) ∧
    (is_Some (revert fr1.2) → is_Some (revert v)).
Proof.
  induction 1 as [s0 v fr Hc Hg i Hs|q fr q' fr' _ [(s0 & Hc & Hev) IH] Ha].
  - pose proof Hc as Hc'. apply (construct_evolves TX TX_MAX) in Hc' as [_ Hv].
    destruct (Hv v eq_refl) as [-> _]. split.
    + exists s0. split; [done|].
      assert (keeps TX TX_MAX (_ ← setEnvironment TX_MAX i; preloadPointers COLD_STORAGE_LOAD)) as Hk
        by (apply keeps_bind; [apply keeps_setEnvironment|intros; apply keeps_preloadPointers]).
      specialize (Hk (s0, fresh p)). by rewrite Hs in Hk.
    + intros s' v'. unfold run. rewrite Hc, decide_False by done. fold i. rewrite Hs.
      destruct (serve _ _ _ _ _ _ fr) as [[fr1 [e used]]|]; [|done].
      intros Hr. exists fr1, (e, used). split; [done|]. intros Hrev.
      pose proof (keeps_onExecutionResult TX TX_MAX e used fr1) as Hk.
      unfold mbind, stx_bind in Hr. destruct (onExecutionResult TX TX_MAX e used fr1) as [fr2 [[]|e']].
      * destruct (terminateEvaluation TX_MAX K fr2) as [fr3 [[]|e']] eqn:Et; [|by injection Hr as _ <-].
        apply (terminate_final TX) in Et as [Et _]; [|done..]. injection Hr as _ <-.
        rewrite Et. by apply (ev_revert _ _ _ _ Hk).
      * by injection Hr as _ <-.
  - split.
    + exists s0. split; [done|]. transitivity fr; [done|]. by eapply answered_evolves.
    + intros s' v Hr. destruct (IH s' v Hr) as (fr1 & out & Hs & Hrev). exists fr1, out.
      by rewrite <-(answered_serve _ _ _ _ Ha).
Qed.

(** ** A failed call reverts the transaction *)

Lemma internalCall_failed cd d u to fr fr' w res st used :
  internalCall TX TX_MAX (execute fuel) cd d u to fr = Some (fr', Ok (w, res, st, used)) →
  st ≠ 0 → is_Some (revert fr'.2).
Proof.
  unfold internalCall. destruct (execute fuel _ fr.1) as [[s [v|e]]|]; [|done|done].
  intros [= Hr] Hst. revert Hr. unfold mbind at 1, stx_bind at 1.
  destruct (is_reverted v) eqn:Ev; [|by destruct (merge _ _ _ _) as [? [[]|]]; intros [= <- <- <- <- <-]].
  unfold is_reverted in Ev. apply bool_decide_eq_true in Ev as [rv Erv].
  unfold merge, mbind, stx_bind, sget. rewrite Erv.
  destruct (tracker_op _ (s, fr.2)) as [fr1 [[]|e]]; [|done]. by intros [= <- _ _ _ _].
Qed.

Lemma fueled_bind_Ok {A B} (c1 : fueled A) (k : A → fueled B) fr fr' y :
  fueled_bind c1 k fr = Some (fr', Ok y) → ∃ fr1 x, c1 fr = Some (fr1, Ok x) ∧ k x fr1 = Some (fr', Ok y).
Proof. unfold fueled_bind. destruct (c1 fr) as [[fr1 [x|e]]|]; [|done..]. eauto. Qed.

(** The answers by which a contract learns of a failure. *)
Definition failed_answer (q : session) fr : Prop :=
  match q with
  | Call gas m to cd _ => ∃ fr' r, call_ gas m to cd fr = Some (fr', r) ∧ c_status r ≠ 0
  | DeployAt gas t salt cd _ => ∃ fr' r, deploy_ gas t salt cd fr = Some (fr', r) ∧ d_status r ≠ 0
  | UpdateFrom gas a cd _ => u_status (update_ gas a cd fr).2 ≠ 0
  | _ => False
  end.

Lemma failed_answer_reverts q fr fr' out :
  failed_answer q fr → serve TX TX_MAX blockNumber K (execute fuel) q fr = Some (fr', out) → is_Some (revert fr'.2).
Proof.
  assert (∀ q fr1, is_Some (revert fr1.2) →
    serve TX TX_MAX blockNumber K (execute fuel) q fr1 = Some (fr', out) → is_Some (revert fr'.2)) as Hend.
  { intros q1 fr1 Hr Hs. apply evolves_serve in Hs; [|apply external_called_c]. by apply (ev_revert _ _ _ _ Hs). }
  destruct q as [| | | |gas m to cd k|gas t salt cd k|gas a cd k| | | |]; cbn [failed_answer serve]; try done.
  - intros (fr1 & r & Hc & Hst). rewrite Hc. apply Hend. revert Hc. unfold call. set (c0 := fueled_bind _ _).
    assert (∀ fr2 w res st used, c0 fr = Some (fr2, Ok (w, res, st, used)) → st ≠ 0 → is_Some (revert fr2.2)) as H0.
    { intros fr2 w res st used (fr3 & _ & _ & Hi)%fueled_bind_Ok. by eapply internalCall_failed. }
    destruct (c0 fr) as [[fr2 [[[[w res] st] used]|e]]|]; [| |done]; intros [= <- <-]; [by eapply H0|by eexists].
  - intros (fr1 & r & Hc & Hst). rewrite Hc. apply Hend. revert Hc. unfold deployContractFromAddressRaw.
    destruct (lift_counter _ fr) as [fr0 [[]|e]]; [|intros [= <- <-]; by eexists].
    set (c0 := fueled_bind _ _).
    assert (∀ fr2 d w res st used, c0 fr0 = Some (fr2, Ok (d, (w, res, st, used))) → st ≠ 0 →
      is_Some (revert fr2.2)) as H0.
    { intros fr2 d w res st used (fr3 & d' & _ & (fr4 & y & Hi & [= <- _ ->])%fueled_bind_Ok)%fueled_bind_Ok.
      by eapply internalCall_failed. }
    destruct (c0 fr0) as [[fr2 [[d [[[w res] st] used]]|e]]|]; [| |done]; intros [= <- <-];
      [by eapply H0|by eexists].
  - intros _. unfold updateContractFromAddressRaw. destruct (lift_counter _ fr) as [fr0 [[]|e]].
    + destruct (setGasUsed TX_MAX gas fr0) as [fr1 [[]|e]]; apply Hend; by eexists.
    + apply Hend. by eexists.
Qed.
End Requests.

(** C2: A transaction is atomic: when a call, a deployment or an update that a
    contract makes fails, the evaluation of the contract is reverted, even when
    the contract goes on and exits well; and a reverted evaluation changes no
    storage, emits no event and deploys no contract. *)
Theorem failed_call_reverts fuel c p s q fr s' v :
  asks fuel c p s q fr → failed_answer fuel q fr →
  find_contract s (p_contractAddress p) = Some c → execute (S fuel) p s = Some (s', Ok v) →
  let r := getEvaluationResult (s', v) in
  is_Some (res_revert r) ∧ changedStorage r = Some m_empty ∧ res_events r = m_empty ∧ res_deployed r = [].
Proof.
  intros Ha Hf Hfind. cbn [executeCallInternal]. rewrite Hfind. intros Hr.
  apply asks_spec in Ha as [_ Ha]. destruct (Ha s' v Hr) as (fr1 & out & Hs & Hrev).
  apply failed_answer_reverts in Hs; [|done]. apply Hrev in Hs.
  unfold getEvaluationResult. cbn. replace (is_reverted v) with true; [by split_and!|].
  unfold is_reverted. by rewrite bool_decide_true.
Qed.


(** ** The storage of the contracts *)

(** Operations that leave the storage alone. *)
Definition quiet {A} (o : op A) : Prop := ∀ fr, storage (o fr).1.1 = storage fr.1.

Lemma quiet_bind {A B} (o : op A) (k : A → op B) : quiet o → (∀ x, quiet (k x)) → quiet (o ≫= k).
Proof.
  intros Ho Hk fr. specialize (Ho fr). unfold mbind, stx_bind.
  destruct (o fr) as [fr' [x|e]]; [|done]. by rewrite Hk.
Qed.
Lemma quiet_tracker f : quiet (tracker_op f).
Proof. intros fr. unfold tracker_op. by destruct (f _) as [g [|]]. Qed.
Lemma quiet_setGasUsed g : quiet (setGasUsed TX_MAX g).
Proof. intros fr. apply quiet_tracker. Qed.
Lemma quiet_eval f : quiet (on_eval f).
Proof. by intros fr. Qed.
Lemma quiet_ret {A} (x : A) : quiet (mret x).
Proof. by intros fr. Qed.
Lemma quiet_get : quiet sget.
Proof. by intros fr. Qed.
Lemma quiet_throw {A} e : quiet (sthrow (A := A) e).
Proof. by intros fr. Qed.
Lemma quiet_host {A} (r : result string A) : quiet (lift_host r).
Proof. by intros fr. Qed.
Lemma quiet_counter : quiet (on_shared incrementMLDSALoadCounter).
Proof. by intros fr. Qed.
Lemma quiet_reentrancy : quiet checkReentrancy.
Proof. intros fr. unfold checkReentrancy. by destruct (AddressStack.includes _ _). Qed.
Lemma quiet_mergeEvents es : quiet (mergeEvents TX es).
Proof. intros fr. unfold mergeEvents. by destruct (merge_keys _ _ _). Qed.
Lemma quiet_addContractInformation i : quiet (addContractInformation i).
Proof. intros fr. unfold addContractInformation. by destruct (m_get _ _). Qed.
Lemma quiet_emit e : quiet (onEvent TX e).
Proof. intros fr. unfold onEvent, emitEvent. by destruct (enforceEventLimits _ _ _). Qed.
Lemma quiet_load ptr : quiet (load ptr).
Proof.
  intros fr. by destruct (load_cases ptr fr) as [(x & _ & ->)|[(_ & o & _ & s' & -> & E & _)|(_ & e & _ & ->)]].
Qed.

#[local] Hint Resolve quiet_tracker quiet_setGasUsed quiet_eval quiet_ret quiet_get quiet_throw quiet_host
  quiet_counter quiet_reentrancy quiet_mergeEvents quiet_addContractInformation : quiet.

Ltac quieten := by_parts quiet_bind ltac:(fun _ => auto with quiet).
Ltac keep := by_parts keeps_bind ltac:(fun _ => auto with keeps).

Lemma quiet_merge extern : quiet (merge TX TX_MAX extern).
Proof. unfold merge. quieten. Qed.
Lemma quiet_deployContractAtAddress template salt : quiet (deployContractAtAddress blockNumber template salt).
Proof. unfold deployContractAtAddress. quieten. Qed.
Lemma quiet_getAccountType a : quiet (getAccountType a).
Proof. unfold getAccountType. quieten. Qed.
Lemma quiet_getBlockHash h : quiet (getBlockHashImport h).
Proof. unfold getBlockHashImport. quieten. Qed.
Lemma quiet_loadMLDSA level a : quiet (loadMLDSA K level a).
Proof. unfold loadMLDSA. quieten. Qed.
Lemma quiet_update gas a cd fr : storage (updateContractFromAddressRaw TX TX_MAX gas a cd fr).1.1 = storage fr.1.
Proof.
  unfold updateContractFromAddressRaw, lift_counter, incrementContractUpdates. case_decide; [done|].
  match goal with |- context [setGasUsed TX_MAX gas ?fr1] => pose proof (quiet_setGasUsed gas fr1) as Hq;
    destruct (setGasUsed TX_MAX gas fr1) as [fr2 [[]|e]] end; exact Hq.
Qed.

(** What is quiet is not the doing of the contract itself. *)
Lemma quiet_s_evolves fr fr' :
  evolves TX TX_MAX fr fr' → storage fr'.1 = storage fr.1 → s_evolves TX_MAX [] fr.1 fr'.1.
Proof.
  intros [_ [(l & E & _) D P C T] _ _] Hq. split; auto. exists l. split; [done|].
  intros a k _ _. unfold stored. by rewrite Hq.
Qed.

Lemma quiet_op {A} (o : op A) fr : keeps TX TX_MAX o → quiet o → s_evolves TX_MAX [] fr.1 (o fr).1.1.
Proof. intros Hk Hq. apply quiet_s_evolves; auto. Qed.

Section Isolation.
Context (fuel : nat).

Lemma internalCall_isolated cd d u to fr fr' r :
  internalCall TX TX_MAX (execute fuel) cd d u to fr = Some (fr', r) → s_evolves TX_MAX [] fr.1 fr'.1.
Proof.
  unfold internalCall. set (p := call_params _ _ _ _ _).
  destruct (execute fuel p fr.1) as [[s [v|e]]|] eqn:Ec; [| |done]; apply execute_called in Ec as [Hs Hok]; try done.
  - intros [= Hr]. transitivity s; [done|]. destruct (Hok v eq_refl) as [_ Hw].
    pose proof (quiet_s_evolves (s, fr.2) (merge TX TX_MAX v (s, fr.2)).1
      (evolves_merge TX TX_MAX v (s, fr.2) Hw) (quiet_merge v (s, fr.2))) as Hm.
    unfold mbind at 1, stx_bind in Hr. destruct (merge TX TX_MAX v (s, fr.2)) as [fr2 [[]|e]]; by injection Hr as <- <-.
  - by intros [= <- <-].
Qed.

Lemma fueled_isolated {A B} (o : op A) (k : A → fueled B) fr fr' r :
  keeps TX TX_MAX o → quiet o → (∀ x fr fr' r, k x fr = Some (fr', r) → s_evolves TX_MAX [] fr.1 fr'.1) →
  fueled_bind (fuel_lift o) k fr = Some (fr', r) → s_evolves TX_MAX [] fr.1 fr'.1.
Proof.
  intros Hk Hq Hrest. pose proof (quiet_op o fr Hk Hq) as H0. unfold fueled_bind, fuel_lift.
  destruct (o fr) as [fr1 [x|e]]; [|by intros [= <- <-]]. intros Hr. transitivity fr1.1; [done|]. by eapply Hrest.
Qed.

#[local] Hint Resolve keeps_ret keeps_get keeps_throw keeps_host keeps_setGasUsed keeps_set_memory
  keeps_deployContractAtAddress quiet_deployContractAtAddress : keeps quiet.

Lemma call_isolated gas m to cd fr fr' r :
  call TX TX_MAX (execute fuel) gas m to cd fr = Some (fr', r) → s_evolves TX_MAX [] fr.1 fr'.1.
Proof.
  unfold call. set (c0 := fueled_bind _ _).
  destruct (c0 fr) as [[fr1 [[[[w res] st] used]|e]]|] eqn:Ec; [| |done]; intros [= <- <-];
    apply fueled_isolated in Ec; try done; try (by keep); try (by quieten); intros; by eapply internalCall_isolated.
Qed.

Lemma deploy_isolated gas t salt cd fr fr' r :
  deployContractFromAddressRaw TX TX_MAX blockNumber (execute fuel) gas t salt cd fr = Some (fr', r) →
  s_evolves TX_MAX [] fr.1 fr'.1.
Proof.
  unfold deployContractFromAddressRaw.
  assert (s_evolves TX_MAX [] fr.1 (lift_counter (incrementContractDeployDepth TX) fr).1.1) as Hi.
  { apply quiet_s_evolves; [apply keeps_increment_deploy|].
    unfold lift_counter, incrementContractDeployDepth. by case_decide. }
  destruct (lift_counter _ fr) as [fr1 [[]|e]]; [|by intros [= <- <-]]. cbn [fst] in Hi.
  set (c0 := fueled_bind _ _).
  assert (∀ fr2 x, c0 fr1 = Some (fr2, x) → s_evolves TX_MAX [] fr1.1 fr2.1) as Hc.
  { intros fr2 x. apply fueled_isolated; [by keep|by quieten|]. intros d fr3 fr4 y. unfold fueled_bind.
    destruct (internalCall _ _ _ _ _ _ _ fr3) as [[fr5 [z|e]]|] eqn:Ei; [| |done];
      apply internalCall_isolated in Ei; by intros [= <- <-]. }
  destruct (c0 fr1) as [[fr2 [[d [[[w res] st] used]]|e]]|]; [| |done]; intros [= <- <-];
    (transitivity fr1.1; [done|]); by apply (Hc _ _ eq_refl).
Qed.
End Isolation.

(** *** The memory a contract sees

    The abstract memory maps a contract and a pointer to a value, or to nothing
    when the node cannot read it.  [self] loads and stores in its own; what it
    calls may change the memory of [others] that ran. *)
Definition memory : Type := Address → Z → option Z.

Definition memory_step (self : Address) (others : list Address) (q : session) (m : memory) (q' : session)
    (m' : memory) : Prop :=
  match q with
  | Load ptr k =>
      (∀ a b, m' a b = m a b) ∧
      match m self ptr with
      | Some x => ∃ cold, q' = k (Ok (x, cold))
      | None => ∃ e, q' = k (Throw e)
      end
  | Store ptr x k => q' = k ∧ ∀ a b, m' a b = if decide (self = a ∧ ptr = b) then Some x else m a b
  | Call _ _ _ _ _ | DeployAt _ _ _ _ _ => ∀ a b, a ∉ others → m' a b = m a b
  | _ => ∀ a b, m' a b = m a b
  end.

Lemma stored_view s s' : (∀ a b, stored s' a b = stored s a b) → ∀ a b, view s' a b = view s a b.
Proof. intros Hs a b. unfold view. by rewrite Hs. Qed.

Lemma quiet_view s s' : storage s' = storage s → ∀ a b, view s' a b = view s a b.
Proof. intros E. apply stored_view. intros a b. unfold stored. by rewrite E. Qed.

Lemma load_value ptr fr :
  coherent fr.1 →
  match view fr.1 (contractAddress fr.2) ptr with
  | Some x => ∃ cold, (load ptr fr).2 = Ok (x, cold)
  | None => ∃ e, (load ptr fr).2 = Throw e
  end.
Proof.
  intros Hc. unfold view.
  destruct (load_cases ptr fr) as [(x & Hg & ->)|[(Hg & o & Eo & s' & -> & _)|(Hg & e & Ee & ->)]];
    rewrite getStorage_layers in Hg; destruct (stored fr.1 (contractAddress fr.2) ptr) as [y|]; try done.
  - injection Hg as ->. by eexists.
  - destruct (Hc _ _ _ Hg) as (o & -> & ->). by eexists.
  - rewrite Eo. by eexists.
  - rewrite Ee. by eexists.
Qed.

(** C10: Storage is a memory: in a run, a load answers the value the contract stored
    last in the slot or else the one the node has, a store changes that slot only,
    and a call changes only the memory of the contracts it ran; nothing else
    changes it. *)
Theorem storage_is_a_memory fuel c p s q fr q' fr' :
  coherent s → asks fuel c p s q fr → answered fuel q fr q' fr' →
  contractAddress fr.2 = p_contractAddress p ∧
  memory_step (p_contractAddress p) (drop (length (callStack fr.1)) (callStack fr'.1)) q (view fr.1) q' (view fr'.1).
Proof.
  intros Hcoh Hask Hans. apply asks_spec in Hask as [(s0 & Hc & Hev) _].
  assert (contractAddress fr.2 = p_contractAddress p) as Hself
    by (unfold contractAddress; by rewrite (ev_params _ _ _ _ Hev)).
  assert (coherent fr.1) as Hcf.
  { apply (se_coherent _ _ _ _ (ev_shared _ _ _ _ Hev)). apply (construct_evolves TX TX_MAX) in Hc as [H0 _].
    by apply (se_coherent _ _ _ _ H0). }
  split; [done|]. rewrite <-Hself.
  assert (∀ fr', s_evolves TX_MAX [] fr.1 fr'.1 → ∀ a b,
    a ∉ drop (length (callStack fr.1)) (callStack fr'.1) → view fr'.1 a b = view fr.1 a b) as Hothers.
  { intros fr1 [(l & El & Hl) _ _ _ _] a b. rewrite El, drop_app_length. intros Ha. unfold view.
    by rewrite Hl by (done || apply not_elem_of_nil). }
  destruct Hans as [ptr k fr fr' r E|ptr x k fr|gas m to cd k fr fr' r E|gas t salt cd k fr fr' r E|
    gas a cd k fr fr' r E|e k fr fr' r E|a k fr fr' r E|h k fr fr' r E|level a k fr fr' r E]; cbn [memory_step].
  - pose proof (quiet_load ptr fr) as Hq. pose proof (load_value ptr fr Hcf) as Hv. rewrite E in Hq, Hv.
    cbn in Hq, Hv. split; [by apply quiet_view|].
    destruct (view fr.1 _ ptr); destruct Hv as [? ->]; by eexists.
  - split; [done|]. intros a b. unfold view. rewrite (stored_setStorage ptr x fr a b : stored (store ptr x fr).1.1 a b = _).
    by case_decide.
  - apply Hothers. by eapply call_isolated.
  - apply Hothers. by eapply deploy_isolated.
  - apply quiet_view. pose proof (quiet_update gas a cd fr) as Hq. by rewrite E in Hq.
  - apply quiet_view. pose proof (quiet_emit e fr) as Hq. by rewrite E in Hq.
  - apply quiet_view. pose proof (quiet_getAccountType a fr) as Hq. by rewrite E in Hq.
  - apply quiet_view. pose proof (quiet_getBlockHash h fr) as Hq. by rewrite E in Hq.
  - apply quiet_view. pose proof (quiet_loadMLDSA level a fr) as Hq. by rewrite E in Hq.
Qed.

(** The call stack records the contracts that ran: a call pushes its contract
    and those it calls and pops none, and the storage of a contract that did not
    run, and is not in the access list of a simulation, is what it was. *)
Theorem only_called_contracts_write fuel p s s' v :
  execute fuel p s = Some (s', Ok v) →
  ∃ l, callStack s' = callStack s ++ p_contractAddress p :: l ∧
    ∀ a k, a ∉ listed p → a ∉ p_contractAddress p :: l → stored s' a k = stored s a k.
Proof.
  intros Hr. apply execute_ended in Hr; [|done..]. destruct Hr as [[g [(l' & El' & Hl') _ _ _ _]] [l El] _ _ _ _ _].
  cbn in El'. exists l. split; [done|]. intros a k Ha Hl. apply Hl'; [done|].
  by rewrite El, app_inv_head_iff in El'; subst l'.
Qed.

(** C38: Evaluations are well typed records of a transaction: what one changed is in
    the storage of the transaction, each of its events is within the limits of the
    consensus, and the data of its events, summed, is within the total it counted
    and the limit of that. *)
Theorem evaluation_well_formed fuel p s s' v :
  execute fuel p s = Some (s', Ok v) → params v = p ∧ well_formed TX (s', v).
Proof. intros Hr. apply execute_ended in Hr; [|done..]. split; apply Hr. Qed.

(** The result of a transaction: unless it was reverted, its changed storage is
    the storage of the transaction, slot by slot, and there is a result; and it
    reports the gas of the tracker. *)
Theorem successful_result fuel p s s' v :
  execute fuel p s = Some (s', Ok v) →
  let r := getEvaluationResult (s', v) in
  res_revert r = None →
  (∃ m data, changedStorage r = Some m ∧ res_result r = Some data ∧ ∀ a k, changed m a k = stored s' a k) ∧
  res_deployed r = (m_entries (deployedContracts s')).*2 ∧
  res_gasUsed r = GasTracker.gasUsed (gasTracker s') ∧
  Z.of_nat (events_size (res_events r)) ≤ MAXIMUM_TOTAL_EVENT_LENGTH TX.
Proof.
  intros Hr. apply execute_ended in Hr; [|done..]. unfold getEvaluationResult. cbn. intros Hn.
  destruct (ended_reports _ _ _ _ _ _ Hr Hn) as (m & data & Hm & Hd & Heq).
  replace (is_reverted v) with false by (unfold is_reverted; by rewrite Hn).
  split; [by exists m, data|]. split; [done|]. split; [done|].
  destruct (ended_wf _ _ _ _ _ _ Hr) as [_ _ _ Hs Ht]. cbn in *. lia.
Qed.

End Transaction.

(** ** A transaction of three contracts

    [alice] increments her slot, calls [bob], who stores in his, and emits an
    event; [carol] calls [dave], who fails, and exits well all the same. *)

#[local] Existing Instance string_btclib.

#[local] Existing Instance example_vmlib.

(** Slot 1 of alice is 41 in the database. *)
Definition example_read (a : string) (k : Z) : option Z := if decide (a = "alice" ∧ k = 1) then Some 41 else None.

Definition example_host : VMHost := {|
  host_getStorage := fun a k => Ok (example_read a k);
  host_getStorageMultiple := fun (l : list (string * list Z)) =>
    Ok (Some ((fun ap : string * list Z => (ap.1, (fun k => (k, example_read ap.1 k)) <$> ap.2)) <$> l));
  host_getContract := fun a => Some (mkInfo 1 a [0; 1] "deployer" [] "deployer");
  host_isContract := fun _ => Ok true;
  host_inContractCache := fun _ => false;
  host_contractExists := fun _ => Ok false;
  host_generateAddress := fun _ _ _ => "new";
  host_deployContract := fun _ => Ok tt;
  host_getMLDSAPublicKey := fun _ => Ok None;
  host_getBlockHash := fun _ => Throw "no hash"
|}.
#[local] Existing Instance example_host.

#[local] Instance example_laws : VMHostLaws.
Proof.
  split. intros l p a pointers k o. cbn. intros [= <-] ([b ks] & [= -> ->] & _)%list_elem_of_fmap.
  induction ks as [|k' ks IH] using rev_ind; [done|]. cbn in *.
  rewrite fmap_app. cbn. rewrite last_entry_snoc. case_decide; [by intros [= <-]; subst|exact IH].
Qed.

Definition alice_loaded (r : result vm_error (Z * bool)) : session :=
  match r with
  | Ok (x, _) =>
      Store 1 (x + 1) (Call 10 0 "bob" [] (fun r =>
        Emit (mkEvent [65] [1; 2; 3]) (fun _ => Exit 0 (20 + c_gas r) [1] (Some 30))))
  | Throw _ => Reject "cannot load" None
  end.
Definition alice : session := Load 1 alice_loaded.
Definition bob : session := Store 2 9 (Exit 0 15 [] (Some 15)).
Definition carol : session := Call 10 0 "dave" [] (fun _ => Exit 0 20 [1] (Some 20)).
Definition dave : session := Reject "I fail" (Some 12).

Definition example_contract (c : ContractInformation) (e : entry) (sender : Address) (used limit memory : Z)
    (calldata : bytes) : instance :=
  mkInstance (Some used) None
    (if decide (contractPublicKey c = "alice") then alice else
     if decide (contractPublicKey c = "bob") then bob else
     if decide (contractPublicKey c = "carol") then carol else dave).

Definition example_constants : VMConstants := {|
  NEW_STORAGE_SLOT_GAS_COST := 100; UPDATED_STORAGE_SLOT_GAS_COST := 40;
  MLDSA_key_length := fun _ => 1312; MLDSA_enabled := fun _ => true; MLDSA_MAX_LOADS := 2 |}.

Definition example_shared : shared :=
  mkShared m_empty m_empty m_empty (GasTracker.construct 150000000000 1000 None) [] 0 0 0.
Definition example_params (a : string) : ExecutionParameters :=
  mkParams a "sender" [] false false false 0 None None None.
Definition example_info (a : string) : ContractInformation := mkInfo 1 a [0; 1] "deployer" [] "deployer".

Abbreviation example_execute :=
  (executeCallInternal Roswell_TRANSACTIONS 150000000000 21000 100 example_constants example_contract).

(** The slots after the transaction, its gas, and whether it was reverted. *)
Definition example_outcome (fuel : nat) (a : string) (slots : list (string * Z)) : option (list (option Z) * Z * bool) :=
  match example_execute fuel (example_params a) example_shared with
  | Some (s', Ok v) =>
      let r := getEvaluationResult (s', v) in
      Some ((fun ak => changed (default m_empty (changedStorage r)) ak.1 ak.2) <$> slots, res_gasUsed r,
            bool_decide (is_Some (res_revert r)))
  | _ => None
  end.

Example alice_succeeds :
  example_outcome 3 "alice" [("alice", 1); ("bob", 2); ("carol", 1)] = Some ([Some 42; Some 9; None], 165, false).
Proof. vm_compute. reflexivity. Qed.

Example carol_is_reverted : example_outcome 3 "carol" [("carol", 1)] = Some ([None], 20, true).
Proof. vm_compute. reflexivity. Qed.

Lemma calls_terminate_witness :
  ∃ x, example_execute 53 (example_params "alice") example_shared = Some x ∧
    ∀ fuel', (52 < fuel')%nat → example_execute fuel' (example_params "alice") example_shared = Some x.
Proof.
  apply (calls_terminate Roswell_TRANSACTIONS 150000000000 21000 100 example_constants example_contract);
    vm_compute; (lia || discriminate).
Defined.

(** The first frame of a run of [a]. *)
Definition example_frame (a : string) : frame :=
  ((_ ← setEnvironment 150000000000 (example_contract (example_info a) Execute "sender" 0 1000 0 []);
    preloadPointers 21000)
     ((construct Roswell_TRANSACTIONS (example_params a) example_shared).1, fresh (example_params a))).1.

Lemma example_asks fuel a :
  asks Roswell_TRANSACTIONS 150000000000 21000 100 example_constants example_contract fuel (example_info a)
    (example_params a) example_shared
    (i_session (example_contract (example_info a) Execute "sender" 0 1000 0 [])) (example_frame a).
Proof.
  refine (asks_start _ _ _ _ _ _ fuel (example_info a) (example_params a) example_shared
    (construct Roswell_TRANSACTIONS (example_params a) example_shared).1 (fresh (example_params a)) _ _ _ _).
  - reflexivity.
  - vm_compute. discriminate.
  - reflexivity.
Qed.

(** The end of a run of [a]. *)
Definition example_end (fuel : nat) (a : string) : option (shared * evaluation) :=
  match example_execute fuel (example_params a) example_shared with
  | Some (s', Ok v) => Some (s', v)
  | _ => None
  end.

Lemma example_end_execute fuel a s' v :
  example_end fuel a = Some (s', v) → example_execute fuel (example_params a) example_shared = Some (s', Ok v).
Proof. unfold example_end. by destruct (example_execute _ _ _) as [[? [|]]|]; intros [= <- <-]. Qed.

(** Whether the run of [a] ends, and well. *)
Definition example_ends (fuel : nat) (a : string) : option bool :=
  match example_end fuel a with Some (_, v) => Some (negb (is_reverted v)) | None => None end.

Lemma example_ends_spec fuel a b :
  example_ends fuel a = Some b →
  ∃ s' v, example_end fuel a = Some (s', v) ∧ (b = true → revert v = None).
Proof.
  unfold example_ends, is_reverted. destruct (example_end fuel a) as [[s' v]|]; [|done]. intros [= <-].
  exists s', v. split; [done|]. by destruct (revert v).
Qed.

Lemma failed_call_reverts_witness :
  ∃ s' v, example_end 3 "carol" = Some (s', v) ∧
    let r := getEvaluationResult (s', v) in
    is_Some (res_revert r) ∧ changedStorage r = Some m_empty ∧ res_events r = m_empty ∧ res_deployed r = [].
Proof.
  destruct (example_ends_spec 3 "carol" false) as (s' & v & E & Hrev); [vm_compute; reflexivity|].
  exists s', v. split; [exact E|].
  apply (failed_call_reverts Roswell_TRANSACTIONS 150000000000 21000 100 example_constants example_contract
    ltac:(vm_compute; discriminate) ltac:(vm_compute; discriminate) ltac:(vm_compute; discriminate)
    2 (example_info "carol") (example_params "carol") example_shared carol (example_frame "carol")).
  - apply (example_asks 2 "carol").
  - eexists _, _. split; [reflexivity|vm_compute; discriminate].
  - reflexivity.
  - by apply example_end_execute.
Defined.

Lemma example_coherent : coherent example_shared.
Proof. intros a k v. vm_compute. discriminate. Qed.

Lemma storage_is_a_memory_witness :
  memory_step "alice" [] alice (view (example_frame "alice").1)
    (alice_loaded (load 1 (example_frame "alice")).2)
    (view (load 1 (example_frame "alice")).1.1).
Proof.
  refine (proj2 (storage_is_a_memory Roswell_TRANSACTIONS 150000000000 21000 100 example_constants example_contract
    ltac:(vm_compute; discriminate) ltac:(vm_compute; discriminate) ltac:(vm_compute; discriminate)
    2 (example_info "alice") (example_params "alice") example_shared alice (example_frame "alice") _ _
    example_coherent (example_asks 2 "alice") _)).
  apply (answered_load _ _ _ _ _ _ _ 1 alice_loaded). by destruct (load 1 (example_frame "alice")).
Defined.

Lemma only_called_contracts_write_witness :
  ∃ s' v, example_end 3 "alice" = Some (s', v) ∧
    ∃ l, callStack s' = [] ++ "alice" :: l ∧
      ∀ a k, a ∉ listed (example_params "alice") → a ∉ "alice" :: l → stored s' a k = stored example_shared a k.
Proof.
  destruct (example_ends_spec 3 "alice" true) as (s' & v & E & Hrev); [vm_compute; reflexivity|].
  exists s', v. split; [exact E|].
  apply (only_called_contracts_write Roswell_TRANSACTIONS 150000000000 21000 100 example_constants example_contract
    ltac:(vm_compute; discriminate) ltac:(vm_compute; discriminate) ltac:(vm_compute; discriminate)
    3 (example_params "alice") example_shared s' v).
  by apply example_end_execute.
Defined.

Lemma evaluation_well_formed_witness :
  ∃ s' v, example_end 3 "alice" = Some (s', v) ∧ params v = example_params "alice" ∧
    well_formed Roswell_TRANSACTIONS (s', v).
Proof.
  destruct (example_ends_spec 3 "alice" true) as (s' & v & E & Hrev); [vm_compute; reflexivity|].
  exists s', v. split; [exact E|].
  apply (evaluation_well_formed Roswell_TRANSACTIONS 150000000000 21000 100 example_constants example_contract
    ltac:(vm_compute; discriminate) ltac:(vm_compute; discriminate) ltac:(vm_compute; discriminate)
    3 (example_params "alice") example_shared s' v).
  by apply example_end_execute.
Defined.

Lemma successful_result_witness :
  ∃ s' v, example_end 3 "alice" = Some (s', v) ∧
    ∃ m data, changedStorage (getEvaluationResult (s', v)) = Some m ∧
      res_result (getEvaluationResult (s', v)) = Some data ∧ ∀ a k, changed m a k = stored s' a k.
Proof.
  destruct (example_ends_spec 3 "alice" true) as (s' & v & E & Hrev); [vm_compute; reflexivity|].
  exists s', v. split; [exact E|].
  refine (proj1 (successful_result Roswell_TRANSACTIONS 150000000000 21000 100 example_constants example_contract
    ltac:(vm_compute; discriminate) ltac:(vm_compute; discriminate) ltac:(vm_compute; discriminate)
    3 (example_params "alice") example_shared s' v (example_end_execute _ _ _ _ E) _)).
  exact (Hrev eq_refl).
Defined.
