(* ===== verification/TransactionWords.v ===== *)
(** * The pointers of a transaction are words

    The native module reads the pointers of a contract from 32 bytes.  If the
    contracts only store at such pointers, then so does the transaction: its
    result can be written to the state of the block. *)

From S2P Require Import Prelude ConsensusRules Consensus Gas Evaluation Evaluator EvaluatorFacts TransactionSafety.
Import ContractEvaluation ContractEvaluator.

(** What a contract may ask: its stores are at pointers of which [Q] holds. *)
Fixpoint stores_in `{VMLib} (Q : Z → Prop) (q : session) : Prop :=
  match q with
  | Exit _ _ _ _ | Reject _ _ => True
  | Load _ k => ∀ r, stores_in Q (k r)
  | Store p _ k => Q p ∧ stores_in Q k
  | Call _ _ _ _ k => ∀ r, stores_in Q (k r)
  | DeployAt _ _ _ _ k => ∀ r, stores_in Q (k r)
  | UpdateFrom _ _ _ k => ∀ r, stores_in Q (k r)
  | Emit _ k => ∀ r, stores_in Q (k r)
  | GetAccountType _ k => ∀ r, stores_in Q (k r)
  | GetBlockHash _ k => ∀ r, stores_in Q (k r)
  | LoadMLDSA _ _ k => ∀ r, stores_in Q (k r)
  end.

Section Words.
Context {LB : BtcLib} {LV : @VMLib LB} {LH : @VMHost LB LV}.
Context (TX : TransactionsConfig) (TX_MAX COLD_STORAGE_LOAD blockNumber : Z) (K : VMConstants)
  (instantiate : ContractInformation → entry → Address → Z → Z → Z → bytes → instance).
Context (new_cost : 0 ≤ NEW_STORAGE_SLOT_GAS_COST K) (update_cost : 0 ≤ UPDATED_STORAGE_SLOT_GAS_COST K).
Context (Q : Z → Prop).
Context (contracts : ∀ c e a g m n d, stores_in Q (i_session (instantiate c e a g m n d))).
Implicit Types (s : shared) (fr : frame) (a : Address) (p : ExecutionParameters).

(** What the transaction stored is at pointers of which [Q] holds. *)
Definition stored_in s : Prop := ∀ a k, is_Some (stored s a k) → Q k.

Lemma stored_in_storage s s' : storage s' = storage s → stored_in s → stored_in s'.
Proof. intros E Hs a k. unfold stored. rewrite E. apply Hs. Qed.

Lemma stored_in_quiet {A} (o : op A) fr : quiet o → stored_in fr.1 → stored_in (o fr).1.1.
Proof. intros Ho. apply stored_in_storage, Ho. Qed.

Lemma stored_in_setStorage x v fr : Q x → stored_in fr.1 → stored_in (setStorage x v fr).1.1.
Proof. intros Hx Hs a k. rewrite stored_setStorage. case_decide as E; [by destruct E as [_ <-]|apply Hs]. Qed.

(** The same of what changes the shared state only. *)
Definition still {A} (o : stx shared vm_error A) : Prop := ∀ s, storage (o s).1 = storage s.

Lemma still_bind {A B} (o : stx shared vm_error A) (k : A → stx shared vm_error B) :
  still o → (∀ x, still (k x)) → still (o ≫= k).
Proof.
  intros Ho Hk s. specialize (Ho s). unfold mbind, stx_bind. destruct (o s) as [s' [x|e]]; [|done]. by rewrite Hk.
Qed.

Lemma construct_storage p s :
  (p_externalCall p = true ∨ p_accessList p = None) → storage (construct TX p s).1 = storage s.
Proof.
  intros Hp. revert s. change (still (construct TX p)). unfold construct. repeat (apply still_bind; [|intros _]).
  - destruct (p_isDeployment p); [|by intros s]. intros s. unfold incrementContractDeployDepth. by case_decide.
  - destruct (p_isUpdate p); [|by intros s]. intros s. unfold incrementContractUpdates. by case_decide.
  - by intros s.
  - destruct Hp as [->|H]; [by intros s|]. destruct (p_externalCall p); [by intros s|]. rewrite H. by intros s.
  - by intros s.
Qed.

Section Serving.
Context (callExternal : ExecutionParameters → shared → option (shared * result vm_error evaluation)).
Context (external : ∀ p s s' r, p_externalCall p = true → callExternal p s = Some (s', r) → stored_in s → stored_in s').

Definition stores_ok {A} (c : fueled A) : Prop := ∀ fr fr' r, c fr = Some (fr', r) → stored_in fr.1 → stored_in fr'.1.

Lemma stores_ok_lift {A} (o : op A) : quiet o → stores_ok (fuel_lift o).
Proof. intros Ho fr fr' r [= Hr] Hs. pose proof (stored_in_quiet o fr Ho Hs) as H. by rewrite Hr in H. Qed.

Lemma stores_ok_bind {A B} (c : fueled A) (k : A → fueled B) :
  stores_ok c → (∀ x, stores_ok (k x)) → stores_ok (fueled_bind c k).
Proof.
  intros Hc Hk fr fr' r. unfold fueled_bind. destruct (c fr) as [[fr1 [x|e]]|] eqn:E; [| |done].
  - intros Hr Hs. apply (Hk x fr1 fr' r Hr). by eapply Hc.
  - intros [= <- <-]. by eapply Hc.
Qed.

Lemma stores_ok_internalCall cd d u to : stores_ok (internalCall TX TX_MAX callExternal cd d u to).
Proof.
  intros fr fr' r. unfold internalCall. set (p := call_params _ _ _ _ _).
  destruct (callExternal p fr.1) as [[s [v|e]]|] eqn:Ec; [| |done];
    pose proof (external p fr.1 _ _ eq_refl Ec) as Hw.
  - intros [= Hr] Hs. specialize (Hw Hs). pose proof (stored_in_quiet (merge TX TX_MAX v) (s, fr.2) (quiet_merge TX TX_MAX v) Hw) as Hm.
    unfold mbind at 1, stx_bind in Hr. destruct (merge TX TX_MAX v (s, fr.2)) as [fr2 [[]|e]]; by injection Hr as <- <-.
  - intros [= <- <-] Hs. by apply Hw.
Qed.

#[local] Hint Resolve quiet_tracker quiet_setGasUsed quiet_eval quiet_ret quiet_get quiet_throw quiet_host
  quiet_counter quiet_reentrancy quiet_mergeEvents quiet_addContractInformation quiet_deployContractAtAddress : quiet.
Ltac quieten := by_parts quiet_bind ltac:(fun _ => auto with quiet).

Lemma call_stores gas m to cd fr fr' r :
  call TX TX_MAX callExternal gas m to cd fr = Some (fr', r) → stored_in fr.1 → stored_in fr'.1.
Proof.
  unfold call. set (c0 := fueled_bind _ _).
  assert (stores_ok c0) as Hc by (apply stores_ok_bind; [apply stores_ok_lift; by quieten|intros; apply stores_ok_internalCall]).
  destruct (c0 fr) as [[fr1 [[[[w res] st] used]|e]]|] eqn:Ec; [| |done]; intros [= <- <-] Hs; by apply (Hc _ _ _ Ec).
Qed.

Lemma deploy_stores gas t salt cd fr fr' r :
  deployContractFromAddressRaw TX TX_MAX blockNumber callExternal gas t salt cd fr = Some (fr', r) →
  stored_in fr.1 → stored_in fr'.1.
Proof.
  unfold deployContractFromAddressRaw. intros Hr Hs.
  assert (stored_in (lift_counter (incrementContractDeployDepth TX) fr).1.1) as Hi.
  { revert Hs. apply stored_in_storage. unfold lift_counter, incrementContractDeployDepth. by case_decide. }
  destruct (lift_counter _ fr) as [fr1 [[]|e]]; [|by injection Hr as <- <-]. cbn [fst] in Hi. revert Hr.
  set (c0 := fueled_bind _ _).
  assert (stores_ok c0) as Hc.
  { apply stores_ok_bind; [apply stores_ok_lift; by quieten|]. intros d. apply stores_ok_bind; [apply stores_ok_internalCall|].
    by intros x fr2 fr3 y [= <- <-]. }
  destruct (c0 fr1) as [[fr2 [[d [[[w res] st] used]]|e]]|] eqn:Ec; [| |done]; intros [= <- <-]; by apply (Hc _ _ _ Ec).
Qed.

Lemma serve_stores q fr fr' out :
  stores_in Q q → serve TX TX_MAX blockNumber K callExternal q fr = Some (fr', out) → stored_in fr.1 → stored_in fr'.1.
Proof.
  revert fr. induction q as [status gas data used|error used|ptr k IH|ptr x k IH|gas m to cd k IH|gas t salt cd k IH
    |gas a cd k IH|e k IH|a k IH|h k IH|level a k IH]; intros fr Hq; cbn [serve stores_in] in *.
  - by intros [= <- <-].
  - by intros [= <- <-].
  - pose proof (quiet_load ptr fr) as H. destruct (load ptr fr) as [fr1 r]. intros Hr Hs.
    by eapply IH, stored_in_storage.
  - destruct Hq as [Hp Hq]. intros Hr Hs. by eapply IH, stored_in_setStorage.
  - destruct (call _ _ _ _ _ _ _ fr) as [[fr1 r]|] eqn:Ec; [|done]. intros Hr Hs. by eapply IH, call_stores.
  - destruct (deployContractFromAddressRaw _ _ _ _ _ _ _ _ fr) as [[fr1 r]|] eqn:Ec; [|done]. intros Hr Hs.
    by eapply IH, deploy_stores.
  - pose proof (quiet_update TX TX_MAX gas a cd fr) as H. destruct (updateContractFromAddressRaw _ _ _ _ _ fr) as [fr1 r].
    intros Hr Hs. by eapply IH, stored_in_storage.
  - pose proof (quiet_emit TX e fr) as H. destruct (onEvent TX e fr) as [fr1 r]. intros Hr Hs. by eapply IH, stored_in_storage.
  - pose proof (quiet_getAccountType a fr) as H. destruct (getAccountType a fr) as [fr1 r]. intros Hr Hs.
    by eapply IH, stored_in_storage.
  - pose proof (quiet_getBlockHash h fr) as H. destruct (getBlockHashImport h fr) as [fr1 r]. intros Hr Hs.
    by eapply IH, stored_in_storage.
  - pose proof (quiet_loadMLDSA K level a fr) as H. destruct (loadMLDSA K level a fr) as [fr1 r]. intros Hr Hs.
    by eapply IH, stored_in_storage.
Qed.

Lemma quiet_preloadPointers : quiet (preloadPointers COLD_STORAGE_LOAD).
Proof.
  intros fr. unfold preloadPointers, sget, mbind, stx_bind. destruct (p_preloadStorageList _) as [l|]; [|done].
  case_decide; [done|]. unfold lift_host, slift. destruct (host_getStorageMultiple l) as [[p|]|e]; [|done..].
  apply (preloadedStorage_frame p fr.1).
Qed.

Lemma quiet_onExecutionResult e used : quiet (onExecutionResult TX TX_MAX e used).
Proof.
  intros fr. unfold onExecutionResult. destruct e as [status gas data|error].
  - revert fr. change (quiet (_ ← setGasUsed TX_MAX gas; processResult TX status data)).
    apply quiet_bind; [apply quiet_setGasUsed|]. intros _ fr. unfold processResult. do 2 (case_decide; [done|]).
    by case_match.
  - assert (∀ fr1 fr2 r, storage fr1.1 = storage fr.1 → setGasUsed TX_MAX (paidMaximum fr1.1) fr1 = (fr2, r) →
      storage fr2.1 = storage fr.1) as Hfall.
    { intros fr1 fr2 r E1 E2. pose proof (quiet_setGasUsed TX_MAX (paidMaximum fr1.1) fr1) as Hq. rewrite E2 in Hq. by rewrite <- E1. }
    destruct used as [gas|].
    + pose proof (quiet_setGasUsed TX_MAX gas fr) as Hk. destruct (setGasUsed TX_MAX gas fr) as [fr1 [[]|err]]; [exact Hk|].
      destruct (setGasUsed TX_MAX (paidMaximum fr1.1) fr1) as [fr2 [[]|?]] eqn:E; exact (Hfall fr1 fr2 _ Hk E).
    + destruct (setGasUsed TX_MAX (paidMaximum fr.1) fr) as [fr2 [[]|?]] eqn:E; exact (Hfall fr fr2 _ eq_refl E).
Qed.

Lemma quiet_terminate : quiet (terminateEvaluation TX_MAX K).
Proof.
  intros fr. destruct (terminateEvaluation TX_MAX K fr) as [fr' r] eqn:E.
  apply (terminate_final TX TX_MAX K new_cost update_cost) in E as [-> _]. done.
Qed.

Lemma quiet_failed used e fr : storage (failed TX_MAX used e fr).1 = storage fr.1.
Proof. destruct (failed_final TX TX_MAX used e fr) as [-> _]. done. Qed.

Lemma run_stores c p s s' r :
  (p_externalCall p = true ∨ p_accessList p = None) →
  run TX TX_MAX COLD_STORAGE_LOAD blockNumber K instantiate callExternal c p s = Some (s', r) →
  stored_in s → stored_in s'.
Proof.
  intros Hp. unfold run. intros Hr Hs.
  pose proof (construct_storage p s Hp) as Ec.
  destruct (construct TX p s) as [s0 [v|e]]; [|by injection Hr as <- <-; revert Hs; apply stored_in_storage].
  apply (stored_in_storage s s0 Ec) in Hs. revert Hr. clear Ec.
  case_decide. { intros [= <- <-]. revert Hs. apply (stored_in_storage s0), (quiet_failed None InvalidContractBytecode (s0, v)). }
  set (i := instantiate _ _ _ _ _ _ _).
  set (start := _ ← setEnvironment TX_MAX i; preloadPointers COLD_STORAGE_LOAD).
  assert (quiet start) as Hstart.
  { unfold start. apply quiet_bind; [unfold setEnvironment; by quieten|]. intros _. apply quiet_preloadPointers. }
  pose proof (stored_in_quiet start (s0, v) Hstart Hs) as H1. destruct (start (s0, v)) as [fr1 [[]|e]].
  2: { intros [= <- <-]. revert H1. exact (stored_in_storage _ _ (quiet_failed (i_used i) e fr1)). }
  destruct (serve _ _ _ _ _ _ fr1) as [[fr2 [e used]]|] eqn:Es; [|done].
  apply serve_stores in Es; [|apply contracts|exact H1].
  assert (quiet (_ ← onExecutionResult TX TX_MAX e used; terminateEvaluation TX_MAX K)) as Hend.
  { apply quiet_bind; [apply quiet_onExecutionResult|]. intros _. apply quiet_terminate. }
  pose proof (stored_in_quiet _ fr2 Hend Es) as H2. match goal with |- match ?x with _ => _ end = _ → _ => destruct x as [fr3 [[]|e3]] end.
  - by intros [= <- <-].
  - intros [= <- <-]. revert H2. exact (stored_in_storage _ _ (quiet_failed used e3 fr3)).
Qed.
End Serving.

Lemma execute_stores fuel p s s' r :
  (p_externalCall p = true ∨ p_accessList p = None) →
  executeCallInternal TX TX_MAX COLD_STORAGE_LOAD blockNumber K instantiate fuel p s = Some (s', r) →
  stored_in s → stored_in s'.
Proof.
  revert p s s' r. induction fuel as [|fuel IH]; intros p s s' r Hp; cbn [executeCallInternal]; [done|].
  destruct (find_contract s (p_contractAddress p)) as [c|]; [|by intros [= <- <-]].
  apply run_stores; [|done]. intros p0 s0 s1 r0 H0. apply IH. by left.
Qed.
End Words.
