(* ===== verification/BlockState.v ===== *)
(** * The state and the receipts of a block
    (block/merkle/MerkleTree.ts, StateMerkleTree.ts, ReceiptMerkleTree.ts)

    What the transactions of a block store, and their results, are kept by
    contract; when the block is done they become the leaves of Merkle trees whose
    roots go into the header.  The trees themselves are those of
    @btc-vision/rust-merkle-tree, a parameter.

    A leaf is a pointer and its value, or the hash of a transaction and its
    result; the contract is not part of it. *)

From S2P Require Import Prelude ConsensusRules Consensus Gas Evaluation.

(** ** The library of trees *)

Class MerkleLib `{VMLib} : Type := {
  RustTree : Type;
  rust_build : list bytes → RustTree;
  rust_root : RustTree → string;
  (** [getProof(getIndexData(data)).proofHashesHex()] *)
  rust_proof : RustTree → bytes → result string (list string);
  (** [new MerkleProof(proof).verify(root, hash(data))] *)
  rust_verify : string → bytes → list string → bool;
  (** BufferHelper of @btc-vision/transaction *)
  pointerToUint8Array : Z → bytes;
  uint8ArrayToPointer : bytes → Z;
  valueToUint8Array : Z → bytes;
  uint8ArrayToValue : bytes → Z
}.

(** A tree of two leaves or more proves each of them; the bytes of a pointer or of
    a value, which have 256 bits, are read back. *)
Definition word (z : Z) : Prop := 0 ≤ z < 2 ^ 256.

Class MerkleLaws `{MerkleLib} : Prop := {
  rust_proves l d :
    (2 ≤ length l)%nat → d ∈ l →
    ∃ p, rust_proof (rust_build l) d = Ok p ∧ p ≠ [] ∧ rust_verify (rust_root (rust_build l)) d p = true;
  pointer_roundtrip z : word z → uint8ArrayToPointer (pointerToUint8Array z) = z;
  value_roundtrip z : word z → uint8ArrayToValue (valueToUint8Array z) = z;
  same_decoding b : uint8ArrayToPointer b = uint8ArrayToValue b
}.

Inductive merkle_error : Type :=
| FrozenUpdate
| FrozenTree
| NotGenerated
| ProofNotFound
| RustError (message : string).

Definition ZERO_HASH : string := "0x0000000000000000000000000000000000000000000000000000000000000000".
Definition MAX_HASH : string := "0xffffffffffffffffffffffffffffffffffffffffffffffffffffffffffffffff".
Definition MAX_MINUS_ONE : string := "0xfffffffffffffffffffffffffffffffffffffffffffffffffffffffffffffffe".
Definition BTC_FAKE_ADDRESS `{BtcLib} : Address := Address_dead.

(** ** MerkleTree *)

Module MerkleTree.
Section MerkleTree.
Context {LB : BtcLib} {LV : @VMLib LB} {LM : @MerkleLib LB LV} {K V : Type} `{EqDecision K}.
(** What the two classes of trees define: the bytes of a leaf, the dummy values,
    and when a value counts as unchanged. *)
Context (toBytes : K → V → bytes) (getDummyValues : list (Address * list (K * V))) (unchanged : V → V → bool).

Record t : Type := mk {
  values : AddressMap (list (K * V));
  valueChanged : bool;
  frozen : bool;
  tree_ : option RustTree
}.

Definition initial : t := mk m_empty false false None.

Definition MINIMUM_VALUES : nat := 2.

Definition set_values (x : AddressMap (list (K * V))) (m : t) : t := mk x (valueChanged m) (frozen m) (tree_ m).
Definition set_changed (b : bool) (m : t) : t := mk (values m) b (frozen m) (tree_ m).

Definition size (m : t) : Z := Z.of_nat (length (m_entries (values m))).
Definition hasTree (m : t) : bool := bool_decide (is_Some (tree_ m)).

Definition root (m : t) : result merkle_error string :=
  match tree_ m with Some r => Ok (rust_root r) | None => Throw NotGenerated end.

Definition getProofHashes (m : t) (data : bytes) : result merkle_error (list string) :=
  match tree_ m with
  | None => Throw NotGenerated
  | Some r => match rust_proof r data with Ok p => Ok p | Throw e => Throw (RustError e) end
  end.

Definition map_of (m : t) (a : Address) : list (K * V) := default [] (m_get (values m) a).

Definition ensureAddress (a : Address) (m : t) : t :=
  match m_get (values m) a with Some _ => m | None => set_values (m_set (values m) a []) m end.

(** One entry of [updateValue] and [updateValues]. *)
Definition put (a : Address) (m : t) (kv : K * V) : t :=
  let current := map_of m a in
  if match JsMap.get current kv.1 with Some c => unchanged c kv.2 | None => false end then m
  else set_changed true (set_values (m_set (values m) a (JsMap.set current kv.1 kv.2)) m).

Definition updateValue (a : Address) (key : K) (val : V) : stx t merkle_error unit := fun m =>
  if frozen m then (m, Throw FrozenUpdate) else (put a (ensureAddress a m) (key, val), Ok tt).

Definition updateValues (a : Address) (val : list (K * V)) (m : t) : t :=
  foldl (put a) (ensureAddress a m) val.

Definition getValue (m : t) (a : Address) (key : K) : option V :=
  match m_get (values m) a with Some map => JsMap.get map key | None => None end.

(** The proof of a leaf, which must not be empty. *)
Definition proof_of (m : t) (kv : K * V) : result merkle_error (list string) :=
  proof ← getProofHashes m (toBytes kv.1 kv.2);
  match proof with [] => Throw ProofNotFound | _ => Ok proof end.

Definition getValues (m : t) : list bytes :=
  (fun kv => toBytes kv.1 kv.2) <$> mjoin ((m_entries (values m)).*2).

Definition generateTree (regeneratedIfValueChanged : bool) : stx t merkle_error unit := fun m =>
  if frozen m then (m, Throw FrozenTree)
  else if decide (size m = 0) then (m, Ok tt)
  else if hasTree m && negb (valueChanged m) && negb regeneratedIfValueChanged then (m, Ok tt)
  else (mk (values m) false (frozen m) (Some (rust_build (getValues m))), Ok tt).

Definition countValues (m : t) : nat := length (mjoin ((m_entries (values m)).*2)).

(** The dummy values of one contract; a key that is there keeps its value. *)
Definition add_missing (current dummies : list (K * V)) : list (K * V) :=
  foldl (fun c kv => if JsMap.has c kv.1 then c else JsMap.set c kv.1 kv.2) current dummies.

Definition add_dummies (m : t) : t :=
  foldl (fun m '(a, dummies) => set_values (m_set (values m) a (match m_get (values m) a with
                                 | None => dummies
                                 | Some current => add_missing current dummies
                                 end)) m) m getDummyValues.

Definition freeze : stx t merkle_error unit := fun m =>
  let m := if decide (countValues m < MINIMUM_VALUES)%nat then add_dummies m else m in
  match generateTree true m with
  | (m, Ok _) => (mk (values m) (valueChanged m) true (tree_ m), Ok tt)
  | (m, Throw e) => (m, Throw e)
  end.

(** The values of one contract with their proofs, and of all contracts. *)
Fixpoint prove_all (m : t) (l : list (K * V)) : result merkle_error (list (K * (V * list string))) :=
  match l with
  | [] => Ok []
  | kv :: l' => p ← proof_of m kv; rest ← prove_all m l'; Ok ((kv.1, (kv.2, p)) :: rest)
  end.

Definition getValuesWithProofs (m : t) (a : Address) : result merkle_error (list (K * (V * list string))) :=
  match m_get (values m) a with None => Ok [] | Some map => prove_all m map end.

Fixpoint prove_contracts (m : t) (l : list Address) (acc : AddressMap (list (K * (V * list string))))
  : result merkle_error (AddressMap (list (K * (V * list string)))) :=
  match l with
  | [] => Ok acc
  | a :: l' => ps ← getValuesWithProofs m a; prove_contracts m l' (m_set acc a ps)
  end.

Definition getEverythingWithProofs (m : t)
  : result merkle_error (option (AddressMap (list (K * (V * list string))))) :=
  match tree_ m with
  | None => Ok None
  | Some _ => ps ← prove_contracts m (m_entries (values m)).*1 m_empty; Ok (Some ps)
  end.

(** The proofs alone; a contract without values has no entry. *)
Fixpoint proofs_of (m : t) (l : list (Address * list (K * V))) (acc : AddressMap (list (K * list string)))
  : result merkle_error (AddressMap (list (K * list string))) :=
  match l with
  | [] => Ok acc
  | (a, map) :: l' =>
      ps ← prove_all m map;
      proofs_of m l' (match map with
                      | [] => acc
                      | _ => m_set acc a (JsMap.of_list ((fun kvp => (kvp.1, kvp.2.2)) <$> ps))
                      end)
  end.

Definition getProofs (m : t) : result merkle_error (AddressMap (list (K * list string))) :=
  proofs_of m (m_entries (values m)) m_empty.
End MerkleTree.
End MerkleTree.

(** ** StateMerkleTree *)

Module StateMerkleTree.
Section StateMerkleTree.
Context {LB : BtcLib} {LV : @VMLib LB} {LM : @MerkleLib LB LV}.

Definition t : Type := MerkleTree.t (K := Z) (V := Z).

(** [toBytes] of the pointer and the value *)
Definition toBytes (key value : Z) : bytes := pointerToUint8Array key ++ valueToUint8Array value.

Definition getDummyValues : list (Address * list (Z * Z)) := [(BTC_FAKE_ADDRESS, [(1, 1); (2, 2)])].

(** [currentValue && currentValue === value]: zero is falsy. *)
Definition unchanged (current value : Z) : bool := truthy_big current && bool_decide (current = value).

Definition verify (root : string) (pointer value : bytes) (proof : list string) : bool :=
  rust_verify root (pointer ++ value) proof.

Definition updateValue : Address → Z → Z → stx t merkle_error unit := MerkleTree.updateValue unchanged.
Definition updateValues : Address → list (Z * Z) → t → t := MerkleTree.updateValues unchanged.
Definition freeze : stx t merkle_error unit := MerkleTree.freeze toBytes getDummyValues.
Definition generateTree : stx t merkle_error unit := MerkleTree.generateTree toBytes true.
Definition getEverythingWithProofs (m : t) := MerkleTree.getEverythingWithProofs toBytes m.

Definition getValueWithProofs (m : t) (a : Address) (key : Z) : result merkle_error (option (bytes * list string)) :=
  match MerkleTree.getValue m a key with
  | None => Ok None
  | Some value =>
      if MerkleTree.hasTree m
      then p ← MerkleTree.proof_of toBytes m (key, value); Ok (Some (valueToUint8Array value, p))
      else Ok (Some (valueToUint8Array value, []))
  end.
End StateMerkleTree.
End StateMerkleTree.

(** ** ReceiptMerkleTree *)

Module ReceiptMerkleTree.
Section ReceiptMerkleTree.
Context {LB : BtcLib} {LV : @VMLib LB} {LM : @MerkleLib LB LV}.

Definition t : Type := MerkleTree.t (K := string) (V := bytes).

Definition toBytes (key : string) (value : bytes) : bytes := fromHex key ++ value.

Definition getDummyValues : list (Address * list (string * bytes)) :=
  [(BTC_FAKE_ADDRESS, [(MAX_HASH, [1]); (MAX_MINUS_ONE, [1])])].

(** Results are compared as objects, and what is stored is a copy. *)
Definition unchanged (current value : bytes) : bool := false.

Definition updateValue : Address → string → bytes → stx t merkle_error unit := MerkleTree.updateValue unchanged.
Definition freeze : stx t merkle_error unit := MerkleTree.freeze toBytes getDummyValues.
Definition getProofs (m : t) := MerkleTree.getProofs toBytes m.

Definition getValueWithProofs (m : t) (a : Address) (key : string) : result merkle_error (option (bytes * list string)) :=
  if MerkleTree.hasTree m then
    match MerkleTree.getValue m a key with
    | None => Ok None
    | Some value => p ← MerkleTree.proof_of toBytes m (key, value); Ok (Some (value, p))
    end
  else Ok None.
End ReceiptMerkleTree.
End ReceiptMerkleTree.

(** ** Values *)

Section Facts.
Context {LB : BtcLib} {LV : @VMLib LB} {LM : @MerkleLib LB LV} {LL : @MerkleLaws LB LV LM}.
Context {K V : Type} `{EqDecision K}.
Context (toBytes : K → V → bytes) (getDummyValues : list (Address * list (K * V))) (unchanged : V → V → bool).
Context (unchanged_eq : ∀ c v, unchanged c v = true → c = v).
Import MerkleTree.
Implicit Types (m : t (K := K) (V := V)) (a : Address) (k : K) (v : V).

Lemma getValue_map_of m a k : getValue m a k = JsMap.get (map_of m a) k.
Proof. unfold getValue, map_of. by destruct (m_get (values m) a). Qed.

Lemma map_of_set m a l b : map_of (set_values (m_set (values m) a l) m) b = if decide (a = b) then l else map_of m b.
Proof. unfold map_of. cbn. rewrite m_get_set. by case_decide. Qed.

Lemma getValue_ensureAddress m a b k : getValue (ensureAddress a m) b k = getValue m b k.
Proof.
  rewrite !getValue_map_of. unfold ensureAddress. destruct (m_get (values m) a) eqn:E; [done|].
  rewrite map_of_set. case_decide; [|done]. subst b. unfold map_of. by rewrite E.
Qed.

Lemma getValue_put m a kv b k :
  getValue (put unchanged a m kv) b k = if decide (a = b ∧ kv.1 = k) then Some kv.2 else getValue m b k.
Proof.
  assert (getValue (set_changed true (set_values (m_set (values m) a (JsMap.set (map_of m a) kv.1 kv.2)) m)) b k =
    if decide (a = b ∧ kv.1 = k) then Some kv.2 else getValue m b k) as Hset.
  { rewrite !getValue_map_of.
    transitivity (JsMap.get (if decide (a = b) then JsMap.set (map_of m a) kv.1 kv.2 else map_of m b) k);
      [by rewrite <-map_of_set|].
    destruct (decide (a = b)) as [->|]; [rewrite JsMap.get_set|by rewrite decide_False by naive_solver].
    destruct (decide (kv.1 = k)); [by rewrite decide_True|by rewrite decide_False by naive_solver]. }
  unfold put. destruct (JsMap.get (map_of m a) kv.1) as [c|] eqn:Ec; [|exact Hset].
  destruct (unchanged c kv.2) eqn:Eu; [|exact Hset].
  case_decide as Hd; [|done]. destruct Hd as [-> <-].
  rewrite getValue_map_of, Ec. f_equal. by apply unchanged_eq.
Qed.

Lemma getValue_updateValues m a l b k :
  getValue (updateValues unchanged a l m) b k =
    if decide (a = b) then match JsMap.get (JsMap.of_list l) k with Some v => Some v | None => getValue m b k end
    else getValue m b k.
Proof.
  unfold updateValues. rewrite <-(getValue_ensureAddress m a b k). generalize (ensureAddress a m). clear m. intros m.
  induction l as [|[k' v'] l IH] using rev_ind; cbn; [by case_decide|].
  rewrite foldl_snoc, getValue_put, IH. cbn [fst snd].
  unfold JsMap.of_list. rewrite foldl_snoc. cbn [fst snd]. rewrite JsMap.get_set.
  destruct (decide (a = b)); [|by rewrite decide_False by naive_solver].
  destruct (decide (k' = k)); [by rewrite decide_True|by rewrite decide_False by naive_solver].
Qed.

(** ** Frozen trees *)

Lemma elem_of_getValues m a k v : getValue m a k = Some v → toBytes k v ∈ getValues toBytes m.
Proof.
  unfold getValue. destruct (m_get (values m) a) as [l|] eqn:E; [|done]. intros Hk%JsMap.get_elem_of.
  apply list_elem_of_fmap. exists (k, v). split; [done|]. apply list_elem_of_join. exists l. split; [done|].
  apply list_elem_of_fmap. exists (a, l). split; [done|]. by apply m_entries_get.
Qed.

Lemma getValues_length m : length (getValues toBytes m) = countValues m.
Proof. unfold getValues, countValues. by rewrite length_fmap. Qed.

Lemma countValues_two m a k1 k2 v1 v2 :
  k1 ≠ k2 → getValue m a k1 = Some v1 → getValue m a k2 = Some v2 → (2 ≤ countValues m)%nat.
Proof.
  unfold getValue, countValues. destruct (m_get (values m) a) as [l|] eqn:E; [|done].
  intros Hne H1%JsMap.get_elem_of H2%JsMap.get_elem_of.
  assert ((2 ≤ length l)%nat) as Hl.
  { destruct l as [|x [|y l]]; cbn; [by apply not_elem_of_nil in H1| |lia].
    apply list_elem_of_singleton in H1, H2. congruence. }
  apply m_entries_get in E. apply list_elem_of_split in E as (l1 & l2 & ->).
  rewrite fmap_app, fmap_cons, join_app. cbn. rewrite !length_app. lia.
Qed.

Lemma get_add_missing (c ds : list (K * V)) k :
  JsMap.get (add_missing c ds) k = match JsMap.get c k with Some v => Some v | None => JsMap.get ds k end.
Proof.
  unfold add_missing. revert c. induction ds as [|[k' v'] ds IH]; intros c; cbn; [by destruct (JsMap.get c k)|].
  rewrite IH. unfold JsMap.has. destruct (JsMap.get c k') as [v|] eqn:E.
  - destruct (JsMap.get c k) eqn:Ek; [done|]. rewrite decide_False; [done|congruence].
  - rewrite JsMap.get_set. destruct (decide (k' = k)) as [->|]; [by rewrite E, decide_True|].
    rewrite decide_False by congruence. done.
Qed.

Lemma add_missing_wf (c ds : list (K * V)) : JsMap.wf c → JsMap.wf (add_missing c ds).
Proof.
  unfold add_missing. revert c. induction ds as [|kv ds IH]; intros c Hc; cbn; [done|]. apply IH.
  destruct (JsMap.has c kv.1); [done|by apply JsMap.wf_set].
Qed.

Context (dummy_address : Address) (dummies : list (K * V)) (k1 k2 : K) (v1 v2 : V).
Context (dummies_eq : getDummyValues = [(dummy_address, dummies)]) (dummies_ne : k1 ≠ k2)
  (dummy_1 : JsMap.get dummies k1 = Some v1) (dummy_2 : JsMap.get dummies k2 = Some v2).

Lemma getValue_add_dummies m a k :
  getValue (add_dummies getDummyValues m) a k =
    match getValue m a k with
    | Some v => Some v
    | None => if decide (dummy_address = a) then JsMap.get dummies k else None
    end.
Proof.
  unfold add_dummies. rewrite dummies_eq. cbn. rewrite !getValue_map_of, map_of_set.
  case_decide as Ha; [subst a|by destruct (JsMap.get _ k)]. unfold map_of.
  destruct (m_get (values m) dummy_address) as [l|]; cbn; [apply get_add_missing|done].
Qed.

(** Freezing keeps every value, builds the tree of them, and there are two at
    least. *)
Lemma freeze_spec m :
  frozen m = false →
  ∃ m', freeze toBytes getDummyValues m = (m', Ok tt) ∧ (∀ a k v, getValue m a k = Some v → getValue m' a k = Some v) ∧
    (∀ a k, a ≠ dummy_address → getValue m' a k = getValue m a k) ∧
    (∀ a k, is_Some (getValue m' a k) → is_Some (getValue m a k) ∨ is_Some (JsMap.get dummies k)) ∧
    (∀ a, (∀ b, JsMap.wf (map_of m b)) → JsMap.wf dummies → JsMap.wf (map_of m' a)) ∧
    tree_ m' = Some (rust_build (getValues toBytes m')) ∧ (2 ≤ length (getValues toBytes m'))%nat.
Proof.
  intros Hf. unfold freeze. set (m0 := if decide _ then _ else m).
  assert ((2 ≤ countValues m0)%nat ∧ frozen m0 = false ∧ (∀ a k v, getValue m a k = Some v → getValue m0 a k = Some v) ∧
    (∀ a k, a ≠ dummy_address → getValue m0 a k = getValue m a k) ∧
    (∀ a k, is_Some (getValue m0 a k) → is_Some (getValue m a k) ∨ is_Some (JsMap.get dummies k)) ∧
    (∀ a, (∀ b, JsMap.wf (map_of m b)) → JsMap.wf dummies → JsMap.wf (map_of m0 a))) as (H2 & Hf0 & Hv & Ho & Hs & Hw).
  { unfold m0. unfold MINIMUM_VALUES. case_decide; [|split; [lia|split_and!; by auto]].
    split; [|split; [|split; [|split; [|split]]]].
    - assert (∀ k v, JsMap.get dummies k = Some v → is_Some (getValue (add_dummies getDummyValues m) dummy_address k))
        as Hd by (intros k v Hk; rewrite getValue_add_dummies, decide_True by done; rewrite Hk;
                  destruct (getValue m dummy_address k); by eexists).
      destruct (Hd _ _ dummy_1) as [w1 E1]. destruct (Hd _ _ dummy_2) as [w2 E2].
      by apply (countValues_two _ dummy_address k1 k2 w1 w2).
    - unfold add_dummies. by rewrite dummies_eq.
    - intros a k v Hv. by rewrite getValue_add_dummies, Hv.
    - intros a k Ha. rewrite getValue_add_dummies, decide_False by done. by destruct (getValue m a k).
    - intros a k. rewrite getValue_add_dummies. destruct (getValue m a k); [by left|].
      case_decide; by (right || intros [? ?]).
    - intros a Hm Hd'. unfold add_dummies. rewrite dummies_eq. cbn. rewrite map_of_set. case_decide as Ha; [|apply Hm].
      specialize (Hm dummy_address). unfold map_of in Hm. destruct (m_get (values m) dummy_address); [|done].
      by apply add_missing_wf. }
  unfold generateTree. rewrite Hf0. rewrite decide_False.
  - rewrite andb_false_r. eexists. split; [reflexivity|]. cbn. split; [exact Hv|].
    split; [exact Ho|]. split; [exact Hs|]. split; [exact Hw|]. split; [done|]. change (getValues toBytes _) with (getValues toBytes m0). by rewrite getValues_length.
  - unfold size. intros Hz. unfold countValues in H2.
    destruct (m_entries (values m0)); cbn in *; lia.
Qed.

Lemma frozen_proof m a k v :
  tree_ m = Some (rust_build (getValues toBytes m)) → (2 ≤ length (getValues toBytes m))%nat →
  getValue m a k = Some v →
  ∃ p r, proof_of toBytes m (k, v) = Ok p ∧ root m = Ok r ∧ rust_verify r (toBytes k v) p = true.
Proof.
  intros Ht Hl Hv%elem_of_getValues. destruct (rust_proves _ _ Hl Hv) as (p & Hp & Hne & Hver).
  exists p, (rust_root (rust_build (getValues toBytes m))).
  unfold proof_of, getProofHashes, root. rewrite Ht. cbn. rewrite Hp. cbn. by destruct p.
Qed.

(** Every value with its proof, when each has one. *)
Lemma prove_all_spec m (l : list (K * V)) :
  (∀ kv, kv ∈ l → ∃ p, proof_of toBytes m kv = Ok p) →
  ∃ ps, prove_all toBytes m l = Ok ps ∧ ∀ k v, JsMap.get l k = Some v →
    ∃ p, JsMap.get ps k = Some (v, p) ∧ proof_of toBytes m (k, v) = Ok p.
Proof.
  induction l as [|[k0 v0] l IH]; intros Hl; cbn; [by exists []|].
  destruct (Hl (k0, v0)) as [p Hp]; [by left|]. rewrite Hp. cbn.
  destruct IH as (ps & -> & Hps); [intros kv Hin; apply Hl; by right|]. cbn.
  eexists. split; [done|]. intros k v. cbn. case_decide as Hk; [|apply Hps].
  intros [= <-]. subst. eauto.
Qed.

Lemma prove_contracts_spec m as_ acc :
  (∀ a kv, kv ∈ map_of m a → ∃ p, proof_of toBytes m kv = Ok p) →
  ∃ ps, prove_contracts toBytes m as_ acc = Ok ps ∧
    (∀ a, a ∉ as_ → m_get ps a = m_get acc a) ∧
    ∀ a k v, a ∈ as_ → getValue m a k = Some v →
      ∃ p, JsMap.get (default [] (m_get ps a)) k = Some (v, p) ∧ proof_of toBytes m (k, v) = Ok p.
Proof.
  intros Hall. revert acc. induction as_ as [|b as_ IH]; intros acc; cbn.
  - exists acc. split; [done|]. split; [done|]. by intros a k v ?%not_elem_of_nil.
  - assert (∃ qs, getValuesWithProofs toBytes m b = Ok qs ∧ ∀ k v, getValue m b k = Some v →
      ∃ p, JsMap.get qs k = Some (v, p) ∧ proof_of toBytes m (k, v) = Ok p) as (qs & -> & Hqs).
    { unfold getValuesWithProofs, getValue. destruct (m_get (values m) b) as [l|] eqn:E; [|by exists []].
      apply prove_all_spec. intros kv Hin. apply (Hall b). unfold map_of. by rewrite E. }
    cbn. destruct (IH (m_set acc b qs)) as (ps & -> & Ho & Hin). exists ps. split; [done|]. split.
    + intros a [Hne Ha]%not_elem_of_cons. rewrite Ho, m_get_set by done. by rewrite decide_False.
    + intros a k v Ha Hv. destruct (decide (a ∈ as_)) as [Hd|Hd]; [by apply Hin|].
      apply elem_of_cons in Ha as [->|?]; [|done]. rewrite Ho, m_get_set, decide_True by done. by apply Hqs.
Qed.

(** Values with proofs are those values. *)
Definition strip (l : list (K * (V * list string))) : list (K * V) := (fun x => (x.1, x.2.1)) <$> l.

Lemma strip_prove_all m l ps : prove_all toBytes m l = Ok ps → strip ps = l.
Proof.
  revert ps. induction l as [|kv l IH]; intros ps; cbn; [by intros [= <-]|].
  destruct (proof_of toBytes m kv) as [p|]; [|done]. cbn. destruct (prove_all toBytes m l) as [qs|]; [|done].
  cbn. intros [= <-]. cbn. f_equal; [by destruct kv|]. by apply IH.
Qed.

Lemma strip_prove_contracts m as_ acc ps :
  prove_contracts toBytes m as_ acc = Ok ps →
  ∀ a, strip (default [] (m_get ps a)) = if decide (a ∈ as_) then map_of m a else strip (default [] (m_get acc a)).
Proof.
  revert acc. induction as_ as [|b as_ IH]; intros acc; cbn [prove_contracts].
  - intros [= <-] a. rewrite decide_False by apply not_elem_of_nil. done.
  - destruct (getValuesWithProofs toBytes m b) as [qs|] eqn:Eq; [|done]. cbn. intros Hp a.
    rewrite (IH _ Hp). rewrite m_get_set. destruct (decide (a ∈ as_)) as [Ha|Ha].
    + rewrite decide_True by (by right). done.
    + destruct (decide (b = a)) as [->|Hne].
      * rewrite decide_True by left. cbn. unfold getValuesWithProofs in Eq. unfold map_of.
        destruct (m_get (values m) a); [by apply strip_prove_all in Eq|by injection Eq as <-].
      * rewrite decide_False; [done|]. intros [->|?]%elem_of_cons; done.
Qed.

Lemma strip_everything m ps :
  getEverythingWithProofs toBytes m = Ok (Some ps) → ∀ a, strip (default [] (m_get ps a)) = map_of m a.
Proof.
  unfold getEverythingWithProofs. destruct (tree_ m); [|done].
  destruct (prove_contracts _ _ _ _) as [ps'|] eqn:E; [|done]. intros [= <-] a.
  rewrite (strip_prove_contracts _ _ _ _ E). case_decide as Ha; [done|]. rewrite m_get_empty. unfold map_of.
  destruct (m_get (values m) a) as [l|] eqn:El; [|done]. exfalso. apply Ha.
  apply list_elem_of_fmap. exists (a, l). split; [done|]. by apply m_entries_get.
Qed.

Lemma get_strip (l : list (K * (V * list string))) k : JsMap.get (strip l) k = fst <$> JsMap.get l k.
Proof. induction l as [|[k' [v p]] l IH]; cbn; [done|]. case_decide; [done|exact IH]. Qed.
End Facts.

(** ** Theorems *)

Section Theorems.
Context {LB : BtcLib} {LV : @VMLib LB} {LM : @MerkleLib LB LV} {LL : @MerkleLaws LB LV LM}.
Implicit Types (m : StateMerkleTree.t) (a : Address).

Lemma state_unchanged_eq c v : StateMerkleTree.unchanged c v = true → c = v.
Proof. unfold StateMerkleTree.unchanged. intros [_ H]%andb_true_iff. by apply bool_decide_eq_true in H. Qed.

Lemma freeze_proves m :
  MerkleTree.frozen m = false →
  ∃ m' r ps, StateMerkleTree.freeze m = (m', Ok tt) ∧ MerkleTree.root m' = Ok r ∧
    StateMerkleTree.getEverythingWithProofs m' = Ok (Some ps) ∧
    ∀ a key value, MerkleTree.getValue m a key = Some value →
      ∃ proof, JsMap.get (default [] (m_get ps a)) key = Some (value, proof) ∧
        StateMerkleTree.verify r (pointerToUint8Array key) (valueToUint8Array value) proof = true.
Proof.
  intros Hf. destruct (freeze_spec StateMerkleTree.toBytes StateMerkleTree.getDummyValues BTC_FAKE_ADDRESS
    [(1, 1); (2, 2)] 1 2 1 2 eq_refl ltac:(done) eq_refl eq_refl m Hf) as (m' & E & Hv & _ & _ & _ & Ht & Hl).
  set (r := rust_root (rust_build (MerkleTree.getValues StateMerkleTree.toBytes m'))).
  destruct (prove_contracts_spec StateMerkleTree.toBytes m' (m_entries (MerkleTree.values m')).*1 m_empty)
    as (ps & Hps & _ & Hin).
  { intros a kv Hin. assert (StateMerkleTree.toBytes kv.1 kv.2 ∈ MerkleTree.getValues StateMerkleTree.toBytes m') as Hb.
    { unfold MerkleTree.map_of in Hin. destruct (m_get (MerkleTree.values m') a) as [l|] eqn:Ea;
        [|by apply not_elem_of_nil in Hin].
      apply list_elem_of_fmap. exists kv. split; [done|]. apply list_elem_of_join. exists l. split; [done|].
      apply list_elem_of_fmap. exists (a, l). split; [done|]. by apply m_entries_get. }
    destruct (rust_proves _ _ Hl Hb) as (p & Hp & Hne & _). exists p.
    unfold MerkleTree.proof_of, MerkleTree.getProofHashes. rewrite Ht. cbn. rewrite Hp. cbn. by destruct p. }
  exists m', r, ps. split; [exact E|]. split; [unfold MerkleTree.root; by rewrite Ht|].
  split; [unfold StateMerkleTree.getEverythingWithProofs, MerkleTree.getEverythingWithProofs; by rewrite Ht, Hps|].
  intros a key value Hvalue. apply Hv in Hvalue.
  destruct (frozen_proof StateMerkleTree.toBytes m' a key value Ht Hl Hvalue) as (p & r' & Hp & Hr & Hver).
  assert (r' = r) as -> by (unfold MerkleTree.root in Hr; rewrite Ht in Hr; by injection Hr).
  destruct (Hin a key value) as (p' & Hg & Hp'); [|done|].
  - unfold MerkleTree.getValue in Hvalue. destruct (m_get (MerkleTree.values m') a) as [l|] eqn:Ea; [|done].
    apply list_elem_of_fmap. exists (a, l). split; [done|]. by apply m_entries_get.
  - exists p'. split; [done|]. rewrite Hp in Hp'. injection Hp' as <-. exact Hver.
Qed.

(** Freezing the state of a block keeps every value that was stored and makes a
    tree that proves it: each slot that goes to the database has a proof that
    verifies against the root that goes into the header. *)
Theorem saved_slots_are_proved m :
  MerkleTree.frozen m = false →
  ∃ m' r ps, StateMerkleTree.freeze m = (m', Ok tt) ∧ MerkleTree.root m' = Ok r ∧
    StateMerkleTree.getEverythingWithProofs m' = Ok (Some ps) ∧
    ∀ a key value, MerkleTree.getValue m a key = Some value →
      ∃ proof, JsMap.get (default [] (m_get ps a)) key = Some (value, proof) ∧
        StateMerkleTree.verify r (pointerToUint8Array key) (valueToUint8Array value) proof = true.
Proof. apply freeze_proves. Qed.
End Theorems.

(** ** Concrete trees

    A tree is its leaves; the root is their text, and the proof of a leaf is the
    text around it. *)

#[local] Existing Instance string_btclib.
#[local] Existing Instance example_vmlib.

Fixpoint digits (n : nat) (z : Z) : bytes :=
  match n with O => [] | S n => z mod 256 :: digits n (z / 256) end.
Fixpoint undigits (b : bytes) : Z := match b with [] => 0 | d :: b => d + 256 * undigits b end.

Lemma undigits_digits n z : 0 ≤ z < 256 ^ Z.of_nat n → undigits (digits n z) = z.
Proof.
  revert z. induction n as [|n IH]; intros z Hz; cbn [digits undigits].
  - cbn in Hz. lia.
  - rewrite IH; [pose proof (Z.div_mod z 256); lia|]. rewrite Nat2Z.inj_succ, Z.pow_succ_r in Hz by lia.
    split; [apply Z.div_pos; lia|]. apply Z.div_lt_upper_bound; lia.
Qed.

Definition leaf_text (d : bytes) : string := String.append "[" (String.append (String.concat "," (map pretty d)) "]").
Definition leaves_text (l : list bytes) : string := String.concat "" (map leaf_text l).

Fixpoint text_around (before : list bytes) (l : list bytes) (d : bytes) : option (list string) :=
  match l with
  | [] => None
  | x :: l => if decide (x = d) then Some [leaves_text before; leaves_text l] else text_around (before ++ [x]) l d
  end.

Definition example_merkle : MerkleLib := {|
  RustTree := list bytes;
  rust_build := fun l => l;
  rust_root := leaves_text;
  rust_proof := fun l d => match text_around [] l d with Some p => Ok p | None => Throw "no leaf" end;
  rust_verify := fun root d p =>
    match p with
    | [before; after] => bool_decide (root = String.append before (String.append (leaf_text d) after))
    | _ => false
    end;
  pointerToUint8Array := digits 32;
  uint8ArrayToPointer := undigits;
  valueToUint8Array := digits 32;
  uint8ArrayToValue := undigits
|}.
#[local] Existing Instance example_merkle.

Lemma append_assoc_string (s t u : string) : String.append (String.append s t) u = String.append s (String.append t u).
Proof. induction s as [|c s IH]; [done|]. by change (String c ((s +:+ t) +:+ u) = String c (s +:+ (t +:+ u))); rewrite IH. Qed.

Lemma leaves_text_cons d l : leaves_text (d :: l) = String.append (leaf_text d) (leaves_text l).
Proof.
  unfold leaves_text. cbn [map]. destruct l as [|e l]; [|done]. cbn [map String.concat].
  generalize (leaf_text d). induction s as [|c s IH]; [done|]. by change (String c s = String c (s +:+ "")); rewrite <-IH.
Qed.

Lemma leaves_text_app l1 l2 : leaves_text (l1 ++ l2) = String.append (leaves_text l1) (leaves_text l2).
Proof.
  induction l1 as [|d l1 IH]; [done|]. cbn [app]. by rewrite !leaves_text_cons, IH, append_assoc_string.
Qed.

Lemma text_around_spec before l d :
  d ∈ l → ∃ l1 l2, l = l1 ++ d :: l2 ∧ text_around before l d = Some [leaves_text (before ++ l1); leaves_text l2].
Proof.
  revert before. induction l as [|x l IH]; intros before; [by intros ?%not_elem_of_nil|]. cbn.
  case_decide as Hx; [subst x; intros _; exists [], l; by rewrite app_nil_r|].
  intros [->|Hin]%elem_of_cons; [done|]. destruct (IH (before ++ [x]) Hin) as (l1 & l2 & -> & ->).
  exists (x :: l1), l2. by rewrite <-app_assoc.
Qed.

Lemma example_merkle_laws : MerkleLaws.
Proof.
  split; cbn -[leaves_text text_around leaf_text digits undigits].
  - intros l d _ Hd. destruct (text_around_spec [] l d Hd) as (l1 & l2 & E & ->). eexists. split; [done|]. split; [done|].
    apply bool_decide_eq_true. by rewrite E, leaves_text_app, leaves_text_cons.
  - intros z Hz. by apply undigits_digits.
  - intros z Hz. by apply undigits_digits.
  - done.
Qed.

#[local] Existing Instance example_merkle_laws.

(** A block that stored in two contracts. *)
Definition example_state : StateMerkleTree.t :=
  StateMerkleTree.updateValues "bob" [(2, 9)] (StateMerkleTree.updateValues "alice" [(1, 42); (3, 0)] MerkleTree.initial).

Example example_state_alice : MerkleTree.getValue example_state "alice" 1 = Some 42.
Proof. vm_compute. reflexivity. Qed.

Lemma saved_slots_are_proved_witness :
  ∃ m' r ps, StateMerkleTree.freeze example_state = (m', Ok tt) ∧ MerkleTree.root m' = Ok r ∧
    StateMerkleTree.getEverythingWithProofs m' = Ok (Some ps) ∧
    ∀ a key value, MerkleTree.getValue example_state a key = Some value →
      ∃ proof, JsMap.get (default [] (m_get ps a)) key = Some (value, proof) ∧
        StateMerkleTree.verify r (pointerToUint8Array key) (valueToUint8Array value) proof = true.
Proof. apply (saved_slots_are_proved example_state). vm_compute. reflexivity. Defined.
