(* ===== verification/PointerRepository.v ===== *)
(** * The storage of the contracts in the database
    (db/repositories/ContractPointerValueRepository.ts)

    A document holds the value a slot was given in a block.  A slot is read as of
    a height: its value is that of the latest block below it.

    The documents always have their fields, so the checks of a damaged document
    are left out, as are the batches and the errors of the writes. *)

From S2P Require Import Prelude ConsensusRules Consensus Gas Evaluation.

Record ProvenMemoryValue : Type := mkProven { pm_value : bytes; pm_proofs : list string; pm_lastSeenAt : Z }.

Section PointerRepository.
Context {LB : BtcLib} {LV : @VMLib LB}.

Record pointer_doc : Type := mkDoc {
  pd_contract : Address;
  pd_pointer : bytes;
  pd_proven : ProvenMemoryValue
}.

Definition lastSeenAt (d : pointer_doc) : Z := pm_lastSeenAt (pd_proven d).

Implicit Types (docs : list pointer_doc) (a : Address) (ptr : bytes).

(** [sort { lastSeenAt: -1 }], and the first document *)
Definition newer (best : option pointer_doc) (d : pointer_doc) : option pointer_doc :=
  match best with
  | None => Some d
  | Some b => if decide (lastSeenAt b < lastSeenAt d) then Some d else Some b
  end.
Definition latest docs : option pointer_doc := foldl newer None docs.

Definition slot_matches a ptr (height : option Z) (d : pointer_doc) : Prop :=
  pd_contract d = a ∧ pd_pointer d = ptr ∧ match height with Some h => lastSeenAt d < h | None => True end.

#[global] Instance slot_matches_dec a ptr height d : Decision (slot_matches a ptr height d).
Proof. unfold slot_matches. destruct height; apply _. Defined.

Definition getByContractAndPointer docs a ptr (height : option Z) : option ProvenMemoryValue :=
  pd_proven <$> latest (filter (slot_matches a ptr height) docs).

(** The map of a contract first has every pointer asked for, with nothing; the
    pointers of the documents found are other objects, so theirs are entries of
    their own, after those.  [P] is what stands for a pointer. *)
Definition found {P} `{EqDecision P} (bytes_of : P → bytes) docs a (pointers : list P) (height : option Z)
  : list (P * option ProvenMemoryValue) :=
  omap (fun ptr : P => (fun v : ProvenMemoryValue => (ptr, Some v)) <$> getByContractAndPointer docs a (bytes_of ptr) height)
    (remove_dups pointers).

Definition pointer_map {P} `{EqDecision P} (bytes_of : P → bytes) docs a (pointers : list P) (height : option Z)
  : list (P * option ProvenMemoryValue) :=
  ((fun ptr : P => (ptr, None : option ProvenMemoryValue)) <$> pointers) ++ found bytes_of docs a pointers height.

Definition getByContractsAndPointers {P} `{EqDecision P} (bytes_of : P → bytes) docs
    (pointers : list (Address * list P)) (height : option Z)
  : option (list (Address * list (P * option ProvenMemoryValue))) :=
  match pointers with
  | [] => None
  | _ => Some ((fun al : Address * list P => (al.1, pointer_map bytes_of docs al.1 al.2 height)) <$> pointers)
  end.

(** [updateOne] with [upsert]: one document for a slot and a block. *)
Definition doc_key (d : pointer_doc) : Address * bytes * Z := (pd_contract d, pd_pointer d, lastSeenAt d).

Fixpoint upsert docs (d : pointer_doc) : list pointer_doc :=
  match docs with
  | [] => [d]
  | d0 :: docs' => if decide (doc_key d0 = doc_key d) then d :: docs' else d0 :: upsert docs' d
  end.

(** The operations of [setStoragePointers]; the dummy address is skipped. *)
Definition operations (storage : list (Address * list (bytes * (bytes * list string)))) (height : Z)
  : list pointer_doc :=
  mjoin ((fun al : Address * list (bytes * (bytes * list string)) =>
    if decide (al.1 = Address_dead) then []
    else (fun pv : bytes * (bytes * list string) => mkDoc al.1 pv.1 (mkProven pv.2.1 pv.2.2 height)) <$> al.2)
    <$> storage).

Definition setStoragePointers (storage : list (Address * list (bytes * (bytes * list string)))) (height : Z) docs
  : list pointer_doc :=
  foldl upsert docs (operations storage height).

Definition deletePointerFromBlockHeight docs (height : Z) : list pointer_doc :=
  filter (fun d => ¬ height ≤ lastSeenAt d) docs.

(** ** Lemmas *)

Definition unique_docs docs : Prop := NoDup (doc_key <$> docs).

Lemma unique_docs_eq docs d d' : unique_docs docs → d ∈ docs → d' ∈ docs → doc_key d = doc_key d' → d = d'.
Proof.
  unfold unique_docs. intros Hu (i & Hi)%list_elem_of_lookup (j & Hj)%list_elem_of_lookup Hk.
  assert (i = j) as ->; [|congruence].
  eapply (NoDup_lookup _ _ _ (doc_key d) Hu); rewrite list_lookup_fmap; [by rewrite Hi|by rewrite Hj, Hk].
Qed.

Lemma latest_spec docs :
  match latest docs with
  | None => docs = []
  | Some d => d ∈ docs ∧ ∀ d', d' ∈ docs → lastSeenAt d' ≤ lastSeenAt d
  end.
Proof.
  unfold latest. induction docs as [|x docs IH] using rev_ind; [done|].
  rewrite foldl_snoc. destruct (foldl newer None docs) as [b|]; cbn.
  - destruct IH as [Hb Hmax]. case_decide; (split; [set_solver|]);
      intros d' [Hd| ->%list_elem_of_singleton]%elem_of_app; try specialize (Hmax _ Hd); lia.
  - subst docs. cbn. split; [set_solver|]. intros d' ->%list_elem_of_singleton. lia.
Qed.

(** A slot has one latest document. *)
Lemma getByContractAndPointer_spec docs a ptr height :
  unique_docs docs → ∀ v,
  getByContractAndPointer docs a ptr height = Some v ↔
    slot_matches a ptr height (mkDoc a ptr v) ∧ mkDoc a ptr v ∈ docs ∧
    ∀ d, d ∈ docs → slot_matches a ptr height d → lastSeenAt d ≤ pm_lastSeenAt v.
Proof.
  intros Hu v. unfold getByContractAndPointer. pose proof (latest_spec (filter (slot_matches a ptr height) docs)) as Hl.
  split.
  - destruct (latest _) as [d|]; [|done]. intros [= <-]. destruct Hl as [Hd Hmax].
    apply list_elem_of_filter in Hd as [Hm Hd]. pose proof Hm as (Ea & Ep & _).
    assert (mkDoc a ptr (pd_proven d) = d) as -> by (destruct d; cbn in *; by subst).
    split; [done|]. split; [done|]. intros d' Hd' Hm'. apply Hmax. by apply list_elem_of_filter.
  - intros (Hm & Hd & Hmax). destruct (latest _) as [d|].
    + destruct Hl as [Hd' Hl]. apply list_elem_of_filter in Hd' as [Hm' Hd'].
      specialize (Hl _ (proj2 (list_elem_of_filter _ _ _) (conj Hm Hd))).
      specialize (Hmax d Hd' Hm'). unfold lastSeenAt at 1 in Hl. cbn in Hl.
      assert (d = mkDoc a ptr v) as ->; [|done]. apply (unique_docs_eq docs); [done..|].
      destruct Hm' as (Ea & Ep & _). unfold doc_key. rewrite Ea, Ep. cbn. f_equal. unfold lastSeenAt at 2. cbn. lia.
    + exfalso. assert (mkDoc a ptr v ∈ filter (slot_matches a ptr height) docs) as Hin
        by (by apply list_elem_of_filter). rewrite Hl in Hin. by apply not_elem_of_nil in Hin.
Qed.

(** Documents that agree on what a read looks at give the same answer. *)
Lemma getByContractAndPointer_ext docs docs' a ptr height :
  unique_docs docs → unique_docs docs' →
  (∀ d, slot_matches a ptr height d → d ∈ docs ↔ d ∈ docs') →
  getByContractAndPointer docs a ptr height = getByContractAndPointer docs' a ptr height.
Proof.
  intros Hu Hu' Heq. apply option_eq. intros v. rewrite !getByContractAndPointer_spec by done.
  split; intros (Hm & Hd & Hmax); (split; [done|]); (split; [by apply Heq|]); intros d Hd' Hm';
    apply Hmax; try done; by apply Heq.
Qed.

Lemma upsert_elem docs d d' :
  unique_docs docs → d' ∈ upsert docs d ↔ d' = d ∨ (d' ∈ docs ∧ doc_key d' ≠ doc_key d).
Proof.
  unfold unique_docs. induction docs as [|d0 docs IH]; cbn; [set_solver|].
  intros [Hd0 Hu]%NoDup_cons. case_decide as Hk.
  - rewrite !elem_of_cons. split.
    + intros [->|Hin]; [by left|]. right. split; [by right|].
      intros Hk'. apply Hd0. rewrite Hk, <-Hk'. by apply list_elem_of_fmap_2.
    + intros [->|[[->|?] Hne]]; auto. by destruct Hne.
  - rewrite !elem_of_cons, IH by done. split; [|tauto]. intros [->|[->|[? ?]]]; auto.
Qed.

Lemma upsert_unique docs d : unique_docs docs → unique_docs (upsert docs d).
Proof.
  unfold unique_docs. induction docs as [|d0 docs IH]; cbn; [intros _; apply NoDup_singleton|].
  intros Hu. pose proof Hu as [Hd0 Hu']%NoDup_cons. case_decide as Hk; cbn; [by rewrite <-Hk|].
  apply NoDup_cons. split; [|by apply IH]. intros (d1 & E & [->|[Hin _]]%upsert_elem)%list_elem_of_fmap; [done| |done].
  apply Hd0. rewrite E. by apply list_elem_of_fmap_2.
Qed.

Lemma upserts_spec ops docs :
  unique_docs docs → unique_docs ops →
  unique_docs (foldl upsert docs ops) ∧
  ∀ d, d ∈ foldl upsert docs ops ↔ d ∈ ops ∨ (d ∈ docs ∧ doc_key d ∉ doc_key <$> ops).
Proof.
  revert docs. induction ops as [|o ops IH]; intros docs Hu; cbn; [set_solver|].
  intros [Ho Hops]%NoDup_cons. destruct (IH (upsert docs o)) as [H1 H2]; [by apply upsert_unique|done|].
  split; [done|]. intros d. rewrite H2, upsert_elem, elem_of_cons, not_elem_of_cons by done.
  split; [tauto|]. intros [[->|Hd]|(Hd & Hne & Hno)]; auto.
Qed.

(** What is saved for a block. *)
Definition saved (storage : list (Address * list (bytes * (bytes * list string)))) a ptr : option (bytes * list string) :=
  if decide (a = Address_dead) then None else JsMap.get (default [] (JsMap.get storage a)) ptr.

(** The maps of a storage to save. *)
Definition storage_wf (storage : list (Address * list (bytes * (bytes * list string)))) : Prop :=
  JsMap.wf storage ∧ ∀ a l, (a, l) ∈ storage → JsMap.wf l.

Lemma elem_of_operations storage height d :
  d ∈ operations storage height ↔
  ∃ l pv, (pd_contract d, l) ∈ storage ∧ pd_contract d ≠ Address_dead ∧ pv ∈ l ∧
    d = mkDoc (pd_contract d) pv.1 (mkProven pv.2.1 pv.2.2 height).
Proof.
  unfold operations. rewrite list_elem_of_join. setoid_rewrite list_elem_of_fmap. split.
  - intros (ds & Hd & ([a l] & -> & Hin)). cbn in Hd. case_decide; [by apply not_elem_of_nil in Hd|].
    apply list_elem_of_fmap in Hd as (pv & -> & Hpv). by exists l, pv.
  - intros (l & pv & Hin & Hne & Hpv & ->). cbn in Hin, Hne. eexists. split; [|by exists (pd_contract d, l)].
    cbn. rewrite decide_False by done. apply list_elem_of_fmap. by exists pv.
Qed.

Lemma operations_unique storage height : storage_wf storage → unique_docs (operations storage height).
Proof.
  unfold unique_docs, operations. intros [Hs Hl]. unfold JsMap.wf, JsMap.keys in Hs.
  induction storage as [|[a l] storage IH]; cbn; [constructor|].
  apply NoDup_cons in Hs as [Ha Hs]. rewrite fmap_app. apply NoDup_app. split; [|split].
  - case_decide; [constructor|]. rewrite <-list_fmap_compose.
    replace ((doc_key ∘ _) <$> l) with ((fun ptr => (a, ptr, height)) <$> l.*1)
      by (rewrite <-list_fmap_compose; by apply list_fmap_ext).
    apply NoDup_fmap; [|apply (Hl a); by left]. by intros p p' [= ->].
  - intros k (d & -> & Hd)%list_elem_of_fmap (d' & Hk & Hd')%list_elem_of_fmap.
    assert (pd_contract d = a) as Ea.
    { case_decide; [by apply not_elem_of_nil in Hd|]. by apply list_elem_of_fmap in Hd as (pv & -> & _). }
    apply elem_of_operations in Hd' as (l' & _ & Hin & _). injection Hk as E _ _. apply Ha.
    rewrite <-Ea, E. apply list_elem_of_fmap. by exists (pd_contract d', l').
  - apply IH; [done|]. intros b l' Hin. apply (Hl b). by right.
Qed.
Lemma operations_saved storage height a ptr v :
  storage_wf storage →
  mkDoc a ptr v ∈ operations storage height ↔
  ∃ pv, saved storage a ptr = Some pv ∧ v = mkProven pv.1 pv.2 height.
Proof.
  intros [Hs Hl]. rewrite elem_of_operations. unfold saved. cbn [pd_contract]. split.
  - intros (l & [p pv] & Hin & Hne & Hpv & [= -> ->]). rewrite decide_False by done.
    rewrite (JsMap.elem_of_get storage a l Hs Hin). cbn. exists pv. split; [|done].
    apply JsMap.elem_of_get; [by apply (Hl a)|done].
  - intros (pv & Hget & ->). case_decide as Hd; [done|].
    destruct (JsMap.get storage a) as [l|] eqn:E; cbn in Hget; [|done].
    exists l, (ptr, pv). split_and!; [by apply JsMap.get_elem_of|done|by apply JsMap.get_elem_of|by destruct pv].
Qed.

Lemma setStoragePointers_spec storage height docs a ptr h :
  unique_docs docs → (∀ d, d ∈ docs → lastSeenAt d ≤ height) → storage_wf storage →
  let docs' := setStoragePointers storage height docs in
  (unique_docs docs' ∧ ∀ d, d ∈ docs' → lastSeenAt d ≤ height) ∧
  getByContractAndPointer docs' a ptr (Some h) =
    match (if decide (height < h) then saved storage a ptr else None) with
    | Some (v, proofs) => Some (mkProven v proofs height)
    | None => getByContractAndPointer docs a ptr (Some h)
    end ∧
  getByContractAndPointer (deletePointerFromBlockHeight docs' height) a ptr (Some h) =
    getByContractAndPointer docs' a ptr (Some (Z.min h height)).
Proof.
  intros Hu Hold Hw. cbn. destruct (upserts_spec (operations storage height) docs) as [Hu' Hel];
    [done|by apply operations_unique|]. fold (setStoragePointers storage height docs) in Hu', Hel.
  set (docs' := setStoragePointers storage height docs) in *.
  assert (∀ d, d ∈ operations storage height → lastSeenAt d = height) as Hops
    by (intros d (l & pv & _ & _ & _ & ->)%elem_of_operations; done).
  assert (∀ d, d ∈ docs' → lastSeenAt d ≤ height) as Hold'
    by (intros d [Hd|[Hd _]]%Hel; [rewrite Hops by done; lia|by apply Hold]).
  assert (∀ h, (height < h → saved storage a ptr = None) →
    getByContractAndPointer docs' a ptr (Some h) = getByContractAndPointer docs a ptr (Some h)) as Hsame.
  { intros h' Hnone. apply getByContractAndPointer_ext; [done..|]. intros d (Ea & Ep & Hh).
    assert (∀ d', d' ∈ operations storage height → doc_key d' ≠ doc_key d) as Hno.
    { intros [da dp dv] Hd' [= E1 E2 E3]. pose proof (Hops _ Hd') as Eh.
      subst da dp. rewrite Ea, Ep in Hd'. apply operations_saved in Hd' as (pv & Hsaved & _); [|done].
      rewrite Hnone in Hsaved; [done|]. unfold lastSeenAt in *. cbn in *. lia. }
    rewrite Hel. split.
    - intros [Hd|[Hd _]]; [by destruct (Hno d Hd)|done].
    - intros Hd. right. split; [done|]. intros (d' & E & Hd')%list_elem_of_fmap. by apply (Hno d' Hd'). }
  split; [done|]. split.
  - case_decide as Hh; [|apply Hsame; lia]. destruct (saved storage a ptr) as [[v proofs]|] eqn:Es;
      [|by apply Hsame].
    apply getByContractAndPointer_spec; [done|]. split; [by split_and!|]. split; [|by intros d Hd _; apply Hold'].
    apply Hel. left. apply operations_saved; [done|]. by exists (v, proofs).
  - unfold deletePointerFromBlockHeight, getByContractAndPointer. f_equal. f_equal.
    rewrite list_filter_filter. apply list_filter_iff. intros d. unfold slot_matches. split.
    + intros ((? & ? & ?) & ?). split; [done|]. split; [done|lia].
    + intros (? & ? & ?). split; [split; [done|split; [done|lia]]|lia].
Qed.

(** Documents that are all below a height are read alike above it. *)
Lemma getByContractAndPointer_above docs a ptr h h' :
  unique_docs docs → (∀ d, d ∈ docs → lastSeenAt d < h) → h ≤ h' →
  getByContractAndPointer docs a ptr (Some h') = getByContractAndPointer docs a ptr (Some h).
Proof.
  intros Hu Hd Hh. apply option_eq. intros v. rewrite !getByContractAndPointer_spec by done. unfold slot_matches.
  split; intros ((E1 & E2 & E3) & Hin & Hmax); specialize (Hd _ Hin) as Hv; unfold lastSeenAt in Hv; cbn in *;
    (split; [split_and!; try done; unfold lastSeenAt in *; cbn in *; lia|]); (split; [done|]);
    intros d Hd' (? & ? & ?); apply Hmax; try done; specialize (Hd _ Hd'); split_and!; try done; lia.
Qed.

(** C32: The storage kept by block has the values of every block.  After the slots of
    a block are saved they are what is read above it, every other read is what it
    was; and after the blocks from a height are deleted, reads are those below it. *)
Theorem storage_history storage height docs a ptr h :
  unique_docs docs → (∀ d, d ∈ docs → lastSeenAt d ≤ height) → storage_wf storage →
  let docs' := setStoragePointers storage height docs in
  (unique_docs docs' ∧ ∀ d, d ∈ docs' → lastSeenAt d ≤ height) ∧
  getByContractAndPointer docs' a ptr (Some h) =
    match (if decide (height < h) then saved storage a ptr else None) with
    | Some (v, proofs) => Some (mkProven v proofs height)
    | None => getByContractAndPointer docs a ptr (Some h)
    end ∧
  getByContractAndPointer (deletePointerFromBlockHeight docs' height) a ptr (Some h) =
    getByContractAndPointer docs' a ptr (Some (Z.min h height)).
Proof. apply setStoragePointers_spec. Qed.
End PointerRepository.

(** ** A concrete history *)

#[local] Existing Instance string_btclib.
#[local] Existing Instance example_vmlib.

Definition example_docs : list pointer_doc :=
  [mkDoc "alice" [1] (mkProven [41] ["proof"] 5); mkDoc "bob" [2] (mkProven [7] ["proof"] 6)].
Definition example_saved : list (Address * list (bytes * (bytes * list string))) :=
  [("alice", [([1], ([42], ["new proof"])); ([3], ([0], ["new proof"]))])].

Example example_history :
  getByContractAndPointer (setStoragePointers example_saved 7 example_docs) "alice" [1] (Some 8)
    = Some (mkProven [42] ["new proof"] 7) ∧
  getByContractAndPointer (setStoragePointers example_saved 7 example_docs) "alice" [1] (Some 7)
    = Some (mkProven [41] ["proof"] 5).
Proof. vm_compute. by split. Qed.

Lemma storage_history_witness :
  getByContractAndPointer (setStoragePointers example_saved 7 example_docs) "bob" [2] (Some 8)
    = getByContractAndPointer example_docs "bob" [2] (Some 8).
Proof.
  refine (proj1 (proj2 (storage_history example_saved 7 example_docs "bob" [2] 8 _ _ _))).
  - repeat constructor; set_solver.
  - intros d. unfold example_docs. rewrite !elem_of_cons, elem_of_nil. unfold lastSeenAt. intros [->|[->|[]]]; cbn; lia.
  - split; [repeat constructor; set_solver|]. intros a l Hin. unfold example_saved in Hin.
    apply list_elem_of_singleton in Hin as [= -> ->]. repeat constructor; set_solver.
Defined.
