(* ===== verification/VMManager.v ===== *)
(** * The VM manager: the state of the block being processed
    (vm/VMManager.ts, vm/VMBitcoinBlock.ts)

    The manager keeps what the transactions of the current block have stored,
    over a cache of what was read, over the database.  Pointers are numbers; the
    database has their bytes. *)

From S2P Require Import Prelude ConsensusRules Consensus Gas Evaluation Evaluator BlockState PointerRepository.

Inductive manager_error : Type :=
| BlockPrepared
| BlockNotPrepared
| AnotherBlock
| BlockStateNotFound
| ReceiptStateNotFound
| TransactionIdNotFound
| ChangedStorageNotFound
| ExecutorCanNotSave
| InvalidChecksumLength
| BlockHeightMismatch
| Concurrency
| UnknownContract
| NoFee
| ProofsNotFound
| ProofsNotValid
| NoValidTree
| GasError (e : gas_error)
| MerkleError (e : merkle_error)
| EvaluationError (e : vm_error)
| HeaderError (message : string)
| NestedTooDeep.

Import ContractEvaluator.

Module VMManager.
Section VMManager.
Context {LB : BtcLib} {LV : @VMLib LB} {LM : @MerkleLib LB LV}.
Context (isExecutor : bool) (DISABLE_SCANNED_BLOCK_STORAGE_CHECK RESYNC_BLOCK_HEIGHTS : bool)
  (TX : TransactionsConfig).
(** The storage root of a past block, once its header is found and verified (see
    HeaderValidator). *)
Context (past_root : Z → result string string).

(** [blockState] and the others are [undefined] between blocks. *)
Record t : Type := mk {
  isPrepared : bool;
  height : Z;
  blockState : option StateMerkleTree.t;
  receiptState : option ReceiptMerkleTree.t;
  pointerCache : AddressMap (list (Z * option ProvenMemoryValue));
  storage_docs : list pointer_doc
}.

Definition op : Type → Type := stx t manager_error.

Definition set_block (prepared : bool) (h : Z) (m : t) : t :=
  mk prepared h (blockState m) (receiptState m) (pointerCache m) (storage_docs m).
Definition set_states (s : option StateMerkleTree.t) (r : option ReceiptMerkleTree.t) (m : t) : t :=
  mk (isPrepared m) (height m) s r (pointerCache m) (storage_docs m).
Definition set_cache (c : AddressMap (list (Z * option ProvenMemoryValue))) (m : t) : t :=
  mk (isPrepared m) (height m) (blockState m) (receiptState m) c (storage_docs m).
Definition set_docs (d : list pointer_doc) (m : t) : t :=
  mk (isPrepared m) (height m) (blockState m) (receiptState m) (pointerCache m) d.

Definition initial (docs : list pointer_doc) : t := mk false 0 None None m_empty docs.

(** ** VMBitcoinBlock *)

Definition prepare (blockId : Z) : op unit := fun m =>
  if isPrepared m then (m, Throw BlockPrepared) else (set_block true blockId m, Ok tt).

(** [revert] and [terminate], which both reset the block. *)
Definition reset : op unit := fun m =>
  if isPrepared m then (set_block false 0 m, Ok tt) else (m, Throw BlockNotPrepared).

(** ** The life of a block *)

Definition prepareBlock (blockId : Z) : op unit := fun m =>
  match blockState m with
  | Some _ => (m, Throw AnotherBlock)
  | None => (_ ← prepare blockId; smod (set_states (Some MerkleTree.initial) (Some MerkleTree.initial))) m
  end.

Definition clear (m : t) : t := set_cache m_empty (set_states None None m).

(** [revertBlock], [terminateBlock]: the clearing is in a [finally]. *)
Definition endBlock : op unit := fun m => let '(m, r) := reset m in (clear m, r).

(** ** Reading the storage *)

Definition getPointerFromCache (m : t) (a : Address) (ptr : Z) : option ProvenMemoryValue :=
  match m_get (pointerCache m) a with
  | None => None
  | Some cache => match JsMap.get cache ptr with Some v => v | None => None end
  end.

Definition storePointerInCache (a : Address) (ptr : Z) (v : option ProvenMemoryValue) (m : t) : t :=
  set_cache (m_set (pointerCache m) a (JsMap.set (default [] (m_get (pointerCache m) a)) ptr v)) m.

(** [null] is never answered: what is cached as absent is looked up again. *)
Definition getFromInternalCache (m : t) (a : Address) (ptr : Z) : result merkle_error (option (bytes * list string)) :=
  fromState ← match blockState m with Some s => StateMerkleTree.getValueWithProofs s a ptr | None => Ok None end;
  match fromState with
  | Some v => Ok (Some v)
  | None => Ok ((fun p => (pm_value p, pm_proofs p)) <$> getPointerFromCache m a ptr)
  end.

Inductive from_db : Type := DbMemory (value : bytes) | DbProven (v : ProvenMemoryValue).

Definition getStorageFromDB (a : Address) (ptr blockNumber : Z) (m : t) : t * option from_db :=
  let v := getByContractAndPointer (storage_docs m) a (pointerToUint8Array ptr) (Some blockNumber) in
  (storePointerInCache a ptr v m,
   (fun v => if decide (pm_lastSeenAt v = 0) then DbMemory (pm_value v) else DbProven v) <$> v).

Definition verifyProofs (m : t) (ptr : Z) (v : ProvenMemoryValue) : result manager_error bool :=
  if decide (pm_lastSeenAt v = height m) then
    match blockState m with
    | None => Throw BlockStateNotFound
    | Some s =>
        if DISABLE_SCANNED_BLOCK_STORAGE_CHECK then Ok true
        else match MerkleTree.root s with
             | Throw _ => Throw NoValidTree
             | Ok r => Ok (StateMerkleTree.verify r (pointerToUint8Array ptr) (pm_value v) (pm_proofs v))
             end
    end
  else match past_root (pm_lastSeenAt v) with
       | Throw e => Throw (HeaderError e)
       | Ok r => Ok (StateMerkleTree.verify r (pointerToUint8Array ptr) (pm_value v) (pm_proofs v))
       end.

(** [treatNullAsZero] is always false. *)
Definition finalizeProvenMemoryValue (a : Address) (ptr : Z) (v : option ProvenMemoryValue)
  : op (option ProvenMemoryValue) := fun m =>
  match v with
  | None => (m, Ok None)
  | Some realValue =>
      let m := storePointerInCache a ptr (Some realValue) m in
      if SKIP_PROOF_VALIDATION_FOR_EXECUTION_BEFORE_TRANSACTION TX then (m, Ok (Some realValue))
      else match pm_proofs realValue with
           | [] => (m, Throw ProofsNotFound)
           | _ => match verifyProofs m ptr realValue with
                  | Throw e => (m, Throw e)
                  | Ok true => (m, Ok (Some realValue))
                  | Ok false => (m, Throw ProofsNotValid)
                  end
           end
  end.

Definition has_block_state (m : t) : bool := bool_decide (is_Some (blockState m)).

Definition getStorage (a : Address) (ptr blockNumber : Z) (doNotLoad : bool) : op (option bytes) := fun m =>
  if negb (has_block_state m) && negb isExecutor then (m, Throw BlockStateNotFound)
  else
    let final (v : ProvenMemoryValue) (m : t) :=
      (r ← finalizeProvenMemoryValue a ptr (Some v); mret (pm_value <$> r)) m in
    match getFromInternalCache m a ptr with
    | Throw e => (m, Throw (MerkleError e))
    | Ok None =>
        if doNotLoad then (m, Ok None)
        else match getStorageFromDB a ptr blockNumber m with
             | (m, None) => (m, Ok None)
             | (m, Some (DbMemory value)) => (m, Ok (Some value))
             | (m, Some (DbProven v)) => final v m
             end
    | Ok (Some (value, proofs)) =>
        if SKIP_PROOF_VALIDATION_FOR_EXECUTION_BEFORE_TRANSACTION TX then (m, Ok (Some value))
        else final (mkProven value proofs (height m)) m
    end.

(** What is known of the pointers of a contract, and those to ask the database
    for. *)
Fixpoint preloaded_state (m : t) (a : Address) (ptrs : list Z)
  : result merkle_error (list (Z * option ProvenMemoryValue) * list Z) :=
  match ptrs with
  | [] => Ok ([], [])
  | ptr :: ptrs' =>
      known ← getFromInternalCache m a ptr;
      rest ← preloaded_state m a ptrs';
      Ok (match known with
          | Some (value, proofs) => ((ptr, Some (mkProven value proofs (height m))) :: rest.1, rest.2)
          | None => (rest.1, ptr :: rest.2)
          end)
  end.

Fixpoint preloaded_states (m : t) (l : list (Address * list Z))
  : result merkle_error (list (Address * (list (Z * option ProvenMemoryValue) * list Z))) :=
  match l with
  | [] => Ok []
  | (a, ptrs) :: l' => s ← preloaded_state m a ptrs; rest ← preloaded_states m l'; Ok ((a, s) :: rest)
  end.

(** The pointers of one contract, verified and cached in turn. *)
Fixpoint finalize_all (a : Address) (l : list (Z * option ProvenMemoryValue))
  : op (list (Z * option ProvenMemoryValue)) :=
  match l with
  | [] => mret []
  | (ptr, v) :: l' =>
      verified ← finalizeProvenMemoryValue a ptr v;
      rest ← finalize_all a l';
      mret ((ptr, verified) :: rest)
  end.

Fixpoint finalize_contracts (l : list (Address * list (Z * option ProvenMemoryValue)))
  : op (list (Address * list (Z * option ProvenMemoryValue))) :=
  match l with
  | [] => mret []
  | (a, ptrs) :: l' => v ← finalize_all a ptrs; rest ← finalize_contracts l'; mret ((a, v) :: rest)
  end.

(** The entries of the database follow those found here, contract by contract. *)
Fixpoint join_fetched (known : list (Address * (list (Z * option ProvenMemoryValue) * list Z)))
    (fetchedFromDB : list (Address * list (Z * option ProvenMemoryValue)))
  : list (Address * list (Z * option ProvenMemoryValue)) :=
  match known, fetchedFromDB with
  | (a, (here, _)) :: known', (_, there) :: fetched' => (a, here ++ there) :: join_fetched known' fetched'
  | _, _ => []
  end.

Definition getStorageMultiple (pointerList : list (Address * list Z)) (blockNumber : Z)
  : op (option (list (Address * list (Z * option ProvenMemoryValue)))) := fun m =>
  if negb (has_block_state m) && negb isExecutor then (m, Throw BlockStateNotFound)
  else match preloaded_states m pointerList with
       | Throw e => (m, Throw (MerkleError e))
       | Ok known =>
           match getByContractsAndPointers pointerToUint8Array (storage_docs m)
                   ((fun al : Address * (list (Z * option ProvenMemoryValue) * list Z) => (al.1, al.2.2)) <$> known) (Some blockNumber) with
           | None => (m, Ok None)
           | Some fetchedFromDB => (r ← finalize_contracts (join_fetched known fetchedFromDB); mret (Some r)) m
           end
       end.

(** ** The results of the transactions *)

Definition lift_merkle {A B} (r : A * result merkle_error B) : A * result manager_error B :=
  (r.1, match r.2 with Ok b => Ok b | Throw e => Throw (MerkleError e) end).

Definition apply_changes (changes : list (Address * list (Z * Z))) (s : StateMerkleTree.t) : StateMerkleTree.t :=
  foldl (fun s '(contract, val) => StateMerkleTree.updateValues contract val s) s changes.

(** The storage and the receipt of a result, or of no result. *)
Definition updateBlockValuesFromResult (evaluation : option EvaluatedResult) (contractAddress : Address)
    (transactionId : string) (disableStorageCheck : bool) : op unit := fun m =>
  if isExecutor then (m, Ok tt)
  else match blockState m, receiptState m with
  | None, _ => (m, Throw BlockStateNotFound)
  | _, None => (m, Throw ReceiptStateNotFound)
  | Some s, Some r =>
      if decide (transactionId = "") then (m, Throw TransactionIdNotFound)
      else
        let finish (s : StateMerkleTree.t) (receipt : bytes) :=
          let '(r, res) := lift_merkle (ReceiptMerkleTree.updateValue contractAddress transactionId receipt r) in
          match res with
          | Throw e => (set_states (Some s) (Some r) m, Throw e)
          | Ok _ =>
              if disableStorageCheck then (set_states (Some s) (Some r) m, Ok tt)
              else let '(s, res) := lift_merkle (StateMerkleTree.generateTree s) in
                   (set_states (Some s) (Some r) m, res)
          end in
        match evaluation with
        | Some e =>
            match res_revert e, res_result e with
            | None, Some data =>
                match changedStorage e with
                | None => (m, Throw ChangedStorageNotFound)
                | Some changes => finish (apply_changes (m_entries changes) s) data
                end
            | _, _ => finish s [0]
            end
        | None => finish s [0]
        end
  end.

(** [updateReceiptState]: the checksum of the previous block and the version are
    receipts of the dummy address.  [lastChecksum] is the checksum found, if it is
    not the zero hash. *)
Definition updateReceiptState (lastChecksum : option bytes) (r : ReceiptMerkleTree.t)
  : ReceiptMerkleTree.t * result manager_error unit :=
  match lastChecksum with
  | Some c => if decide (length c = 32)%nat then
                lift_merkle ((_ ← ReceiptMerkleTree.updateValue BTC_FAKE_ADDRESS MAX_HASH c;
                              _ ← ReceiptMerkleTree.updateValue BTC_FAKE_ADDRESS MAX_MINUS_ONE [1];
                              ReceiptMerkleTree.freeze) r)
              else (r, Throw InvalidChecksumLength)
  | None => lift_merkle ((_ ← ReceiptMerkleTree.updateValue BTC_FAKE_ADDRESS MAX_HASH [];
                          _ ← ReceiptMerkleTree.updateValue BTC_FAKE_ADDRESS MAX_MINUS_ONE [1];
                          ReceiptMerkleTree.freeze) r)
  end.

(** [saveBlockStateChanges], for the storage. *)
Definition storage_to_update (ps : AddressMap (list (Z * (Z * list string))))
  : list (Address * list (bytes * (bytes * list string))) :=
  (fun al : Address * list (Z * (Z * list string)) =>
     (al.1, (fun kv : Z * (Z * list string) => (pointerToUint8Array kv.1, (valueToUint8Array kv.2.1, kv.2.2))) <$> al.2))
    <$> filter (fun al => al.2 ≠ []) (m_entries ps).

Definition saveBlockStateChanges (s : StateMerkleTree.t) (m : t) : t * result manager_error unit :=
  if isExecutor then (m, Throw ExecutorCanNotSave)
  else if RESYNC_BLOCK_HEIGHTS then (m, Ok tt)
  else match StateMerkleTree.getEverythingWithProofs s with
       | Throw e => (m, Throw (MerkleError e))
       | Ok None => (m, Ok tt)
       | Ok (Some ps) => (set_docs (setStoragePointers (storage_to_update ps) (height m) (storage_docs m)) m, Ok tt)
       end.

Definition updateEvaluatedStates (lastChecksum : option bytes)
  : op (StateMerkleTree.t * ReceiptMerkleTree.t) := fun m =>
  match blockState m, receiptState m with
  | None, _ => (m, Throw BlockStateNotFound)
  | _, None => (m, Throw ReceiptStateNotFound)
  | Some s, Some r =>
      match updateReceiptState lastChecksum r with
      | (r, Throw e) => (set_states (Some s) (Some r) m, Throw e)
      | (r, Ok _) =>
          match StateMerkleTree.freeze s with
          | (s, Throw e) => (set_states (Some s) (Some r) m, Throw (MerkleError e))
          | (s, Ok _) =>
              match saveBlockStateChanges s (set_states (Some s) (Some r) m) with
              | (m, Throw e) => (m, Throw e)
              | (m, Ok _) => (set_states None None m, Ok (s, r))
              end
          end
      end
  end.

(** ** What the contracts are given *)

(** Pointers and values in their numeric form (BufferHelper). *)
Definition number (kv : Z * option ProvenMemoryValue) : Z * option Z :=
  (kv.1, match kv.2 with Some v => Some (uint8ArrayToPointer (pm_value v)) | None => None end).
Definition numbers (p : list (Address * list (Z * option ProvenMemoryValue))) : list (Address * list (Z * option Z)) :=
  map (fun al => (al.1, map number al.2)) p.

(** The storage of the block for the contracts; what else they ask is answered by
    [base].  The caches are not threaded through an evaluation: reads do not
    depend on them (VMManagerFacts). *)
Definition manager_host (message_of : manager_error → string) (base : VMHost) (m : t) : VMHost := {|
  host_getStorage := fun a k =>
    match (getStorage a k (height m) false m).2 with
    | Ok o => Ok (uint8ArrayToValue <$> o)
    | Throw e => Throw (message_of e)
    end;
  host_getStorageMultiple := fun l =>
    match (getStorageMultiple l (height m) m).2 with
    | Ok o => Ok (numbers <$> o)
    | Throw e => Throw (message_of e)
    end;
  host_getContract := @host_getContract _ _ base;
  host_isContract := @host_isContract _ _ base;
  host_inContractCache := @host_inContractCache _ _ base;
  host_contractExists := @host_contractExists _ _ base;
  host_generateAddress := @host_generateAddress _ _ base;
  host_deployContract := @host_deployContract _ _ base;
  host_getMLDSAPublicKey := @host_getMLDSAPublicKey _ _ base;
  host_getBlockHash := @host_getBlockHash _ _ base
|}.

(** ** Running the transactions *)

(** What is read of a transaction; [msgSender] is [msgSender || from]. *)
Record InteractionTransaction : Type := mkInteraction {
  tx_contractAddress : string;
  tx_gasSatFee : Z;
  tx_msgSender : Address;
  tx_calldata : bytes;
  tx_preloadStorageList : option (list (Address * list Z));
  tx_specialSettings : option SpecialContract
}.

Record DeploymentTransaction : Type := mkDeployment {
  dt_information : ContractInformation;
  dt_gasSatFee : Z;
  dt_from : Address;
  dt_calldata : bytes;
  dt_preloadStorageList : option (list (Address * list Z))
}.

Section Running.
Context (SAT_TO_GAS_RATIO TRANSACTION_MAX_GAS COLD_STORAGE_LOAD : Z) (K : VMConstants)
  (instantiate : ContractInformation → entry → Address → Z → Z → Z → bytes → instance)
  (message_of : manager_error → string) (base : VMHost) (contractAddressAt : string → option Address).

(** The calls and deployments that can be nested, and one. *)
Definition call_fuel : nat :=
  S (Z.to_nat (MAXIMUM_CALL_DEPTH TX) + Z.to_nat (MAXIMUM_DEPLOYMENT_DEPTH TX)).

Definition getGasTracker (maxGas usedGas : Z) (special : option SpecialContract) : result manager_error GasTracker.t :=
  match GasTracker.setGasUsed TRANSACTION_MAX_GAS (GasTracker.construct TRANSACTION_MAX_GAS maxGas special)
          usedGas 0 true None with
  | (g, Ok _) => Ok g
  | (_, Throw e) => Throw (GasError e)
  end.

Definition of_gas {A} (r : result gas_error A) : result manager_error A :=
  match r with Ok a => Ok a | Throw e => Throw (GasError e) end.

Definition new_shared (deployed : AddressMap ContractInformation) (g : GasTracker.t) (depth : Z) : shared :=
  mkShared m_empty m_empty deployed g [] depth 0 0.

Definition evaluated (r : option (shared * result vm_error evaluation)) : result manager_error (shared * evaluation) :=
  match r with
  | Some (s, Ok v) => Ok (s, v)
  | Some (_, Throw e) => Throw (EvaluationError e)
  | None => Throw NestedTooDeep
  end.

Definition transaction_params (contractAddress : Address) (tx : InteractionTransaction) : ExecutionParameters :=
  mkParams contractAddress (tx_msgSender tx) (tx_calldata tx) false false false 0 None
    (tx_preloadStorageList tx) (tx_specialSettings tx).

Definition executeTransaction (blockHeight baseGas : Z) (tx : InteractionTransaction) (isSimulation : bool) (m : t)
  : result manager_error (shared * evaluation) :=
  if decide (height m ≠ blockHeight) then Throw BlockHeightMismatch
  else match contractAddressAt (tx_contractAddress tx) with
  | None => Throw UnknownContract
  | Some contractAddress =>
      if decide (tx_gasSatFee tx = 0) then Throw NoFee
      else
        maxGas ← of_gas (calculateMaxGas SAT_TO_GAS_RATIO isSimulation (tx_gasSatFee tx) baseGas
                   (match tx_specialSettings tx with Some c => transactionGasLimit c | None => TRANSACTION_MAX_GAS end));
        g ← getGasTracker maxGas 0 (tx_specialSettings tx);
        evaluated (@executeCallInternal _ _ (manager_host message_of base m) TX TRANSACTION_MAX_GAS COLD_STORAGE_LOAD
                     blockHeight K instantiate call_fuel (transaction_params contractAddress tx)
                     (new_shared m_empty g 0))
  end.

Definition deployment_params (dt : DeploymentTransaction) : ExecutionParameters :=
  mkParams (contractPublicKey (dt_information dt)) (dt_from dt) (dt_calldata dt) false true false 0 None
    (dt_preloadStorageList dt) None.

Definition deployContract (blockHeight baseGas : Z) (dt : DeploymentTransaction) (m : t)
  : result manager_error (shared * evaluation) :=
  if decide (height m ≠ blockHeight) then Throw BlockHeightMismatch
  else if negb (ContractEvaluator.valid_information (dt_information dt)) then Throw UnknownContract
  else if decide (dt_gasSatFee dt = 0) then Throw NoFee
  else
    maxGas ← of_gas (calculateMaxGas SAT_TO_GAS_RATIO false (dt_gasSatFee dt) baseGas TRANSACTION_MAX_GAS);
    g ← getGasTracker maxGas 0 None;
    let host := manager_host message_of base m in
    evaluated (@ContractEvaluator.run _ _ host TX TRANSACTION_MAX_GAS COLD_STORAGE_LOAD blockHeight K instantiate
                 (@executeCallInternal _ _ host TX TRANSACTION_MAX_GAS COLD_STORAGE_LOAD blockHeight K instantiate call_fuel)
                 (dt_information dt) (deployment_params dt)
                 (new_shared (m_set m_empty (contractPublicKey (dt_information dt)) (dt_information dt)) g 1)).
End Running.
End VMManager.
End VMManager.
