(* ===== verification/VMManagerFacts.v ===== *)
(** * The caches of the VM manager are transparent

    A read goes through the state of the block, the cache and the database: its
    answer is what the block stored last in the slot, or else the database as of
    the block.  So the manager keeps the promise that evaluations rely on. *)

From S2P Require Import Prelude ConsensusRules Consensus Gas Evaluation Evaluator EvaluatorFacts BlockState PointerRepository VMManager.
Import VMManager.

Section Reads.
Context {LB : BtcLib} {LV : @VMLib LB} {LM : @MerkleLib LB LV} {LL : @MerkleLaws LB LV LM}.
Context (isExecutor disable : bool) (TX : TransactionsConfig) (past_root : Z → result string string).
Context (skip : SKIP_PROOF_VALIDATION_FOR_EXECUTION_BEFORE_TRANSACTION TX = true) (blockNumber : Z).
Implicit Types (m : VMManager.t) (a : Address) (k : Z) (v : ProvenMemoryValue).

Abbreviation getStorage_ := (getStorage isExecutor disable TX past_root).
Abbreviation getStorageMultiple_ := (getStorageMultiple isExecutor disable TX past_root).

(** The tree of the block, when there is one, is that of its values. *)
Definition state_ok (s : StateMerkleTree.t) : Prop :=
  MerkleTree.tree_ s = None ∨
  MerkleTree.tree_ s = Some (rust_build (MerkleTree.getValues StateMerkleTree.toBytes s)) ∧
  (2 ≤ length (MerkleTree.getValues StateMerkleTree.toBytes s))%nat.

Definition at_state m a k : option Z :=
  match blockState m with Some s => MerkleTree.getValue s a k | None => None end.
Definition in_docs m a k : option ProvenMemoryValue :=
  getByContractAndPointer (storage_docs m) a (pointerToUint8Array k) (Some blockNumber).

(** What a read of a slot answers. *)
Definition reads m a k : option bytes :=
  match at_state m a k with
  | Some x => Some (valueToUint8Array x)
  | None => pm_value <$> in_docs m a k
  end.

(** A slot of the cache is that of the database, unless the block has it. *)
Definition cache_ok m : Prop :=
  ∀ a k v, getPointerFromCache m a k = Some v → is_Some (at_state m a k) ∨ pm_value <$> in_docs m a k = Some (pm_value v).

Definition ready m : Prop :=
  (has_block_state m || isExecutor = true) ∧ (∀ s, blockState m = Some s → state_ok s) ∧ cache_ok m.

(** The managers before and after a read differ by the cache. *)
Definition same_but_cache m m' : Prop := m' = set_cache (pointerCache m') m.

Lemma same_but_cache_refl m : same_but_cache m m.
Proof. by destruct m. Qed.
Lemma same_but_cache_trans m1 m2 m3 : same_but_cache m1 m2 → same_but_cache m2 m3 → same_but_cache m1 m3.
Proof. unfold same_but_cache. intros -> ->. done. Qed.

Lemma getValueWithProofs_ok s a k :
  state_ok s →
  ∃ ps, StateMerkleTree.getValueWithProofs s a k = Ok ((fun x => (valueToUint8Array x, ps)) <$> MerkleTree.getValue s a k).
Proof.
  intros Hs. unfold StateMerkleTree.getValueWithProofs. destruct (MerkleTree.getValue s a k) as [x|] eqn:E; [|by exists []].
  unfold MerkleTree.hasTree. destruct Hs as [Hn|[Ht Hl]]; [rewrite Hn; by exists []|].
  destruct (frozen_proof StateMerkleTree.toBytes s a k x Ht Hl E) as (p & r & Hp & _).
  exists p. rewrite bool_decide_true by (by rewrite Ht). by rewrite Hp.
Qed.

Lemma getFromInternalCache_spec m a k :
  ready m →
  ∃ r, getFromInternalCache m a k = Ok r ∧
    (∀ x, at_state m a k = Some x → fst <$> r = Some (valueToUint8Array x)) ∧
    (at_state m a k = None → r = (fun v => (pm_value v, pm_proofs v)) <$> getPointerFromCache m a k).
Proof.
  intros (_ & Hs & _). unfold getFromInternalCache, at_state. destruct (blockState m) as [s|]; [|by eexists].
  destruct (getValueWithProofs_ok s a k (Hs s eq_refl)) as [ps ->].
  destruct (MerkleTree.getValue s a k) as [x|]; cbn; eexists; (split; [reflexivity|]); split; try done.
  by intros y [= ->].
Qed.

Lemma getPointerFromCache_store m a k o b k' :
  getPointerFromCache (storePointerInCache a k o m) b k' =
    if decide (a = b ∧ k = k') then o else getPointerFromCache m b k'.
Proof.
  unfold getPointerFromCache, storePointerInCache. cbn. rewrite m_get_set.
  destruct (decide (a = b)) as [->|]; [|by rewrite decide_False by naive_solver].
  rewrite JsMap.get_set. destruct (decide (k = k')) as [->|]; [by rewrite decide_True|].
  rewrite decide_False by naive_solver. by destruct (m_get (pointerCache m) b).
Qed.

(** Storing what is known keeps the cache right. *)
Lemma store_ready m a k o :
  ready m → (∀ v, o = Some v → is_Some (at_state m a k) ∨ pm_value <$> in_docs m a k = Some (pm_value v)) →
  ready (storePointerInCache a k o m) ∧ same_but_cache m (storePointerInCache a k o m) ∧
  reads (storePointerInCache a k o m) = reads m.
Proof.
  intros (H1 & H2 & H3) Ho. split; [|done]. split; [exact H1|]. split; [exact H2|].
  intros b k' v. rewrite getPointerFromCache_store. case_decide as Hd; [|apply H3].
  destruct Hd as [<- <-]. apply Ho.
Qed.

Lemma finalize_spec m a k o :
  ready m → (∀ v, o = Some v → is_Some (at_state m a k) ∨ pm_value <$> in_docs m a k = Some (pm_value v)) →
  ∃ m', finalizeProvenMemoryValue disable TX past_root a k o m = (m', Ok o) ∧ ready m' ∧ same_but_cache m m' ∧
    reads m' = reads m.
Proof.
  intros Hm Ho. unfold finalizeProvenMemoryValue. rewrite skip.
  destruct o as [v|]; [|exists m; auto using same_but_cache_refl].
  eexists. split; [done|]. by apply store_ready.
Qed.

Lemma getStorage_spec m a k :
  ready m →
  ∃ m', getStorage_ a k blockNumber false m = (m', Ok (reads m a k)) ∧ ready m' ∧ same_but_cache m m' ∧
    reads m' = reads m.
Proof.
  intros Hm. unfold getStorage. destruct (getFromInternalCache_spec m a k Hm) as (r & Er & Hstate & Hcache).
  pose proof Hm as (Hb & _ & Hc). replace (negb (has_block_state m) && negb isExecutor) with false
    by (destruct (has_block_state m), isExecutor; done).
  rewrite Er. unfold reads at 1. destruct (at_state m a k) as [x|] eqn:Ex.
  - specialize (Hstate x eq_refl). destruct r as [[value proofs]|]; [|done]. injection Hstate as <-.
    rewrite skip. exists m. auto using same_but_cache_refl.
  - rewrite (Hcache eq_refl). destruct (getPointerFromCache m a k) as [v|] eqn:Ev; cbn [fmap option_fmap option_map].
    + rewrite skip. exists m. destruct (Hc a k v Ev) as [[? ?]|Hd]; [congruence|]. rewrite Hd.
      auto using same_but_cache_refl.
    + unfold getStorageFromDB. fold (in_docs m a k).
      destruct (store_ready m a k (in_docs m a k) Hm) as (H1 & H2 & H3); [by intros v ->; right|].
      set (m1 := storePointerInCache a k (in_docs m a k) m) in *.
      destruct (in_docs m a k) as [v|] eqn:Ed; cbn; [|by exists m1].
      case_decide; [by exists m1|].
      destruct (finalize_spec m1 a k (Some v) H1) as (m2 & Hf & R1 & R2 & R3).
      { intros v' [= <-]. right. change (in_docs m1 a k) with (in_docs m a k). by rewrite Ed. }
      unfold mbind, stx_bind. rewrite Hf. exists m2. split; [done|]. split; [done|].
      split; [exact (same_but_cache_trans _ _ _ H2 R2)|]. by rewrite R3.
Qed.

(** *** Several slots *)

Lemma last_entry_app {V} (l1 l2 : list (Z * V)) k :
  last_entry (l1 ++ l2) k = match last_entry l2 k with Some x => Some x | None => last_entry l1 k end.
Proof.
  induction l2 as [|[k' x] l2 IH] using rev_ind; [by rewrite app_nil_r|].
  rewrite app_assoc, !last_entry_snoc. by case_decide.
Qed.

Lemma last_entry_elem {V} (l : list (Z * V)) k x : last_entry l k = Some x → (k, x) ∈ l.
Proof.
  induction l as [|[k' x'] l IH] using rev_ind; [done|]. rewrite last_entry_snoc.
  case_decide as Hk; [intros [= ->]; subst; set_solver|]. intros Hl%IH. set_solver.
Qed.

Lemma last_entry_none {V} (l : list (Z * V)) k x : last_entry l k = None → (k, x) ∉ l.
Proof.
  induction l as [|[k' x'] l IH] using rev_ind; [intros _; apply not_elem_of_nil|]. rewrite last_entry_snoc.
  case_decide as Hk; [done|]. intros Hl%IH. rewrite elem_of_app, list_elem_of_singleton. naive_solver.
Qed.

(** What the database answers for the pointers of a contract. *)
Lemma last_entry_pointer_map m a ptrs k o :
  last_entry (pointer_map pointerToUint8Array (storage_docs m) a ptrs (Some blockNumber)) k = Some o →
  o = in_docs m a k ∧ k ∈ ptrs.
Proof.
  unfold pointer_map. rewrite last_entry_app.
  destruct (last_entry (found _ _ _ _ _) k) as [o'|] eqn:E.
  - intros [= <-]. apply last_entry_elem in E. unfold found in E. apply list_elem_of_omap in E as (k' & Hk' & E).
    rewrite elem_of_remove_dups in Hk'. fold (in_docs m a k') in E. destruct (in_docs m a k') as [v|] eqn:Ed; [|done].
    injection E as -> <-. by split.
  - intros Hn%last_entry_elem. apply list_elem_of_fmap in Hn as (k' & [= -> ->] & Hk'). split; [|done].
    destruct (in_docs m a k') as [v|] eqn:Ed; [|done]. exfalso. apply (last_entry_none _ k' (Some v) E).
    unfold found. apply list_elem_of_omap. exists k'. rewrite elem_of_remove_dups. split; [done|].
    fold (in_docs m a k'). by rewrite Ed.
Qed.

(** An entry that may be answered for a slot, and cached. *)
Definition right_entry m a (kv : Z * option ProvenMemoryValue) : Prop :=
  ∀ v, kv.2 = Some v → is_Some (at_state m a kv.1) ∨ pm_value <$> in_docs m a kv.1 = Some (pm_value v).

Lemma preloaded_state_spec m a ptrs :
  ready m →
  ∃ here missing, preloaded_state m a ptrs = Ok (here, missing) ∧
    (∀ k o, (k, o) ∈ here → pm_value <$> o = reads m a k ∧ right_entry m a (k, o)) ∧
    (∀ k, k ∈ missing → at_state m a k = None).
Proof.
  intros Hm. induction ptrs as [|ptr ptrs IH]; cbn.
  - exists [], []. split; [done|]. split; [by intros k o ?%not_elem_of_nil|by intros k ?%not_elem_of_nil].
  - destruct (getFromInternalCache_spec m a ptr Hm) as (r & -> & Hstate & Hcache). cbn.
    destruct IH as (here & missing & -> & Hh & Hmis). cbn. destruct r as [[value proofs]|].
    + eexists _, _. split; [done|]. split; [|exact Hmis]. intros k o [[= -> ->]|Hin]%elem_of_cons; [|by apply Hh].
      cbn. unfold right_entry, reads. cbn. destruct (at_state m a ptr) as [x|] eqn:Ex.
      * specialize (Hstate x eq_refl). injection Hstate as ->. split; [done|]. intros v _. left. by eexists.
      * specialize (Hcache eq_refl). destruct (getPointerFromCache m a ptr) as [v|] eqn:Ev; [|done].
        injection Hcache as -> ->. destruct Hm as (_ & _ & Hc). destruct (Hc a ptr v Ev) as [[? ?]|Hd]; [congruence|].
        rewrite Hd. split; [done|]. intros v' [= <-]. by right.
    + eexists _, _. split; [done|]. split; [exact Hh|]. intros k [->|Hin]%elem_of_cons; [|by apply Hmis].
      destruct (at_state m a ptr) as [x|]; [|done]. by specialize (Hstate x eq_refl).
Qed.

Lemma preloaded_states_spec m l :
  ready m →
  ∃ known, preloaded_states m l = Ok known ∧ ∀ a here missing, (a, (here, missing)) ∈ known →
    (∀ k o, (k, o) ∈ here → pm_value <$> o = reads m a k ∧ right_entry m a (k, o)) ∧
    (∀ k, k ∈ missing → at_state m a k = None).
Proof.
  intros Hm. induction l as [|[a ptrs] l IH]; cbn.
  - exists []. split; [done|]. by intros a here missing ?%not_elem_of_nil.
  - destruct (preloaded_state_spec m a ptrs Hm) as (here & missing & -> & H1). cbn.
    destruct IH as (known & -> & Hk). eexists. split; [done|].
    intros b here' missing' [[= -> -> ->]|Hin]%elem_of_cons; [done|by apply Hk].
Qed.

Lemma right_entry_same m m' a kv : same_but_cache m m' → right_entry m a kv → right_entry m' a kv.
Proof. intros ->. done. Qed.

Lemma finalize_all_spec m a l :
  ready m → (∀ kv, kv ∈ l → right_entry m a kv) →
  ∃ m', finalize_all disable TX past_root a l m = (m', Ok l) ∧ ready m' ∧ same_but_cache m m'.
Proof.
  revert m. induction l as [|[k o] l IH]; intros m Hm Hl; cbn [finalize_all].
  - exists m. auto using same_but_cache_refl.
  - unfold mbind, stx_bind. destruct (finalize_spec m a k o Hm) as (m1 & -> & H1 & H2 & _).
    { intros v ->. by apply (Hl (k, Some v)); [left|]. }
    destruct (IH m1 H1) as (m2 & -> & H3 & H4).
    { intros kv Hin. apply (right_entry_same m m1); [done|]. apply Hl. by right. }
    exists m2. split; [done|]. split; [done|]. exact (same_but_cache_trans _ _ _ H2 H4).
Qed.

Lemma finalize_contracts_spec m l :
  ready m → (∀ a ps kv, (a, ps) ∈ l → kv ∈ ps → right_entry m a kv) →
  ∃ m', finalize_contracts disable TX past_root l m = (m', Ok l) ∧ ready m' ∧ same_but_cache m m'.
Proof.
  revert m. induction l as [|[a ps] l IH]; intros m Hm Hl; cbn [finalize_contracts].
  - exists m. auto using same_but_cache_refl.
  - unfold mbind, stx_bind. destruct (finalize_all_spec m a ps Hm) as (m1 & -> & H1 & H2).
    { intros kv. apply Hl. by left. }
    destruct (IH m1 H1) as (m2 & -> & H3 & H4).
    { intros b ps' kv Hin Hkv. apply (right_entry_same m m1); [done|]. apply (Hl b ps'); [by right|done]. }
    exists m2. split; [done|]. split; [done|]. exact (same_but_cache_trans _ _ _ H2 H4).
Qed.

Lemma join_fetched_elem known (f : Address → list Z → list (Z * option ProvenMemoryValue)) a ps :
  (a, ps) ∈ join_fetched known ((fun al => (al.1, f al.1 al.2))
    <$> ((fun al : Address * (list (Z * option ProvenMemoryValue) * list Z) => (al.1, al.2.2)) <$> known)) →
  ∃ here missing, (a, (here, missing)) ∈ known ∧ ps = here ++ f a missing.
Proof.
  induction known as [|[b [here missing]] known IH]; cbn; [by intros ?%not_elem_of_nil|].
  intros [[= -> ->]|Hin]%elem_of_cons; [exists here, missing; split; [by left|done]|].
  destruct (IH Hin) as (h & mi & ? & ?). exists h, mi. split; [by right|done].
Qed.

Lemma getStorageMultiple_spec m l :
  ready m →
  ∃ m' r, getStorageMultiple_ l blockNumber m = (m', Ok r) ∧ ready m' ∧ same_but_cache m m' ∧
    ∀ p, r = Some p → ∀ a pointers k o, (a, pointers) ∈ p → last_entry pointers k = Some o →
      pm_value <$> o = reads m a k.
Proof.
  intros Hm. unfold getStorageMultiple. pose proof Hm as (Hb & _ & _).
  replace (negb (has_block_state m) && negb isExecutor) with false
    by (destruct (has_block_state m), isExecutor; done).
  destruct (preloaded_states_spec m l Hm) as (known & -> & Hknown).
  unfold getByContractsAndPointers. destruct known as [|x0 known'].
  { exists m, None. split; [done|]. split; [done|]. split; [apply same_but_cache_refl|done]. }
  match goal with |- context [match ?l with [] => None | _ :: _ => Some ?y end] =>
    change (match l with [] => None | _ :: _ => Some y end) with (Some y) end.
  cbn beta iota. set (known := x0 :: known') in *.
  match goal with |- context [join_fetched known ?y] => set (joined := join_fetched known y) end.
  assert (∀ a ps, (a, ps) ∈ joined → ∃ here missing, (a, (here, missing)) ∈ known ∧
    ps = here ++ pointer_map pointerToUint8Array (storage_docs m) a missing (Some blockNumber)) as Hj.
  { intros a ps Hin. by apply (join_fetched_elem known
      (fun a ptrs => pointer_map pointerToUint8Array (storage_docs m) a ptrs (Some blockNumber))). }
  destruct (finalize_contracts_spec m joined Hm) as (m' & Hf & H1 & H2).
  { intros a ps [k o] (here & missing & Hin & ->)%Hj Hkv. destruct (Hknown _ _ _ Hin) as [Hh _].
    apply elem_of_app in Hkv as [Hkv|Hkv]; [by apply Hh|]. unfold pointer_map in Hkv.
    intros v Ho. cbn in Ho. subst o. right. cbn. apply elem_of_app in Hkv as [Hkv|Hkv].
    - by apply list_elem_of_fmap in Hkv as (k' & [=] & _).
    - unfold found in Hkv. apply list_elem_of_omap in Hkv as (k' & _ & E). fold (in_docs m a k') in E.
      destruct (in_docs m a k') as [w|] eqn:Ed; [|done]. injection E as -> <-. by rewrite Ed. }
  unfold mbind, stx_bind. rewrite Hf. eexists m', (Some joined). split; [done|]. split; [done|]. split; [done|].
  intros p [= <-] a ps k o (here & missing & Hin & ->)%Hj. destruct (Hknown _ _ _ Hin) as [Hh Hmis].
  rewrite last_entry_app. destruct (last_entry (pointer_map _ _ _ _ _) k) as [o'|] eqn:E.
  - intros [= <-]. apply last_entry_pointer_map in E as [-> Hk]. unfold reads. by rewrite (Hmis k Hk).
  - intros Ho%last_entry_elem. by apply Hh.
Qed.

(** C31: The caches are transparent: a read answers the value the block stored last in
    the slot, or else that of the database below the block, without failing, and
    changes nothing but the cache, which stays right. *)
Theorem getStorage_transparent m a k :
  ready m →
  ∃ m', getStorage_ a k blockNumber false m = (m', Ok (reads m a k)) ∧ ready m' ∧ same_but_cache m m' ∧
    reads m' = reads m.
Proof. apply getStorage_spec. Qed.
End Reads.

(** ** A manager in the middle of a block

    Slot 1 of alice was stored by the block, slot 3 is in the database. *)

#[local] Existing Instance string_btclib.
#[local] Existing Instance example_vmlib.
#[local] Existing Instance example_merkle.
#[local] Existing Instance example_merkle_laws.

Definition example_manager : VMManager.t :=
  mk true 8 (Some (StateMerkleTree.updateValues "alice" [(1, 42)] MerkleTree.initial)) (Some MerkleTree.initial)
    m_empty [mkDoc "alice" (pointerToUint8Array 3) (mkProven [7] ["proof"] 6)].

Abbreviation example_getStorage := (getStorage false true Roswell_TRANSACTIONS (fun _ => Throw "no header")).

Example example_reads :
  (example_getStorage "alice" 1 8 false example_manager).2 = Ok (Some (valueToUint8Array 42)) ∧
  (example_getStorage "alice" 3 8 false example_manager).2 = Ok (Some [7]) ∧
  (example_getStorage "alice" 3 6 false example_manager).2 = Ok None.
Proof. vm_compute. by split_and!. Qed.

Lemma example_ready : ready false 8 example_manager.
Proof.
  split; [vm_compute; done|]. split; [|by intros a k v].
  intros s [= <-]. by left.
Qed.

Lemma getStorage_transparent_witness :
  ∃ m', example_getStorage "alice" 3 8 false example_manager = (m', Ok (reads 8 example_manager "alice" 3)) ∧
    ready false 8 m' ∧ same_but_cache example_manager m' ∧ reads 8 m' = reads 8 example_manager.
Proof.
  exact (getStorage_transparent false true Roswell_TRANSACTIONS (fun _ => Throw "no header") eq_refl 8
    example_manager "alice" 3 example_ready).
Defined.
