(* ===== verification/BlockStorage.v ===== *)
(** * What a block stores

    The transactions of a block write into its state in turn, a reverted one
    nothing; when the block is done its state goes to the database, where the next
    block reads it.  Across blocks the manager is a memory: a read answers the last
    value stored. *)

From S2P Require Import Prelude ConsensusRules Consensus Gas Evaluation Evaluator EvaluatorFacts BlockState PointerRepository VMManager VMManagerFacts.
Import VMManager.

Section BlockStorage.
Context {LB : BtcLib} {LV : @VMLib LB} {LM : @MerkleLib LB LV} {LL : @MerkleLaws LB LV LM}.
Implicit Types (m : VMManager.t) (a : Address) (k : Z).

(** ** The state of a block *)

Import MerkleTree.

Lemma of_list_get (l : list (Z * Z)) k : JsMap.wf l → JsMap.get (JsMap.of_list l) k = JsMap.get l k.
Proof. intros Hl. by rewrite JsMap.of_list_id. Qed.

Lemma getValue_apply_changes (l : list (Address * list (Z * Z))) (s : StateMerkleTree.t) a k :
  NoDup l.*1 → (∀ b val, (b, val) ∈ l → JsMap.wf val) →
  getValue (apply_changes l s) a k =
    match JsMap.get (default [] (JsMap.get l a)) k with Some x => Some x | None => getValue s a k end.
Proof.
  unfold apply_changes. revert s. induction l as [|[b val] l IH]; intros s; cbn [foldl]; [done|].
  intros [Hb Hl]%NoDup_cons Hw. cbn [fst] in Hb.
  rewrite IH by (done || intros c w Hin; apply (Hw c); by right).
  unfold StateMerkleTree.updateValues. rewrite (getValue_updateValues _ state_unchanged_eq).
  rewrite of_list_get by (apply (Hw b); by left). cbn [JsMap.get].
  destruct (decide (a = b)) as [->|Hne]; [|by rewrite (decide_False (P := b = a)) by done].
  rewrite decide_True by done. cbn. destruct (JsMap.get l b) as [w|] eqn:E; [|done].
  exfalso. apply Hb. apply JsMap.get_elem_of in E. apply list_elem_of_fmap. by exists (b, w).
Qed.

Lemma m_entries_js {V} (c : AddressMap V) a : JsMap.get (m_entries c) a = m_get c a.
Proof.
  destruct (m_get c a) as [v|] eqn:E.
  - apply JsMap.elem_of_get; [apply m_entries_nodup|by apply m_entries_get].
  - destruct (JsMap.get (m_entries c) a) as [v|] eqn:E'; [|done].
    apply JsMap.get_elem_of, m_entries_get in E'. congruence.
Qed.

(** What does not change as the transactions write: the tree is not built, and each
    slot is there once. *)
Record tree_open (s : StateMerkleTree.t) : Prop := {
  to_tree : tree_ s = None;
  to_frozen : frozen s = false;
  to_wf a : JsMap.wf (map_of s a)
}.

Lemma map_of_put_wf (s : StateMerkleTree.t) a b kv :
  JsMap.wf (map_of s b) → JsMap.wf (map_of (put StateMerkleTree.unchanged a s kv) b).
Proof.
  intros Hw. unfold put. destruct (match JsMap.get _ _ with Some _ => _ | None => _ end); [done|].
  change (JsMap.wf (map_of (set_values (m_set (values s) a (JsMap.set (map_of s a) kv.1 kv.2)) s) b)).
  rewrite map_of_set. case_decide as Ha; [|done]. subst b. by apply JsMap.wf_set.
Qed.

Lemma tree_open_put s a kv : tree_open s → tree_open (put StateMerkleTree.unchanged a s kv).
Proof.
  intros [H1 H2 H3]. split; [| |intros b; by apply map_of_put_wf];
    unfold put; by destruct (match JsMap.get _ _ with Some _ => _ | None => _ end).
Qed.

Lemma tree_open_ensure (s : StateMerkleTree.t) a : tree_open s → tree_open (ensureAddress a s).
Proof.
  intros [H1 H2 H3]. unfold ensureAddress. destruct (m_get (values s) a) eqn:E; [done|].
  split; [done|done|]. intros b. rewrite map_of_set. case_decide; [apply JsMap.wf_nil|apply H3].
Qed.

Lemma tree_open_apply l s : tree_open s → tree_open (apply_changes l s).
Proof.
  unfold apply_changes. revert s. induction l as [|[a val] l IH]; intros s Hs; cbn [foldl]; [done|].
  apply IH. unfold StateMerkleTree.updateValues, updateValues. apply (tree_open_ensure _ a) in Hs.
  revert Hs. generalize (ensureAddress a s). induction val as [|kv val IHv]; intros s' Hs; cbn [foldl]; [done|].
  by apply IHv, tree_open_put.
Qed.

(** ** A block whose transactions run *)

Record block_open m : Prop := {
  bo_prepared : isPrepared m = true;
  bo_state : ∃ s, blockState m = Some s ∧ tree_open s;
  bo_receipts : ∃ r, receiptState m = Some r ∧ frozen r = false;
  bo_words a k : is_Some (at_state m a k) → word k;
  bo_cache : cache_ok (height m) m;
  bo_unique : unique_docs (storage_docs m);
  bo_past d : d ∈ storage_docs m → lastSeenAt d < height m
}.

Lemma block_open_ready m : block_open m → ready false (height m) m.
Proof.
  intros [_ (s & Es & Hs) _ _ Hc _ _]. split; [unfold has_block_state; rewrite bool_decide_true by (by rewrite Es); done|].
  split; [|done]. intros s' E'. assert (s' = s) as -> by congruence. left. apply Hs.
Qed.

(** What a block answers for a slot, and for the receipt of a transaction. *)
Definition slot m a k : option bytes := reads (height m) m a k.
Definition receipt m a (txid : string) : option bytes :=
  match receiptState m with Some r => getValue r a txid | None => None end.

(** What a result, or a failure, writes in a slot, and its receipt. *)
Definition written (e : option EvaluatedResult) a k : option Z :=
  match e with
  | Some r => match res_revert r, changedStorage r with None, Some c => changed c a k | _, _ => None end
  | None => None
  end.
Definition receipt_of (e : option EvaluatedResult) : bytes :=
  match e with
  | Some r => match res_revert r with None => default [0] (res_result r) | Some _ => [0] end
  | None => [0]
  end.

(** The results of evaluations: those that went well have an answer and a storage. *)
Definition result_ok (e : option EvaluatedResult) : Prop :=
  ∀ r, e = Some r → res_revert r = None →
    is_Some (res_result r) ∧ ∃ c, changedStorage r = Some c ∧ ∀ a, JsMap.wf (default [] (m_get c a)).

(** Pointers have 256 bits. *)
Definition words_written (e : option EvaluatedResult) : Prop := ∀ a k, is_Some (written e a k) → word k.

Lemma getValue_update_receipt (r : ReceiptMerkleTree.t) a txid data :
  frozen r = false →
  ∃ r', ReceiptMerkleTree.updateValue a txid data r = (r', Ok tt) ∧ frozen r' = false ∧
    ∀ b t, getValue r' b t = if decide (a = b ∧ txid = t) then Some data else getValue r b t.
Proof.
  intros Hf. unfold ReceiptMerkleTree.updateValue, updateValue. rewrite Hf. eexists. split; [done|]. split.
  - unfold put. destruct (match JsMap.get _ _ with Some _ => _ | None => _ end);
      unfold ensureAddress; by destruct (m_get (values r) a).
  - intros b t. rewrite (getValue_put ReceiptMerkleTree.unchanged) by done. by rewrite getValue_ensureAddress.
Qed.

(** The slots and the receipts after a transaction. *)
Lemma update_spec m e a txid :
  block_open m → result_ok e → words_written e → txid ≠ "" →
  ∃ m', updateBlockValuesFromResult false e a txid true m = (m', Ok tt) ∧ block_open m' ∧
    height m' = height m ∧
    (∀ b k, slot m' b k = match written e b k with Some x => Some (valueToUint8Array x) | None => slot m b k end) ∧
    ∀ b t, receipt m' b t = if decide (a = b ∧ txid = t) then Some (receipt_of e) else receipt m b t.
Proof.
  intros [Hp (s & Es & Hs) (r & Er & Hr) Hw Hc Hu Hd] He Hk Ht.
  unfold updateBlockValuesFromResult. rewrite Es, Er, decide_False by done.
  assert (∀ s' data, tree_open s' →
    (∀ b k, getValue s' b k = match written e b k with Some x => Some x | None => getValue s b k end) →
    ∃ r', ReceiptMerkleTree.updateValue a txid data r = (r', Ok tt) ∧
      let m' := set_states (Some s') (Some r') m in block_open m' ∧ height m' = height m ∧
      (∀ b k, slot m' b k = match written e b k with Some x => Some (valueToUint8Array x) | None => slot m b k end) ∧
      ∀ b t, receipt m' b t = if decide (a = b ∧ txid = t) then Some data else receipt m b t) as Hfinish.
  { intros s' data Hs' Hv. destruct (getValue_update_receipt r a txid data Hr) as (r' & -> & Hf & Hget).
    exists r'. split; [done|]. cbn zeta. split; [|split; [done|split]].
    - split; cbn; eauto; unfold at_state in *; cbn; rewrite Es in *.
      + intros b k. rewrite Hv. specialize (Hk b k). destruct (written e b k); [intros _; apply Hk; by eexists|apply Hw].
      + intros b k v Hget'. destruct (Hc b k v Hget') as [[x Hx]|Hx]; [left|by right].
        unfold at_state in *. cbn in *. rewrite Es in Hx. rewrite Hv. destruct (written e b k); by eexists.
    - intros b k. unfold slot, reads, at_state. cbn. rewrite Es, Hv. by destruct (written e b k).
    - intros b t. unfold receipt. cbn. rewrite Er. apply Hget. }
  destruct e as [res|].
  - cbn [written receipt_of] in *. destruct (res_revert res) eqn:Erev.
    + destruct (Hfinish s [0] Hs) as (r' & -> & H); [done|]. by eexists.
    + destruct (He res eq_refl Erev) as [[data Ed] (c & Ec & Hcw)]. rewrite Ed, Ec in *.
      destruct (Hfinish (apply_changes (m_entries c) s) data) as (r' & -> & H); [by apply tree_open_apply| |by eexists].
      intros b k. rewrite getValue_apply_changes.
      * rewrite m_entries_js. done.
      * apply m_entries_nodup.
      * intros b' val Hin%m_entries_get. specialize (Hcw b'). unfold PointerStorageMap in Hcw. by rewrite Hin in Hcw.
  - destruct (Hfinish s [0] Hs) as (r' & -> & H); [done|]. by eexists.
Qed.

(** ** What the contracts are given *)

Section Host.
Context (disable : bool) (TX : TransactionsConfig) (past_root : Z → result string string).
Context (skip : SKIP_PROOF_VALIDATION_FOR_EXECUTION_BEFORE_TRANSACTION TX = true).
Context (message_of : manager_error → string) (base : @VMHost LB LV).

Abbreviation host := (manager_host false disable TX past_root message_of base).

Lemma host_reads m a k :
  ready false (height m) m → @host_getStorage _ _ (host m) a k = Ok (uint8ArrayToValue <$> slot m a k).
Proof.
  intros Hm. cbn. destruct (getStorage_spec false disable TX past_root skip (height m) m a k Hm) as (m' & -> & _).
  done.
Qed.

Lemma last_entry_numbers (l : list (Z * option ProvenMemoryValue)) k :
  last_entry (map number l) k =
    match last_entry l k with
    | Some o => Some (match o with Some v => Some (uint8ArrayToPointer (pm_value v)) | None => None end)
    | None => None
    end.
Proof.
  induction l as [|[k' o] l IH] using rev_ind; [done|]. rewrite map_app. cbn [map].
  unfold number at 2. cbn [fst snd]. rewrite !last_entry_snoc. case_decide; [|exact IH]. by destruct o.
Qed.

(** The manager keeps the promise that evaluations rely on. *)
#[export] Instance manager_host_laws m : block_open m → @VMHostLaws LB LV (host m).
Proof.
  intros Hm. apply block_open_ready in Hm. split. intros l p a pointers k o.
  cbn [host_getStorageMultiple manager_host].
  destruct (getStorageMultiple_spec false disable TX past_root skip (height m) m l Hm)
    as (m' & r & -> & _ & _ & Hr). cbn. destruct r as [p'|]; [|done]. intros [= <-].
  intros ([b ps] & [= -> ->] & Hin)%list_elem_of_fmap Hk. etransitivity; [by apply host_reads|].
  rewrite last_entry_numbers in Hk. destruct (last_entry ps k) as [o'|] eqn:E; [|done]. injection Hk as <-.
  unfold slot. rewrite <-(Hr p' eq_refl b ps k o' Hin E). f_equal. destruct o' as [v|]; cbn; [|done].
  by rewrite same_decoding.
Qed.

(** The result of an evaluation that ended. *)
Lemma ended_result_ok TX_MAX p s s' v :
  ended TX TX_MAX p s s' v → result_ok (Some (ContractEvaluation.getEvaluationResult (s', v))).
Proof.
  intros He r [= <-]. cbn. intros Hn. destruct (ended_reports _ _ _ _ _ _ He Hn) as (c & data & Hc & Hd & _).
  replace (ContractEvaluation.is_reverted v) with false by (unfold ContractEvaluation.is_reverted; by rewrite Hn).
  rewrite Hd. split; [by eexists|]. exists c. split; [done|]. intros a.
  by apply (wf_maps _ _ (ended_wf _ _ _ _ _ _ He)).
Qed.
End Host.

(** ** Saving a block *)

Definition pointer_entry (kv : Z * (Z * list string)) : bytes * (bytes * list string) :=
  (pointerToUint8Array kv.1, (valueToUint8Array kv.2.1, kv.2.2)).

Lemma pointer_inj k k' : word k → word k' → pointerToUint8Array k = pointerToUint8Array k' → k = k'.
Proof. intros Hk Hk' E. by rewrite <-(pointer_roundtrip k Hk), E, (pointer_roundtrip k' Hk'). Qed.

Lemma get_pointer_entries (l : list (Z * (Z * list string))) k :
  word k → (∀ kv, kv ∈ l → word kv.1) →
  JsMap.get (pointer_entry <$> l) (pointerToUint8Array k) =
    (fun vp : Z * list string => (valueToUint8Array vp.1, vp.2)) <$> JsMap.get l k.
Proof.
  intros Hk. induction l as [|[k' vp] l IH]; intros Hl; cbn; [done|].
  assert (word k') as Hk' by (apply (Hl (k', vp)); left).
  destruct (decide (k = k')) as [->|Hne]; [by rewrite decide_True|].
  rewrite decide_False by (intros E; by apply Hne, pointer_inj). apply IH. intros kv Hin. apply Hl. by right.
Qed.

Lemma pointer_entries_wf (l : list (Z * (Z * list string))) :
  JsMap.wf l → (∀ kv, kv ∈ l → word kv.1) → JsMap.wf (pointer_entry <$> l).
Proof.
  unfold JsMap.wf, JsMap.keys. induction l as [|[k vp] l IH]; cbn; [constructor|].
  intros [Hk Hl]%NoDup_cons Hw. apply NoDup_cons. split; [|apply IH; [done|]; intros kv Hin; apply Hw; by right].
  intros ([b q] & E & Hin)%list_elem_of_fmap. apply list_elem_of_fmap in Hin as (kv & Ekv & Hin).
  apply Hk. unfold pointer_entry in Ekv. injection Ekv as Eb _. cbn in E. rewrite Eb in E.
  apply pointer_inj in E; [|by apply (Hw (k, vp)); left|by apply Hw; right].
  subst k. apply list_elem_of_fmap. by exists kv.
Qed.

Lemma get_storage_to_update (ps : AddressMap (list (Z * (Z * list string)))) a :
  default [] (JsMap.get (storage_to_update ps) a) = pointer_entry <$> default [] (m_get ps a).
Proof.
  rewrite <-(m_entries_js ps a). pose proof (m_entries_nodup ps) as Hn. unfold storage_to_update.
  induction (m_entries ps) as [|[b l] es IH]; [done|]. cbn in Hn. apply NoDup_cons in Hn as [Hb Hn].
  rewrite filter_cons. cbn [JsMap.get snd]. destruct (decide (l ≠ [])) as [Hl|Hl]; cbn [fmap list_fmap JsMap.get fst].
  - destruct (decide (a = b)); [done|by apply IH].
  - rewrite IH by done. destruct (decide (a = b)) as [->|]; [|done].
    destruct l; [|by destruct Hl]. destruct (JsMap.get es b) eqn:E; [|done].
    exfalso. apply Hb. apply JsMap.get_elem_of in E. apply list_elem_of_fmap. by exists (b, l).
Qed.

Lemma storage_to_update_wf (ps : AddressMap (list (Z * (Z * list string)))) :
  (∀ a, JsMap.wf (default [] (m_get ps a)) ∧ ∀ kv, kv ∈ default [] (m_get ps a) → word kv.1) →
  storage_wf (storage_to_update ps).
Proof.
  intros Hw. split.
  - unfold JsMap.wf, JsMap.keys, storage_to_update. rewrite <-list_fmap_compose.
    eapply sublist_NoDup; [apply (m_entries_nodup ps)|].
    apply (fmap_sublist (fst (A := Address) (B := list (Z * (Z * list string))))), sublist_filter.
  - intros a l ([b l'] & [= -> ->] & Hin)%list_elem_of_fmap. apply list_elem_of_filter in Hin as [_ Hin].
    apply m_entries_get in Hin. destruct (Hw b) as [H1 H2]. rewrite Hin in H1, H2. by apply pointer_entries_wf.
Qed.

Lemma receipts_saved r c :
  frozen r = false → (∀ x, c = Some x → length x = 32%nat) →
  ∃ r' root, updateReceiptState c r = (r', Ok tt) ∧ MerkleTree.root r' = Ok root ∧
    ∀ a t data, a ≠ BTC_FAKE_ADDRESS → getValue r a t = Some data →
      ∃ proof, ReceiptMerkleTree.getValueWithProofs r' a t = Ok (Some (data, proof)) ∧
        rust_verify root (ReceiptMerkleTree.toBytes t data) proof = true.
Proof.
  intros Hf Hc. assert (∀ data, ∃ r' root,
    lift_merkle ((_ ← ReceiptMerkleTree.updateValue BTC_FAKE_ADDRESS MAX_HASH data;
                  _ ← ReceiptMerkleTree.updateValue BTC_FAKE_ADDRESS MAX_MINUS_ONE [1];
                  ReceiptMerkleTree.freeze) r) = (r', Ok tt) ∧ MerkleTree.root r' = Ok root ∧
    ∀ a t data, a ≠ BTC_FAKE_ADDRESS → getValue r a t = Some data →
      ∃ proof, ReceiptMerkleTree.getValueWithProofs r' a t = Ok (Some (data, proof)) ∧
        rust_verify root (ReceiptMerkleTree.toBytes t data) proof = true) as H.
  { intros data. destruct (getValue_update_receipt r BTC_FAKE_ADDRESS MAX_HASH data Hf) as (r1 & E1 & F1 & G1).
    destruct (getValue_update_receipt r1 BTC_FAKE_ADDRESS MAX_MINUS_ONE [1] F1) as (r2 & E2 & F2 & G2).
    unfold mbind, stx_bind. rewrite E1, E2.
    destruct (freeze_spec ReceiptMerkleTree.toBytes ReceiptMerkleTree.getDummyValues BTC_FAKE_ADDRESS
      [(MAX_HASH, [1]); (MAX_MINUS_ONE, [1])] MAX_HASH MAX_MINUS_ONE [1] [1] eq_refl ltac:(done) eq_refl eq_refl r2 F2)
      as (r3 & E3 & Hv & _ & _ & _ & Ht & Hl).
    unfold ReceiptMerkleTree.freeze. rewrite E3. eexists r3, _. split; [done|].
    unfold root. rewrite Ht. split; [done|]. intros a t d Ha Hd.
    assert (getValue r3 a t = Some d) as Hd3.
    { apply Hv. rewrite G2, decide_False, G1, decide_False; [done|intros [??]; by subst..]. }
    destruct (frozen_proof ReceiptMerkleTree.toBytes r3 a t d Ht Hl Hd3) as (p & rt & Hp & Hrt & Hver).
    unfold root in Hrt. rewrite Ht in Hrt. injection Hrt as <-. exists p. split; [|exact Hver].
    unfold ReceiptMerkleTree.getValueWithProofs, hasTree. rewrite bool_decide_true by (by rewrite Ht).
    by rewrite Hd3, Hp. }
  unfold updateReceiptState. destruct c as [x|]; [|apply H]. rewrite decide_True by (by apply Hc). apply H.
Qed.

(** What is saved is the state, with its proofs. *)
Lemma state_saved s ps a :
  getEverythingWithProofs StateMerkleTree.toBytes s = Ok (Some ps) →
  (∀ b, JsMap.wf (map_of s b)) → (∀ b k, is_Some (getValue s b k) → word k) →
  storage_wf (storage_to_update ps) ∧
  ∀ k, word k → a ≠ Address_dead →
    fst <$> saved (storage_to_update ps) a (pointerToUint8Array k) = valueToUint8Array <$> getValue s a k.
Proof.
  intros Hps Hwf Hw. pose proof (strip_everything _ _ _ Hps) as Hs.
  assert (∀ b, JsMap.wf (default [] (m_get ps b)) ∧ ∀ kv, kv ∈ default [] (m_get ps b) → word kv.1) as Hall.
  { intros b. split.
    - specialize (Hwf b). rewrite <-Hs in Hwf. unfold JsMap.wf, JsMap.keys, strip in *.
      by rewrite <-list_fmap_compose in Hwf.
    - intros [k [v p]] Hin. apply (Hw b). rewrite getValue_map_of, <-Hs. exists v. apply JsMap.elem_of_get.
      + rewrite Hs. apply Hwf.
      + apply list_elem_of_fmap. by exists (k, (v, p)). }
  split; [by apply storage_to_update_wf|]. intros k Hk Ha. unfold saved. rewrite decide_False by done.
  rewrite get_storage_to_update, get_pointer_entries by (done || apply Hall).
  rewrite getValue_map_of, <-Hs, get_strip. by destruct (JsMap.get _ k) as [[v p]|].
Qed.

(** The block after its state is saved: the database answers above it what the
    block answered, and every receipt has a proof. *)
Lemma save_spec m c :
  block_open m → (∀ x, c = Some x → length x = 32%nat) →
  ∃ m' st rt root, updateEvaluatedStates false false c m = (m', Ok (st, rt)) ∧
    (isPrepared m' = true ∧ blockState m' = None ∧ height m' = height m) ∧
    (unique_docs (storage_docs m') ∧ ∀ d, d ∈ storage_docs m' → lastSeenAt d ≤ height m) ∧
    (∀ a k, word k → a ≠ Address_dead →
      pm_value <$> getByContractAndPointer (storage_docs m') a (pointerToUint8Array k) (Some (height m + 1)) = slot m a k) ∧
    MerkleTree.root rt = Ok root ∧
    ∀ a t data, a ≠ Address_dead → receipt m a t = Some data →
      ∃ proof, ReceiptMerkleTree.getValueWithProofs rt a t = Ok (Some (data, proof)) ∧
        rust_verify root (ReceiptMerkleTree.toBytes t data) proof = true.
Proof.
  intros [Hp (s & Es & [Ht Hf Hwf]) (r & Er & Hr) Hw Hc Hu Hd] Hlen. unfold updateEvaluatedStates.
  rewrite Es, Er. destruct (receipts_saved r c Hr Hlen) as (r' & root & -> & Hroot & Hreceipts).
  destruct (freeze_spec StateMerkleTree.toBytes StateMerkleTree.getDummyValues BTC_FAKE_ADDRESS
    [(1, 1); (2, 2)] 1 2 1 2 eq_refl ltac:(done) eq_refl eq_refl s Hf) as (s' & E & _ & Ho & Hs & Hwf' & _ & _).
  destruct (freeze_proves s Hf) as (s'' & rs & ps & E' & _ & Hps & _).
  assert (s'' = s') as -> by (unfold StateMerkleTree.freeze in E'; congruence). rewrite E'.
  unfold saveBlockStateChanges. cbn [negb]. rewrite Hps.
  assert (∀ b k, is_Some (getValue s' b k) → word k) as Hword.
  { intros b k [Hv|Hv]%Hs; [apply (Hw b); unfold at_state; by rewrite Es|]. cbn in Hv. unfold word.
    repeat (case_decide; [subst k; lia|]). by destruct Hv. }
  pose proof (fun a => state_saved s' ps a Hps (fun b => Hwf' b Hwf ltac:(repeat constructor; set_solver)) Hword) as Hsaved.
  pose proof (fun a ptr => setStoragePointers_spec (storage_to_update ps) (height m) (storage_docs m) a ptr (height m + 1)
    Hu (fun d Hin => Z.lt_le_incl _ _ (Hd d Hin)) (proj1 (Hsaved a))) as Hset.
  eexists _, s', r', root. split; [done|]. cbn -[getByContractAndPointer]. split; [done|]. split; [apply (Hset Address_dead [])|].
  split; [|split; [done|]].
  - intros a k Hk Ha. destruct (Hset a (pointerToUint8Array k)) as (_ & -> & _).
    rewrite decide_True by lia. destruct (Hsaved a) as [_ Hv]. specialize (Hv k Hk Ha). rewrite (Ho a k Ha) in Hv.
    unfold slot, reads, at_state, in_docs. rewrite Es.
    destruct (saved _ a _) as [[v p]|]; destruct (getValue s a k); try done.
    by rewrite (getByContractAndPointer_above _ _ _ (height m)) by (done || lia).
  - intros a t data Ha. unfold receipt. rewrite Er. by apply Hreceipts.
Qed.

(** ** A block as a memory *)

(** What transactions do to a memory: a result writes, a failure does not. *)
Definition memory_after (mem : Address → Z → option bytes) (e : option EvaluatedResult) (a : Address) (k : Z) : option bytes :=
  match written e a k with Some x => Some (valueToUint8Array x) | None => mem a k end.

Fixpoint apply_results (l : list (option EvaluatedResult * Address * string)) : op unit :=
  match l with
  | [] => mret tt
  | (e, contract, txid) :: l' => _ ← updateBlockValuesFromResult false e contract txid true; apply_results l'
  end.

Definition acceptable (x : option EvaluatedResult * Address * string) : Prop :=
  result_ok x.1.1 ∧ words_written x.1.1 ∧ x.2 ≠ "".

Lemma memory_after_ext mem mem' e : (∀ a k, mem a k = mem' a k) → ∀ a k, memory_after mem e a k = memory_after mem' e a k.
Proof. intros H a k. unfold memory_after. by destruct (written e a k). Qed.

Lemma memory_afters_ext l mem mem' :
  (∀ a k, mem a k = mem' a k) → ∀ a k, foldl memory_after mem l a k = foldl memory_after mem' l a k.
Proof. revert mem mem'. induction l as [|e l IH]; intros mem mem' H; cbn; [done|]. by apply IH, memory_after_ext. Qed.

Lemma apply_results_spec l m :
  block_open m → Forall acceptable l →
  ∃ m', apply_results l m = (m', Ok tt) ∧ block_open m' ∧ height m' = height m ∧
    ∀ a k, slot m' a k = foldl memory_after (slot m) l.*1.*1 a k.
Proof.
  revert m. induction l as [|[[e a] t] l IH]; intros m Hm; [intros _; by exists m|].
  intros [(He & Hw & Ht) Hl]%Forall_cons. cbn [apply_results]. unfold mbind, stx_bind.
  destruct (update_spec m e a t Hm He Hw Ht) as (m1 & -> & H1 & Hh1 & Hs1 & _).
  destruct (IH m1 H1 Hl) as (m2 & -> & H2 & Hh2 & Hs2). exists m2. split; [done|]. split; [done|].
  split; [congruence|]. intros b k. rewrite Hs2. cbn. by apply memory_afters_ext.
Qed.

Lemma next_block m c :
  block_open m → (∀ x, c = Some x → length x = 32%nat) →
  ∃ m', (_ ← updateEvaluatedStates false false c; _ ← endBlock; prepareBlock (height m + 1)) m = (m', Ok tt) ∧
    block_open m' ∧ height m' = height m + 1 ∧
    ∀ a k, word k → a ≠ Address_dead → slot m' a k = slot m a k.
Proof.
  intros Hm Hc. destruct (save_spec m c Hm Hc) as (m1 & st & rt & root & E & (Hp & Hb & Hh) & (Hu & Hd) & Hslots & _).
  unfold mbind, stx_bind. rewrite E. unfold endBlock, reset. rewrite Hp. eexists. split; [done|].
  split; [|split; [done|]].
  - split; cbn; try done; [..|intros d Hin%Hd; lia].
    + eexists. split; [done|]. split; [done|done|]. intros a. unfold map_of. cbn. rewrite m_get_empty. apply JsMap.wf_nil.
    + by eexists.
    + intros a k [x Hx]. unfold at_state, getValue in Hx. cbn in Hx. by rewrite m_get_empty in Hx.
    + intros a k v. unfold getPointerFromCache. cbn. by rewrite m_get_empty.
  - intros a k Hk Ha. rewrite <-Hslots by done. unfold slot, reads, at_state, getValue, in_docs.
    cbn -[getByContractAndPointer]. by rewrite m_get_empty.
Qed.

(** C3: Across blocks the storage is a memory: after the results of a block are
    applied in order, its state saved and the next block opened, none of which
    fails, a slot holds what the last result that was not reverted wrote in it,
    or else what it held before the block. *)
Theorem blocks_refine_memory m l c :
  block_open m → Forall acceptable l → (∀ x, c = Some x → length x = 32%nat) →
  ∃ m', (_ ← apply_results l; _ ← updateEvaluatedStates false false c; _ ← endBlock; prepareBlock (height m + 1)) m
          = (m', Ok tt) ∧
    block_open m' ∧ height m' = height m + 1 ∧
    ∀ a k, word k → a ≠ Address_dead → slot m' a k = foldl memory_after (slot m) l.*1.*1 a k.
Proof.
  intros Hm Hl Hc. destruct (apply_results_spec l m Hm Hl) as (m1 & E1 & H1 & Hh & Hs).
  destruct (next_block m1 c H1 Hc) as (m2 & E2 & H2 & Hh2 & Hs2). exists m2.
  unfold mbind at 1, stx_bind at 1. rewrite E1. rewrite <-Hh in *. split; [exact E2|]. split; [done|].
  split; [done|]. intros a k Hk Ha. by rewrite Hs2, Hs.
Qed.
End BlockStorage.

(** ** Two results in a block *)

#[local] Existing Instance string_btclib.
#[local] Existing Instance example_vmlib.
#[local] Existing Instance example_merkle.
#[local] Existing Instance example_merkle_laws.

Lemma example_open : block_open example_manager.
Proof.
  split; try done.
  - eexists. split; [done|]. refine (tree_open_apply ([("alice", [(1, 42)])] : list (Address * list (Z * Z))) MerkleTree.initial _).
    split; [done|done|].
    intros a. apply JsMap.wf_nil.
  - by eexists.
  - intros a k [x Hx]. unfold at_state in Hx. cbn [blockState example_manager] in Hx.
    unfold StateMerkleTree.updateValues in Hx.
    rewrite (getValue_updateValues _ state_unchanged_eq) in Hx.
    case_decide; [|done]. revert Hx. cbn. case_decide; [subst k; intros _; unfold word; lia|done].
  - apply NoDup_singleton.
  - intros d ->%list_elem_of_singleton. unfold lastSeenAt. cbn. lia.
Qed.

Definition example_changes : AddressMap PointerStorageMap := m_set m_empty ("bob" : Address) [(2, 9)].
Definition example_result (revert_ : option bytes) : EvaluatedResult :=
  mkResult (Some example_changes) m_empty (Some [1]) m_empty 20 0 revert_ [].
Definition example_results : list (option EvaluatedResult * Address * string) :=
  [(Some (example_result None), "bob", "tx1"); (Some (example_result (Some [8])), "bob", "tx2"); (None, "bob", "tx3")].

Lemma example_result_acceptable r txid : txid ≠ "" → acceptable (Some (example_result r), "bob", txid).
Proof.
  assert (∀ a : Address, m_get example_changes a = if decide (("bob" : Address) = a) then Some [(2, 9)] else None) as Hget
    by (intros a; unfold example_changes; by rewrite m_get_set, m_get_empty).
  split; [|split; [|done]].
  - intros r' [= <-] _. split; [by eexists|]. eexists. split; [done|]. intros a. rewrite Hget.
    case_decide; repeat constructor; set_solver.
  - intros a k. change (written _ a k) with (match r with Some _ => None | None => changed example_changes a k end).
    destruct r; [by intros [? ?]|]. unfold changed. rewrite Hget.
    case_decide; cbn; [|by intros [? ?]]. case_decide; [subst; intros _; unfold word; lia|by intros [? ?]].
Qed.

Lemma example_acceptable : Forall acceptable example_results.
Proof.
  unfold example_results. rewrite !Forall_cons.
  split; [by apply example_result_acceptable|]. split; [by apply example_result_acceptable|]. split; [|constructor].
  split; [done|]. split; [|done]. by intros a k [? ?].
Qed.

Lemma blocks_refine_memory_witness :
  ∃ m', (_ ← apply_results example_results; _ ← updateEvaluatedStates false false None; _ ← endBlock; prepareBlock 9)
          example_manager = (m', Ok tt) ∧
    block_open m' ∧ height m' = 9 ∧
    ∀ a k, word k → a ≠ "dead" → slot m' a k = foldl memory_after (slot example_manager) example_results.*1.*1 a k.
Proof. exact (blocks_refine_memory example_manager example_results None example_open example_acceptable ltac:(done)). Defined.
