(* ===== verification/BlockTransactions.v ===== *)
(** * The transactions of a block

    A transaction runs over the state of its block, within the gas its fee pays
    for; what it stored is committed to the block when it was not reverted. *)

From S2P Require Import Prelude ConsensusRules Consensus Gas Evaluation Evaluator EvaluatorFacts TransactionSafety BlockState PointerRepository VMManager VMManagerFacts BlockStorage.
Import ContractEvaluator VMManager.

Section BlockTransactions.
Context {LB : BtcLib} {LV : @VMLib LB} {LM : @MerkleLib LB LV} {LL : @MerkleLaws LB LV LM}.
Context (disable : bool) (TX : TransactionsConfig) (past_root : Z → result string string).
Context (skip : SKIP_PROOF_VALIDATION_FOR_EXECUTION_BEFORE_TRANSACTION TX = true).
Context (RATIO TX_MAX COLD : Z) (K : VMConstants)
  (instantiate : ContractInformation → entry → Address → Z → Z → Z → bytes → instance)
  (message_of : manager_error → string) (base : @VMHost LB LV) (contractAddressAt : string → option Address).
Context (new_cost : 0 ≤ NEW_STORAGE_SLOT_GAS_COST K) (update_cost : 0 ≤ UPDATED_STORAGE_SLOT_GAS_COST K)
  (events_limit : 0 ≤ MAXIMUM_TOTAL_EVENT_LENGTH TX).
Implicit Types (m : VMManager.t) (a : Address) (k : Z).

Abbreviation executeTransaction_ := (executeTransaction false disable TX past_root RATIO TX_MAX COLD K instantiate
  message_of base contractAddressAt).
Abbreviation deployContract_ := (deployContract false disable TX past_root RATIO TX_MAX COLD K instantiate
  message_of base).
Abbreviation host := (manager_host false disable TX past_root message_of base).

(** The tracker a transaction starts with. *)
Lemma getGasTracker_start maxGas special g :
  getGasTracker TX_MAX maxGas 0 special = Ok g → reached TX_MAX (GasTracker.construct TX_MAX maxGas special) g.
Proof.
  unfold getGasTracker. destruct (GasTracker.setGasUsed _ _ _ _ _ _) as [g' [[]|e]] eqn:E; [|done].
  intros [= <-]. eapply reached_step; [apply reached_start|exact E].
Qed.

Lemma evaluated_Ok r s v : evaluated r = Ok (s, v) → r = Some (s, Ok v).
Proof. unfold evaluated. by destruct r as [[s' [v'|e]]|]; intros [= <- <-]. Qed.

(** What is known when a transaction, or a deployment, has been evaluated. *)
Lemma executeTransaction_ended m blockHeight baseGas tx isSimulation s' v :
  block_open m → executeTransaction_ blockHeight baseGas tx isSimulation m = Ok (s', v) →
  ∃ contract limit maxGas g,
    contractAddressAt (tx_contractAddress tx) = Some contract ∧
    calculateMaxGas RATIO isSimulation (tx_gasSatFee tx) baseGas limit = Ok maxGas ∧
    limit = (match tx_specialSettings tx with Some c => transactionGasLimit c | None => TX_MAX end) ∧
    reached TX_MAX (GasTracker.construct TX_MAX maxGas (tx_specialSettings tx)) g ∧
    ∃ LH : VMHost, @ended LB LV LH TX TX_MAX (transaction_params contract tx) (new_shared m_empty g 0) s' v.
Proof.
  intros Hm. unfold executeTransaction. case_decide; [done|].
  destruct (contractAddressAt (tx_contractAddress tx)) as [contract|]; [|done]. case_decide; [done|].
  destruct (calculateMaxGas _ _ _ _ _) as [maxGas|] eqn:Eg; [|done]. cbn -[executeCallInternal run].
  destruct (getGasTracker TX_MAX maxGas 0 (tx_specialSettings tx)) as [g|] eqn:Et; [|done]. cbn -[executeCallInternal run].
  intros E. apply evaluated_Ok in E. exists contract, (match tx_specialSettings tx with Some c => transactionGasLimit c | None => TX_MAX end), maxGas, g. split; [done|]. split; [exact Eg|]. split; [done|].
  split; [by apply getGasTracker_start|]. exists (host m).
  pose proof (manager_host_laws disable TX past_root skip message_of base m Hm) as Hlaws.
  by apply (execute_ended TX TX_MAX) in E.
Qed.

Lemma deployContract_ended m blockHeight baseGas dt s' v :
  block_open m → deployContract_ blockHeight baseGas dt m = Ok (s', v) →
  ∃ s, ∃ LH : VMHost, @ended LB LV LH TX TX_MAX (deployment_params dt) s s' v.
Proof.
  intros Hm. unfold deployContract. case_decide; [done|]. destruct (negb _); [done|]. case_decide; [done|].
  destruct (calculateMaxGas _ _ _ _ _) as [maxGas|]; [|done]. cbn -[executeCallInternal run].
  destruct (getGasTracker TX_MAX maxGas 0 None) as [g|]; [|done]. cbn -[executeCallInternal run].
  intros E. apply evaluated_Ok in E. pose proof (manager_host_laws disable TX past_root skip message_of base m Hm) as Hlaws.
  eexists _, (host m). apply (run_ended TX TX_MAX) in E; [exact E|done..|].
  intros p s0 s1 r Hx. by apply execute_called.
Qed.

(** The nesting of a transaction is bounded by the consensus: the fuel is enough. *)
Lemma executeTransaction_ends m blockHeight baseGas tx isSimulation :
  block_open m → executeTransaction_ blockHeight baseGas tx isSimulation m ≠ Throw NestedTooDeep.
Proof.
  intros Hm. unfold executeTransaction. case_decide; [done|].
  destruct (contractAddressAt (tx_contractAddress tx)) as [contract|]; [|done]. case_decide; [done|].
  destruct (calculateMaxGas _ _ _ _ _) as [maxGas|]; [|done]. cbn -[executeCallInternal run].
  unfold getGasTracker. destruct (GasTracker.setGasUsed _ _ _ _ _ _) as [g [[]|e]]; [|done]. cbn -[executeCallInternal run].
  pose proof (manager_host_laws disable TX past_root skip message_of base m Hm) as Hlaws.
  destruct (execute_total (LL := Hlaws) TX TX_MAX COLD blockHeight K instantiate new_cost update_cost events_limit (call_fuel TX)
    (transaction_params contract tx) (new_shared m_empty g 0)) as [[s [v|e]] E].
  - unfold room, call_fuel, new_shared, AddressStack.length. cbn. lia.
  - by rewrite E.
  - by rewrite E.
Qed.

Lemma deployContract_ends m blockHeight baseGas dt :
  block_open m → deployContract_ blockHeight baseGas dt m ≠ Throw NestedTooDeep.
Proof.
  intros Hm. unfold deployContract. case_decide; [done|]. destruct (negb _); [done|]. case_decide; [done|].
  destruct (calculateMaxGas _ _ _ _ _) as [maxGas|]; [|done]. cbn -[executeCallInternal run].
  unfold getGasTracker. destruct (GasTracker.setGasUsed _ _ _ _ _ _) as [g [[]|e]]; [|done]. cbn -[executeCallInternal run].
  pose proof (manager_host_laws disable TX past_root skip message_of base m Hm) as Hlaws.
  match goal with |- evaluated ?r ≠ _ => assert (is_Some r) as [[s0 [v|e]] ->] end; [|done..].
  apply (run_total (LL := Hlaws)) with (fuel := call_fuel TX).
  - intros p s0 s1 r Hx. by apply execute_called.
  - intros p s0 _ Hr. by apply execute_total.
  - unfold room, call_fuel, new_shared, AddressStack.length. cbn. lia.
Qed.

(** ** Theorems *)

(** C33: A transaction to a contract without special settings never uses more gas
    than its fee pays for, when it is executed in a block, and not simulated,
    and the base gas is at least 10^8: the gas of its result is within the
    consensus' limit for a transaction, and at the price of the block it is
    worth at most the fee. *)
Theorem transaction_within_fee m blockHeight baseGas tx s' v :
  block_open m → 0 ≤ TX_MAX → 0 ≤ RATIO → 10 ^ 8 ≤ baseGas → 0 ≤ tx_gasSatFee tx → tx_specialSettings tx = None →
  executeTransaction_ blockHeight baseGas tx false m = Ok (s', v) →
  let used := res_gasUsed (ContractEvaluation.getEvaluationResult (s', v)) in
  0 ≤ used ≤ TX_MAX ∧ used * baseGas ≤ tx_gasSatFee tx * RATIO * 10 ^ 8.
Proof.
  intros Hm HT HR Hb Hf Hs E. apply executeTransaction_ended in E as (contract & limit & maxGas & g & _ & Hg & -> & Hr & LH & He);
    [|done]. rewrite Hs in *.
  destruct (calculateMaxGas_sound TX_MAX RATIO false (tx_gasSatFee tx) baseGas baseGas) as (x & y & Ex & _ & Hxy & Hle & Hfee);
    [lia|done|done|done|]. rewrite Ex in Hg. injection Hg as ->.
  pose proof (ordinary_reached TX_MAX _ _ _ (ordinary_construct TX_MAX maxGas ltac:(lia) HT) Hr) as Ho.
  apply (ended_gas _ _ _ _ _ _ He _ Hs) in Ho as (_ & _ & _ & _ & Hu). cbn. unfold ContractEvaluation.gasUsed.
  specialize (Hfee eq_refl). split; [lia|]. etransitivity; [|exact Hfee]. apply Z.mul_le_mono_nonneg_r; lia.
Qed.

(** C23: A transaction of a block is atomic and durable: its result is accepted by the
    block, the slots it stored have their values for the next transactions
    unless it was reverted, in which case no slot changes, and the block keeps
    its receipt. *)
Theorem transaction_commits m blockHeight baseGas tx isSimulation s' v contract txid :
  block_open m → executeTransaction_ blockHeight baseGas tx isSimulation m = Ok (s', v) →
  (∀ a k, is_Some (stored s' a k) → word k) → txid ≠ "" →
  let r := ContractEvaluation.getEvaluationResult (s', v) in
  ∃ m', updateBlockValuesFromResult false (Some r) contract txid true m = (m', Ok tt) ∧ block_open m' ∧
    (∀ a k, slot m' a k = match res_revert r, stored s' a k with
                          | None, Some x => Some (valueToUint8Array x)
                          | _, _ => slot m a k
                          end) ∧
    receipt m' contract txid = Some (match res_revert r with None => default [0] (res_result r) | Some _ => [0] end).
Proof.
  intros Hm E Hw Ht. apply executeTransaction_ended in E as (c0 & l0 & g0 & g & _ & _ & _ & _ & LH & He); [|done].
  intros r. assert (∀ a k, written (Some r) a k = match res_revert r with None => stored s' a k | Some _ => None end) as Hwr.
  { intros a k. unfold written. destruct (res_revert r) eqn:Er; [done|].
    destruct (ended_reports _ _ _ _ _ _ He Er) as (c & data & Hc & _ & Heq). unfold r. cbn.
    replace (ContractEvaluation.is_reverted v) with false by (unfold ContractEvaluation.is_reverted; cbn in Er; by rewrite Er).
    by rewrite Hc, <-Heq. }
  destruct (update_spec m (Some r) contract txid Hm) as (m' & Hup & Hm' & _ & Hslots & Hreceipt); [|..|done|].
  - by eapply ended_result_ok.
  - intros a k. rewrite Hwr. destruct (res_revert r); [by intros [? ?]|apply Hw].
  - exists m'. split; [done|]. split; [done|]. split.
    + intros a k. rewrite Hslots, Hwr. by destruct (res_revert r); [|destruct (stored s' a k)].
    + rewrite Hreceipt, decide_True by done. done.
Qed.
End BlockTransactions.

(** ** A transaction of alice in the block of the examples *)

#[local] Existing Instance string_btclib.
#[local] Existing Instance example_vmlib.
#[local] Existing Instance example_merkle.
#[local] Existing Instance example_merkle_laws.

Definition example_tx : InteractionTransaction := mkInteraction "alice" 10000 "sender" [] None None.

Abbreviation example_transaction := (executeTransaction false true Roswell_TRANSACTIONS (fun _ => Throw "no header")
  1000000 150000000000 21000 example_constants example_contract (fun _ => "error") example_host (fun a => Some a)
  8 (10 ^ 8) example_tx false example_manager).

Definition example_storage : AddressMap PointerStorage :=
  m_set (m_set m_empty ("alice" : Address) (m_set m_empty 1 43)) ("bob" : Address) (m_set m_empty 2 9).

(** The storage of the transaction, and whether it went well. *)
Definition example_committed : option (AddressMap PointerStorage * bool) :=
  match example_transaction with
  | Ok (s', v) => Some (storage s', negb (ContractEvaluation.is_reverted v))
  | Throw _ => None
  end.

Example example_commits : example_committed = Some (example_storage, true).
Proof. vm_compute. reflexivity. Qed.

Lemma example_committed_spec x :
  example_committed = Some (x, true) → ∃ s' v, example_transaction = Ok (s', v) ∧ storage s' = x ∧ revert v = None.
Proof.
  unfold example_committed. destruct example_transaction as [[s' v]|]; [|done]. intros [= <- Hr].
  exists s', v. split; [done|]. split; [done|]. unfold ContractEvaluation.is_reverted in Hr. by destruct (revert v).
Qed.

Lemma transaction_within_fee_witness :
  ∃ s' v, example_transaction = Ok (s', v) ∧
    let used := res_gasUsed (ContractEvaluation.getEvaluationResult (s', v)) in
    0 ≤ used ≤ 150000000000 ∧ used * 10 ^ 8 ≤ tx_gasSatFee example_tx * 1000000 * 10 ^ 8.
Proof.
  destruct (example_committed_spec _ example_commits) as (s' & v & E & _). exists s', v. split; [exact E|].
  pose proof (transaction_within_fee true Roswell_TRANSACTIONS (fun _ => Throw "no header") eq_refl
    1000000 150000000000 21000 example_constants example_contract (fun _ => "error") example_host (fun a => Some a)) as H.
  specialize (H ltac:(vm_compute; discriminate) ltac:(vm_compute; discriminate) ltac:(vm_compute; discriminate)).
  specialize (H example_manager 8 (10 ^ 8) example_tx s' v example_open).
  apply H; [vm_compute; discriminate..|reflexivity|exact E].
Defined.

Lemma transaction_commits_witness :
  ∃ s' v, example_transaction = Ok (s', v) ∧
    let r := ContractEvaluation.getEvaluationResult (s', v) in
    ∃ m', updateBlockValuesFromResult false (Some r) "alice" "tx" true example_manager = (m', Ok tt) ∧
      block_open m' ∧
      (∀ a k, slot m' a k = match res_revert r, stored s' a k with
                            | None, Some x => Some (valueToUint8Array x)
                            | _, _ => slot example_manager a k
                            end) ∧
      receipt m' "alice" "tx" = Some (match res_revert r with None => default [0] (res_result r) | Some _ => [0] end).
Proof.
  destruct (example_committed_spec _ example_commits) as (s' & v & E & Hst & _). exists s', v. split; [exact E|].
  pose proof (transaction_commits true Roswell_TRANSACTIONS (fun _ => Throw "no header") eq_refl
    1000000 150000000000 21000 example_constants example_contract (fun _ => "error") example_host (fun a => Some a)) as H.
  specialize (H ltac:(vm_compute; discriminate) ltac:(vm_compute; discriminate) ltac:(vm_compute; discriminate)).
  specialize (H example_manager 8 (10 ^ 8) example_tx false s' v "alice" "tx" example_open E).
  apply H; [|done].
  intros a k. unfold stored, ContractEvaluation.getPointers. rewrite Hst. unfold example_storage.
  rewrite !m_get_set, m_get_empty.
  repeat case_decide; cbn [default from_option id]; rewrite ?m_get_set, ?m_get_empty; try (intros [? [=]]; fail);
    case_decide; try (intros [? [=]]; fail); subst k; intros _; unfold word; lia.
Defined.
