(* ===== verification/MLDSA.v ===== *)
(** * The links of ML-DSA keys
    (vm/VMManager.ts, db/repositories/MLDSAPublicKeysRepository.ts,
    processor/transaction/transactions/SharedInteractionParameters.ts)

    A user has a Bitcoin key, the legacy key, and an ML-DSA key known by its hash.
    A transaction links the two, and may expose the ML-DSA key itself; the links of
    a block are pending until it is saved.  From then on the user is the hash.

    Signatures, SHA-256 and the taproot tweak are parameters, with no law: the
    theorems do not depend on them. *)

From S2P Require Import Prelude ConsensusRules Consensus Gas Evaluation.

Inductive mldsa_error : Type :=
| InvalidKeyLengths
| HeightMismatch
| PublicKeyRequired
| HashedAlreadyPending
| LegacyAlreadyPending
| Reassignment
| Conflicting
| LevelMismatch
| InsertedHeightRequired
| InvalidLegacyLength
| DuplicateKey
| InvalidLegacySignature
| PublicKeyNotProvided
| SignatureNotProvided
| WrongHash
| InvalidTweakedLength
| InvalidOriginalLength
| InvalidSignature
| NoLinkedKey.

Record IMLDSAPublicKey : Type := mkKey {
  level : Z;
  hashedPublicKey : bytes;
  legacyPublicKey : bytes;
  tweakedPublicKey : bytes;
  publicKey : option bytes;
  insertedBlockHeight : option Z;
  exposedBlockHeight : option Z
}.

Record MLDSAUpdateData : Type := mkUpdateData { exposePublicKey : bool; data : IMLDSAPublicKey }.

(** ** The repository

    The place of a document in the collection is its [_id]; [findOne] answers the
    first document that matches. *)

Module MLDSAPublicKeyRepository.

Abbreviation docs := (list IMLDSAPublicKey).

Definition findOne (P : IMLDSAPublicKey → Prop) `{∀ k, Decision (P k)} (ds : docs) : option (nat * IMLDSAPublicKey) :=
  list_find P ds.

Record MLDSAPublicKeyExists : Type := mkExists {
  hashedExists : bool;
  legacyExists : bool;
  sameId : bool;
  existing_level : option Z;
  publicKeyExists : option bool
}.

Definition exists_ (hashed legacy : bytes) (ds : docs) : result mldsa_error MLDSAPublicKeyExists :=
  if decide (length hashed ≠ 32 ∨ length legacy ≠ 33)%nat then Throw InvalidKeyLengths
  else
    let hashedResult := findOne (fun k => hashedPublicKey k = hashed) ds in
    let legacyResult := findOne (fun k => legacyPublicKey k = legacy) ds in
    let same := match hashedResult, legacyResult with
                | Some (i, _), Some (j, _) => bool_decide (i = j)
                | _, _ => false
                end in
    Ok (mkExists (bool_decide (is_Some hashedResult)) (bool_decide (is_Some legacyResult)) same
          (match hashedResult with Some (_, k) => if same then Some (level k) else None | None => None end)
          (match hashedResult with
           | Some (_, k) => if same then Some (bool_decide (is_Some (exposedBlockHeight k))) else None
           | None => None
           end)).

Definition inserted_by (height : Z) (k : IMLDSAPublicKey) : Prop :=
  match insertedBlockHeight k with Some h => h ≤ height | None => False end.

#[global] Instance inserted_by_dec height k : Decision (inserted_by height k).
Proof. unfold inserted_by. destruct (insertedBlockHeight k); apply _. Defined.

Definition getByHashedPublicKey (hashed : bytes) (height : Z) (ds : docs) : option IMLDSAPublicKey :=
  snd <$> findOne (fun k => hashedPublicKey k = hashed ∧ inserted_by height k) ds.

Definition getByLegacyPublicKey (legacy : bytes) (height : Z) (ds : docs) : option IMLDSAPublicKey :=
  snd <$> findOne (fun k => legacyPublicKey k = legacy ∧ inserted_by height k) ds.

Definition getByHashedOrLegacy (key : bytes) (height : Z) (ds : docs) : option IMLDSAPublicKey :=
  snd <$> findOne (fun k => inserted_by height k ∧
                     (hashedPublicKey k = key ∨ legacyPublicKey k = key ∨ tweakedPublicKey k = key)) ds.

(** [insertOne], on a collection whose hashed and legacy keys are unique. *)
Definition insertOne (k : IMLDSAPublicKey) (ds : docs) : result mldsa_error docs :=
  if decide (Exists (fun d => hashedPublicKey d = hashedPublicKey k ∨ legacyPublicKey d = legacyPublicKey k) ds)
  then Throw DuplicateKey
  else Ok (ds ++ [k]).

Definition matches (k d : IMLDSAPublicKey) : Prop :=
  hashedPublicKey d = hashedPublicKey k ∧ legacyPublicKey d = legacyPublicKey k ∧
  tweakedPublicKey d = tweakedPublicKey k.

#[global] Instance matches_dec k d : Decision (matches k d).
Proof. unfold matches. apply _. Defined.

Definition expose (k d : IMLDSAPublicKey) : IMLDSAPublicKey :=
  mkKey (level d) (hashedPublicKey d) (legacyPublicKey d) (tweakedPublicKey d) (publicKey k)
    (insertedBlockHeight d) (exposedBlockHeight k).

(** [updateOne] with [upsert]: a new document has all the fields. *)
Definition updateOne (k : IMLDSAPublicKey) (ds : docs) : result mldsa_error docs :=
  match findOne (matches k) ds with
  | Some (i, d) => Ok (<[i:=expose k d]> ds)
  | None => insertOne k ds
  end.

(** The operations are all built before the first is sent. *)
Definition operation_ok (u : MLDSAUpdateData) : result mldsa_error unit :=
  match insertedBlockHeight (data u) with
  | None => Throw InsertedHeightRequired
  | Some _ =>
      if exposePublicKey u && negb (bool_decide (length (legacyPublicKey (data u)) = 33%nat))
      then Throw InvalidLegacyLength else Ok tt
  end.

Definition operation (u : MLDSAUpdateData) (ds : docs) : result mldsa_error docs :=
  if exposePublicKey u then updateOne (data u) ds else insertOne (data u) ds.

Fixpoint all_ok (l : list MLDSAUpdateData) : result mldsa_error unit :=
  match l with [] => Ok tt | u :: l' => _ ← operation_ok u; all_ok l' end.

(** An ordered bulk write stops at the first error. *)
Fixpoint bulkWrite (l : list MLDSAUpdateData) (ds : docs) : docs * result mldsa_error unit :=
  match l with
  | [] => (ds, Ok tt)
  | u :: l' => match operation u ds with Ok ds' => bulkWrite l' ds' | Throw e => (ds, Throw e) end
  end.

Definition savePublicKeys (l : list MLDSAUpdateData) (ds : docs) : docs * result mldsa_error unit :=
  match all_ok l with Ok _ => bulkWrite l ds | Throw e => (ds, Throw e) end.
End MLDSAPublicKeyRepository.

Import MLDSAPublicKeyRepository.

(** ** The links of a block (VMManager) *)

Module MLDSALinks.
Section MLDSALinks.
Context `{MapLib bytes}.
(** The taproot output key of a legacy key ([tweakedPublicKeyToBuffer]). *)
Context (tweak : bytes → bytes).

(** Addresses are compared by their 32 bytes: [new Address(hashed, legacy)] is
    [hashed]. *)
Record t : Type := mk {
  mldsaToStore : MapOf (K := bytes) MLDSAUpdateData;
  mldsaToStoreLegacy : MapOf (K := bytes) bytes;
  mldsaToStoreByHash : MapOf (K := bytes) bytes;
  mldsaCache : MapOf (K := bytes) (option IMLDSAPublicKey);
  mldsaCacheFromLegacy : MapOf (K := bytes) (option IMLDSAPublicKey);
  collection : docs
}.

Definition op : Type → Type := stx t mldsa_error.

Definition initial (ds : docs) : t := mk m_empty m_empty m_empty m_empty m_empty ds.

Definition set_caches (c l : MapOf (K := bytes) (option IMLDSAPublicKey)) (s : t) : t :=
  mk (mldsaToStore s) (mldsaToStoreLegacy s) (mldsaToStoreByHash s) c l (collection s).

(** The three writes of an accepted request. *)
Definition store (expose : bool) (k : IMLDSAPublicKey) (s : t) : t :=
  let address := hashedPublicKey k in
  mk (m_set (mldsaToStore s) address (mkUpdateData expose k))
     (m_set (mldsaToStoreLegacy s) (tweak (legacyPublicKey k)) address)
     (m_set (mldsaToStoreByHash s) address (legacyPublicKey k))
     (mldsaCache s) (mldsaCacheFromLegacy s) (collection s).

Definition clear (s : t) : t := initial (collection s).

Definition getMLDSAPublicKey (height : Z) (address : bytes) (s : t) : t * option IMLDSAPublicKey :=
  match m_get (mldsaToStore s) address with
  | Some u => (s, Some (data u))
  | None =>
      match m_get (mldsaCache s) address with
      | Some cached => (s, cached)
      | None => let r := getByHashedPublicKey address height (collection s) in
                (set_caches (m_set (mldsaCache s) address r) (mldsaCacheFromLegacy s) s, r)
      end
  end.

Definition getMLDSAPublicKeyFromLegacyKey (height : Z) (tweakedPublicKey : bytes) (s : t) : t * option IMLDSAPublicKey :=
  match m_get (mldsaToStoreLegacy s) tweakedPublicKey with
  | Some address => (s, data <$> m_get (mldsaToStore s) address)
  | None =>
      match m_get (mldsaCacheFromLegacy s) tweakedPublicKey with
      | Some cached => (s, cached)
      | None => let r := getByHashedOrLegacy tweakedPublicKey height (collection s) in
                (set_caches (mldsaCache s) (m_set (mldsaCacheFromLegacy s) tweakedPublicKey r) s, r)
      end
  end.

(** [Some] when the request may be stored, [None] for a duplicate. *)
Definition validateMLDSALinkRequest (k : IMLDSAPublicKey) (s : t) : result mldsa_error (option unit) :=
  match m_get (mldsaToStore s) (hashedPublicKey k) with
  | Some existingEntry =>
      if decide (legacyPublicKey (data existingEntry) = legacyPublicKey k) then Ok None else Throw HashedAlreadyPending
  | None =>
      match m_get (mldsaToStoreLegacy s) (tweak (legacyPublicKey k)) with
      | Some _ => Throw LegacyAlreadyPending
      | None =>
          match m_get (mldsaToStoreByHash s) (hashedPublicKey k) with
          | Some existingLegacyKey =>
              if decide (existingLegacyKey = legacyPublicKey k) then Ok (Some tt) else Throw HashedAlreadyPending
          | None => Ok (Some tt)
          end
      end
  end.

(** Whether the key is there already; for a key to expose, exposed already. *)
Definition shouldInsertMLDSAKey (hashed legacy : bytes) (lvl : Z) (isExpose : bool) (ds : docs)
  : result mldsa_error bool :=
  e ← exists_ hashed legacy ds;
  if negb (Bool.eqb (hashedExists e) (legacyExists e)) then Throw Reassignment
  else if hashedExists e && legacyExists e && negb (sameId e) then Throw Conflicting
  else
    let exist := hashedExists e || legacyExists e in
    if exist && negb (bool_decide (existing_level e = Some lvl)) then Throw LevelMismatch
    else if isExpose && negb (match publicKeyExists e with Some b => b | None => false end) then Ok false
    else Ok exist.

(** What both kinds of requests do after their own checks. *)
Definition request (expose : bool) (k : IMLDSAPublicKey) : op unit := fun s =>
  match validateMLDSALinkRequest k s with
  | Throw e => (s, Throw e)
  | Ok None => (s, Ok tt)
  | Ok (Some _) =>
      match shouldInsertMLDSAKey (hashedPublicKey k) (legacyPublicKey k) (level k) expose (collection s) with
      | Throw e => (s, Throw e)
      | Ok true => (s, Ok tt)
      | Ok false => (store expose k s, Ok tt)
      end
  end.

Definition addMLDSAInfoToStore (height : Z) (k : IMLDSAPublicKey) : op unit := fun s =>
  if decide (insertedBlockHeight k ≠ Some height) then (s, Throw HeightMismatch) else request false k s.

Definition exposeMLDSAPublicKey (k : IMLDSAPublicKey) : op unit := fun s =>
  match publicKey k with None => (s, Throw PublicKeyRequired) | Some _ => request true k s end.

(** [saveBlockStateChanges], for the keys. *)
Definition saveKeys : op unit := fun s =>
  match m_entries (mldsaToStore s) with
  | [] => (s, Ok tt)
  | l => let '(ds, r) := savePublicKeys l.*2 (collection s) in
         (mk (mldsaToStore s) (mldsaToStoreLegacy s) (mldsaToStoreByHash s) (mldsaCache s)
            (mldsaCacheFromLegacy s) ds, r)
  end.

(** ** The requests of transactions (SharedInteractionParameters) *)

Record MLDSARequestData : Type := mkRequest {
  verifyRequest : bool;
  request_publicKey : option bytes;
  request_hashedPublicKey : bytes;
  request_level : Z;
  mldsaSignature : option bytes;
  legacySignature : bytes
}.

Section Transactions.
Context (sha256 : bytes → bytes) (verifySignature : bytes → bytes → bytes → bool)
  (verifyMLDSASignature : Z → bytes → bytes → bytes → bool) (PROTOCOL_ID chainId : bytes).

Definition link_message (r : MLDSARequestData) (tweakedKey originalKey : bytes) : bytes :=
  [request_level r] ++ request_hashedPublicKey r ++ tweakedKey ++ originalKey ++ PROTOCOL_ID ++ chainId.

Definition expose_message (r : MLDSARequestData) (key tweakedKey originalKey : bytes) : bytes :=
  [request_level r] ++ request_hashedPublicKey r ++ key ++ tweakedKey ++ originalKey ++ PROTOCOL_ID ++ chainId.

Definition verify_and_expose (height : Z) (r : MLDSARequestData) (originalKey tweakedKey : bytes) : op unit := fun s =>
  match request_publicKey r, mldsaSignature r with
  | None, _ => (s, Throw PublicKeyNotProvided)
  | _, None => (s, Throw SignatureNotProvided)
  | Some key, Some signature =>
      if decide (sha256 key ≠ request_hashedPublicKey r) then (s, Throw WrongHash)
      else if decide (length tweakedKey ≠ 32%nat) then (s, Throw InvalidTweakedLength)
      else if decide (length originalKey ≠ 33%nat) then (s, Throw InvalidOriginalLength)
      else if verifyMLDSASignature (request_level r) key (expose_message r key tweakedKey originalKey) signature
      then exposeMLDSAPublicKey (mkKey (request_level r) (request_hashedPublicKey r) originalKey tweakedKey
                                   (Some key) (Some height) (Some height)) s
      else (s, Throw InvalidSignature)
  end.

(** [regenerateProvenance]: the hash linked to the legacy address of the sender. *)
Definition regenerateProvenance (height : Z) (tweakedKey : bytes) : op bytes := fun s =>
  let '(s, keyData) := getMLDSAPublicKeyFromLegacyKey height tweakedKey s in
  match keyData with
  | None => (s, Throw NoLinkedKey)
  | Some k => (s, Ok (hashedPublicKey k))
  end.

(** [assignMLDSAToLegacy]: the address the transaction is from.  The tweaked key
    of the sender is that of its original key. *)
Definition assignMLDSAToLegacy (height : Z) (originalKey : bytes) (r : option MLDSARequestData) : op bytes := fun s =>
  let tweakedKey := tweak originalKey in
  match r with
  | None => regenerateProvenance height tweakedKey s
  | Some r =>
      if verifySignature tweakedKey (link_message r tweakedKey originalKey) (legacySignature r)
      then (_ ← (if verifyRequest r then verify_and_expose height r originalKey tweakedKey
                 else addMLDSAInfoToStore height
                        (mkKey (request_level r) (request_hashedPublicKey r) originalKey tweakedKey None (Some height) None));
            mret (request_hashedPublicKey r)) s
      else (s, Throw InvalidLegacySignature)
  end.
End Transactions.
End MLDSALinks.
End MLDSALinks.
