(* ===== verification/MLDSAFacts.v ===== *)
(** * The links of ML-DSA keys are permanent

    Whatever the transactions of a block request, what is pending can be saved, and
    the collection keeps one hash for a legacy key and one legacy key for a hash. *)

From S2P Require Import Prelude ConsensusRules Consensus Gas Evaluation MLDSA.
Import MLDSAPublicKeyRepository MLDSALinks.

Definition link (k : IMLDSAPublicKey) : bytes * bytes := (hashedPublicKey k, legacyPublicKey k).

Definition linked (ds : docs) (hashed legacy : bytes) : Prop := (hashed, legacy) ∈ link <$> ds.

(** A hash has one legacy key and a legacy key one hash. *)
Definition docs_ok (ds : docs) : Prop :=
  NoDup (hashedPublicKey <$> ds) ∧ NoDup (legacyPublicKey <$> ds).

Lemma linked_spec ds hashed legacy :
  linked ds hashed legacy ↔ ∃ d, d ∈ ds ∧ hashedPublicKey d = hashed ∧ legacyPublicKey d = legacy.
Proof.
  unfold linked, link. rewrite list_elem_of_fmap. split.
  - intros (d & [= -> ->] & Hd). by exists d.
  - intros (d & Hd & <- & <-). by exists d.
Qed.

Lemma docs_ok_eq ds d d' :
  docs_ok ds → d ∈ ds → d' ∈ ds →
  (hashedPublicKey d = hashedPublicKey d' ∨ legacyPublicKey d = legacyPublicKey d') → d = d'.
Proof.
  intros [Hh Hl] (i & Hi)%list_elem_of_lookup (j & Hj)%list_elem_of_lookup [E|E]; assert (i = j) as ->; try congruence.
  - eapply (NoDup_lookup _ _ _ (hashedPublicKey d) Hh); rewrite list_lookup_fmap; [by rewrite Hi|by rewrite Hj, E].
  - eapply (NoDup_lookup _ _ _ (legacyPublicKey d) Hl); rewrite list_lookup_fmap; [by rewrite Hi|by rewrite Hj, E].
Qed.

Lemma findOne_some (P : IMLDSAPublicKey → Prop) `{∀ k, Decision (P k)} ds i d :
  findOne P ds = Some (i, d) → ds !! i = Some d ∧ P d ∧ d ∈ ds.
Proof. intros Hf. apply list_find_Some in Hf as (Hi & HP & _). split; [done|]. split; [done|]. by eapply list_elem_of_lookup_2. Qed.

Lemma findOne_none (P : IMLDSAPublicKey → Prop) `{∀ k, Decision (P k)} ds d : findOne P ds = None → d ∈ ds → ¬ P d.
Proof. intros Hf Hd. apply list_find_None in Hf. rewrite Forall_forall in Hf. by apply Hf. Qed.

(** *** Saving *)

(** An update that the collection can take: a new link, or the exposure of one. *)
Definition admissible (u : MLDSAUpdateData) (ds : docs) : Prop :=
  (∀ d, d ∈ ds → hashedPublicKey d ≠ hashedPublicKey (data u) ∧ legacyPublicKey d ≠ legacyPublicKey (data u)) ∨
  (exposePublicKey u = true ∧ ∃ d, d ∈ ds ∧ matches (data u) d ∧ level d = level (data u)).

Lemma insertOne_spec k ds :
  docs_ok ds → (∀ d, d ∈ ds → hashedPublicKey d ≠ hashedPublicKey k ∧ legacyPublicKey d ≠ legacyPublicKey k) →
  insertOne k ds = Ok (ds ++ [k]) ∧ docs_ok (ds ++ [k]).
Proof.
  intros [Hh Hl] Hk. unfold insertOne. rewrite decide_False.
  - split; [done|]. unfold docs_ok. rewrite !fmap_app. split; apply NoDup_app; (split; [done|]);
      (split; [|apply NoDup_singleton]); intros x Hx ->%list_elem_of_singleton;
      apply list_elem_of_fmap in Hx as (d & E & Hd); by destruct (Hk d Hd).
  - intros (d & Hd & [E|E])%Exists_exists; by destruct (Hk d Hd).
Qed.

Lemma expose_fields k d :
  link (expose k d) = link d ∧ hashedPublicKey (expose k d) = hashedPublicKey d ∧
  legacyPublicKey (expose k d) = legacyPublicKey d ∧ tweakedPublicKey (expose k d) = tweakedPublicKey d ∧
  level (expose k d) = level d.
Proof. done. Qed.

(** The collection [ds'] is [ds] with the update, whose link is [link (data u)]. *)
Record absorbed (u : MLDSAUpdateData) (ds ds' : docs) : Prop := {
  ab_ok : docs_ok ds';
  ab_keeps d : d ∈ ds → ∃ d', d' ∈ ds' ∧ link d' = link d ∧ level d' = level d;
  ab_from d' : d' ∈ ds' → (link d', tweakedPublicKey d') = (link (data u), tweakedPublicKey (data u)) ∨
    ∃ d, d ∈ ds ∧ (link d', tweakedPublicKey d') = (link d, tweakedPublicKey d);
  ab_has : ∃ d', d' ∈ ds' ∧ link d' = link (data u) ∧ publicKey d' = publicKey (data u);
  ab_other u' : admissible u' ds → hashedPublicKey (data u') ≠ hashedPublicKey (data u) →
    legacyPublicKey (data u') ≠ legacyPublicKey (data u) → admissible u' ds'
}.

Lemma insert_absorbed u ds :
  docs_ok ds →
  (∀ d, d ∈ ds → hashedPublicKey d ≠ hashedPublicKey (data u) ∧ legacyPublicKey d ≠ legacyPublicKey (data u)) →
  ∃ ds', insertOne (data u) ds = Ok ds' ∧ absorbed u ds ds'.
Proof.
  intros Hds Hnew. destruct (insertOne_spec (data u) ds Hds Hnew) as [-> Hok]. eexists. split; [done|]. split; [done|..].
  - intros d Hd. exists d. rewrite elem_of_app. auto.
  - intros d' [Hd| ->%list_elem_of_singleton]%elem_of_app; [right; by exists d'|by left].
  - exists (data u). rewrite elem_of_app, list_elem_of_singleton. auto.
  - intros u' [Hn|(He & d & Hd & Hm)] H1 H2; [left|right].
    + intros d [Hd| ->%list_elem_of_singleton]%elem_of_app; [by apply Hn|done].
    + split; [done|]. exists d. rewrite elem_of_app. auto.
Qed.

Lemma insert_expose_fmap {B} (f : IMLDSAPublicKey → B) k d (ds : docs) i :
  ds !! i = Some d → f (expose k d) = f d → f <$> <[i:=expose k d]> ds = f <$> ds.
Proof. intros Hi Hf. rewrite list_fmap_insert, Hf. apply list_insert_id. by rewrite list_lookup_fmap, Hi. Qed.

Lemma insert_expose_keeps k d (ds : docs) i x :
  ds !! i = Some d → x ∈ ds →
  ∃ x', x' ∈ <[i:=expose k d]> ds ∧ link x' = link x ∧ level x' = level x ∧ tweakedPublicKey x' = tweakedPublicKey x.
Proof.
  intros Hi (j & Hj)%list_elem_of_lookup. pose proof (lookup_lt_Some _ _ _ Hi). destruct (decide (i = j)) as [<-|Hne].
  - exists (expose k d). assert (x = d) as -> by congruence. split; [|done].
    eapply list_elem_of_lookup_2. by apply list_lookup_insert_eq.
  - exists x. split; [|done]. eapply list_elem_of_lookup_2. by rewrite list_lookup_insert_ne by done.
Qed.

Lemma expose_absorbed u (ds : docs) i d :
  docs_ok ds → ds !! i = Some d → matches (data u) d → absorbed u ds (<[i:=expose (data u) d]> ds).
Proof.
  intros [Hh Hl] Hi (Eh & El & Et). pose proof (lookup_lt_Some _ _ _ Hi) as Hlt.
  assert (∀ x', x' ∈ <[i:=expose (data u) d]> ds → x' = expose (data u) d ∨ x' ∈ ds) as Hfrom.
  { intros x' (j & Hj)%list_elem_of_lookup. apply list_lookup_insert_Some in Hj as [(<- & <- & _)|(_ & Hj)]; [by left|].
    right. by eapply list_elem_of_lookup_2. }
  split.
  - split; by rewrite (insert_expose_fmap _ _ d).
  - intros x Hx. destruct (insert_expose_keeps (data u) d ds i x Hi Hx) as (x' & ? & ? & ? & _). by exists x'.
  - intros x' [->|Hx]%Hfrom; [left; unfold link; cbn; by rewrite Eh, El, Et|right; by exists x'].
  - exists (expose (data u) d). split; [|unfold link; cbn; by rewrite Eh, El].
    eapply list_elem_of_lookup_2. by apply list_lookup_insert_eq.
  - intros u' [Hn|(He' & d' & Hd' & (M1 & M2 & M3) & Hl')] H1 H2; [left|right].
    + intros x' [->|Hx]%Hfrom; [cbn; rewrite Eh, El; by split|by apply Hn].
    + split; [done|]. destruct (insert_expose_keeps (data u) d ds i d' Hi Hd') as (x' & Hx' & [= E1 E2] & E3 & E4).
      exists x'. split; [done|]. unfold matches. rewrite E1, E2, E3, E4. by split.
Qed.

Lemma operation_spec u ds : docs_ok ds → admissible u ds → ∃ ds', operation u ds = Ok ds' ∧ absorbed u ds ds'.
Proof.
  intros Hds Hu. unfold operation, updateOne. destruct Hu as [Hnew|(He & d0 & Hd0 & Hm0 & _)].
  - destruct (exposePublicKey u); [|by apply insert_absorbed].
    destruct (findOne (matches (data u)) ds) as [[i d]|] eqn:E; [|by apply insert_absorbed].
    apply findOne_some in E as (_ & (Eh & _ & _) & Hd). by destruct (Hnew d Hd).
  - rewrite He. destruct (findOne (matches (data u)) ds) as [[i d]|] eqn:E.
    + apply findOne_some in E as (Hi & Hm & Hd). eexists. split; [done|]. by apply expose_absorbed.
    + exfalso. by apply (findOne_none _ _ _ E Hd0).
Qed.

(** Updates of different keys, each of which can be taken, are all taken. *)
Lemma bulkWrite_spec l ds :
  docs_ok ds → NoDup (hashedPublicKey ∘ data <$> l) → NoDup (legacyPublicKey ∘ data <$> l) →
  (∀ u, u ∈ l → admissible u ds) →
  ∃ ds', bulkWrite l ds = (ds', Ok tt) ∧ docs_ok ds' ∧
    (∀ d, d ∈ ds → ∃ d', d' ∈ ds' ∧ link d' = link d ∧ level d' = level d) ∧
    (∀ h g, linked ds' h g ↔ linked ds h g ∨ ∃ u, u ∈ l ∧ link (data u) = (h, g)) ∧
    ∀ d', d' ∈ ds' → (∃ d, d ∈ ds ∧ (link d', tweakedPublicKey d') = (link d, tweakedPublicKey d)) ∨
      ∃ u, u ∈ l ∧ (link d', tweakedPublicKey d') = (link (data u), tweakedPublicKey (data u)).
Proof.
  revert ds. induction l as [|u l IH]; intros ds Hds; cbn [bulkWrite].
  - intros _ _ _. exists ds. split; [done|]. split; [done|]. split; [by intros d Hd; exists d|].
    split; [|intros d Hd; left; by exists d].
    intros h g. split; [by left|]. intros [?|(u & ?%elem_of_nil & _)]; done.
  - intros [Hh Hhs]%NoDup_cons [Hl Hls]%NoDup_cons Hadm.
    destruct (operation_spec u ds Hds (Hadm u ltac:(left))) as (ds1 & -> & [A1 A2 A3 A4 A5]).
    destruct (IH ds1 A1 Hhs Hls) as (ds2 & -> & B1 & B2 & B3 & B4).
    { intros u' Hu'. apply A5; [apply Hadm; by right|..]; intros E.
      - apply Hh, list_elem_of_fmap. exists u'. by split; [symmetry; exact E|].
      - apply Hl, list_elem_of_fmap. exists u'. by split; [symmetry; exact E|]. }
    exists ds2. split; [done|]. split; [done|]. split.
    + intros d (d1 & H1 & E1 & L1)%A2. destruct (B2 d1 H1) as (d2 & H2 & E2 & L2). exists d2.
      split; [done|]. by rewrite E2, L2.
    + split; [|intros d2 [(d1 & H1 & E1)|(u' & Hu' & E)]%B4;
        [rewrite E1; destruct (A3 d1 H1) as [E|(d & Hd & E)]; [right; exists u; by split; [left|]|left; by exists d]
        |right; exists u'; by split; [right|]]].
      intros h g. rewrite B3, !linked_spec. split.
      * intros [(d1 & Hd1 & <- & <-)|(u' & Hu' & E)]; [|right; exists u'; split; [by right|done]].
        destruct (A3 d1 Hd1) as [[= E1 E2 _]|(d & Hd & [= -> -> _])]; [right; exists u; split; [left|by unfold link; rewrite E1, E2]|left; by exists d].
      * intros [(d & Hd & <- & <-)|(u' & [->|Hu']%elem_of_cons & E)]; [left|left|right; by exists u'].
        -- destruct (A2 d Hd) as (d1 & Hd1 & [= E1 E2] & _). by exists d1.
        -- destruct A4 as (d1 & Hd1 & E1 & _). rewrite E in E1. injection E1 as E1 E2. by exists d1.
Qed.

(** ** The requests of a block *)

Lemma shouldInsertMLDSAKey_spec h g lvl e ds :
  docs_ok ds →
  match shouldInsertMLDSAKey h g lvl e ds with
  | Ok true => linked ds h g
  | Ok false => length g = 33%nat ∧
      ((∀ d, d ∈ ds → hashedPublicKey d ≠ h ∧ legacyPublicKey d ≠ g) ∨
       (e = true ∧ ∃ d, d ∈ ds ∧ hashedPublicKey d = h ∧ legacyPublicKey d = g ∧ level d = lvl))
  | Throw _ => True
  end.
Proof.
  intros Hds. unfold shouldInsertMLDSAKey, exists_. case_decide as Hlen; [done|]. cbn.
  assert (length g = 33%nat) as Hg by lia.
  destruct (findOne (fun k => hashedPublicKey k = h) ds) as [[i d]|] eqn:Eh;
    destruct (findOne (fun k => legacyPublicKey k = g) ds) as [[j d']|] eqn:El; cbn; try done.
  - apply findOne_some in Eh as (Hi & Hh & Hd), El as (Hj & Hl & Hd'). case_bool_decide as Hij; [subst j|done]; cbn.
    assert (d' = d) as -> by congruence.
    destruct (negb (bool_decide (Some (level d) = Some lvl))) eqn:Elvl; [done|].
    apply negb_false_iff, bool_decide_eq_true in Elvl. injection Elvl as Elvl.
    destruct (e && _) eqn:Ee; [|apply linked_spec; by exists d].
    apply andb_true_iff in Ee as [-> _]. split; [done|]. right. split; [done|]. by exists d.
  - rewrite andb_true_r. assert (length g = 33%nat ∧
      ((∀ d, d ∈ ds → hashedPublicKey d ≠ h ∧ legacyPublicKey d ≠ g) ∨
       (e = true ∧ ∃ d, d ∈ ds ∧ hashedPublicKey d = h ∧ legacyPublicKey d = g ∧ level d = lvl))) as H.
    { split; [done|]. left. intros d Hd. split; [by apply (findOne_none _ _ _ Eh)|by apply (findOne_none _ _ _ El)]. }
    by destruct e.
Qed.

Section Pending.
Context `{MapLib bytes} (tweak : bytes → bytes).
Implicit Types (s : MLDSALinks.t) (k : IMLDSAPublicKey).

(** What [getByHashedOrLegacy] answers for a key. *)
Definition found (ds : docs) (key : bytes) (k : IMLDSAPublicKey) : Prop :=
  linked ds (hashedPublicKey k) (legacyPublicKey k) ∧ length (legacyPublicKey k) = 33%nat ∧
  (tweak (legacyPublicKey k) = key ∨ hashedPublicKey k = key ∨ legacyPublicKey k = key).

(** What is pending can be saved. *)
Record pending_ok s : Prop := {
  po_docs : docs_ok (collection s);
  po_tweaked d : d ∈ collection s → tweakedPublicKey d = tweak (legacyPublicKey d) ∧ length (legacyPublicKey d) = 33%nat;
  po_entry a u : m_get (mldsaToStore s) a = Some u →
    hashedPublicKey (data u) = a ∧ tweakedPublicKey (data u) = tweak (legacyPublicKey (data u)) ∧
    is_Some (insertedBlockHeight (data u)) ∧ length (legacyPublicKey (data u)) = 33%nat ∧
    admissible u (collection s);
  po_legacy t a : m_get (mldsaToStoreLegacy s) t = Some a ↔
    ∃ u, m_get (mldsaToStore s) a = Some u ∧ tweak (legacyPublicKey (data u)) = t;
  po_cached t d : m_get (mldsaCacheFromLegacy s) t = Some (Some d) → found (collection s) t d
}.

Definition pending s (hashed legacy : bytes) : Prop :=
  ∃ u, m_get (mldsaToStore s) hashed = Some u ∧ legacyPublicKey (data u) = legacy.

(** What a request may do. *)
Record advances s s' : Prop := {
  ad_ok : pending_ok s → pending_ok s';
  ad_collection : collection s' = collection s;
  ad_pending hashed legacy : pending s hashed legacy → pending s' hashed legacy
}.

#[export] Instance advances_refl : Reflexive advances.
Proof. by intros s. Qed.

#[export] Instance advances_trans : Transitive advances.
Proof. intros s1 s2 s3 [A1 A2 A3] [B1 B2 B3]. split; [auto|congruence|auto]. Qed.

Lemma getByHashedOrLegacy_found key height ds k :
  (∀ d, d ∈ ds → tweakedPublicKey d = tweak (legacyPublicKey d) ∧ length (legacyPublicKey d) = 33%nat) →
  getByHashedOrLegacy key height ds = Some k → found ds key k.
Proof.
  intros Ht Hk. apply fmap_Some in Hk as ([i d] & (_ & (_ & Hm) & Hd)%findOne_some & ->). cbn.
  destruct (Ht d Hd) as [Et Hl]. split; [apply linked_spec; by exists d|]. split; [done|]. rewrite <- Et. naive_solver.
Qed.

(** A legacy key is looked up to a key it is linked to, or which has it as its hash. *)
Lemma getMLDSAPublicKeyFromLegacyKey_spec height key s :
  pending_ok s →
  advances s (getMLDSAPublicKeyFromLegacyKey height key s).1 ∧
  match (getMLDSAPublicKeyFromLegacyKey height key s).2 with
  | Some k => (pending s (hashedPublicKey k) (legacyPublicKey k) ∧ tweak (legacyPublicKey k) = key) ∨
      found (collection s) key k
  | None => True
  end.
Proof.
  intros Hs. unfold getMLDSAPublicKeyFromLegacyKey.
  destruct (m_get (mldsaToStoreLegacy s) key) as [a|] eqn:El.
  { apply (po_legacy _ Hs) in El as (u & Hu & Et). rewrite Hu. split; [reflexivity|]. left.
    split; [|done]. exists u. destruct (po_entry _ Hs a u Hu) as (Ea & _). cbn. by rewrite Ea. }
  destruct (m_get (mldsaCacheFromLegacy s) key) as [[k|]|] eqn:Ec.
  - split; [reflexivity|]. right. by apply (po_cached _ Hs).
  - by split; [reflexivity|].
  - split.
    + split; [|done|done]. intros [A1 A2 A3 A4 A5]. split; [done..|]. intros t d. cbn. rewrite m_get_set.
      case_decide as Ht; [subst t|by apply A5]. intros [= Hk]. by eapply getByHashedOrLegacy_found.
    + cbn. destruct (getByHashedOrLegacy _ _ _) as [k|] eqn:Ek; [|done]. right.
      eapply getByHashedOrLegacy_found; [by apply Hs|done].
Qed.

Lemma store_advances e k s :
  tweakedPublicKey k = tweak (legacyPublicKey k) → is_Some (insertedBlockHeight k) → length (legacyPublicKey k) = 33%nat →
  m_get (mldsaToStore s) (hashedPublicKey k) = None →
  m_get (mldsaToStoreLegacy s) (tweak (legacyPublicKey k)) = None →
  admissible (mkUpdateData e k) (collection s) → advances s (store tweak e k s).
Proof.
  intros Ht Hi Hl Hn Hnl Hadm. split; [|done|].
  - intros [A1 A2 A3 A4 A5]. split; [done|done|..|done].
    + intros a u. cbn. rewrite m_get_set. case_decide as Ha; [|by apply A3]. intros [= <-]. by repeat split.
    + intros t a. cbn. rewrite m_get_set. case_decide as Htw.
      * split; [intros [= <-]; exists (mkUpdateData e k); by rewrite m_get_set, decide_True|].
        rewrite m_get_set. intros (u & Hu & Etw). case_decide as Ha; [by subst|].
        exfalso. assert (m_get (mldsaToStoreLegacy s) t = Some a) as E by (apply A4; by exists u). congruence.
      * rewrite A4. rewrite m_get_set. case_decide as Ha; [subst a|done].
        split; intros (u & Hu & Etw); [congruence|]. injection Hu as <-. by destruct Htw.
  - intros h g (u & Hu & Eg). unfold pending. cbn. rewrite m_get_set. case_decide as Ha; [congruence|]. by exists u.
Qed.

Lemma validateMLDSALinkRequest_spec k s :
  match validateMLDSALinkRequest tweak k s with
  | Ok (Some _) => m_get (mldsaToStore s) (hashedPublicKey k) = None ∧
      m_get (mldsaToStoreLegacy s) (tweak (legacyPublicKey k)) = None
  | Ok None => pending s (hashedPublicKey k) (legacyPublicKey k)
  | Throw _ => True
  end.
Proof.
  unfold validateMLDSALinkRequest. destruct (m_get (mldsaToStore s) _) as [u|] eqn:Eh.
  { case_decide; [|done]. by exists u. }
  destruct (m_get (mldsaToStoreLegacy s) _) eqn:El; [done|].
  destruct (m_get (mldsaToStoreByHash s) _) as [l|]; [|done]. by case_decide.
Qed.

Lemma request_spec e k s :
  pending_ok s → tweakedPublicKey k = tweak (legacyPublicKey k) → is_Some (insertedBlockHeight k) →
  advances s (request tweak e k s).1 ∧
  ((request tweak e k s).2 = Ok tt →
     pending (request tweak e k s).1 (hashedPublicKey k) (legacyPublicKey k) ∨
     linked (collection s) (hashedPublicKey k) (legacyPublicKey k)).
Proof.
  intros Hs Ht Hi. unfold request. pose proof (validateMLDSALinkRequest_spec k s) as Hv.
  destruct (validateMLDSALinkRequest tweak k s) as [[[]|]|x]; [destruct Hv as [Eh El]|by split; [reflexivity|left]|by split; [reflexivity|]].
  pose proof (shouldInsertMLDSAKey_spec (hashedPublicKey k) (legacyPublicKey k) (level k) e (collection s) (po_docs _ Hs)) as Hsi.
  destruct (shouldInsertMLDSAKey _ _ _ _ _) as [[]|x].
  - split; [reflexivity|]. by right.
  - destruct Hsi as [Hlen Hadm]. split.
    + apply store_advances; try done. destruct Hadm as [Hn|(-> & d & Hd & E1 & E2 & E3)]; [by left|right].
      split; [done|]. exists d. split; [done|]. split; [|done]. split; [done|]. split; [done|].
      cbn. destruct (po_tweaked _ Hs d Hd) as [-> _]. by rewrite E2.
    + intros _. left. exists (mkUpdateData e k). cbn. by rewrite m_get_set, decide_True.
  - by split; [reflexivity|].
Qed.

(** *** The requests of transactions *)

Section Transactions.
Context (sha256 : bytes → bytes) (verifySignature : bytes → bytes → bytes → bool)
  (verifyMLDSASignature : Z → bytes → bytes → bytes → bool) (PROTOCOL_ID chainId : bytes).

Definition assign : Z → bytes → option MLDSARequestData → op bytes :=
  assignMLDSAToLegacy tweak sha256 verifySignature verifyMLDSASignature PROTOCOL_ID chainId.

Lemma verify_and_expose_spec height r original s :
  let res := verify_and_expose tweak sha256 verifyMLDSASignature PROTOCOL_ID chainId height r original (tweak original) s in
  pending_ok s →
  advances s res.1 ∧
  (res.2 = Ok tt → pending res.1 (request_hashedPublicKey r) original ∨
     linked (collection s) (request_hashedPublicKey r) original).
Proof.
  cbn zeta. intros Hs. unfold verify_and_expose.
  destruct (request_publicKey r) as [key|]; [|by split; [reflexivity|]].
  destruct (mldsaSignature r) as [sg|]; [|by split; [reflexivity|]].
  repeat (case_decide; [by split; [reflexivity|]|]).
  destruct (verifyMLDSASignature _ _ _ _); [|by split; [reflexivity|]].
  by apply (request_spec true (mkKey _ (request_hashedPublicKey r) original _ _ _ _)).
Qed.

(** The sender is linked to the key that signed, unless its address is that key. *)
Lemma assign_spec height original r s :
  (∀ key, length (tweak key) = 32%nat) → pending_ok s →
  advances s (assign height original r s).1 ∧
  ∀ from, (assign height original r s).2 = Ok from →
    ∃ legacy, (pending (assign height original r s).1 from legacy ∨ linked (collection s) from legacy) ∧
      (tweak legacy = tweak original ∨ from = tweak original) ∧ (is_Some r → legacy = original).
Proof.
  intros Hlen Hs. unfold assign, assignMLDSAToLegacy. destruct r as [r|].
  - destruct (verifySignature _ _ _); [|by split; [reflexivity|]]. unfold mbind, stx_bind, mret.
    set (o := if verifyRequest r then _ else _).
    assert (advances s (o s).1 ∧ ((o s).2 = Ok tt → pending (o s).1 (request_hashedPublicKey r) original ∨
              linked (collection s) (request_hashedPublicKey r) original)) as [Ha Hp].
    { subst o. destruct (verifyRequest r); [by apply verify_and_expose_spec|].
      unfold addMLDSAInfoToStore. case_decide; [by split; [reflexivity|]|].
      by apply (request_spec false (mkKey _ (request_hashedPublicKey r) original _ _ _ _)). }
    destruct (o s) as [s1 [[]|e]]; cbn in *; (split; [done|]); [|done].
    intros from [= <-]. exists original. split; [by apply Hp|]. auto.
  - unfold regenerateProvenance. pose proof (getMLDSAPublicKeyFromLegacyKey_spec height (tweak original) s Hs) as [Ha Hk].
    destruct (getMLDSAPublicKeyFromLegacyKey _ _ s) as [s1 [k|]]; cbn in *; (split; [done|]); [|done].
    intros from [= <-]. exists (legacyPublicKey k). destruct Hk as [[Hp Et]|(Hl & Hg & E)].
    + split; [left; by apply Ha|]. split; [by left|]. by intros [].
    + split; [by right|]. split; [|by intros []]. destruct E as [E|[E|E]]; [by left|by right|].
      exfalso. rewrite E, Hlen in Hg. done.
Qed.

(** ** Blocks *)

Lemma pending_ok_initial ds :
  docs_ok ds → (∀ d, d ∈ ds → tweakedPublicKey d = tweak (legacyPublicKey d) ∧ length (legacyPublicKey d) = 33%nat) →
  pending_ok (initial ds).
Proof.
  intros Hds Ht. split; [done|done|..].
  - intros a u. cbn. by rewrite m_get_empty.
  - intros t a. cbn. rewrite m_get_empty. split; [done|]. intros (u & Hu & _). by rewrite m_get_empty in Hu.
  - intros t d. cbn. by rewrite m_get_empty.
Qed.

(** What is to be saved, in the order of the map. *)
Definition updates s : list MLDSAUpdateData := (m_entries (mldsaToStore s)).*2.

Lemma elem_of_updates s u : u ∈ updates s ↔ ∃ a, m_get (mldsaToStore s) a = Some u.
Proof.
  unfold updates. rewrite list_elem_of_fmap. split.
  - intros ([a u'] & -> & Hu). exists a. by apply m_entries_get.
  - intros [a Hu]. exists (a, u). split; [done|]. by apply m_entries_get.
Qed.

Lemma updates_hashes s : pending_ok s → hashedPublicKey ∘ data <$> updates s = (m_entries (mldsaToStore s)).*1.
Proof.
  intros Hs. unfold updates. rewrite <- list_fmap_compose. apply list_fmap_ext. intros i [a u] Hi. cbn.
  eapply (po_entry _ Hs a u), m_entries_get, list_elem_of_lookup_2, Hi.
Qed.

Lemma updates_nodup s :
  pending_ok s → NoDup (hashedPublicKey ∘ data <$> updates s) ∧ NoDup (legacyPublicKey ∘ data <$> updates s).
Proof.
  intros Hs. assert (NoDup (hashedPublicKey ∘ data <$> updates s)) as Hh.
  { rewrite updates_hashes by done. apply m_entries_nodup. }
  split; [done|]. apply NoDup_alt. intros i j l Hi Hj. rewrite !list_lookup_fmap in Hi, Hj.
  destruct (updates s !! i) as [u|] eqn:Ei; [|done]. destruct (updates s !! j) as [u'|] eqn:Ej; [|done].
  cbn in Hi, Hj. injection Hi as Hi. injection Hj as Hj.
  assert (hashedPublicKey (data u) = hashedPublicKey (data u')) as E.
  { apply list_elem_of_lookup_2, elem_of_updates in Ei as [a Ea], Ej as [a' Ea'].
    assert (m_get (mldsaToStoreLegacy s) (tweak l) = Some a) as E1 by (apply (po_legacy _ Hs); exists u; by rewrite Hi).
    assert (m_get (mldsaToStoreLegacy s) (tweak l) = Some a') as E2 by (apply (po_legacy _ Hs); exists u'; by rewrite Hj).
    by simplify_eq. }
  eapply (NoDup_lookup _ _ _ _ Hh); rewrite list_lookup_fmap; [by rewrite Ei|by rewrite Ej; cbn; rewrite E].
Qed.

Lemma all_ok_spec (l : list MLDSAUpdateData) :
  (∀ u, u ∈ l → is_Some (insertedBlockHeight (data u)) ∧ length (legacyPublicKey (data u)) = 33%nat) → all_ok l = Ok tt.
Proof.
  induction l as [|u l IH]; [done|]. intros Hl. cbn. destruct (Hl u ltac:(left)) as [[h Hh] H33].
  unfold operation_ok. rewrite Hh, bool_decide_true, andb_false_r by done. cbn. apply IH. intros u' Hu'. apply Hl. by right.
Qed.

(** Links are kept. *)
Definition keeps_links (ds ds' : docs) : Prop := ∀ d, d ∈ ds → ∃ d', d' ∈ ds' ∧ link d' = link d ∧ level d' = level d.

#[export] Instance keeps_links_preorder : PreOrder keeps_links.
Proof.
  split; [intros ds d Hd; by exists d|]. intros d1 d2 d3 H1 H2 d Hd. destruct (H1 d Hd) as (d' & Hd' & E1 & E2).
  destruct (H2 d' Hd') as (d'' & Hd'' & E3 & E4). exists d''. split; [done|]. by rewrite E3, E4.
Qed.

(** What is pending is saved, and nothing else. *)
Lemma saveKeys_spec s :
  pending_ok s →
  (saveKeys s).2 = Ok tt ∧ pending_ok (clear (saveKeys s).1) ∧
  keeps_links (collection s) (collection (saveKeys s).1) ∧
  ∀ h g, linked (collection (saveKeys s).1) h g ↔ linked (collection s) h g ∨ pending s h g.
Proof.
  intros Hs. destruct (updates_nodup s Hs) as [Hh Hl].
  assert (∀ u, u ∈ updates s → ∃ a, m_get (mldsaToStore s) a = Some u) as Hin by (intros u; apply elem_of_updates).
  destruct (bulkWrite_spec (updates s) (collection s) (po_docs _ Hs) Hh Hl) as (ds' & Hw & B1 & B2 & B3 & B4).
  { intros u [a Ha]%Hin. by apply (po_entry _ Hs a). }
  assert (saveKeys s = (mk (mldsaToStore s) (mldsaToStoreLegacy s) (mldsaToStoreByHash s) (mldsaCache s)
            (mldsaCacheFromLegacy s) ds', Ok tt)) as ->.
  { assert (all_ok (updates s) = Ok tt) as Ho.
    { apply all_ok_spec. intros u [a Ha]%Hin. destruct (po_entry _ Hs a u Ha) as (_ & _ & ? & ? & _). done. }
    unfold saveKeys, savePublicKeys. unfold updates in Hw, Ho. destruct (m_entries (mldsaToStore s)); [|by rewrite Ho, Hw].
    cbn in Hw. injection Hw as <-. by destruct s. }
  cbn [fst snd collection]. split; [done|]. split; [|split; [done|]].
  - apply pending_ok_initial; [done|]. intros d' [(d & Hd & [= _ El Et])|(u & [a Ha]%Hin & [= _ El Et])]%B4; rewrite El, Et.
    + by apply (po_tweaked _ Hs).
    + by destruct (po_entry _ Hs a u Ha) as (_ & ? & _ & ? & _).
  - intros h g. rewrite B3. apply or_iff_compat_l. split.
    + intros (u & [a Ha]%Hin & [= E1 E2]). exists u. split; [|done].
      destruct (po_entry _ Hs a u Ha) as (Ea & _). congruence.
    + intros (u & Hu & E). exists u. split; [apply elem_of_updates; by exists h|]. unfold link.
      destruct (po_entry _ Hs h u Hu) as (-> & _). by rewrite E.
Qed.

(** A block: what its transactions request, then the saving of what is pending. *)
Abbreviation sender := (bytes * option MLDSARequestData)%type.

Fixpoint assign_all (height : Z) (txs : list sender) s : MLDSALinks.t :=
  match txs with [] => s | (original, r) :: txs' => assign_all height txs' (assign height original r s).1 end.

Definition block (height : Z) (txs : list sender) : op unit := fun s =>
  let '(s', r) := saveKeys (assign_all height txs s) in (clear s', r).

Fixpoint blocks (l : list (Z * list sender)) : op unit :=
  match l with [] => mret tt | (height, txs) :: l' => _ ← block height txs; blocks l' end.

Hypothesis tweak_length : ∀ key, length (tweak key) = 32%nat.

Lemma assign_all_advances height txs s : pending_ok s → advances s (assign_all height txs s).
Proof.
  revert s. induction txs as [|[original r] txs IH]; intros s Hs; [reflexivity|]. cbn.
  destruct (assign_spec height original r s tweak_length Hs) as [Ha _]. etrans; [exact Ha|]. by apply IH, Ha.
Qed.

Lemma block_spec height txs s :
  pending_ok s → ∃ s', block height txs s = (s', Ok tt) ∧ pending_ok s' ∧ keeps_links (collection s) (collection s').
Proof.
  intros Hs. destruct (assign_all_advances height txs s Hs) as [Hs' Hc _]. specialize (Hs' Hs).
  destruct (saveKeys_spec _ Hs') as (H1 & H2 & H3 & _). unfold block. rewrite Hc in H3.
  destruct (saveKeys _) as [s1 r]. cbn in *. subst r. eauto.
Qed.

Lemma blocks_spec l s :
  pending_ok s → ∃ s', blocks l s = (s', Ok tt) ∧ pending_ok s' ∧ keeps_links (collection s) (collection s').
Proof.
  revert s. induction l as [|[height txs] l IH]; intros s Hs; [by exists s|].
  destruct (block_spec height txs s Hs) as (s1 & E1 & H1 & K1). destruct (IH s1 H1) as (s2 & E2 & H2 & K2).
  exists s2. split; [|split; [done|by etrans]]. cbn. unfold mbind, stx_bind. by rewrite E1.
Qed.

(** A collection to start from. *)
Definition collection_ok (ds : docs) : Prop :=
  docs_ok ds ∧ ∀ d, d ∈ ds → tweakedPublicKey d = tweak (legacyPublicKey d) ∧ length (legacyPublicKey d) = 33%nat.

(** C13: a link between a legacy key and the hash of an ML-DSA key is permanent.
    Whatever the transactions of any blocks request, the keys of every block are
    saved without an error; afterwards every link that was there is still there
    with its security level, a hash has one legacy key and a legacy key one hash. *)
Theorem links_are_permanent (ds : docs) (l : list (Z * list sender)) :
  collection_ok ds →
  ∃ s, blocks l (initial ds) = (s, Ok tt) ∧
    (∀ d, d ∈ ds → ∃ d', d' ∈ collection s ∧ hashedPublicKey d' = hashedPublicKey d ∧
       legacyPublicKey d' = legacyPublicKey d ∧ level d' = level d) ∧
    NoDup (hashedPublicKey <$> collection s) ∧ NoDup (legacyPublicKey <$> collection s).
Proof.
  intros [Hds Ht]. destruct (blocks_spec l (initial ds) (pending_ok_initial ds Hds Ht)) as (s & E & Hs & K).
  exists s. split; [done|]. split; [|apply (po_docs _ Hs)].
  intros d Hd. destruct (K d Hd) as (d' & ? & [= ? ?] & ?). by exists d'.
Qed.

(** C12: the address a transaction is from is the hash its sender is linked to.
    After any blocks and any earlier transactions of its block, a transaction that
    is accepted is from a hash which, when the block is saved, is linked to a
    legacy key; that key is the original key of the sender when the transaction
    itself requests the link, and otherwise has the tweaked key of the sender -
    unless the hash is itself equal to the tweaked key of the sender. *)
Theorem sender_is_linked (ds : docs) (l : list (Z * list sender)) height txs1 original r txs2 from s1 :
  collection_ok ds →
  let s0 := assign_all height txs1 (blocks l (initial ds)).1 in
  assign height original r s0 = (s1, Ok from) →
  ∃ legacy, (from, legacy) ∈ link <$> collection (saveKeys (assign_all height txs2 s1)).1 ∧
    (tweak legacy = tweak original ∨ from = tweak original) ∧ (is_Some r → legacy = original).
Proof.
  intros [Hds Ht] s0 E. destruct (blocks_spec l (initial ds) (pending_ok_initial ds Hds Ht)) as (sb & Eb & Hb & _).
  assert (pending_ok s0) as H0 by (subst s0; rewrite Eb; by apply assign_all_advances).
  destruct (assign_spec height original r s0 tweak_length H0) as [Ha Hf]. rewrite E in Ha, Hf. cbn in Ha, Hf.
  destruct (Hf from eq_refl) as (legacy & Hl & Htw & Hr). exists legacy. split; [|done].
  assert (pending_ok s1) as H1 by (by apply Ha). destruct (assign_all_advances height txs2 s1 H1) as [H2 Hc Hp].
  specialize (H2 H1). destruct (saveKeys_spec _ H2) as (_ & _ & _ & Hs). apply Hs.
  rewrite Hc, (ad_collection _ _ Ha). destruct Hl as [Hl|Hl]; [right; by apply Hp|by left].
Qed.
End Transactions.
End Pending.

(** ** Concrete keys *)

Module Examples.

(** The tweaked key of a legacy key, here its last 32 bytes. *)
Definition tweak (key : bytes) : bytes := take 32 (tail key ++ replicate 32 0).

Lemma tweak_length key : length (tweak key) = 32%nat.
Proof. unfold tweak. rewrite length_take, length_app, length_replicate. lia. Qed.

Definition legacy (n : Z) : bytes := 2 :: replicate 32 n.
Definition hash (n : Z) : bytes := replicate 32 (n + 100).

Definition any_signature (_ _ _ : bytes) : bool := true.
Definition any_mldsa_signature (_ : Z) (_ _ _ : bytes) : bool := true.
Definition sha (key : bytes) : bytes := take 32 key.

Definition ask (h : bytes) : option MLDSARequestData := Some (mkRequest false None h 0 None []).

#[local] Existing Instance gmap_lib.

Abbreviation run_blocks := (blocks tweak sha any_signature any_mldsa_signature [] []).
Abbreviation run_assign := (assign tweak sha any_signature any_mldsa_signature [] []).

(** Alice and Bob are linked in the first block; in the second Bob may not take
    Alice's hash, nor Alice another one. *)
Definition two_blocks : list (Z * list (bytes * option MLDSARequestData)) :=
  [(10, [(legacy 1, ask (hash 1)); (legacy 2, ask (hash 2))]);
   (11, [(legacy 2, ask (hash 1)); (legacy 1, ask (hash 3)); (legacy 1, None)])].

Example links_after_two_blocks :
  link <$> collection (run_blocks two_blocks (initial [])).1 = [(hash 2, legacy 2); (hash 1, legacy 1)].
Proof. vm_compute. reflexivity. Qed.

(** Mallory links the tweaked key of Carol as its hash: a transaction of Carol,
    who has no link, is then from that hash, Mallory's address. *)
Definition attack : list (Z * list (bytes * option MLDSARequestData)) := [(10, [(legacy 7, ask (tweak (legacy 3)))])].

Example tweaked_key_can_be_claimed :
  (run_assign 11 (legacy 3) None (run_blocks attack (initial [])).1).2 = Ok (tweak (legacy 3)) ∧
  link <$> collection (run_blocks attack (initial [])).1 = [(tweak (legacy 3), legacy 7)].
Proof. vm_compute. by split. Qed.

Lemma links_are_permanent_witness :
  ∃ s, run_blocks two_blocks (initial (collection (run_blocks attack (initial [])).1)) = (s, Ok tt) ∧
    NoDup (hashedPublicKey <$> collection s) ∧ length (collection s) = 3%nat.
Proof.
  destruct (links_are_permanent tweak sha any_signature any_mldsa_signature [] [] tweak_length
              (collection (run_blocks attack (initial [])).1) two_blocks) as (s & E & _ & H & _).
  - split; [split; apply (bool_decide_unpack _); vm_compute; exact I|].
    intros d Hd. assert (d ∈ [mkKey 0 (tweak (legacy 3)) (legacy 7) (tweak (legacy 7)) None (Some 10) None]) as Hd' by exact Hd.
    apply list_elem_of_singleton in Hd' as ->. by split.
  - exists s. split; [exact E|]. split; [exact H|]. transitivity (length (collection (s, @Ok mldsa_error unit tt).1)); [done|].
    rewrite <- E. vm_compute. reflexivity.
Defined.

Lemma sender_is_linked_witness :
  ∃ key, (hash 2, key) ∈ link <$> collection (run_blocks two_blocks (initial [])).1 ∧ tweak key = tweak (legacy 2).
Proof.
  destruct (sender_is_linked tweak sha any_signature any_mldsa_signature [] [] tweak_length [] [] 10
              [(legacy 1, ask (hash 1))] (legacy 2) (ask (hash 2)) [] (hash 2)
              (run_assign 10 (legacy 2) (ask (hash 2)) (run_assign 10 (legacy 1) (ask (hash 1)) (initial [])).1).1)
    as (key & Hk & _ & Hr).
  - split; [split; apply NoDup_nil_2|]. by intros d Hd%elem_of_nil.
  - vm_compute. reflexivity.
  - exists key. assert (key = legacy 2) as -> by (apply Hr; by eexists). split; [|reflexivity].
    rewrite links_after_two_blocks. apply list_elem_of_here.
Defined.
End Examples.
