(* ===== verification/MLDSAMetadata.v ===== *)
(** * Sizes of ML-DSA keys (vm/mldsa/MLDSAMetadata.ts)

    The security levels of ML-DSA with the lengths of their keys and signatures. *)

From S2P Require Import Prelude ConsensusRules Consensus.

Inductive MLDSAPublicKeyMetadata : Type := MLDSA44 | MLDSA65 | MLDSA87.

#[export] Instance MLDSAPublicKeyMetadata_eq : EqDecision MLDSAPublicKeyMetadata.
Proof. solve_decision. Defined.

#[export] Instance MLDSASecurityLevel_eq : EqDecision MLDSASecurityLevel.
Proof. solve_decision. Defined.

Inductive metadata_error : Type := InvalidSecurityLevel | InvalidPublicKeyLength.

(** The value of a member of the enum. *)
Definition metadata_value (m : MLDSAPublicKeyMetadata) : Z :=
  match m with MLDSA44 => 1312 | MLDSA65 => 1952 | MLDSA87 => 2592 end.

Module MLDSAMetadata.

Definition fromLevel (level : MLDSASecurityLevel) : MLDSAPublicKeyMetadata :=
  match level with LEVEL2 => MLDSA44 | LEVEL3 => MLDSA65 | LEVEL5 => MLDSA87 end.

Definition fromBytesLen (len : Z) : result metadata_error MLDSAPublicKeyMetadata :=
  if decide (len = 1312) then Ok MLDSA44
  else if decide (len = 1952) then Ok MLDSA65
  else if decide (len = 2592) then Ok MLDSA87
  else Throw InvalidPublicKeyLength.

Definition toLevel (m : MLDSAPublicKeyMetadata) : MLDSASecurityLevel :=
  match m with MLDSA44 => LEVEL2 | MLDSA65 => LEVEL3 | MLDSA87 => LEVEL5 end.

Definition securityLevel (m : MLDSAPublicKeyMetadata) : Z :=
  match m with MLDSA44 => 2 | MLDSA65 => 3 | MLDSA87 => 5 end.

Definition privateKeyLen (m : MLDSAPublicKeyMetadata) : Z :=
  match m with MLDSA44 => 2560 | MLDSA65 => 4032 | MLDSA87 => 4896 end.

Definition signatureLen (m : MLDSAPublicKeyMetadata) : Z :=
  match m with MLDSA44 => 2420 | MLDSA65 => 3309 | MLDSA87 => 4627 end.

Definition name (m : MLDSAPublicKeyMetadata) : string :=
  match m with MLDSA44 => "ML-DSA-44" | MLDSA65 => "ML-DSA-65" | MLDSA87 => "ML-DSA-87" end.

Definition tryFromU32 (value : Z) : result metadata_error MLDSAPublicKeyMetadata := fromBytesLen value.

Definition isValid (value : Z) : bool := bool_decide (value = 1312 ∨ value = 1952 ∨ value = 2592).

Lemma fromBytesLen_spec len m : fromBytesLen len = Ok m ↔ metadata_value m = len.
Proof.
  unfold fromBytesLen. split.
  - repeat case_decide; intros [= <-]; done.
  - intros <-. by destruct m.
Qed.

Lemma isValid_spec len : isValid len = is_ok (tryFromU32 len).
Proof.
  unfold isValid, tryFromU32, fromBytesLen. repeat case_decide; apply bool_decide_eq_true || apply bool_decide_eq_false; lia.
Qed.

Lemma metadata_level_roundtrip : (∀ l, toLevel (fromLevel l) = l) ∧ ∀ m, fromLevel (toLevel m) = m.
Proof. by split; intros []. Qed.
End MLDSAMetadata.
