(* ===== verification/TransactionParsing.v ===== *)
(** * The transactions of a Bitcoin block
    (processor/transaction: Transaction.ts, transactions/, features/,
    interfaces/OPNetHeader.ts, transaction-factory/TransactionFactory.ts,
    PossibleOPNetTransactions.ts)

    A transaction of OP_NET carries, in the witness of one of its inputs, a
    script with a header, the key of the sender, a challenge solution, features
    and calldata or bytecode.  What the node calls of its libraries - the script
    decoder, hashes, addresses, the reader of binary data - is the class
    [TxLib]. *)

From S2P Require Import Prelude ConsensusRules Consensus Gas TransactionSorter Evaluation MLDSA MLDSAMetadata.

(** An element of a decoded script: an opcode or data. *)
Inductive chunk : Type := Op (n : Z) | Data (b : bytes).

#[export] Instance chunk_eq : EqDecision chunk.
Proof. solve_decision. Defined.

Inductive Features : Type := ACCESS_LIST | EPOCH_SUBMISSION | MLDSA_LINK_PUBKEY.

#[export] Instance Features_eq : EqDecision Features.
Proof. solve_decision. Defined.

Inductive tx_error : Type :=
| BlockHashMismatch
| InvalidKeyPrefix
| FeaturesUndecodable
| InvalidBytecodeInScript
| NoContractBytecode
| CalldataTooLong
| ContractTooLong
| NoScriptData
| NoWitnessData
| NoInput
| LevelNotEnabled
| EmptyHashedKey
| EmptyPublicKey
| InvalidSubmissionLength
| GraffitiTooLong
| EmptySubmissionKey
| EmptySalt
| AccessListDisabled
| AccessListUndecodable
| InvalidCompressedData
| SenderHashMismatch
| InvalidSender
| SaltHashMismatch
| InvalidContractAddress
| InvalidContractPubkey
| ExpiredTransaction
| InvalidSolution
| InvalidChallenge
| UpgradeRequired
| PriorityFeeTooHigh
| NoInputTransactionId
| InvalidSaltLength
| InvalidSigner
| InvalidControlBlock
| NoWitnessAddress
| BurnedTooMuch
| VersionNotSupported
| NoOutput
| Lib (message : string).

(** ** The libraries *)

Class TxLib `{VMLib} : Type := {
  (** [script.decompile], which may throw, or answer null *)
  decompile : bytes → result string (option (list chunk));
  OP_0 : Z; OP_1 : Z; OP_1NEGATE : Z; OP_TOALTSTACK : Z; OP_DUP : Z; OP_HASH256 : Z; OP_HASH160 : Z;
  OP_EQUALVERIFY : Z; OP_CHECKSIGVERIFY : Z; OP_DEPTH : Z; OP_NUMEQUAL : Z; OP_IF : Z; OP_ELSE : Z; OP_ENDIF : Z;
  feature_flag : Features → Z;
  feature_priority : Features → Z;
  level_value : MLDSASecurityLevel → Z;
  hash256 : bytes → bytes;
  hash160 : bytes → bytes;
  isZero : bytes → bool;
  (** the taproot output key of a legacy key *)
  tweak : bytes → bytes;
  isValidLegacyPublicKey : bytes → bool;
  isValidPublicKey : string → bool;
  newAddress : bytes → result string Address;
  p2op : Address → string;
  p2op_address : string → option string;
  timeLockAddress : bytes → string;
  unzipSync : bytes → option bytes;
  getContractSeed : bytes → bytes → bytes → bytes;
  (** the x-only key of the signer of a seed *)
  seedSigner : bytes → option bytes;
  verifyControlBlock : bytes → bytes → bytes → option bytes → bytes → Z → list Features → bytes → result string bool;
  (** BinaryReader *)
  Reader : Type;
  newReader : bytes → Reader;
  bytesLeft : Reader → Z;
  readU8 : stx Reader string Z;
  readU16 : stx Reader string Z;
  readU32 : stx Reader string Z;
  readU64 : stx Reader string Z;
  readBoolean : stx Reader string bool;
  readBytes : Z → stx Reader string bytes;
  readBytesWithLength : option Z → stx Reader string bytes;
  readAddress : stx Reader string Address
}.

(** ** Raw data (@btc-vision/bitcoin-rpc) *)

Record VIn : Type := mkVIn {
  vin_txid : option string;
  txinwitness : option (list string)
}.

Record VOut : Type := mkVOut {
  vout_value : Z;
  vout_hex : string;
  vout_address : option string;
  vout_type : string
}.

Record TransactionData : Type := mkData {
  txid : string;
  version : Z;
  blockhash : option string;
  vin : list VIn;
  vout : list VOut
}.

(** [new TransactionInput(data)], what is read of it. *)
Record WitnessInput : Type := mkInput {
  input_id : bytes;
  transactionInWitness : list bytes
}.

(** Inside a transaction the errors of the libraries pass through. *)
Definition lib {S A} (c : stx S string A) : stx S tx_error A := fun s =>
  match c s with
  | (s', Ok a) => (s', Ok a)
  | (s', Throw e) => (s', Throw (Lib e))
  end.
Definition lib_result {A} (r : result string A) : result tx_error A :=
  match r with Ok a => Ok a | Throw e => Throw (Lib e) end.

(** The decoders consume a script from its front, and give up with [undefined]
    ([None]) or throw. *)
Definition parser (A : Type) : Type := list chunk → result tx_error (option (A * list chunk)).

#[export] Instance parser_ret : MRet parser := fun A a s => Ok (Some (a, s)).
#[export] Instance parser_bind : MBind parser := fun A B k p s =>
  match p s with
  | Ok (Some (a, s')) => k a s'
  | Ok None => Ok None
  | Throw e => Throw e
  end.

Definition of_result {A} (r : result tx_error A) : parser A := fun s =>
  match r with Ok a => Ok (Some (a, s)) | Throw e => Throw e end.

(** [if (scriptData.shift() !== opcode) return] *)
Definition op (n : Z) : parser unit := fun s =>
  match s with
  | Op m :: s' => if decide (m = n) then Ok (Some (tt, s')) else Ok None
  | _ => Ok None
  end.

(** [instanceof Uint8Array], of a length. *)
Definition data_of (len : Z) : parser bytes := fun s =>
  match s with
  | Data b :: s' => if decide (Z.of_nat (length b) = len) then Ok (Some (b, s')) else Ok None
  | _ => Ok None
  end.

Section TransactionParsing.
Context {LB : BtcLib} {LV : @VMLib LB} {LT : @TxLib LB LV}.

Definition OPNet_MAGIC : bytes := [111; 112].
Definition GZIP_HEADER : bytes := [31; 139].

(** ** OPNetHeader *)

Record OPNetHeader : Type := mkHeader {
  minerMLDSAPublicKey : bytes;
  solution : bytes;
  priorityFeeSat : Z;
  publicKeyPrefix : Z;
  flags : Z
}.

Definition EXPECTED_HEADER_LENGTH : Z := 4 + 8.

Definition header_flags (b1 b2 b3 : Z) : Z := Z.lor (Z.lor (Z.shiftl b1 16) (Z.shiftl b2 8)) b3.

Definition newHeader (header miner solution_ : bytes) : result tx_error OPNetHeader :=
  match (headerBytes ← lib (readBytes 4); fee ← lib readU64; mret (headerBytes, fee)) (newReader header) with
  | (_, Throw e) => Throw e
  | (_, Ok (prefix :: b1 :: b2 :: b3 :: _, fee)) =>
      if decide (prefix ≠ 2 ∧ prefix ≠ 3) then Throw InvalidKeyPrefix
      else Ok (mkHeader miner solution_ fee prefix (header_flags b1 b2 b3))
  | (_, Ok _) => Throw InvalidKeyPrefix
  end.

Definition includes (h : OPNetHeader) (f : Features) : bool :=
  bool_decide (Z.land (flags h) (feature_flag f) = feature_flag f).

Definition decodeFlags (h : OPNetHeader) : list Features :=
  List.filter (includes h) [ACCESS_LIST; EPOCH_SUBMISSION; MLDSA_LINK_PUBKEY].

(** ** Scripts (SharedInteractionParameters) *)

Fixpoint getDataFromScript (breakWhenReachOpcode : Z) (data : option bytes) (s : list chunk)
  : result tx_error (option (option bytes * list chunk)) :=
  match s with
  | [] => Ok (Some (data, []))
  | Op n :: _ => if decide (n = breakWhenReachOpcode) then Ok (Some (data, s)) else Throw InvalidBytecodeInScript
  | Data b :: s' => getDataFromScript breakWhenReachOpcode (Some (default [] data ++ b)) s'
  end.

Fixpoint getDataUntilBufferEnd (data : option bytes) (s : list chunk) : option bytes * list chunk :=
  match s with
  | Data b :: s' => getDataUntilBufferEnd (Some (default [] data ++ b)) s'
  | _ => (data, s)
  end.

Definition decodeOPNetHeader (C : IOPNetConsensus) : parser OPNetHeader :=
  header ← data_of EXPECTED_HEADER_LENGTH;
  _ ← op OP_TOALTSTACK;
  minerMLDSAPublicKey_ ← data_of 32;
  _ ← op OP_TOALTSTACK;
  preimage ← data_of (PREIMAGE_LENGTH C);
  _ ← op OP_TOALTSTACK;
  of_result (newHeader header minerMLDSAPublicKey_ preimage).

Record Feature : Type := mkFeature { opcode : Features; feature_data : bytes }.
Definition priority (f : Feature) : Z := feature_priority (opcode f).

Fixpoint read_features (l : list Features) : stx Reader string (list Feature) :=
  match l with
  | [] => mret []
  | f :: l' => d ← readBytesWithLength None; r ← read_features l'; mret (mkFeature f d :: r)
  end.

Definition decodeFeatures (header : OPNetHeader) : parser (list Feature) := fun s =>
  match decodeFlags header with
  | [] => Ok (Some ([], s))
  | features =>
      match getDataUntilBufferEnd None s with
      | (None, _) => Throw FeaturesUndecodable
      | (Some data, s') =>
          match read_features features (newReader data) with
          | (_, Ok l) => Ok (Some (l, s'))
          | (_, Throw _) => Throw FeaturesUndecodable
          end
      end
  end.

Definition magic : parser unit := fun s =>
  match s with
  | Data b :: s' => if decide (length b = 2%nat ∧ b = OPNet_MAGIC) then Ok (Some (tt, s')) else Ok None
  | _ => Ok None
  end.

(** What both kinds of scripts start with: the header, the key of the sender and
    its hash, a salt key, the hash of the salt, and the magic. *)
Record SharedWitness : Type := mkShared {
  header : OPNetHeader;
  senderPubKey : bytes;
  hashedSenderPubKey : bytes;
  saltPubKey : bytes;
  saltHash : bytes;
  features : list Feature
}.

Definition shared_witness (C : IOPNetConsensus) (hash_opcode hash_length : Z) : parser SharedWitness :=
  header_ ← decodeOPNetHeader C;
  senderPubKey_ ← data_of 32;
  _ ← op OP_DUP;
  _ ← op OP_HASH256;
  hashed ← data_of 32;
  _ ← op OP_EQUALVERIFY;
  _ ← op OP_CHECKSIGVERIFY;
  salt ← data_of 32;
  _ ← op OP_CHECKSIGVERIFY;
  _ ← op hash_opcode;
  hash ← data_of hash_length;
  _ ← op OP_EQUALVERIFY;
  _ ← op OP_DEPTH;
  _ ← op OP_1;
  _ ← op OP_NUMEQUAL;
  _ ← op OP_IF;
  _ ← magic;
  features_ ← decodeFeatures header_;
  mret (mkShared header_ senderPubKey_ hashed salt hash features_).

Definition getInteractionWitnessDataHeader (C : IOPNetConsensus) : parser SharedWitness :=
  w ← shared_witness C OP_HASH160 20;
  _ ← op OP_1NEGATE;
  mret w.

Definition too_long (limit : Z) (b : bytes) : bool := bool_decide (limit < Z.of_nat (length b)).

Definition getInteractionWitnessData (C : IOPNetConsensus) : parser (SharedWitness * bytes) :=
  w ← getInteractionWitnessDataHeader C;
  calldata ← getDataFromScript OP_ELSE None;
  match calldata with
  | None => of_result (Throw NoContractBytecode)
  | Some c => if too_long (MAXIMUM_CALLDATA_SIZE_COMPRESSED (CONTRACTS C)) c
              then of_result (Throw CalldataTooLong) else mret (w, c)
  end.

Definition getDeploymentWitnessData (C : IOPNetConsensus) : parser (SharedWitness * option bytes * bytes) :=
  w ← shared_witness C OP_HASH256 32;
  _ ← op OP_0;
  calldata ← getDataFromScript OP_1NEGATE None;
  if match calldata with Some c => too_long (MAXIMUM_CALLDATA_SIZE_COMPRESSED (CONTRACTS C)) c | None => false end
  then of_result (Throw CalldataTooLong)
  else
    _ ← op OP_1NEGATE;
    bytecode ← getDataFromScript OP_ELSE None;
    match bytecode with
    | None => of_result (Throw NoContractBytecode)
    | Some b => if too_long (MAXIMUM_CONTRACT_SIZE_COMPRESSED (CONTRACTS C)) b
                then of_result (Throw ContractTooLong) else mret (w, calldata, b)
    end.

(** ** Which type a transaction has (Transaction._is) *)

Definition LEGACY_INTERACTION : list Z :=
  [OP_TOALTSTACK; OP_TOALTSTACK; OP_TOALTSTACK; OP_DUP; OP_HASH256; OP_EQUALVERIFY; OP_CHECKSIGVERIFY;
   OP_CHECKSIGVERIFY; OP_HASH160; OP_EQUALVERIFY; OP_DEPTH; OP_1; OP_NUMEQUAL; OP_IF; OP_1NEGATE; OP_ELSE; OP_1;
   OP_ENDIF].

Definition LEGACY_DEPLOYMENT_SCRIPT : list Z :=
  [OP_TOALTSTACK; OP_TOALTSTACK; OP_TOALTSTACK; OP_DUP; OP_HASH256; OP_EQUALVERIFY; OP_CHECKSIGVERIFY;
   OP_CHECKSIGVERIFY; OP_HASH256; OP_EQUALVERIFY; OP_DEPTH; OP_1; OP_NUMEQUAL; OP_IF; OP_0; OP_1NEGATE; OP_ELSE;
   OP_1; OP_ENDIF].

Definition dataIncludeOPNetMagic (data : list chunk) : bool :=
  existsb (fun c => match c with Op _ => false | Data b => bool_decide (b = OPNet_MAGIC) end) data.

Definition getDataChecksum (data : list chunk) : list Z :=
  omap (fun c => match c with Op n => Some n | Data _ => None end) data.

Definition verifyChecksum (scriptData : list chunk) (typeChecksum : list Z) : bool :=
  bool_decide (getDataChecksum scriptData = typeChecksum).

(** The checks of one input; the lengths are those of hexadecimal text. *)
Definition input_is (typeChecksum : list Z) (vIn : VIn) : bool :=
  match default [] (txinwitness vIn) with
  | [_; signatureA; signatureB; rawScriptHex; controlBlock] =>
      if decide (String.length signatureA ≠ 128%nat ∨ String.length signatureB ≠ 128%nat) then false
      else if decide (String.length controlBlock ≠ 130%nat) then false
      else match decompile (fromHex rawScriptHex) with
           | Ok (Some decodedScript) => dataIncludeOPNetMagic decodedScript && verifyChecksum decodedScript typeChecksum
           | _ => false
           end
  | _ => false
  end.

Definition is_ (data : TransactionData) (typeChecksum : list Z) : option nat :=
  fst <$> list_find (fun i => input_is typeChecksum i = true) (vin data).

(** ** Features *)

Record Submission : Type := mkSubmission {
  submission_key : bytes;
  submission_salt : bytes;
  graffiti : option bytes
}.

(** What the features of a transaction set. *)
Record Decoded : Type := mkDecoded {
  accessList : option (AddressMap (list bytes));
  submission : option Submission;
  mldsaLinkRequest : option MLDSALinks.MLDSARequestData;
  wasCompressed : bool
}.

Definition no_features : Decoded := mkDecoded None None None false.

Definition decompressBuffer (b : bytes) : result tx_error (bytes * bool) :=
  if decide (take 2 b = GZIP_HEADER)
  then match unzipSync b with Some out => Ok (out, true) | None => Throw InvalidCompressedData end
  else Ok (b, false).

Definition guard_stx {S} (P : Prop) `{Decision P} (e : tx_error) : stx S tx_error unit :=
  if decide P then mret tt else sthrow e.

(** A challenge of the miners: the solutions allowed for an address, and its
    legacy key. *)
Record ChallengeSolution : Type := mkChallenges {
  solutions : AddressMap (list bytes);
  legacyPublicKeys : AddressMap bytes
}.

(** [verifyPreImage], as the factory sets it. *)
Definition verifyPreImage (allowUnsafeSignatures : bool) (allowedChallenges : ChallengeSolution) (miner : Address)
    (preimage : bytes) : result tx_error (option bytes) :=
  match m_get (solutions allowedChallenges) miner with
  | None => Throw ExpiredTransaction
  | Some hasMiner =>
      if existsb (fun challenge => bool_decide (challenge = preimage)) hasMiner
      then if allowUnsafeSignatures
           then match m_get (legacyPublicKeys allowedChallenges) miner with
                | None => Throw InvalidChallenge
                | Some k => Ok (Some k)
                end
           else Ok None
      else Throw InvalidSolution
  end.

Section Configured.
(** The consensus, whether its rules allow unsafe signatures, the height of the
    graffiti patch, the special contracts, and the block. *)
Context (C : IOPNetConsensus) (allowUnsafeSignatures : bool) (patchHeight : Z)
  (specialContract : string → option SpecialContract)
  (blockHash : string) (blockHeight : Z) (allowedChallenges : ChallengeSolution).

Definition find_level (value : Z) : option MLDSASecurityLevel :=
  snd <$> list_find (fun l => level_value l = value) (ENABLED_LEVELS (MLDSA C)).

Definition decodeMLDSALinkRequest (data : bytes) : result tx_error MLDSALinks.MLDSARequestData :=
  ((value ← lib readU8;
    match find_level value with
    | None => sthrow LevelNotEnabled
    | Some level =>
        hashedPublicKey ← lib (readBytes 32);
        _ ← guard_stx (isZero hashedPublicKey = false) EmptyHashedKey;
        verifyRequest ← lib readBoolean;
        keys ← (if verifyRequest : bool
                then let m := MLDSAMetadata.fromLevel level in
                     publicKey ← lib (readBytes (metadata_value m));
                     signature ← lib (readBytes (MLDSAMetadata.signatureLen m));
                     _ ← guard_stx (isZero publicKey = false) EmptyPublicKey;
                     mret (Some publicKey, Some signature)
                else mret (None, None));
        legacySignature ← lib (readBytes 64);
        mret (MLDSALinks.mkRequest verifyRequest keys.1 hashedPublicKey value keys.2 legacySignature)
    end) (newReader data)).2.

Definition decodeEpochSubmission (data : bytes) : result tx_error Submission :=
  if decide (32 + 32 + GRAFFITI_LENGTH (EPOCH C) < Z.of_nat (length data)) then Throw InvalidSubmissionLength
  else
    ((key ← lib (readBytes 32);
      salt ← lib (readBytes 32);
      reader ← sget;
      let left := bytesLeft reader in
      let maxLength := GRAFFITI_LENGTH (EPOCH C) in
      graffiti_ ← (if decide (0 < left)
                    then if decide (blockHeight < patchHeight)
                         then if decide (left ≤ maxLength)
                              then b ← lib (readBytesWithLength (Some left)); mret (Some b)
                              else mret None
                         else if decide (left ≤ maxLength)
                              then b ← lib (readBytes left); mret (Some b)
                              else sthrow GraffitiTooLong
                    else mret None);
      _ ← guard_stx (isZero key = false) EmptySubmissionKey;
      _ ← guard_stx (isZero salt = false) EmptySalt;
      mret (mkSubmission key salt graffiti_)) (newReader data)).2.

Fixpoint read_pointers (n : nat) : stx Reader tx_error (list bytes) :=
  match n with
  | O => mret []
  | S n' => p ← lib (readBytes 32); r ← read_pointers n'; mret (p :: r)
  end.

Fixpoint read_contracts (n : nat) (l : AddressMap (list bytes)) : stx Reader tx_error (AddressMap (list bytes)) :=
  match n with
  | O => mret l
  | S n' =>
      contract ← lib readAddress;
      match m_get l contract with
      | Some _ => sthrow AccessListUndecodable
      | None =>
          pointerLength ← lib readU32;
          storage ← read_pointers (Z.to_nat pointerLength);
          read_contracts n' (m_set l contract storage)
      end
  end.

(** The access list, and whether it was compressed. *)
Definition decodeAccessList (data : bytes) : result tx_error (AddressMap (list bytes) * bool) :=
  if negb (ENABLE_ACCESS_LIST (TRANSACTIONS C)) then Throw AccessListDisabled
  else if decide (data = []) then Ok (m_empty, false)
  else match decompressBuffer data with
  | Throw _ => Throw AccessListUndecodable
  | Ok (d, compressed) =>
      match (n ← lib readU16; read_contracts (Z.to_nat n) m_empty) (newReader d) with
      | (_, Throw _) => Throw AccessListUndecodable
      | (_, Ok l) => Ok (l, compressed)
      end
  end.

Definition decodeFeature (d : Decoded) (f : Feature) : result tx_error Decoded :=
  match opcode f with
  | ACCESS_LIST =>
      '(l, compressed) ← decodeAccessList (feature_data f);
      Ok (mkDecoded (Some l) (submission d) (mldsaLinkRequest d) (wasCompressed d || compressed))
  | EPOCH_SUBMISSION =>
      x ← decodeEpochSubmission (feature_data f);
      Ok (mkDecoded (accessList d) (Some x) (mldsaLinkRequest d) (wasCompressed d))
  | MLDSA_LINK_PUBKEY =>
      r ← decodeMLDSALinkRequest (feature_data f);
      Ok (mkDecoded (accessList d) (submission d) (Some r) (wasCompressed d))
  end.

(** [parseFeatures]: by priority. *)
Definition parseFeatures (rawFeatures : list Feature) : result tx_error Decoded :=
  rfold decodeFeature no_features (sort_by priority rawFeatures).

(** ** Transactions *)

(** The constructor of a transaction. *)
Definition construct (d : TransactionData) : result tx_error unit :=
  match blockhash d with
  | Some h => if truthy_str h && negb (h =? blockHash)%string then Throw BlockHashMismatch else Ok tt
  | None => Ok tt
  end.

Definition parseInputs (l : list VIn) : list WitnessInput :=
  map (fun v => mkInput (match vin_txid v with Some id => if truthy_str id then fromHex id else [] | None => [] end)
                  (map fromHex (default [] (txinwitness v)))) l.

(** [parseOutputs]: the script of every output is decoded. *)
Definition parseOutputs (l : list VOut) : result tx_error unit :=
  rfold (fun _ o => _ ← lib_result (decompile (fromHex (vout_hex o))); Ok tt) tt l.

(** The script of the input at [vInputIndex], in its witness. *)
Definition getParsedScript (expectedPositionInWitness vInputIndex : nat) (inputs : list WitnessInput)
  : result tx_error (list chunk) :=
  match inputs !! vInputIndex with
  | None => Throw NoInput
  | Some vIn =>
      match transactionInWitness vIn !! expectedPositionInWitness with
      | None => Throw NoScriptData
      | Some witness =>
          d ← lib_result (decompile witness);
          match d with None => Throw NoScriptData | Some s => Ok s end
      end
  end.

Definition run_parser {A} (p : parser A) (s : list chunk) : result tx_error A :=
  r ← p s; match r with None => Throw NoWitnessData | Some (a, _) => Ok a end.

Definition setMiner (miner preimage : bytes) : result tx_error (option bytes) :=
  a ← lib_result (newAddress miner); verifyPreImage allowUnsafeSignatures allowedChallenges a preimage.

(** The value of the reward output, when it pays the miner. *)
Definition verifyRewardUTXO (utxoIndex : nat) (legacy : option bytes) (outputs : list VOut) : result tx_error Z :=
  match outputs !! utxoIndex with
  | None => Ok 0
  | Some rewardOutput =>
      if negb allowUnsafeSignatures then Throw UpgradeRequired
      else match vout_address rewardOutput with
           | None => Ok 0
           | Some a =>
               if negb (truthy_str a) || negb (vout_type rewardOutput =? "witness_v0_scripthash")%string then Ok 0
               else if (a =? timeLockAddress (default [] legacy))%string then Ok (vout_value rewardOutput)
               else Ok 0
           end
  end.

(** [setGasFromHeader]: the fee for gas, and the priority fee. *)
Definition setGasFromHeader (burnedFee reward : Z) (h : OPNetHeader) : result tx_error (Z * Z) :=
  if decide (burnedFee + reward < priorityFeeSat h) then Throw PriorityFeeTooHigh
  else Ok (burnedFee + reward - priorityFeeSat h, priorityFeeSat h).

Definition setBurnedFee (o : VOut) : result tx_error Z :=
  if negb (truthy_ostr (vout_address o)) then Throw NoWitnessAddress
  else if decide (2000 < vout_value o) then Throw BurnedTooMuch
  else Ok (vout_value o).

Definition senderKey (w : SharedWitness) : bytes := publicKeyPrefix (header w) :: senderPubKey w.

Definition regenerateContractAddress (contractSecret : bytes) : result tx_error Address :=
  let len := length contractSecret in
  let first := hd 0 contractSecret in
  if negb (bool_decide (len = 32 ∨ len = 33 ∨ len = 65)%nat) then Throw InvalidContractAddress
  else if bool_decide (len = 33%nat ∧ first ≠ 2 ∧ first ≠ 3) then Throw InvalidContractAddress
  else if bool_decide (len = 65%nat ∧ first ≠ 4 ∧ first ≠ 6 ∧ first ≠ 7) then Throw InvalidContractAddress
  else if negb (isValidPublicKey (toHex contractSecret)) then Throw InvalidContractPubkey
  else lib_result (newAddress contractSecret).

(** A parsed interaction or deployment. *)
Record ParsedInteraction : Type := mkParsed {
  pi_inputs : list WitnessInput;
  pi_decoded : Decoded;
  pi_sender : bytes;
  pi_contract : Address;
  pi_miner : bytes;
  pi_preimage : bytes;
  pi_legacy : option bytes;
  pi_burnedFee : Z;
  pi_reward : Z;
  pi_gasSatFee : Z;
  pi_priorityFee : Z;
  pi_calldata : bytes;
  pi_bytecode : option bytes;
  pi_special : option SpecialContract;
  pi_wasCompressed : bool;
  (** the secret of the contract, or the salt of the deployment *)
  pi_seed : bytes
}.

Definition parse_interaction (vInputIndex : nat) (d : TransactionData) : result tx_error ParsedInteraction :=
  let inputs := parseInputs (vin d) in
  _ ← parseOutputs (vout d);
  scriptData ← getParsedScript 3 vInputIndex inputs;
  '(w, rawCalldata) ← run_parser (getInteractionWitnessData C) scriptData;
  decoded ← parseFeatures (features w);
  contractSecret ← (match inputs !! vInputIndex with
                    | Some i => match transactionInWitness i with x :: _ => Ok x | [] => Throw NoInput end
                    | None => Throw NoInput
                    end);
  if negb (bool_decide (hash256 (senderPubKey w) = hashedSenderPubKey w)) then Throw SenderHashMismatch
  else if negb (isValidLegacyPublicKey (senderKey w)) then Throw InvalidSender
  else if negb (bool_decide (hash160 contractSecret = saltHash w)) then Throw SaltHashMismatch
  else
    legacy ← setMiner (minerMLDSAPublicKey (header w)) (solution (header w));
    contract ← regenerateContractAddress contractSecret;
    reward ← verifyRewardUTXO 0 legacy (vout d);
    '(gasSatFee, priorityFee) ← setGasFromHeader 0 reward (header w);
    '(calldata, compressed) ← decompressBuffer rawCalldata;
    Ok (mkParsed inputs decoded (senderKey w) contract (minerMLDSAPublicKey (header w)) (solution (header w)) legacy 0
          reward gasSatFee priorityFee calldata None (specialContract (Address_toHex contract))
          (wasCompressed decoded || compressed) contractSecret).

(** The features the deployer committed to (getFeatures). *)
Definition getFeatures (d : Decoded) : list Features :=
  (match submission d with Some _ => [EPOCH_SUBMISSION] | None => [] end) ++
  (match mldsaLinkRequest d with Some _ => [MLDSA_LINK_PUBKEY] | None => [] end).

(** The address of the output that names the contract (decodeAddress). *)
Definition decodeAddress (outputs : list VOut) : result tx_error (VOut * option string) :=
  match outputs with
  | [] => Throw NoOutput
  | o :: _ => if String.prefix "60" (vout_hex o) then Ok (o, p2op_address (vout_hex o)) else Throw NoOutput
  end.

Definition getOriginalContractAddress (deployer salt bytecode : bytes) (calldata : option bytes) (preimage : bytes)
    (priorityFee : Z) (d : Decoded) (controlBlock : bytes) : result tx_error unit :=
  let calldata_ := match calldata with Some (_ :: _ as c) => Some c | _ => None end in
  match verifyControlBlock deployer salt bytecode calldata_ preimage priorityFee (getFeatures d) controlBlock with
  | Ok true => Ok tt
  | _ => Throw InvalidControlBlock
  end.

(** [decompress]: the bytecode, its version, and the calldata. *)
Definition decompress (bytecode : bytes) (calldata : option bytes) : result tx_error (bytes * bytes * bool) :=
  '(code, c1) ← decompressBuffer bytecode;
  if decide (CURRENT_DEPLOYMENT_VERSION (VM C) < hd 0 code) then Throw VersionNotSupported
  else match calldata with
       | None => Ok (code, [], c1)
       | Some c => '(data, c2) ← decompressBuffer c; Ok (code, data, c1 || c2)
       end.

Definition parse_deployment (vInputIndex : nat) (d : TransactionData) : result tx_error ParsedInteraction :=
  let inputs := parseInputs (vin d) in
  _ ← parseOutputs (vout d);
  scriptData ← getParsedScript 3 vInputIndex inputs;
  '(w, rawCalldata, rawBytecode) ← run_parser (getDeploymentWitnessData C) scriptData;
  decoded ← parseFeatures (features w);
  match inputs !! vInputIndex, inputs with
  | None, _ | _, [] => Throw NoInput
  | Some input, input0 :: _ =>
      if decide (input_id input = []) then Throw NoInputTransactionId
      else
        let originalSalt := hd [] (transactionInWitness input) in
        if negb (bool_decide (hash256 (senderPubKey w) = hashedSenderPubKey w)) then Throw SenderHashMismatch
        else if negb (isValidLegacyPublicKey (senderKey w)) then Throw InvalidSender
        else if bool_decide (length originalSalt < 32 ∨ 128 < length originalSalt)%nat then Throw InvalidSaltLength
        else if negb (bool_decide (hash256 originalSalt = saltHash w)) then Throw SaltHashMismatch
        else
          let seed := getContractSeed (senderPubKey w) rawBytecode (saltHash w) in
          contract ← lib_result (newAddress seed);
          if negb (bool_decide (seedSigner seed = Some (saltPubKey w))) then Throw InvalidSigner
          else
            legacy ← setMiner (minerMLDSAPublicKey (header w)) (solution (header w));
            _ ← getOriginalContractAddress (senderKey w) originalSalt rawBytecode rawCalldata (solution (header w))
                  (priorityFeeSat (header w)) decoded (List.last (transactionInWitness input0) []);
            '(outputWitness, decodedAddress) ← decodeAddress (vout d);
            if negb (bool_decide (decodedAddress = Some (p2op contract))) then Throw InvalidContractAddress
            else
              burnedFee ← setBurnedFee outputWitness;
              reward ← verifyRewardUTXO 1 legacy (vout d);
              '(gasSatFee, priorityFee) ← setGasFromHeader burnedFee reward (header w);
              '(bytecode, calldata, compressed) ← decompress rawBytecode rawCalldata;
              Ok (mkParsed inputs decoded (senderKey w) contract (minerMLDSAPublicKey (header w)) (solution (header w))
                    legacy burnedFee reward gasSatFee priorityFee calldata (Some bytecode) None
                    (wasCompressed decoded || compressed) originalSalt)
  end.

(** ** TransactionFactory *)

(** The types are tried in the order of PossibleOPNetTransactions. *)
Definition getTransactionType (d : TransactionData) : OPNetTransactionTypes * nat :=
  if decide (version d ≠ 2) then (Generic, O)
  else match is_ d LEGACY_INTERACTION with
       | Some i => (Interaction, i)
       | None => match is_ d LEGACY_DEPLOYMENT_SCRIPT with
                 | Some i => (Deployment, i)
                 | None => (Generic, O)
                 end
       end.

Record ParsedTransaction : Type := mkParsedTransaction {
  pt_type : OPNetTransactionTypes;
  pt_id : string;
  pt_inputs : list WitnessInput;
  pt_body : option ParsedInteraction
}.

Definition parseGeneric (d : TransactionData) : result tx_error ParsedTransaction :=
  _ ← construct d; _ ← parseOutputs (vout d); Ok (mkParsedTransaction Generic (txid d) (parseInputs (vin d)) None).

Definition parseTransaction (d : TransactionData) : result tx_error ParsedTransaction :=
  let '(type, index) := getTransactionType d in
  _ ← construct d;
  match type with
  | Generic => parseGeneric d
  | Interaction => p ← parse_interaction index d; Ok (mkParsedTransaction Interaction (txid d) (pi_inputs p) (Some p))
  | Deployment => p ← parse_deployment index d; Ok (mkParsedTransaction Deployment (txid d) (pi_inputs p) (Some p))
  end.
End Configured.
End TransactionParsing.
