(* ===== verification/TransactionParsingFacts.v ===== *)
(** * What the parser of transactions accepts

    The scripts of interactions and deployments have one layout each; a
    transaction that is accepted has a solved challenge, a sender that matches its
    hash, and a fee that covers its priority fee. *)

From S2P Require Import Prelude ConsensusRules Consensus Gas TransactionSorter Evaluation MLDSA MLDSAMetadata TransactionParsing.

(** ** Parsers *)

Lemma bind_Some {A B} (p : parser A) (k : A → parser B) s b s'' :
  (p ≫= k) s = Ok (Some (b, s'')) ↔ ∃ a s', p s = Ok (Some (a, s')) ∧ k a s' = Ok (Some (b, s'')).
Proof.
  unfold mbind, parser_bind. split.
  - destruct (p s) as [[[a s']|]|]; [|done..]. intros E. by exists a, s'.
  - intros (a & s' & -> & E). done.
Qed.

Lemma ret_Some {A} (a b : A) s s' : (mret a : parser A) s = Ok (Some (b, s')) ↔ a = b ∧ s = s'.
Proof. unfold mret, parser_ret. split; [by intros [= -> ->]|by intros [-> ->]]. Qed.

Lemma op_Some n s x s' : op n s = Ok (Some (x, s')) ↔ s = Op n :: s'.
Proof.
  destruct x. unfold op. split.
  - destruct s as [|[m|b] s]; [done| |done]. case_decide; [|done]. intros [= ->]. by subst.
  - intros ->. by rewrite decide_True.
Qed.

Lemma data_of_Some len s b s' : data_of len s = Ok (Some (b, s')) ↔ s = Data b :: s' ∧ Z.of_nat (length b) = len.
Proof.
  unfold data_of. split.
  - destruct s as [|[m|c] s]; [done..|]. case_decide; [|done]. by intros [= -> ->].
  - intros [-> E]. by rewrite decide_True.
Qed.

Lemma of_result_Some {A} (r : result tx_error A) s a s' : of_result r s = Ok (Some (a, s')) ↔ r = Ok a ∧ s = s'.
Proof. unfold of_result. destruct r; split; [by intros [= -> ->]|by intros [[= ->] ->]|done|by intros []]. Qed.

(** Reads a parser from its end: what was consumed is the front of the script. *)
Ltac parsed :=
  repeat match goal with
  | H : (_ ≫= _) _ = Ok (Some (_, _)) |- _ => apply bind_Some in H as (? & ? & ? & H)
  | H : mret _ _ = Ok (Some (_, _)) |- _ => apply ret_Some in H as [? ?]
  | H : op _ _ = Ok (Some (_, _)) |- _ => apply op_Some in H
  | H : data_of _ _ = Ok (Some (_, _)) |- _ => apply data_of_Some in H as [? ?]
  | H : of_result _ _ = Ok (Some (_, _)) |- _ => apply of_result_Some in H as [? ?]
  end.

(** ... and the other way: a script with the layout is consumed. *)
Ltac consume :=
  repeat first
  [ apply bind_Some; exists tt; eexists; split; [apply op_Some; reflexivity|]
  | apply bind_Some; eexists _, _; split; [apply data_of_Some; split; [reflexivity|eassumption]|]
  | apply ret_Some; split; reflexivity ].

Section Layout.
Context {LB : BtcLib} {LV : @VMLib LB} {LT : @TxLib LB LV}.
Context (C : IOPNetConsensus).

Lemma magic_Some s x s' : magic s = Ok (Some (x, s')) ↔ s = Data OPNet_MAGIC :: s'.
Proof.
  destruct x. unfold magic. split.
  - destruct s as [|[n|b] s]; [done..|]. case_decide as Hb; [|done]. destruct Hb as [_ ->]. by intros [= ->].
  - intros ->. by rewrite decide_True.
Qed.

(** A run of data. *)
Definition datas (l : list bytes) : list chunk := Data <$> l.

(** What stops a run of data. *)
Definition stops (s : list chunk) : Prop := match s with Data _ :: _ => False | _ => True end.
Definition stops_at (n : Z) (s : list chunk) : Prop := match s with [] => True | Op m :: _ => m = n | Data _ :: _ => False end.

Definition joined (data : option bytes) (l : list bytes) : option bytes :=
  match data, l with None, [] => None | _, _ => Some (default [] data ++ concat l) end.

Lemma joined_cons data b l : joined (Some (default [] data ++ b)) l = joined data (b :: l).
Proof. destruct data; cbn; by rewrite <- ?app_assoc. Qed.

Lemma getDataFromScript_Some n data s out s' :
  getDataFromScript n data s = Ok (Some (out, s')) ↔ ∃ l, s = datas l ++ s' ∧ stops_at n s' ∧ out = joined data l.
Proof.
  revert data. induction s as [|[m|b] s IH]; intros data; cbn.
  - split.
    + intros [= <- <-]. exists []. destruct data; cbn; rewrite ?app_nil_r; auto.
    + intros ([|b l] & E & _ & ->); [|done]. destruct s'; [|done]. destruct data; cbn; by rewrite ?app_nil_r.
  - case_decide as Hm.
    + split.
      * intros [= <- <-]. exists []. destruct data; cbn; rewrite ?app_nil_r; auto.
      * intros ([|b l] & E & _ & ->); [|done]. cbn in E. subst. destruct data; cbn; by rewrite ?app_nil_r.
    + split; [done|]. intros ([|b l] & E & Hs & _); [|done]. cbn in E. by subst.
  - rewrite IH. split.
    + intros (l & -> & Hs & ->). exists (b :: l). by rewrite joined_cons.
    + intros ([|c l] & E & Hs & ->); cbn in E; [by subst|]. injection E as -> ->. exists l. by rewrite joined_cons.
Qed.

Lemma getDataUntilBufferEnd_spec data s out s' :
  getDataUntilBufferEnd data s = (out, s') ↔ ∃ l, s = datas l ++ s' ∧ stops s' ∧ out = joined data l.
Proof.
  revert data. induction s as [|[m|b] s IH]; intros data; cbn.
  - split.
    + intros [= <- <-]. exists []. destruct data; cbn; rewrite ?app_nil_r; auto.
    + intros ([|b l] & E & _ & ->); [|done]. destruct s'; [|done]. destruct data; cbn; by rewrite ?app_nil_r.
  - split.
    + intros [= <- <-]. exists []. destruct data; cbn; rewrite ?app_nil_r; auto.
    + intros ([|b l] & E & _ & ->); [|done]. cbn in E. subst. destruct data; cbn; by rewrite ?app_nil_r.
  - rewrite IH. split.
    + intros (l & -> & Hs & ->). exists (b :: l). by rewrite joined_cons.
    + intros ([|c l] & E & Hs & ->); cbn in E; [by subst|]. injection E as -> ->. exists l. by rewrite joined_cons.
Qed.

(** The chunks [fs] hold the features that the flags of the header announce. *)
Definition features_in (h : OPNetHeader) (fs : list bytes) (l : list Feature) : Prop :=
  match decodeFlags h with
  | [] => fs = [] ∧ l = []
  | features => fs ≠ [] ∧ (read_features features (newReader (concat fs))).2 = Ok l
  end.

Lemma decodeFeatures_Some h s l s' :
  decodeFeatures h s = Ok (Some (l, s')) ↔
  ∃ fs, s = datas fs ++ s' ∧ features_in h fs l ∧ (decodeFlags h ≠ [] → stops s').
Proof.
  unfold decodeFeatures, features_in. destruct (decodeFlags h) as [|f fl] eqn:E.
  - split; [intros [= <- <-]; by exists []|]. by intros (fs & -> & [-> ->] & _).
  - destruct (getDataUntilBufferEnd None s) as [out s1] eqn:Eg.
    pose proof (proj1 (getDataUntilBufferEnd_spec _ _ _ _) Eg) as (fs & -> & Hs & ->). split.
    + destruct fs as [|b fs]; [done|]. cbn [joined default]. rewrite app_nil_l.
      destruct (read_features _ _) as [r [l'|]] eqn:Er; [|done]. intros [= <- <-]. exists (b :: fs).
      split; [done|]. split; [split; [done|]; by rewrite Er|done].
    + intros (gs & Egs & [Hne Hr] & Hst). specialize (Hst ltac:(done)).
      assert (getDataUntilBufferEnd None (datas fs ++ s1) = (joined None gs, s')) as E2.
      { apply getDataUntilBufferEnd_spec. by exists gs. }
      rewrite Eg in E2. assert (joined None fs = joined None gs) as Ej by congruence. assert (s1 = s') as -> by congruence.
      destruct gs as [|g gs]; [done|]. rewrite Ej. cbn [joined default]. rewrite app_nil_l.
      destruct (read_features _ (newReader (concat (g :: gs)))) as [r [l'|]]; cbn in Hr; by simplify_eq.
Qed.

(** What both kinds of scripts start with. *)
Definition shared_script (hash_opcode : Z) (header_bytes : bytes) (w : SharedWitness) : list chunk :=
  [Data header_bytes; Op OP_TOALTSTACK; Data (minerMLDSAPublicKey (header w)); Op OP_TOALTSTACK;
   Data (solution (header w)); Op OP_TOALTSTACK; Data (senderPubKey w); Op OP_DUP; Op OP_HASH256;
   Data (hashedSenderPubKey w); Op OP_EQUALVERIFY; Op OP_CHECKSIGVERIFY; Data (saltPubKey w); Op OP_CHECKSIGVERIFY;
   Op hash_opcode; Data (saltHash w); Op OP_EQUALVERIFY; Op OP_DEPTH; Op OP_1; Op OP_NUMEQUAL; Op OP_IF;
   Data OPNet_MAGIC].

Record shared_ok (hash_length : Z) (header_bytes : bytes) (w : SharedWitness) : Prop := {
  so_header : newHeader header_bytes (minerMLDSAPublicKey (header w)) (solution (header w)) = Ok (header w);
  so_header_length : Z.of_nat (length header_bytes) = EXPECTED_HEADER_LENGTH;
  so_miner : Z.of_nat (length (minerMLDSAPublicKey (header w))) = 32;
  so_solution : Z.of_nat (length (solution (header w))) = PREIMAGE_LENGTH C;
  so_sender : Z.of_nat (length (senderPubKey w)) = 32;
  so_hashed : Z.of_nat (length (hashedSenderPubKey w)) = 32;
  so_salt : Z.of_nat (length (saltPubKey w)) = 32;
  so_hash : Z.of_nat (length (saltHash w)) = hash_length
}.

Lemma newHeader_keys b m s h : newHeader b m s = Ok h → minerMLDSAPublicKey h = m ∧ solution h = s.
Proof.
  unfold newHeader. match goal with |- match ?x with _ => _ end = _ → _ => destruct x as [r [[[|p [|b1 [|b2 [|b3 rest]]]] fee]|]] end; try done.
  case_decide; [done|]. by intros [= <-].
Qed.

Lemma shared_witness_Some hash_opcode hash_length s w s' :
  shared_witness C hash_opcode hash_length s = Ok (Some (w, s')) ↔
  ∃ header_bytes fs, shared_ok hash_length header_bytes w ∧ features_in (header w) fs (features w) ∧
    (decodeFlags (header w) ≠ [] → stops s') ∧ s = shared_script hash_opcode header_bytes w ++ datas fs ++ s'.
Proof.
  unfold shared_witness, decodeOPNetHeader. split.
  - intros H. parsed. subst.
    repeat match goal with
    | H : magic _ = Ok (Some _) |- _ => apply magic_Some in H; subst
    | H : decodeFeatures _ _ = Ok (Some _) |- _ => apply decodeFeatures_Some in H as (fs & -> & ? & ?)
    end.
    match goal with H : newHeader _ _ _ = Ok _ |- _ => pose proof (newHeader_keys _ _ _ _ H) as [Em Es] end.
    eexists _, fs. cbn -[EXPECTED_HEADER_LENGTH]. unfold shared_script. cbn -[EXPECTED_HEADER_LENGTH]. rewrite Em, Es. split; [|done].
    split; cbn -[EXPECTED_HEADER_LENGTH]; by rewrite ?Em, ?Es.
  - intros (hb & fs & [] & Hf & Hst & ->). unfold shared_script. cbn [app].
    apply bind_Some. eexists _, _. split; [consume; apply of_result_Some; split; [eassumption|reflexivity]|].
    consume. apply bind_Some. exists tt. eexists. split; [by apply magic_Some|].
    apply bind_Some. eexists _, _. split; [apply decodeFeatures_Some; exists fs; by split|].
    apply ret_Some. by destruct w.
Qed.

Lemma getDataFromScript_chunks n s out s' :
  getDataFromScript n None s = Ok (Some (out, s')) ↔
  ∃ l, s = datas l ++ s' ∧ stops_at n s' ∧ out = match l with [] => None | _ => Some (concat l) end.
Proof.
  rewrite getDataFromScript_Some. split; intros (l & -> & Hs & ->); exists l; (split; [done|]); (split; [done|]);
    by destruct l.
Qed.

(** The script of an interaction: its calldata [cs], and what is left of it. *)
Definition interaction_script (header_bytes : bytes) (w : SharedWitness) (fs cs : list bytes) (rest : list chunk)
  : list chunk :=
  shared_script OP_HASH160 header_bytes w ++ datas fs ++ [Op OP_1NEGATE] ++ datas cs ++ rest.

Definition deployment_script (header_bytes : bytes) (w : SharedWitness) (fs cs bs : list bytes) (rest : list chunk)
  : list chunk :=
  shared_script OP_HASH256 header_bytes w ++ datas fs ++ [Op OP_0] ++ datas cs ++ [Op OP_1NEGATE] ++ datas bs ++ rest.

Lemma interaction_decoded s w calldata rest :
  getInteractionWitnessData C s = Ok (Some ((w, calldata), rest)) →
  ∃ header_bytes fs cs,
    s = interaction_script header_bytes w fs cs rest ∧
    shared_ok 20 header_bytes w ∧ features_in (header w) fs (features w) ∧
    cs ≠ [] ∧ calldata = concat cs ∧ stops_at OP_ELSE rest ∧
    Z.of_nat (length calldata) ≤ MAXIMUM_CALLDATA_SIZE_COMPRESSED (CONTRACTS C).
Proof.
  unfold getInteractionWitnessData, getInteractionWitnessDataHeader, interaction_script.
  intros H. apply bind_Some in H as (w1 & s1 & H1 & H). apply bind_Some in H1 as (w2 & s2 & H2 & H1). parsed. subst.
  apply shared_witness_Some in H2 as (hb & fs & Hok & Hf & _ & ->).
  match goal with H : getDataFromScript _ _ _ = _ |- _ => apply getDataFromScript_chunks in H as (cs & -> & Hs & ->) end.
  destruct cs as [|c cs]; [parsed; done|]. unfold too_long in H. case_bool_decide as Hlen; parsed; simplify_eq.
  exists hb, fs, (c :: cs). split; [done|]. split; [done|]. split; [done|]. split; [done|]. split; [done|]. split; [done|lia].
Qed.

Lemma deployment_decoded s w calldata bytecode rest :
  getDeploymentWitnessData C s = Ok (Some ((w, calldata, bytecode), rest)) →
  ∃ header_bytes fs cs bs,
    s = deployment_script header_bytes w fs cs bs rest ∧
    shared_ok 32 header_bytes w ∧ features_in (header w) fs (features w) ∧
    calldata = match cs with [] => None | _ => Some (concat cs) end ∧
    (cs ≠ [] → Z.of_nat (length (concat cs)) ≤ MAXIMUM_CALLDATA_SIZE_COMPRESSED (CONTRACTS C)) ∧
    bs ≠ [] ∧ bytecode = concat bs ∧ stops_at OP_ELSE rest ∧
    Z.of_nat (length bytecode) ≤ MAXIMUM_CONTRACT_SIZE_COMPRESSED (CONTRACTS C).
Proof.
  unfold getDeploymentWitnessData, deployment_script.
  intros H. apply bind_Some in H as (w1 & s1 & H1 & H). apply shared_witness_Some in H1 as (hb & fs & Hok & Hf & _ & ->).
  apply bind_Some in H as ([] & s2 & H2 & H). parsed. subst.
  match goal with H : getDataFromScript OP_1NEGATE _ _ = _ |- _ => apply getDataFromScript_chunks in H as (cs & -> & Hs3 & ->) end.
  match type of H with (if ?b then _ else _) _ = _ => destruct b eqn:Hc end; parsed; [done|]. subst.
  match goal with H : getDataFromScript _ _ _ = _ |- _ => apply getDataFromScript_chunks in H as (bs & -> & Hs4 & ->) end.
  destruct bs as [|b bs]; [parsed; done|]. unfold too_long in *. case_bool_decide as Hlen; parsed; simplify_eq.
  exists hb, fs, cs, (b :: bs). split; [done|]. split; [done|]. split; [done|]. split; [done|].
  assert (cs ≠ [] → Z.of_nat (length (concat cs)) ≤ MAXIMUM_CALLDATA_SIZE_COMPRESSED (CONTRACTS C)) as Hle.
  { destruct cs; [done|]. intros _. apply bool_decide_eq_false in Hc. lia. }
  split; [done|]. split; [done|]. split; [done|]. split; [done|lia].
Qed.

(** C34: the script of an interaction has one layout.  A script is decoded to a
    sender, hashes, features and calldata exactly when it is, from its front, the
    header with the challenge, the key of the sender with its hash, the salt key
    with the hash of the secret, the magic, the chunks of the features its flags
    announce, and the chunks of the calldata up to OP_ELSE, each of its length. *)
Theorem interaction_script_layout s w calldata rest :
  getInteractionWitnessData C s = Ok (Some ((w, calldata), rest)) ↔
  ∃ header_bytes fs cs,
    s = interaction_script header_bytes w fs cs rest ∧
    shared_ok 20 header_bytes w ∧ features_in (header w) fs (features w) ∧
    cs ≠ [] ∧ calldata = concat cs ∧ stops_at OP_ELSE rest ∧
    Z.of_nat (length calldata) ≤ MAXIMUM_CALLDATA_SIZE_COMPRESSED (CONTRACTS C).
Proof.
  split; [apply interaction_decoded|]. unfold getInteractionWitnessData, getInteractionWitnessDataHeader, interaction_script.
  intros (hb & fs & cs & -> & Hok & Hf & Hcs & -> & Hs & Hlen).
  apply bind_Some. eexists _, _. split.
  + apply bind_Some. eexists _, _. split; [apply shared_witness_Some; exists hb, fs; split; [exact Hok|]; split; [exact Hf|]; split; [|reflexivity]; done|].
    cbn [app]. consume.
  + apply bind_Some. eexists _, _. split; [apply getDataFromScript_chunks; by exists cs|].
    destruct cs as [|c cs]; [done|]. unfold too_long. rewrite bool_decide_false by lia. consume.
Qed.

(** the script of a deployment has one layout: as an interaction with a
    32-byte hash of the salt, then OP_0, the chunks of the calldata if any,
    OP_1NEGATE and the chunks of the bytecode up to OP_ELSE. *)
Theorem deployment_script_layout s w calldata bytecode rest :
  getDeploymentWitnessData C s = Ok (Some ((w, calldata, bytecode), rest)) ↔
  ∃ header_bytes fs cs bs,
    s = deployment_script header_bytes w fs cs bs rest ∧
    shared_ok 32 header_bytes w ∧ features_in (header w) fs (features w) ∧
    calldata = match cs with [] => None | _ => Some (concat cs) end ∧
    (cs ≠ [] → Z.of_nat (length (concat cs)) ≤ MAXIMUM_CALLDATA_SIZE_COMPRESSED (CONTRACTS C)) ∧
    bs ≠ [] ∧ bytecode = concat bs ∧ stops_at OP_ELSE rest ∧
    Z.of_nat (length bytecode) ≤ MAXIMUM_CONTRACT_SIZE_COMPRESSED (CONTRACTS C).
Proof.
  split; [apply deployment_decoded|]. unfold getDeploymentWitnessData, deployment_script.
  intros (hb & fs & cs & bs & -> & Hok & Hf & -> & Hle & Hbs & -> & Hs & Hlen).
  apply bind_Some. eexists _, _. split; [apply shared_witness_Some; exists hb, fs; split; [exact Hok|]; split; [exact Hf|]; split; [|reflexivity]; done|]. cbn [app]. consume.
  apply bind_Some. eexists _, _. split; [apply getDataFromScript_chunks; by exists cs|]. unfold too_long.
  match goal with |- (if ?b then _ else _) _ = _ => assert (b = false) as -> end.
  { destruct cs; [done|]. apply bool_decide_eq_false. specialize (Hle ltac:(done)). lia. }
  consume. apply bind_Some. eexists _, _. split; [apply getDataFromScript_chunks; by exists bs|].
  destruct bs as [|b bs]; [done|]. rewrite bool_decide_false by lia. consume.
Qed.
End Layout.

(** ** Types of transactions *)

Section Types.
Context {LB : BtcLib} {LV : @VMLib LB} {LT : @TxLib LB LV}.

Lemma getDataChecksum_app s s' : getDataChecksum (s ++ s') = getDataChecksum s ++ getDataChecksum s'.
Proof. apply omap_app. Qed.

Lemma getDataChecksum_datas l : getDataChecksum (datas l) = [].
Proof. induction l; [done|exact IHl]. Qed.

Lemma is_spec d ops i :
  is_ d ops = Some i → ∃ v, vin d !! i = Some v ∧ input_is ops v = true.
Proof. intros ([j v] & (Hj & Hv & _)%list_find_Some & ->)%fmap_Some. by exists v. Qed.

(** An input has a type when its witness has five elements, two of them of the
    length of a signature, and its script has the opcodes of the type. *)
Lemma input_is_spec ops v :
  input_is ops v = true →
  ∃ secret signatureA signatureB raw controlBlock s,
    txinwitness v = Some [secret; signatureA; signatureB; raw; controlBlock] ∧
    decompile (fromHex raw) = Ok (Some s) ∧ getDataChecksum s = ops.
Proof.
  unfold input_is. destruct (txinwitness v) as [l|]; [|done]. cbn [default from_option id].
  destruct l as [|secret [|sa [|sb [|raw [|cb [|? ?]]]]]]; try done.
  destruct (decide _); [done|]. destruct (decide _); [done|]. destruct (decompile (fromHex raw)) as [[s|]|] eqn:Ed; try done.
  intros (_ & Hc)%andb_true_iff. apply bool_decide_eq_true in Hc. by exists secret, sa, sb, raw, cb, s.
Qed.

Lemma checksum_rest hb w fs cs rest :
  getDataChecksum (interaction_script hb w fs cs rest) = LEGACY_INTERACTION →
  getDataChecksum rest = [OP_ELSE; OP_1; OP_ENDIF].
Proof.
  unfold interaction_script. rewrite !getDataChecksum_app, !getDataChecksum_datas. cbn -[getDataChecksum datas].
  unfold shared_script. cbn. intros E. by injection E.
Qed.

Lemma deployment_checksum_rest hb w fs cs bs rest :
  getDataChecksum (deployment_script hb w fs cs bs rest) = LEGACY_DEPLOYMENT_SCRIPT →
  getDataChecksum rest = [OP_ELSE; OP_1; OP_ENDIF].
Proof.
  unfold deployment_script. rewrite !getDataChecksum_app, !getDataChecksum_datas. unfold shared_script. cbn.
  intros E. by injection E.
Qed.

Lemma input_one_type v : input_is LEGACY_INTERACTION v = true → input_is LEGACY_DEPLOYMENT_SCRIPT v = false.
Proof.
  intros (a & b & c & r & e & s & Ew & Ed & Es)%input_is_spec. apply not_true_iff_false.
  intros (a' & b' & c' & r' & e' & s' & Ew' & Ed' & Es')%input_is_spec.
  assert (r' = r) as -> by congruence. assert (s' = s) as -> by congruence.
  rewrite Es in Es'. by apply (f_equal length) in Es'.
Qed.
End Types.

Section Accepted.
Context {LB : BtcLib} {LV : @VMLib LB} {LT : @TxLib LB LV}.
Context (C : IOPNetConsensus) (unsafe : bool) (patchHeight : Z) (specialContract : string → option SpecialContract)
  (blockHash : string) (blockHeight : Z) (allowed : ChallengeSolution).

Abbreviation parse := (parseTransaction C unsafe patchHeight specialContract blockHash blockHeight allowed).
Abbreviation parse_interaction_ := (parse_interaction C unsafe patchHeight specialContract blockHeight allowed).
Abbreviation parse_deployment_ := (parse_deployment C unsafe patchHeight blockHeight allowed).

Lemma bind_Ok {E A B} (r : result E A) (k : A → result E B) b :
  (r ≫= k) = Ok b ↔ ∃ a, r = Ok a ∧ k a = Ok b.
Proof. destruct r; cbn; split; [eauto|by intros (? & [= ->] & ?)|done|by intros (? & ? & _)]. Qed.

Lemma run_parser_Ok {A} (p : parser A) s a : run_parser p s = Ok a → ∃ s', p s = Ok (Some (a, s')).
Proof. unfold run_parser. destruct (p s) as [[[x s']|]|]; cbn; [|done..]. intros [= ->]. by exists s'. Qed.

Lemma lib_result_Ok {A} (r : result string A) a : lib_result r = Ok a → r = Ok a.
Proof. destruct r; [by intros [= ->]|done]. Qed.

Lemma getParsedScript_Ok n i inputs s :
  getParsedScript n i inputs = Ok s →
  ∃ input w, inputs !! i = Some input ∧ transactionInWitness input !! n = Some w ∧ decompile w = Ok (Some s).
Proof.
  unfold getParsedScript. destruct (inputs !! i) as [input|]; [|done].
  destruct (transactionInWitness input !! n) as [w|] eqn:Ew; [|done].
  intros (d & Hd%lib_result_Ok & H)%bind_Ok. destruct d; [|done]. injection H as ->. by exists input, w.
Qed.

(** The challenge of an accepted transaction was allowed to its miner. *)
Definition solved (miner preimage : bytes) : Prop :=
  ∃ a l, newAddress miner = Ok a ∧ m_get (solutions allowed) a = Some l ∧ preimage ∈ l.

(** The key of the miner, which the rules that allow its signatures know. *)
Definition miner_key (miner : bytes) (legacy : option bytes) : Prop :=
  if unsafe then ∃ a k, newAddress miner = Ok a ∧ m_get (legacyPublicKeys allowed) a = Some k ∧ legacy = Some k
  else legacy = None.

Lemma setMiner_Ok miner preimage legacy :
  setMiner unsafe allowed miner preimage = Ok legacy → solved miner preimage ∧ miner_key miner legacy.
Proof.
  unfold setMiner, verifyPreImage, miner_key. intros (a & Ha%lib_result_Ok & H)%bind_Ok.
  destruct (m_get (solutions allowed) a) as [l|] eqn:El; [|done]. destruct (existsb _ l) eqn:Ex; [|done].
  apply existsb_exists in Ex as (x & Hx & ->%bool_decide_eq_true). split; [exists a, l; by rewrite list_elem_of_In|].
  destruct unsafe; [|congruence]. destruct (m_get (legacyPublicKeys allowed) a) as [k|] eqn:Ek; [|done]. exists a, k. split; [done|]. split; [done|congruence].
Qed.

(** An output that pays the miner of a challenge: to the address of its time
    lock, which is a witness script. *)
Definition pays_miner (miner : bytes) (o : VOut) : Prop :=
  vout_type o = "witness_v0_scripthash" ∧
  ∃ a k, newAddress miner = Ok a ∧ m_get (legacyPublicKeys allowed) a = Some k ∧
    vout_address o = Some (timeLockAddress k) ∧ timeLockAddress k ≠ "".

(** The reward counts the output at an index when it pays the miner, and is
    nothing when it does not, or when there is no such output. *)
Definition rewarded (outputs : list VOut) (index : nat) (miner : bytes) (reward : Z) : Prop :=
  match outputs !! index with
  | Some o => (pays_miner miner o → reward = vout_value o) ∧ (¬ pays_miner miner o → reward = 0)
  | None => reward = 0
  end.

Lemma verifyRewardUTXO_Ok i miner legacy outputs reward :
  miner_key miner legacy → verifyRewardUTXO unsafe i legacy outputs = Ok reward → rewarded outputs i miner reward.
Proof.
  unfold verifyRewardUTXO, rewarded, miner_key. destruct (outputs !! i) as [o|]; [|by intros _ [= <-]].
  destruct unsafe; [|done]. cbn [negb]. intros (a & k & Ha & Hk & ->) H. unfold pays_miner. cbn [default] in H.
  assert (∀ P : Prop, ¬ P → reward = 0 → (P → reward = vout_value o) ∧ (¬ P → reward = 0)) as Hno by done.
  destruct (vout_address o) as [b|] eqn:Hb; [|injection H as <-; apply Hno; [by intros (_ & ? & ? & _ & _ & ? & _)|done]].
  destruct (truthy_str b) eqn:Ht; cbn in H; [|injection H as <-; apply Hno; [|done]; intros (_ & ? & ? & _ & _ & [= ->] & Hne);
    unfold truthy_str in Ht; by destruct (timeLockAddress _)].
  destruct (vout_type o =? _)%string eqn:Hty; cbn in H; [apply String.eqb_eq in Hty|apply String.eqb_neq in Hty; injection H as <-; apply Hno; [by intros [? _]|done]].
  destruct (b =? _)%string eqn:Hbk; injection H as <-; [apply String.eqb_eq in Hbk as ->|apply String.eqb_neq in Hbk; apply Hno; [|done]; intros (_ & ? & ? & ? & ? & ? & _); congruence].
  split; [done|]. intros []. split; [done|]. exists a, k. split; [done|]. split; [done|]. split; [done|]. by intros Hne; rewrite Hne in Ht.
Qed.

Lemma setGasFromHeader_Ok burned reward h g p :
  setGasFromHeader burned reward h = Ok (g, p) → g + p = burned + reward ∧ 0 ≤ g ∧ p = priorityFeeSat h.
Proof. unfold setGasFromHeader. case_decide; [done|]. intros [= <- <-]. lia. Qed.

Lemma regenerate_Ok secret a : regenerateContractAddress secret = Ok a → newAddress secret = Ok a.
Proof. unfold regenerateContractAddress. repeat case_match; try done. apply lib_result_Ok. Qed.

(** Reads a sequence of checks from its start. *)
Ltac checks H :=
  repeat match type of H with
  | _ ≫= _ = Ok _ => let x := fresh "x" in let Hx := fresh "Hx" in apply bind_Ok in H as (x & Hx & H)
  | (if negb (bool_decide ?P) then Throw _ else _) = Ok _ =>
      let Hc := fresh "Hc" in destruct (bool_decide P) eqn:Hc; cbn [negb] in H; [|discriminate H];
      apply bool_decide_eq_true in Hc
  | (if bool_decide ?P then Throw _ else _) = Ok _ =>
      let Hc := fresh "Hc" in destruct (bool_decide P) eqn:Hc; [discriminate H|]; apply bool_decide_eq_false in Hc
  | (if negb ?b then Throw _ else _) = Ok _ =>
      let Hc := fresh "Hc" in destruct b eqn:Hc; cbn [negb] in H; [|discriminate H]
  | (let '(_, _) := ?p in _) = Ok _ => destruct p
  | (if decide ?P then Throw _ else _) = Ok _ => let Hc := fresh "Hc" in destruct (decide P) as [?|Hc]; [discriminate H|]
  end.

Lemma parse_interaction_Ok i d p :
  parse_interaction_ i d = Ok p →
  ∃ input secret raw s w data rest,
    parseInputs (vin d) !! i = Some input ∧ transactionInWitness input !! 0%nat = Some secret ∧
    transactionInWitness input !! 3%nat = Some raw ∧ decompile raw = Ok (Some s) ∧
    getInteractionWitnessData C s = Ok (Some ((w, data), rest)) ∧
    hash256 (senderPubKey w) = hashedSenderPubKey w ∧ hash160 secret = saltHash w ∧
    newAddress secret = Ok (pi_contract p) ∧ solved (minerMLDSAPublicKey (header w)) (solution (header w)) ∧
    pi_preimage p = solution (header w) ∧ pi_miner p = minerMLDSAPublicKey (header w) ∧ pi_sender p = senderKey w ∧
    (∃ c, decompressBuffer data = Ok (pi_calldata p, c)) ∧
    pi_burnedFee p = 0 ∧ pi_priorityFee p = priorityFeeSat (header w) ∧
    pi_gasSatFee p + pi_priorityFee p = pi_burnedFee p + pi_reward p ∧ 0 ≤ pi_gasSatFee p ∧
    rewarded (vout d) 0 (pi_miner p) (pi_reward p).
Proof.
  unfold parse_interaction. intros H. checks H.
  apply getParsedScript_Ok in Hx0 as (input & raw & Hi & Hraw & Hd). rewrite Hi in Hx3.
  destruct (transactionInWitness input) as [|secret ws] eqn:Ew; [done|]. injection Hx3 as <-.
  apply run_parser_Ok in Hx1 as (rest & Hs). apply setMiner_Ok in Hx4 as [Hsol Hkey]. apply regenerate_Ok in Hx5.
  apply (verifyRewardUTXO_Ok _ _ _ _ _ Hkey) in Hx6.
  apply setGasFromHeader_Ok in Hx7 as (Hg1 & Hg2 & Hg3). injection H as <-. cbn.
  eexists input, secret, raw, _, _, _, rest. rewrite Ew. do 9 (split; [done|]). do 3 (split; [done|]).
  split; [by eexists|]. split; [done|]. split; [done|]. split; [lia|]. split; [lia|done].
Qed.

Lemma setBurnedFee_Ok o f : setBurnedFee o = Ok f → f = vout_value o ∧ f ≤ 2000.
Proof. unfold setBurnedFee. destruct (negb _); [done|]. case_decide; [done|]. intros [= <-]. lia. Qed.

(** The fee a deployment burns: at most 2000, in a first output to the contract. *)
Definition burned (outputs : list VOut) (contract : Address) (fee : Z) : Prop :=
  ∃ o, head outputs = Some o ∧ p2op_address (vout_hex o) = Some (p2op contract) ∧ fee = vout_value o ∧ fee ≤ 2000.

Lemma decodeAddress_Ok outputs o a : decodeAddress outputs = Ok (o, a) → head outputs = Some o ∧ a = p2op_address (vout_hex o).
Proof. destruct outputs as [|o' l]; [done|]. cbn [decodeAddress]. case_match; [|done]. by intros [= <- <-]. Qed.

Lemma parse_deployment_Ok i d p :
  parse_deployment_ i d = Ok p →
  ∃ input salt raw s w calldata code rest,
    parseInputs (vin d) !! i = Some input ∧ hd [] (transactionInWitness input) = salt ∧
    transactionInWitness input !! 3%nat = Some raw ∧ decompile raw = Ok (Some s) ∧
    getDeploymentWitnessData C s = Ok (Some ((w, calldata, code), rest)) ∧
    hash256 (senderPubKey w) = hashedSenderPubKey w ∧ hash256 salt = saltHash w ∧
    newAddress (getContractSeed (senderPubKey w) code (saltHash w)) = Ok (pi_contract p) ∧
    solved (minerMLDSAPublicKey (header w)) (solution (header w)) ∧
    pi_preimage p = solution (header w) ∧ pi_miner p = minerMLDSAPublicKey (header w) ∧ pi_sender p = senderKey w ∧
    (∃ bytecode c, decompressBuffer code = Ok (bytecode, c) ∧ pi_bytecode p = Some bytecode) ∧
    burned (vout d) (pi_contract p) (pi_burnedFee p) ∧ pi_priorityFee p = priorityFeeSat (header w) ∧
    pi_gasSatFee p + pi_priorityFee p = pi_burnedFee p + pi_reward p ∧ 0 ≤ pi_gasSatFee p ∧
    rewarded (vout d) 1 (pi_miner p) (pi_reward p).
Proof.
  unfold parse_deployment. intros H. checks H.
  apply getParsedScript_Ok in Hx0 as (input & raw & Hi & Hraw & Hd). rewrite Hi in H.
  destruct (parseInputs (vin d)) as [|input0 l]; [done|]. checks H.
  apply run_parser_Ok in Hx1 as (rest & Hs).
  repeat match goal with
  | H : setMiner _ _ _ _ = Ok _ |- _ => apply setMiner_Ok in H as [Hsol Hkey]
  | H : decodeAddress _ = Ok _ |- _ => apply decodeAddress_Ok in H as (Ho1 & Ho2)
  | H : verifyRewardUTXO _ _ _ _ = Ok _ |- _ => apply (verifyRewardUTXO_Ok _ _ _ _ _ Hkey) in H
  | H : setGasFromHeader _ _ _ = Ok _ |- _ => apply setGasFromHeader_Ok in H as (Hg1 & Hg2 & Hg3)
  | H : setBurnedFee _ = Ok _ |- _ => apply setBurnedFee_Ok in H as (Hb1 & Hb2)
  | H : lib_result _ = Ok _ |- _ => apply lib_result_Ok in H
  end.
  injection H as <-. cbn.
  match goal with H : decompress _ _ _ = Ok _ |- _ => unfold decompress in H; checks H; rename H into Hdec end.
  eexists input, _, raw, _, _, _, _, rest. do 9 (split; [done|]). do 3 (split; [done|]).
  split; [eexists _, _; split; [eassumption|]; destruct o; cbn in Hdec; checks Hdec; by injection Hdec as <- <- <-|].
  split; [exists v; split; [done|]; split; [congruence|done]|]. split; [done|]. split; [lia|]. split; [lia|done].
Qed.

(** C14: a transaction is accepted as an interaction or a deployment only when it
    is what it claims.  Its version is 2, and one of its inputs has a witness of
    five elements whose script has the layout of its type down to the last
    opcode; the sender is the key of the script, whose hash is there; the
    contract is the secret that hashes to the script, or for a deployment the
    address made from the sender, the bytecode and the salt; the challenge
    solution is one that was allowed to its miner.  Its fee is the priority fee
    of the header and a fee for gas that is not negative.  It is paid by the
    reward, which is the value of the first output of an interaction, or of the
    second of a deployment, when that output is to the time-locked address of
    the miner and otherwise nothing, and by what is burned, which is nothing for
    an interaction, and for a deployment the value, at most 2000, of the first
    output, which is to the contract. *)
Theorem accepted_transaction d t :
  parse d = Ok t → pt_type t ≠ Generic →
  ∃ p v secret signatureA signatureB raw controlBlock s w rest,
    version d = 2 ∧ pt_body t = Some p ∧ pt_id t = txid d ∧ v ∈ vin d ∧
    txinwitness v = Some [secret; signatureA; signatureB; raw; controlBlock] ∧
    decompile (fromHex raw) = Ok (Some s) ∧ getDataChecksum rest = [OP_ELSE; OP_1; OP_ENDIF] ∧
    match pt_type t with
    | Interaction =>
        (∃ hb fs cs, s = interaction_script hb w fs cs rest) ∧
        hash160 (fromHex secret) = saltHash w ∧ newAddress (fromHex secret) = Ok (pi_contract p) ∧
        pi_burnedFee p = 0 ∧ rewarded (vout d) 0 (pi_miner p) (pi_reward p)
    | _ =>
        ∃ hb fs cs bs, s = deployment_script hb w fs cs bs rest ∧ hash256 (fromHex secret) = saltHash w ∧
          newAddress (getContractSeed (senderPubKey w) (concat bs) (saltHash w)) = Ok (pi_contract p) ∧
          burned (vout d) (pi_contract p) (pi_burnedFee p) ∧ rewarded (vout d) 1 (pi_miner p) (pi_reward p)
    end ∧
    hash256 (senderPubKey w) = hashedSenderPubKey w ∧ pi_sender p = publicKeyPrefix (header w) :: senderPubKey w ∧
    solved (pi_miner p) (pi_preimage p) ∧ pi_priorityFee p = priorityFeeSat (header w) ∧
    pi_gasSatFee p + pi_priorityFee p = pi_burnedFee p + pi_reward p ∧ 0 ≤ pi_gasSatFee p.
Proof.
  unfold parseTransaction, getTransactionType. intros H Ht. destruct (decide (version d ≠ 2)) as [|Hv2%dec_stable].
  { unfold parseGeneric in H. checks H. injection H as <-. by destruct Ht. }
  destruct (is_ d LEGACY_INTERACTION) as [i|] eqn:Ei; [|destruct (is_ d LEGACY_DEPLOYMENT_SCRIPT) as [i|] eqn:Ed].
  - checks H. injection H as <-.
    apply is_spec in Ei as (v & Hv & (secret & sa & sb & raw & cb & s & Ew & Es & Ec)%input_is_spec).
    apply parse_interaction_Ok in Hx0 as (input & secret' & raw' & s' & w & data & rest & Hi & H0 & H3 & Hd & Hp & Hh & Hsec & Hc & Hso & Hpre & Hmin & Hsnd & _ & Hb & Hpf & Hg & Hg0 & Hrew).
    unfold parseInputs in Hi. rewrite list_lookup_fmap, Hv in Hi. injection Hi as <-. cbn in H0, H3. rewrite Ew in H0, H3.
    injection H0 as <-. injection H3 as <-. assert (s' = s) as -> by congruence.
    apply interaction_decoded in Hp as (hb & fs & cs & -> & Hp). exists x0, v, secret, sa, sb, raw, cb.
    eexists _, w, rest. do 3 (split; [done|]). split; [by eapply list_elem_of_lookup_2|]. do 2 (split; [done|]).
    split; [by eapply checksum_rest|]. split; [split; [by exists hb, fs, cs|done]|]. do 2 (split; [done|]).
    split; [by rewrite Hpre, Hmin|done].
  - checks H. injection H as <-.
    apply is_spec in Ed as (v & Hv & (secret & sa & sb & raw & cb & s & Ew & Es & Ec)%input_is_spec).
    apply parse_deployment_Ok in Hx0 as (input & salt & raw' & s' & w & data & code & rest & Hi & H0 & H3 & Hd & Hp & Hh & Hsec & Hc & Hso & Hpre & Hmin & Hsnd & _ & Hb & Hpf & Hg & Hg0 & Hrew).
    unfold parseInputs in Hi. rewrite list_lookup_fmap, Hv in Hi. injection Hi as <-. cbn in H0, H3. rewrite Ew in H0, H3.
    cbn in H0. subst salt. injection H3 as <-. assert (s' = s) as -> by congruence.
    apply deployment_decoded in Hp as (hb & fs & cs & bs & -> & Hp). exists x0, v, secret, sa, sb, raw, cb.
    eexists _, w, rest. do 3 (split; [done|]). split; [by eapply list_elem_of_lookup_2|]. do 2 (split; [done|]).
    split; [by eapply deployment_checksum_rest|].
    destruct Hp as (_ & _ & _ & _ & _ & -> & _).
    split; [by exists hb, fs, cs, bs|]. do 2 (split; [done|]).
    split; [by rewrite Hpre, Hmin|done].
  - checks H. unfold parseGeneric in H. checks H. injection H as <-. by destruct Ht.
Qed.
End Accepted.

(** ** A transaction of the examples *)

Module Example.

(** Scripts of opcodes and pushes of at most 75 bytes. *)
Fixpoint decode (fuel : nat) (b : bytes) : option (list chunk) :=
  match fuel with
  | O => None
  | S fuel' =>
      match b with
      | [] => Some []
      | n :: b' =>
          if decide (0 < n ≤ 75)
          then if decide (length b' < Z.to_nat n)%nat then None
               else l ← decode fuel' (drop (Z.to_nat n) b'); Some (Data (take (Z.to_nat n) b') :: l)
          else l ← decode fuel' b'; Some (Op n :: l)
      end
  end.

Definition encode (s : list chunk) : bytes :=
  concat (map (fun c => match c with Op n => [n] | Data b => Z.of_nat (length b) :: b end) s).

Definition number (b : bytes) : Z := foldl (fun acc x => acc * 256 + x) 0 b.
Definition read (n : nat) : stx bytes string bytes := fun r =>
  if decide (length r < n)%nat then (r, Throw "end of buffer") else (drop n r, Ok (take n r)).
Definition read_number (n : nat) : stx bytes string Z := b ← read n; mret (number b).
Definition pad (n : nat) (b : bytes) : bytes := take n (b ++ replicate n 0).

#[local] Existing Instance string_btclib.
#[local] Existing Instance example_vmlib.

#[local] Instance example_txlib : TxLib := {|
  decompile b := Ok (decode (S (length b)) b);
  OP_0 := 0; OP_1 := 81; OP_1NEGATE := 79; OP_TOALTSTACK := 107; OP_DUP := 118; OP_HASH256 := 170; OP_HASH160 := 169;
  OP_EQUALVERIFY := 136; OP_CHECKSIGVERIFY := 173; OP_DEPTH := 116; OP_NUMEQUAL := 156; OP_IF := 99; OP_ELSE := 103;
  OP_ENDIF := 104;
  feature_flag f := match f with ACCESS_LIST => 1 | EPOCH_SUBMISSION => 2 | MLDSA_LINK_PUBKEY => 4 end;
  feature_priority f := match f with ACCESS_LIST => 1 | EPOCH_SUBMISSION => 2 | MLDSA_LINK_PUBKEY => 3 end;
  level_value l := match l with LEVEL2 => 0 | LEVEL3 => 1 | LEVEL5 => 2 end;
  hash256 := pad 32;
  hash160 := pad 20;
  isZero := forallb (fun x => x =? 0);
  tweak b := pad 32 (tail b);
  isValidLegacyPublicKey b := (length b =? 33)%nat;
  isValidPublicKey _ := true;
  newAddress b := Ok (toHex b : @Address string_btclib);
  p2op a := a;
  p2op_address h := Some h;
  timeLockAddress _ := "lock";
  unzipSync b := Some (drop 2 b);
  getContractSeed a b c := pad 32 (a ++ b ++ c);
  seedSigner := Some;
  verifyControlBlock _ _ _ _ _ _ _ _ := Ok true;
  Reader := bytes;
  newReader b := b;
  bytesLeft r := Z.of_nat (length r);
  readU8 := read_number 1;
  readU16 := read_number 2;
  readU32 := read_number 4;
  readU64 := read_number 8;
  readBoolean := b ← read_number 1; mret (negb (b =? 0));
  readBytes n := read (Z.to_nat n);
  readBytesWithLength _ := n ← read_number 4; read (Z.to_nat n);
  readAddress := b ← read 32; mret (toHex b : @Address string_btclib)
|}.

Definition sender : bytes := replicate 32 65.
Definition miner : bytes := replicate 32 66.
Definition answer : bytes := replicate 20 67.
Definition secret : bytes := replicate 32 68.

Definition witness_of : SharedWitness :=
  mkShared (mkHeader miner answer 300 2 0) sender (pad 32 sender) (replicate 32 69) (pad 20 secret) [].

(** The header: the prefix 2, no flags, a priority fee of 300. *)
Definition header_bytes : bytes := [2; 0; 0; 0; 0; 0; 0; 0; 0; 0; 1; 44].

Definition script : list chunk :=
  interaction_script header_bytes witness_of [] [[1; 2]; [3]] [Op 103; Op 81; Op 104].

Definition data : TransactionData :=
  mkData "tx" 2 None
    [mkVIn (Some "parent") (Some [toHex secret; toHex (replicate 128 1); toHex (replicate 128 1);
                                  toHex (encode script); toHex (replicate 130 1)])]
    [mkVOut 1000 "" (Some "lock") "witness_v0_scripthash"].

Definition challenges : ChallengeSolution :=
  mkChallenges (m_set m_empty (toHex miner : @Address string_btclib) [answer])
    (m_set m_empty (toHex miner : @Address string_btclib) [7]).

Abbreviation parse d := (parseTransaction RoswellConsensus true 0 (fun _ => None) "block" 100 challenges d).

(** A fee of 1000 of which 300 is the priority fee. *)
Example parsed_interaction :
  (fun t => (pt_type t, (fun p => (pi_gasSatFee p, pi_priorityFee p, pi_calldata p)) <$> pt_body t)) <$> parse data =
  Ok (Interaction, Some (700, 300, [1; 2; 3])).
Proof. vm_compute. reflexivity. Qed.

(** The one output of the example pays the miner. *)
Lemma accepted_transaction_witness :
  ∃ t p, parse data = Ok t ∧ pt_body t = Some p ∧ version data = 2 ∧ 0 ≤ pi_gasSatFee p ∧
    solved challenges (pi_miner p) (pi_preimage p) ∧ rewarded challenges (vout data) 0 (pi_miner p) (pi_reward p).
Proof.
  pose proof parsed_interaction as E. destruct (parse data) as [t|] eqn:Et; [|discriminate E].
  assert (pt_type t = Interaction) as Hi by (injection E as H _; exact H).
  assert (pt_type t ≠ Generic) as Ht by (rewrite Hi; discriminate).
  pose proof (accepted_transaction RoswellConsensus true 0 (fun _ => None) "block" 100 challenges data t Et Ht) as H.
  destruct H as (p & v & s1 & s2 & s3 & s4 & s5 & s6 & w & rest & H1 & H2 & _ & _ & _ & _ & _ & H3 & _ & _ & H4 & _ & _ & H5).
  rewrite Hi in H3. destruct H3 as (_ & _ & _ & _ & H6).
  exists t, p. split; [reflexivity|]. split; [exact H2|]. split; [exact H1|]. split; [exact H5|]. split; [exact H4|exact H6].
Defined.
End Example.
