(* ===== verification/Block.v ===== *)
(** * A block and its transactions (processor/block/Block.ts,
    processor/special-transaction/SpecialManager.ts)

    A block parses its transactions, orders them, and executes those of OP_NET one
    after the other: the key of the sender is linked to its address, the contract
    runs, and its result goes to the state of the block.  A transaction that
    fails costs the block a fixed amount of gas. *)

From S2P Require Import Prelude ConsensusRules Consensus Gas TransactionSorter HeaderValidator Evaluation Evaluator BlockState PointerRepository VMManager MLDSA MLDSAMetadata TransactionParsing.
Import VMManager.

Inductive block_error : Type :=
| AlreadyProcessed
| AlreadyExecuted
| TransactionsAlreadyCreated
| RawDataNotFound
| SortError (e : sort_error)
| Aborted
| OPNetNotEnabled
| BlockOutOfGas
| CoinbaseNotAllowed
| DeadAddress
| LinkError (e : mldsa_error)
| VMError (e : manager_error)
| GasPriceError (e : gas_error)
| AssertionFailed
| TransactionNotParsed
| BlockHeaderError (e : header_error)
| BlockGasError (e : BlockGas.block_gas_error).

(** ** The transactions of a block *)

Module BlockContents.
Section BlockContents.
Context {LB : BtcLib} {LV : @VMLib LB} {LT : @TxLib LB LV} `{PriorityQueue}.
Context (compare : bytes → bytes → Z) (processEverythingAsGeneric : bool).
(** Whether the block is aborted when its i-th transaction is parsed. *)
Context (aborted : nat → bool).
(** [TransactionFactory.parseTransaction], and the constructor and parser of a
    generic transaction. *)
Context (parseTransaction_ parseGeneric_ : TransactionData → result tx_error ParsedTransaction).
(** SHA-256 of the hash of the transaction and that of the block. *)
Context (computeHashForTransaction : string → bytes).

(** [parsed] has what the sorter does not look at, by the identifier. *)
Record t : Type := mkContents {
  processed : bool;
  rawTransactionData : option (list TransactionData);
  transactionOrder : option (list string);
  transactions : list Transaction;
  parsed : list (string * ParsedTransaction);
  erroredTransactions : list TransactionData;
  genericTransactions : list Transaction;
  opnetTransactions : list Transaction
}.

Definition op : Type → Type := stx t block_error.

Definition initial (raw : list TransactionData) (order : option (list string)) : t :=
  mkContents false (Some raw) order [] [] [] [] [].

Definition set_processed (b : t) : t :=
  mkContents true (rawTransactionData b) (transactionOrder b) (transactions b) (parsed b) (erroredTransactions b)
    (genericTransactions b) (opnetTransactions b).
Definition set_transactions (l : list Transaction) (b : t) : t :=
  mkContents (processed b) (rawTransactionData b) (transactionOrder b) l (parsed b) (erroredTransactions b)
    (genericTransactions b) (opnetTransactions b).
Definition set_errored (l : list TransactionData) (b : t) : t :=
  mkContents (processed b) (rawTransactionData b) (transactionOrder b) (transactions b) (parsed b) l
    (genericTransactions b) (opnetTransactions b).
Definition set_separated (g o : list Transaction) (b : t) : t :=
  mkContents (processed b) (rawTransactionData b) (transactionOrder b) (transactions b) (parsed b)
    (erroredTransactions b) g o.

Definition to_transaction (p : ParsedTransaction) : Transaction :=
  mkTx (pt_id p) (computeHashForTransaction (pt_id p))
    (map (fun i => {| originalTransactionId := input_id i |}) (pt_inputs p))
    (match pt_body p with Some x => JBigInt (pi_priorityFee x) | None => JBigInt 0 end) 0 (pt_type p).

(** [this.transactions.push] *)
Definition push (p : ParsedTransaction) (b : t) : t :=
  mkContents (processed b) (rawTransactionData b) (transactionOrder b) (transactions b ++ [to_transaction p])
    (parsed b ++ [(pt_id p, p)]) (erroredTransactions b) (genericTransactions b) (opnetTransactions b).

(** A transaction that is not even generic is reported and left out. *)
Definition treatAsGenericTransaction (d : TransactionData) (b : t) : t :=
  match parseGeneric_ d with Ok p => push p b | Throw _ => b end.

Definition processTransaction (d : TransactionData) (b : t) : t :=
  match parseTransaction_ d with
  | Ok p => push p b
  | Throw _ => let b := treatAsGenericTransaction d b in set_errored (erroredTransactions b ++ [d]) b
  end.

Fixpoint process_all (i : nat) (l : list TransactionData) : op unit := fun b =>
  match l with
  | [] => (b, Ok tt)
  | d :: l' => if aborted i then (b, Throw Aborted) else process_all (S i) l' (processTransaction d b)
  end.

Definition createTransactions : op unit := fun b =>
  if decide (transactions b ≠ []) then (b, Throw TransactionsAlreadyCreated)
  else match rawTransactionData b with
  | None => (b, Throw RawDataNotFound)
  | Some raw =>
      let b := set_errored [] b in
      if processEverythingAsGeneric then (foldl (fun b d => treatAsGenericTransaction d b) b raw, Ok tt)
      else process_all 0 raw b
  end.

Definition is_generic (tx : Transaction) : bool := bool_decide (transactionType tx = Generic).

Definition separateGenericTransactions (l : list Transaction) : list Transaction * list Transaction :=
  (sort_by (fun tx => Z.of_nat (index tx)) (List.filter is_generic l),
   sort_by (fun tx => Z.of_nat (index tx)) (List.filter (fun tx => negb (is_generic tx)) l)).

Definition defineGeneric (b : t) : t :=
  let '(g, o) := separateGenericTransactions (transactions b) in set_separated g o b.

Definition ensureNotProcessed : op unit := fun b =>
  if processed b then (b, Throw AlreadyProcessed) else (set_processed b, Ok tt).

Definition sort_transactions (order : option (list string)) (l : list Transaction) : result sort_error (list Transaction) :=
  match order with
  | Some ids => TransactionSorter.sortTransactionsByOrder ids l
  | None => TransactionSorter.sortTransactions compare l
  end.

Definition deserialize (orderTransactions : bool) (order : option (list string)) : op unit :=
  _ ← ensureNotProcessed;
  _ ← createTransactions;
  _ ← (if orderTransactions
       then fun b => match sort_transactions order (transactions b) with
                     | Ok l => (set_transactions l b, Ok tt)
                     | Throw e => (b, Throw (SortError e))
                     end
       else mret tt);
  smod defineGeneric.

Definition prepare : op unit := fun b =>
  if processed b then (b, Throw AlreadyProcessed)
  else match deserialize true (transactionOrder b) b with
       | (b, Throw e) => (b, Throw e)
       | (b, Ok _) => (set_processed (mkContents (processed b) (rawTransactionData b) (Some []) (transactions b)
                         (parsed b) (erroredTransactions b) (genericTransactions b) (opnetTransactions b)), Ok tt)
       end.

Definition getTransactionsHashes (b : t) : list string := map transactionIdString (transactions b).
End BlockContents.
End BlockContents.

(** ** The execution of a block *)

Module BlockExecution.

(** What the execution of a transaction leaves in it. *)
Section Outcome.
Context `{VMLib}.
Record outcome : Type := mkOutcome {
  o_from : option bytes;
  o_receipt : option EvaluatedResult;
  o_revert : option bytes
}.
End Outcome.

Section BlockExecution.
Context {LB : BtcLib} {LV : @VMLib LB} {LM : @MerkleLib LB LV} {LT : @TxLib LB LV}.
(** The configuration and the libraries of the virtual machine (VMManager). *)
Context (disable : bool) (TX : TransactionsConfig) (past_root : Z → result string string)
  (RATIO TX_MAX COLD : Z) (K : VMConstants)
  (instantiate : ContractInformation → entry → Address → Z → Z → Z → bytes → instance)
  (message_of : manager_error → string) (base : @VMHost LB LV) (contractAddressAt : string → option Address).
(** Those of the links of keys (SharedInteractionParameters). *)
Context (sha256 : bytes → bytes) (verifySignature : bytes → bytes → bytes → bool)
  (verifyMLDSASignature : Z → bytes → bytes → bytes → bool) (PROTOCOL_ID chainId : bytes).
Context `{KL : MapLib bytes}.
(** An address is its ML-DSA hash. *)
Context (address_of : bytes → Address).
Context (GASC : GasConfig) (opnetEnabled : OPNetEnabledConfigs) (error_message : block_error → string).
(** The block: its height, and whether it is aborted after its i-th transaction. *)
Context (height_ : Z) (aborted : nat → bool).

Record t : Type := mk {
  gas : BlockGas.t;
  links : MLDSALinks.t;
  manager : VMManager.t;
  executed : bool
}.

Definition set_gas (g : BlockGas.t) (b : t) : t := mk g (links b) (manager b) (executed b).
Definition set_links (l : MLDSALinks.t) (b : t) : t := mk (gas b) l (manager b) (executed b).
Definition set_manager (m : VMManager.t) (b : t) : t := mk (gas b) (links b) m (executed b).
Definition use_gas (g : Z) (b : t) : t := set_gas (BlockGas.addUsedGas (gas b) g) b.
Definition blockUsedGas (b : t) : Z := BlockGas.blockUsedGas (gas b).

(** The state of the block, and what was done to the transaction at hand. *)
Definition op : Type → Type := stx (t * outcome) block_error.

Definition on_block {A} (f : t → t * result block_error A) : op A := fun s =>
  let '(b, r) := f s.1 in ((b, s.2), r).

Definition isOPNetEnabled : bool := OE_ENABLED opnetEnabled && bool_decide (OE_BLOCK opnetEnabled ≤ height_).

Definition checkConstraintsBlock (p : ParsedInteraction) (b : t) : result block_error unit :=
  if negb isOPNetEnabled then Throw OPNetNotEnabled
  else if match pi_special p with Some c => bypassBlockLimit c | None => false end then Ok tt
  else if decide (MAX_THEORETICAL_GAS GASC < blockUsedGas b) then Throw BlockOutOfGas
  else Ok tt.

(** The first input spends an output; for a deployment an empty identifier is
    enough. *)
Definition coinbase_check (type : OPNetTransactionTypes) (p : ParsedInteraction) : result block_error unit :=
  match pi_inputs p with
  | [] => Throw CoinbaseNotAllowed
  | i :: _ => if bool_decide (type = Interaction ∧ input_id i = []) then Throw CoinbaseNotAllowed else Ok tt
  end.

Definition assign_links (p : ParsedInteraction) : op bytes := fun s =>
  let '(l, r) := MLDSALinks.assignMLDSAToLegacy tweak sha256 verifySignature verifyMLDSASignature PROTOCOL_ID chainId
                   height_ (pi_sender p) (mldsaLinkRequest (pi_decoded p)) (links s.1) in
  match r with
  | Ok from => ((set_links l s.1, mkOutcome (Some from) (o_receipt s.2) (o_revert s.2)), Ok from)
  | Throw e => ((set_links l s.1, s.2), Throw (LinkError e))
  end.

(** What the virtual machine reads of a transaction. *)
Definition preload_list (p : ParsedInteraction) : option (list (Address * list Z)) :=
  Some (match accessList (pi_decoded p) with
        | Some l => map (fun '(a, ps) => (a, map uint8ArrayToPointer ps)) (m_entries l)
        | None => []
        end).

Definition interaction_of (from : bytes) (p : ParsedInteraction) : InteractionTransaction :=
  mkInteraction (p2op (pi_contract p)) (pi_gasSatFee p) (address_of from) (pi_calldata p) (preload_list p) (pi_special p).

Definition information_of (from : bytes) (p : ParsedInteraction) : ContractInformation :=
  mkInfo height_ (pi_contract p) (default [] (pi_bytecode p)) (address_of (pi_sender p)) (pi_seed p) (address_of from).

Definition deployment_of (from : bytes) (p : ParsedInteraction) : DeploymentTransaction :=
  mkDeployment (information_of from p) (pi_gasSatFee p) (address_of from) (pi_calldata p) (preload_list p).

Definition prevBaseGas (b : t) : result block_error Z :=
  match BlockGas.prevBaseGas GASC (gas b) with Ok z => Ok z | Throw e => Throw (GasPriceError e) end.

(** [executeTransaction] or [deployContract] of the manager. *)
Definition run_transaction (type : OPNetTransactionTypes) (from : bytes) (p : ParsedInteraction) (baseGas : Z) (m : VMManager.t)
  : result manager_error (shared * evaluation) :=
  match type with
  | Deployment => deployContract false disable TX past_root RATIO TX_MAX COLD K instantiate message_of base
                    height_ baseGas (deployment_of from p) m
  | _ => executeTransaction false disable TX past_root RATIO TX_MAX COLD K instantiate message_of base contractAddressAt
           height_ baseGas (interaction_of from p) false m
  end.

Definition update_values (e : option EvaluatedResult) (contract : Address) (txid : string) (check : bool) : op unit :=
  on_block (fun b =>
    let '(m, r) := updateBlockValuesFromResult false e contract txid check (manager b) in
    (set_manager m b, match r with Ok x => Ok x | Throw e => Throw (VMError e) end)).

(** The body of [try] in [executeInteractionTransaction] and
    [executeDeploymentTransaction]. *)
Definition attempt (type : OPNetTransactionTypes) (txid : string) (p : ParsedInteraction) : op unit :=
  b ← sget;
  _ ← slift (checkConstraintsBlock p b.1);
  _ ← slift (coinbase_check type p);
  from ← assign_links p;
  _ ← (if decide (address_of from = Address_dead) then sthrow DeadAddress else mret tt);
  b ← sget;
  baseGas ← slift (prevBaseGas b.1);
  ev ← slift (match run_transaction type from p baseGas (manager b.1) with Ok x => Ok x | Throw e => Throw (VMError e) end);
  let result := ContractEvaluation.getEvaluationResult ev in
  _ ← smod (fun s => (use_gas (ContractEvaluation.totalGasUsed ev.1) s.1,
                      mkOutcome (o_from s.2) (Some result)
                        (match res_revert result with Some r => Some r | None => o_revert s.2 end)));
  update_values (Some result) (pi_contract p) txid disable.

Definition processTransactionFailure (txid : string) (p : ParsedInteraction) (error : block_error) : op unit :=
  _ ← smod (fun s => (use_gas (PANIC_GAS_COST GASC) s.1,
                      mkOutcome (o_from s.2) (o_receipt s.2) (Some (getErrorAsBuffer (error_message error)))));
  update_values None (pi_contract p) txid true.

Definition verifyTransaction : op unit := fun s =>
  match o_receipt s.2 with
  | Some r => if bool_decide (is_Some (res_revert r) ∧ res_deployed r ≠ []) then (s, Throw AssertionFailed) else (s, Ok tt)
  | None => (s, Ok tt)
  end.

Definition executeParsed (type : OPNetTransactionTypes) (txid : string) (p : ParsedInteraction) : op unit := fun s =>
  match (match attempt type txid p s with
         | (s, Ok _) => (s, Ok tt)
         | (s, Throw e) => processTransactionFailure txid p e s
         end) with
  | (s, Throw e) => (s, Throw e)
  | (s, Ok _) => verifyTransaction s
  end.

(** No special manager is registered. *)
Definition requireAdditionalSteps (_ : OPNetTransactionTypes) : bool := false.

Definition no_outcome : outcome := mkOutcome None None None.

Definition executeOPNetSingleTransaction (tx : ParsedTransaction) : stx t block_error outcome := fun b =>
  match pt_type tx, pt_body tx with
  | Generic, _ => (b, Ok no_outcome)
  | _, None => (b, Throw TransactionNotParsed)
  | type, Some p =>
      let '((b, o), r) := executeParsed type (pt_id tx) p (b, no_outcome) in
      (b, match r with Ok _ => Ok o | Throw e => Throw e end)
  end.

Fixpoint execute_loop (i : nat) (l : list ParsedTransaction) : stx t block_error (list outcome) :=
  match l with
  | [] => mret []
  | tx :: l' =>
      o ← executeOPNetSingleTransaction tx;
      _ ← (if aborted i then sthrow Aborted else mret tt);
      os ← execute_loop (S i) l';
      mret (o :: os)
  end.

Definition executeOPNetTransactions (l : list ParsedTransaction) : stx t block_error (list outcome) := execute_loop 0 l.

Definition ensureNotExecuted : stx t block_error unit := fun b =>
  if executed b then (b, Throw AlreadyExecuted) else (mk (gas b) (links b) (manager b) true, Ok tt).

Definition update_states (lastChecksum : option bytes) : stx t block_error (StateMerkleTree.t * ReceiptMerkleTree.t) :=
  fun b =>
    let '(m, r) := updateEvaluatedStates false false lastChecksum (manager b) in
    (set_manager m b, match r with Ok states => Ok states | Throw e => Throw (VMError e) end).

(** [execute], up to the states of the block. [previous] is the gas part of the
    header before this one, and [lastChecksum] its checksum. *)
Definition execute_transactions (previous : option (Z * Z)) (lastChecksum : option bytes) (l : list ParsedTransaction)
  : stx t block_error (list outcome * (StateMerkleTree.t * ReceiptMerkleTree.t)) :=
  _ ← ensureNotExecuted;
  _ ← smod (fun b => set_gas (BlockGas.setGasParameters (gas b) previous) b);
  os ← executeOPNetTransactions l;
  states ← update_states lastChecksum;
  mret (os, states).
End BlockExecution.
End BlockExecution.
