(* ===== verification/BlockFacts.v ===== *)
(** * What a block does with its transactions

    Its transactions are all parsed, none is lost; they are executed in order, and
    whatever each of them does the block goes on: the state is the fold of their
    results and the gas the sum of theirs. *)

From S2P Require Import Prelude ConsensusRules Consensus Gas TransactionSorter TransactionSorterFacts HeaderValidator Evaluation Evaluator EvaluatorFacts TransactionSafety TransactionWords BlockState PointerRepository VMManager VMManagerFacts BlockStorage BlockTransactions MLDSA MLDSAFacts MLDSAMetadata TransactionParsing TransactionParsingFacts Block.
Import ContractEvaluator VMManager BlockExecution.

Section Execution.
Context {LB : BtcLib} {LV : @VMLib LB} {LM : @MerkleLib LB LV} {LL : @MerkleLaws LB LV LM} {LT : @TxLib LB LV}.
Context (TX : TransactionsConfig) (past_root : Z → result string string).
Context (skip : SKIP_PROOF_VALIDATION_FOR_EXECUTION_BEFORE_TRANSACTION TX = true).
Context (RATIO TX_MAX COLD : Z) (K : VMConstants)
  (instantiate : ContractInformation → entry → Address → Z → Z → Z → bytes → instance)
  (message_of : manager_error → string) (base : @VMHost LB LV) (contractAddressAt : string → option Address).
Context (new_cost : 0 ≤ NEW_STORAGE_SLOT_GAS_COST K) (update_cost : 0 ≤ UPDATED_STORAGE_SLOT_GAS_COST K)
  (events_limit : 0 ≤ MAXIMUM_TOTAL_EVENT_LENGTH TX).
(** The pointers of the native module are words. *)
Context (contracts : ∀ c e a g m n d, stores_in word (i_session (instantiate c e a g m n d))).
Context (sha256 : bytes → bytes) (verifySignature : bytes → bytes → bytes → bool)
  (verifyMLDSASignature : Z → bytes → bytes → bytes → bool) (PROTOCOL_ID chainId : bytes).
Context `{KL : MapLib bytes} (tweak_length : ∀ key, length (tweak key) = 32%nat).
Context (address_of : bytes → Address) (GASC : GasConfig) (enabled : OPNetEnabledConfigs)
  (error_message : block_error → string) (height_ : Z).
Implicit Types (b : BlockExecution.t) (m : VMManager.t) (p : ParsedInteraction).

Abbreviation run_ := (run_transaction true TX past_root RATIO TX_MAX COLD K instantiate message_of base contractAddressAt
  address_of height_).
Abbreviation attempt_ := (attempt true TX past_root RATIO TX_MAX COLD K instantiate message_of base contractAddressAt
  sha256 verifySignature verifyMLDSASignature PROTOCOL_ID chainId address_of GASC enabled height_).
Abbreviation execute_ := (executeParsed true TX past_root RATIO TX_MAX COLD K instantiate message_of base contractAddressAt
  sha256 verifySignature verifyMLDSASignature PROTOCOL_ID chainId address_of GASC enabled error_message height_).

Lemma new_shared_words d g n : stored_in word (new_shared d g n).
Proof.
  intros a k. unfold stored, new_shared, ContractEvaluation.getPointers. cbn. rewrite m_get_empty. cbn.
  rewrite m_get_empty. by intros [].
Qed.

Lemma executeTransaction_words blockHeight baseGas tx sim m s' v :
  executeTransaction false true TX past_root RATIO TX_MAX COLD K instantiate message_of base contractAddressAt
    blockHeight baseGas tx sim m = Ok (s', v) → stored_in word s'.
Proof.
  unfold executeTransaction. case_decide; [done|].
  destruct (contractAddressAt (tx_contractAddress tx)) as [contract|]; [|done]. case_decide; [done|].
  destruct (calculateMaxGas _ _ _ _ _) as [maxGas|]; [|done]. cbn -[executeCallInternal run].
  destruct (getGasTracker TX_MAX maxGas 0 (tx_specialSettings tx)) as [g|]; [|done]. cbn -[executeCallInternal run].
  intros E%evaluated_Ok. eapply (execute_stores (LH := manager_host false true TX past_root message_of base m)) in E;
    [exact E|done..|by right|apply new_shared_words].
Qed.

Lemma deployContract_words blockHeight baseGas dt m s' v :
  deployContract false true TX past_root RATIO TX_MAX COLD K instantiate message_of base
    blockHeight baseGas dt m = Ok (s', v) → stored_in word s'.
Proof.
  unfold deployContract. case_decide; [done|]. destruct (negb _); [done|]. case_decide; [done|].
  destruct (calculateMaxGas _ _ _ _ _) as [maxGas|]; [|done]. cbn -[executeCallInternal run].
  destruct (getGasTracker TX_MAX maxGas 0 None) as [g|]; [|done]. cbn -[executeCallInternal run].
  intros E%evaluated_Ok. eapply (run_stores (LH := manager_host false true TX past_root message_of base m)) in E;
    [exact E|done..| |by right|apply new_shared_words].
  intros q s0 s1 r Hq. eapply (execute_stores (LH := manager_host false true TX past_root message_of base m)); try done. by left.
Qed.

(** The result of a transaction that ran can be written to the block. *)
Lemma run_acceptable type from p baseGas m s' v :
  block_open m → run_ type from p baseGas m = Ok (s', v) →
  let r := ContractEvaluation.getEvaluationResult (s', v) in
  result_ok (Some r) ∧ words_written (Some r).
Proof.
  intros Hm E r.
  assert (∃ LH : @VMHost LB LV, ∃ q s, @ended LB LV LH TX TX_MAX q s s' v) as (LH & q & s & He).
  { destruct type; cbn [run_transaction] in E.
    - apply (executeTransaction_ended true TX past_root skip RATIO TX_MAX COLD K) in E as (? & ? & ? & g & _ & _ & _ & _ & LH & He);
        [|done..]. by eexists LH, _, _.
    - apply (deployContract_ended true TX past_root skip RATIO TX_MAX COLD K) in E as (s & LH & He); [|done..]. by eexists LH, _, _.
    - apply (executeTransaction_ended true TX past_root skip RATIO TX_MAX COLD K) in E as (? & ? & ? & g & _ & _ & _ & _ & LH & He);
        [|done..]. by eexists LH, _, _. }
  assert (stored_in word s') as Hw 
    by (destruct type; cbn [run_transaction] in E;
        [by eapply executeTransaction_words|by eapply deployContract_words|by eapply executeTransaction_words]).
  split; [by eapply ended_result_ok|].
  intros a k. unfold written. destruct (res_revert r) eqn:Er; [by intros []|].
  destruct (ended_reports _ _ _ _ _ _ He Er) as (c & data & Hc & _ & Heq). unfold r. cbn.
  replace (ContractEvaluation.is_reverted v) with false by (unfold ContractEvaluation.is_reverted; cbn in Er; by rewrite Er).
  rewrite Hc, Heq. apply Hw.
Qed.

(** A block that is being executed. *)
Record executing b : Prop := {
  ex_open : block_open (manager b);
  ex_links : pending_ok tweak (links b);
  ex_height : VMManager.height (manager b) = height_
}.

(** The gas a transaction cost the block. *)
Definition cost_of (o : outcome) : Z :=
  match o_receipt o with Some r => res_gasUsed r + res_specialGasUsed r | None => PANIC_GAS_COST GASC end.

Lemma slot_same m m' : m' = m → ∀ a k, slot m' a k = slot m a k.
Proof. by intros ->. Qed.

Lemma assign_links_spec p b o :
  executing b →
  let '((b', o'), r) := assign_links sha256 verifySignature verifyMLDSASignature PROTOCOL_ID chainId height_ p (b, o) in
  executing b' ∧ manager b' = manager b ∧ gas b' = gas b ∧ o_receipt o' = o_receipt o ∧ o_revert o' = o_revert o.
Proof.
  intros [Ho Hl Hh]. unfold assign_links. cbn [fst snd].
  pose proof (assign_spec tweak sha256 verifySignature verifyMLDSASignature PROTOCOL_ID chainId height_ (pi_sender p)
    (mldsaLinkRequest (pi_decoded p)) (links b) tweak_length Hl) as [Ha _]. unfold assign in Ha.
  destruct (MLDSALinks.assignMLDSAToLegacy _ _ _ _ _ _ _ _ _ _) as [l [from|e]]; (split; [by split; [..|by apply Ha|]|done]).
Qed.

(** The body of [try]: either the transaction ran, and its result is in the
    block, or nothing of it is but the link of its sender. *)
Lemma attempt_spec type txid p b :
  executing b → txid ≠ "" →
  let '((b', o), r) := attempt_ type txid p (b, no_outcome) in
  executing b' ∧
  match r with
  | Ok _ => ∃ res, o_receipt o = Some res ∧ o_revert o = res_revert res ∧
      BlockExecution.blockUsedGas b' = BlockExecution.blockUsedGas b + (res_gasUsed res + res_specialGasUsed res) ∧
      (res_revert res ≠ None → res_deployed res = []) ∧
      (∀ a k, slot (manager b') a k = memory_after (slot (manager b)) (Some res) a k) ∧
      ∀ a t, receipt (manager b') a t = if decide (pi_contract p = a ∧ txid = t) then Some (receipt_of (Some res))
                                        else receipt (manager b) a t
  | Throw _ => o_receipt o = None ∧ manager b' = manager b ∧ BlockExecution.blockUsedGas b' = BlockExecution.blockUsedGas b
  end.
Proof.
  intros Hb Ht. unfold attempt. cbn [mbind stx_bind sget slift fst snd].
  unfold mbind at 1, stx_bind at 1. cbn [sget].
  unfold mbind at 1, stx_bind at 1. cbn [slift fst].
  destruct (checkConstraintsBlock GASC enabled height_ p b) as [[]|e]; [|by split].
  unfold mbind at 1, stx_bind at 1. cbn [slift fst].
  destruct (coinbase_check type p) as [[]|e]; [|by split].
  unfold mbind at 1, stx_bind at 1.
  pose proof (assign_links_spec p b no_outcome Hb) as Ha.
  destruct (assign_links _ _ _ _ _ _ p (b, no_outcome)) as [[b1 o1] [from|e]]; destruct Ha as (Hb1 & Em & Eg & Er1 & Er2).
  2: { split; [done|]. split; [done|]. split; [done|]. unfold BlockExecution.blockUsedGas. by rewrite Eg. }
  assert (BlockExecution.blockUsedGas b1 = BlockExecution.blockUsedGas b) as Eused by (unfold BlockExecution.blockUsedGas; by rewrite Eg).
  unfold mbind at 1, stx_bind at 1. case_decide; [by split|]. cbn [mret stx_ret].
  unfold mbind at 1, stx_bind at 1. cbn [sget].
  unfold mbind at 1, stx_bind at 1. cbn [slift fst].
  destruct (prevBaseGas GASC b1) as [baseGas|e]; [|by split].
  unfold mbind at 1, stx_bind at 1. cbn [slift fst].
  destruct (run_ type from p baseGas (manager b1)) as [[s' v]|e] eqn:Erun; [|by split].
  unfold mbind at 1, stx_bind at 1. cbn [smod fst snd].
  destruct Hb1 as [Ho1 Hl1 Hh1]. apply run_acceptable in Erun as [Hok Hw]; [|done].
  set (res := ContractEvaluation.getEvaluationResult (s', v)) in *.
  destruct (update_spec (manager b1) (Some res) (pi_contract p) txid Ho1 Hok Hw Ht)
    as (m' & Hup & Hm' & Hh' & Hslot & Hrec).
  unfold update_values, on_block. cbn [fst snd use_gas set_gas manager]. rewrite Hup.
  split; [split; cbn; [done|done|congruence]|]. exists res. cbn [o_receipt o_revert]. rewrite Er2.
  split; [done|]. split; [by destruct (res_revert res)|]. split; [|split; [|split]].
  - rewrite <- Eused. done.
  - unfold res. cbn. unfold ContractEvaluation.is_reverted. by destruct (revert v).
  - intros a k. cbn. rewrite Hslot, Em. done.
  - intros a t. cbn. rewrite Hrec, Em. done.
Qed.

(** What a transaction does to the block, whatever happens in it. *)
Record transaction_done (txid : string) p b b' (o : outcome) : Prop := {
  td_executing : executing b';
  td_gas : BlockExecution.blockUsedGas b' = BlockExecution.blockUsedGas b + cost_of o;
  td_revert : match o_receipt o with Some r => o_revert o = res_revert r | None => is_Some (o_revert o) end;
  td_slots a k : slot (manager b') a k = memory_after (slot (manager b)) (o_receipt o) a k;
  td_receipts a t : receipt (manager b') a t = if decide (pi_contract p = a ∧ txid = t) then Some (receipt_of (o_receipt o))
                                               else receipt (manager b) a t
}.

Lemma executeParsed_spec type txid p b :
  executing b → txid ≠ "" →
  ∃ b' o, execute_ type txid p (b, no_outcome) = ((b', o), Ok tt) ∧ transaction_done txid p b b' o.
Proof.
  intros Hb Ht. unfold executeParsed. pose proof (attempt_spec type txid p b Hb Ht) as Ha.
  destruct (attempt_ type txid p (b, no_outcome)) as [[b1 o1] [[]|e]]; destruct Ha as [Hb1 Ha].
  - destruct Ha as (res & Eo & Er & Eg & Hd & Hs & Hrec). exists b1, o1. unfold verifyTransaction. cbn [snd]. rewrite Eo.
    rewrite bool_decide_false by (intros [Hr Hn]; apply Hn, Hd; by destruct Hr as [x ->]).
    split; [done|]. split; [done|unfold cost_of; by rewrite Eo|by rewrite Eo|by rewrite Eo|by rewrite Eo].
  - destruct Ha as (Eo & Em & Eg). unfold processTransactionFailure, mbind, stx_bind, smod. cbn [fst snd].
    destruct Hb1 as [Ho1 Hl1 Hh1].
    destruct (update_spec (manager b1) None (pi_contract p) txid Ho1) as (m' & Hup & Hm' & Hh' & Hslot & Hrec);
      [done|by intros a k []|done|].
    unfold update_values, on_block. cbn [fst snd use_gas set_gas manager]. rewrite Hup.
    unfold verifyTransaction. cbn [snd o_receipt]. rewrite Eo. eexists _, _. split; [done|].
    split; cbn [o_receipt o_revert manager set_manager].
    + split; cbn; [done|done|congruence].
    + unfold cost_of. cbn. rewrite <- Eg. done.
    + by eexists.
    + intros a k. by rewrite Hslot, Em.
    + intros a t. by rewrite Hrec, Em.
Qed.

(** Transactions of OP_NET, as the parser gives them. *)
Definition executable (tx : ParsedTransaction) : Prop :=
  pt_type tx ≠ Generic ∧ pt_id tx ≠ "" ∧ is_Some (pt_body tx).

Abbreviation single := (executeOPNetSingleTransaction true TX past_root RATIO TX_MAX COLD K instantiate message_of base
  contractAddressAt sha256 verifySignature verifyMLDSASignature PROTOCOL_ID chainId address_of GASC enabled error_message height_).

Lemma single_spec tx p b :
  executing b → executable tx → pt_body tx = Some p →
  ∃ b' o, single tx b = (b', Ok o) ∧ transaction_done (pt_id tx) p b b' o.
Proof.
  intros Hb (Hg & Hid & _) Hp. destruct (executeParsed_spec (pt_type tx) (pt_id tx) p b Hb Hid) as (b' & o & E & Hd).
  exists b', o. split; [|done]. unfold executeOPNetSingleTransaction. rewrite Hp.
  destruct (pt_type tx); [done|by rewrite E..].
Qed.

Section Loop.
Context (aborted : nat → bool) (not_aborted : ∀ i, aborted i = false).

Abbreviation loop := (execute_loop true TX past_root RATIO TX_MAX COLD K instantiate message_of base contractAddressAt
  sha256 verifySignature verifyMLDSASignature PROTOCOL_ID chainId address_of GASC enabled error_message height_ aborted).
Abbreviation executeTransactions := (executeOPNetTransactions true TX past_root RATIO TX_MAX COLD K instantiate message_of base
  contractAddressAt sha256 verifySignature verifyMLDSASignature PROTOCOL_ID chainId address_of GASC enabled error_message height_
  aborted).

Definition total_cost (os : list outcome) : Z := foldr (fun o t => cost_of o + t) 0 os.

Lemma loop_spec i l b :
  executing b → Forall executable l → NoDup (pt_id <$> l) →
  ∃ b' os, loop i l b = (b', Ok os) ∧ executing b' ∧ length os = length l ∧
    BlockExecution.blockUsedGas b' = BlockExecution.blockUsedGas b + total_cost os ∧
    (∀ a k, slot (manager b') a k = foldl memory_after (slot (manager b)) (o_receipt <$> os) a k) ∧
    (∀ a t, t ∉ pt_id <$> l → receipt (manager b') a t = receipt (manager b) a t) ∧
    ∀ j tx o p, l !! j = Some tx → os !! j = Some o → pt_body tx = Some p →
      receipt (manager b') (pi_contract p) (pt_id tx) = Some (receipt_of (o_receipt o)) ∧
      match o_receipt o with Some r => o_revert o = res_revert r | None => is_Some (o_revert o) end.
Proof.
  revert i b. induction l as [|tx l IH]; intros i b Hb Hl Hnd.
  { exists b, []. cbn. split; [done|]. split; [done|]. split; [done|]. split; [lia|]. by split. }
  apply Forall_cons in Hl as [Htx Hl]. apply NoDup_cons in Hnd as [Hni Hnd].
  destruct (proj2 (proj2 Htx)) as [p Hp]. destruct (single_spec tx p b Hb Htx Hp) as (b1 & o & E1 & [D1 D2 D3 D4 D5]).
  destruct (IH (S i) b1 D1 Hl Hnd) as (b' & os & E2 & Hb' & Hlen & Hg & Hs & Hr & Hj).
  exists b', (o :: os). cbn [execute_loop]. unfold mbind, stx_bind. rewrite E1, not_aborted. cbn [mret stx_ret]. rewrite E2.
  split; [done|]. split; [done|]. split; [cbn; by rewrite Hlen|]. split; [change (total_cost (o :: os)) with (cost_of o + total_cost os); lia|].
  split; [intros a k; rewrite Hs; cbn; apply memory_afters_ext; done|].
  split.
  - intros a t [H1 H2]%not_elem_of_cons. rewrite Hr, D5 by done. rewrite decide_False; [done|]. intros [_ E]. by apply H1.
  - intros [|j] tx' o' p' H1 H2 Hp'; cbn in H1, H2; [|by eapply Hj].
    injection H1 as <-. injection H2 as <-. assert (p' = p) as -> by congruence. split; [|done].
    rewrite Hr, D5 by done. by rewrite decide_True.
Qed.

(** C5: a block executes all its transactions, in order, whatever they do.  No
    transaction fails the block: each has an outcome; the storage is the fold
    of their results, a transaction without a result changing nothing; the block
    keeps a receipt of each; and its gas grows by that of each result, or by the
    fixed cost of a failure. *)
Theorem block_executes b l :
  executing b → Forall executable l → NoDup (pt_id <$> l) →
  ∃ b' os, executeTransactions l b = (b', Ok os) ∧ executing b' ∧ length os = length l ∧
    BlockExecution.blockUsedGas b' = BlockExecution.blockUsedGas b + total_cost os ∧
    (∀ a k, slot (manager b') a k = foldl memory_after (slot (manager b)) (o_receipt <$> os) a k) ∧
    ∀ j tx o p, l !! j = Some tx → os !! j = Some o → pt_body tx = Some p →
      receipt (manager b') (pi_contract p) (pt_id tx) = Some (receipt_of (o_receipt o)) ∧
      match o_receipt o with Some r => o_revert o = res_revert r | None => is_Some (o_revert o) end.
Proof.
  intros Hb Hl Hnd. destruct (loop_spec 0 l b Hb Hl Hnd) as (b' & os & E & H1 & H2 & H3 & H4 & _ & H5).
  exists b', os. done.
Qed.
End Loop.
End Execution.

(** ** The transactions of a block are all there *)

Section Contents.
Context {LB : BtcLib} {LV : @VMLib LB} {LT : @TxLib LB LV} {PQ : PriorityQueue} {PL : PriorityQueueLaws}.
Context (compare : bytes → bytes → Z) (computeHash : string → bytes).
Context (C : IOPNetConsensus) (unsafe : bool) (patchHeight : Z) (specialContract : string → option SpecialContract)
  (blockHash : string) (blockHeight : Z) (allowed : ChallengeSolution).

Abbreviation parse := (parseTransaction C unsafe patchHeight specialContract blockHash blockHeight allowed).
Abbreviation generic := (parseGeneric blockHash).
Abbreviation process_all_ := (BlockContents.process_all (fun _ => false) parse generic computeHash).
Abbreviation to_tx := (BlockContents.to_transaction computeHash).
Abbreviation prepare_ := (BlockContents.prepare compare false (fun _ => false) parse generic computeHash).

Lemma generic_Ok d t : generic d = Ok t → pt_id t = txid d ∧ pt_type t = Generic.
Proof. unfold parseGeneric. intros ([] & _ & ([] & _ & [= <-])%bind_Ok)%bind_Ok. done. Qed.

Lemma parse_Ok d t : parse d = Ok t → pt_id t = txid d ∧ (pt_type t ≠ Generic → is_Some (pt_body t)).
Proof.
  unfold parseTransaction. destruct (getTransactionType d) as [type i]. intros ([] & _ & H)%bind_Ok.
  destruct type.
  - apply generic_Ok in H as [-> H]. split; [done|]. intros Hn. by destruct Hn.
  - apply bind_Ok in H as (p & _ & [= <-]). split; [done|]. by eexists.
  - apply bind_Ok in H as (p & _ & [= <-]). split; [done|]. by eexists.
Qed.

(** The full parser throws. *)
Definition refused (d : TransactionData) : bool := match parse d with Ok _ => false | Throw _ => true end.

(** What a raw transaction becomes. *)
Definition parsed_as (d : TransactionData) : option ParsedTransaction :=
  match parse d with
  | Ok t => Some t
  | Throw _ => match generic d with Ok t => Some t | Throw _ => None end
  end.

Lemma parsed_as_spec d t : parsed_as d = Some t → pt_id t = txid d ∧ (pt_type t ≠ Generic → parse d = Ok t ∧ is_Some (pt_body t)).
Proof.
  unfold parsed_as. destruct (parse d) as [t'|] eqn:E.
  - intros [= ->]. apply parse_Ok in E as H. naive_solver.
  - destruct (generic d) as [t'|] eqn:Eg; [|done]. intros [= ->]. by apply generic_Ok in Eg as [? ->].
Qed.

Lemma process_all_spec i l (b : BlockContents.t) :
  ∃ b', process_all_ i l b = (b', Ok tt) ∧
    BlockContents.transactions b' = BlockContents.transactions b ++ (to_tx <$> omap parsed_as l) ∧
    BlockContents.parsed b' = BlockContents.parsed b ++ ((fun t => (pt_id t, t)) <$> omap parsed_as l) ∧
    BlockContents.erroredTransactions b' = BlockContents.erroredTransactions b ++ List.filter refused l.
Proof.
  revert i b. induction l as [|d l IH]; intros i b; cbn [BlockContents.process_all].
  { exists b. cbn. by rewrite !app_nil_r. }
  destruct (IH (S i) (BlockContents.processTransaction parse generic computeHash d b)) as (b' & -> & E1 & E2 & E3).
  exists b'. split; [done|]. rewrite E1, E2, E3. unfold BlockContents.processTransaction, BlockContents.treatAsGenericTransaction.
  assert (omap parsed_as (d :: l) = match parsed_as d with Some t => t :: omap parsed_as l | None => omap parsed_as l end) as -> by done.
  assert (List.filter refused (d :: l) = if refused d then d :: List.filter refused l else List.filter refused l) as -> by done.
  unfold refused at 2. destruct (parsed_as d) as [t'|] eqn:E; unfold parsed_as in E;
    (destruct (parse d) as [t|]; [|destruct (generic d) as [t|]]); simplify_eq; cbn; by rewrite <- ?app_assoc.
Qed.

Lemma index_sorted (l : list Transaction) :
  StronglySorted (fun a b => Z.of_nat (index a) < Z.of_nat (index b)) (imap TransactionSorter.set_index l).
Proof.
  assert (∀ n, StronglySorted (fun a b => Z.of_nat (index a) < Z.of_nat (index b))
    (imap (fun i => TransactionSorter.set_index (n + i)) l)) as H; [|exact (H 0%nat)].
  induction l as [|x l IH]; intros n; cbn; [constructor|]. constructor.
  - specialize (IH (S n)). erewrite imap_ext; [exact IH|]. intros i y _. cbn. by rewrite Nat.add_succ_r.
  - apply Forall_forall. intros y Hy. apply elem_of_lookup_imap in Hy as (i & z & -> & _). cbn. lia.
Qed.

Lemma filter_sorted {A} (R : A → A → Prop) (f : A → bool) l : StronglySorted R l → StronglySorted R (List.filter f l).
Proof.
  induction 1 as [|x l Hl IH Hx]; cbn; [constructor|]. destruct (f x); [|done]. constructor; [done|].
  rewrite Forall_forall in Hx |- *. intros y Hy%list_elem_of_In. apply filter_In in Hy as [Hy _]. by apply Hx, list_elem_of_In.
Qed.

Lemma filter_split {A} (f : A → bool) l : List.filter f l ++ List.filter (fun x => negb (f x)) l ≡ₚ l.
Proof. induction l as [|x l IH]; [done|]. cbn. destruct (f x); cbn; [by rewrite IH|]. by rewrite <- Permutation_middle, IH. Qed.

Lemma rewards_split (l : list Transaction) :
  filter (fun t => TransactionSorter.is_reward t = true) l ++ nonRewards l ≡ₚ l.
Proof.
  unfold nonRewards. induction l as [|x l IH]; [done|]. rewrite !filter_cons.
  destruct (TransactionSorter.is_reward x) eqn:Ex.
  - rewrite decide_True, decide_False by done. cbn. by rewrite IH.
  - rewrite decide_False, decide_True by done. by rewrite <- Permutation_middle, IH.
Qed.

Abbreviation position := (fun tx : Transaction => Z.of_nat (index tx)).
Abbreviation in_order := (StronglySorted (fun a b : Transaction => position a < position b)).

Lemma sorted_block (l : list Transaction) :
  NoDup (ids_of l) → ∃ out, TransactionSorter.sortTransactions compare l = Ok (imap TransactionSorter.set_index out) ∧ out ≡ₚ l.
Proof.
  intros Hnd. destruct (sortByFee_ok compare (nonRewards l)) as (rest & Hs & Hg & Hp & _).
  assert (NoDup (ids_of (nonRewards l))) as Hn.
  { unfold ids_of, nonRewards in *. eapply sublist_NoDup; [exact Hnd|]. apply fmap_sublist, sublist_filter. }
  pose proof (sortByFee_perm _ _ Hn Hg Hp) as Hr. eexists. split.
  - rewrite (sortTransactions_eq _ _ _ Hs), decide_True by (by rewrite Hr). done.
  - by rewrite Hr, rewards_split.
Qed.

Lemma parsed_ids raw : sublist (pt_id <$> omap parsed_as raw) (txid <$> raw).
Proof.
  induction raw as [|d l IH]; [done|].
  assert (omap parsed_as (d :: l) = match parsed_as d with Some t => t :: omap parsed_as l | None => omap parsed_as l end) as -> by done.
  rewrite fmap_cons. destruct (parsed_as d) as [t|] eqn:E; [|by apply sublist_cons].
  rewrite fmap_cons. apply parsed_as_spec in E as [-> _]. by apply sublist_skip.
Qed.

(** Distinct ids name distinct transactions. *)
Lemma same_data raw d d' : NoDup (txid <$> raw) → d ∈ raw → d' ∈ raw → txid d = txid d' → d = d'.
Proof.
  intros Hn [i Hi]%list_elem_of_lookup [j Hj]%list_elem_of_lookup E. assert (i = j) as ->; [|congruence].
  apply (NoDup_lookup _ _ _ (txid d) Hn); rewrite list_lookup_fmap; [by rewrite Hi|by rewrite Hj, E].
Qed.

(** The transactions of the block are the parsed ones, numbered. *)
Lemma numbered_elem raw out tx :
  out ≡ₚ (to_tx <$> omap parsed_as raw) → tx ∈ imap TransactionSorter.set_index out →
  ∃ i d t, tx = TransactionSorter.set_index i (to_tx t) ∧ d ∈ raw ∧ parsed_as d = Some t.
Proof.
  intros Hp (i & y & -> & Hy)%elem_of_lookup_imap. apply list_elem_of_lookup_2 in Hy. rewrite Hp in Hy.
  apply list_elem_of_fmap in Hy as (t & -> & (d & Hd & Ht)%list_elem_of_omap). by exists i, d, t.
Qed.

Lemma elem_numbered raw out d t :
  out ≡ₚ (to_tx <$> omap parsed_as raw) → d ∈ raw → parsed_as d = Some t →
  ∃ i, TransactionSorter.set_index i (to_tx t) ∈ imap TransactionSorter.set_index out.
Proof.
  intros Hp Hd Ht. assert (to_tx t ∈ out) as [i Hi]%list_elem_of_lookup.
  { rewrite Hp. apply list_elem_of_fmap. exists t. split; [done|]. apply list_elem_of_omap. by exists d. }
  exists i. apply elem_of_lookup_imap. by exists i, (to_tx t).
Qed.

Lemma elem_filter {A} (f : A → bool) l x : x ∈ List.filter f l ↔ x ∈ l ∧ f x = true.
Proof. rewrite !list_elem_of_In. apply filter_In. Qed.

Lemma ids_of_index l : ids_of (imap TransactionSorter.set_index l) = ids_of l.
Proof.
  apply list_eq. intros i. unfold ids_of. rewrite !list_lookup_fmap, list_lookup_imap. by destruct (l !! i).
Qed.

Lemma in_order_filter f (l : list Transaction) :
  sort_by position (List.filter f (imap TransactionSorter.set_index l)) = List.filter f (imap TransactionSorter.set_index l).
Proof.
  apply sort_by_id, filter_sorted. generalize (index_sorted l). induction 1 as [|x l' _ IH Hx]; constructor; [done|].
  eapply Forall_impl; [exact Hx|]. cbn. lia.
Qed.

(** A raw transaction is among those of its kind and no other. *)
Lemma kinds_separate raw out :
  NoDup (txid <$> raw) → out ≡ₚ (to_tx <$> omap parsed_as raw) → ∀ d, d ∈ raw →
  let all := imap TransactionSorter.set_index out in
  let g := List.filter BlockContents.is_generic all in let o := List.filter (fun tx => negb (BlockContents.is_generic tx)) all in
  match parsed_as d with
  | Some p =>
      if decide (pt_type p = Generic) then txid d ∈ ids_of g ∧ txid d ∉ ids_of o
      else (txid d ∉ ids_of g) ∧ (∃ tx, tx ∈ o ∧ transactionIdString tx = txid d ∧ transactionType tx = pt_type p)
  | None => txid d ∉ ids_of (g ++ o)
  end.
Proof.
  intros Hnd Hp d Hd all g o.
  assert (∀ f, txid d ∈ ids_of (List.filter f all) → ∃ i t, parsed_as d = Some t ∧ f (TransactionSorter.set_index i (to_tx t)) = true) as Hin.
  { intros f Hx. unfold ids_of in Hx. apply list_elem_of_fmap in Hx as (tx & Hid & [Hx Hf]%elem_filter).
    apply (numbered_elem raw out) in Hx as (i & d' & t & -> & Hd' & Ht); [|done]. cbn in Hid. pose proof Ht as Ht'. apply parsed_as_spec in Ht' as [Ht' _].
    rewrite Ht' in Hid. apply (same_data raw d d' Hnd Hd Hd') in Hid as <-. by exists i, t. }
  destruct (parsed_as d) as [p|] eqn:Epd.
  - destruct (elem_numbered raw out d p Hp Hd Epd) as [i Hi]. fold all in Hi. pose proof Epd as [Hid _]%parsed_as_spec.
    assert (∀ f, f (TransactionSorter.set_index i (to_tx p)) = true → txid d ∈ ids_of (List.filter f all)) as Hof.
    { intros f Hf. unfold ids_of. apply list_elem_of_fmap. exists (TransactionSorter.set_index i (to_tx p)). split; [by rewrite <- Hid|by apply elem_filter]. }
    case_decide as Ht.
    + split; [apply Hof; by apply bool_decide_eq_true|]. intros (j & t & [= <-] & Hf)%Hin. apply negb_true_iff in Hf.
      by apply bool_decide_eq_false in Hf.
    + split; [intros (j & t & [= <-] & Hf)%Hin; by apply bool_decide_eq_true in Hf|].
      exists (TransactionSorter.set_index i (to_tx p)). split; [|by split]. apply elem_filter. split; [done|]. by apply negb_true_iff, bool_decide_eq_false.
  - unfold ids_of. rewrite fmap_app, elem_of_app. by intros [(? & ? & ? & _)%Hin|(? & ? & ? & _)%Hin].
Qed.

(** C6: a block prepares each raw transaction as its parsers decide.  One that the
    full parser accepts as a transaction of OP_NET is among those of OP_NET,
    with its type and body; one it accepts as generic, or refuses while the
    generic parser accepts it, is among the generic ones; one that both refuse
    is left out; those the full parser refuses are recorded.  Nothing else is
    there, nothing twice; all are in the order of the sorter, numbered by their
    place in it, and each kind keeps that order. *)
Theorem prepared_transactions raw :
  NoDup (txid <$> raw) →
  ∃ b', prepare_ (BlockContents.initial raw None) = (b', Ok tt) ∧
    let g := BlockContents.genericTransactions b' in let o := BlockContents.opnetTransactions b' in
    (∀ d, d ∈ raw →
       match parse d, generic d with
       | Ok p, _ =>
           if decide (pt_type p = Generic) then txid d ∈ ids_of g ∧ txid d ∉ ids_of o
           else (txid d ∉ ids_of g) ∧ (txid d, p) ∈ BlockContents.parsed b' ∧ is_Some (pt_body p) ∧
             (∃ tx, tx ∈ o ∧ transactionIdString tx = txid d ∧ transactionType tx = pt_type p)
       | Throw _, Ok _ => txid d ∈ ids_of g ∧ txid d ∉ ids_of o
       | Throw _, Throw _ => txid d ∉ ids_of (g ++ o)
       end) ∧
    BlockContents.erroredTransactions b' = List.filter refused raw ∧
    (∀ id, id ∈ ids_of (g ++ o) → id ∈ txid <$> raw) ∧ NoDup (ids_of (g ++ o)) ∧
    g ++ o ≡ₚ BlockContents.transactions b' ∧ in_order g ∧ in_order o ∧
    TransactionSorter.sortTransactions compare (to_tx <$> omap parsed_as raw) = Ok (BlockContents.transactions b') ∧
    (∀ i tx, BlockContents.transactions b' !! i = Some tx → index tx = i).
Proof.
  intros Hnd. set (l := to_tx <$> omap parsed_as raw).
  assert (ids_of l = pt_id <$> omap parsed_as raw) as Hids by (unfold l, ids_of; by rewrite <- list_fmap_compose).
  assert (NoDup (ids_of l)) as Hndl by (rewrite Hids; eapply sublist_NoDup; [exact Hnd|apply parsed_ids]).
  destruct (sorted_block l Hndl) as (out & Hs & Hp).
  destruct (process_all_spec 0 raw (BlockContents.set_errored [] (BlockContents.set_processed (BlockContents.initial raw None))))
    as (b & Hb & Et & Ep & Ee). cbn in Et, Ep, Ee. fold l in Et.
  eexists. split.
  { unfold BlockContents.prepare, BlockContents.deserialize, BlockContents.createTransactions.
    unfold mbind, stx_bind. cbn -[BlockContents.process_all].
    rewrite decide_False by naive_solver. rewrite Hb. cbn. rewrite Et, Hs. reflexivity. }
  cbn -[sort_by ids_of]. rewrite !in_order_filter. set (all := imap TransactionSorter.set_index out).
  assert (NoDup (ids_of all)) as Hnda by (unfold all; rewrite ids_of_index; unfold ids_of; by rewrite Hp).
  split; [|split; [done|split; [|split; [|split; [apply filter_split|]]]]].
  - intros d Hd. pose proof (kinds_separate raw out) as Hk. fold all in Hk. specialize (Hk Hnd Hp d Hd).
    unfold parsed_as in Hk. destruct (parse d) as [p|] eqn:Epd; [|destruct (generic d) as [p|] eqn:Eg].
    + assert ((txid d, p) ∈ BlockContents.parsed b) as Hpar.
      { rewrite Ep. apply list_elem_of_fmap. exists p. split; [by apply parse_Ok in Epd as [-> _]|]. apply list_elem_of_omap.
        exists d. split; [done|]. unfold parsed_as. by rewrite Epd. }
      case_decide as Ht; [done|]. destruct Hk as [? Ho]. split; [done|]. split; [done|]. split; [by apply parse_Ok in Epd as [_ Hbd]; apply Hbd|done].
    + apply generic_Ok in Eg as [_ Eg]. by rewrite decide_True in Hk.
    + done.
  - intros id Hin. assert (id ∈ ids_of all) as Hall.
    { unfold ids_of in *. rewrite (filter_split BlockContents.is_generic all) in Hin. done. }
    unfold ids_of in Hall. apply list_elem_of_fmap in Hall as (tx & -> & (i & d & t & -> & Hd & Ht)%(numbered_elem raw out)); [|done].
    apply parsed_as_spec in Ht as [Ht _]. cbn. rewrite Ht. apply list_elem_of_fmap. by exists d.
  - unfold ids_of. by rewrite filter_split.
  - split; [apply filter_sorted, index_sorted|]. split; [apply filter_sorted, index_sorted|]. split; [done|].
    intros i tx. unfold all. rewrite list_lookup_imap. destruct (out !! i); [|done]. by intros [= <-].
Qed.
End Contents.


(** ** A block of two transactions

    Alice calls her contract; Mallory, whose key is not linked, fails. *)

Module Example.

#[local] Existing Instance string_btclib.
#[local] Existing Instance example_vmlib.
#[local] Existing Instance example_merkle.
#[local] Existing Instance example_merkle_laws.
#[local] Existing Instance TransactionParsingFacts.Example.example_txlib.
#[local] Existing Instance gmap_lib.

Lemma example_contract_words c e a g m n d : stores_in word (i_session (example_contract c e a g m n d)).
Proof.
  unfold example_contract. cbn. repeat case_decide; cbn.
  - intros [[x known]|err]; cbn; [|done]. split; [unfold word; lia|]. by intros r _.
  - split; [unfold word; lia|done].
  - done.
  - done.
Qed.

Lemma example_tweak_length key : length (tweak key) = 32%nat.
Proof. cbn. unfold TransactionParsingFacts.Example.pad. rewrite length_take, length_app, length_replicate. lia. Qed.

Definition key (n : Z) : bytes := 2 :: replicate 32 n.
Definition linked : list IMLDSAPublicKey :=
  [mkKey 0 (replicate 32 100) (key 1) (tweak (key 1)) None (Some 1) None].

Definition body (n : Z) : ParsedInteraction :=
  mkParsed [mkInput [7] []] no_features (key n) "alice" [] [] None 0 330 10000 0 [] None None false [].
Definition tx (id : string) (n : Z) : ParsedTransaction := mkParsedTransaction Interaction id [] (Some (body n)).

Definition block : BlockExecution.t :=
  mk (BlockGas.setGasParameters BlockGas.initial (Some (0, 10 ^ 8))) (MLDSALinks.initial linked) example_manager false.

Lemma block_executing : executing 8 block.
Proof.
  split; [exact example_open| |reflexivity]. apply pending_ok_initial; [split; apply NoDup_singleton|].
  by intros d ->%list_elem_of_singleton.
Qed.

Abbreviation run l := (executeOPNetTransactions true Roswell_TRANSACTIONS (fun _ => Throw "no header")
  1000000 150000000000 21000 example_constants example_contract (fun _ => "error") example_host (fun a => Some a)
  (fun b => b) (fun _ _ _ => true) (fun _ _ _ _ => true) [] [] (fun h => toHex h : @Address string_btclib) Roswell_GAS
  {| OE_ENABLED := true; OE_BLOCK := 0 |} (fun _ => "failed") 8 (fun _ => false) l block).

(** What ran, and what was reverted. *)
Definition summary (r : result block_error (list outcome)) : option (list (bool * bool)) :=
  match r with
  | Ok os => Some (map (fun o => (bool_decide (is_Some (o_receipt o)), bool_decide (is_Some (o_revert o)))) os)
  | Throw _ => None
  end.

Definition txs : list ParsedTransaction := [tx "tx1" 1; tx "tx2" 2].

Example outcomes : summary (run txs).2 = Some [(true, false); (false, true)].
Proof. vm_compute. reflexivity. Qed.

Lemma block_executes_witness :
  ∃ b' os, run txs = (b', Ok os) ∧ length os = 2%nat ∧
    (∀ a k, slot (manager b') a k = foldl memory_after (slot example_manager) (o_receipt <$> os) a k).
Proof.
  pose proof (block_executes Roswell_TRANSACTIONS (fun _ => Throw "no header") eq_refl
    1000000 150000000000 21000 example_constants example_contract (fun _ => "error") example_host (fun a => Some a)
    ltac:(vm_compute; discriminate) ltac:(vm_compute; discriminate) ltac:(vm_compute; discriminate)
    example_contract_words (fun b => b) (fun _ _ _ => true) (fun _ _ _ _ => true) [] [] example_tweak_length
    (fun h => toHex h : @Address string_btclib) Roswell_GAS {| OE_ENABLED := true; OE_BLOCK := 0 |} (fun _ => "failed") 8
    (fun _ => false) (fun _ => eq_refl) block txs block_executing) as H.
  destruct H as (b' & os & E & _ & Hlen & _ & Hs & _).
  - repeat constructor; (discriminate || by eexists).
  - apply (bool_decide_unpack _). vm_compute. exact I.
  - exists b', os. split; [exact E|]. split; [exact Hlen|]. exact Hs.
Defined.

Definition raw : list TransactionData :=
  [mkData "plain" 2 None [mkVIn (Some "parent") (Some [])] []; TransactionParsingFacts.Example.data].

Abbreviation prepared := (BlockContents.prepare (H := list_queue) compare_bytes false (fun _ => false)
  (parseTransaction RoswellConsensus true 0 (fun _ => None) "block" 100 TransactionParsingFacts.Example.challenges)
  (parseGeneric "block") (fun id => fromHex id) (BlockContents.initial raw None)).

Abbreviation example_parse := (parseTransaction RoswellConsensus true 0 (fun _ => None) "block" 100 TransactionParsingFacts.Example.challenges).

Lemma plain_is_generic :
  match example_parse (mkData "plain" 2 None [mkVIn (Some "parent") (Some [])] []) with Ok p => bool_decide (pt_type p = Generic) | Throw _ => false end = true.
Proof. vm_compute. reflexivity. Qed.

Lemma data_is_opnet : match example_parse TransactionParsingFacts.Example.data with Ok p => bool_decide (pt_type p = Generic) | Throw _ => true end = false.
Proof. vm_compute. reflexivity. Qed.

Lemma prepared_transactions_witness :
  ∃ b', prepared = (b', Ok tt) ∧ "plain" ∈ ids_of (BlockContents.genericTransactions b') ∧ "tx" ∈ ids_of (BlockContents.opnetTransactions b') ∧
    NoDup (ids_of (BlockContents.genericTransactions b' ++ BlockContents.opnetTransactions b')).
Proof.
  pose proof (prepared_transactions compare_bytes (fun id => fromHex id) RoswellConsensus true 0 (fun _ => None) "block" 100
    TransactionParsingFacts.Example.challenges raw) as H.
  destruct H as (b' & E & Hd & _ & _ & Hn & _).
  - apply (bool_decide_unpack _). vm_compute. exact I.
  - exists b'. split; [exact E|]. split; [|split; [|exact Hn]].
    + specialize (Hd (mkData "plain" 2 None [mkVIn (Some "parent") (Some [])] []) ltac:(left)). pose proof plain_is_generic as Ht.
      destruct (parseTransaction _ _ _ _ _ _ _ _) as [p|e]; [|discriminate Ht]. apply bool_decide_eq_true in Ht.
      destruct (decide (pt_type p = Generic)) as [_|Hn']; [exact (proj1 Hd)|destruct (Hn' Ht)].
    + specialize (Hd TransactionParsingFacts.Example.data ltac:(right; left)). pose proof data_is_opnet as Ht.
      destruct (parseTransaction _ _ _ _ _ _ _ _) as [p|e]; [|discriminate Ht]. apply bool_decide_eq_false in Ht.
      destruct (decide (pt_type p = Generic)) as [Hg|_]; [destruct (Ht Hg)|].
      destruct Hd as (_ & _ & _ & tx & Htx & Hid & _). unfold ids_of. apply list_elem_of_fmap. exists tx. split; [symmetry; exact Hid|exact Htx].
Defined.

(** The generic one comes first, then that of OP_NET. *)
Example prepared_order :
  (ids_of (BlockContents.genericTransactions prepared.1), ids_of (BlockContents.opnetTransactions prepared.1)) =
  (["plain"], ["tx"]).
Proof. vm_compute. reflexivity. Qed.
End Example.
