(* ===== verification/Epochs.v ===== *)
(** * Epochs: the solutions, and the tree of an epoch
    (poc/epoch/EpochDifficultyConverter.ts, poc/epoch/EpochValidator.ts,
    processor/block/merkle/EpochMerkleTree.ts)

    A solution of an epoch is a salt for which a hash of the checksum of the last
    block before it, the key of the miner and the salt has many leading bits in
    common with a hash of that checksum.  An epoch commits to its data, its winner
    and the attestations of its blocks with a Merkle tree. *)

From S2P Require Import Prelude Consensus HeaderValidator.

(** What a binary writer is given, in order. *)
Section Writes.
Context `{BtcLib}.
Inductive write : Type :=
| writeU8 (z : Z)
| writeU16 (z : Z)
| writeU64 (z : Z)
| writeBytes (b : bytes)
| writeAddress (a : Address).
End Writes.

(** The libraries: [BinaryWriter] (a buffer of a size, filled by writes), the
    hashes, the trees of rust-merkle-tree, and the bytes of an address. *)
Class EpochLib `{BtcLib} : Type := {
  getBuffer : Z → list write → result string bytes;
  sha1 : bytes → bytes;
  sha256 : bytes → bytes;
  EpochTree : Type;
  tree_new : list bytes → EpochTree;
  tree_root : EpochTree → bytes;
  tree_rootHex : EpochTree → string;
  (** [getProof(getIndexData(data)).proofHashes()] *)
  tree_getProof : EpochTree → bytes → result string (list bytes);
  tree_hash : bytes → bytes;
  (** [MerkleProof]: verify, verifyData, rootHex *)
  proof_verify : list bytes → bytes → bytes → bool;
  proof_verifyData : list bytes → bytes → bytes → bool;
  proof_rootHex : list bytes → bytes → string;
  addressOf : bytes → Address;
  addressBytes : Address → bytes;
  originalPublicKeyBuffer : Address → bytes
}.

Inductive epoch_error : Type :=
| EpochZero
| HeaderNotFound (height : Z)
| InvalidChecksumRoot
| NoEpochFound (number : Z)
| InvalidTiebreakKey
| NoWinningSubmission
| WinnerMismatch
| InvalidSaltLength
| NoChecksumRoot (height : Z)
| TreeFrozen
| BlockNotInEpoch (height : Z)
| TreeNotGenerated
| EpochHashNotGenerated
| IndexOutOfBounds
| EpochBytesMissing
| WinnerNotSet
| GraffitiTooLong
| ReindexInProgress
| LibraryError (message : string).

Definition from_lib {A} (r : result string A) : result epoch_error A :=
  match r with Ok x => Ok x | Throw e => Throw (LibraryError e) end.

(** [new Uint8Array(n)], with the bytes of [b] set at its front. *)
Definition resized (n : nat) (b : bytes) : bytes := take n (b ++ replicate n 0).

(** [slice(0, n)] *)
Fixpoint slice_front {A} (n : Z) (l : list A) : list A :=
  match l with
  | [] => []
  | x :: l' => if decide (0 < n) then x :: slice_front (n - 1) l' else []
  end.

Definition stringToBuffer `{BtcLib} (s : string) : bytes := fromHex (strip0x s).

(** What the node relies on: the writer takes every value that is not too large
    (a negative one is wrapped), SHA-1 has 20 bytes, a tree of two leaves or more
    proves each of them, and the hexadecimal form of bytes has no prefix and is
    read back. *)
Section Fits.
Context `{BtcLib}.
Definition fits (w : write) : Prop :=
  match w with
  | writeU8 z => z < 2 ^ 8
  | writeU16 z => z < 2 ^ 16
  | writeU64 z => z < 2 ^ 64
  | writeBytes _ | writeAddress _ => True
  end.
End Fits.

Class EpochLaws `{EpochLib} : Prop := {
  writer_total n l : Forall fits l → ∃ b, getBuffer n l = Ok b;
  sha1_length b : length (sha1 b) = 20%nat;
  tree_proves l d :
    (2 ≤ length l)%nat → d ∈ l →
    ∃ p, tree_getProof (tree_new l) d = Ok p ∧
      proof_verify p (tree_root (tree_new l)) (tree_hash d) = true ∧
      proof_verifyData p (tree_root (tree_new l)) d = true;
  tree_hex x : stringToBuffer (tree_rootHex x) = tree_root x;
  hex_roundtrip b : fromHex (toHex b) = b;
  hex_plain b : strip0x (toHex b) = toHex b
}.

(** ** EpochDifficultyConverter *)

Module EpochDifficultyConverter.
Definition bitsToScaledDifficulty (bits : Z) : Z := 2 ^ Z.max 0 bits.

Definition formatDifficulty (difficulty : Z) : string :=
  if decide (difficulty < 1000) then pretty difficulty
  else if decide (difficulty < 10 ^ 6) then (pretty (Z.quot difficulty (10 ^ 3)) +:+ "K")%string
  else if decide (difficulty < 10 ^ 9) then (pretty (Z.quot difficulty (10 ^ 6)) +:+ "M")%string
  else if decide (difficulty < 10 ^ 12) then (pretty (Z.quot difficulty (10 ^ 9)) +:+ "G")%string
  else if decide (difficulty < 10 ^ 15) then (pretty (Z.quot difficulty (10 ^ 12)) +:+ "T")%string
  else (pretty (Z.quot difficulty (10 ^ 15)) +:+ "P")%string.
End EpochDifficultyConverter.

(** ** EpochValidator *)

Module EpochValidator.
Section EpochValidator.
Context `{EpochLib}.

Fixpoint xor3 (a b c : bytes) : bytes :=
  match a, b, c with
  | x :: a', y :: b', z :: c' => Z.lxor (Z.lxor x y) z :: xor3 a' b' c'
  | _, _, _ => []
  end.

Definition calculatePreimage (checksumRoot mldsaPublicKey salt : bytes) : bytes :=
  let target32 := resized 32 checksumRoot in
  let pubKey32 := resized 32 mldsaPublicKey in
  let salt32 := resized 32 salt in
  xor3 target32 pubKey32 salt32.

(** The bits [n - 1] down to 0 of two bytes: how many agree before one does not,
    and whether one does not. *)
Fixpoint countBits (n : nat) (byte1 byte2 : Z) : Z * bool :=
  match n with
  | O => (0, false)
  | S bit =>
      if decide (Z.land (Z.shiftr byte1 (Z.of_nat bit)) 1 = Z.land (Z.shiftr byte2 (Z.of_nat bit)) 1)
      then let '(c, stopped) := countBits bit byte1 byte2 in (1 + c, stopped)
      else (0, true)
  end.

Fixpoint count_loop (matchingBits : Z) (hash1 hash2 : bytes) : Z :=
  match hash1, hash2 with
  | byte1 :: hash1', byte2 :: hash2' =>
      if decide (byte1 = byte2) then count_loop (matchingBits + 8) hash1' hash2'
      else let '(c, stopped) := countBits 8 byte1 byte2 in
           if stopped then matchingBits + c else count_loop (matchingBits + c) hash1' hash2'
  | _, _ => matchingBits
  end.

Definition countMatchingBits (hash1 hash2 : bytes) : Z := count_loop 0 hash1 hash2.

Record PendingTargetEpoch : Type := mkPending {
  pt_checksumRoot : bytes;
  pt_targetHash : bytes;
  nextEpochNumber : Z
}.

(** [getBlockHeader]: the checksum of a stored block. *)
Context (C : IOPNetConsensus) (checksumOf : Z → option string).

Definition getEpochData (epochNumber : Z) : result epoch_error PendingTargetEpoch :=
  if decide (epochNumber = 0) then Throw EpochZero
  else
    let targetBlockHeight := epochNumber * BLOCKS_PER_EPOCH (EPOCH C) - 1 in
    match checksumOf targetBlockHeight with
    | None => Throw (HeaderNotFound targetBlockHeight)
    | Some root =>
        let checksumRoot := stringToBuffer root in
        Ok (mkPending checksumRoot (sha1 checksumRoot) epochNumber)
    end.

Record EpochValidationParams : Type := {
  v_epochNumber : Z;
  v_checksumRoot : bytes;
  v_salt : bytes;
  v_mldsaPublicKey : bytes;
  v_graffiti : option bytes;
  v_signature : bytes
}.

Record EpochValidationResult : Type := mkValidation {
  valid : bool;
  matchingBits : Z;
  hash : bytes;
  targetPattern : bytes;
  challenge : bytes
}.

Definition rejected : EpochValidationResult := mkValidation false 0 [] [] [].

Definition verifyChecksumRoot (epoch : PendingTargetEpoch) (root : bytes) : bool := bool_decide (pt_checksumRoot epoch = root).

(** Errors are caught and reported as a rejection. *)
Definition validateEpochSolution (p : EpochValidationParams) (currentHeight minDifficulty : Z) : EpochValidationResult :=
  if decide (v_epochNumber p = 0) then rejected
  else if decide (v_epochNumber p ≠ Z.quot currentHeight (BLOCKS_PER_EPOCH (EPOCH C))) then rejected
  else match getEpochData (v_epochNumber p) with
  | Throw _ => rejected
  | Ok epoch =>
      if negb (verifyChecksumRoot epoch (v_checksumRoot p)) then rejected
      else
        let solution := calculatePreimage (pt_checksumRoot epoch) (v_mldsaPublicKey p) (v_salt p) in
        let hash := sha1 solution in
        let bits := countMatchingBits hash (pt_targetHash epoch) in
        mkValidation (bool_decide (minDifficulty ≤ bits)) bits hash (pt_targetHash epoch) solution
  end.
End EpochValidator.
End EpochValidator.

(** ** EpochMerkleTree *)

Module EpochMerkleTree.
Section EpochMerkleTree.
Context `{EpochLib}.
(** [getChainId] of the network, [PROTOCOL_ID], [GRAFFITI_LENGTH]. *)
Context (chainId PROTOCOL_ID : bytes) (GRAFFITI_LENGTH : nat).

Inductive AttestationType : Type := BLOCK_WITNESS | EMPTY_ATTESTATION.
Definition attestation_type_value (t : AttestationType) : Z := match t with BLOCK_WITNESS => 0 | EMPTY_ATTESTATION => 1 end.

Record Attestation : Type := mkAttestation {
  type : AttestationType;
  blockNumber : Z;
  a_checksumRoot : bytes;
  signature : bytes;
  timestamp : Z;
  publicKey : Address
}.

Record EpochSubmissionWinner : Type := mkWinner {
  w_epochNumber : Z;
  w_matchingBits : Z;
  w_salt : bytes;
  w_mldsaPublicKey : bytes;
  w_legacyPublicKey : bytes;
  w_solutionHash : bytes;
  w_graffiti : bytes
}.

Record EpochData : Type := mkEpochData {
  epochNumber : Z;
  startBlock : Z;
  endBlock : Z;
  e_checksumRoot : bytes;
  previousEpochHash : bytes;
  attestedEpochNumber : Z;
  attestedChecksumRoot : bytes;
  winner : option EpochSubmissionWinner
}.

Record t : Type := mk {
  tree : option EpochTree;
  attestations : list Attestation;
  epochData : EpochData;
  epochBytes : option bytes;
  epochHash_ : option bytes;
  frozen : bool;
  maxAttestations : Z
}.

Definition op : Type → Type := stx t epoch_error.

Definition default_maxAttestations : Z := 500000.

Definition construct (d : EpochData) (max : Z) : t := mk None [] d None None false max.

Definition set_attestations (l : list Attestation) (s : t) : t :=
  mk (tree s) l (epochData s) (epochBytes s) (epochHash_ s) (frozen s) (maxAttestations s).
Definition set_frozen (s : t) : t :=
  mk (tree s) (attestations s) (epochData s) (epochBytes s) (epochHash_ s) true (maxAttestations s).

Definition with_winner (w : EpochSubmissionWinner) (d : EpochData) : EpochData :=
  mkEpochData (epochNumber d) (startBlock d) (endBlock d) (e_checksumRoot d) (previousEpochHash d)
    (attestedEpochNumber d) (attestedChecksumRoot d) (Some w).

Definition generated (s : t) : result epoch_error EpochTree :=
  match tree s with Some x => Ok x | None => Throw TreeNotGenerated end.

Definition root (s : t) : result epoch_error string := x ← generated s; Ok (tree_rootHex x).
Definition rootBuffer (s : t) : result epoch_error bytes := x ← generated s; Ok (tree_root x).
Definition epochHash (s : t) : result epoch_error bytes :=
  match epochHash_ s with Some h => Ok h | None => Throw EpochHashNotGenerated end.

Definition attestationToBytes (a : Attestation) : result epoch_error bytes :=
  from_lib (getBuffer 145
    [writeU8 (attestation_type_value (type a)); writeU64 (blockNumber a); writeBytes (a_checksumRoot a);
     writeBytes (signature a); writeU64 (timestamp a); writeAddress (publicKey a)]).

Definition epochDataToBytes (d : EpochData) : result epoch_error bytes :=
  let baseSize := 64 + 8 + 8 + 8 + 32 + 32 + 8 + 32 in
  match winner d with
  | None => Throw WinnerNotSet
  | Some w =>
      let winnerSize := 32 + 32 + 2 + 32 + 20 + Z.of_nat GRAFFITI_LENGTH in
      if decide (GRAFFITI_LENGTH < length (w_graffiti w))%nat then Throw GraffitiTooLong
      else from_lib (getBuffer (baseSize + winnerSize)
        [writeBytes chainId; writeBytes PROTOCOL_ID;
         writeU64 (epochNumber d); writeU64 (startBlock d); writeU64 (endBlock d); writeBytes (e_checksumRoot d);
         writeBytes (previousEpochHash d); writeU64 (attestedEpochNumber d); writeBytes (attestedChecksumRoot d);
         writeBytes (w_mldsaPublicKey w); writeBytes (w_legacyPublicKey w); writeU16 (Z.land (w_matchingBits w) 65535);
         writeBytes (w_salt w); writeBytes (w_solutionHash w); writeBytes (resized GRAFFITI_LENGTH (w_graffiti w))])
  end.

Definition setWinner (w : EpochSubmissionWinner) : op unit := fun s =>
  if frozen s then (s, Throw TreeFrozen)
  else (mk (tree s) (attestations s) (with_winner w (epochData s)) (epochBytes s) (epochHash_ s) (frozen s)
          (maxAttestations s), Ok tt).

Definition addBlockAttestation (a : Attestation) : op unit := fun s =>
  if frozen s then (s, Throw TreeFrozen)
  else if decide (blockNumber a < startBlock (epochData s) ∨ endBlock (epochData s) < blockNumber a)
  then (s, Throw (BlockNotInEpoch (blockNumber a)))
  else (set_attestations (attestations s ++
          [mkAttestation BLOCK_WITNESS (blockNumber a) (a_checksumRoot a) (signature a) (timestamp a) (publicKey a)]) s, Ok tt).

Definition dummyAttestation1 (d : EpochData) : Attestation :=
  mkAttestation EMPTY_ATTESTATION (startBlock d) (fromHex ZERO_HASH) (replicate 64 0) 0 Address_dead.
Definition dummyAttestation2 (d : EpochData) : Attestation :=
  mkAttestation EMPTY_ATTESTATION (endBlock d - 1) (fromHex ZERO_HASH) (replicate 64 1) 1 Address_dead.

Definition addDummyAttestations (s : t) : t :=
  set_attestations (attestations s ++ [dummyAttestation1 (epochData s); dummyAttestation2 (epochData s)]) s.

Definition generateTree : op unit := fun s =>
  if frozen s then (s, Throw TreeFrozen)
  else
    let s := if decide (length (attestations s) < 2)%nat then addDummyAttestations s else s in
    let s := set_attestations (sort_by (fun a => - timestamp a) (attestations s)) s in
    let selectedAttestations := slice_front (maxAttestations s) (attestations s) in
    match epochDataToBytes (epochData s) with
    | Throw e => (s, Throw e)
    | Ok b =>
        let s := mk (tree s) (attestations s) (epochData s) (Some b) (Some (sha256 b)) (frozen s) (maxAttestations s) in
        match rmap attestationToBytes selectedAttestations with
        | Throw e => (s, Throw e)
        | Ok attestationBytes =>
            (mk (Some (tree_new (b :: attestationBytes))) (attestations s) (epochData s) (epochBytes s) (epochHash_ s)
               (frozen s) (maxAttestations s), Ok tt)
        end
    end.

Definition freeze : op unit := _ ← generateTree; smod set_frozen.

Definition getProof (attestationIndex : nat) (s : t) : result epoch_error (list bytes) :=
  x ← generated s;
  match attestations s !! attestationIndex with
  | None => Throw IndexOutOfBounds
  | Some a => b ← attestationToBytes a; from_lib (tree_getProof x b)
  end.

Definition getEpochDataProof (epochDataBytes : option bytes) (s : t) : result epoch_error (list bytes) :=
  match epochDataBytes with
  | None => Throw EpochBytesMissing
  | Some b => x ← generated s; from_lib (tree_getProof x b)
  end.

Record AttestationProof : Type := mkAttestationProof {
  ap_attestation : Attestation;
  ap_checksumRoot : string;
  proofs : list bytes;
  ap_leafHash : string;
  ap_index : nat
}.

Definition getAttestationProofs (attestationIndex : nat) (s : t) : result epoch_error AttestationProof :=
  _ ← generated s;
  match attestations s !! attestationIndex with
  | None => Throw IndexOutOfBounds
  | Some a =>
      b ← attestationToBytes a;
      proof ← getProof attestationIndex s;
      Ok (mkAttestationProof a (toHex (a_checksumRoot a)) proof ("0x" +:+ toHex (tree_hash b))%string attestationIndex)
  end.

Definition getAllAttestationProofs (s : t) : result epoch_error (list AttestationProof) :=
  _ ← generated s;
  rmap (fun i => getAttestationProofs i s) (seq 0 (length (attestations s))).

(** The winner in hexadecimal. *)
Record WinnerProof : Type := mkWinnerProof {
  wp_mldsaPublicKey : string;
  wp_legacyPublicKey : string;
  wp_matchingBits : Z;
  wp_salt : string;
  wp_solutionHash : string;
  wp_graffiti : string
}.

Record EpochDataProof : Type := mkEpochDataProof {
  ep_epochNumber : Z;
  ep_startBlock : Z;
  ep_endBlock : Z;
  ep_checksumRoot : string;
  ep_previousEpochHash : string;
  ep_attestedEpochNumber : Z;
  ep_attestedChecksumRoot : string;
  ep_winner : option WinnerProof;
  ep_proof : list bytes;
  ep_leafHash : string
}.

Definition getEpochData (s : t) : result epoch_error EpochDataProof :=
  _ ← generated s;
  let d := epochData s in
  epochDataBytes ← (match epochBytes s with Some b => Ok b | None => epochDataToBytes d end);
  proof ← getEpochDataProof (Some epochDataBytes) s;
  Ok (mkEpochDataProof (epochNumber d) (startBlock d) (endBlock d) (toHex (e_checksumRoot d)) (toHex (previousEpochHash d))
        (attestedEpochNumber d) (toHex (attestedChecksumRoot d))
        ((fun w => mkWinnerProof (toHex (w_mldsaPublicKey w)) (toHex (w_legacyPublicKey w)) (w_matchingBits w)
                     (toHex (w_salt w)) (toHex (w_solutionHash w)) (toHex (w_graffiti w))) <$> winner d)
        proof ("0x" +:+ toHex (tree_hash epochDataBytes))%string).

Record CompleteEpochMerkleTreeExport : Type := mkExport {
  x_root : string;
  x_hash : string;
  x_epoch : EpochDataProof;
  x_attestations : list AttestationProof
}.

Definition export (s : t) : result epoch_error CompleteEpochMerkleTreeExport :=
  r ← root s;
  h ← epochHash s;
  e ← getEpochData s;
  l ← getAllAttestationProofs s;
  Ok (mkExport r ("0x" +:+ toHex h)%string e l).

(** The static functions that check an export. *)
Definition verifyAttestation (root : bytes) (a : Attestation) (proof : list bytes) : result epoch_error bool :=
  b ← attestationToBytes a; Ok (proof_verify proof root (tree_hash b)).

Definition verifyEpochData (root : bytes) (proofs : list bytes) (data : bytes) : bool := proof_verifyData proofs root data.

Record EpochTreeVerification : Type := mkVerification {
  epochData_isValid : bool;
  epochData_computedRoot : string;
  attestationVerifications : list (bool * string);
  allValid : bool;
  validCount : nat;
  totalCount : nat
}.

Definition exported_data (e : EpochDataProof) (w : WinnerProof) : EpochData :=
  mkEpochData (ep_epochNumber e) (ep_startBlock e) (ep_endBlock e) (stringToBuffer (ep_checksumRoot e))
    (stringToBuffer (ep_previousEpochHash e)) (ep_attestedEpochNumber e) (stringToBuffer (ep_attestedChecksumRoot e))
    (Some (mkWinner (ep_epochNumber e) (wp_matchingBits w) (stringToBuffer (wp_salt w)) (fromHex (wp_mldsaPublicKey w))
             (fromHex (wp_legacyPublicKey w)) (stringToBuffer (wp_solutionHash w)) (fromHex (wp_graffiti w)))).

Definition verify_one (root : bytes) (p : AttestationProof) : result epoch_error (bool * string) :=
  let a := ap_attestation p in
  let attestation := mkAttestation (type a) (blockNumber a) (fromHex (strip0x (ap_checksumRoot p))) (signature a)
                       (timestamp a) (publicKey a) in
  isValid ← verifyAttestation root attestation (proofs p);
  Ok (isValid, proof_rootHex (proofs p) (fromHex (strip0x (ap_leafHash p)))).

Definition verify (x : CompleteEpochMerkleTreeExport) : result epoch_error EpochTreeVerification :=
  let root := stringToBuffer (x_root x) in
  match ep_winner (x_epoch x) with
  | None => Throw WinnerNotSet
  | Some w =>
      epochDataBytes ← epochDataToBytes (exported_data (x_epoch x) w);
      let epochDataValid := verifyEpochData root (ep_proof (x_epoch x)) epochDataBytes in
      let epochDataRoot := proof_rootHex (ep_proof (x_epoch x)) (stringToBuffer (ep_leafHash (x_epoch x))) in
      l ← rmap (verify_one root) (x_attestations x);
      let validCount := (length (List.filter fst l) + if epochDataValid then 1 else 0)%nat in
      let totalCount := (length l + 1)%nat in
      Ok (mkVerification epochDataValid epochDataRoot l (bool_decide (validCount = totalCount)) validCount totalCount)
  end.

Definition verifyProof (leafData : bytes) (proof : list bytes) (s : t) : result epoch_error bool :=
  r ← rootBuffer s; Ok (proof_verify proof r (tree_hash leafData)).
End EpochMerkleTree.
End EpochMerkleTree.
