(* ===== verification/EpochManager.v ===== *)
(** * Epochs: the database, the manager and the submissions of a block
    (processor/epoch/EpochManager.ts, processor/epoch/EpochReindexer.ts,
    db/repositories/EpochRepository.ts, EpochSubmissionsRepository.ts,
    TargetEpochRepository.ts, BlockWitnessRepository.ts, processor/block/Block.ts)

    A block that is executed saves the solutions its transactions submit; the
    first block of an epoch closes the one before: its winner is chosen among the
    saved submissions and the tree is built from the attestations of its blocks.
    The database answers, and its errors are not modelled. *)

From S2P Require Import Prelude Consensus HeaderValidator TransactionSorter Evaluation MLDSA TransactionParsing Epochs.
Import EpochMerkleTree.

(** ** Documents *)

Record IEpochMiner : Type := mkMiner {
  m_solution : bytes;
  m_mldsaPublicKey : bytes;
  m_legacyPublicKey : bytes;
  m_salt : bytes;
  m_graffiti : option bytes
}.

Record IEpochDocument : Type := mkEpoch {
  ed_epochNumber : Z;
  ed_epochHash : bytes;
  ed_epochRoot : bytes;
  ed_startBlock : Z;
  ed_endBlock : Z;
  ed_difficultyScaled : string;
  ed_targetHash : bytes;
  ed_proposer : IEpochMiner;
  ed_proofs : list bytes
}.

Record IEpochSubmissionsDocument : Type := mkSubmissionDocument {
  sd_confirmedAt : Z;
  sd_epochNumber : Z;
  sd_startBlock : Z;
  sd_submissionTxId : bytes;
  sd_submissionTxHash : bytes;
  sd_submissionHash : bytes;
  sd_epochProposed : IEpochMiner
}.

(** No document has a field [publicKey]. *)
Record ITargetEpochDocument : Type := mkTarget {
  td_epochNumber : Z;
  td_difficulty : Z;
  td_salt : bytes;
  td_mldsaPublicKey : bytes;
  td_legacyPublicKey : bytes;
  td_graffiti : option bytes;
  td_signature : bytes
}.
Definition td_publicKey (_ : ITargetEpochDocument) : option bytes := None.

Record IBlockWitnessDocument : Type := mkWitness {
  bw_blockNumber : Z;
  bw_identity : option string;
  bw_publicKey : option bytes;
  bw_signature : bytes;
  bw_timestamp : Z;
  bw_proofs : list bytes
}.

(** A witness of a block, as it is sent (BlockHeaderWitness.ts). *)
Record OPNetBlockWitness : Type := mkOPNetWitness {
  ow_identity : option string;
  ow_publicKey : option bytes;
  ow_signature : bytes;
  ow_timestamp : Z
}.

#[export] Instance IEpochMiner_eq : EqDecision IEpochMiner.
Proof. solve_decision. Defined.
#[export] Instance IBlockWitnessDocument_eq : EqDecision IBlockWitnessDocument.
Proof. solve_decision. Defined.

(** ** The database *)

Module EpochDatabase.
Section EpochDatabase.
Context {LB : BtcLib} {LV : @VMLib LB} {LE : @EpochLib LB}.

Record t : Type := mk {
  (** the checksums of the stored headers, by height *)
  headers : list (Z * string);
  epochs : list IEpochDocument;
  submissions : list IEpochSubmissionsDocument;
  targets : list ITargetEpochDocument;
  witnesses : list IBlockWitnessDocument
}.

Definition set_epochs (l : list IEpochDocument) (d : t) : t := mk (headers d) l (submissions d) (targets d) (witnesses d).
Definition set_submissions (l : list IEpochSubmissionsDocument) (d : t) : t :=
  mk (headers d) (epochs d) l (targets d) (witnesses d).
Definition set_targets (l : list ITargetEpochDocument) (d : t) : t := mk (headers d) (epochs d) (submissions d) l (witnesses d).
Definition set_witnesses (l : list IBlockWitnessDocument) (d : t) : t := mk (headers d) (epochs d) (submissions d) (targets d) l.

Definition getBlockHeader (height : Z) (d : t) : option string := JsMap.get (headers d) height.

(** EpochRepository *)
Definition getEpochByNumber (n : Z) (d : t) : option IEpochDocument :=
  List.find (fun e => bool_decide (ed_epochNumber e = n)) (epochs d).

(** [updatePartial]: the first document that matches is replaced, or it is inserted. *)
Fixpoint upsert {A} (P : A → bool) (x : A) (l : list A) : list A :=
  match l with
  | [] => [x]
  | y :: l' => if P y then x :: l' else y :: upsert P x l'
  end.

Definition saveEpoch (e : IEpochDocument) (d : t) : t :=
  set_epochs (upsert (fun x => bool_decide (ed_epochNumber x = ed_epochNumber e)) e (epochs d)) d.

Definition deleteEpochsFromEpochNumber (n : Z) (d : t) : t :=
  set_epochs (List.filter (fun e => negb (bool_decide (n ≤ ed_epochNumber e))) (epochs d)) d.

Definition in_block_range (startBlock endBlock : Z) (e : IEpochDocument) : bool :=
  bool_decide (startBlock ≤ ed_startBlock e ≤ endBlock)
  || bool_decide (startBlock ≤ ed_endBlock e ≤ endBlock)
  || bool_decide (ed_startBlock e ≤ startBlock ∧ endBlock ≤ ed_endBlock e).

Definition getEpochsInBlockRange (startBlock endBlock : Z) (d : t) : list IEpochDocument :=
  sort_by ed_epochNumber (List.filter (in_block_range startBlock endBlock) (epochs d)).

Definition add_solution (c : ChallengeSolution) (e : IEpochDocument) : ChallengeSolution :=
  let minerAddress := addressOf (m_mldsaPublicKey (ed_proposer e)) in
  let solutionArray := default [] (m_get (solutions c) minerAddress) ++ [m_solution (ed_proposer e)] in
  mkChallenges (m_set (solutions c) minerAddress solutionArray)
    (m_set (legacyPublicKeys c) minerAddress (m_legacyPublicKey (ed_proposer e))).

Definition getChallengeSolutionsAtHeight (C : IOPNetConsensus) (blockHeight : Z) (d : t) : ChallengeSolution :=
  let adjustedEndBlock := blockHeight - BLOCKS_PER_EPOCH (EPOCH C) in
  let epochs := getEpochsInBlockRange (adjustedEndBlock - SOLUTION_LIFETIME (EPOCH C)) adjustedEndBlock d in
  foldl add_solution (mkChallenges m_empty m_empty) epochs.

(** EpochSubmissionRepository *)
Definition getSubmissionsByEpochNumber (n : Z) (d : t) : list IEpochSubmissionsDocument :=
  sort_by sd_confirmedAt (List.filter (fun s => bool_decide (sd_epochNumber s = n)) (submissions d)).

Definition saveSubmission (s : IEpochSubmissionsDocument) (d : t) : t :=
  set_submissions (upsert (fun x => bool_decide (sd_submissionTxHash x = sd_submissionTxHash s)) s (submissions d)) d.

Definition submissionExists (mldsaPublicKey salt : bytes) (n : Z) (d : t) : bool :=
  existsb (fun s => bool_decide (sd_epochNumber s = n ∧ m_mldsaPublicKey (sd_epochProposed s) = mldsaPublicKey ∧
                                 m_salt (sd_epochProposed s) = salt)) (submissions d).

(** TargetEpochRepository *)
Definition targetEpochExists (n : Z) (salt mldsaPublicKey : bytes) (d : t) : bool :=
  existsb (fun x => bool_decide (td_epochNumber x = n ∧ td_salt x = salt ∧ td_publicKey x = Some mldsaPublicKey)) (targets d).

Definition getBestTargetEpoch (n : Z) (d : t) : option ITargetEpochDocument :=
  head (sort_by (fun x => - td_difficulty x) (List.filter (fun x => bool_decide (td_epochNumber x = n)) (targets d))).

Definition saveTargetEpoch (x : ITargetEpochDocument) (d : t) : t :=
  set_targets (upsert (fun y => bool_decide (td_epochNumber y = td_epochNumber x ∧ td_salt y = td_salt x ∧
                                              td_mldsaPublicKey y = td_mldsaPublicKey x)) x (targets d)) d.

Definition deleteOldTargetEpochs (n : Z) (d : t) : t :=
  set_targets (List.filter (fun x => negb (bool_decide (td_epochNumber x < n))) (targets d)) d.

(** BlockWitnessRepository *)
Definition getWitnesses (height limit : Z) (d : t) : list IBlockWitnessDocument :=
  let l := List.filter (fun w => bool_decide (bw_blockNumber w = height)) (witnesses d) in
  if decide (limit = 0) then l else slice_front limit l.

Definition getWitnessesForEpoch (startBlock endBlock limitPerBlock : Z) (d : t) : list IBlockWitnessDocument :=
  sort_by bw_blockNumber
    (concat (map (fun height => getWitnesses height limitPerBlock d) (seqZ startBlock (endBlock - startBlock + 1)))).

Definition with_proofs (p : list bytes) (w : IBlockWitnessDocument) : IBlockWitnessDocument :=
  mkWitness (bw_blockNumber w) (bw_identity w) (bw_publicKey w) (bw_signature w) (bw_timestamp w) p.

Fixpoint update_first {A} (P : A → bool) (f : A → A) (l : list A) : list A :=
  match l with
  | [] => []
  | y :: l' => if P y then f y :: l' else y :: update_first P f l'
  end.

(** One update; the count of modified documents is checked at the end, when they
    are modified already, and its error is lost. *)
Definition update_proof (l : list IBlockWitnessDocument) (p : AttestationProof) : list IBlockWitnessDocument :=
  let a := ap_attestation p in
  update_first (fun w => bool_decide (bw_blockNumber w = blockNumber a ∧ bw_publicKey w = Some (addressBytes (publicKey a)) ∧
                                      bw_signature w = signature a)) (with_proofs (proofs p)) l.

(** [setBlockWitnesses]: one upsert for each witness that has an identity, by its
    block and its identity; [$set] keeps the proofs of a document.
    [stored_date] is what the database gives back for [new Date(n)]. *)
Definition set_witness (stored_date : Z → Z) (height : Z) (l : list IBlockWitnessDocument) (w : OPNetBlockWitness)
  : list IBlockWitnessDocument :=
  let update proofs := mkWitness height (ow_identity w) (ow_publicKey w) (ow_signature w) (stored_date (ow_timestamp w)) proofs in
  let P d := bool_decide (bw_blockNumber d = height ∧ bw_identity d = ow_identity w) in
  if truthy_ostr (ow_identity w)
  then if existsb P l then update_first P (fun d => update (bw_proofs d)) l else l ++ [update []]
  else l.

Definition setBlockWitnesses (stored_date : Z → Z) (height : Z) (ws : list OPNetBlockWitness) (d : t) : t :=
  set_witnesses (foldl (set_witness stored_date height) (witnesses d) ws) d.

Definition updateWitnessProofs (l : list AttestationProof) (d : t) : t := set_witnesses (foldl update_proof (witnesses d) l) d.
End EpochDatabase.
End EpochDatabase.

(** ** EpochManager *)

Module EpochManager.
Import EpochDatabase.
Section EpochManager.
Context {LB : BtcLib} {LV : @VMLib LB} {LE : @EpochLib LB}.
Context (C : IOPNetConsensus) (CHAIN_ID : ChainIds) (NETWORK : BitcoinNetwork) (MAX_ATTESTATION_PER_BLOCK : Z) (chainId : bytes).

Abbreviation bpe := (BLOCKS_PER_EPOCH (EPOCH C)).
Abbreviation graffiti_length := (Z.to_nat (GRAFFITI_LENGTH (EPOCH C))).

Definition op : Type → Type := stx EpochDatabase.t epoch_error.

Definition GENESIS_SALT : bytes := replicate 32 255.

Fixpoint compare_loop (a b : bytes) : option Z :=
  match a, b with
  | x :: a', y :: b' => if decide (x ≠ y) then Some (x - y) else compare_loop a' b'
  | _, _ => None
  end.

Definition compareBytes (a b : bytes) : Z :=
  match compare_loop a b with Some c => c | None => Z.of_nat (length a) - Z.of_nat (length b) end.

Definition submissionExists (epochNumber : Z) (salt mldsaPublicKey : bytes) (d : EpochDatabase.t) : bool :=
  EpochDatabase.submissionExists mldsaPublicKey salt epochNumber d.

Definition getPendingEpochTarget (currentEpoch : Z) (d : EpochDatabase.t) : result epoch_error EpochValidator.PendingTargetEpoch :=
  if decide (currentEpoch = 0)
  then let target := replicate 32 0 in Ok (EpochValidator.mkPending target (sha1 target) 0)
  else EpochValidator.getEpochData C (fun h => getBlockHeader h d) currentEpoch.

Record ValidatedSolutionResult : Type := mkValidated { vr_valid : bool; vr_matchingBits : Z; vr_hash : bytes }.

Definition minDifficulty : Z := if decide (MIN_DIFFICULTY (EPOCH C) = 0) then 20 else MIN_DIFFICULTY (EPOCH C).

Definition graffiti_too_long (g : option bytes) : bool :=
  match g with Some b => bool_decide (GRAFFITI_LENGTH (EPOCH C) < Z.of_nat (length b)) | None => false end.

Definition validateEpochSubmission (s : Submission) (blockHeight : Z) (pendingTarget : EpochValidator.PendingTargetEpoch)
  : ValidatedSolutionResult :=
  let currentEpoch := Z.quot blockHeight bpe in
  if decide (currentEpoch = 0) then mkValidated false 0 []
  else if decide (EpochValidator.nextEpochNumber pendingTarget ≠ currentEpoch) then mkValidated false 0 []
  else
    let preimage := EpochValidator.calculatePreimage (EpochValidator.pt_checksumRoot pendingTarget) (submission_key s)
                      (submission_salt s) in
    let hash := sha1 preimage in
    let matchingBits := EpochValidator.countMatchingBits hash (EpochValidator.pt_targetHash pendingTarget) in
    if decide (matchingBits < minDifficulty) then mkValidated false matchingBits hash
    else if decide (length (submission_salt s) ≠ 32%nat) then mkValidated false matchingBits hash
    else if graffiti_too_long (graffiti s) then mkValidated false matchingBits hash
    else mkValidated true matchingBits hash.

Definition getPreviousEpochHash (n : Z) (d : EpochDatabase.t) : result epoch_error bytes :=
  if decide (n = 0) then Ok (replicate 32 0)
  else match getEpochByNumber (n - 1) d with
       | None => Throw (NoEpochFound (n - 1))
       | Some e => Ok (ed_epochHash e)
       end.

Definition getMiningTargetBlock (n : Z) : option Z := if decide (n = 0) then None else Some (n * bpe - 1).

(** A checksum root of 32 bytes from its hexadecimal form. *)
Definition checksum_root (s : string) : result epoch_error bytes :=
  let root := stringToBuffer s in
  if decide (length root ≠ 32%nat) then Throw InvalidChecksumRoot else Ok root.

Definition getMiningTargetChecksum (targetBlock : option Z) (d : EpochDatabase.t) : result epoch_error (option bytes) :=
  match targetBlock with
  | None => Ok None
  | Some h => match getBlockHeader h d with
              | None => Throw (HeaderNotFound h)
              | Some s => root ← checksum_root s; Ok (Some root)
              end
  end.

Definition add_root (d : EpochDatabase.t) (m : list (Z * bytes)) (h : Z) : result epoch_error (list (Z * bytes)) :=
  match getBlockHeader h d with
  | None => Ok m
  | Some s => root ← checksum_root s; Ok (JsMap.set m h root)
  end.

Definition getChecksumRoots (startBlock endBlock : Z) (d : EpochDatabase.t) : result epoch_error (list (Z * bytes)) :=
  rfold (add_root d) [] (seqZ startBlock (endBlock - startBlock + 1)).

Record AttestationEpoch : Type := mkAttested { at_root : bytes; at_epochNumber : Z }.

Definition getAttestationChecksumRoot (n : Z) (d : EpochDatabase.t) : result epoch_error AttestationEpoch :=
  let targetEpochNumber := n - 4 in
  if decide (n < 4) then Ok (mkAttested (replicate 32 0) targetEpochNumber)
  else match getEpochByNumber targetEpochNumber d with
  | None => Throw (NoEpochFound targetEpochNumber)
  | Some e =>
      match getBlockHeader (ed_endBlock e) d with
      | None => Throw (HeaderNotFound (ed_endBlock e))
      | Some s => root ← checksum_root s; Ok (mkAttested root targetEpochNumber)
      end
  end.

(** A block number that is set and not zero, at or below [h]. *)
Definition reached (b : option Z) (h : Z) : bool :=
  match b with Some b => negb (bool_decide (b = 0)) && bool_decide (b ≤ h) | None => false end.

Definition filterEarlyMiningSubmissions (l : list IEpochSubmissionsDocument) (endBlock : Z) : list IEpochSubmissionsDocument :=
  match EARLY_MINING (EPOCH C) ≫= fun m => network_lookup m CHAIN_ID NETWORK with
  | None => l
  | Some c =>
      if negb (EM_ENABLED c) then l
      else match WHITELISTED_PUBLIC_KEY c with
      | None => l
      | Some whitelistedKey =>
          let patch2Active := reached (PATCH_2_ENABLE_AT_BLOCK c) endBlock && negb (reached (EXPIRES_AT_BLOCK_PATCH_2 c) endBlock) in
          let originalExpired := reached (EXPIRES_AT_BLOCK c) endBlock in
          if originalExpired && negb patch2Active then l
          else List.filter (fun s => bool_decide (whitelistedKey = addressOf (m_mldsaPublicKey (sd_epochProposed s)))) l
      end
  end.

(** The comparator of [getWinningSubmission]. *)
Definition compareSubmissions (targetHash : bytes) (a b : IEpochSubmissionsDocument) : stx unit epoch_error Z := fun u => (u,
  let aPublicKey := m_mldsaPublicKey (sd_epochProposed a) in
  let bPublicKey := m_mldsaPublicKey (sd_epochProposed b) in
  if decide (length aPublicKey < 32 ∨ length bPublicKey < 32)%nat then Throw InvalidTiebreakKey
  else
    let pubKeyComparison := compareBytes aPublicKey bPublicKey in
    if decide (pubKeyComparison ≠ 0) then Ok pubKeyComparison
    else
      let hashCompare := compareBytes (sd_submissionTxHash a) (sd_submissionTxHash b) in
      if decide (hashCompare ≠ 0) then Ok hashCompare
      else
        let aPublicKeySlice := drop 12 aPublicKey in
        let bPublicKeySlice := drop 12 bPublicKey in
        if decide (length aPublicKeySlice = 20%nat ∧ length bPublicKeySlice = 20%nat) then
          let aPublicKeyBits := EpochValidator.countMatchingBits aPublicKeySlice targetHash in
          let bPublicKeyBits := EpochValidator.countMatchingBits bPublicKeySlice targetHash in
          if decide (aPublicKeyBits ≠ bPublicKeyBits) then Ok (bPublicKeyBits - aPublicKeyBits)
          else
            let saltComparison := compareBytes (m_salt (sd_epochProposed a)) (m_salt (sd_epochProposed b)) in
            if decide (saltComparison ≠ 0) then Ok saltComparison
            else Ok (compareBytes (sd_submissionTxId a) (sd_submissionTxId b))
        else Throw InvalidTiebreakKey).

Definition getWinningSubmission (l : list IEpochSubmissionsDocument) (targetHash : bytes)
  : result epoch_error IEpochSubmissionsDocument :=
  match js_sort (compareSubmissions targetHash) l tt with
  | (_, Throw e) => Throw e
  | (_, Ok []) => Throw NoWinningSubmission
  | (_, Ok (x :: _)) => Ok x
  end.

(** One turn of the search of the best submissions. *)
Definition consider (targetHash : bytes) (best : list IEpochSubmissionsDocument * Z) (s : IEpochSubmissionsDocument)
  : list IEpochSubmissionsDocument * Z :=
  let solutionHash := m_solution (sd_epochProposed s) in
  if decide (length solutionHash ≠ 20%nat) then best
  else
    let matchingBits := EpochValidator.countMatchingBits solutionHash targetHash in
    if decide (matchingBits = best.2) then (best.1 ++ [s], best.2)
    else if decide (best.2 < matchingBits) then ([s], matchingBits)
    else best.

Definition winner_of (s : IEpochSubmissionsDocument) (bestMatchingBits : Z) : EpochSubmissionWinner :=
  let p := sd_epochProposed s in
  mkWinner (sd_epochNumber s) bestMatchingBits (m_salt p) (m_mldsaPublicKey p) (m_legacyPublicKey p) (sd_submissionHash s)
    (default (replicate graffiti_length 0) (m_graffiti p)).

Definition getBestSubmission (l : list IEpochSubmissionsDocument) (targetHash : bytes) (endBlock : Z)
  : result epoch_error (option EpochSubmissionWinner) :=
  let eligibleSubmissions := filterEarlyMiningSubmissions l endBlock in
  let '(bestSubmissions, bestMatchingBits) := foldl (consider targetHash) ([], 0) eligibleSubmissions in
  match bestSubmissions with
  | [] => Ok None
  | _ => s ← getWinningSubmission bestSubmissions targetHash; Ok (Some (winner_of s bestMatchingBits))
  end.

Definition witnessToAttestation (w : IBlockWitnessDocument) (checkSumRoots : list (Z * bytes))
  : result epoch_error (option Attestation) :=
  match JsMap.get checkSumRoots (bw_blockNumber w) with
  | None => Throw (NoChecksumRoot (bw_blockNumber w))
  | Some root =>
      Ok ((fun k => mkAttestation BLOCK_WITNESS (bw_blockNumber w) root (bw_signature w) (bw_timestamp w) (addressOf k))
            <$> bw_publicKey w)
  end.

(** What an epoch is closed with. *)
Record IEpoch : Type := mkIEpoch {
  ie_startBlock : Z;
  ie_targetHash : bytes;
  ie_solution : bytes;
  ie_salt : bytes;
  ie_mldsaPublicKey : bytes;
  ie_legacyPublicKey : bytes;
  ie_graffiti : bytes;
  ie_solutionBits : Z;
  ie_epochRoot : bytes;
  ie_epochHash : bytes;
  ie_proofs : list bytes
}.

Definition createEpoch (e : IEpoch) : IEpochDocument :=
  mkEpoch (Z.quot (ie_startBlock e) bpe) (ie_epochHash e) (ie_epochRoot e) (ie_startBlock e) (ie_startBlock e + bpe - 1)
    (pretty (EpochDifficultyConverter.bitsToScaledDifficulty (ie_solutionBits e))) (ie_targetHash e)
    (mkMiner (ie_solution e) (ie_mldsaPublicKey e) (ie_legacyPublicKey e) (ie_salt e) (Some (ie_graffiti e))) (ie_proofs e).

Abbreviation freeze_ := (freeze chainId (PROTOCOL_ID C) graffiti_length).

(** [addBlockAttestation] of the witnesses that have a key. *)
Fixpoint add_attestations (l : list IBlockWitnessDocument) (roots : list (Z * bytes)) : stx EpochMerkleTree.t epoch_error unit :=
  match l with
  | [] => mret tt
  | w :: l' =>
      a ← slift (witnessToAttestation w roots);
      _ ← (match a with None => mret tt | Some a => addBlockAttestation a end);
      add_attestations l' roots
  end.

Definition proposer (winningSubmission : option EpochSubmissionWinner) (n : Z) : bytes * bytes * bytes * bytes :=
  let genesis := GENESIS_PROPOSER_PUBLIC_KEY (EPOCH C) in
  match winningSubmission with
  | Some w => if decide (n = 0)
              then (GENESIS_SALT, addressBytes genesis, originalPublicKeyBuffer genesis, replicate graffiti_length 0)
              else (w_salt w, w_mldsaPublicKey w, w_legacyPublicKey w, w_graffiti w)
  | None => (GENESIS_SALT, addressBytes genesis, originalPublicKeyBuffer genesis, replicate graffiti_length 0)
  end.

(** The document of an epoch, and the proofs of its attestations. *)
Definition closed_epoch (startBlock endBlock : Z) (roots : list (Z * bytes)) (submissions : list IEpochSubmissionsDocument)
    (witnesses : list IBlockWitnessDocument) (n : Z) (previousEpochHash : bytes) (attestation : AttestationEpoch)
    (miningTargetChecksum : option bytes) : result epoch_error (IEpochDocument * list AttestationProof) :=
  let checksumRoot := if decide (n = 0) then replicate 32 0 else default (replicate 32 0) miningTargetChecksum in
  let targetHash := sha1 checksumRoot in
  winningSubmission ← getBestSubmission submissions targetHash endBlock;
  if match winningSubmission with Some w => bool_decide (w_epochNumber w ≠ n) | None => false end then Throw WinnerMismatch
  else
    let '(salt, mldsaPublicKey, legacyPublicKey, graffiti) := proposer winningSubmission n in
    if decide (length salt ≠ 32%nat) then Throw InvalidSaltLength
    else
      let solution := EpochValidator.calculatePreimage checksumRoot mldsaPublicKey salt in
      let solutionHash := sha1 solution in
      let matchingBits := EpochValidator.countMatchingBits solutionHash targetHash in
      let epochData := mkEpochData n startBlock endBlock checksumRoot previousEpochHash (at_epochNumber attestation)
                         (at_root attestation) None in
      let epochWinner := mkWinner n matchingBits salt mldsaPublicKey legacyPublicKey solutionHash graffiti in
      match (_ ← setWinner epochWinner; _ ← add_attestations witnesses roots; freeze_)
              (construct epochData default_maxAttestations) with
      | (_, Throw e) => Throw e
      | (epoch, Ok _) =>
          epochRoot ← rootBuffer epoch;
          hash ← epochHash epoch;
          proofs ← getEpochDataProof (epochBytes epoch) epoch;
          all ← getAllAttestationProofs epoch;
          Ok (createEpoch (mkIEpoch startBlock targetHash solutionHash salt mldsaPublicKey legacyPublicKey graffiti
                             matchingBits epochRoot hash proofs), all)
      end.

Definition finalizeEpoch (startBlock endBlock : Z) (roots : list (Z * bytes)) (submissions : list IEpochSubmissionsDocument)
    (witnesses : list IBlockWitnessDocument) (n : Z) (previousEpochHash : bytes) (attestation : AttestationEpoch)
    (miningTargetChecksum : option bytes) : op unit := fun d =>
  match closed_epoch startBlock endBlock roots submissions witnesses n previousEpochHash attestation miningTargetChecksum with
  | Throw e => (d, Throw e)
  | Ok (doc, all) => (deleteOldTargetEpochs n (saveEpoch doc (updateWitnessProofs all d)), Ok tt)
  end.

Definition finalizeEpochCompletion (n : Z) : op unit := fun d =>
  if negb (EPOCH_ENABLED (EPOCH C)) then (d, Ok tt)
  else
    let startBlock := n * bpe in
    let endBlock := startBlock + bpe - 1 in
    let miningTargetBlock := getMiningTargetBlock n in
    match (lastEpoch ← getPreviousEpochHash n d;
           attestationChecksumRoot ← getAttestationChecksumRoot n d;
           let submissions := if decide (n = 0) then [] else getSubmissionsByEpochNumber n d in
           let witnesses := getWitnessesForEpoch startBlock endBlock MAX_ATTESTATION_PER_BLOCK d in
           checkSumRoots ← getChecksumRoots startBlock endBlock d;
           miningTarget ← getMiningTargetChecksum miningTargetBlock d;
           Ok (lastEpoch, attestationChecksumRoot, submissions, witnesses, checkSumRoots, miningTarget)) with
    | Throw e => (d, Throw e)
    | Ok (lastEpoch, attestationChecksumRoot, submissions, witnesses, checkSumRoots, miningTarget) =>
        finalizeEpoch startBlock endBlock checkSumRoots submissions witnesses n lastEpoch attestationChecksumRoot
          miningTarget d
    end.

Definition updateEpoch (currentHeight : Z) : op unit := fun d =>
  if decide (Z.rem currentHeight bpe = 0 ∧ 0 < currentHeight)
  then finalizeEpochCompletion (Z.quot currentHeight bpe - 1) d
  else (d, Ok tt).
End EpochManager.
End EpochManager.

(** ** EpochReindexer *)

Module EpochReindexer.
Import EpochDatabase.
Section EpochReindexer.
Context {LB : BtcLib} {LV : @VMLib LB} {LE : @EpochLib LB}.
Context (C : IOPNetConsensus) (CHAIN_ID : ChainIds) (NETWORK : BitcoinNetwork) (MAX_ATTESTATION_PER_BLOCK : Z) (chainId : bytes).

Abbreviation finalize := (EpochManager.finalizeEpochCompletion C CHAIN_ID NETWORK MAX_ATTESTATION_PER_BLOCK chainId).

Fixpoint reindex_loop (l : list Z) : EpochManager.op bool :=
  match l with
  | [] => mret true
  | epochNum :: l' => _ ← finalize epochNum; reindex_loop l'
  end.

(** [isReindexing] is reset however the reindexing ends; nothing aborts it. *)
Definition reindexEpochs (isReindexing : bool) (fromEpoch currentBlockHeight : Z) : EpochManager.op bool := fun d =>
  if isReindexing then (d, Throw ReindexInProgress)
  else
    let lastCompletedEpoch :=
      if decide (0 < currentBlockHeight) then Z.quot currentBlockHeight (BLOCKS_PER_EPOCH (EPOCH C)) - 1 else -1 in
    if decide (lastCompletedEpoch < 0) then (d, Ok true)
    else if decide (lastCompletedEpoch < fromEpoch) then (d, Ok true)
    else reindex_loop (seqZ fromEpoch (lastCompletedEpoch - fromEpoch + 1)) (deleteEpochsFromEpochNumber fromEpoch d).
End EpochReindexer.
End EpochReindexer.

(** ** The submissions of a block *)

Module BlockSubmissions.
Import EpochDatabase.
Section BlockSubmissions.
Context {LB : BtcLib} {LV : @VMLib LB} {LE : @EpochLib LB} `{KL : MapLib bytes}.
Context (C : IOPNetConsensus) (allowUnsafeSignatures : bool) (height : Z).

Record SubmittedTransaction : Type := mkSubmitted {
  st_submission : option Submission;
  st_transactionIdString : string;
  st_hash : bytes
}.

Record EpochSubmission : Type := mkEpochSubmission {
  es_submission : Submission;
  es_validationResult : option EpochManager.ValidatedSolutionResult;
  es_transactionId : string;
  es_txHash : string
}.

Definition generateSubmissionKey (s : Submission) : string :=
  (toHex (submission_salt s) +:+ "-" +:+ toHex (submission_key s))%string.

Definition extract_one (m : list (string * EpochSubmission)) (tx : SubmittedTransaction) : list (string * EpochSubmission) :=
  match st_submission tx with
  | None => m
  | Some s =>
      let key := generateSubmissionKey s in
      if JsMap.has m key then m
      else JsMap.set m key (mkEpochSubmission s None (st_transactionIdString tx) (toHex (st_hash tx)))
  end.

Definition extractUniqueSubmissions (transactions : list SubmittedTransaction) : list (string * EpochSubmission) :=
  foldl extract_one [] transactions.

Definition filterExistingSubmissions (currentEpoch : Z) (d : EpochDatabase.t) (m : list (string * EpochSubmission))
  : list (string * EpochSubmission) :=
  List.filter (fun '(_, x) => negb (EpochManager.submissionExists currentEpoch (submission_salt (es_submission x))
                                      (submission_key (es_submission x)) d)) m.

Definition validate_one (pendingTarget : EpochValidator.PendingTargetEpoch) (x : EpochSubmission) : EpochSubmission :=
  mkEpochSubmission (es_submission x)
    (Some (EpochManager.validateEpochSubmission C (es_submission x) height pendingTarget)) (es_transactionId x) (es_txHash x).

Definition validateSubmissions (pendingTarget : EpochValidator.PendingTargetEpoch) (m : list (string * EpochSubmission))
  : list (string * EpochSubmission) :=
  List.filter (fun '(_, x) => match es_validationResult x with Some r => EpochManager.vr_valid r | None => false end)
    (map (fun '(k, x) => (k, validate_one pendingTarget x)) m).

(** Whether the wallet of a submission is acceptable. *)
Definition wallet_ok (w : IMLDSAPublicKey) : bool :=
  allowUnsafeSignatures ||
  (match exposedBlockHeight w with Some h => negb (bool_decide (h = 0)) | None => false end &&
   match MLDSA.publicKey w with Some k => bool_decide (length k = 1312%nat) | None => false end).

(** The submissions of known keys, each with the legacy key of its wallet. *)
Fixpoint extended (l : list EpochSubmission) (links : MLDSALinks.t) : MLDSALinks.t * list (EpochSubmission * bytes) :=
  match l with
  | [] => (links, [])
  | x :: l' =>
      let key := submission_key (es_submission x) in
      let '(links, walletInfo) := MLDSALinks.getMLDSAPublicKey height key links in
      let '(links, rest) := extended l' links in
      match walletInfo with
      | Some w => if decide (addressOf key = Address_dead) then (links, rest)
                  else if wallet_ok w then (links, (x, legacyPublicKey w) :: rest) else (links, rest)
      | None => (links, rest)
      end
  end.

Definition submission_document (currentEpoch : Z) (x : EpochSubmission) (legacy : bytes) : IEpochSubmissionsDocument :=
  let s := es_submission x in
  let hash := match es_validationResult x with Some r => EpochManager.vr_hash r | None => [] end in
  mkSubmissionDocument height currentEpoch (currentEpoch * BLOCKS_PER_EPOCH (EPOCH C)) (fromHex (es_transactionId x))
    (fromHex (es_txHash x)) hash
    (mkMiner hash (submission_key s) legacy (submission_salt s) (graffiti s)).

Definition saveEpochSubmissions (m : list (string * EpochSubmission)) (links : MLDSALinks.t) (d : EpochDatabase.t)
  : MLDSALinks.t * EpochDatabase.t :=
  let currentEpoch := Z.quot height (BLOCKS_PER_EPOCH (EPOCH C)) in
  let '(links, l) := extended m.*2 links in
  (links, foldl (fun d '(x, legacy) => saveSubmission (submission_document currentEpoch x legacy) d) d l).

Definition processSubmissions (transactions : list SubmittedTransaction) (links : MLDSALinks.t)
  : stx EpochDatabase.t epoch_error MLDSALinks.t := fun d =>
  let currentEpoch := Z.quot height (BLOCKS_PER_EPOCH (EPOCH C)) in
  let m := filterExistingSubmissions currentEpoch d (extractUniqueSubmissions transactions) in
  match EpochManager.getPendingEpochTarget C currentEpoch d with
  | Throw e => (d, Throw e)
  | Ok pendingTarget =>
      let '(links, d) := saveEpochSubmissions (validateSubmissions pendingTarget m) links d in (d, Ok links)
  end.
End BlockSubmissions.
End BlockSubmissions.

(** ** Blocks: IndexingTask.processBlock, then BlockIndexer.onCompletedTask *)

Module EpochBlocks.
Import EpochDatabase.
Section EpochBlocks.
Context {LB : BtcLib} {LV : @VMLib LB} {LE : @EpochLib LB} `{KL : MapLib bytes}.
Context (C : IOPNetConsensus) (CHAIN_ID : ChainIds) (NETWORK : BitcoinNetwork) (MAX_ATTESTATION_PER_BLOCK : Z) (chainId : bytes).
Context (allowUnsafeSignatures : bool) (stored_date : Z → Z).

Definition set_headers (l : list (Z * string)) (d : t) : t := mk l (epochs d) (submissions d) (targets d) (witnesses d).
Definition saveHeader (height : Z) (checksum : string) (d : t) : t := set_headers (JsMap.set (headers d) height checksum) d.

(** What becomes of the epochs when a block that is executed is saved. [links]
    are the ML-DSA links as its execution leaves them. *)
Definition index_block (height : Z) (checksum : string) (transactions : list BlockSubmissions.SubmittedTransaction)
    (links : MLDSALinks.t) : EpochManager.op unit :=
  _ ← BlockSubmissions.processSubmissions C allowUnsafeSignatures height transactions links;
  _ ← (fun d => (saveHeader height checksum d, Ok tt));
  EpochManager.updateEpoch C CHAIN_ID NETWORK MAX_ATTESTATION_PER_BLOCK chainId height.

(** What happens to the database: blocks, in order, and witnesses of blocks. *)
Inductive event : Type :=
| BlockIndexed (checksum : string) (transactions : list BlockSubmissions.SubmittedTransaction) (links : MLDSALinks.t)
| WitnessesSaved (height : Z) (ws : list OPNetBlockWitness).

Definition happen (e : event) : stx (Z * t) epoch_error unit := fun '(height, d) =>
  match e with
  | BlockIndexed checksum transactions links =>
      let '(d, r) := index_block height checksum transactions links d in
      ((match r with Ok _ => height + 1 | Throw _ => height end, d), r)
  | WitnessesSaved block ws => ((height, setBlockWitnesses stored_date block ws d), Ok tt)
  end.

Fixpoint history (l : list event) : stx (Z * t) epoch_error unit :=
  match l with [] => mret tt | e :: l' => _ ← happen e; history l' end.
End EpochBlocks.
End EpochBlocks.
