(* ===== verification/EpochFacts.v ===== *)
(** * What the solutions, the winner and the tree of an epoch are

    The difficulty of a solution is the length of a common prefix of bits; the
    winner of an epoch is the best submission, whatever the order of the
    submissions; every proof a tree gives verifies against its root. *)

From S2P Require Import Prelude Consensus HeaderValidator TransactionSorter TransactionSorterFacts Evaluation MLDSA TransactionParsing Epochs EpochManager.
Import EpochMerkleTree.

(** ** The difficulty *)

Section Difficulty.
Context {LB : BtcLib} {LE : @EpochLib LB}.

(** The bits of a byte string, the most significant of each byte first. *)
Fixpoint low_bits (n : nat) (x : Z) : list bool :=
  match n with O => [] | S b => Z.testbit x (Z.of_nat b) :: low_bits b x end.
Definition bit_string (b : bytes) : list bool := concat (map (low_bits 8) b).

Fixpoint common_prefix (l l' : list bool) : nat :=
  match l, l' with
  | x :: l, y :: l' => if Bool.eqb x y then S (common_prefix l l') else 0
  | _, _ => 0
  end.

Lemma bit_eq x y n :
  Z.land (Z.shiftr x (Z.of_nat n)) 1 = Z.land (Z.shiftr y (Z.of_nat n)) 1 ↔
  Z.testbit x (Z.of_nat n) = Z.testbit y (Z.of_nat n).
Proof.
  assert (∀ z, Z.land (Z.shiftr z (Z.of_nat n)) 1 = Z.b2z (Z.testbit z (Z.of_nat n))) as H.
  { intros z. rewrite (Z.land_ones _ 1), Z.shiftr_div_pow2, Z.testbit_spec' by lia. done. }
  rewrite !H. split; [apply Z.b2z_inj|by intros ->].
Qed.

Lemma countBits_spec n x y l l' :
  let '(c, stopped) := EpochValidator.countBits n x y in
  common_prefix (low_bits n x ++ l) (low_bits n y ++ l') =
    if stopped then Z.to_nat c else (Z.to_nat c + common_prefix l l')%nat.
Proof.
  assert (∀ m, 0 ≤ (EpochValidator.countBits m x y).1) as Hpos.
  { induction m as [|m IH]; cbn; [done|]. case_decide; [|done]. destruct (EpochValidator.countBits m x y). cbn in *. lia. }
  induction n as [|n IH]; [done|]. cbn [EpochValidator.countBits low_bits app common_prefix].
  destruct (decide (Z.land (Z.shiftr x (Z.of_nat n)) 1 = Z.land (Z.shiftr y (Z.of_nat n)) 1)) as [E|E]; rewrite bit_eq in E.
  - specialize (Hpos n). destruct (EpochValidator.countBits n x y) as [c stopped]. cbn in Hpos. rewrite E, eqb_reflx, IH.
    destruct stopped; lia.
  - destruct (Z.testbit x (Z.of_nat n)), (Z.testbit y (Z.of_nat n)); done.
Qed.

Lemma countBits_same n x : EpochValidator.countBits n x x = (Z.of_nat n, false).
Proof. induction n as [|n IH]; [done|]. cbn [EpochValidator.countBits]. rewrite decide_True, IH by done. f_equal. lia. Qed.

Lemma count_loop_spec acc a b :
  EpochValidator.count_loop acc a b = acc + Z.of_nat (common_prefix (bit_string a) (bit_string b)).
Proof.
  revert acc b. induction a as [|x a IH]; intros acc [|y b]; cbn [EpochValidator.count_loop]; try (cbn; lia).
  unfold bit_string. cbn [map concat]. fold (bit_string a) (bit_string b).
  pose proof (countBits_spec 8 x y (bit_string a) (bit_string b)) as Hs.
  assert (0 ≤ (EpochValidator.countBits 8 x y).1) as Hpos.
  { generalize 8%nat. induction n as [|n IHn]; cbn; [done|]. case_decide; [|done].
    destruct (EpochValidator.countBits n x y). cbn in *. lia. }
  case_decide as E.
  - subst y. rewrite countBits_same in Hs. rewrite Hs, IH. change (Z.to_nat (Z.of_nat 8)) with 8%nat. lia.
  - destruct (EpochValidator.countBits 8 x y) as [c stopped]. cbn in Hpos. rewrite Hs.
    destruct stopped; [|rewrite IH]; lia.
Qed.

(** the difficulty of a solution is the number of leading bits it has in
    common with the target: the length of the longest common prefix of the two
    strings of bits. *)
Theorem matching_bits_prefix a b :
  EpochValidator.countMatchingBits a b = Z.of_nat (common_prefix (bit_string a) (bit_string b)).
Proof. unfold EpochValidator.countMatchingBits. rewrite count_loop_spec. lia. Qed.
End Difficulty.

(** ** The order of the submissions *)

Section Order.

Lemma compare_opp a b : EpochManager.compareBytes b a = - EpochManager.compareBytes a b.
Proof.
  unfold EpochManager.compareBytes.
  assert (∀ l l', EpochManager.compare_loop l' l = Z.opp <$> EpochManager.compare_loop l l') as H.
  { induction l as [|x l IH]; intros [|y l']; cbn; try done. case_decide; case_decide; [|congruence..|apply IH].
    cbn. f_equal. lia. }
  rewrite H. destruct (EpochManager.compare_loop a b); cbn; lia.
Qed.

Lemma compare_cons x y a b :
  EpochManager.compareBytes (x :: a) (y :: b) = if decide (x = y) then EpochManager.compareBytes a b else x - y.
Proof.
  unfold EpochManager.compareBytes. cbn [EpochManager.compare_loop length].
  destruct (decide (x = y)) as [->|]; [rewrite decide_False by naive_solver|by rewrite decide_True].
  destruct (EpochManager.compare_loop a b); lia.
Qed.

Lemma compare_zero a b : EpochManager.compareBytes a b = 0 ↔ a = b.
Proof.
  revert b. induction a as [|x a IH]; intros [|y b]; [done|split; [|done]; unfold EpochManager.compareBytes; cbn; lia..|].
  rewrite compare_cons. case_decide as E; [|split; [lia|congruence]]. rewrite IH. naive_solver.
Qed.

Lemma compare_trans a b c :
  EpochManager.compareBytes a b ≤ 0 → EpochManager.compareBytes b c ≤ 0 → EpochManager.compareBytes a c ≤ 0.
Proof.
  revert b c. induction a as [|x a IH]; intros [|y b] [|z c]; try (unfold EpochManager.compareBytes; cbn; lia).
  rewrite !compare_cons. repeat case_decide; subst; try lia; try congruence. apply IH.
Qed.

(** The lexicographic order on lists of byte strings. *)
Fixpoint compare_ranks (l l' : list bytes) : Z :=
  match l, l' with
  | x :: l, y :: l' => if decide (EpochManager.compareBytes x y = 0) then compare_ranks l l' else EpochManager.compareBytes x y
  | _, _ => 0
  end.

Lemma ranks_opp l l' : compare_ranks l' l = - compare_ranks l l'.
Proof.
  revert l'. induction l as [|x l IH]; intros [|y l']; cbn; try done.
  rewrite (compare_opp x y). case_decide; case_decide; lia || (rewrite IH; lia).
Qed.

Lemma ranks_trans l l' l'' :
  length l = length l' → length l' = length l'' →
  compare_ranks l l' ≤ 0 → compare_ranks l' l'' ≤ 0 → compare_ranks l l'' ≤ 0.
Proof.
  revert l' l''. induction l as [|x l IH]; intros [|y l'] [|z l''] L1 L2; try done; cbn.
  injection L1 as L1. injection L2 as L2. intros H1 H2. destruct (decide (EpochManager.compareBytes x y = 0)) as [E1|E1].
  - apply compare_zero in E1 as ->. case_decide; [by apply (IH l')|done].
  - destruct (decide (EpochManager.compareBytes y z = 0)) as [E2|E2].
    + apply compare_zero in E2 as <-. by rewrite decide_False by done.
    + pose proof (compare_trans x y z H1 H2) as H3. case_decide as E3; [|done].
      apply compare_zero in E3 as ->. rewrite compare_opp in H2. lia.
Qed.

Lemma filter_all_true {A} (f : A → bool) l : (∀ x, x ∈ l → f x = true) → List.filter f l = l.
Proof.
  induction l as [|x l IH]; intros H; [done|]. cbn. rewrite (H x) by left. f_equal. apply IH. intros y Hy. apply H. by right.
Qed.

(** A comparator that is pure and total on the elements of a list sorts it. *)
Lemma js_sort_pure {A S E} (cmp : A → A → stx S E Z) (c : A → A → Z) (P : A → Prop) s l :
  (∀ a b, P a → P b → cmp a b s = (s, Ok (c a b))) → (∀ a b, c b a = - c a b) →
  (∀ a b d, P a → P b → P d → c a b ≤ 0 → c b d ≤ 0 → c a d ≤ 0) → Forall P l →
  ∃ l', js_sort cmp l s = (s, Ok l') ∧ l' ≡ₚ l ∧ StronglySorted (fun a b => c a b ≤ 0) l'.
Proof.
  intros Hc Hopp Htr. induction 1 as [|x l Hx Hl IH]; [exists []; split; [done|split; [done|constructor]]|].
  destruct IH as (r & Hr & Hp & Hs). cbn [js_sort]. unfold mbind, stx_bind. rewrite Hr.
  assert (Forall P r) as HPr by (by rewrite Hp).
  assert (∃ l', sort_insert cmp x r s = (s, Ok l') ∧ l' ≡ₚ x :: r ∧ StronglySorted (fun a b => c a b ≤ 0) l') as
    (l' & H1 & H2 & H3).
  { clear Hr Hp. induction Hs as [|y r Hs IH Hy].
    - exists [x]. split; [done|]. split; [done|]. by repeat constructor.
    - apply Forall_cons in HPr as [HPy HPr]. destruct (IH HPr) as (l' & E1 & E2 & E3). cbn [sort_insert].
      unfold mbind, stx_bind. rewrite Hc by done. case_decide as Hxy.
      + exists (x :: y :: r). split; [done|]. split; [done|]. constructor; [by constructor|]. constructor; [done|].
        rewrite Forall_forall in Hy, HPr |- *. intros z Hz. apply (Htr x y z); auto.
      + cbn in E1. unfold mbind, stx_bind in E1. rewrite E1. exists (y :: l'). split; [done|].
        split; [by rewrite E2, Permutation_swap|]. constructor; [done|]. rewrite E2. constructor; [rewrite Hopp; lia|done]. }
  exists l'. split; [done|]. split; [by rewrite H2, Hp|done].
Qed.
End Order.

(** ** The winner *)

Section Winner.
Context {LB : BtcLib} {LV : @VMLib LB} {LE : @EpochLib LB}.
Context (C : IOPNetConsensus) (CHAIN_ID : ChainIds) (NETWORK : BitcoinNetwork).
Implicit Types (s : IEpochSubmissionsDocument) (target : bytes).

Definition submission_key_ok s : Prop := length (m_mldsaPublicKey (sd_epochProposed s)) = 32%nat.
Definition solution_ok s : bool := bool_decide (length (m_solution (sd_epochProposed s)) = 20%nat).
Definition difficulty target s : Z := EpochValidator.countMatchingBits (m_solution (sd_epochProposed s)) target.

(** What decides between equal difficulties, in order. *)
Definition rank s : list bytes :=
  [m_mldsaPublicKey (sd_epochProposed s); sd_submissionTxHash s; m_salt (sd_epochProposed s); sd_submissionTxId s].

(** The leading bits of the keys never decide: they are compared when the keys
    are equal. *)
Lemma compareSubmissions_ranks target a b u :
  submission_key_ok a → submission_key_ok b →
  EpochManager.compareSubmissions target a b u = (u, Ok (compare_ranks (rank a) (rank b))).
Proof.
  unfold submission_key_ok. intros Ha Hb. unfold EpochManager.compareSubmissions. rewrite decide_False by lia.
  unfold rank. cbn [compare_ranks].
  destruct (decide (EpochManager.compareBytes (m_mldsaPublicKey (sd_epochProposed a)) (m_mldsaPublicKey (sd_epochProposed b)) = 0))
    as [E|E]; [rewrite decide_False by naive_solver|by rewrite decide_True].
  apply compare_zero in E. rewrite E.
  destruct (decide (EpochManager.compareBytes (sd_submissionTxHash a) (sd_submissionTxHash b) = 0)) as [E2|E2];
    [rewrite decide_False by naive_solver|by rewrite decide_True].
  rewrite decide_True by (rewrite length_drop; lia). rewrite decide_False by naive_solver.
  destruct (decide (EpochManager.compareBytes (m_salt (sd_epochProposed a)) (m_salt (sd_epochProposed b)) = 0)) as [E3|E3];
    [rewrite decide_False by naive_solver|by rewrite decide_True].
  case_decide as E4; [by rewrite E4|done].
Qed.

Lemma difficulty_nonneg target s : 0 ≤ difficulty target s.
Proof. unfold difficulty, EpochValidator.countMatchingBits. rewrite count_loop_spec. lia. Qed.

(** The submissions of the highest difficulty seen so far. *)
Lemma consider_spec target l best m :
  ∃ M, foldl (EpochManager.consider target) (best, m) l =
         ((if decide (M = m) then best else []) ++
          List.filter (fun s => solution_ok s && bool_decide (difficulty target s = M)) l, M) ∧
    m ≤ M ∧ (∀ s, s ∈ l → solution_ok s = true → difficulty target s ≤ M) ∧
    (M = m ∨ ∃ s, s ∈ l ∧ solution_ok s = true ∧ difficulty target s = M).
Proof.
  revert best m. induction l as [|s l IH]; intros best m; cbn [foldl].
  { exists m. rewrite decide_True, app_nil_r by done. split; [done|]. split; [lia|]. split; [by intros s ?%elem_of_nil|by left]. }
  unfold EpochManager.consider at 2. cbn [fst snd].
  destruct (decide (length (m_solution (sd_epochProposed s)) ≠ 20%nat)) as [Hl|Hl].
  { destruct (IH best m) as (M & -> & Hm & Hmax & Hat). exists M. cbn [List.filter].
    assert (solution_ok s = false) as -> by (by apply bool_decide_false). cbn [andb]. split; [done|]. split; [done|].
    split; [intros t [->|Ht]%elem_of_cons; [|by apply Hmax]|].
    - intros Ht. unfold solution_ok in Ht. by apply bool_decide_eq_true in Ht.
    - destruct Hat as [|(t & Ht & ?)]; [by left|right]. exists t. split; [by right|done]. }
  assert (solution_ok s = true) as Hs by (apply bool_decide_true; lia).
  change (EpochValidator.countMatchingBits (m_solution (sd_epochProposed s)) target) with (difficulty target s).
  destruct (decide (difficulty target s = m)) as [E|E]; [|destruct (decide (m < difficulty target s)) as [Hlt|Hlt]].
  - destruct (IH (best ++ [s]) m) as (M & -> & Hm & Hmax & Hat). exists M. cbn [List.filter]. rewrite Hs, E. cbn [andb].
    split; [|split; [done|split]].
    + destruct (decide (M = m)) as [->|HM]; [rewrite bool_decide_true by done; by rewrite <- app_assoc|].
      by rewrite bool_decide_false by done.
    + intros t [->|Ht]%elem_of_cons; [lia|by apply Hmax].
    + destruct Hat as [|(t & Ht & ?)]; [by left|right]. exists t. split; [by right|done].
  - destruct (IH [s] (difficulty target s)) as (M & -> & Hm & Hmax & Hat). exists M. cbn [List.filter]. rewrite Hs. cbn [andb].
    rewrite (decide_False (P := M = m)) by lia. split; [|split; [lia|split]].
    + destruct (decide (M = difficulty target s)) as [->|HM]; [by rewrite bool_decide_true|by rewrite bool_decide_false].
    + intros t [->|Ht]%elem_of_cons; [lia|by apply Hmax].
    + right. destruct Hat as [->|(t & Ht & ?)]; [exists s; split; [left|done]|exists t; split; [by right|done]].
  - destruct (IH best m) as (M & -> & Hm & Hmax & Hat). exists M. cbn [List.filter]. rewrite Hs, bool_decide_false by lia.
    cbn [andb]. split; [done|]. split; [done|]. split; [intros t [->|Ht]%elem_of_cons; [lia|by apply Hmax]|].
    destruct Hat as [|(t & Ht & ?)]; [by left|right]. exists t. split; [by right|done].
Qed.

Abbreviation early := (EpochManager.filterEarlyMiningSubmissions C CHAIN_ID NETWORK).
Abbreviation best := (EpochManager.getBestSubmission C CHAIN_ID NETWORK).

(** Whether the early mining lets a submission in does not depend on the others. *)
Lemma early_spec endBlock : ∃ f : IEpochSubmissionsDocument → bool, ∀ l, early l endBlock = List.filter f l.
Proof.
  assert (∀ l : list IEpochSubmissionsDocument, l = List.filter (fun _ => true) l) as Hall
    by (induction l as [|x l IH]; [done|cbn; by rewrite <- IH]).
  unfold EpochManager.filterEarlyMiningSubmissions. destruct (_ ≫= _) as [c|]; [|by exists (fun _ => true)].
  destruct (negb _); [by exists (fun _ => true)|]. destruct (WHITELISTED_PUBLIC_KEY c) as [k|]; [|by exists (fun _ => true)].
  destruct (_ && _); [by exists (fun _ => true)|]. by eexists.
Qed.

Lemma elem_of_filter_bool {A} (f : A → bool) x l : x ∈ List.filter f l ↔ x ∈ l ∧ f x = true.
Proof. rewrite !list_elem_of_In. apply filter_In. Qed.

(** The submissions that may win. *)
Definition candidates endBlock l : list IEpochSubmissionsDocument := List.filter solution_ok (early l endBlock).

Definition wins target endBlock l s : Prop :=
  s ∈ candidates endBlock l ∧
  ∀ t, t ∈ candidates endBlock l →
    difficulty target t < difficulty target s ∨
    (difficulty target t = difficulty target s ∧ compare_ranks (rank s) (rank t) ≤ 0).

Lemma best_spec target endBlock l :
  Forall submission_key_ok l →
  ∃ r, best l target endBlock = Ok r ∧
    match r with
    | None => candidates endBlock l = []
    | Some w => ∃ s, wins target endBlock l s ∧ w = EpochManager.winner_of C s (difficulty target s)
    end.
Proof.
  intros Hl. unfold EpochManager.getBestSubmission. destruct (early_spec endBlock) as [f Hf].
  assert (∀ s, s ∈ early l endBlock → submission_key_ok s) as Hk.
  { intros s Hs. rewrite Hf in Hs. apply elem_of_filter_bool in Hs as [Hs _]. by eapply Forall_forall in Hl. }
  destruct (consider_spec target (early l endBlock) [] 0) as (M & -> & HM & Hmax & Hat).
  assert ((if decide (M = 0) then [] else []) = @nil IEpochSubmissionsDocument) as -> by (by destruct (decide (M = 0))).
  cbn [app]. set (top := List.filter _ _).
  assert (∀ s, s ∈ top ↔ s ∈ candidates endBlock l ∧ difficulty target s = M) as Htop.
  { intros s. unfold top, candidates. rewrite !elem_of_filter_bool, andb_true_iff, bool_decide_eq_true. naive_solver. }
  destruct (decide (top = [])) as [E|E].
  - exists None. split; [by rewrite E|]. apply elem_of_nil_inv. intros s Hs. pose proof Hs as [Hs1 Hs2]%elem_of_filter_bool.
    assert (∃ t, t ∈ top) as [t Ht]; [|rewrite E in Ht; by apply elem_of_nil in Ht].
    destruct Hat as [->|(t & Ht & Ht2 & Ht3)].
    + exists s. apply Htop. split; [done|]. pose proof (Hmax s Hs1 Hs2). pose proof (difficulty_nonneg target s). lia.
    + exists t. apply Htop. split; [by apply elem_of_filter_bool|done].
  - destruct (js_sort_pure (EpochManager.compareSubmissions target) (fun a b => compare_ranks (rank a) (rank b))
      submission_key_ok tt top) as (l' & Hsort & Hp & Hsorted).
    { intros a b Ha Hb. by apply compareSubmissions_ranks. }
    { intros a b. apply ranks_opp. }
    { intros a b d _ _ _. by apply ranks_trans. }
    { apply Forall_forall. intros s [Hs _]%Htop. apply elem_of_filter_bool in Hs as [Hs _]. by apply Hk. }
    destruct l' as [|s l']; [by apply Permutation_nil_l in Hp|]. exists (Some (EpochManager.winner_of C s M)). split.
    { unfold EpochManager.getWinningSubmission. rewrite Hsort. destruct top; done. }
    assert (s ∈ top) as [Hs1 Hs2]%Htop by (rewrite <- Hp; left). exists s. split; [|by rewrite Hs2]. split; [done|].
    intros t Ht. pose proof Ht as [Ht1 Ht2]%elem_of_filter_bool. pose proof (Hmax t Ht1 Ht2).
    destruct (decide (difficulty target t = M)) as [EM|EM]; [right|left; lia]. split; [lia|].
    assert (t ∈ s :: l') as [->|Hin]%elem_of_cons by (rewrite Hp; by apply Htop).
    + pose proof (ranks_opp (rank s) (rank s)). lia.
    + apply StronglySorted_inv in Hsorted as [_ Hmin]. by eapply Forall_forall in Hmin.
Qed.

Lemma wins_unique target endBlock l s t :
  NoDup (sd_submissionTxHash <$> l) → wins target endBlock l s → wins target endBlock l t → s = t.
Proof.
  intros Hnd [Hs Hs'] [Ht Ht']. destruct (Hs' t Ht) as [?|[E H1]], (Ht' s Hs) as [?|[E' H2]]; try lia.
  assert (sd_submissionTxHash s = sd_submissionTxHash t) as Eh.
  { rewrite ranks_opp in H2. unfold rank in H1, H2. cbn [compare_ranks] in H1, H2.
    destruct (decide (EpochManager.compareBytes (m_mldsaPublicKey (sd_epochProposed s)) _ = 0)); [|lia].
    destruct (decide (EpochManager.compareBytes (sd_submissionTxHash s) _ = 0)) as [Eh|]; [by apply compare_zero in Eh|lia]. }
  destruct (early_spec endBlock) as [f Hf]. unfold candidates in Hs, Ht. rewrite Hf in Hs, Ht.
  apply elem_of_filter_bool in Hs as [[Hs _]%elem_of_filter_bool _], Ht as [[Ht _]%elem_of_filter_bool _].
  by apply (NoDup_fmap_inj sd_submissionTxHash l).
Qed.

(** C8: the winner of an epoch is a submission of the highest difficulty, and of
    these the one with the lowest key, then the lowest transaction; there is none
    when no submission is eligible. *)
Theorem winner_is_best target endBlock l :
  Forall submission_key_ok l →
  ∃ r, EpochManager.getBestSubmission C CHAIN_ID NETWORK l target endBlock = Ok r ∧
    match r with
    | None => candidates endBlock l = []
    | Some w => ∃ s, wins target endBlock l s ∧ w = EpochManager.winner_of C s (difficulty target s)
    end.
Proof. apply best_spec. Qed.

(** nodes that have the same submissions choose the same winner, in whatever
    order they have them. *)
Theorem winner_ignores_order target endBlock l l' :
  Forall submission_key_ok l → NoDup (sd_submissionTxHash <$> l) → l' ≡ₚ l →
  EpochManager.getBestSubmission C CHAIN_ID NETWORK l' target endBlock =
  EpochManager.getBestSubmission C CHAIN_ID NETWORK l target endBlock.
Proof.
  intros Hl Hnd Hp. destruct (best_spec target endBlock l Hl) as (r & -> & Hr).
  destruct (best_spec target endBlock l') as (r' & -> & Hr'); [by rewrite Hp|]. f_equal.
  assert (∀ s, s ∈ candidates endBlock l' ↔ s ∈ candidates endBlock l) as Hc.
  { intros s. destruct (early_spec endBlock) as [f Hf]. unfold candidates. rewrite !Hf, !elem_of_filter_bool. by rewrite Hp. }
  destruct r as [w|], r' as [w'|].
  - destruct Hr as (s & Hs & ->), Hr' as (s' & Hs' & ->). assert (s' = s) as ->; [|done].
    apply (wins_unique target endBlock l); [done| |done]. destruct Hs' as [H1 H2]. split; [by apply Hc|].
    intros t Ht. by apply H2, Hc.
  - destruct Hr as (s & [Hs%Hc _] & _). rewrite Hr' in Hs. by apply elem_of_nil in Hs.
  - destruct Hr' as (s & [Hs%Hc _] & _). rewrite Hr in Hs. by apply elem_of_nil in Hs.
  - done.
Qed.
End Winner.

(** ** The tree *)

Section Tree.
Context {LB : BtcLib} {LE : @EpochLib LB} {LL : @EpochLaws LB LE}.
Context (chainId PROTOCOL_ID : bytes) (GRAFFITI_LENGTH : nat).
Implicit Types (s : EpochMerkleTree.t) (d : EpochData).

Abbreviation data_bytes := (epochDataToBytes chainId PROTOCOL_ID GRAFFITI_LENGTH).
Abbreviation freeze_ := (freeze chainId PROTOCOL_ID GRAFFITI_LENGTH).

Definition attestation_fits (a : Attestation) : Prop := blockNumber a < 2 ^ 64 ∧ timestamp a < 2 ^ 64.

Record data_fits d (w : EpochSubmissionWinner) : Prop := {
  df_winner : winner d = Some w;
  df_graffiti : (length (w_graffiti w) ≤ GRAFFITI_LENGTH)%nat;
  df_number : epochNumber d < 2 ^ 64;
  df_start : startBlock d < 2 ^ 64;
  df_end : endBlock d < 2 ^ 64;
  df_attested : attestedEpochNumber d < 2 ^ 64
}.

Lemma from_lib_Ok {A} (r : result string A) x : r = Ok x → from_lib r = Ok x.
Proof. by intros ->. Qed.

Lemma attestation_bytes a : attestation_fits a → ∃ b, attestationToBytes a = Ok b.
Proof.
  intros [H1 H2]. destruct (writer_total 145 [writeU8 (attestation_type_value (type a)); writeU64 (blockNumber a);
    writeBytes (a_checksumRoot a); writeBytes (signature a); writeU64 (timestamp a); writeAddress (publicKey a)]) as [b E].
  { repeat constructor; try done. by destruct (type a). }
  exists b. by apply from_lib_Ok.
Qed.

Lemma data_bytes_total d w : data_fits d w → ∃ b, data_bytes d = Ok b.
Proof.
  intros [Hw Hg H1 H2 H3 H4]. unfold epochDataToBytes. rewrite Hw, decide_False by lia.
  match goal with |- context [getBuffer ?n ?l] => destruct (writer_total n l) as [b E] end; [|exists b; by apply from_lib_Ok].
  repeat constructor; try done. cbn.
  pose proof (Z.land_ones (w_matchingBits w) 16 ltac:(lia)) as Eo. change (Z.ones 16) with 65535 in Eo. rewrite Eo.
  apply Z.mod_pos_bound. lia.
Qed.

Lemma slice_all {A} n (l : list A) : Z.of_nat (length l) ≤ n → slice_front n l = l.
Proof.
  revert n. induction l as [|x l IH]; intros n Hn; [done|]. cbn in *. rewrite decide_True by lia. f_equal. apply IH. lia.
Qed.

(** The attestations of the tree: at least two. *)
Definition completed s : list Attestation :=
  if decide (length (attestations s) < 2)%nat
  then attestations s ++ [dummyAttestation1 (epochData s); dummyAttestation2 (epochData s)] else attestations s.

Definition frozen_tree d (b : bytes) (bs : list bytes) s : Prop :=
  frozen s = true ∧ epochData s = d ∧ data_bytes d = Ok b ∧ epochBytes s = Some b ∧ epochHash_ s = Some (sha256 b) ∧
  tree s = Some (tree_new (b :: bs)) ∧ (2 ≤ length (b :: bs))%nat ∧
  Forall2 (fun a y => attestationToBytes a = Ok y) (attestations s) bs.

Lemma tree_freeze_spec s w :
  frozen s = false → data_fits (epochData s) w → Forall attestation_fits (attestations s) →
  Z.of_nat (length (attestations s)) ≤ maxAttestations s → 3 ≤ maxAttestations s →
  ∃ s' b bs, freeze_ s = (s', Ok tt) ∧ frozen_tree (epochData s) b bs s' ∧ attestations s' ≡ₚ completed s.
Proof.
  intros Hf Hd Ha Hlen Hmax. destruct (data_bytes_total _ _ Hd) as [b Hb].
  set (sorted := sort_by (fun a => - timestamp a) (completed s)).
  assert (sorted ≡ₚ completed s) as Hp by apply sort_by_permutes.
  assert (Z.of_nat (length sorted) ≤ maxAttestations s ∧ (2 ≤ length sorted)%nat) as [Hle H2].
  { rewrite Hp. unfold completed. case_decide; [rewrite length_app; cbn; lia|lia]. }
  assert (Forall attestation_fits sorted) as Hfit.
  { rewrite Hp. unfold completed. case_decide; [|done]. destruct Hd. apply Forall_app. split; [done|].
    repeat constructor; cbn; lia. }
  destruct (rmap_total attestationToBytes sorted) as [bs Hbs].
  { intros a Hin. apply attestation_bytes. by eapply Forall_forall in Hfit. }
  pose proof Hbs as Hall%rmap_Ok. pose proof (Forall2_length _ _ _ Hall) as El.
  exists (mk (Some (tree_new (b :: bs))) sorted (epochData s) (Some b) (Some (sha256 b)) true (maxAttestations s)), b, bs.
  split; [|split; [|exact Hp]].
  - unfold freeze, mbind, stx_bind, generateTree. rewrite Hf. cbv zeta.
    assert (∀ s0, epochData s0 = epochData s → frozen s0 = false → attestations s0 = completed s → maxAttestations s0 = maxAttestations s →
      set_attestations (sort_by (fun a => - timestamp a) (attestations s0)) s0 =
      mk (tree s0) sorted (epochData s) (epochBytes s0) (epochHash_ s0) false (maxAttestations s)) as Hset.
    { intros s0 E1 E2 E3 E4. unfold set_attestations, sorted. by rewrite E1, E2, E3, E4. }
    rewrite Hset by (unfold completed; by case_decide). cbn [attestations maxAttestations epochData frozen tree epochBytes epochHash_].
    rewrite slice_all, Hb, Hbs by done. reflexivity.
  - unfold frozen_tree. cbn. repeat (split; [done|]). split; [cbn in *; lia|done].
Qed.

Lemma frozen_leaf_proof d b bs s x :
  frozen_tree d b bs s → x ∈ b :: bs →
  ∃ p, tree_getProof (tree_new (b :: bs)) x = Ok p ∧
    proof_verify p (tree_root (tree_new (b :: bs))) (tree_hash x) = true ∧
    proof_verifyData p (tree_root (tree_new (b :: bs))) x = true.
Proof. intros (_ & _ & _ & _ & _ & _ & H2 & _) Hx. by apply tree_proves. Qed.
(** A proof of an attestation of the tree. *)
Definition proved (root : bytes) (a : Attestation) (p : AttestationProof) : Prop :=
  ap_attestation p = a ∧ ap_checksumRoot p = toHex (a_checksumRoot a) ∧ verifyAttestation root a (proofs p) = Ok true.

Lemma all_proofs d b bs s :
  frozen_tree d b bs s →
  ∃ ps, getAllAttestationProofs s = Ok ps ∧ Forall2 (proved (tree_root (tree_new (b :: bs)))) (attestations s) ps.
Proof.
  intros Hs. pose proof Hs as (_ & _ & _ & _ & _ & Ht & _ & Hall).
  assert (∀ i a, attestations s !! i = Some a →
    ∃ p, getAttestationProofs i s = Ok p ∧ proved (tree_root (tree_new (b :: bs))) a p) as Hone.
  { intros i a Ha. destruct (Forall2_lookup_l _ _ _ _ _ Hall Ha) as (y & Hy & Ey).
    destruct (frozen_leaf_proof d b bs s y Hs) as (pr & Hpr & Hv & _); [right; by eapply list_elem_of_lookup_2|].
    unfold getAttestationProofs, getProof, generated. rewrite Ht, Ha. cbn [mbind result_bind]. rewrite Ey. cbn [mbind result_bind].
    rewrite (from_lib_Ok _ _ Hpr). cbn [mbind result_bind]. eexists. split; [done|]. split; [done|]. split; [done|].
    unfold verifyAttestation. rewrite Ey. cbn. by rewrite Hv. }
  unfold getAllAttestationProofs, generated. rewrite Ht. cbn [mbind result_bind].
  destruct (rmap_total (fun i => getAttestationProofs i s) (seq 0 (length (attestations s)))) as [ps Hps].
  { intros i [_ Hi]%elem_of_seq. destruct (lookup_lt_is_Some_2 (attestations s) i) as [a Ha]; [lia|].
    destruct (Hone i a Ha) as (p & Hp & _). by exists p. }
  exists ps. split; [exact Hps|]. apply rmap_Ok in Hps. pose proof (Forall2_length _ _ _ Hps) as El. rewrite length_seq in El.
  apply Forall2_same_length_lookup_2; [done|]. intros i a p Ha Hp.
  destruct (Forall2_lookup_r _ _ _ _ _ Hps Hp) as (i' & Hi' & E). apply lookup_seq in Hi' as [-> _].
  destruct (Hone i a Ha) as (p' & Hp' & Hpr). cbn in E. rewrite Hp' in E. by injection E as <-.
Qed.

Lemma epoch_proof d b bs s :
  frozen_tree d b bs s →
  ∃ p, getEpochDataProof (epochBytes s) s = Ok p ∧ verifyEpochData (tree_root (tree_new (b :: bs))) p b = true.
Proof.
  intros Hs. pose proof Hs as (_ & _ & _ & Hb & _ & Ht & _).
  destruct (frozen_leaf_proof d b bs s b Hs) as (p & Hp & _ & Hv); [left|]. exists p. split; [|done].
  unfold getEpochDataProof, generated. rewrite Hb, Ht. cbn. by apply from_lib_Ok.
Qed.

Lemma hex_buffer x : stringToBuffer (toHex x) = x.
Proof. unfold stringToBuffer. by rewrite hex_plain, hex_roundtrip. Qed.

(** The data of an epoch is read back from its export. *)
Lemma exported_bytes d w e b :
  data_bytes d = Ok b → winner d = Some w →
  e = mkEpochDataProof (epochNumber d) (startBlock d) (endBlock d) (toHex (e_checksumRoot d)) (toHex (previousEpochHash d))
        (attestedEpochNumber d) (toHex (attestedChecksumRoot d))
        (Some (mkWinnerProof (toHex (w_mldsaPublicKey w)) (toHex (w_legacyPublicKey w)) (w_matchingBits w)
                     (toHex (w_salt w)) (toHex (w_solutionHash w)) (toHex (w_graffiti w)))) (ep_proof e) (ep_leafHash e) →
  ∃ wp, ep_winner e = Some wp ∧ data_bytes (exported_data e wp) = Ok b.
Proof.
  intros Hb Hw ->. cbn [ep_winner]. eexists. split; [done|]. rewrite <- Hb. unfold epochDataToBytes, exported_data.
  rewrite Hw. cbn. by rewrite !hex_buffer, !hex_roundtrip.
Qed.

Lemma export_spec d w b bs s :
  frozen_tree d b bs s → winner d = Some w →
  ∃ x v, export chainId PROTOCOL_ID GRAFFITI_LENGTH s = Ok x ∧ verify chainId PROTOCOL_ID GRAFFITI_LENGTH x = Ok v ∧
    x_root x = tree_rootHex (tree_new (b :: bs)) ∧ x_hash x = ("0x" +:+ toHex (sha256 b))%string ∧
    allValid v = true ∧ totalCount v = S (length (attestations s)).
Proof.
  intros Hs Hw. destruct (all_proofs d b bs s Hs) as (ps & Hps & Hpr). destruct (epoch_proof d b bs s Hs) as (p & Hp & Hv).
  pose proof Hs as (_ & Hd & Hb & Heb & Hh & Ht & _).
  unfold export, root, generated, epochHash, getEpochData. rewrite Ht, Hh. cbn [mbind result_bind]. unfold generated.
  rewrite Ht, Heb. cbn [mbind result_bind]. rewrite Heb in Hp. rewrite Hp. cbn [mbind result_bind]. rewrite Hps. cbn [mbind result_bind].
  match goal with |- ∃ x v, Ok ?y = Ok x ∧ _ => exists y end. unfold verify. cbn [x_epoch x_root x_attestations]. rewrite tree_hex.
  match goal with |- context [mkExport _ _ ?e _] => destruct (exported_bytes d w e b Hb Hw) as (wp & Hwp & Hbytes) end.
  { rewrite Hd, Hw. done. }
  rewrite Hwp, Hbytes. cbn [mbind result_bind ep_proof]. rewrite Hv.
  destruct (rmap_total (verify_one (tree_root (tree_new (b :: bs)))) ps) as [l Hl].
  { intros q Hq. apply list_elem_of_lookup in Hq as [i Hq]. destruct (Forall2_lookup_r _ _ _ _ _ Hpr Hq) as (a & _ & E1 & E2 & E3).
    unfold verify_one. rewrite E1, E2, hex_plain, hex_roundtrip. destruct a; cbn in *. rewrite E3. cbn. by eexists. }
  rewrite Hl. cbn [mbind result_bind]. eexists. split; [done|]. split; [done|]. split; [done|]. split; [done|].
  cbn [allValid totalCount]. apply rmap_Ok in Hl.
  assert (List.filter fst l = l) as ->.
  { apply filter_all_true. intros r Hr. apply list_elem_of_lookup in Hr as [i Hr].
    destruct (Forall2_lookup_r _ _ _ _ _ Hl Hr) as (q & Hq & Ev). destruct (Forall2_lookup_r _ _ _ _ _ Hpr Hq) as (a & _ & E1 & E2 & E3).
    unfold verify_one in Ev. rewrite E1, E2, hex_plain, hex_roundtrip in Ev. destruct a; cbn in *. rewrite E3 in Ev. cbn in Ev.
    by injection Ev as <-. }
  apply Forall2_length in Hl, Hpr. split; [apply bool_decide_true; lia|lia].
Qed.

(** C29: what an epoch exports can be checked: of a tree that is closed with a
    winner and attestations that fit, the export verifies, the data of the epoch
    and each of its attestations against the root. *)
Theorem exported_tree_verifies s w :
  frozen s = false → data_fits (epochData s) w → Forall attestation_fits (attestations s) →
  Z.of_nat (length (attestations s)) ≤ maxAttestations s → 3 ≤ maxAttestations s →
  ∃ s' x v, freeze chainId PROTOCOL_ID GRAFFITI_LENGTH s = (s', Ok tt) ∧
    export chainId PROTOCOL_ID GRAFFITI_LENGTH s' = Ok x ∧ verify chainId PROTOCOL_ID GRAFFITI_LENGTH x = Ok v ∧
    allValid v = true ∧ totalCount v = S (length (completed s)) ∧ attestations s' ≡ₚ completed s.
Proof.
  intros Hf Hd Ha Hlen Hmax. destruct (tree_freeze_spec s w Hf Hd Ha Hlen Hmax) as (s' & b & bs & Hs' & Ht & Hp).
  destruct (export_spec _ w b bs s' Ht (df_winner _ _ Hd)) as (x & v & Hx & Hv & _ & _ & Hall & Htot).
  exists s', x, v. split; [done|]. split; [done|]. split; [done|]. split; [done|]. rewrite Htot, Hp. by split.
Qed.
End Tree.

(** ** Examples *)

Module EpochExample.

(** Bytes are written in a form that can be read back: the binary digits of a
    number that encodes them. *)
Fixpoint digits (p : positive) : string :=
  match p with xH => "" | xO p => String "0" (digits p) | xI p => String "1" (digits p) end.
Fixpoint undigits (s : string) : positive :=
  match s with
  | EmptyString => xH
  | String c s => if decide (c = "0"%char) then xO (undigits s) else xI (undigits s)
  end.

Lemma read_digits p : undigits (digits p) = p.
Proof. induction p as [p IH|p IH|]; cbn; [by rewrite IH|by rewrite IH|done]. Qed.

Lemma strip_digits p : strip0x (digits p) = digits p.
Proof. by destruct p as [[]|[]|]. Qed.

Definition example_btclib : BtcLib := {|
  Address := bytes;
  Address_eq := _;
  Address_countable := _;
  Address_fromString := fun s => default [] (decode (undigits s));
  Address_toHex := fun a => digits (encode a);
  Address_dead := [222; 173];
  fromHex := fun s => default [] (decode (undigits s));
  toHex := fun b => digits (encode b)
|}.
#[local] Existing Instance example_btclib.

Definition example_vmlib : VMLib := {|
  AddressMaps := gmap_lib bytes;
  PointerMaps := gmap_lib Z;
  message := fun _ => "error";
  writeSelector := fun _ => [1];
  writeStringWithLength := fun s => [Z.of_nat (String.length s)];
  fromBase64 := fun _ => Throw ""
|}.
#[local] Existing Instance example_vmlib.

Definition written (w : write) : bytes :=
  match w with
  | writeU8 z | writeU16 z | writeU64 z => [z]
  | writeBytes b => Z.of_nat (length b) :: b
  | writeAddress a => a
  end.

(** A tree is its leaves; a proof is all of them. *)
Definition example_epochlib : EpochLib := {|
  getBuffer := fun _ l => Ok (concat (map written l));
  sha1 := resized 20;
  sha256 := resized 32;
  EpochTree := list bytes;
  tree_new := fun l => l;
  tree_root := fun l => concat l;
  tree_rootHex := fun l => toHex (concat l);
  tree_getProof := fun l _ => Ok l;
  tree_hash := fun d => d;
  proof_verify := fun p r h => bool_decide (concat p = r ∧ h ∈ p);
  proof_verifyData := fun p r d => bool_decide (concat p = r ∧ d ∈ p);
  proof_rootHex := fun p _ => toHex (concat p);
  addressOf := fun b => b;
  addressBytes := fun a => a;
  originalPublicKeyBuffer := fun a => a
|}.
#[local] Existing Instance example_epochlib.

Lemma hex_read_back (b : bytes) : fromHex (toHex b) = b.
Proof. cbn. by rewrite read_digits, decode_encode. Qed.

#[local] Instance example_epochlaws : EpochLaws.
Proof.
  split.
  - intros n l _. by eexists.
  - intros b. cbn. unfold resized. rewrite length_take, length_app, length_replicate. lia.
  - intros l d _ Hd. exists l. cbn. rewrite bool_decide_true by done. done.
  - intros x. unfold stringToBuffer. etransitivity; [apply (f_equal fromHex), strip_digits|apply hex_read_back].
  - apply hex_read_back.
  - intros b. apply strip_digits.
Qed.

Definition key (n : Z) : bytes := replicate 32 n.

(** The solution of the miner [n] with the salt [salt], of which [same] bytes
    agree with the target. *)
Definition submission (n same tx : Z) : IEpochSubmissionsDocument :=
  mkSubmissionDocument 6 1 5 [tx] [tx] [] (mkMiner (replicate (Z.to_nat same) 7 ++ replicate (20 - Z.to_nat same) 0) (key n) [n] (key 0) None).

Definition three : list IEpochSubmissionsDocument := [submission 9 4 1; submission 8 10 2; submission 5 10 3].

(** Of two solutions of 85 bits, the one of the lowest key. *)
Example winner_of_three :
  EpochManager.getBestSubmission RoswellConsensus Bitcoin regtest three (replicate 20 7) 9 =
  Ok (Some (EpochManager.winner_of RoswellConsensus (submission 5 10 3) 85)).
Proof. vm_compute. reflexivity. Qed.

Lemma three_ok : Forall submission_key_ok three.
Proof. repeat constructor. Qed.

Lemma winner_is_best_witness :
  ∃ r, EpochManager.getBestSubmission RoswellConsensus Bitcoin regtest three (replicate 20 7) 9 = Ok r ∧ is_Some r.
Proof.
  pose proof (winner_is_best RoswellConsensus Bitcoin regtest (replicate 20 7) 9 three three_ok) as (r & Hr & Hw).
  exists r. split; [exact Hr|]. destruct r as [w|]; [by eexists|]. exfalso. revert Hw. by vm_compute.
Defined.

Lemma winner_ignores_order_witness :
  EpochManager.getBestSubmission RoswellConsensus Bitcoin regtest (reverse three) (replicate 20 7) 9 =
  EpochManager.getBestSubmission RoswellConsensus Bitcoin regtest three (replicate 20 7) 9.
Proof.
  apply (winner_ignores_order RoswellConsensus Bitcoin regtest (replicate 20 7) 9 three (reverse three) three_ok).
  - apply (bool_decide_eq_true_1 _). reflexivity.
  - apply reverse_Permutation.
Defined.

Definition example_winner : EpochSubmissionWinner := mkWinner 1 85 (key 0) (key 5) [5] (replicate 20 7) [104; 105].
Definition example_tree : EpochMerkleTree.t :=
  EpochMerkleTree.mk None [mkAttestation BLOCK_WITNESS 6 (key 7) [1] 1000 (key 2)]
    (mkEpochData 1 5 9 (key 7) (key 6) (-3) (key 0) (Some example_winner)) None None false default_maxAttestations.

Lemma exported_tree_verifies_witness :
  ∃ s' x v, freeze (key 1) (key 2) 16 example_tree = (s', Ok tt) ∧ export (key 1) (key 2) 16 s' = Ok x ∧
    verify (key 1) (key 2) 16 x = Ok v ∧ allValid v = true ∧ totalCount v = 4%nat.
Proof.
  pose proof (exported_tree_verifies (key 1) (key 2) 16 example_tree example_winner) as H.
  destruct H as (s' & x & v & H1 & H2 & H3 & H4 & H5 & _);
    [reflexivity|split; done || (cbn; lia)|repeat constructor|vm_compute; discriminate|vm_compute; discriminate|].
  exists s', x, v. repeat (split; [done|]). exact H5.
Defined.
End EpochExample.
