(* ===== verification/EpochChain.v ===== *)
(** * The epochs of a chain of blocks

    The first block of an epoch closes the one before, and each block that is
    indexed finds what it needs: the epochs in the database are those the blocks
    have closed, each bound to the one before by its hash, and the solutions a
    block accepts are those of epochs that were closed before it. *)

From S2P Require Import Prelude Consensus HeaderValidator TransactionSorter TransactionSorterFacts Evaluation MLDSA TransactionParsing Epochs EpochManager EpochFacts.
Import EpochMerkleTree EpochDatabase.

Section Chain.
Context {LB : BtcLib} {LV : @VMLib LB} {LE : @EpochLib LB} {LL : @EpochLaws LB LE}.
Context (C : IOPNetConsensus) (CHAIN_ID : ChainIds) (NETWORK : BitcoinNetwork) (MAX_ATTESTATION_PER_BLOCK : Z) (chainId : bytes).
Implicit Types (d : EpochDatabase.t) (n h : Z).

Abbreviation bpe := (BLOCKS_PER_EPOCH (EPOCH C)).
Abbreviation graffiti_length := (Z.to_nat (GRAFFITI_LENGTH (EPOCH C))).
Abbreviation data_bytes := (epochDataToBytes chainId (PROTOCOL_ID C) graffiti_length).

Context (epochs_enabled : EPOCH_ENABLED (EPOCH C) = true) (bpe_pos : 0 < bpe).
Context (attestations_bounded : 0 < MAX_ATTESTATION_PER_BLOCK ∧ MAX_ATTESTATION_PER_BLOCK * bpe ≤ default_maxAttestations).

(** ** The database *)

Lemma find_upsert (e : IEpochDocument) l n :
  List.find (fun x => bool_decide (ed_epochNumber x = n)) (upsert (fun x => bool_decide (ed_epochNumber x = ed_epochNumber e)) e l) =
  if decide (ed_epochNumber e = n) then Some e else List.find (fun x => bool_decide (ed_epochNumber x = n)) l.
Proof.
  induction l as [|y l IH]; cbn.
  - case_decide; [by rewrite bool_decide_true|by rewrite bool_decide_false].
  - destruct (bool_decide (ed_epochNumber y = ed_epochNumber e)) eqn:Ey; cbn.
    + apply bool_decide_eq_true in Ey. rewrite Ey. case_decide; [by rewrite bool_decide_true|by rewrite bool_decide_false].
    + apply bool_decide_eq_false in Ey. rewrite IH. case_decide as En; [|done]. rewrite bool_decide_false; [done|congruence].
Qed.

Lemma getEpochByNumber_save e d n :
  getEpochByNumber n (saveEpoch e d) = if decide (ed_epochNumber e = n) then Some e else getEpochByNumber n d.
Proof. apply find_upsert. Qed.

Lemma elem_of_upsert {A} (P : A → bool) x l y : y ∈ upsert P x l → y = x ∨ y ∈ l.
Proof.
  induction l as [|z l IH]; cbn; [by intros ->%list_elem_of_singleton; left|].
  destruct (P z).
  - intros [->|Hy]%elem_of_cons; [by left|right; by right].
  - intros [->|Hy]%elem_of_cons; [right; left|]. destruct (IH Hy); [by left|right; by right].
Qed.

Lemma getEpochByNumber_elem d n e : getEpochByNumber n d = Some e → e ∈ epochs d ∧ ed_epochNumber e = n.
Proof. unfold getEpochByNumber. intros [H1 H2]%find_some. split; [by apply list_elem_of_In|by apply bool_decide_eq_true in H2]. Qed.

(** Saving a document whose key is its own keeps the keys apart. *)
Lemma upsert_keys {A K} `{EqDecision K} (f : A → K) x l :
  NoDup (f <$> l) → NoDup (f <$> upsert (fun y => bool_decide (f y = f x)) x l).
Proof.
  induction l as [|z l IH]; cbn; intros Hnd; [apply NoDup_singleton|].
  apply NoDup_cons in Hnd as [Hz Hnd]. case_bool_decide as E; cbn.
  - rewrite E in Hz. by constructor.
  - constructor; [|by apply IH]. intros (y & Ey & Hy)%list_elem_of_fmap. apply elem_of_upsert in Hy as [->|Hy]; [congruence|].
    apply Hz. rewrite Ey. by apply list_elem_of_fmap_2.
Qed.

Lemma upsert_nodup {A K} (f : A → K) P x l : NoDup (f <$> l) → f x ∉ f <$> l → NoDup (f <$> upsert P x l).
Proof.
  induction l as [|z l IH]; cbn; intros Hnd Hx; [apply NoDup_singleton|]. apply NoDup_cons in Hnd as [Hz Hnd].
  apply not_elem_of_cons in Hx as [Hxz Hx]. destruct (P z); cbn; [by constructor|]. constructor; [|by apply IH].
  intros (y & Ey & Hy)%list_elem_of_fmap. apply elem_of_upsert in Hy as [->|Hy]; [congruence|].
  apply Hz. rewrite Ey. by apply list_elem_of_fmap_2.
Qed.

(** The first [m] blocks have headers, with checksums of 32 bytes. *)
Definition headers_ok (m : Z) d : Prop :=
  ∀ h, 0 ≤ h < m → ∃ s, getBlockHeader h d = Some s ∧ length (stringToBuffer s) = 32%nat.

(** What a submission must be for its epoch to be closed. *)
Record submission_ok (s : IEpochSubmissionsDocument) : Prop := {
  so_key : submission_key_ok s;
  so_salt : length (m_salt (sd_epochProposed s)) = 32%nat;
  so_graffiti g : m_graffiti (sd_epochProposed s) = Some g → Z.of_nat (length g) ≤ GRAFFITI_LENGTH (EPOCH C)
}.

Definition witness_ok (w : IBlockWitnessDocument) : Prop := bw_blockNumber w < 2 ^ 64 ∧ bw_timestamp w < 2 ^ 64.

(** A solution of an epoch, which is saved once. *)
Definition identity (s : IEpochSubmissionsDocument) : Z * bytes * bytes :=
  (sd_epochNumber s, m_mldsaPublicKey (sd_epochProposed s), m_salt (sd_epochProposed s)).

Record stored_ok d : Prop := {
  st_submissions : Forall submission_ok (submissions d);
  st_identities : NoDup (identity <$> submissions d);
  st_hashes : NoDup (sd_submissionTxHash <$> submissions d);
  st_witnesses : Forall witness_ok (witnesses d)
}.

(** The checksum an epoch is mined on: that of the last block before it. *)
Definition mining_root d n : bytes :=
  if decide (n = 0) then replicate 32 0 else default [] (stringToBuffer <$> getBlockHeader (n * bpe - 1) d).

Definition previous_hash d n : option bytes :=
  if decide (n = 0) then Some (replicate 32 0) else ed_epochHash <$> getEpochByNumber (n - 1) d.

(** A closed epoch: its bounds, its target, the solution of its proposer with its
    difficulty, and the commitment to the epoch before, which its root proves. *)
Record epoch_ok d n (e : IEpochDocument) : Prop := {
  eo_number : ed_epochNumber e = n;
  eo_start : ed_startBlock e = n * bpe;
  eo_end : ed_endBlock e = n * bpe + bpe - 1;
  eo_target : ed_targetHash e = sha1 (mining_root d n);
  eo_solution : m_solution (ed_proposer e) =
    sha1 (EpochValidator.calculatePreimage (mining_root d n) (m_mldsaPublicKey (ed_proposer e)) (m_salt (ed_proposer e)));
  eo_difficulty : ed_difficultyScaled e =
    pretty (2 ^ EpochValidator.countMatchingBits (m_solution (ed_proposer e)) (ed_targetHash e));
  eo_commits : ∃ data b, data_bytes data = Ok b ∧ ed_epochHash e = sha256 b ∧
    verifyEpochData (ed_epochRoot e) (ed_proofs e) b = true ∧
    epochNumber data = n ∧ e_checksumRoot data = mining_root d n ∧ previous_hash d n = Some (previousEpochHash data) ∧
    w_solutionHash <$> winner data = Some (m_solution (ed_proposer e))
}.

(** The epochs of the database are the first [m]. *)
Record epochs_are (m : Z) d : Prop := {
  ea_keys : NoDup (ed_epochNumber <$> epochs d);
  ea_range e : e ∈ epochs d → 0 ≤ ed_epochNumber e < m;
  ea_epoch n : 0 ≤ n < m → ∃ e, getEpochByNumber n d = Some e ∧ epoch_ok d n e
}.

(** ** Closing an epoch *)

Lemma checksum_root_ok s : length (stringToBuffer s) = 32%nat → EpochManager.checksum_root s = Ok (stringToBuffer s).
Proof. intros H. unfold EpochManager.checksum_root. cbv zeta. by rewrite decide_False by lia. Qed.

Lemma getChecksumRoots_spec d l m :
  (∀ h, h ∈ l → ∃ s, getBlockHeader h d = Some s ∧ length (stringToBuffer s) = 32%nat) →
  ∃ m', rfold (EpochManager.add_root d) m l = Ok m' ∧
    ∀ h, (h ∈ l ∨ is_Some (JsMap.get m h)) → is_Some (JsMap.get m' h).
Proof.
  revert m. induction l as [|x l IH]; intros m Hl; cbn [rfold].
  { exists m. split; [done|]. by intros h [?%elem_of_nil|?]. }
  destruct (Hl x) as (s & Hs & E); [left|]. 
  assert (EpochManager.add_root d m x = Ok (JsMap.set m x (stringToBuffer s))) as ->
    by (unfold EpochManager.add_root; by rewrite Hs, (checksum_root_ok s E)). cbn [mbind result_bind].
  destruct (IH (JsMap.set m x (stringToBuffer s))) as (m' & -> & Hm); [intros h Hh; apply Hl; by right|].
  exists m'. split; [done|]. intros h Hh. apply Hm. rewrite JsMap.get_set. case_decide as Ex; [right; by eexists|].
  destruct Hh as [[->|Hh]%elem_of_cons|Hh]; [done|by left|by right].
Qed.

(** The witnesses of an epoch are of its blocks, and not too many. *)
Lemma slice_front_elem {A} n (l : list A) x : x ∈ slice_front n l → x ∈ l.
Proof.
  revert n. induction l as [|y l IH]; intros n; cbn; [done|]. case_decide; [|by intros ?%elem_of_nil].
  intros [->|Hin%IH]%elem_of_cons; [left|by right].
Qed.

Lemma slice_front_length {A} n (l : list A) : 0 ≤ n → Z.of_nat (length (slice_front n l)) ≤ n.
Proof.
  revert n. induction l as [|y l IH]; intros n Hn; cbn; [done|]. case_decide; cbn; [|done].
  specialize (IH (n - 1)). lia.
Qed.

Lemma getWitnesses_spec h d w :
  w ∈ getWitnesses h MAX_ATTESTATION_PER_BLOCK d → w ∈ witnesses d ∧ bw_blockNumber w = h.
Proof.
  unfold getWitnesses. rewrite decide_False by lia. intros [Hw He]%slice_front_elem%elem_of_filter_bool.
  split; [done|]. by apply bool_decide_eq_true in He.
Qed.

Lemma witnesses_of_epoch startBlock endBlock d :
  startBlock ≤ endBlock + 1 →
  let l := getWitnessesForEpoch startBlock endBlock MAX_ATTESTATION_PER_BLOCK d in
  (∀ w, w ∈ l → w ∈ witnesses d ∧ startBlock ≤ bw_blockNumber w ≤ endBlock) ∧
  Z.of_nat (length l) ≤ MAX_ATTESTATION_PER_BLOCK * (endBlock - startBlock + 1).
Proof.
  intros Hle l. unfold l, getWitnessesForEpoch. split.
  - intros w. rewrite sort_by_permutes. intros (x & Hx & Hw)%list_elem_of_In%in_concat.
    apply in_map_iff in Hx as (h & <- & Hh). apply list_elem_of_In, elem_of_seqZ in Hh. apply list_elem_of_In, getWitnesses_spec in Hw as [Hw <-].
    split; [done|lia].
  - rewrite sort_by_permutes.
    assert (∀ hs, Z.of_nat (length (concat (map (fun h => getWitnesses h MAX_ATTESTATION_PER_BLOCK d) hs)))
                  ≤ MAX_ATTESTATION_PER_BLOCK * Z.of_nat (length hs)) as H.
    { induction hs as [|h hs IH]; [cbn; lia|]. cbn [map concat]. rewrite length_app. cbn [length].
      rewrite Nat2Z.inj_succ, Z.mul_succ_r. assert (Z.of_nat (length (getWitnesses h MAX_ATTESTATION_PER_BLOCK d)) ≤ MAX_ATTESTATION_PER_BLOCK); [|lia].
      unfold getWitnesses. rewrite decide_False by lia. apply slice_front_length. lia. }
    etransitivity; [apply H|]. rewrite length_seqZ, Z2Nat.id by lia. done.
Qed.

(** What is added to the tree, which stays open. *)
Lemma add_attestations_spec l roots (s : EpochMerkleTree.t) :
  frozen s = false →
  (∀ w, w ∈ l → is_Some (JsMap.get roots (bw_blockNumber w)) ∧ witness_ok w ∧
                startBlock (epochData s) ≤ bw_blockNumber w ≤ endBlock (epochData s)) →
  ∃ s' added, EpochManager.add_attestations l roots s = (s', Ok tt) ∧
    attestations s' = attestations s ++ added ∧ Forall attestation_fits added ∧ (length added ≤ length l)%nat ∧
    frozen s' = false ∧ epochData s' = epochData s ∧ maxAttestations s' = maxAttestations s.
Proof.
  revert s. induction l as [|w l IH]; intros s Hf Hl; cbn [EpochManager.add_attestations].
  { exists s, []. rewrite app_nil_r. done. }
  destruct (Hl w) as ([root Hr] & Hw & Hb); [left|].
  unfold mbind, stx_bind, slift. unfold EpochManager.witnessToAttestation. rewrite Hr.
  destruct (bw_publicKey w) as [k|]; cbn [fmap option_fmap option_map].
  - unfold addBlockAttestation. rewrite Hf. cbn [blockNumber]. rewrite decide_False by lia.
    match goal with |- context [set_attestations ?l0 s] => set (s1 := set_attestations l0 s) end.
    destruct (IH s1) as (s' & added & E & Ha & Hfit & Hlen & Hf' & Hd & Hmax); [done|intros v Hv; apply Hl; by right|].
    eexists s', (_ :: added). rewrite E. split; [done|]. split; [rewrite Ha; cbn; by rewrite <- app_assoc|].
    split; [by constructor|]. split; [cbn; lia|done].
  - cbn [mret stx_ret]. destruct (IH s) as (s' & added & E & Ha & Hfit & Hlen & Hf' & Hd & Hmax); [done|intros v Hv; apply Hl; by right|].
    exists s', added. rewrite E. split; [done|]. split; [done|]. split; [done|]. split; [cbn; lia|done].
Qed.

(** What an epoch needs of the ones before. *)
Definition before_ok n d : Prop :=
  ∀ m, 0 ≤ m < n → ∃ e, getEpochByNumber m d = Some e ∧ ed_endBlock e = m * bpe + bpe - 1.

Lemma previous_ok n d : 0 ≤ n → before_ok n d → ∃ p, EpochManager.getPreviousEpochHash n d = Ok p ∧ previous_hash d n = Some p.
Proof.
  intros Hn Hb. unfold EpochManager.getPreviousEpochHash, previous_hash. case_decide; [by eexists|].
  destruct (Hb (n - 1)) as (e & -> & _); [lia|]. by eexists.
Qed.

Lemma attestation_ok n d :
  0 ≤ n → headers_ok ((n + 1) * bpe) d → before_ok n d →
  ∃ a, EpochManager.getAttestationChecksumRoot n d = Ok a ∧ EpochManager.at_epochNumber a = n - 4.
Proof.
  intros Hn Hh Hb. unfold EpochManager.getAttestationChecksumRoot. case_decide; [by eexists|].
  destruct (Hb (n - 4)) as (e & -> & ->); [lia|]. destruct (Hh ((n - 4) * bpe + bpe - 1)) as (s & -> & E); [nia|].
  rewrite (checksum_root_ok s E). cbn. by eexists.
Qed.

Lemma mining_ok n d :
  0 ≤ n → headers_ok ((n + 1) * bpe) d →
  ∃ r, EpochManager.getMiningTargetChecksum (EpochManager.getMiningTargetBlock C n) d = Ok r ∧
    (if decide (n = 0) then replicate 32 0 else default (replicate 32 0) r) = mining_root d n.
Proof.
  intros Hn Hh. unfold EpochManager.getMiningTargetBlock, mining_root. case_decide as E0; [by exists None|].
  cbn [EpochManager.getMiningTargetChecksum]. destruct (Hh (n * bpe - 1)) as (s & -> & E); [nia|].
  rewrite (checksum_root_ok s E). cbn. by exists (Some (stringToBuffer s)).
Qed.

(** The submissions an epoch is decided on. *)
Definition epoch_submissions n d : list IEpochSubmissionsDocument :=
  if decide (n = 0) then [] else getSubmissionsByEpochNumber n d.

Lemma epoch_submissions_elem n d s : s ∈ epoch_submissions n d → s ∈ submissions d ∧ sd_epochNumber s = n.
Proof.
  unfold epoch_submissions. case_decide; [by intros ?%elem_of_nil|]. unfold getSubmissionsByEpochNumber.
  rewrite sort_by_permutes. intros [Hs He]%elem_of_filter_bool. split; [done|]. by apply bool_decide_eq_true in He.
Qed.

Abbreviation proposer_ := (EpochManager.proposer C).

Lemma proposer_ok n d target endBlock :
  Forall submission_ok (submissions d) →
  ∃ r, EpochManager.getBestSubmission C CHAIN_ID NETWORK (epoch_submissions n d) target endBlock = Ok r ∧
    match r with Some w => w_epochNumber w = n | None => True end ∧
    let '(salt, _, _, g) := proposer_ r n in length salt = 32%nat ∧ (length g ≤ graffiti_length)%nat.
Proof.
  intros Hs. destruct (best_spec C CHAIN_ID NETWORK target endBlock (epoch_submissions n d)) as (r & Hr & Hw).
  { apply Forall_forall. intros s [Hin _]%epoch_submissions_elem. by eapply Forall_forall in Hs; [apply so_key|]. }
  exists r. split; [done|]. destruct r as [w|]; cbn [EpochManager.proposer].
  2: { split; [done|]. split; [done|]. by rewrite length_replicate. }
  destruct Hw as (s & [Hc _] & ->). destruct (early_spec C CHAIN_ID NETWORK endBlock) as [f Hf]. unfold candidates in Hc.
  rewrite Hf in Hc. apply elem_of_filter_bool in Hc as [[[Hin He]%epoch_submissions_elem _]%elem_of_filter_bool _].
  split; [done|]. eapply Forall_forall in Hs as [_ Hsalt Hg]; [|exact Hin].
  case_decide; [split; [done|by rewrite length_replicate]|]. cbn. split; [done|].
  destruct (m_graffiti (sd_epochProposed s)) as [g|] eqn:Eg; cbn; [specialize (Hg g eq_refl); lia|by rewrite length_replicate].
Qed.

Abbreviation finalize_ := (EpochManager.finalizeEpochCompletion C CHAIN_ID NETWORK MAX_ATTESTATION_PER_BLOCK chainId).

(** The database with an epoch closed. *)
Definition with_epoch n (e : IEpochDocument) (all : list AttestationProof) d : EpochDatabase.t :=
  deleteOldTargetEpochs n (saveEpoch e (updateWitnessProofs all d)).

Lemma epoch_closed_spec n d :
  0 ≤ n → (n + 1) * bpe < 2 ^ 64 → headers_ok ((n + 1) * bpe) d → before_ok n d → stored_ok d →
  ∃ e all r, finalize_ n d = (with_epoch n e all d, Ok tt) ∧ epoch_ok d n e ∧
    EpochManager.getBestSubmission C CHAIN_ID NETWORK (epoch_submissions n d) (ed_targetHash e) (ed_endBlock e) = Ok r ∧
    proposer_ r n = (m_salt (ed_proposer e), m_mldsaPublicKey (ed_proposer e), m_legacyPublicKey (ed_proposer e),
                     default [] (m_graffiti (ed_proposer e))).
Proof.
  intros Hn H64 Hh Hb [Hsub _ _ Hwit].
  destruct (previous_ok n d Hn Hb) as (ph & Hph & Hph'). destruct (attestation_ok n d Hn Hh Hb) as (a & Ha & Ea).
  destruct (mining_ok n d Hn Hh) as (mt & Hmt & Eroot).
  destruct (getChecksumRoots_spec d (seqZ (n * bpe) (n * bpe + bpe - 1 - n * bpe + 1)) []) as (roots & Hroots & Hin).
  { intros h Hr%elem_of_seqZ. apply Hh. nia. }
  destruct (proposer_ok n d (sha1 (mining_root d n)) (n * bpe + bpe - 1) Hsub) as (r & Hr & Hrn & Hp).
  destruct (witnesses_of_epoch (n * bpe) (n * bpe + bpe - 1) d) as [Hw Hlen]; [lia|].
  unfold EpochManager.finalizeEpochCompletion. rewrite epochs_enabled. cbn [negb]. cbv zeta. rewrite Hph, Ha. cbn [mbind result_bind].
  unfold EpochManager.getChecksumRoots. rewrite Hroots, Hmt. cbn [mbind result_bind]. fold (epoch_submissions n d).
  unfold EpochManager.finalizeEpoch, EpochManager.closed_epoch. rewrite Eroot, Hr. cbn [mbind result_bind].
  assert (match r with Some w => bool_decide (w_epochNumber w ≠ n) | None => false end = false) as ->.
  { destruct r as [w|]; [|done]. apply bool_decide_false. naive_solver. }
  destruct (proposer_ r n) as [[[salt pk] lk] g] eqn:Ep. destruct Hp as [Hsalt Hg]. rewrite decide_False by lia.
  set (solution := sha1 (EpochValidator.calculatePreimage (mining_root d n) pk salt)).
  set (bits := EpochValidator.countMatchingBits solution (sha1 (mining_root d n))).
  set (w := mkWinner n bits salt pk lk solution g).
  set (data := mkEpochData n (n * bpe) (n * bpe + bpe - 1) (mining_root d n) ph (EpochManager.at_epochNumber a)
                 (EpochManager.at_root a) None).
  set (s0 := EpochMerkleTree.mk None [] (with_winner w data) None None false default_maxAttestations).
  destruct (add_attestations_spec (getWitnessesForEpoch (n * bpe) (n * bpe + bpe - 1) MAX_ATTESTATION_PER_BLOCK d) roots s0)
    as (s1 & added & E1 & Eatt & Hfit & Hadd & Hf1 & Hd1 & Hm1); [done| |].
  { intros v Hv. destruct (Hw v Hv) as [Hv1 Hv2]. split; [|split; [by eapply Forall_forall in Hwit|done]].
    apply Hin. left. apply elem_of_seqZ. lia. }
  destruct (tree_freeze_spec chainId (PROTOCOL_ID C) graffiti_length s1 w) as (s2 & b & bs & E2 & Ht & _); [done|..].
  { rewrite Hd1. split; cbn; [done|done|nia|nia|lia|rewrite Ea; nia]. }
  { rewrite Eatt. cbn. done. }
  { rewrite Eatt, Hm1. cbn. unfold default_maxAttestations in *. nia. }
  { rewrite Hm1. cbn. unfold default_maxAttestations. lia. }
  rewrite Hd1 in Ht. cbn in Ht.
  assert ((_ ← setWinner w; _ ← EpochManager.add_attestations
             (getWitnessesForEpoch (n * bpe) (n * bpe + bpe - 1) MAX_ATTESTATION_PER_BLOCK d) roots;
           freeze chainId (PROTOCOL_ID C) graffiti_length) (construct data default_maxAttestations) = (s2, Ok tt)) as ->.
  { unfold mbind, stx_bind, setWinner. cbn [frozen construct]. unfold s0 in E1. cbn -[EpochManager.add_attestations getWitnessesForEpoch freeze].
    rewrite E1. exact E2. }
  destruct (epoch_proof chainId (PROTOCOL_ID C) graffiti_length _ b bs s2 Ht) as (pr & Hpr & Hv).
  destruct (all_proofs chainId (PROTOCOL_ID C) graffiti_length _ b bs s2 Ht) as (all & Hall & _).
  pose proof Ht as (_ & _ & Hbytes & _ & Hhash & Htree & _).
  unfold rootBuffer, generated, epochHash. rewrite Htree, Hhash, Hpr. cbn [mbind result_bind]. rewrite Hall. cbn [mbind result_bind].
  eexists _, all, r. split; [reflexivity|].
  assert (Z.quot (n * bpe) bpe = n) as Eq by (apply Z.quot_mul; lia).
  split; [|split; [exact Hr|exact Ep]].
  split; cbn; [done|done|done|done|done| |].
  - unfold EpochDifficultyConverter.bitsToScaledDifficulty. rewrite Z.max_r; [done|].
    unfold bits, EpochValidator.countMatchingBits. rewrite count_loop_spec. lia.
  - exists (with_winner w data), b. done.
Qed.

(** ** The epochs of the database *)

Lemma epoch_ok_ext d d' n e :
  mining_root d' n = mining_root d n → previous_hash d' n = previous_hash d n → epoch_ok d n e → epoch_ok d' n e.
Proof. intros E1 E2 []. split; rewrite ?E1, ?E2; done. Qed.

Lemma epochs_before n m d : n ≤ m → epochs_are m d → before_ok n d.
Proof.
  intros Hn He k Hk. destruct (ea_epoch _ _ He k) as (e & E & Hok); [lia|]. exists e. split; [done|]. apply Hok.
Qed.

Lemma epochs_are_with n e all d :
  0 ≤ n → epochs_are n d → epoch_ok d n e → epochs_are (n + 1) (with_epoch n e all d).
Proof.
  intros Hn [Hk Hr He] Hok. pose proof (eo_number _ _ _ Hok) as En.
  assert (epochs (with_epoch n e all d) = upsert (fun x => bool_decide (ed_epochNumber x = ed_epochNumber e)) e (epochs d)) as Ee by done.
  assert (∀ m, getEpochByNumber m (with_epoch n e all d) = if decide (n = m) then Some e else getEpochByNumber m d) as Hget.
  { intros m. rewrite <- En. apply find_upsert. }
  assert (∀ m, m ≤ n → previous_hash (with_epoch n e all d) m = previous_hash d m) as Hprev.
  { intros m Hm. unfold previous_hash. case_decide; [done|]. by rewrite Hget, decide_False by lia. }
  split.
  - rewrite Ee. by apply upsert_keys.
  - intros x. rewrite Ee. intros [->|Hx]%elem_of_upsert; [lia|]. specialize (Hr x Hx). lia.
  - intros m Hm. rewrite Hget. case_decide as E.
    + subst m. exists e. split; [done|]. apply (epoch_ok_ext d); [done|by apply Hprev|done].
    + destruct (He m) as (x & Hx & Hxok); [lia|]. exists x. split; [done|].
      apply (epoch_ok_ext d); [done|apply Hprev; lia|done].
Qed.

Lemma update_proof_ok p l : Forall witness_ok l → Forall witness_ok (update_proof l p).
Proof.
  unfold update_proof. induction 1 as [|w l Hw Hl IH]; cbn; [done|]. case_bool_decide; constructor; done.
Qed.

Lemma stored_ok_with n e all d : stored_ok d → stored_ok (with_epoch n e all d).
Proof.
  intros [H1 H2 H3 H4]. split; [done|done|done|]. cbn. apply foldl_invariant; [done|]. intros l p _. apply update_proof_ok.
Qed.

(** The first blocks of the chain close the first epochs. *)
Lemma updateEpoch_spec h d :
  0 ≤ h → h + bpe < 2 ^ 64 → headers_ok (h + 1) d → stored_ok d → epochs_are (if decide (h = 0) then 0 else (h - 1) / bpe) d →
  ∃ d', EpochManager.updateEpoch C CHAIN_ID NETWORK MAX_ATTESTATION_PER_BLOCK chainId h d = (d', Ok tt) ∧
    headers d' = headers d ∧ submissions d' = submissions d ∧ stored_ok d' ∧ epochs_are (h / bpe) d'.
Proof.
  intros Hh H64 Hhd Hst He. unfold EpochManager.updateEpoch.
  rewrite Z.rem_mod_nonneg, Z.quot_div_nonneg by lia. pose proof (Z.div_mod h bpe ltac:(lia)) as Hdm.
  pose proof (Z.mod_pos_bound h bpe ltac:(lia)) as Hmod.
  destruct (decide (h mod bpe = 0 ∧ 0 < h)) as [[Hm Hpos]|Hc].
  - rewrite decide_False in He by lia. set (n := h / bpe - 1).
    assert (1 ≤ h / bpe) as Hq by nia.
    assert ((h - 1) / bpe = n) as En.
    { symmetry. apply (Z.div_unique _ _ n (bpe - 1)); [lia|]. unfold n. nia. }
    rewrite En in He.
    destruct (epoch_closed_spec n d) as (e & all & r & E & Hok & _); [lia|unfold n; nia| |by apply (epochs_before n n)|done|].
    { intros k Hk. apply Hhd. unfold n in Hk. nia. }
    exists (with_epoch n e all d). split; [done|]. split; [done|]. split; [done|]. split; [by apply stored_ok_with|].
    replace (h / bpe) with (n + 1) by lia. apply epochs_are_with; [lia|done|done].
  - exists d. split; [done|]. split; [done|]. split; [done|]. split; [done|].
    destruct (decide (h = 0)) as [E0|E0]; [subst h; by rewrite Z.div_0_l by lia|].
    replace (h / bpe) with ((h - 1) / bpe); [done|]. symmetry.
    apply (Z.div_unique _ _ _ (h mod bpe - 1)); [left; lia|lia].
Qed.

(** ** Closing the epochs again *)

Lemma find_kept n k l :
  n < k → List.find (fun e => bool_decide (ed_epochNumber e = n)) (List.filter (fun e => negb (bool_decide (k ≤ ed_epochNumber e))) l) =
  List.find (fun e => bool_decide (ed_epochNumber e = n)) l.
Proof.
  intros Hn. induction l as [|e l IH]; [done|]. cbn. destruct (bool_decide (k ≤ ed_epochNumber e)) eqn:Ek; cbn; rewrite IH; [|done].
  apply bool_decide_eq_true in Ek. by rewrite bool_decide_false by lia.
Qed.

Lemma epochs_are_deleted m k d :
  0 ≤ k ≤ m → epochs_are m d → epochs_are k (deleteEpochsFromEpochNumber k d).
Proof.
  intros Hk [H1 H2 H3]. split.
  - eapply sublist_NoDup; [exact H1|]. apply fmap_sublist. cbn.
    generalize (epochs d). induction l as [|x l IH]; cbn; [done|]. destruct (negb _); by constructor.
  - intros e He. apply elem_of_filter_bool in He as [He Hle]. specialize (H2 e He).
    apply negb_true_iff, bool_decide_eq_false in Hle. lia.
  - intros n Hn. destruct (H3 n) as (e & Ee & Hok); [lia|]. exists e. unfold getEpochByNumber. cbn. rewrite find_kept by lia.
    split; [done|]. apply (epoch_ok_ext d); [done| |done]. unfold previous_hash, getEpochByNumber. cbn. case_decide; [done|].
    by rewrite find_kept by lia.
Qed.

Lemma reindex_loop_spec k from d :
  0 ≤ from → (from + Z.of_nat k) * bpe < 2 ^ 64 → headers_ok ((from + Z.of_nat k) * bpe) d → stored_ok d → epochs_are from d →
  ∃ d', EpochReindexer.reindex_loop C CHAIN_ID NETWORK MAX_ATTESTATION_PER_BLOCK chainId (seqZ from (Z.of_nat k)) d = (d', Ok true) ∧
    epochs_are (from + Z.of_nat k) d' ∧ headers d' = headers d ∧ submissions d' = submissions d.
Proof.
  revert from d. induction k as [|k IH]; intros from d Hf H64 Hh Hst He.
  { exists d. by rewrite Z.add_0_r. }
  rewrite seqZ_cons by lia. cbn [EpochReindexer.reindex_loop].
  destruct (epoch_closed_spec from d) as (e & all & r & E & Hok & _); [done|nia| |by apply (epochs_before from from)|done|].
  { intros h Hr. apply Hh. nia. }
  unfold mbind, stx_bind. rewrite E. replace (Z.pred (Z.of_nat (S k))) with (Z.of_nat k) by lia. rewrite <- Z.add_1_r.
  destruct (IH (from + 1) (with_epoch from e all d)) as (d' & -> & He' & E1 & E2); [lia|nia| |by apply stored_ok_with|by apply epochs_are_with|].
  { intros h Hr. apply Hh. nia. }
  exists d'. split; [done|]. split; [|done]. by replace (from + Z.of_nat (S k)) with (from + 1 + Z.of_nat k) by lia.
Qed.

(** closing the epochs again, from any epoch that was closed or the next one,
    leaves every epoch that ended before the height closed, those whose closing
    was missed included; the submissions stay. *)
Theorem reindexing_closes from height m d :
  0 ≤ from ≤ m → 0 ≤ height < 2 ^ 64 → (from + 1) * bpe ≤ height → headers_ok height d → stored_ok d → epochs_are m d →
  ∃ d', EpochReindexer.reindexEpochs C CHAIN_ID NETWORK MAX_ATTESTATION_PER_BLOCK chainId false from height d = (d', Ok true) ∧
    epochs_are (height / bpe) d' ∧ submissions d' = submissions d.
Proof.
  intros Hf Hh Hlt Hhd Hst He. unfold EpochReindexer.reindexEpochs.
  assert (from + 1 ≤ height / bpe) as Hq by (apply Z.div_le_lower_bound; lia).
  pose proof (Z.mul_div_le height bpe bpe_pos) as Hle.
  rewrite (decide_True (P := 0 < height)) by nia. rewrite Z.quot_div_nonneg, !decide_False by lia.
  destruct (reindex_loop_spec (Z.to_nat (height / bpe - from)) from (deleteEpochsFromEpochNumber from d))
    as (d' & E & He' & E1 & E2); [lia|rewrite Z2Nat.id; nia| |by destruct Hst|by apply (epochs_are_deleted m)|].
  { intros h Hr. rewrite Z2Nat.id in Hr by lia. apply Hhd. nia. }
  rewrite Z2Nat.id in E, He' by lia. replace (height / bpe - 1 - from + 1) with (height / bpe - from) by lia.
  exists d'. split; [done|]. by replace (height / bpe) with (from + (height / bpe - from)) by lia.
Qed.

(** ** The submissions of a block *)

Section Submissions.
Context {KL : MapLib bytes} (allowUnsafeSignatures : bool).
Implicit Types (links : MLDSALinks.t) (txs : list BlockSubmissions.SubmittedTransaction).

Definition known links (key : bytes) (w : IMLDSAPublicKey) : Prop :=
  (∃ u, m_get (MLDSALinks.mldsaToStore links) key = Some u ∧ w = data u) ∨
  (w ∈ MLDSALinks.collection links ∧ hashedPublicKey w = key).

Definition cache_ok links : Prop := ∀ key w, m_get (MLDSALinks.mldsaCache links) key = Some (Some w) → known links key w.

Lemma getMLDSAPublicKey_known h key links :
  cache_ok links →
  let '(links', r) := MLDSALinks.getMLDSAPublicKey h key links in
  cache_ok links' ∧ (∀ k w, known links' k w ↔ known links k w) ∧ ∀ w, r = Some w → known links key w.
Proof.
  intros Hc. unfold MLDSALinks.getMLDSAPublicKey. destruct (m_get (MLDSALinks.mldsaToStore links) key) as [u|] eqn:Eu.
  { split; [done|]. split; [done|]. intros w [= <-]. left. by exists u. }
  destruct (m_get (MLDSALinks.mldsaCache links) key) as [c|] eqn:Ec.
  { split; [done|]. split; [done|]. intros w ->. by apply Hc. }
  assert (∀ w, MLDSAPublicKeyRepository.getByHashedPublicKey key h (MLDSALinks.collection links) = Some w → known links key w) as Hr.
  { intros w Hw. right. unfold MLDSAPublicKeyRepository.getByHashedPublicKey, MLDSAPublicKeyRepository.findOne in Hw.
    apply fmap_Some in Hw as ([i d] & Hd & ->). apply list_find_Some in Hd as (Hd & [E _] & _). split; [|done].
    by eapply list_elem_of_lookup_2. }
  split; [|split; [done|done]]. intros k w. cbn. rewrite m_get_set. case_decide as E; [subst k; intros [= Hw]; by apply Hr|apply Hc].
Qed.

Lemma extended_spec h l links :
  cache_ok links →
  let '(links', r) := BlockSubmissions.extended allowUnsafeSignatures h l links in
  cache_ok links' ∧ (∀ k w, known links' k w ↔ known links k w) ∧ r.*1 `sublist_of` l ∧
  ∀ x legacy, (x, legacy) ∈ r → 
    ∃ w, known links (submission_key (BlockSubmissions.es_submission x)) w ∧ legacy = legacyPublicKey w ∧
      BlockSubmissions.wallet_ok allowUnsafeSignatures w = true.
Proof.
  revert links. induction l as [|x l IH]; intros links Hc; cbn [BlockSubmissions.extended].
  { split; [done|]. split; [done|]. split; [done|]. by intros x legacy ?%elem_of_nil. }
  pose proof (getMLDSAPublicKey_known h (submission_key (BlockSubmissions.es_submission x)) links Hc) as Hg.
  destruct (MLDSALinks.getMLDSAPublicKey h _ links) as [links1 r1]. destruct Hg as (Hc1 & Hk1 & Hr1).
  specialize (IH links1 Hc1). destruct (BlockSubmissions.extended _ h l links1) as [links2 rest]. destruct IH as (Hc2 & Hk2 & Hsub & Hrest).
  assert (∀ k w, known links2 k w ↔ known links k w) as Hk by (intros k w; by rewrite Hk2, Hk1).
  assert (∀ y legacy, (y, legacy) ∈ rest → ∃ w, known links (submission_key (BlockSubmissions.es_submission y)) w ∧
      legacy = legacyPublicKey w ∧ BlockSubmissions.wallet_ok allowUnsafeSignatures w = true) as Hold.
  { intros y legacy Hy. destruct (Hrest y legacy Hy) as (w & Hw & ?). exists w. by rewrite <- Hk1. }
  assert (rest.*1 `sublist_of` x :: l) as Hsub' by (by constructor).
  destruct r1 as [w|]; [|done]. case_decide; [done|]. destruct (BlockSubmissions.wallet_ok _ w) eqn:Ew; [|done].
  split; [done|]. split; [done|]. split; [by constructor|]. intros y legacy [[= -> ->]|Hy]%elem_of_cons; [|by apply Hold].
  exists w. split; [by apply Hr1|done].
Qed.

(** A submission a block may save: of one of its transactions, at its height, for
    the current epoch, difficult enough, new, and of a known wallet. *)
Record fresh h txs links d (s : IEpochSubmissionsDocument) : Prop := {
  fr_height : sd_confirmedAt s = h;
  fr_epoch : sd_epochNumber s = h / bpe ∧ h / bpe ≠ 0;
  fr_transaction : ∃ tx sub, tx ∈ txs ∧ BlockSubmissions.st_submission tx = Some sub ∧
    m_mldsaPublicKey (sd_epochProposed s) = submission_key sub ∧ m_salt (sd_epochProposed s) = submission_salt sub ∧
    m_graffiti (sd_epochProposed s) = graffiti sub;
  fr_solution : m_solution (sd_epochProposed s) = sha1 (EpochValidator.calculatePreimage (mining_root d (h / bpe))
    (m_mldsaPublicKey (sd_epochProposed s)) (m_salt (sd_epochProposed s)));
  fr_difficulty : EpochManager.minDifficulty C ≤ difficulty (sha1 (mining_root d (h / bpe))) s;
  fr_sizes : length (m_salt (sd_epochProposed s)) = 32%nat ∧
    ∀ g, m_graffiti (sd_epochProposed s) = Some g → Z.of_nat (length g) ≤ GRAFFITI_LENGTH (EPOCH C);
  fr_new : EpochDatabase.submissionExists (m_mldsaPublicKey (sd_epochProposed s)) (m_salt (sd_epochProposed s)) (h / bpe) d = false;
  fr_wallet : ∃ w, known links (m_mldsaPublicKey (sd_epochProposed s)) w ∧ m_legacyPublicKey (sd_epochProposed s) = legacyPublicKey w ∧
    BlockSubmissions.wallet_ok allowUnsafeSignatures w = true
}.

Abbreviation key_of := BlockSubmissions.generateSubmissionKey.
Abbreviation sub_of := BlockSubmissions.es_submission.

(** What the map of the submissions holds. *)
Definition extracted txs (m : list (string * BlockSubmissions.EpochSubmission)) : Prop :=
  JsMap.wf m ∧ ∀ k x, (k, x) ∈ m → k = key_of (sub_of x) ∧ ∃ tx, tx ∈ txs ∧ BlockSubmissions.st_submission tx = Some (sub_of x).

Lemma extract_spec txs : extracted txs (BlockSubmissions.extractUniqueSubmissions txs).
Proof.
  unfold BlockSubmissions.extractUniqueSubmissions.
  assert (∀ l m, (∀ tx, tx ∈ l → tx ∈ txs) → extracted txs m → extracted txs (foldl BlockSubmissions.extract_one m l)) as Hl.
  { induction l as [|tx l IH]; intros m Hin Hm; cbn [foldl]; [done|]. apply IH; [intros t Ht; apply Hin; by right|].
    unfold BlockSubmissions.extract_one. destruct (BlockSubmissions.st_submission tx) as [sub|] eqn:Es; [|done].
    destruct (JsMap.has m _) eqn:Eh; [done|]. destruct Hm as [Hwf Hm]. split; [by apply JsMap.wf_set|].
    rewrite JsMap.set_new by (unfold JsMap.has in Eh; by destruct (JsMap.get m _)).
    intros k x [Hx|[= -> ->]%list_elem_of_singleton]%elem_of_app; [by apply Hm|]. split; [done|].
    exists tx. split; [apply Hin; left|done]. }
  apply Hl; [done|]. split; [apply NoDup_nil_2|]. by intros k x ?%elem_of_nil.
Qed.

(** The solutions of different entries differ. *)
Definition pair_of (x : BlockSubmissions.EpochSubmission) : bytes * bytes := (submission_key (sub_of x), submission_salt (sub_of x)).

Lemma extracted_pairs txs m : extracted txs m → NoDup (pair_of <$> m.*2).
Proof.
  intros [Hwf Hm]. apply (NoDup_fmap_1 (fun p : bytes * bytes => (toHex p.2 +:+ "-" +:+ toHex p.1)%string)).
  unfold JsMap.wf, JsMap.keys in Hwf. replace (_ <$> _) with m.*1; [done|].
  rewrite <- !list_fmap_compose. apply list_fmap_ext. intros i [k x] Hi. cbn.
  destruct (Hm k x) as [-> _]; [by eapply list_elem_of_lookup_2|done].
Qed.

Lemma filter_sublist {A} (f : A → bool) l : List.filter f l `sublist_of` l.
Proof. induction l as [|x l IH]; cbn; [done|]. destruct (f x); by constructor. Qed.

(** The submissions that are saved. *)
Lemma valid_spec h txs d target :
  let l := (BlockSubmissions.validateSubmissions C h target
              (BlockSubmissions.filterExistingSubmissions (Z.quot h bpe) d (BlockSubmissions.extractUniqueSubmissions txs))).*2 in
  NoDup (pair_of <$> l) ∧
  ∀ x, x ∈ l → ∃ tx r, tx ∈ txs ∧ BlockSubmissions.st_submission tx = Some (sub_of x) ∧
    BlockSubmissions.es_validationResult x = Some r ∧ r = EpochManager.validateEpochSubmission C (sub_of x) h target ∧
    EpochManager.vr_valid r = true ∧
    EpochDatabase.submissionExists (submission_key (sub_of x)) (submission_salt (sub_of x)) (Z.quot h bpe) d = false.
Proof.
  intros l. unfold l, BlockSubmissions.validateSubmissions, BlockSubmissions.filterExistingSubmissions.
  pose proof (extract_spec txs) as Hm. set (m := BlockSubmissions.extractUniqueSubmissions txs) in *. split.
  - eapply sublist_NoDup; [|apply (fmap_sublist pair_of), fmap_sublist, filter_sublist].
    match goal with |- context [map ?g (List.filter ?f m)] =>
      replace (pair_of <$> (map g (List.filter f m)).*2) with (pair_of <$> (List.filter f m).*2) by
        (clear; induction (List.filter f m) as [|[k x] y IH]; [done|cbn; by rewrite IH]) end.
    eapply sublist_NoDup; [|apply (fmap_sublist pair_of), fmap_sublist, filter_sublist]. by apply (extracted_pairs txs).
  - intros x ([k y] & -> & [Hy Hv]%elem_of_filter_bool)%list_elem_of_fmap. cbn [snd] in *.
    apply list_elem_of_In, in_map_iff in Hy as ([k0 x] & [= -> <-] & Hx). apply list_elem_of_In, elem_of_filter_bool in Hx as [Hx Hn].
    destruct Hm as [_ Hm]. destruct (Hm _ _ Hx) as (_ & tx & Htx & Es). cbn in Hv. exists tx. eexists. split; [done|].
    split; [done|]. split; [done|]. split; [done|]. split; [done|]. by apply negb_true_iff in Hn.
Qed.

(** The documents that are saved one after the other. *)
Lemma submissions_saved_spec docs d :
  let d' := foldl (fun d s => saveSubmission s d) d docs in
  headers d' = headers d ∧ epochs d' = epochs d ∧ witnesses d' = witnesses d ∧
  (∀ s, s ∈ submissions d' → s ∈ submissions d ∨ s ∈ docs) ∧
  (NoDup (sd_submissionTxHash <$> submissions d) → NoDup (sd_submissionTxHash <$> submissions d')) ∧
  (NoDup (identity <$> submissions d) → NoDup (identity <$> docs) →
   (∀ s, s ∈ docs → identity s ∉ identity <$> submissions d) → NoDup (identity <$> submissions d')).
Proof.
  revert d. induction docs as [|x docs IH]; intros d d'; unfold d'; cbn [foldl].
  { repeat (split; [done|]). split; [by left|]. done. }
  destruct (IH (saveSubmission x d)) as (-> & -> & -> & Hin & Hh & Hid).
  assert (∀ s, s ∈ submissions (saveSubmission x d) → s = x ∨ s ∈ submissions d) as Hx by (intros s; apply elem_of_upsert).
  repeat (split; [done|]). split; [|split].
  - intros s [[->|Hs]%Hx|Hs]%Hin; [right; left|by left|right; by right].
  - intros Hnd. apply Hh. by apply (upsert_keys sd_submissionTxHash).
  - intros Hnd Hdocs Hnew. apply NoDup_cons in Hdocs as [Hxd Hdocs]. apply Hid; [|done|].
    + apply upsert_nodup; [done|]. apply Hnew. left.
    + intros s Hs (t & Et & [->|Ht]%Hx)%list_elem_of_fmap.
      * apply Hxd. rewrite <- Et. by apply list_elem_of_fmap_2.
      * apply (Hnew s); [by right|]. rewrite Et. by apply list_elem_of_fmap_2.
Qed.

Definition transaction_ok (tx : BlockSubmissions.SubmittedTransaction) : Prop :=
  ∀ sub, BlockSubmissions.st_submission tx = Some sub → length (submission_key sub) = 32%nat.

(** What a valid solution is. *)
Lemma validateSubmission_spec sub h target :
  let r := EpochManager.validateEpochSubmission C sub h target in
  EpochManager.vr_valid r = true →
  Z.quot h bpe ≠ 0 ∧
  EpochManager.vr_hash r = sha1 (EpochValidator.calculatePreimage (EpochValidator.pt_checksumRoot target) (submission_key sub) (submission_salt sub)) ∧
  EpochManager.minDifficulty C ≤ EpochValidator.countMatchingBits (EpochManager.vr_hash r) (EpochValidator.pt_targetHash target) ∧
  length (submission_salt sub) = 32%nat ∧ ∀ g, graffiti sub = Some g → Z.of_nat (length g) ≤ GRAFFITI_LENGTH (EPOCH C).
Proof.
  intros r. unfold r, EpochManager.validateEpochSubmission. case_decide; [done|]. case_decide; [done|]. case_decide; [done|].
  case_decide as Hs; [done|]. destruct (EpochManager.graffiti_too_long C (graffiti sub)) eqn:Eg; [done|]. cbn [EpochManager.vr_valid EpochManager.vr_hash]. intros _.
  split; [done|]. split; [done|]. split; [lia|]. split; [lia|]. intros g E. unfold EpochManager.graffiti_too_long in Eg. rewrite E in Eg.
  apply bool_decide_eq_false in Eg. lia.
Qed.

Lemma target_spec h d :
  0 ≤ h → headers_ok h d →
  ∃ target, EpochManager.getPendingEpochTarget C (Z.quot h bpe) d = Ok target ∧
    (Z.quot h bpe ≠ 0 → EpochValidator.pt_checksumRoot target = mining_root d (h / bpe) ∧
                         EpochValidator.pt_targetHash target = sha1 (mining_root d (h / bpe))).
Proof.
  intros Hh Hhd. rewrite Z.quot_div_nonneg by lia. unfold EpochManager.getPendingEpochTarget, mining_root.
  case_decide as E; [by eexists|]. unfold EpochValidator.getEpochData. rewrite decide_False by done.
  pose proof (Z.div_pos h bpe Hh bpe_pos). pose proof (Z.mul_div_le h bpe bpe_pos).
  destruct (Hhd (h / bpe * bpe - 1)) as (s & -> & _); [nia|]. by eexists.
Qed.

Lemma process_spec h txs links d :
  0 ≤ h → headers_ok h d → stored_ok d → cache_ok links → Forall transaction_ok txs →
  ∃ d' links', BlockSubmissions.processSubmissions C allowUnsafeSignatures h txs links d = (d', Ok links') ∧
    headers d' = headers d ∧ epochs d' = epochs d ∧ stored_ok d' ∧ cache_ok links' ∧ (∀ k w, known links' k w ↔ known links k w) ∧
    ∀ s, s ∈ submissions d' → s ∈ submissions d ∨ fresh h txs links d s.
Proof.
  intros Hh Hhd [Hsub Hid Hhash Hwit] Hc Htx. unfold BlockSubmissions.processSubmissions.
  destruct (target_spec h d Hh Hhd) as (target & -> & Ht). destruct (valid_spec h txs d target) as [Hpairs Hvalid].
  unfold BlockSubmissions.saveEpochSubmissions. set (m := BlockSubmissions.validateSubmissions _ _ _ _) in *.
  pose proof (extended_spec h m.*2 links Hc) as He. destruct (BlockSubmissions.extended _ h m.*2 links) as [links' l].
  destruct He as (Hc' & Hk & Hl & Hw).
  set (docs := map (fun '(x, legacy) => BlockSubmissions.submission_document C h (Z.quot h bpe) x legacy) l).
  replace (foldl _ d l) with (foldl (fun d s => saveSubmission s d) d docs) by
    (unfold docs; clear; revert d; induction l as [|[x y] l IH]; intros d; [done|cbn; by rewrite IH]).
  destruct (submissions_saved_spec docs d) as (E1 & E2 & E3 & Hin & Hnh & Hnid).
  assert (∀ s, s ∈ docs → fresh h txs links d s) as Hfresh.
  { intros s ([x legacy] & <- & Hx%list_elem_of_In)%list_elem_of_In%in_map_iff.
    destruct (Hw x legacy Hx) as (w & Hkw & Eleg & Hwok).
    assert (x ∈ m.*2) as Hxm by (eapply elem_of_sublist; [apply (list_elem_of_fmap_2 fst _ _ Hx)|done]).
    destruct (Hvalid x Hxm) as (tx & r & Htx' & Es & Er & Er' & Hv & Hn). subst r.
    destruct (validateSubmission_spec (sub_of x) h target Hv) as (Hnz & Eh & Hdiff & Hsalt & Hg). destruct (Ht Hnz) as [Et1 Et2].
    assert (Z.quot h bpe = h / bpe) as Eq by (rewrite Z.quot_div_nonneg by lia; done).
    unfold BlockSubmissions.submission_document. rewrite Er. rewrite Eq in *.
    split; cbn [sd_confirmedAt sd_epochNumber sd_epochProposed m_mldsaPublicKey m_salt m_graffiti m_solution m_legacyPublicKey].
    - done.
    - done.
    - by exists tx, (sub_of x).
    - by rewrite Eh, Et1.
    - unfold difficulty. cbn. by rewrite <- Et2.
    - done.
    - done.
    - by exists w. }
  eexists _, links'. split; [reflexivity|]. split; [done|]. split; [done|]. split; [|split; [done|split; [done|]]].
  - split.
    + apply Forall_forall. intros s [Hs|Hs]%Hin; [by eapply Forall_forall in Hsub|]. destruct (Hfresh s Hs) as [_ _ (tx & sub & Htx' & Es & Ek & _) _ _ [Hsalt Hg] _ _].
      split; [|done|done]. unfold submission_key_ok. rewrite Ek. eapply Forall_forall in Htx; [by apply Htx|done].
    + apply Hnid; [done| |].
      * apply (NoDup_fmap_1 (fun p : Z * bytes * bytes => (p.1.2, p.2))).
        replace (_ <$> (identity <$> docs)) with (pair_of <$> l.*1).
        { eapply sublist_NoDup; [exact Hpairs|by apply fmap_sublist]. }
        unfold docs. clear. induction l as [|[x y] l IH]; [done|]. cbn. by rewrite <- IH.
      * intros s Hs (t & Et & Hts)%list_elem_of_fmap. pose proof (Hfresh s Hs) as [_ [Een _] _ _ _ _ Hn _].
        apply not_true_iff_false in Hn. apply Hn. unfold EpochDatabase.submissionExists. apply existsb_exists.
        exists t. split; [by apply list_elem_of_In|]. apply bool_decide_true. unfold identity in Et. injection Et. intros. by rewrite <- Een.
    + by apply Hnh.
    + by rewrite E3.
  - intros s [Hs|Hs]%Hin; [by left|right; by apply Hfresh].
Qed.

(** the submissions a block adds to the database come from its transactions,
    are for the epoch of the block, difficult enough for its target, not there
    before, and of wallets whose key is known; no solution is there twice. *)
Theorem saved_submissions h txs links d :
  0 ≤ h → headers_ok h d → stored_ok d → cache_ok links → Forall transaction_ok txs →
  ∃ d' links', BlockSubmissions.processSubmissions C allowUnsafeSignatures h txs links d = (d', Ok links') ∧
    epochs d' = epochs d ∧ NoDup (identity <$> submissions d') ∧
    ∀ s, s ∈ submissions d' → s ∈ submissions d ∨ fresh h txs links d s.
Proof.
  intros H1 H2 H3 H4 H5. destruct (process_spec h txs links d H1 H2 H3 H4 H5) as (d' & links' & E & _ & E2 & Hs & _ & _ & Hin).
  exists d', links'. split; [done|]. split; [done|]. split; [by apply Hs|done].
Qed.

(** ** Blocks *)

Context (stored_date : Z → Z) (dates_fit : ∀ n, stored_date n < 2 ^ 64).

Lemma set_witness_ok h l w :
  h < 2 ^ 64 → Forall witness_ok l → Forall witness_ok (set_witness stored_date h l w).
Proof.
  intros Hh Hl. unfold set_witness. cbv zeta. destruct (truthy_ostr _); [|done]. destruct (existsb _ l).
  - induction Hl as [|x l Hx Hl IH]; cbn; [done|]. case_bool_decide; constructor; try done. by split; cbn.
  - apply Forall_app. split; [done|]. repeat constructor; cbn; done.
Qed.

Lemma headers_ok_save h checksum d :
  headers_ok h d → length (stringToBuffer checksum) = 32%nat → headers_ok (h + 1) (EpochBlocks.saveHeader h checksum d).
Proof.
  intros Hd Hc k Hk. unfold getBlockHeader, EpochBlocks.saveHeader. cbn. rewrite JsMap.get_set.
  case_decide; [by exists checksum|]. apply Hd. lia.
Qed.

Lemma epochs_are_headers m d d' :
  epochs d' = epochs d → (∀ n, 0 < n < m → getBlockHeader (n * bpe - 1) d' = getBlockHeader (n * bpe - 1) d) →
  epochs_are m d → epochs_are m d'.
Proof.
  intros E Hh [Hk Hr He]. split; rewrite ?E; [done|done|]. intros n Hn. destruct (He n Hn) as (e & Ee & Hok).
  exists e. unfold getEpochByNumber in *. rewrite E. split; [done|]. apply (epoch_ok_ext d); [| |done].
  - unfold mining_root. case_decide; [done|]. by rewrite Hh by lia.
  - unfold previous_hash, getEpochByNumber. by rewrite E.
Qed.

(** How many epochs are closed when [h] blocks are indexed. *)
Definition closed h : Z := if decide (h = 0) then 0 else (h - 1) / bpe.

Definition event_ok (e : EpochBlocks.event) : Prop :=
  match e with
  | EpochBlocks.BlockIndexed checksum txs links =>
      length (stringToBuffer checksum) = 32%nat ∧ Forall transaction_ok txs ∧ cache_ok links
  | EpochBlocks.WitnessesSaved block _ => block < 2 ^ 64
  end.

Definition is_block (e : EpochBlocks.event) : bool :=
  match e with EpochBlocks.BlockIndexed _ _ _ => true | _ => false end.
Definition blocks (l : list EpochBlocks.event) : Z := Z.of_nat (length (List.filter is_block l)).

Definition chain_ok h d : Prop := headers_ok h d ∧ stored_ok d ∧ epochs_are (closed h) d.

Abbreviation happen_ := (EpochBlocks.happen C CHAIN_ID NETWORK MAX_ATTESTATION_PER_BLOCK chainId allowUnsafeSignatures stored_date).
Abbreviation history_ := (EpochBlocks.history C CHAIN_ID NETWORK MAX_ATTESTATION_PER_BLOCK chainId allowUnsafeSignatures stored_date).

Lemma closed_bound h n : 0 ≤ h → 0 ≤ n < closed h → (n + 1) * bpe < h.
Proof.
  unfold closed. case_decide; [lia|]. intros Hh Hn. pose proof (Z.mul_div_le (h - 1) bpe bpe_pos). nia.
Qed.

Lemma happen_spec e h d :
  0 ≤ h → (is_block e = true → h + bpe < 2 ^ 64) → event_ok e → chain_ok h d →
  ∃ d', happen_ e (h, d) = ((h + (if is_block e then 1 else 0), d'), Ok tt) ∧ chain_ok (h + (if is_block e then 1 else 0)) d'.
Proof.
  intros Hh H64 He (Hhd & Hst & Hep). destruct e as [checksum txs links|w].
  - destruct He as (Hck & Htx & Hca). cbn [EpochBlocks.happen is_block]. unfold EpochBlocks.index_block, mbind, stx_bind.
    destruct (process_spec h txs links d Hh Hhd Hst Hca Htx) as (d1 & links' & -> & Eh & Ee & Hst1 & _).
    set (d2 := EpochBlocks.saveHeader h checksum d1).
    assert (headers_ok (h + 1) d2) as Hhd2.
    { apply headers_ok_save; [|done]. intros k Hk. unfold getBlockHeader. rewrite Eh. by apply Hhd. }
    destruct (updateEpoch_spec h d2 Hh (H64 eq_refl) Hhd2) as (d' & -> & E1 & E2 & Hst' & Hep').
    + destruct Hst1. by split.
    + apply (epochs_are_headers _ d); [done| |exact Hep]. intros n Hn. unfold getBlockHeader, d2, EpochBlocks.saveHeader. cbn.
      rewrite JsMap.get_set, decide_False; [by rewrite Eh|]. pose proof (closed_bound h n Hh). unfold closed in *. lia.
    + exists d'. split; [done|]. split; [|split; [done|]].
      * intros k Hk. unfold getBlockHeader. rewrite E1. by apply Hhd2.
      * unfold closed. rewrite decide_False by lia. by replace (h + 1 - 1) with h by lia.
  - cbn [EpochBlocks.happen is_block]. rewrite Z.add_0_r. eexists. split; [reflexivity|]. split; [done|]. split.
    + destruct Hst as [H1 H2 H3 H4]. split; [done..|]. cbn. apply foldl_invariant; [done|]. intros l w' _. by apply set_witness_ok.
    + by apply (epochs_are_headers _ d).
Qed.

Lemma history_spec l :
  Forall event_ok l → blocks l + bpe ≤ 2 ^ 64 →
  ∃ d, history_ l (0, EpochDatabase.mk [] [] [] [] []) = ((blocks l, d), Ok tt) ∧
    headers_ok (blocks l) d ∧ stored_ok d ∧ epochs_are (closed (blocks l)) d.
Proof.
  intros Hl H64.
  assert (∀ l h d, Forall event_ok l → 0 ≤ h → h + blocks l + bpe ≤ 2 ^ 64 → chain_ok h d →
    ∃ d', history_ l (h, d) = ((h + blocks l, d'), Ok tt) ∧ chain_ok (h + blocks l) d') as H.
  { clear l Hl H64. induction l as [|e l IH]; intros h d Hl Hh H64 Hd; cbn [EpochBlocks.history].
    { exists d. rewrite Z.add_0_r. done. }
    apply Forall_cons in Hl as [He Hl].
    assert (blocks (e :: l) = (if is_block e then 1 else 0) + blocks l) as Eb by (unfold blocks; cbn; destruct (is_block e); cbn; lia).
    rewrite Eb in H64 |- *. assert (0 ≤ blocks l) by (unfold blocks; lia).
    destruct (happen_spec e h d Hh) as (d1 & E1 & Hd1); [intros Eb'; rewrite Eb' in H64; lia|done|done|].
    unfold mbind, stx_bind. rewrite E1, Z.add_assoc. apply IH; [done|destruct (is_block e); lia|lia|done]. }
  destruct (H l 0 (EpochDatabase.mk [] [] [] [] []) Hl) as (d & E & Hd); [done|lia| |by exists d].
  split; [intros k; lia|]. split; [split; constructor|]. split; [constructor|by intros e ?%elem_of_nil|].
  intros n Hn. exfalso. unfold closed in Hn. rewrite decide_True in Hn by done. lia.
Qed.

(** C7: from an empty database, whatever blocks are indexed and whenever their
    witnesses come, no epoch fails to be closed: the epochs of the database are
    those before the one of the last block, each once, with its target, its
    solution and the hash of the one before, which its root proves. *)
Theorem epochs_follow_blocks l :
  Forall event_ok l → blocks l + bpe ≤ 2 ^ 64 →
  ∃ d, history_ l (0, EpochDatabase.mk [] [] [] [] []) = ((blocks l, d), Ok tt) ∧
    headers_ok (blocks l) d ∧ stored_ok d ∧ epochs_are (closed (blocks l)) d.
Proof. apply history_spec. Qed.
End Submissions.

(** ** The solutions a block accepts *)

Lemma add_solution_spec l c a :
  default [] (m_get (solutions (foldl add_solution c l)) a) =
  default [] (m_get (solutions c) a) ++
  map (fun e => m_solution (ed_proposer e)) (List.filter (fun e => bool_decide (addressOf (m_mldsaPublicKey (ed_proposer e)) = a)) l).
Proof.
  revert c. induction l as [|e l IH]; intros c; cbn [foldl]; [by rewrite app_nil_r|]. rewrite IH. cbn [List.filter].
  unfold add_solution at 1. cbn [solutions]. rewrite m_get_set. case_decide as E.
  - rewrite bool_decide_true by done. subst a. cbn. by rewrite <- app_assoc.
  - by rewrite bool_decide_false by done.
Qed.

(** the solutions that block [h] accepts, when the blocks before it are
    indexed, are those of the closed epochs that end before it and are not too
    old, each for the address of its proposer. *)
Theorem challenges_at_height h d a x :
  0 < h → 0 ≤ SOLUTION_LIFETIME (EPOCH C) → epochs_are (closed h) d →
  x ∈ default [] (m_get (solutions (getChallengeSolutionsAtHeight C h d)) a) ↔
  ∃ n e, 0 ≤ n ∧ (n + 1) * bpe < h ∧ h - SOLUTION_LIFETIME (EPOCH C) < (n + 2) * bpe ∧
    getEpochByNumber n d = Some e ∧ addressOf (m_mldsaPublicKey (ed_proposer e)) = a ∧ x = m_solution (ed_proposer e).
Proof.
  intros Hh HL He. unfold getChallengeSolutionsAtHeight. rewrite add_solution_spec. cbn [solutions]. rewrite m_get_empty.
  cbn [default]. change ([] ++ ?l) with l. rewrite list_elem_of_In, in_map_iff. setoid_rewrite <- list_elem_of_In.
  unfold getEpochsInBlockRange. setoid_rewrite elem_of_filter_bool. setoid_rewrite bool_decide_eq_true.
  assert (∀ e, e ∈ epochs d → in_block_range (h - bpe - SOLUTION_LIFETIME (EPOCH C)) (h - bpe) e = true ↔
    (ed_epochNumber e + 1) * bpe < h ∧ h - SOLUTION_LIFETIME (EPOCH C) < (ed_epochNumber e + 2) * bpe) as Hr.
  { intros e Hin. pose proof (ea_range _ _ He e Hin) as Hn. pose proof (closed_bound h _ ltac:(lia) Hn) as Hlt.
    destruct (ea_epoch _ _ He _ Hn) as (e' & Ee & Hok). apply getEpochByNumber_elem in Ee as [Hin' En].
    assert (e = e') as <- by (apply (NoDup_fmap_inj ed_epochNumber (epochs d)); [apply He|done..]).
    unfold in_block_range. rewrite !orb_true_iff, !bool_decide_eq_true, (eo_start _ _ _ Hok), (eo_end _ _ _ Hok).
    set (n := ed_epochNumber e) in *. rewrite Z.mul_add_distr_r in *. lia. }
  split.
  - intros (e & <- & [Hin Ha]). rewrite sort_by_permutes in Hin. apply elem_of_filter_bool in Hin as [Hin Hrange].
    apply Hr in Hrange; [|done]. pose proof (ea_range _ _ He e Hin) as Hn.
    destruct (ea_epoch _ _ He _ Hn) as (e' & Ee & _). pose proof Ee as [Hin' En]%getEpochByNumber_elem.
    assert (e = e') as <- by (apply (NoDup_fmap_inj ed_epochNumber (epochs d)); [apply He|done..]).
    exists (ed_epochNumber e), e. naive_solver lia.
  - intros (n & e & Hn & H1 & H2 & Ee & Ha & ->). exists e. split; [done|]. split; [|done].
    apply getEpochByNumber_elem in Ee as [Hin <-]. rewrite sort_by_permutes. apply elem_of_filter_bool. split; [done|]. by apply Hr.
Qed.
End Chain.

(** ** Examples *)

Module ChainExample.
Import EpochExample.
#[local] Existing Instance example_btclib.
#[local] Existing Instance EpochExample.example_vmlib.
#[local] Existing Instance example_epochlib.
#[local] Existing Instance example_epochlaws.
#[local] Instance example_keys : MapLib bytes := gmap_lib bytes.

(** The miner, whose key is its salt, so that its solution is the target. *)
Definition miner_key : IMLDSAPublicKey := MLDSA.mkKey 2 (key 9) [9] [9] (Some (replicate 1312 0)) (Some 0) (Some 0).
Definition links : MLDSALinks.t := MLDSALinks.mk m_empty m_empty m_empty m_empty m_empty [miner_key].
Definition transactions : list BlockSubmissions.SubmittedTransaction :=
  [BlockSubmissions.mkSubmitted (Some (mkSubmission (key 9) (key 9) (Some [104; 105]))) (toHex [1]) [1];
   BlockSubmissions.mkSubmitted (Some (mkSubmission (key 9) (key 9) None)) (toHex [2]) [2];
   BlockSubmissions.mkSubmitted (Some (mkSubmission (key 8) (key 8) None)) (toHex [3]) [3]].

Definition block (n : Z) txs : EpochBlocks.event := EpochBlocks.BlockIndexed (toHex (key n)) txs links.
Definition empty_blocks (from : Z) (n : nat) : list EpochBlocks.event := (fun h => block (h + 1) []) <$> seqZ from (Z.of_nat n).
Definition witness (h : Z) : EpochBlocks.event :=
  EpochBlocks.WitnessesSaved h [mkOPNetWitness (Some "0x03") (Some (key 3)) [h] (1000 + h)].
Definition stored_date (n : Z) : Z := if decide (Z.abs n ≤ 8640000000000000) then n else 0.
Lemma dates_fit n : stored_date n < 2 ^ 64.
Proof. unfold stored_date. case_decide; lia. Qed.

(** Eleven blocks: the fifth and the tenth close an epoch; block 6 has the
    submissions. *)
Definition events : list EpochBlocks.event :=
  empty_blocks 0 6 ++ [block 7 transactions; witness 6; witness 2] ++ empty_blocks 7 4.

Definition history_ := EpochBlocks.history RoswellConsensus Bitcoin regtest 10 (key 1) true stored_date.
Definition database_of (l : list EpochBlocks.event) : EpochDatabase.t := (history_ l (0, EpochDatabase.mk [] [] [] [] [])).1.2.

Lemma events_ok : Forall event_ok events.
Proof.
  assert (∀ n txs, Forall transaction_ok txs → event_ok (block n txs)) as Hb.
  { intros n txs Htx. split; [|split; [done|]].
    - unfold stringToBuffer. rewrite hex_plain, hex_roundtrip. by apply length_replicate.
    - intros k w Hw. cbn in Hw. by rewrite lookup_empty in Hw. }
  assert (∀ from n, Forall event_ok (empty_blocks from n)) as He.
  { intros from n. apply Forall_fmap, Forall_forall. intros h _. apply (Hb (h + 1) []). constructor. }
  assert (∀ h, h < 2 ^ 32 → event_ok (witness h)) as Hw by (intros h Hh; cbn; lia).
  apply Forall_app. split; [apply He|]. apply Forall_app. split; [|apply He].
  constructor; [|constructor; [by apply Hw|constructor; [by apply Hw|constructor]]].
  apply Hb. repeat constructor; by intros sub [= <-].
Qed.

Lemma events_bounds :
  0 < 10 ∧ 10 * BLOCKS_PER_EPOCH (EPOCH RoswellConsensus) ≤ default_maxAttestations ∧
  blocks events + BLOCKS_PER_EPOCH (EPOCH RoswellConsensus) ≤ 2 ^ 64 ∧ blocks events = 11 ∧ closed RoswellConsensus 11 = 2.
Proof. repeat split; vm_compute; discriminate. Qed.

Lemma epochs_follow_blocks_witness :
  ∃ d, history_ events (0, EpochDatabase.mk [] [] [] [] []) = ((11, d), Ok tt) ∧ epochs_are RoswellConsensus (key 1) 2 d.
Proof.
  destruct events_bounds as (H1 & H2 & H3 & E1 & E2).
  destruct (epochs_follow_blocks RoswellConsensus Bitcoin regtest 10 (key 1) eq_refl eq_refl (conj H1 H2) true stored_date dates_fit events events_ok H3)
    as (d & Hd & _ & _ & He).
  exists d. rewrite E1 in Hd, He. rewrite E2 in He. split; [exact Hd|exact He].
Defined.

(** The winner of epoch 1 is the submission of block 6 that is seen first and
    whose wallet is known; that of epoch 0 is the proposer of the consensus. The
    witness of block 2 came when epoch 0 was closed: its tree has two dummy
    attestations only. *)
Definition winners (d : EpochDatabase.t) : list (Z * (bytes * option bytes * nat)) :=
  (fun e => (ed_epochNumber e, (take 1 (m_mldsaPublicKey (ed_proposer e)), m_graffiti (ed_proposer e), length (ed_proofs e)))) <$> epochs d.
Example winners_of_events :
  winners (database_of events) = [(0, ([222], Some (replicate 16 0), 3%nat)); (1, ([9], Some [104; 105], 4%nat))].
Proof. vm_compute. reflexivity. Qed.

(** The solutions of two addresses that a block accepts. *)
Definition accepted (h : Z) (d : EpochDatabase.t) : list (option (list bytes)) :=
  let c := getChallengeSolutionsAtHeight RoswellConsensus h d in
  map (fun a : bytes => m_get (solutions c) a) [[222; 173]; key 9].

(** The last block of an epoch does not accept its solution, nor does the first
    of the next; the second does. *)
Example accepted_of_events :
  (accepted 9 (database_of (take 11 events)), accepted 10 (database_of (take 12 events)), accepted 11 (database_of events)) =
  ([Some [sha1 (EpochValidator.calculatePreimage (key 0) [222; 173] (replicate 32 255))]; None],
   [Some [sha1 (EpochValidator.calculatePreimage (key 0) [222; 173] (replicate 32 255))]; None],
   [Some [sha1 (EpochValidator.calculatePreimage (key 0) [222; 173] (replicate 32 255))]; Some [replicate 20 5]]).
Proof. vm_compute. reflexivity. Qed.

(** The epochs that were closed survive a revert to the first block of an epoch
    (see StorageRevert: an epoch is deleted by its first block). Block 10 then
    accepts the solution of epoch 1, which no other node accepts there. *)
Example revert_keeps_epoch :
  forallb (fun e => bool_decide (ed_startBlock e < 10)) (epochs (database_of events)) = true ∧
  accepted 10 (database_of events) ≠ accepted 10 (database_of (take 12 events)).
Proof. split; [vm_compute; reflexivity|vm_compute; discriminate]. Qed.

Lemma key_header n : length (stringToBuffer (toHex (key n))) = 32%nat.
Proof. unfold stringToBuffer. rewrite hex_plain, hex_roundtrip. apply length_replicate. Qed.

(** The database after six blocks. *)
Definition six : EpochDatabase.t := EpochDatabase.mk (map (fun h => (h, toHex (key (h + 1)))) (seqZ 0 6)) [] [] [] [].

Lemma six_headers : headers_ok 6 six.
Proof.
  intros h Hh. exists (toHex (key (h + 1))). split; [|apply key_header].
  assert (h ∈ seqZ 0 6) as Hin by (apply elem_of_seqZ; lia). clear Hh.
  change (seqZ 0 6) with [0; 1; 2; 3; 4; 5] in Hin. repeat (apply elem_of_cons in Hin as [->|Hin]; [reflexivity|]). by apply elem_of_nil in Hin.
Qed.

Lemma six_stored : stored_ok RoswellConsensus six.
Proof. split; constructor. Qed.

Lemma six_epochs : epochs_are RoswellConsensus (key 1) 0 six.
Proof. split; [constructor|by intros e ?%elem_of_nil|lia]. Qed.

Lemma saved_submissions_witness :
  ∃ d' links', BlockSubmissions.processSubmissions RoswellConsensus true 6 transactions links six = (d', Ok links') ∧
    NoDup (identity <$> submissions d') ∧ sd_submissionTxHash <$> submissions d' = [[1]].
Proof.
  destruct (saved_submissions RoswellConsensus eq_refl true 6 transactions links six) as (d' & links' & E & _ & Hnd & _);
    [lia|apply six_headers|apply six_stored| |repeat constructor; by intros sub [= <-]|].
  - intros k w Hw. cbn in Hw. by rewrite lookup_empty in Hw.
  - exists d', links'. split; [exact E|]. split; [exact Hnd|].
    assert (sd_submissionTxHash <$> submissions (BlockSubmissions.processSubmissions RoswellConsensus true 6 transactions links six).1 = [[1]]) as H
      by (vm_compute; reflexivity).
    by rewrite E in H.
Defined.

Lemma reindexing_closes_witness :
  ∃ d', EpochReindexer.reindexEpochs RoswellConsensus Bitcoin regtest 10 (key 1) false 0 6 six = (d', Ok true) ∧
    epochs_are RoswellConsensus (key 1) 1 d'.
Proof.
  destruct events_bounds as (H1 & H2 & _).
  destruct (reindexing_closes RoswellConsensus Bitcoin regtest 10 (key 1) eq_refl eq_refl (conj H1 H2) 0 6 0 six) as (d' & E & He & _);
    [lia|lia|vm_compute; discriminate|apply six_headers|apply six_stored|apply six_epochs|].
  exists d'. split; [exact E|exact He].
Defined.

Lemma challenges_at_height_witness :
  ∃ n e, (n + 1) * 5 < 11 ∧ getEpochByNumber n (database_of events) = Some e ∧ m_mldsaPublicKey (ed_proposer e) = key 9.
Proof.
  destruct events_bounds as (H1 & H2 & H3 & E1 & E2).
  destruct (history_spec RoswellConsensus Bitcoin regtest 10 (key 1) eq_refl eq_refl (conj H1 H2) true stored_date dates_fit events events_ok H3)
    as (d & Hd & _ & _ & He). rewrite E1 in He.
  assert (d = database_of events) as -> by (unfold database_of, history_; by rewrite Hd).
  destruct (challenges_at_height RoswellConsensus 10 (key 1) eq_refl (conj H1 H2) 11 (database_of events) (key 9) (replicate 20 5))
    as [(n & e & _ & Hn & _ & Ee & Ea & _) _].
  - lia.
  - vm_compute. discriminate.
  - exact He.
  - apply (bool_decide_eq_true_1 _). vm_compute. reflexivity.
  - exists n, e. split; [exact Hn|split; [exact Ee|exact Ea]].
Defined.

End ChainExample.
