(* ===== verification/WitnessManager.v ===== *)
(** * The witnesses of blocks
    (poc/networking/p2p/BlockWitnessManager.ts, poc/identity/OPNetIdentity.ts,
    poc/networking/encryptem/KeyPairGenerator.ts,
    rpc/thread/BitcoinRPCThread.ts [validateBlockHeaders])

    A node signs the headers of the blocks it indexes and checks the signatures
    of other nodes. The manager runs a bounded number of checks at once: the state
    holds the calls that are suspended, and one step delivers a message or runs
    one call from an await to the next. What a call awaits is given with the
    step. *)

From S2P Require Import Prelude ConsensusRules Consensus HeaderValidator Epochs EpochManager.

(** sodium, SHA-512, and the keys of the node. *)
Class WitnessLib `{BtcLib} : Type := {
  sha512 : bytes → bytes;
  crypto_sign_detached : bytes → bytes → bytes;
  crypto_sign_verify_detached : bytes → bytes → bytes → bool
}.

Record OPNetKeyPair : Type := mkKeyPair {
  kp_publicKey : bytes;
  kp_privateKey : bytes;
  identity_hash : bytes
}.

(** A header as it is sent; [txCount] is not read. *)
Record IBlockHeaderWitness : Type := mkHeaderWitness {
  hw_blockNumber : Z;
  blockHash : string;
  previousBlockHash : option string;
  merkleRoot : string;
  receiptRoot : string;
  storageRoot : string;
  checksumHash : string;
  checksumProofs : list (list string);
  previousBlockChecksum : string;
  validatorWitnesses : list OPNetBlockWitness
}.

Definition with_witnesses (l : list OPNetBlockWitness) (w : IBlockHeaderWitness) : IBlockHeaderWitness :=
  mkHeaderWitness (hw_blockNumber w) (blockHash w) (previousBlockHash w) (merkleRoot w) (receiptRoot w) (storageRoot w)
    (checksumHash w) (checksumProofs w) (previousBlockChecksum w) l.

(** [BlockProcessedData]: a header of this node, without witnesses. *)
Definition BlockProcessedData : Type := IBlockHeaderWitness.

(** ** OPNetIdentity *)

Module OPNetIdentity.
Section OPNetIdentity.
Context `{WitnessLib}.

Definition opnetAddress (k : OPNetKeyPair) : string := ("0x" +:+ toHex (identity_hash k))%string.

(** [setBigUint64(32, timestamp, false)] *)
Definition big_endian64 (z : Z) : bytes :=
  map (fun i => Z.land (Z.shiftr z (8 * i)) 255) [7; 6; 5; 4; 3; 2; 1; 0].

Definition mergeDataAndWitness (blockChecksumHash : bytes) (timestamp : Z) : bytes :=
  resized 32 (take 32 blockChecksumHash) ++ big_endian64 timestamp.

Definition verifyOPNetIdentity (identity : string) (pubKey : bytes) : bool :=
  bool_decide (("0x" +:+ toHex (sha512 pubKey))%string = identity).

Definition verifyAcknowledgment (data : bytes) (w : OPNetBlockWitness) : bool :=
  match ow_publicKey w with
  | None => false
  | Some publicKey =>
      if negb (truthy_ostr (ow_identity w)) then false
      else if negb (verifyOPNetIdentity (default "" (ow_identity w)) publicKey) then false
      else crypto_sign_verify_detached (ow_signature w) data publicKey
  end.

(** [now] is the clock. *)
Definition acknowledgeData (k : OPNetKeyPair) (now : Z) (data : bytes) : OPNetBlockWitness :=
  mkOPNetWitness (Some (opnetAddress k)) (Some (kp_publicKey k))
    (crypto_sign_detached (mergeDataAndWitness data now) (kp_privateKey k)) now.

(** The keys that [generateKey] makes. *)
Definition key_pair_ok (k : OPNetKeyPair) : Prop :=
  identity_hash k = sha512 (kp_publicKey k) ∧
  ∀ data, crypto_sign_verify_detached (crypto_sign_detached data (kp_privateKey k)) data (kp_publicKey k) = true.
End OPNetIdentity.
End OPNetIdentity.

(** ** The answer of the RPC thread *)

Record ValidatedBlockHeader : Type := mkValidated {
  hasValidProofs : option bool;
  storedBlockHeader : option BlockHeaderDocument
}.

Module BitcoinRPCThread.
Section BitcoinRPCThread.
Context `{BtcLib} `{MerkleLib}.

Definition getChecksumProofs (rawProofs : list (list string)) : BlockHeaderChecksumProof :=
  imap (fun i p => (Z.of_nat i, p)) rawProofs.

Definition vmBlockHeader (blockNumber : Z) (w : IBlockHeaderWitness) : PartialHeader :=
  mkPartial (Some (blockHash w)) (Some blockNumber) (Some (checksumHash w)) (previousBlockHash w)
    (Some (previousBlockChecksum w)) (Some (merkleRoot w)) (Some (storageRoot w)) (Some (receiptRoot w))
    (Some (getChecksumProofs (checksumProofs w))).

(** Both requests read one storage; [c] is the cache of the validator. *)
Definition validateBlockHeaders (LIGHT enableCaching : bool) (storage : Z → option BlockHeaderDocument)
    (c : BlockHeaderValidator.t) (blockNumber : Z) (w : IBlockHeaderWitness) : ValidatedBlockHeader :=
  let '(c, r) := BlockHeaderValidator.validateBlockChecksum LIGHT enableCaching storage (vmBlockHeader blockNumber w) c in
  match r, BlockHeaderValidator.getBlockHeader (E := header_error) enableCaching storage blockNumber c with
  | Ok valid, (_, Ok stored) => mkValidated (Some valid) stored
  | _, _ => mkValidated (Some false) None
  end.
End BitcoinRPCThread.
End BitcoinRPCThread.

(** ** BlockWitnessManager *)

Module BlockWitnessManager.
Import OPNetIdentity.
Section BlockWitnessManager.
Context `{WitnessLib} (stored_date : Z → Z).
Context (Config : NodeConfig) (allConsensus : IOPNetConsensusObj).
Context (pendingBlockThreshold : Z) (keyPair : OPNetKeyPair).

Definition maxPendingWitnesses : nat := 50.
Definition MAXIMUM_WITNESSES_PER_MESSAGE : nat := 20.
Definition MAX_CONCURRENT_WITNESS_VALIDATIONS : Z := 3.
Definition MAX_VALIDATIONS_PER_BLOCK : Z := 5.
Definition MAX_WITNESS_QUEUE_SIZE : nat := 128.
Definition MAX_CONCURRENT_SELF_PROOFS : Z := 10.

(** Who called [processBlockWitnesses]: the queue of the peers, that of the node
    itself, or [generateBlockHeaderProof]. *)
Inductive caller : Type := Peer | Self | Direct.
#[global] Instance caller_eq : EqDecision caller.
Proof. solve_decision. Defined.

(** A suspended call. *)
Inductive fiber : Type :=
| Validating (o : caller) (blockNumber : Z) (w : IBlockHeaderWitness)   (* the answer of the RPC thread *)
| Writing (o : caller) (blockNumber : Z) (ws : list OPNetBlockWitness)  (* setBlockWitnesses *)
| Ended (o : caller)                                                    (* settled; its [finally] comes next *)
| AwaitsSlot                                                            (* processSelfQueue, for a slot *)
| SlotFree                                                              (* processSelfQueue, woken up *)
| AwaitsHeight (data : BlockProcessedData) (ok : bool)                  (* processSelfQueue, in setCurrentBlock *)
| DirectHeight (data : BlockProcessedData) (ok : bool)                  (* generateBlockHeaderProof *)
| AwaitsHeader (blockNumber : Z) (ws : list OPNetBlockWitness).         (* onBlockWitnessResponse *)

Record t : Type := mk {
  currentBlock : Z;
  pendingWitnessesVerification : list (Z * list IBlockHeaderWitness);
  knownWitnessIdentities : list (Z * list string);
  witnessQueue : list (Z * IBlockHeaderWitness);
  activeValidations : Z;
  blockValidationCount : list (Z * Z);
  selfWitnessQueue : list BlockProcessedData;
  activeSelfProofs : Z;
  selfQueueDraining : bool;
  consensus : OPNetConsensus.state;
  fibers : list fiber;
  collection : list IBlockWitnessDocument
}.

Definition initial (c : OPNetConsensus.state) : t := mk (-1) [] [] [] 0 [] [] 0 false c [] [].

Definition set_pending l (s : t) : t :=
  mk (currentBlock s) l (knownWitnessIdentities s) (witnessQueue s) (activeValidations s) (blockValidationCount s)
    (selfWitnessQueue s) (activeSelfProofs s) (selfQueueDraining s) (consensus s) (fibers s) (collection s).
Definition set_known l (s : t) : t :=
  mk (currentBlock s) (pendingWitnessesVerification s) l (witnessQueue s) (activeValidations s) (blockValidationCount s)
    (selfWitnessQueue s) (activeSelfProofs s) (selfQueueDraining s) (consensus s) (fibers s) (collection s).
Definition set_queue l (s : t) : t :=
  mk (currentBlock s) (pendingWitnessesVerification s) (knownWitnessIdentities s) l (activeValidations s)
    (blockValidationCount s) (selfWitnessQueue s) (activeSelfProofs s) (selfQueueDraining s) (consensus s) (fibers s)
    (collection s).
Definition set_validations n counts (s : t) : t :=
  mk (currentBlock s) (pendingWitnessesVerification s) (knownWitnessIdentities s) (witnessQueue s) n counts
    (selfWitnessQueue s) (activeSelfProofs s) (selfQueueDraining s) (consensus s) (fibers s) (collection s).
Definition set_self l n draining (s : t) : t :=
  mk (currentBlock s) (pendingWitnessesVerification s) (knownWitnessIdentities s) (witnessQueue s) (activeValidations s)
    (blockValidationCount s) l n draining (consensus s) (fibers s) (collection s).
Definition set_fibers l (s : t) : t :=
  mk (currentBlock s) (pendingWitnessesVerification s) (knownWitnessIdentities s) (witnessQueue s) (activeValidations s)
    (blockValidationCount s) (selfWitnessQueue s) (activeSelfProofs s) (selfQueueDraining s) (consensus s) l (collection s).
Definition set_collection l (s : t) : t :=
  mk (currentBlock s) (pendingWitnessesVerification s) (knownWitnessIdentities s) (witnessQueue s) (activeValidations s)
    (blockValidationCount s) (selfWitnessQueue s) (activeSelfProofs s) (selfQueueDraining s) (consensus s) (fibers s) l.

Definition suspend (f : fiber) (s : t) : t := set_fibers (fibers s ++ [f]) s.

(** [newBlock] is known; whether [setBlockHeight] throws. *)
Definition setCurrentBlock (newBlock : Z) (reorg : bool) (s : t) : t * bool :=
  let '(c, r) := OPNetConsensus.setBlockHeight Config allConsensus newBlock reorg (consensus s) in
  (mk newBlock (pendingWitnessesVerification s) (knownWitnessIdentities s) (witnessQueue s) (activeValidations s)
     (blockValidationCount s) (selfWitnessQueue s) (activeSelfProofs s) (selfQueueDraining s) c (fibers s) (collection s),
   is_ok r).

Definition generateBlockHeaderChecksumHash (w : IBlockHeaderWitness) : bytes :=
  sha512 (fromHex (blockHash w) ++ fromHex (default "" (previousBlockHash w)) ++ toBytes (checksumHash w) ++
          toBytes (previousBlockChecksum w)).

Definition validation_count (blockNumber : Z) (s : t) : Z := default 0 (JsMap.get (blockValidationCount s) blockNumber).

Definition revertKnownWitnessesReorg (toBlock : Z) (s : t) : t :=
  let blocks := List.filter (fun n => bool_decide (toBlock ≤ n)) (JsMap.keys (knownWitnessIdentities s)) in
  set_validations (activeValidations s) (foldl JsMap.del (blockValidationCount s) blocks)
    (set_known (foldl JsMap.del (knownWitnessIdentities s) blocks) s).

Definition old (n : Z) (s : t) : bool := bool_decide (pendingBlockThreshold < currentBlock s - n).

Definition purgeOldWitnesses (s : t) : t :=
  let blocks := List.filter (fun n => old n s) (JsMap.keys (knownWitnessIdentities s)) in
  let validationBlocks := List.filter (fun n => old n s) (JsMap.keys (blockValidationCount s)) in
  set_validations (activeValidations s) (foldl JsMap.del (blockValidationCount s) validationBlocks)
    (set_known (foldl JsMap.del (knownWitnessIdentities s) blocks) s).

Definition enqueueWitnessValidation (blockNumber : Z) (w : IBlockHeaderWitness) (s : t) : t :=
  if decide (MAX_VALIDATIONS_PER_BLOCK ≤ validation_count blockNumber s) then s
  else if decide (MAX_WITNESS_QUEUE_SIZE ≤ length (witnessQueue s))%nat then s
  else if decide (blockNumber < currentBlock s - pendingBlockThreshold) then s
  else set_queue (witnessQueue s ++ [(blockNumber, w)]) s.

Definition filterWitnesses (blockNumber : Z) (w : IBlockHeaderWitness) (s : t) : IBlockHeaderWitness :=
  match JsMap.get (knownWitnessIdentities s) blockNumber with
  | None => w
  | Some known =>
      with_witnesses (List.filter (fun x => negb (bool_decide (default "" (ow_identity x) ∈ known))) (validatorWitnesses w)) w
  end.

(** [processBlockWitnesses] up to its first await. The call keeps the whole
    message: the one that is filtered goes to the RPC thread, which does not read
    the witnesses. *)
Definition processBlockWitnesses (o : caller) (blockNumber : Z) (w : IBlockHeaderWitness) (s : t) : t :=
  if decide (blockNumber < currentBlock s - pendingBlockThreshold) then suspend (Ended o) s
  else match validatorWitnesses (filterWitnesses blockNumber w s) with
       | [] => suspend (Ended o) s
       | _ => suspend (Validating o blockNumber w) s
       end.

(** [fuel] is the length of the queue, which every turn shortens. *)
Fixpoint drain_loop (fuel : nat) (s : t) : t :=
  match fuel, witnessQueue s with
  | S fuel, (blockNumber, w) :: queue =>
      if decide (activeValidations s < MAX_CONCURRENT_WITNESS_VALIDATIONS) then
        let s := set_queue queue s in
        let count := validation_count blockNumber s in
        if decide (MAX_VALIDATIONS_PER_BLOCK ≤ count) then drain_loop fuel s
        else
          let s := set_validations (activeValidations s + 1) (JsMap.set (blockValidationCount s) blockNumber (count + 1)) s in
          drain_loop fuel (processBlockWitnesses Peer blockNumber w s)
      else s
  | _, _ => s
  end.

Definition drainWitnessQueue (s : t) : t := drain_loop (length (witnessQueue s)) s.

Definition processQueuedWitnesses (s : t) : t :=
  if decide (currentBlock s = -1) then s
  else match JsMap.get (pendingWitnessesVerification s) (currentBlock s) with
       | None => s
       | Some queued =>
           foldl (fun s w => enqueueWitnessValidation (currentBlock s) w s)
             (set_pending (JsMap.del (pendingWitnessesVerification s) (currentBlock s)) s) queued
       end.

Definition addToPendingWitnessesVerification (blockNumber : Z) (w : IBlockHeaderWitness) (s : t) : t :=
  if decide (currentBlock s = -1) then s
  else if decide (pendingBlockThreshold < Z.abs (currentBlock s - blockNumber)) then s
  else if decide (blockNumber < currentBlock s) then s
  else match JsMap.get (pendingWitnessesVerification s) blockNumber with
       | None => set_pending (JsMap.set (pendingWitnessesVerification s) blockNumber [w]) s
       | Some ws =>
           if decide (length ws < maxPendingWitnesses)%nat
           then set_pending (JsMap.set (pendingWitnessesVerification s) blockNumber (ws ++ [w])) s else s
       end.

Definition onBlockWitness (w : IBlockHeaderWitness) (s : t) : t :=
  if decide (currentBlock s = -1) then s
  else
    let blockNumber := hw_blockNumber w in
    if decide (currentBlock s < blockNumber) then addToPendingWitnessesVerification blockNumber w s
    else drainWitnessQueue (processQueuedWitnesses (enqueueWitnessValidation blockNumber w s)).

(** The message that is made of a stored header. *)
Definition header_witness (h : BlockHeaderDocument) (ws : list OPNetBlockWitness) : IBlockHeaderWitness :=
  mkHeaderWitness (hd_height h) (hd_hash h) (Some (hd_previousBlockHash h)) (hd_merkleRoot h) (hd_receiptRoot h)
    (hd_storageRoot h) (hd_checksumRoot h) (hd_checksumProofs h).*2 (hd_previousBlockChecksum h) ws.

Definition validateOPNetWitnesses (blockChecksumHash : bytes) (ws : list OPNetBlockWitness) : list OPNetBlockWitness :=
  let ws := if decide (MAXIMUM_WITNESSES_PER_MESSAGE < length ws)%nat then take MAXIMUM_WITNESSES_PER_MESSAGE ws else ws in
  List.filter (fun w => verifyAcknowledgment (mergeDataAndWitness blockChecksumHash (ow_timestamp w)) w) ws.

Definition validateBlockHeaderSignatures (w : IBlockHeaderWitness) : list OPNetBlockWitness :=
  validateOPNetWitnesses (generateBlockHeaderChecksumHash w) (validatorWitnesses w).

Definition addKnownWitnessIdentities (blockNumber : Z) (ws : list OPNetBlockWitness) (s : t) : t :=
  let witnessIdentities := map (fun w => default "" (ow_identity w)) ws in
  set_known (JsMap.set (knownWitnessIdentities s) blockNumber
    (default [] (JsMap.get (knownWitnessIdentities s) blockNumber) ++ witnessIdentities)) s.

(** The checks of [processBlockWitnesses] on the answer of the RPC thread. *)
Definition header_valid (v : ValidatedBlockHeader) (w : IBlockHeaderWitness) : bool :=
  let root := match storedBlockHeader v with Some h => or_else (hd_checksumRoot h) ZERO_HASH | None => ZERO_HASH end in
  bool_decide (root = checksumHash w) && match hasValidProofs v with Some b => b | None => false end.

Definition onValidated (o : caller) (blockNumber : Z) (w : IBlockHeaderWitness) (v : ValidatedBlockHeader) (s : t) : t :=
  if negb (header_valid v w) then suspend (Ended o) s
  else match validateBlockHeaderSignatures w with
       | [] => suspend (Ended o) s
       | validWitnesses => suspend (Writing o blockNumber validWitnesses) (addKnownWitnessIdentities blockNumber validWitnesses s)
       end.

(** The witness of this node: [now] is the clock. *)
Definition generateProof (o : caller) (now : Z) (data : BlockProcessedData) (s : t) : t :=
  let signedWitness := acknowledgeData keyPair now (generateBlockHeaderChecksumHash data) in
  processBlockWitnesses o (hw_blockNumber data) (with_witnesses [signedWitness] data) s.

(** A block of this node: known witnesses of a block that comes again are
    forgotten, and the height is set. *)
Definition setHeight (data : BlockProcessedData) (s : t) : t * bool :=
  let s := if decide (hw_blockNumber data < currentBlock s) then revertKnownWitnessesReorg (hw_blockNumber data) s else s in
  setCurrentBlock (hw_blockNumber data) true s.

(** [processSelfQueue] from the head of its loop to an await, or to its end. *)
Definition self_item (s : t) : t :=
  match selfWitnessQueue s with
  | [] => set_self [] (activeSelfProofs s) false s
  | data :: queue =>
      let '(s, ok) := setHeight data (set_self queue (activeSelfProofs s) (selfQueueDraining s) s) in
      suspend (AwaitsHeight data ok) s
  end.

Definition processSelfQueue (s : t) : t :=
  match selfWitnessQueue s with
  | [] => set_self [] (activeSelfProofs s) false s
  | _ => if decide (MAX_CONCURRENT_SELF_PROOFS ≤ activeSelfProofs s) then suspend AwaitsSlot s else self_item s
  end.

Definition drainSelfWitnessQueue (s : t) : t :=
  if selfQueueDraining s then s
  else processSelfQueue (set_self (selfWitnessQueue s) (activeSelfProofs s) true s).

Definition queueSelfWitness (data : BlockProcessedData) (s : t) : t :=
  drainSelfWitnessQueue (set_self (selfWitnessQueue s ++ [data]) (activeSelfProofs s) (selfQueueDraining s) s).

(** The first waiter is resolved: there is at most one. *)
Definition wake (s : t) : t :=
  set_fibers (map (fun f => match f with AwaitsSlot => SlotFree | _ => f end) (fibers s)) s.

(** [finally] *)
Definition settled (o : caller) (s : t) : t :=
  match o with
  | Peer => drainWitnessQueue (set_validations (activeValidations s - 1) (blockValidationCount s) s)
  | Self => wake (set_self (selfWitnessQueue s) (activeSelfProofs s - 1) (selfQueueDraining s) s)
  | Direct => s
  end.

(** What a call that is suspended awaits. *)
Inductive answer : Type :=
| Validated (v : ValidatedBlockHeader)
| HeaderFound (h : option BlockHeaderDocument)
| Written (which : list bool)       (* the witnesses whose upsert was done *)
| Clock (now : Z)                   (* a microtask; the clock when it is read *)
| Failed.

Inductive event : Type :=
| BlockWitness (w : IBlockHeaderWitness)
| BlockWitnessResponse (blockNumber : Z) (ws : list OPNetBlockWitness)
| SelfWitness (data : BlockProcessedData)
| GenerateProof (data : BlockProcessedData) (isSelf : bool) (now : Z)
| HeightUpdate (newBlock : Z)
| PurgeTimer
| Resume (i : nat) (a : answer).

Definition written (ws : list OPNetBlockWitness) (which : list bool) : list OPNetBlockWitness :=
  map fst (List.filter snd (zip ws which)).

(** One suspended call goes on; an answer to another question changes nothing. *)
Definition resume (f : fiber) (a : answer) (s : t) : option t :=
  match f, a with
  | Validating o n w, Validated v => Some (onValidated o n w v s)
  | Validating o _ _, Failed => Some (suspend (Ended o) s)
  | Writing o n ws, Written which =>
      Some (suspend (Ended o) (set_collection (foldl (EpochDatabase.set_witness stored_date n) (collection s) (written ws which)) s))
  | Ended o, Clock _ => Some (settled o s)
  | SlotFree, Clock _ => Some (self_item s)
  | AwaitsHeight data ok, Clock now =>
      if ok
      then let s := set_self (selfWitnessQueue s) (activeSelfProofs s + 1) (selfQueueDraining s) s in
           Some (processSelfQueue (generateProof Self now data s))
      else Some (set_self (selfWitnessQueue s) (activeSelfProofs s) false s)
  | DirectHeight data ok, Clock now => Some (if ok then generateProof Direct now data s else s)
  | AwaitsHeader n ws, HeaderFound (Some h) => Some (drainWitnessQueue (enqueueWitnessValidation n (header_witness h ws) s))
  | AwaitsHeader _ _, HeaderFound None => Some s
  | AwaitsHeader _ _, Failed => Some s
  | _, _ => None
  end.

Definition step (e : event) (s : t) : t :=
  match e with
  | BlockWitness w => onBlockWitness w s
  | BlockWitnessResponse n ws => suspend (AwaitsHeader n ws) s
  | SelfWitness data => queueSelfWitness data s
  | GenerateProof data isSelf now =>
      if isSelf then let '(s, ok) := setHeight data s in suspend (DirectHeight data ok) s
      else generateProof Direct now data s
  | HeightUpdate n => (setCurrentBlock n true s).1
  | PurgeTimer => purgeOldWitnesses s
  | Resume i a =>
      match fibers s !! i with
      | Some f => default s (resume f a (set_fibers (delete i (fibers s)) s))
      | None => s
      end
  end.

Definition run (l : list event) (s : t) : t := foldl (fun s e => step e s) s l.
End BlockWitnessManager.
End BlockWitnessManager.
