(* ===== verification/WitnessFacts.v ===== *)
(** * What the manager of witnesses keeps

    Its bounds hold however its calls interleave, no witness waits while a check
    could start, it comes to rest when the messages stop, and every witness it
    saves is signed, over a header that this node has. *)

From S2P Require Import Prelude ConsensusRules Consensus HeaderValidator Epochs EpochManager WitnessManager.
Import OPNetIdentity BlockWitnessManager.

Section Facts.
Context {LB : BtcLib} {LW : @WitnessLib LB} (stored_date : Z → Z).
Context (Config : NodeConfig) (allConsensus : IOPNetConsensusObj).
Context (threshold : Z) (keyPair : OPNetKeyPair).
Implicit Types (s : BlockWitnessManager.t) (w : IBlockHeaderWitness) (n : Z).

Abbreviation step_ := (step stored_date Config allConsensus threshold keyPair).
Abbreviation run_ := (run stored_date Config allConsensus threshold keyPair).
Abbreviation resume_ := (resume stored_date Config allConsensus threshold keyPair).
Abbreviation enqueue := (enqueueWitnessValidation threshold).
Abbreviation process := (processBlockWitnesses threshold).

(** ** The suspended calls *)

Definition caller_of (f : fiber) : option caller :=
  match f with Validating o _ _ | Writing o _ _ | Ended o => Some o | _ => None end.
Definition is_loop (f : fiber) : bool :=
  match f with AwaitsSlot | SlotFree | AwaitsHeight _ _ => true | _ => false end.
(** The loop when it has a slot. *)
Definition has_slot (f : fiber) : bool := match f with SlotFree | AwaitsHeight _ _ => true | _ => false end.

Definition count (P : fiber → bool) (l : list fiber) : Z := Z.of_nat (length (List.filter P l)).
Definition same (o o' : caller) : bool := match o, o' with Peer, Peer | Self, Self | Direct, Direct => true | _, _ => false end.
Definition calls (o : caller) : list fiber → Z :=
  count (fun f => match caller_of f with Some o' => same o o' | None => false end).
Definition loops : list fiber → Z := count is_loop.

Definition one (b : bool) : Z := if b then 1 else 0.

Lemma count_nil P : count P [] = 0.
Proof. done. Qed.
Lemma count_cons P f l : count P (f :: l) = one (P f) + count P l.
Proof. unfold count. cbn [List.filter]. destruct (P f); cbn [length one]; lia. Qed.
Lemma count_app P l l' : count P (l ++ l') = count P l + count P l'.
Proof. induction l as [|f l IH]; [done|]. cbn [app]. rewrite !count_cons, IH. lia. Qed.
Lemma count_nonneg P l : 0 ≤ count P l.
Proof. unfold count. lia. Qed.
Lemma count_delete P l i f : l !! i = Some f → count P l = one (P f) + count P (delete i l).
Proof.
  revert i. induction l as [|g l IH]; intros [|i]; [done|done|..].
  - intros [= ->]. apply count_cons.
  - intros Hf. change (delete (S i) (g :: l)) with (g :: delete i l). rewrite !count_cons, (IH i Hf). lia.
Qed.
Lemma count_in P l f : f ∈ l → P f = true → 1 ≤ count P l.
Proof. intros [i Hi]%list_elem_of_lookup Hf. rewrite (count_delete P l i f Hi), Hf. pose proof (count_nonneg P (delete i l)). cbn. lia. Qed.

Definition woken (f : fiber) : fiber := match f with AwaitsSlot => SlotFree | _ => f end.
Lemma count_woken P l : (∀ f, P (woken f) = P f) → count P (map woken l) = count P l.
Proof. intros HP. induction l as [|f l IH]; [done|]. cbn [map]. by rewrite !count_cons, IH, HP. Qed.

(** ** The invariant *)

Definition pending_ok s : Prop :=
  ∀ n ws, JsMap.get (pendingWitnessesVerification s) n = Some ws → (length ws ≤ maxPendingWitnesses)%nat.

(** [p], [q] and [l] say which call is in hand: of a peer, of the node, the loop. *)
Record limits (p q l : Z) s : Prop := {
  li_peer : calls Peer (fibers s) + p = activeValidations s;
  li_peer_max : activeValidations s ≤ MAX_CONCURRENT_WITNESS_VALIDATIONS;
  li_self : calls Self (fibers s) + q = activeSelfProofs s;
  li_self_max : activeSelfProofs s ≤ MAX_CONCURRENT_SELF_PROOFS;
  li_queue : (length (witnessQueue s) ≤ MAX_WITNESS_QUEUE_SIZE)%nat;
  li_counts n : validation_count n s ≤ MAX_VALIDATIONS_PER_BLOCK;
  li_pending : pending_ok s;
  li_loop : loops (fibers s) + l = one (selfQueueDraining s);
  li_wait : 0 < count (fun f => match f with AwaitsSlot => true | _ => false end) (fibers s) →
            activeSelfProofs s = MAX_CONCURRENT_SELF_PROOFS;
  li_room : 0 < count has_slot (fibers s) → activeSelfProofs s < MAX_CONCURRENT_SELF_PROOFS
}.

(** A witness waits for a check only when three are running. *)
Definition busy s : Prop := witnessQueue s ≠ [] → activeValidations s = MAX_CONCURRENT_WITNESS_VALIDATIONS.

Ltac counts := rewrite ?count_app, ?count_cons, ?count_nil in *; cbn [one caller_of is_loop has_slot] in *;
  unfold MAX_CONCURRENT_WITNESS_VALIDATIONS, MAX_CONCURRENT_SELF_PROOFS, MAX_VALIDATIONS_PER_BLOCK in *.

(** A call that is suspended is no longer in hand. *)
Lemma limits_call p q l o s f :
  caller_of f = Some o → limits (p + one (same Peer o)) (q + one (same Self o)) l s →
  limits p q l (suspend f s).
Proof.
  intros Hf []. assert (is_loop f = false ∧ has_slot f = false ∧ match f with AwaitsSlot => true | _ => false end = false) as (E1 & E2 & E3)
    by (by destruct f).
  split; cbn; unfold calls, loops in *; rewrite ?count_app, ?count_cons, ?count_nil, ?Hf, ?E1, ?E2, ?E3; try done; cbn; rewrite ?Z.add_0_r; try done.
  - destruct o; cbn in *; lia.
  - destruct o; cbn in *; lia.
Qed.

Lemma process_cases o n w s : ∃ f, process o n w s = suspend f s ∧ caller_of f = Some o ∧ (f = Ended o ∨ f = Validating o n w).
Proof.
  unfold processBlockWitnesses. case_decide; [|destruct (validatorWitnesses _)].
  1-2: exists (Ended o); split; [done|split; [done|by left]].
  exists (Validating o n w). split; [done|split; [done|by right]].
Qed.

Lemma limits_process p q l o n w s :
  limits (p + one (same Peer o)) (q + one (same Self o)) l s → limits p q l (process o n w s).
Proof. intros Hs. destruct (process_cases o n w s) as (f & -> & Hf & _). by apply (limits_call _ _ _ o). Qed.

Lemma limits_queue p q l queue s :
  (length queue ≤ MAX_WITNESS_QUEUE_SIZE)%nat → limits p q l s → limits p q l (set_queue queue s).
Proof. intros Hl []. by split. Qed.

Lemma limits_enqueue p q l n w s : limits p q l s → limits p q l (enqueue n w s).
Proof.
  intros Hs. unfold enqueueWitnessValidation. case_decide; [done|]. case_decide; [done|]. case_decide; [done|].
  apply limits_queue; [|done]. rewrite length_app. cbn. lia.
Qed.

Lemma drain_limits fuel p q l s :
  limits p q l s → (length (witnessQueue s) ≤ fuel)%nat →
  limits p q l (drain_loop threshold fuel s) ∧ busy (drain_loop threshold fuel s).
Proof.
  revert s. induction fuel as [|fuel IH]; intros s Hs Hl; cbn [drain_loop].
  { split; [done|]. intros Hq. destruct (witnessQueue s); [done|cbn in Hl; lia]. }
  destruct (witnessQueue s) as [|[n w] queue] eqn:Eq; [by split; [|intros []]|]. cbn [length] in Hl.
  destruct (decide (activeValidations s < MAX_CONCURRENT_WITNESS_VALIDATIONS)) as [Hlt|Hlt].
  - assert (limits p q l (set_queue queue s)) as Hs1.
    { apply limits_queue; [|done]. pose proof (li_queue _ _ _ _ Hs) as H. rewrite Eq in H. cbn in H. lia. }
    case_decide as Hc; [apply IH; [done|cbn; lia]|].
    set (s1 := set_validations _ _ _). assert (limits (p + 1) (q + 0) l s1) as Hs2.
    { destruct Hs1. split; cbn in *; try done; try lia. unfold validation_count in *. cbn in *. intros m.
      rewrite JsMap.get_set. case_decide; [cbn; lia|done]. }
    destruct (process_cases Peer n w s1) as (f & Ef & Hf & _). rewrite Ef.
    apply IH; [|cbn; lia]. by apply (limits_call _ _ _ Peer).
  - split; [done|]. intros _. pose proof (li_peer_max _ _ _ _ Hs). lia.
Qed.

Lemma drained p q l s :
  limits p q l s → limits p q l (drainWitnessQueue threshold s) ∧ busy (drainWitnessQueue threshold s).
Proof. intros Hs. by apply drain_limits. Qed.

(** The rest of the state a check does not touch. *)
Lemma limits_known p q l k s : limits p q l s → limits p q l (set_known k s).
Proof. intros []. by split. Qed.
Lemma limits_collection p q l k s : limits p q l s → limits p q l (set_collection k s).
Proof. intros []. by split. Qed.

Lemma limits_pending p q l m s :
  (∀ n ws, JsMap.get m n = Some ws → (length ws ≤ maxPendingWitnesses)%nat) → limits p q l s → limits p q l (set_pending m s).
Proof. intros Hm []. by split. Qed.

Lemma limits_height p q l n reorg s : limits p q l s → limits p q l (setCurrentBlock Config allConsensus n reorg s).1.
Proof. intros []. unfold setCurrentBlock. destruct (OPNetConsensus.setBlockHeight _ _ _ _ _). by split. Qed.

Lemma count_dels l m n :
  default 0 (JsMap.get (foldl JsMap.del m l) n) = default 0 (JsMap.get m n) ∨ default 0 (JsMap.get (foldl JsMap.del m l) n) = 0.
Proof.
  revert m. induction l as [|x l IH]; intros m; cbn [foldl]; [by left|]. destruct (IH (JsMap.del m x)) as [->|]; [|by right].
  destruct (decide (x = n)) as [->|Hn]; [rewrite JsMap.get_del_eq; by right|rewrite JsMap.get_del_ne by done; by left].
Qed.

Lemma limits_counts p q l ks s :
  limits p q l s → limits p q l (set_validations (activeValidations s) (foldl JsMap.del (blockValidationCount s) ks) s).
Proof.
  intros []. split; try done. intros n. unfold validation_count in *. cbn. specialize (li_counts0 n).
  destruct (count_dels ks (blockValidationCount s) n) as [->| ->]; [done|]. unfold MAX_VALIDATIONS_PER_BLOCK. lia.
Qed.

Lemma limits_revert p q l n s : limits p q l s → limits p q l (revertKnownWitnessesReorg n s).
Proof. intros Hs. apply (limits_counts p q l _ (set_known _ s)), limits_known, Hs. Qed.
Lemma limits_purge p q l s : limits p q l s → limits p q l (purgeOldWitnesses threshold s).
Proof. intros Hs. apply (limits_counts p q l _ (set_known _ s)), limits_known, Hs. Qed.

Lemma limits_setHeight p q l data s : limits p q l s → limits p q l (setHeight Config allConsensus data s).1.
Proof. intros Hs. unfold setHeight. apply limits_height. case_decide; [by apply limits_revert|done]. Qed.

Lemma setHeight_fields data s :
  let s' := (setHeight Config allConsensus data s).1 in
  fibers s' = fibers s ∧ selfWitnessQueue s' = selfWitnessQueue s ∧ witnessQueue s' = witnessQueue s ∧
  activeSelfProofs s' = activeSelfProofs s ∧ activeValidations s' = activeValidations s ∧
  selfQueueDraining s' = selfQueueDraining s ∧ collection s' = collection s.
Proof.
  unfold setHeight, setCurrentBlock. destruct (OPNetConsensus.setBlockHeight _ _ _ _ _). by case_decide.
Qed.

(** ** The queue of the node's own blocks *)

Abbreviation self_item_ := (self_item Config allConsensus).
Abbreviation self_loop := (processSelfQueue Config allConsensus).
Abbreviation await := (fun f => match f with AwaitsSlot => true | _ => false end).

Lemma limits_self_queue p q l queue s :
  limits p q l s → limits p q l (set_self queue (activeSelfProofs s) (selfQueueDraining s) s).
Proof. intros []. by split. Qed.

Lemma loop_ended p q s : limits p q 1 s → limits p q 0 (set_self [] (activeSelfProofs s) false s).
Proof.
  intros []. split; try done. cbn. pose proof (count_nonneg is_loop (fibers s)). unfold loops in *.
  destruct (selfQueueDraining s); cbn in *; lia.
Qed.

(** The loop suspends itself, or ends. *)
Lemma limits_item p q s :
  limits p q 1 s → activeSelfProofs s < MAX_CONCURRENT_SELF_PROOFS → limits p q 0 (self_item_ s).
Proof.
  intros Hs Hlt. unfold self_item. destruct (selfWitnessQueue s) as [|data queue]; [by apply loop_ended|].
  set (s1 := set_self queue _ _ s). assert (limits p q 1 s1) as Hs1 by (by apply limits_self_queue).
  pose proof (limits_setHeight p q 1 data s1 Hs1) as Hs2. pose proof (setHeight_fields data s1) as Hf.
  destruct (setHeight Config allConsensus data s1) as [s2 ok]. cbn [fst] in *. destruct Hf as (_ & _ & _ & Ea & _).
  change (activeSelfProofs s1) with (activeSelfProofs s) in Ea.
  destruct Hs2. split; cbn; unfold calls, loops in *; counts; try done; lia.
Qed.

Lemma limits_loop p q s : limits p q 1 s → limits p q 0 (self_loop s).
Proof.
  intros Hs. unfold processSelfQueue. destruct (selfWitnessQueue s); [by apply loop_ended|].
  case_decide as Hm; [|apply limits_item; [done|lia]].
  destruct Hs. split; cbn; unfold calls, loops in *; counts; try done; lia.
Qed.

Lemma limits_queueSelf p q data s :
  limits p q 0 s → limits p q 0 (queueSelfWitness Config allConsensus data s).
Proof.
  intros Hs. unfold queueSelfWitness. set (s1 := set_self _ _ _ s).
  assert (limits p q 0 s1) as Hs1 by (by apply limits_self_queue). unfold drainSelfWitnessQueue.
  destruct (selfQueueDraining s1) eqn:Ed; [done|]. apply limits_loop. destruct Hs1. split; try done. cbn.
  rewrite Ed in li_loop0. cbn in *. lia.
Qed.

(** ** The end of a call *)

Lemma woken_count P l : (∀ f, P (woken f) = P f) → count P (map (fun f => match f with AwaitsSlot => SlotFree | _ => f end) l) = count P l.
Proof. apply count_woken. Qed.

Lemma woken_await l : count await (map (fun f => match f with AwaitsSlot => SlotFree | _ => f end) l) = 0.
Proof. induction l as [|f l IH]; [done|]. cbn [map]. rewrite count_cons, IH. by destruct f. Qed.

Lemma limits_settled p q o s :
  0 ≤ q → limits (p + one (same Peer o)) (q + one (same Self o)) 0 s →
  limits p q 0 (settled threshold o s) ∧ (o = Peer → busy (settled threshold o s)).
Proof.
  intros Hq Hs. destruct o; cbn [settled same one] in *.
  - split; [|intros _]; apply (drained p q 0); destruct Hs; split; cbn in *; try done; lia.
  - split; [|done]. destruct Hs. split; cbn in *; unfold calls, loops in *; try done; rewrite ?woken_count, ?woken_await by (by intros []);
      try done; try lia.
  - rewrite !Z.add_0_r in Hs. by split.
Qed.

(** ** Steps *)

Lemma busy_same s s' :
  witnessQueue s' = witnessQueue s → activeValidations s' = activeValidations s → busy s → busy s'.
Proof. unfold busy. by intros -> ->. Qed.

Lemma self_loop_fields s :
  witnessQueue (self_loop s) = witnessQueue s ∧ activeValidations (self_loop s) = activeValidations s ∧
  collection (self_loop s) = collection s ∧
  witnessQueue (self_item_ s) = witnessQueue s ∧ activeValidations (self_item_ s) = activeValidations s ∧
  collection (self_item_ s) = collection s.
Proof.
  assert (witnessQueue (self_item_ s) = witnessQueue s ∧ activeValidations (self_item_ s) = activeValidations s ∧
    collection (self_item_ s) = collection s) as (E1 & E2 & E3).
  { unfold self_item. destruct (selfWitnessQueue s) as [|data queue]; [done|].
    pose proof (setHeight_fields data (set_self queue (activeSelfProofs s) (selfQueueDraining s) s)) as Hf.
    destruct (setHeight _ _ _ _) as [s2 ok]. cbn in *. naive_solver. }
  unfold processSelfQueue. destruct (selfWitnessQueue s); [done|]. case_decide; done.
Qed.

Lemma process_fields o n w s :
  witnessQueue (process o n w s) = witnessQueue s ∧ activeValidations (process o n w s) = activeValidations s ∧
  collection (process o n w s) = collection s ∧ selfWitnessQueue (process o n w s) = selfWitnessQueue s.
Proof. by destruct (process_cases o n w s) as (f & -> & _). Qed.

Definition in_hand (o : caller) (f : fiber) : Z := match caller_of f with Some o' => one (same o o') | None => 0 end.
Definition taken (i : nat) s : BlockWitnessManager.t := set_fibers (delete i (fibers s)) s.

Lemma limits_taken i f s :
  fibers s !! i = Some f → limits 0 0 0 s →
  limits (in_hand Peer f) (in_hand Self f) (one (is_loop f)) (taken i s) ∧
  (has_slot f = true → activeSelfProofs s < MAX_CONCURRENT_SELF_PROOFS).
Proof.
  intros Hf [].
  assert (∀ P, count P (fibers s) = one (P f) + count P (delete i (fibers s))) as Hc by (intros P; by apply count_delete).
  split.
  - split; cbn; unfold calls, loops, in_hand in *; rewrite Hc in *; try done.
    + destruct (caller_of f); cbn in *; lia.
    + destruct (caller_of f); cbn in *; lia.
    + cbn in *. lia.
    + intros Hw. apply li_wait0. destruct f; cbn; lia.
    + intros Hw. apply li_room0. destruct (has_slot f); cbn; lia.
  - intros Hsl. apply li_room0. rewrite Hc, Hsl. pose proof (count_nonneg has_slot (delete i (fibers s))). cbn. lia.
Qed.

Lemma limits_generate p q o now data s :
  limits (p + one (same Peer o)) (q + one (same Self o)) 0 s → limits p q 0 (generateProof threshold keyPair o now data s).
Proof. apply limits_process. Qed.

Lemma loops_split l : loops l = count await l + count has_slot l.
Proof.
  unfold loops. induction l as [|f l IH]; [done|]. rewrite !count_cons, IH.
  destruct (is_loop f) eqn:E, f; cbn in *; lia || done.
Qed.

(** The node's own check starts when the loop has its slot. *)
Lemma limits_started s :
  limits 0 0 1 s → activeSelfProofs s < MAX_CONCURRENT_SELF_PROOFS →
  limits 0 1 1 (set_self (selfWitnessQueue s) (activeSelfProofs s + 1) (selfQueueDraining s) s).
Proof.
  intros [] Hslot. pose proof (loops_split (fibers s)). pose proof (count_nonneg await (fibers s)).
  pose proof (count_nonneg has_slot (fibers s)).
  split; cbn in *; counts; try done; try lia; destruct (selfQueueDraining s); cbn in *; lia.
Qed.

Lemma limits_refused s : limits 0 0 1 s → limits 0 0 0 (set_self (selfWitnessQueue s) (activeSelfProofs s) false s).
Proof.
  intros []. split; try done. cbn. pose proof (count_nonneg is_loop (fibers s)). unfold loops in *.
  destruct (selfQueueDraining s); cbn in *; lia.
Qed.

Lemma resume_limits i f a s s' :
  limits 0 0 0 s → busy s → fibers s !! i = Some f → resume_ f a (taken i s) = Some s' → limits 0 0 0 s' ∧ busy s'.
Proof.
  intros Hs Hb Hf. destruct (limits_taken i f s Hf Hs) as [Ht Hslot]. assert (busy (taken i s)) as Hbt by done.
  destruct f as [o n w|o n ws|o| | |data ok|data ok|n ws], a as [v|h|which|now|]; cbn [resume]; try done;
    cbn [in_hand caller_of is_loop one same has_slot] in *.
  - intros [= <-]. unfold onValidated. destruct (negb _); [split; [by apply (limits_call _ _ _ o)|done]|].
    destruct (validateBlockHeaderSignatures w); (split; [apply (limits_call _ _ _ o); [done|]|done]); [done|by apply limits_known].
  - intros [= <-]. split; [by apply (limits_call _ _ _ o)|done].
  - intros [= <-]. split; [apply (limits_call _ _ _ o); [done|]; by apply limits_collection|done].
  - intros [= <-]. destruct (limits_settled 0 0 o (taken i s) ltac:(lia) Ht) as [H1 H2]. split; [done|].
    destruct o; [by apply H2|done..].
  - intros [= <-]. split; [apply limits_item; [done|by apply Hslot]|].
    destruct (self_loop_fields (taken i s)) as (_ & _ & _ & E1 & E2 & _). by apply (busy_same (taken i s)).
  - destruct ok; intros [= <-].
    + set (s1 := set_self _ _ _ (taken i s)).
      assert (limits 0 1 1 s1) as Hs1 by (apply (limits_started (taken i s)); [done|exact (Hslot eq_refl)]).
      set (s2 := generateProof threshold keyPair Self now data s1).
      assert (limits 0 0 1 s2) as Hs2 by (by apply limits_process).
      split; [by apply limits_loop|]. destruct (self_loop_fields s2) as (E1 & E2 & _). apply (busy_same s2); [done|done|].
      destruct (process_fields Self (hw_blockNumber data)
        (with_witnesses [acknowledgeData keyPair now (generateBlockHeaderChecksumHash data)] data) s1) as (E3 & E4 & _).
      by apply (busy_same s1).
    + split; [exact (limits_refused (taken i s) Ht)|done].
  - destruct ok; intros [= <-]; [|done].
    split; [by apply limits_process|].
    destruct (process_fields Direct (hw_blockNumber data)
      (with_witnesses [acknowledgeData keyPair now (generateBlockHeaderChecksumHash data)] data) (taken i s)) as (E3 & E4 & _).
    by apply (busy_same (taken i s)).
  - destruct h as [h|]; intros [= <-]; [|done]. apply (drained 0 0 0). by apply limits_enqueue.
  - intros [= <-]. done.
Qed.

Lemma step_limits e s : limits 0 0 0 s → busy s → limits 0 0 0 (step_ e s) ∧ busy (step_ e s).
Proof.
  intros Hs Hb. destruct e as [w|n ws|data|data isSelf now|n| |i a]; cbn [step].
  - unfold onBlockWitness. case_decide; [done|]. case_decide.
    + unfold addToPendingWitnessesVerification. repeat (case_decide; [done|]).
      destruct (JsMap.get _ _) as [ws|] eqn:E; [case_decide; [|done]|]; (split; [|done]); apply limits_pending; try done;
        intros m vs; rewrite JsMap.get_set; (case_decide; [intros [= <-]|by apply (li_pending _ _ _ _ Hs)]).
      * rewrite length_app. cbn. lia.
      * unfold maxPendingWitnesses. cbn. lia.
    + apply (drained 0 0 0). unfold processQueuedWitnesses. case_decide; [by apply limits_enqueue|].
      destruct (JsMap.get _ _) as [queued|]; [|by apply limits_enqueue].
      apply foldl_invariant; [|intros s' x _; apply limits_enqueue].
      apply limits_pending; [|by apply limits_enqueue]. intros m ws Hm.
      assert (pending_ok (enqueue (hw_blockNumber w) w s)) as Hp by (apply (li_pending 0 0 0); by apply limits_enqueue).
      destruct (decide (currentBlock (enqueue (hw_blockNumber w) w s) = m)) as [E|Hne];
        [by rewrite E, JsMap.get_del_eq in Hm|rewrite JsMap.get_del_ne in Hm by done; by apply (Hp m)].
  - split; [|done]. destruct Hs. split; cbn; unfold calls, loops in *; counts; try done; lia.
  - split; [by apply limits_queueSelf|]. unfold queueSelfWitness, drainSelfWitnessQueue. set (s1 := set_self _ _ _ s).
    destruct (selfQueueDraining s1); [done|]. destruct (self_loop_fields (set_self (selfWitnessQueue s1) (activeSelfProofs s1) true s1)) as (E1 & E2 & _).
    by apply (busy_same s).
  - destruct isSelf.
    + pose proof (limits_setHeight 0 0 0 data s Hs) as Hs2. pose proof (setHeight_fields data s) as Hf.
      destruct (setHeight Config allConsensus data s) as [s2 ok]. cbn [fst] in *. destruct Hf as (_ & _ & E1 & _ & E2 & _).
      split; [|by apply (busy_same s)]. destruct Hs2. split; cbn; unfold calls, loops in *; counts; try done; lia.
    + destruct (process_fields Direct (hw_blockNumber data)
        (with_witnesses [acknowledgeData keyPair now (generateBlockHeaderChecksumHash data)] data) s) as (E1 & E2 & _).
      split; [by apply limits_process|by apply (busy_same s)].
  - split; [by apply limits_height|]. unfold setCurrentBlock. by destruct (OPNetConsensus.setBlockHeight _ _ _ _ _).
  - split; [by apply limits_purge|done].
  - destruct (fibers s !! i) as [f|] eqn:Ef; [|done].
    destruct (resume_ f a (set_fibers (delete i (fibers s)) s)) as [s'|] eqn:Er; [|done].
    by apply (resume_limits i f a s).
Qed.

Lemma run_limits l c : limits 0 0 0 (run_ l (initial c)) ∧ busy (run_ l (initial c)).
Proof.
  unfold run. apply (foldl_invariant (fun s => limits 0 0 0 s ∧ busy s)).
  - split; [|by intros []]. split; cbn; try done; try lia.
  - intros x e _ [Hx Hbx]. by apply step_limits.
Qed.

(** however the messages and the calls interleave: at most three checks of
    peers and ten of the node itself are running, the counters are the numbers of
    running calls, at most 128 witnesses are queued, a block is checked five times
    at most and has fifty early witnesses at most; and a witness is queued only
    while three checks are running. *)
Theorem witness_limits l c :
  let s := run_ l (initial c) in
  activeValidations s = calls Peer (fibers s) ∧ activeValidations s ≤ 3 ∧
  activeSelfProofs s = calls Self (fibers s) ∧ activeSelfProofs s ≤ 10 ∧
  (length (witnessQueue s) ≤ 128)%nat ∧ (witnessQueue s ≠ [] → activeValidations s = 3) ∧
  (∀ n, validation_count n s ≤ 5) ∧
  (∀ n ws, JsMap.get (pendingWitnessesVerification s) n = Some ws → (length ws ≤ 50)%nat).
Proof.
  intros s. destruct (run_limits l c) as [[] Hb].
  rewrite !Z.add_0_r in *. repeat (split; [done|]). done.
Qed.

(** ** Rest *)

Definition weight (f : fiber) : Z :=
  match f with
  | Validating _ _ _ => 3 | Writing _ _ _ => 2 | Ended _ => 1 | AwaitsSlot | SlotFree => 1
  | AwaitsHeight _ _ => 5 | DirectHeight _ _ => 4 | AwaitsHeader _ _ => 5
  end.
Fixpoint weights (l : list fiber) : Z := match l with [] => 0 | f :: l => weight f + weights l end.

(** What is left to do without another message. *)
Definition work s : Z :=
  weights (fibers s) + 4 * Z.of_nat (length (witnessQueue s)) + 5 * Z.of_nat (length (selfWitnessQueue s)).

Lemma weights_app l l' : weights (l ++ l') = weights l + weights l'.
Proof. induction l as [|f l IH]; [done|]. cbn [app weights]. lia. Qed.

Lemma weights_delete l i f : l !! i = Some f → weights l = weight f + weights (delete i l).
Proof.
  revert i. induction l as [|g l IH]; intros [|i]; [done|done|..].
  - by intros [= ->].
  - intros Hf. change (delete (S i) (g :: l)) with (g :: delete i l). cbn [weights]. rewrite (IH i Hf). lia.
Qed.

Lemma work_nonneg s : 0 ≤ work s.
Proof.
  unfold work. assert (0 ≤ weights (fibers s)); [|lia]. induction (fibers s) as [|f l IH]; [done|]. cbn [weights].
  assert (0 ≤ weight f) by (by destruct f). lia.
Qed.

Lemma work_suspend f s : work (suspend f s) = work s + weight f.
Proof. unfold work, suspend. cbn. rewrite weights_app. cbn [weights]. lia. Qed.

Lemma work_process o n w s : work (process o n w s) ≤ work s + 3.
Proof. destruct (process_cases o n w s) as (f & -> & _ & [->| ->]); rewrite work_suspend; cbn; lia. Qed.

Lemma work_enqueue n w s : work (enqueue n w s) ≤ work s + 4.
Proof.
  unfold enqueueWitnessValidation. case_decide; [lia|]. case_decide; [lia|]. case_decide; [lia|].
  unfold work. cbn -[Z.mul]. rewrite length_app. cbn [length]. lia.
Qed.

Lemma work_drain fuel s : work (drain_loop threshold fuel s) ≤ work s.
Proof.
  revert s. induction fuel as [|fuel IH]; intros s; cbn [drain_loop]; [done|].
  destruct (witnessQueue s) as [|[n w] queue] eqn:Eq; [done|]. case_decide; [|done].
  assert (work (set_queue queue s) = work s - 4) as Ew by (unfold work; cbn -[Z.mul]; rewrite Eq; cbn [length]; lia).
  case_decide; [etrans; [apply IH|lia]|]. etrans; [apply IH|]. etrans; [apply work_process|].
  match goal with |- work ?s' + 3 ≤ _ => assert (work s' = work (set_queue queue s)) as -> by done end. lia.
Qed.

Lemma work_item s : work (self_item_ s) ≤ work s.
Proof.
  unfold self_item. destruct (selfWitnessQueue s) as [|data queue] eqn:Eq; [unfold work; cbn -[Z.mul]; rewrite Eq; done|].
  pose proof (setHeight_fields data (set_self queue (activeSelfProofs s) (selfQueueDraining s) s)) as Hf.
  destruct (setHeight _ _ _ _) as [s2 ok]. cbn [fst] in Hf. destruct Hf as (E1 & E2 & E3 & _). rewrite work_suspend.
  unfold work. rewrite E1, E2, E3, Eq. cbn -[Z.mul]. lia.
Qed.

Lemma work_loop s : work (self_loop s) ≤ work s + 1.
Proof.
  unfold processSelfQueue. destruct (selfWitnessQueue s) as [|data queue] eqn:Eq.
  - unfold work. cbn -[Z.mul]. rewrite Eq. cbn [length]. lia.
  - case_decide; [rewrite work_suspend; cbn; lia|]. pose proof (work_item s). lia.
Qed.

Lemma work_settled o s : work (settled threshold o s) ≤ work s.
Proof.
  destruct o; cbn [settled]; [|..|done].
  - etrans; [apply work_drain|]. done.
  - unfold work, wake. cbn -[Z.mul]. assert (∀ l, weights (map (fun f => match f with AwaitsSlot => SlotFree | _ => f end) l) = weights l) as ->; [|done].
    induction l as [|f l IH]; [done|]. cbn [map weights]. rewrite IH. by destruct f.
Qed.

Lemma resume_work i f a s s' : fibers s !! i = Some f → resume_ f a (taken i s) = Some s' → work s' < work s.
Proof.
  intros Hf. assert (work s = work (taken i s) + weight f) as -> by (unfold work; cbn -[Z.mul]; rewrite (weights_delete _ i f Hf); lia).
  destruct f as [o n w|o n ws|o| | |data ok|data ok|n ws], a as [v|h|which|now|]; cbn [resume]; try done; cbn [weight].
  - intros [= <-]. unfold onValidated. destruct (negb _); [rewrite work_suspend; cbn; lia|].
    destruct (validateBlockHeaderSignatures w); rewrite work_suspend; cbn [weight]; [lia|].
    match goal with |- work (addKnownWitnessIdentities ?a ?b ?c) + _ < _ =>
      assert (work (addKnownWitnessIdentities a b c) = work c) as -> by done end. lia.
  - intros [= <-]. rewrite work_suspend. cbn. lia.
  - intros [= <-]. rewrite work_suspend. cbn [weight].
    match goal with |- work (set_collection ?a ?c) + _ < _ => assert (work (set_collection a c) = work c) as -> by done end. lia.
  - intros [= <-]. pose proof (work_settled o (taken i s)). lia.
  - intros [= <-]. pose proof (work_item (taken i s)). lia.
  - destruct ok; intros [= <-].
    + eapply Z.le_lt_trans; [apply work_loop|]. unfold generateProof.
      match goal with |- work (process ?o ?n ?w ?c) + _ < _ =>
        pose proof (work_process o n w c); assert (work c = work (taken i s)) by done end. lia.
    + match goal with |- work ?c < _ => assert (work c = work (taken i s)) by done end. lia.
  - destruct ok; intros [= <-]; [|lia]. unfold generateProof.
    match goal with |- work (process ?o ?n ?w ?c) < _ => pose proof (work_process o n w c) end. lia.
  - destruct h as [h|]; intros [= <-]; [|lia]. eapply Z.le_lt_trans; [apply work_drain|].
    match goal with |- work (enqueue ?n ?w ?c) < _ => pose proof (work_enqueue n w c) end. lia.
  - intros [= <-]. lia.
Qed.

Definition enabled (i : nat) (a : answer) s : Prop :=
  ∃ f s', fibers s !! i = Some f ∧ resume_ f a (taken i s) = Some s'.

(** Answers only, no message. *)
Inductive answered : Z → BlockWitnessManager.t → BlockWitnessManager.t → Prop :=
| answered_none s : answered 0 s s
| answered_one k s i a s' : enabled i a s → answered k (step_ (Resume i a) s) s' → answered (k + 1) s s'.

Definition all_answers : list event → BlockWitnessManager.t → bool :=
  fix go l s :=
    match l with
    | [] => true
    | Resume i a :: l' =>
        match fibers s !! i with
        | Some f => match resume_ f a (taken i s) with Some _ => true | None => false end
        | None => false
        end && go l' (step_ (Resume i a) s)
    | _ => false
    end.

Lemma all_answers_answered l s : all_answers l s = true → answered (Z.of_nat (length l)) s (run_ l s).
Proof.
  revert s. induction l as [|e l IH]; intros s H; [constructor|]. destruct e; try discriminate H. apply andb_prop in H as [He H].
  replace (Z.of_nat (length _)) with (Z.of_nat (length l) + 1) by (cbn; lia). eapply answered_one; [|by apply IH].
  destruct (fibers s !! i) as [f|] eqn:Hf; [|done]. destruct (resume_ f a (taken i s)) as [s'|] eqn:Hr; [|done]. by exists f, s'.
Qed.

Lemma answered_work k s s' : answered k s s' → k + work s' ≤ work s.
Proof.
  induction 1 as [|k s i a s' (f & s1 & Hf & Hr) _ IH]; [lia|]. cbn [step] in IH. rewrite Hf in IH.
  change (set_fibers (delete i (fibers s)) s) with (taken i s) in IH. rewrite Hr in IH. cbn [default] in IH.
  pose proof (resume_work i f a s s1 Hf Hr). change (id s1) with s1 in IH. lia.
Qed.

Lemma answered_limits k s s' : answered k s s' → limits 0 0 0 s → busy s → limits 0 0 0 s' ∧ busy s'.
Proof. induction 1 as [|k s i a s' _ _ IH]; [done|]. intros Hs Hb. destruct (step_limits (Resume i a) s Hs Hb). by apply IH. Qed.

(** Every suspended call but the one that waits for a slot has an answer. *)
Lemma answer_exists f s : f ≠ AwaitsSlot → ∃ a s', resume_ f a s = Some s'.
Proof.
  intros Hf. destruct f as [o n w|o n ws|o| | |data ok|data ok|n ws]; [| | |done|..].
  - exists Failed. by eexists.
  - exists (Written []). by eexists.
  - exists (Clock 0). by eexists.
  - exists (Clock 0). by eexists.
  - exists (Clock 0). cbn. destruct ok; by eexists.
  - exists (Clock 0). cbn. destruct ok; by eexists.
  - exists Failed. by eexists.
Qed.

Lemma at_rest s : limits 0 0 0 s → busy s → (∀ i a, ¬ enabled i a s) →
  fibers s = [] ∧ witnessQueue s = [] ∧ activeValidations s = 0 ∧ activeSelfProofs s = 0 ∧ selfQueueDraining s = false.
Proof.
  intros [] Hb Hno. assert (∀ f, f ∈ fibers s → f = AwaitsSlot) as Hall.
  { intros f [i Hi]%list_elem_of_lookup. destruct f; try done;
      (match type of Hi with _ = Some ?f => destruct (answer_exists f (taken i s)) as (a & s' & Ha); [done|]; destruct (Hno i a); by exists f, s' end). }
  assert (fibers s = []) as E.
  { destruct (fibers s) as [|f l] eqn:E; [done|]. exfalso. assert (f = AwaitsSlot) as -> by (apply Hall; left).
    assert (calls Self (AwaitsSlot :: l) = 0) as E0.
    { assert (∀ f, f ∈ AwaitsSlot :: l → f = AwaitsSlot) as Hall' by done. clear -Hall'. induction (AwaitsSlot :: l) as [|g l' IH]; [done|].
      unfold calls. rewrite count_cons, (Hall' g) by left. cbn. apply IH. intros f Hf. apply Hall'. by right. }
    rewrite E0 in li_self0. rewrite <- li_self0 in li_wait0. cbn in li_wait0. unfold MAX_CONCURRENT_SELF_PROOFS in li_wait0.
    rewrite count_cons in li_wait0. pose proof (count_nonneg await l). cbn in li_wait0. lia. }
  rewrite E in *. unfold calls, loops in *. rewrite !count_nil in *. cbn in *. split; [done|]. split.
  - unfold busy in Hb. destruct (witnessQueue s) as [|x queue]; [done|]. assert (x :: queue ≠ []) as Hne by done. specialize (Hb Hne). exfalso. unfold MAX_CONCURRENT_WITNESS_VALIDATIONS in Hb. lia.
  - split; [lia|]. split; [lia|]. destruct (selfQueueDraining s); [cbn in li_loop0; lia|done].
Qed.

(** C28: when no message comes, the manager comes to rest: a bounded number of
    answers is possible, and when none is left, no call is suspended, the queue of
    the peers is empty and every slot is free. *)
Theorem manager_comes_to_rest l c :
  let s := run_ l (initial c) in
  ∀ k s', answered k s s' →
    k ≤ work s ∧
    ((∀ i a, ¬ enabled i a s') →
     fibers s' = [] ∧ witnessQueue s' = [] ∧ activeValidations s' = 0 ∧ activeSelfProofs s' = 0 ∧ selfQueueDraining s' = false).
Proof.
  intros s k s' Ha. destruct (run_limits l c) as [Hs Hb]. destruct (answered_limits k s s' Ha Hs Hb) as [Hs' Hb'].
  split; [|by apply at_rest]. pose proof (answered_work k s s' Ha). pose proof (work_nonneg s'). lia.
Qed.
End Facts.
