(* ===== verification/WitnessTrust.v ===== *)
(** * The witnesses that are saved

    A witness is saved when its signature verifies over a header that the RPC
    thread has compared with the stored one, whatever the peers send and however
    the calls interleave. *)

From S2P Require Import Prelude ConsensusRules Consensus HeaderValidator Epochs EpochManager WitnessManager WitnessFacts.
Import OPNetIdentity BlockWitnessManager.

Section Trust.
Context {LB : BtcLib} {LW : @WitnessLib LB} {LM : MerkleLib} (stored_date : Z → Z).
Context (Config : NodeConfig) (allConsensus : IOPNetConsensusObj).
Context (threshold : Z) (keyPair : OPNetKeyPair).
Implicit Types (s : BlockWitnessManager.t) (w : IBlockHeaderWitness) (n : Z) (x : OPNetBlockWitness).

Abbreviation step_ := (step stored_date Config allConsensus threshold keyPair).
Abbreviation run_ := (run stored_date Config allConsensus threshold keyPair).
Abbreviation resume_ := (resume stored_date Config allConsensus threshold keyPair).

(** ** What is being written *)

(** No call starts to write, and nothing is written. *)
Definition writes_less s' s : Prop :=
  (∀ o n ws, Writing o n ws ∈ fibers s' → Writing o n ws ∈ fibers s) ∧ collection s' = collection s.

#[local] Instance writes_less_pre : PreOrder writes_less.
Proof. split; [by intros s|]. intros a b c [H1 E1] [H2 E2]. split; [intros o n ws Hw; by apply H2, H1|congruence]. Qed.

Definition writing (f : fiber) : bool := match f with Writing _ _ _ => true | _ => false end.

Lemma less_suspend f s : writing f = false → writes_less (suspend f s) s.
Proof.
  intros Hf. split; [|done]. intros o n ws [Hw|Hw%list_elem_of_singleton]%elem_of_app; [done|]. by subst f.
Qed.

Lemma less_same s' s : fibers s' = fibers s → collection s' = collection s → writes_less s' s.
Proof. intros E1 E2. split; [by rewrite E1|done]. Qed.

Lemma less_process o n w s : writes_less (processBlockWitnesses threshold o n w s) s.
Proof. destruct (process_cases threshold o n w s) as (f & -> & _ & [->| ->]); by apply less_suspend. Qed.

Lemma less_enqueue n w s : writes_less (enqueueWitnessValidation threshold n w s) s.
Proof. unfold enqueueWitnessValidation. repeat (case_decide; [done|]). by apply less_same. Qed.

Lemma less_drain fuel s : writes_less (drain_loop threshold fuel s) s.
Proof.
  revert s. induction fuel as [|fuel IH]; intros s; cbn [drain_loop]; [done|].
  destruct (witnessQueue s) as [|[n w] queue]; [done|]. case_decide; [|done]. case_decide.
  - etrans; [apply IH|by apply less_same].
  - etrans; [apply IH|]. etrans; [apply less_process|by apply less_same].
Qed.

Lemma less_height data s : writes_less (setHeight Config allConsensus data s).1 s.
Proof. pose proof (setHeight_fields Config allConsensus data s) as (E1 & _ & _ & _ & _ & _ & E2). by apply less_same. Qed.

Lemma less_item s : writes_less (self_item Config allConsensus s) s.
Proof.
  unfold self_item. destruct (selfWitnessQueue s) as [|data queue]; [by apply less_same|].
  pose proof (less_height data (set_self queue (activeSelfProofs s) (selfQueueDraining s) s)) as Hl.
  destruct (setHeight _ _ _ _) as [s2 ok]. cbn [fst] in Hl. etrans; [by apply less_suspend|]. etrans; [exact Hl|by apply less_same].
Qed.

Lemma less_loop s : writes_less (processSelfQueue Config allConsensus s) s.
Proof.
  unfold processSelfQueue. destruct (selfWitnessQueue s); [by apply less_same|]. case_decide; [by apply less_suspend|apply less_item].
Qed.

Lemma less_settled o s : writes_less (settled threshold o s) s.
Proof.
  destruct o; cbn [settled]; [|..|done].
  - etrans; [apply less_drain|by apply less_same].
  - split; [|done]. intros o n ws (f & Ef & Hf)%list_elem_of_fmap. cbn in Hf. destruct f; try done. by rewrite Ef.
Qed.

Lemma less_taken i s : writes_less (taken i s) s.
Proof. split; [|done]. intros o n ws Hw. cbn in Hw. eapply elem_of_sublist; [exact Hw|apply sublist_delete]. Qed.

(** ** The documents *)

Definition key_of (d : IBlockWitnessDocument) : Z * option string := (bw_blockNumber d, bw_identity d).

Lemma set_witness_unique n l x : NoDup (key_of <$> l) → NoDup (key_of <$> EpochDatabase.set_witness stored_date n l x).
Proof.
  intros Hl. unfold EpochDatabase.set_witness. cbv zeta. destruct (truthy_ostr _); [|done].
  destruct (existsb _ l) eqn:E.
  - replace (key_of <$> EpochDatabase.update_first _ _ l) with (key_of <$> l); [done|]. clear.
    induction l as [|y l IH]; cbn; [done|]. case_bool_decide as Ey; cbn; [|by f_equal]. destruct Ey as [E1 E2]. f_equal.
    unfold key_of. cbn. by rewrite E1, E2.
  - rewrite fmap_app. apply NoDup_app. split; [done|]. split; [|apply NoDup_singleton].
    intros k (d & -> & Hd)%list_elem_of_fmap Hk%list_elem_of_singleton. apply not_true_iff_false in E. apply E, existsb_exists.
    exists d. split; [by apply list_elem_of_In|]. apply bool_decide_true. unfold key_of in Hk. cbn in Hk. by injection Hk.
Qed.

(** ** What is written *)

Section Holds.
Context (P : Z → OPNetBlockWitness → Prop).

(** A document of a witness for which [P] holds. *)
Definition doc_of (d : IBlockWitnessDocument) : Prop :=
  ∃ x, P (bw_blockNumber d) x ∧ bw_identity d = ow_identity x ∧ bw_publicKey d = ow_publicKey x ∧
       bw_signature d = ow_signature x ∧ bw_timestamp d = stored_date (ow_timestamp x).

Definition holds s : Prop :=
  (∀ o n ws, Writing o n ws ∈ fibers s → Forall (P n) ws) ∧ Forall doc_of (collection s) ∧ NoDup (key_of <$> collection s).

Lemma holds_less s' s : writes_less s' s → holds s → holds s'.
Proof. intros [H1 E] [H2 H3]. split; [intros o n ws Hw; by apply (H2 o), H1|by rewrite E]. Qed.

Lemma set_witness_holds n l x : P n x → Forall doc_of l → Forall doc_of (EpochDatabase.set_witness stored_date n l x).
Proof.
  intros Hx Hl. unfold EpochDatabase.set_witness. cbv zeta. destruct (truthy_ostr _); [|done].
  assert (∀ p, doc_of (mkWitness n (ow_identity x) (ow_publicKey x) (ow_signature x) (stored_date (ow_timestamp x)) p)) as Hd
    by (intros p; by exists x).
  destruct (existsb _ l).
  - induction Hl as [|y l Hy Hl IH]; cbn; [done|]. case_bool_decide; by constructor.
  - apply Forall_app. split; [done|]. by constructor.
Qed.

Lemma written_in ws which : Forall (P which) ws → ∀ l, Forall (P which) (written ws l).
Proof.
  intros Hws l. unfold written. apply Forall_forall. intros x (p & <- & Hp)%list_elem_of_In%in_map_iff.
  apply filter_In in Hp as [Hp _]. apply list_elem_of_In in Hp. destruct p as [x b]. cbn.
  apply elem_of_zip_l in Hp. by eapply Forall_forall in Hws.
Qed.

(** An answer of the RPC thread that approves a header makes [P] hold for its
    signatures. *)
Lemma resume_holds i f a s s' :
  holds s → fibers s !! i = Some f → resume_ f a (taken i s) = Some s' →
  (∀ o n w v, f = Validating o n w → a = Validated v → header_valid v w = true → Forall (P n) (validateBlockHeaderSignatures w)) →
  holds s'.
Proof.
  intros Hs Hf Hr HP. pose proof (holds_less _ _ (less_taken i s) Hs) as Ht.
  assert (∀ s1, writes_less s1 (taken i s) → holds s1) as Hl by (intros s1 H1; by apply (holds_less _ _ H1)).
  destruct f as [o n w|o n ws|o| | |data ok|data ok|n ws], a as [v|h|which|now|]; cbn [resume] in Hr; try done.
  - injection Hr as <-. unfold onValidated. destruct (header_valid v w) eqn:Ev; cbn [negb]; [|by apply Hl, less_suspend].
    specialize (HP o n w v eq_refl eq_refl Ev). destruct (validateBlockHeaderSignatures w) as [|x ws] eqn:Ew; [by apply Hl, less_suspend|].
    split; [|apply Ht]. intros o' n' ws' [Hin|Hin%list_elem_of_singleton]%elem_of_app; [by apply (proj1 Ht o')|].
    injection Hin as -> -> ->. done.
  - injection Hr as <-. by apply Hl, less_suspend.
  - injection Hr as <-. assert (Forall (P n) ws) as Hws by (apply (proj1 Hs o); by eapply list_elem_of_lookup_2).
    eapply holds_less; [by apply less_suspend|]. split; [apply Ht|]. cbn.
    apply (foldl_invariant (fun l => Forall doc_of l ∧ NoDup (key_of <$> l))); [apply Ht|]. intros l x Hx [Hdocs Hnd].
    split; [|by apply set_witness_unique]. apply set_witness_holds; [|done]. eapply Forall_forall; [by apply written_in|done].
  - injection Hr as <-. apply Hl, less_settled.
  - injection Hr as <-. apply Hl, less_item.
  - destruct ok; injection Hr as <-; apply Hl; [|by apply less_same].
    etrans; [apply less_loop|]. etrans; [apply less_process|by apply less_same].
  - destruct ok; injection Hr as <-; apply Hl; [apply less_process|done].
  - destruct h; injection Hr as <-; apply Hl; [|done]. etrans; [apply less_drain|apply less_enqueue].
  - by injection Hr as <-.
Qed.

Lemma step_holds e s :
  holds s →
  (∀ i o n w v, e = Resume i (Validated v) → fibers s !! i = Some (Validating o n w) → header_valid v w = true →
   Forall (P n) (validateBlockHeaderSignatures w)) →
  holds (step_ e s).
Proof.
  intros Hs HP. assert (∀ s1, writes_less s1 s → holds s1) as Hl by (intros s1 H1; by apply (holds_less _ _ H1)).
  destruct e as [w|n ws|data|data isSelf now|n| |i a]; cbn [step].
  - apply Hl. unfold onBlockWitness. case_decide; [done|]. case_decide.
    + unfold addToPendingWitnessesVerification. repeat (case_decide; [done|]).
      destruct (JsMap.get _ _); [case_decide; [|done]|]; by apply less_same.
    + etrans; [apply less_drain|]. unfold processQueuedWitnesses. case_decide; [apply less_enqueue|].
      destruct (JsMap.get _ _) as [queued|]; [|apply less_enqueue].
      apply (foldl_invariant (fun s' => writes_less s' s)); [etrans; [|apply less_enqueue]; by apply less_same|].
      intros s' x _ Hx. etrans; [apply less_enqueue|done].
  - by apply Hl, less_suspend.
  - apply Hl. unfold queueSelfWitness, drainSelfWitnessQueue. destruct (selfQueueDraining _); [by apply less_same|].
    etrans; [apply less_loop|by apply less_same].
  - apply Hl. destruct isSelf; [|apply less_process]. pose proof (less_height data s) as H1.
    destruct (setHeight _ _ _ _) as [s2 ok]. etrans; [by apply less_suspend|exact H1].
  - apply Hl. unfold setCurrentBlock. destruct (OPNetConsensus.setBlockHeight _ _ _ _ _). by apply less_same.
  - apply Hl. by apply less_same.
  - destruct (fibers s !! i) as [f|] eqn:Ef; [|done].
    destruct (resume_ f a (set_fibers (delete i (fibers s)) s)) as [s'|] eqn:Er; [|done].
    apply (resume_holds i f a s s' Hs Ef Er). intros o n w v -> ->. by apply (HP i o n w v).
Qed.
End Holds.

Lemma witness_run_snoc l e s : run_ (l ++ [e]) s = step_ e (run_ l s).
Proof. unfold run. by rewrite foldl_app. Qed.

(** ** The RPC thread *)

Section Headers.
Context (LIGHT enableCaching : bool).
Implicit Types (storage : Z → option BlockHeaderDocument).

(** The header of a message. *)
Definition header_of n w : BlockHeaderDocument :=
  mkHeader (blockHash w) n (checksumHash w) (default "" (previousBlockHash w)) (previousBlockChecksum w) (merkleRoot w)
    (storageRoot w) (receiptRoot w) (BitcoinRPCThread.getChecksumProofs (checksumProofs w)).

Lemma vm_header storage n w c :
  BlockHeaderValidator.validateBlockChecksum LIGHT enableCaching storage (BitcoinRPCThread.vmBlockHeader n w) c =
  BlockHeaderValidator.validateBlockChecksum LIGHT enableCaching storage (to_partial (header_of n w)) c.
Proof.
  unfold BitcoinRPCThread.vmBlockHeader, to_partial, header_of. destruct (previousBlockHash w); reflexivity.
Qed.

Definition stored_root storage n : string :=
  match storage n with Some h => or_else (hd_checksumRoot h) ZERO_HASH | None => ZERO_HASH end.

(** The header this node has at [n], by its checksum: it links to the block
    before, and proves each of its six values against the stored checksum. *)
Definition on_chain storage n w : Prop :=
  checksumHash w = stored_root storage n ∧ complete (header_of n w) ∧
  link_target LIGHT storage n = Ok (previousBlockChecksum w) ∧
  Forall (proves (header_of n w)) (committed (header_of n w) (previousBlockChecksum w)).

Lemma rpc_valid storage c n w :
  storage_heights storage → cache_fresh storage c →
  header_valid (BitcoinRPCThread.validateBlockHeaders LIGHT enableCaching storage c n w) w = true → on_chain storage n w.
Proof.
  intros Hs Hc. unfold BitcoinRPCThread.validateBlockHeaders. rewrite vm_header.
  pose proof (validate_true LIGHT enableCaching storage Hs (header_of n w) c Hc) as Hv.
  pose proof (validate_fresh LIGHT enableCaching storage Hs (to_partial (header_of n w)) c Hc) as [_ Hc'].
  destruct (BlockHeaderValidator.validateBlockChecksum _ _ _ _ c) as [c' r]. cbn [fst snd] in *.
  destruct r as [valid|e]; [|unfold header_valid; cbn; by rewrite andb_false_r].
  destruct (getBlockHeader_fresh (E := header_error) enableCaching storage n c' Hs Hc') as (c2 & -> & _).
  unfold header_valid. cbn [hasValidProofs storedBlockHeader]. intros [Hr ->]%andb_prop. apply bool_decide_eq_true in Hr.
  destruct Hv as [Hv _]. destruct (Hv eq_refl) as (H1 & H2 & _ & H4). split; [by rewrite <- Hr|]. done.
Qed.

(** [storage_at k]: the headers that are stored when [k] events have happened. The
    RPC thread answers with what is stored. *)
Context (storage_at : nat → Z → option BlockHeaderDocument).

Definition answers_ok (l : list event) c : Prop :=
  ∀ pre i v post o n w, l = pre ++ Resume i (Validated v) :: post → fibers (run_ pre (initial c)) !! i = Some (Validating o n w) →
  ∃ cache, cache_fresh (storage_at (length pre)) cache ∧
    v = BitcoinRPCThread.validateBlockHeaders LIGHT enableCaching (storage_at (length pre)) cache n w.

(** A witness that is signed over a header this node had within [m] events. *)
Definition verified (m : nat) n x : Prop :=
  ∃ k w, (k < m)%nat ∧ on_chain (storage_at k) n w ∧ x ∈ validatorWitnesses w ∧
    verifyAcknowledgment (mergeDataAndWitness (generateBlockHeaderChecksumHash w) (ow_timestamp x)) x = true.

Lemma signatures_verified w x :
  x ∈ validateBlockHeaderSignatures w →
  x ∈ validatorWitnesses w ∧
  verifyAcknowledgment (mergeDataAndWitness (generateBlockHeaderChecksumHash w) (ow_timestamp x)) x = true.
Proof.
  unfold validateBlockHeaderSignatures, validateOPNetWitnesses. cbv zeta. intros [Hx Hv]%list_elem_of_In%filter_In. split; [|done].
  apply list_elem_of_In in Hx. case_decide; [|done]. eapply elem_of_sublist; [exact Hx|apply sublist_take].
Qed.

Lemma holds_mono (P Q : Z → OPNetBlockWitness → Prop) s : (∀ n x, P n x → Q n x) → holds P s → holds Q s.
Proof.
  intros H (H1 & H2 & H3). split; [|split; [|done]].
  - intros o n ws Hw. eapply Forall_impl; [by apply (H1 o)|]. intros x. apply H.
  - eapply Forall_impl; [exact H2|]. intros d (x & Hx & Hd). exists x. split; [by apply H|done].
Qed.

Lemma run_verified l c :
  (∀ k, storage_heights (storage_at k)) → answers_ok l c → holds (verified (length l)) (run_ l (initial c)).
Proof.
  intros Hst. induction l as [|e l IH] using rev_ind; intros Hans.
  { split; [by intros o n ws ?%elem_of_nil|]. split; [constructor|apply NoDup_nil_2]. }
  assert (answers_ok l c) as Hl.
  { intros pre i v post o n w -> Hf. apply (Hans pre i v (post ++ [e]) o n w); [by rewrite <- app_assoc|done]. }
  rewrite witness_run_snoc. apply step_holds.
  - eapply holds_mono; [|exact (IH Hl)]. intros n x (k & w & Hk & ?). exists k, w. split; [rewrite length_app; lia|done].
  - intros i o n w v -> Hf Hv. apply Forall_forall. intros x [Hx Hsig]%list_elem_of_In%list_elem_of_In%signatures_verified.
    destruct (Hans l i v [] o n w eq_refl Hf) as (cache & Hc & ->). exists (length l), w.
    split; [rewrite length_app; cbn; lia|]. split; [by apply (rpc_valid _ cache)|done].
Qed.

(** C24: whatever peers send and however the checks interleave, every witness in
    the database is signed by the key its identity is the hash of, over a header
    that this node had stored at that height when it was checked and whose values
    are proved against the stored checksum; a block has one witness of an
    identity. *)
Theorem saved_witnesses_verified l c :
  (∀ k, storage_heights (storage_at k)) → answers_ok l c →
  let s := run_ l (initial c) in
  NoDup (key_of <$> collection s) ∧
  ∀ d, d ∈ collection s → ∃ x, verified (length l) (bw_blockNumber d) x ∧ bw_identity d = ow_identity x ∧
    bw_publicKey d = ow_publicKey x ∧ bw_signature d = ow_signature x ∧ bw_timestamp d = stored_date (ow_timestamp x).
Proof.
  intros Hst Hans s. destruct (run_verified l c Hst Hans) as (_ & Hdocs & Hnd). split; [done|].
  intros d Hd. by eapply Forall_forall in Hdocs.
Qed.
End Headers.
End Trust.

(** ** Examples *)

Module Example.
#[local] Existing Instance string_btclib.
#[local] Existing Instance sum_merkle.

(** A signature is the data with the key; the two keys of a pair are equal. *)
Definition example_sodium : WitnessLib := {|
  sha512 := sum_hash;
  crypto_sign_detached := fun data sk => data ++ sk;
  crypto_sign_verify_detached := fun sig data pk => bool_decide (sig = data ++ pk)
|}.
#[local] Existing Instance example_sodium.

Definition pair_of (k : Z) : OPNetKeyPair := mkKeyPair [k] [k] (sum_hash [k]).
Lemma pair_ok k : key_pair_ok (pair_of k).
Proof. split; [done|]. intros data. cbn. by apply bool_decide_true. Qed.

Definition stored_date (n : Z) : Z := if decide (Z.abs n ≤ 8640000000000000) then n else 0.
Definition run_ := run stored_date mainnet_config nodeConsensus 24 (pair_of 1).
Definition start : BlockWitnessManager.t := initial OPNetConsensus.initial.

(** Header 1 as a peer sends it, with the witness of key [k]; a witness signed
    by another key. *)
Definition message (ws : list OPNetBlockWitness) : IBlockHeaderWitness := header_witness header1 ws.
Definition signed_by (k : Z) : OPNetBlockWitness := acknowledgeData (pair_of k) 1000 (generateBlockHeaderChecksumHash (message [])).
Definition forged (k : Z) : OPNetBlockWitness :=
  mkOPNetWitness (Some (opnetAddress (pair_of k))) (Some [k]) (ow_signature (signed_by 9)) 1000.
Definition rpc (w : IBlockHeaderWitness) : ValidatedBlockHeader :=
  BitcoinRPCThread.validateBlockHeaders false true two_headers [] 1 w.

Definition one_check : list event :=
  [HeightUpdate 1; BlockWitness (message [signed_by 2; forged 3]);
   Resume 0 (Validated (rpc (message [signed_by 2; forged 3]))); Resume 0 (Written [true]); Resume 0 (Clock 0)].

(** The one that is signed is saved. *)
Example one_is_saved :
  (collection (run_ one_check start), fibers (run_ one_check start), activeValidations (run_ one_check start)) =
  ([mkWitness 1 (Some (opnetAddress (pair_of 2))) (Some [2]) (ow_signature (signed_by 2)) 1000 []], [], 0).
Proof. vm_compute. reflexivity. Qed.

(** The node's own witness is signed, checked and saved as that of a peer. *)
Definition own_block : list event :=
  [SelfWitness (message []); Resume 0 (Clock 1000); Resume 0 (Validated (rpc (message [])));
   Resume 0 (Written [true]); Resume 0 (Clock 0)].
Example own_witness :
  bw_identity <$> collection (run_ own_block start) = [Some (opnetAddress (pair_of 1))] ∧
  activeSelfProofs (run_ own_block start) = 0 ∧ selfQueueDraining (run_ own_block start) = false.
Proof. vm_compute. done. Qed.

(** Five messages with forged witnesses use up the checks of a block: the witness
    that comes next is dropped. *)
Definition flood (k : Z) : list event :=
  [BlockWitness (message [forged k]); Resume 0 (Validated (rpc (message [forged k]))); Resume 0 (Clock 0)].
Definition flooded : list event := HeightUpdate 1 :: concat (map flood [2; 3; 4; 5; 6]).
Example flood_drops_witnesses :
  let s := run_ (flooded ++ [BlockWitness (message [signed_by 7])]) start in
  (collection s, witnessQueue s, fibers s, validation_count 1 s) = ([], [], [], 5).
Proof. vm_compute. reflexivity. Qed.

(** An early witness is looked at when another one comes at its height; if none
    does, it stays for good. *)
Definition early : list event := [HeightUpdate 0; BlockWitness (message [signed_by 2])].
Example early_witness_stays :
  JsMap.keys (pendingWitnessesVerification (run_ (early ++ [HeightUpdate 1; HeightUpdate 2; BlockWitness (message [signed_by 3]);
    HeightUpdate 100; PurgeTimer]) start)) = [1] ∧
  JsMap.keys (pendingWitnessesVerification (run_ (early ++ [HeightUpdate 1; BlockWitness (message [signed_by 3])]) start)) = [].
Proof. vm_compute. done. Qed.

Lemma one_check_answers : answers_ok stored_date mainnet_config nodeConsensus 24 (pair_of 1) false true (fun _ => two_headers) one_check
  OPNetConsensus.initial.
Proof.
  intros pre i v post o n w Hl Hf. exists []. split; [done|]. unfold one_check in Hl.
  do 2 (destruct pre as [|e pre]; [discriminate Hl|]; injection Hl as <- Hl).
  destruct pre as [|e pre]; [|injection Hl as _ Hl; do 2 (destruct pre as [|? pre]; [discriminate Hl|]; injection Hl as _ Hl);
    destruct pre; discriminate Hl].
  injection Hl as <- <- _. vm_compute in Hf. injection Hf as _ <- <-. vm_compute. reflexivity.
Qed.

Definition saved_document : IBlockWitnessDocument :=
  mkWitness 1 (Some (opnetAddress (pair_of 2))) (Some [2]) (ow_signature (signed_by 2)) 1000 [].

Lemma saved_in : saved_document ∈ collection (run stored_date mainnet_config nodeConsensus 24 (pair_of 1) one_check (initial OPNetConsensus.initial)).
Proof.
  assert (collection (run stored_date mainnet_config nodeConsensus 24 (pair_of 1) one_check (initial OPNetConsensus.initial)) = [saved_document])
    as -> by (vm_compute; reflexivity). left.
Qed.

Lemma saved_witnesses_verified_witness :
  ∃ x, verified false (fun _ => two_headers) (length one_check) (bw_blockNumber saved_document) x ∧ bw_publicKey saved_document = ow_publicKey x.
Proof.
  destruct (saved_witnesses_verified stored_date mainnet_config nodeConsensus 24 (pair_of 1) false true (fun _ => two_headers) one_check
    OPNetConsensus.initial (fun _ => two_headers_heights) one_check_answers) as [_ H].
  destruct (H saved_document saved_in) as (x & Hx & _ & Hk & _). exists x. split; [exact Hx|exact Hk].
Defined.

(** With one check suspended, three answers end it, and the manager is at rest. *)
Definition one_message : list event := [HeightUpdate 1; BlockWitness (message [signed_by 2])].
Definition checked : BlockWitnessManager.t := run_ one_message start.
Definition three_answers : list event :=
  [Resume 0 (Validated (rpc (message [signed_by 2]))); Resume 0 (Written [true]); Resume 0 (Clock 0)].
Definition rested : BlockWitnessManager.t := run_ three_answers checked.

Lemma three_answers_accepted : all_answers stored_date mainnet_config nodeConsensus 24 (pair_of 1) three_answers checked = true.
Proof. vm_compute. reflexivity. Qed.

Lemma rested_nothing : ∀ i a, ¬ enabled stored_date mainnet_config nodeConsensus 24 (pair_of 1) i a rested.
Proof.
  assert (fibers rested = []) as Hf by (vm_compute; reflexivity). intros i a (f & s' & Hi & _). by rewrite Hf in Hi.
Qed.

Lemma manager_comes_to_rest_witness : 3 ≤ work checked ∧ witnessQueue rested = [] ∧ activeValidations rested = 0.
Proof.
  destruct (manager_comes_to_rest stored_date mainnet_config nodeConsensus 24 (pair_of 1) one_message OPNetConsensus.initial
    3 rested (all_answers_answered stored_date mainnet_config nodeConsensus 24 (pair_of 1) three_answers checked three_answers_accepted)) as [Hk Hr].
  destruct (Hr rested_nothing) as (_ & Hq & Ha & _). split; [exact Hk|]. split; [exact Hq|exact Ha].
Defined.
End Example.
