(* ===== verification/PeerProtocol.v ===== *)
(** * What two peers send each other
    (poc/networking/protobuf, encryptem, server/protocol/OPNetProtocolV1.ts,
    enums/DisconnectionCode.ts, poc/configurations/P2PVersion.ts, the challenges of
    encryptem/KeyPairGenerator.ts)

    Packets and their opcodes, the table of the packets a phase accepts, and the
    encryption of both sides. sodium and protobufjs are classes; the keys, the
    challenges and the nonces they draw are arguments. *)

From S2P Require Import Prelude ConsensusRules Consensus HeaderValidator Epochs EpochManager WitnessManager.

(** ** Disconnection codes and opcodes *)

Inductive DisconnectionCode : Type :=
| RECONNECT | BAD_PROTOCOL | BAD_VERSION | BAD_BEHAVIOR | BAD_IDENTITY | BAD_CHECKSUM | BAD_SIGNATURE | AUTH_TIMED_OUT
| BAD_ENCRYPTION | BAD_PACKET | BAD_PEER | BAD_AUTH_CIPHER | UNABLE_TO_AUTHENTICATE | BAD_PROTOCOL_CHECKSUM
| BAD_NETWORK | BAD_CHAIN_ID | BAD_CHALLENGE | FLOOD | INVALID_CHAIN | UNREACHABLE | EXPECTED.

#[export] Instance DisconnectionCode_eq : EqDecision DisconnectionCode.
Proof. solve_decision. Defined.

(** CommonPackets, ServerInBound, ServerOutBound *)
Module Opcode.
Definition PONG : Z := 0x00.
Definition BLOCK_HEADER_WITNESS : Z := 0x0b.
Definition BROADCAST_TRANSACTION : Z := 0x0f.
Definition PING : Z := 0x0c.
Definition AUTHENTICATION : Z := 0x0d.
Definition CLIENT_CIPHER_EXCHANGE : Z := 0x0e.
Definition DISCOVER : Z := 0x82.
Definition SYNC_BLOCK_HEADERS_REQUEST : Z := 0x7a.
Definition AUTHENTICATION_STATUS : Z := 0x80.
Definition SERVER_CIPHER_EXCHANGE : Z := 0x81.
Definition DISCOVERY_RESPONSE : Z := 0x83.
Definition SYNC_BLOCK_HEADERS_RESPONSE : Z := 0x10.
End Opcode.

Inductive Packets : Type :=
| PAuthentication | PClientKeyCipherExchange | PServerKeyCipherExchange | PAuthenticationStatus
| PPing | PPong | PDiscover | PDiscoveryResponse | PBlockHeaderWitness | PBroadcastTransaction
| PSyncBlockHeadersRequest | PSyncBlockHeadersResponse.

#[export] Instance Packets_eq : EqDecision Packets.
Proof. solve_decision. Defined.

(** The opcode of each packet class. *)
Definition opcode_of (p : Packets) : Z :=
  match p with
  | PAuthentication => Opcode.AUTHENTICATION
  | PClientKeyCipherExchange => Opcode.CLIENT_CIPHER_EXCHANGE
  | PServerKeyCipherExchange => Opcode.SERVER_CIPHER_EXCHANGE
  | PAuthenticationStatus => Opcode.AUTHENTICATION_STATUS
  | PPing => Opcode.PING
  | PPong => Opcode.PONG
  | PDiscover => Opcode.DISCOVER
  | PDiscoveryResponse => Opcode.DISCOVERY_RESPONSE
  | PBlockHeaderWitness => Opcode.BLOCK_HEADER_WITNESS
  | PBroadcastTransaction => Opcode.BROADCAST_TRANSACTION
  | PSyncBlockHeadersRequest => Opcode.SYNC_BLOCK_HEADERS_REQUEST
  | PSyncBlockHeadersResponse => Opcode.SYNC_BLOCK_HEADERS_RESPONSE
  end.

(** ** The messages of the handshake *)

Record IAuthenticationPacket : Type := mkAuth {
  version : string;
  clientAuthCipher : bytes;
  protocolChecksum : string;
  auth_type : Z;
  network : Z;
  chainId : Z;
  magicNumber : option Z
}.

Inductive OPNetAuthenticationStatus : Type := SUCCESS | ERROR.
#[export] Instance OPNetAuthenticationStatus_eq : EqDecision OPNetAuthenticationStatus.
Proof. solve_decision. Defined.

(** [status] is an enum, which an unknown number may be: [None]. *)
Record IAuthenticationStatusPacket : Type := mkStatus {
  status : option OPNetAuthenticationStatus;
  status_message : string;
  status_challenge : option bytes
}.

Record IClientKeyCipherExchangePacket : Type := mkClientExchange {
  clientKeyCipher : bytes;
  exchange_authCipher : bytes;
  exchange_identity : bytes;
  exchange_challenge : bytes
}.

Record IServerKeyCipherExchangePacket : Type := mkServerExchange {
  serverKeyCipher : bytes;
  serverSigningCipher : bytes;
  encryptionEnabled : bool
}.

(** protobufjs: [encode] is [verify], [create] and [encode]; it fails when verify
    does. The content of the packets of a session is not read here. *)
Class ProtobufLib : Type := {
  Content : Type;
  encode_auth : IAuthenticationPacket → option bytes;
  decode_auth : bytes → option IAuthenticationPacket;
  encode_status : IAuthenticationStatusPacket → option bytes;
  decode_status : bytes → option IAuthenticationStatusPacket;
  encode_client_exchange : IClientKeyCipherExchangePacket → option bytes;
  decode_client_exchange : bytes → option IClientKeyCipherExchangePacket;
  encode_server_exchange : IServerKeyCipherExchangePacket → option bytes;
  decode_server_exchange : bytes → option IServerKeyCipherExchangePacket;
  encode_ping : Z * Z → option bytes;
  decode_ping : bytes → option (Z * Z);
  encode_content : Packets → Content → option bytes;
  decode_content : Packets → bytes → option Content
}.

(** A message that verifies is decoded to itself. *)
Class ProtobufLaws `{ProtobufLib} : Prop := {
  decode_encode_auth m b : encode_auth m = Some b → decode_auth b = Some m;
  encode_auth_total v k c t n ch mg :
    0 ≤ t < 2 ^ 31 → 0 ≤ n < 2 ^ 31 → 0 ≤ ch < 2 ^ 31 → mg = None → is_Some (encode_auth (mkAuth v k c t n ch mg));
  decode_encode_status m b : encode_status m = Some b → decode_status b = Some m;
  encode_status_total st msg c : is_Some (encode_status (mkStatus (Some st) msg c));
  decode_encode_client m b : encode_client_exchange m = Some b → decode_client_exchange b = Some m;
  encode_client_total m : is_Some (encode_client_exchange m);
  decode_encode_server m b : encode_server_exchange m = Some b → decode_server_exchange b = Some m;
  encode_server_total m : is_Some (encode_server_exchange m)
}.

(** [pack]: the opcode, then the message; [None] throws. *)
Definition pack (p : Packets) (encoded : option bytes) : option bytes := (λ b, opcode_of p :: b) <$> encoded.

(** The opcode of an empty message is undefined. *)
Record OPNetPacket : Type := mkPacket { packet_opcode : option Z; packet : bytes }.
Definition to_packet (raw : bytes) : OPNetPacket := mkPacket (head raw) (tail raw).

(** ** The packets of a phase *)

Module OPNetProtocolV1.

(** [useAuthHandshakeProtocol] and [onAuthenticated]; [Destroyed] when the table
    was deleted. *)
Inductive t : Type := Handshake | Session | Destroyed.

Definition commonProtocol (opcode : Z) : option Packets :=
  if decide (opcode = Opcode.PONG) then Some PPong
  else if decide (opcode = Opcode.PING) then Some PPing
  else None.

Definition useAuthHandshakeProtocol (opcode : Z) : option Packets :=
  if decide (opcode = Opcode.AUTHENTICATION) then Some PAuthentication
  else if decide (opcode = Opcode.CLIENT_CIPHER_EXCHANGE) then Some PClientKeyCipherExchange
  else if decide (opcode = Opcode.AUTHENTICATION_STATUS) then Some PAuthenticationStatus
  else if decide (opcode = Opcode.SERVER_CIPHER_EXCHANGE) then Some PServerKeyCipherExchange
  else commonProtocol opcode.

Definition sessionProtocol (opcode : Z) : option Packets :=
  if decide (opcode = Opcode.DISCOVER) then Some PDiscover
  else if decide (opcode = Opcode.DISCOVERY_RESPONSE) then Some PDiscoveryResponse
  else if decide (opcode = Opcode.BLOCK_HEADER_WITNESS) then Some PBlockHeaderWitness
  else if decide (opcode = Opcode.SYNC_BLOCK_HEADERS_REQUEST) then Some PSyncBlockHeadersRequest
  else if decide (opcode = Opcode.SYNC_BLOCK_HEADERS_RESPONSE) then Some PSyncBlockHeadersResponse
  else if decide (opcode = Opcode.BROADCAST_TRANSACTION) then Some PBroadcastTransaction
  else commonProtocol opcode.

(** The packet of an opcode, nothing when the protocol is destroyed. *)
Definition onIncomingPacket (opcode : Z) (p : t) : result string (option Packets) :=
  let found o := match o with Some k => Ok (Some k) | None => Throw "Invalid packet opcode" end in
  match p with
  | Destroyed => Ok None
  | Handshake => found (useAuthHandshakeProtocol opcode)
  | Session => found (sessionProtocol opcode)
  end.

Definition onAuthenticated (_ : t) : t := Session.
Definition destroy (_ : t) : t := Destroyed.
End OPNetProtocolV1.

(** ** Versions *)

Definition P2PVersion : string := "0.0.2".

Definition PROTOCOL_CHECKSUM (v : string) : option string :=
  if decide (v = "0.0.1") then Some "0x00000000"
  else if decide (v = "0.0.2") then Some "0x00000001"
  else None.
