(* ===== verification/Encryptem.v ===== *)
(** * The encryption of two peers
    (poc/networking/encryptem/EncryptemServer.ts, EncryptemClient.ts, the
    challenges of KeyPairGenerator.ts and OPNetIdentity.ts)

    A message is boxed with the keys of a session, signed, and tagged. The keys
    and nonces that are drawn are arguments. What one side encrypts the other
    decrypts, and what a side decrypts is signed by the key it holds. *)

From S2P Require Import Prelude ConsensusRules Consensus HeaderValidator Epochs EpochManager WitnessManager PeerProtocol.

(** sodium-native: [None] where it throws, for arguments of a wrong length.
    [crypto_auth_verify] is false also when it throws. *)
Class SodiumLib `{WitnessLib} : Type := {
  crypto_sign_seed_keypair : bytes → bytes * bytes;
  crypto_box_easy : bytes → bytes → bytes → bytes → option bytes;
  crypto_box_open_easy : bytes → bytes → bytes → bytes → option (option bytes);
  crypto_auth : bytes → bytes → bytes;
  crypto_auth_verify : bytes → bytes → bytes → bool;
  randombytes_buf_deterministic : bytes → option bytes;
  box_keypair : bytes → bytes → Prop     (* what [crypto_box_keypair] may return *)
}.

Definition crypto_auth_BYTES : nat := 32.
Definition crypto_sign_BYTES : nat := 64.
Definition crypto_box_NONCEBYTES : nat := 24.
Definition crypto_box_MACBYTES : nat := 16.

Class SodiumLaws `{SodiumLib} : Prop := {
  box_lengths pk sk : box_keypair pk sk → length pk = 32%nat ∧ length sk = 32%nat;
  box_opens m nonce pkA skA pkB skB :
    box_keypair pkA skA → box_keypair pkB skB → length nonce = crypto_box_NONCEBYTES →
    ∃ c, crypto_box_easy m nonce pkB skA = Some c ∧ length c = (length m + crypto_box_MACBYTES)%nat ∧
         crypto_box_open_easy c nonce pkA skB = Some (Some m);
  seed_lengths seed : length seed = 32%nat →
    length (crypto_sign_seed_keypair seed).1 = 32%nat;
  seed_signs seed m : length seed = 32%nat →
    crypto_sign_verify_detached (crypto_sign_detached m (crypto_sign_seed_keypair seed).2) m (crypto_sign_seed_keypair seed).1 = true;
  sign_length m sk : length (crypto_sign_detached m sk) = crypto_sign_BYTES;
  auth_length m k : length (crypto_auth m k) = crypto_auth_BYTES;
  auth_verifies m k : crypto_auth_verify (crypto_auth m k) m k = true;
  deterministic_key seed : length seed = 32%nat → is_Some (randombytes_buf_deterministic seed)
}.

(** ** The challenges *)

Module Challenge.
Section Challenge.
Context `{WitnessLib}.

Definition hashWithPubKey (pubKey data : bytes) : bytes := sha512 (pubKey ++ data).

Definition identityChallenge (k : OPNetKeyPair) (salt : bytes) : bytes :=
  crypto_sign_detached (hashWithPubKey (kp_publicKey k) salt) (kp_privateKey k).

(** sodium throws for a signature or a key of a wrong length. *)
Definition verifyChallenge (challenge signature pubKey : bytes) : result string bool :=
  if decide (length signature = 64%nat ∧ length pubKey = 32%nat)
  then Ok (crypto_sign_verify_detached signature (hashWithPubKey pubKey challenge) pubKey)
  else Throw "wrong length".
End Challenge.
End Challenge.

(** ** What both sides share *)

Section Shared.
Context `{SodiumLib}.

Definition authenticate (input sender : bytes) : option bytes :=
  k ← randombytes_buf_deterministic sender; Some (crypto_auth input k).

Definition verifyAuth (out input sender : bytes) : bool :=
  match randombytes_buf_deterministic sender with Some k => crypto_auth_verify out input k | None => false end.

(** The three parts of a message. *)
Definition auth_part (msg : bytes) : bytes := take crypto_auth_BYTES msg.
Definition signature_part (msg : bytes) : bytes := take 64 (drop (length (auth_part msg)) msg).
Definition data_part (msg : bytes) : bytes := drop (length (auth_part msg) + 64)%nat msg.
Definition cipher_part (msg : bytes) : bytes := drop crypto_box_NONCEBYTES (data_part msg).

(** [crypto_box_open_easy] fills a zeroed buffer; whether it succeeds is not
    looked at. *)
Definition open_box (data senderPublicKey receiverPrivateKey : bytes) : option bytes :=
  let cipher := drop crypto_box_NONCEBYTES data in
  opened ← crypto_box_open_easy cipher (take crypto_box_NONCEBYTES data) senderPublicKey receiverPrivateKey;
  Some (default (replicate (length cipher - crypto_box_MACBYTES)%nat 0) opened).

(** [#encrypt]: [signMessageV2] signs the box and checks the signature. *)
Definition encrypt_with (nonce m receiverPublicKey senderPrivateKey signPublicKey signPrivateKey : bytes) : result string bytes :=
  match crypto_box_easy m nonce receiverPublicKey senderPrivateKey with
  | None => Throw "sodium"
  | Some cipherMsg =>
      let signedMessage := crypto_sign_detached cipherMsg signPrivateKey in
      if negb (crypto_sign_verify_detached signedMessage cipherMsg signPublicKey) then Throw "Failed to sign message."
      else match authenticate signedMessage signPublicKey with
           | None => Throw "sodium"
           | Some auth => Ok (auth ++ signedMessage ++ nonce ++ cipherMsg)
           end
  end.
End Shared.

(** ** The server *)

Module EncryptemServer.
Section EncryptemServer.
Context `{SodiumLib}.

Record t : Type := mk {
  serverPrivateKey : option bytes;
  serverPublicKey : option bytes;
  serverSignaturePublicKey : option bytes;
  serverSignaturePrivateKey : option bytes;
  clientSignaturePublicKey : option bytes;
  clientPublicKey : option bytes
}.

Definition initial : t := mk None None None None None None.

Definition setClientPublicKey (key : bytes) (e : t) : t :=
  mk (serverPrivateKey e) (serverPublicKey e) (serverSignaturePublicKey e) (serverSignaturePrivateKey e)
    (clientSignaturePublicKey e) (Some key).
Definition setClientSignaturePublicKey (key : bytes) (e : t) : t :=
  mk (serverPrivateKey e) (serverPublicKey e) (serverSignaturePublicKey e) (serverSignaturePrivateKey e)
    (Some key) (clientPublicKey e).

(** [keys] is the pair that [crypto_box_keypair] draws; its private key seeds the
    signing keys. *)
Definition generateServerCipherKeyPair (keys : bytes * bytes) (e : t) : t :=
  let sign := crypto_sign_seed_keypair keys.2 in
  mk (Some keys.2) (Some keys.1) (Some sign.1) (Some sign.2) (clientSignaturePublicKey e) (clientPublicKey e).

Definition encrypt (nonce msg : bytes) (e : t) : result string bytes :=
  match clientPublicKey e, serverPrivateKey e, serverSignaturePublicKey e, serverSignaturePrivateKey e with
  | Some pk, Some sk, Some spk, Some ssk => encrypt_with nonce msg pk sk spk ssk
  | _, _, _, _ => Throw "Encryption failed. Client public key or server private key is null."
  end.

Definition decrypt (msg : bytes) (e : t) : result string (option bytes) :=
  match clientPublicKey e, serverPrivateKey e, clientSignaturePublicKey e with
  | Some pk, Some sk, Some spk =>
      if negb (verifyAuth (auth_part msg) (signature_part msg) spk) then Throw "[Server] Bad AHEAD authentication."
      else if decide (length (data_part msg) < crypto_box_NONCEBYTES + crypto_box_MACBYTES)%nat then Throw "Short message"
      else if decide (length (auth_part msg) ≠ crypto_auth_BYTES) then Throw "Invalid authentication"
      else if decide (length (signature_part msg) ≠ crypto_sign_BYTES) then Throw "Invalid signature"
      else match open_box (data_part msg) pk sk with
           | None => Throw "sodium"
           | Some decryptedMessage =>
               if crypto_sign_verify_detached (signature_part msg) (cipher_part msg) spk
               then Ok (Some decryptedMessage) else Ok None
           end
  | _, _, _ => Throw "Decryption failed. Client public key or server private key is null."
  end.
End EncryptemServer.
End EncryptemServer.

(** ** The client *)

Module EncryptemClient.
Section EncryptemClient.
Context `{SodiumLib}.

Record t : Type := mk {
  clientSecretKey : option bytes;
  clientPublicKey : option bytes;
  clientSignaturePublicKey : option bytes;
  clientSignaturePrivateKey : option bytes;
  serverPublicKey : option bytes;
  serverSignaturePublicKey : option bytes
}.

Definition initial : t := mk None None None None None None.
Definition destroy (_ : t) : t := initial.

Definition setServerPublicKey (key : bytes) (e : t) : t :=
  mk (clientSecretKey e) (clientPublicKey e) (clientSignaturePublicKey e) (clientSignaturePrivateKey e) (Some key)
    (serverSignaturePublicKey e).
Definition setServerSignaturePublicKey (key : bytes) (e : t) : t :=
  mk (clientSecretKey e) (clientPublicKey e) (clientSignaturePublicKey e) (clientSignaturePrivateKey e) (serverPublicKey e)
    (Some key).

(** The signing keys are read from the key of the node: 64 bytes of private key,
    then 32 of public key. *)
Definition generateSignatureSeededKeyPairs (authKey : bytes) : bytes * bytes :=
  (take 32 (drop 64 authKey), take 64 authKey).

Definition generateClientCipherKeyPair (authKey : bytes) (keys : bytes * bytes) (e : t) : t * bool :=
  let sign := generateSignatureSeededKeyPairs authKey in
  (mk (Some keys.2) (Some keys.1) (Some sign.1) (Some sign.2) (serverPublicKey e) None,
   bool_decide (length keys.2 = 32%nat ∧ length keys.1 = 32%nat ∧ length sign.1 = 32%nat ∧ length sign.2 = 64%nat)).

Definition encrypt (nonce msg : bytes) (e : t) : result string bytes :=
  match serverPublicKey e, clientSecretKey e, clientSignaturePublicKey e, clientSignaturePrivateKey e with
  | Some pk, Some sk, Some spk, Some ssk => encrypt_with nonce msg pk sk spk ssk
  | _, _, _, _ => Throw "One of the client key is null."
  end.

Definition decrypt (msg : bytes) (e : t) : result string bytes :=
  match serverPublicKey e, clientSecretKey e, serverSignaturePublicKey e with
  | Some pk, Some sk, Some spk =>
      if decide (length (data_part msg) < crypto_box_NONCEBYTES + crypto_box_MACBYTES)%nat then Throw "Short message"
      else if negb (verifyAuth (auth_part msg) (signature_part msg) spk) then Throw "[Client] Bad AHEAD authentication."
      else match open_box (data_part msg) pk sk with
           | None => Throw "sodium"
           | Some decryptedMessage =>
               if crypto_sign_verify_detached (signature_part msg) (cipher_part msg) spk
               then Ok decryptedMessage else Throw "Invalid signature"
           end
  | _, _, _ => Throw "One of the client key is null."
  end.
End EncryptemClient.
End EncryptemClient.

(** ** Messages *)

Section Messages.
Context `{SodiumLaws}.

Lemma message_parts (auth sig nonce cipher : bytes) :
  length auth = 32%nat → length sig = 64%nat →
  let msg := auth ++ sig ++ nonce ++ cipher in
  auth_part msg = auth ∧ signature_part msg = sig ∧ data_part msg = nonce ++ cipher.
Proof.
  intros Ha Hs msg. assert (auth_part msg = auth) as Ea.
  { unfold auth_part, msg, crypto_auth_BYTES. by rewrite <- Ha, take_app_length. }
  unfold signature_part, data_part. rewrite Ea. split; [done|]. unfold msg.
  rewrite drop_app_length. split; [by rewrite <- Hs, take_app_length|].
  by rewrite <- Hs, <- drop_drop, !drop_app_length.
Qed.

(** What is encrypted has the parts that decryption reads, and opens to the
    message. *)
Lemma encrypted_message nonce m pkA skA pkB skB spk ssk :
  box_keypair pkA skA → box_keypair pkB skB → length nonce = crypto_box_NONCEBYTES → length spk = 32%nat →
  (∀ c, crypto_sign_verify_detached (crypto_sign_detached c ssk) c spk = true) →
  ∃ msg, encrypt_with nonce m pkB skA spk ssk = Ok msg ∧
    verifyAuth (auth_part msg) (signature_part msg) spk = true ∧
    length (auth_part msg) = 32%nat ∧ length (signature_part msg) = 64%nat ∧
    ¬ (length (data_part msg) < crypto_box_NONCEBYTES + crypto_box_MACBYTES)%nat ∧
    open_box (data_part msg) pkA skB = Some m ∧
    crypto_sign_verify_detached (signature_part msg) (cipher_part msg) spk = true.
Proof.
  intros HA HB Hn Hspk Hsign. destruct (box_opens m nonce pkA skA pkB skB HA HB Hn) as (c & Hbox & Hlen & Hopen).
  destruct (deterministic_key spk Hspk) as [k Hk]. set (sig := crypto_sign_detached c ssk).
  exists (crypto_auth sig k ++ sig ++ nonce ++ c). unfold encrypt_with, authenticate. rewrite Hbox. cbv zeta. fold sig.
  rewrite (Hsign c : crypto_sign_verify_detached sig c spk = true), Hk. cbn [negb mbind option_bind]. split; [done|].
  destruct (message_parts (crypto_auth sig k) sig nonce c (auth_length _ _) (sign_length _ _)) as (-> & -> & Hd).
  unfold cipher_part, verifyAuth, open_box. rewrite Hd, Hk, auth_verifies, auth_length. repeat split.
  - apply sign_length.
  - rewrite length_app, Hlen, Hn. lia.
  - rewrite <- Hn, take_app_length, drop_app_length, Hopen. done.
  - by rewrite <- Hn, drop_app_length, (Hsign c : crypto_sign_verify_detached sig c spk = true).
Qed.
End Messages.

Section Signed.
Context `{SodiumLib}.

(** A message signed by [spk]. *)
Definition signed (spk msg : bytes) : Prop :=
  crypto_sign_verify_detached (signature_part msg) (cipher_part msg) spk = true.

Lemma server_decrypts_signed msg m e :
  EncryptemServer.decrypt msg e = Ok (Some m) → ∃ spk, EncryptemServer.clientSignaturePublicKey e = Some spk ∧ signed spk msg.
Proof.
  unfold EncryptemServer.decrypt. repeat case_match; try done. intros _. eexists. by split.
Qed.
End Signed.
