(* ===== verification/PeerServer.v ===== *)
(** * The side that authenticates a peer
    (poc/networking/server/managers/AuthenticationManager.ts, ServerPeerManager.ts,
    server/ServerPeerNetworking.ts, shared/managers, default/AbstractPacketManager.ts)

    A peer sends its signing key, is challenged, answers, and the two sides start
    to encrypt. The calls of onMessage interleave: the state holds the calls that
    are suspended, and one step delivers a message or runs one call from an await
    to the next. *)

From S2P Require Import Prelude ConsensusRules Consensus HeaderValidator Epochs EpochManager WitnessManager PeerProtocol Encryptem.

(** What the managers read of the identity of the node, which is always given. *)
Record SelfIdentity : Type := mkSelf {
  keyPair : OPNetKeyPair;
  authKey : bytes;
  peerType : Z;
  peerNetwork : Z;
  peerChainId : Z
}.

(** What a step draws: a pair of box keys, a challenge, a nonce. *)
Record random : Type := mkRandom { box_keys : bytes * bytes; random_challenge : bytes; random_nonce : bytes }.

(** The managers of a session, in the order they are asked. *)
Inductive handler : Type := PeerManager | BlockWitnessManager_ | MempoolManager.

(** What a step does outside of the manager. *)
Inductive output `{ProtobufLib} : Type :=
| Send (data : bytes)
| Disconnect (code : DisconnectionCode)
| SessionOpened                            (* the session is created and reported *)
| Event (p : Packets) (c : Content)        (* a packet of a session that somebody listens to *)
| Settled (r : option bool).               (* onMessage is done: its value, [None] when it throws *)

(** ** Versions *)

Module Versions.

(** [a\[i\] < b\[i\]]; an undefined part is not less than anything. *)
Definition part_lt (a b : option string) : bool :=
  match a, b with Some a, Some b => string_lt a b | _, _ => false end.

Definition mayAcceptVersion (peerVersion : string) : bool :=
  let peerVersionSplit := split_on "." peerVersion in
  let protocolVersionSplit := split_on "." P2PVersion in
  if negb (bool_decide (peerVersionSplit !! 0%nat = protocolVersionSplit !! 0%nat)) then false
  else if part_lt (peerVersionSplit !! 1%nat) (protocolVersionSplit !! 1%nat) then false
  else true.

(** True when the checksum is to be refused. *)
Definition mayAcceptProtocolChecksum (peerVersion protocolChecksum : string) : bool :=
  match PROTOCOL_CHECKSUM peerVersion with
  | None => false
  | Some requestedVersionChecksum => negb (bool_decide (requestedVersionChecksum = protocolChecksum))
  end.
End Versions.

(** ** The manager *)

Module ServerPeer.
Section ServerPeer.
Context {LB : BtcLib} {LW : @WitnessLib LB} {LS : @SodiumLib LB LW} {LP : ProtobufLib}.
Context (self : SelfIdentity).

(** A suspended call. *)
Inductive fiber : Type :=
| AfterNetwork (k : bytes)                               (* onAuthenticationMessage, verifyNetwork *)
| AfterStatus                                            (* createFullAuthentication, the challenge is sent *)
| AfterKeyCheck (d : IClientKeyCipherExchangePacket)     (* onClientCipherExchangeMessage, the key is checked *)
| AfterChallenge (d : IClientKeyCipherExchangePacket)    (* the answer is checked *)
| AfterHandshake                                         (* sendServerHandshake, the keys are sent *)
| Handshaken                                             (* sendServerHandshake is done *)
| Unmanaged (p : OPNetPacket).                           (* onMessage, onPacket did not know the opcode *)

Record t : Type := mk {
  clientVersion : option string;
  clientIndexerMode : option Z;
  clientNetwork : option Z;
  clientChainId : option Z;
  clientIdentity : option string;
  isAuthenticated : bool;
  passVersionCheck : bool;
  timeoutAuth : bool;               (* the timer runs *)
  identityChallenge : option bytes;
  encryptem : EncryptemServer.t;
  encryptionStarted : bool;
  protocol : OPNetProtocolV1.t;
  networkHandlers : list handler;
  fibers : list fiber
}.

(** The constructor starts the timer. *)
Definition initial : t :=
  mk None None None None None false false true None EncryptemServer.initial false OPNetProtocolV1.Handshake [] [].

Definition set_client version mode network chain (s : t) : t :=
  mk version mode network chain (clientIdentity s) (isAuthenticated s) (passVersionCheck s) (timeoutAuth s)
    (identityChallenge s) (encryptem s) (encryptionStarted s) (protocol s) (networkHandlers s) (fibers s).
Definition set_identity i (s : t) : t :=
  mk (clientVersion s) (clientIndexerMode s) (clientNetwork s) (clientChainId s) i (isAuthenticated s) (passVersionCheck s)
    (timeoutAuth s) (identityChallenge s) (encryptem s) (encryptionStarted s) (protocol s) (networkHandlers s) (fibers s).
Definition set_authenticated b (s : t) : t :=
  mk (clientVersion s) (clientIndexerMode s) (clientNetwork s) (clientChainId s) (clientIdentity s) b (passVersionCheck s)
    (timeoutAuth s) (identityChallenge s) (encryptem s) (encryptionStarted s) (protocol s) (networkHandlers s) (fibers s).
Definition set_passed b (s : t) : t :=
  mk (clientVersion s) (clientIndexerMode s) (clientNetwork s) (clientChainId s) (clientIdentity s) (isAuthenticated s) b
    (timeoutAuth s) (identityChallenge s) (encryptem s) (encryptionStarted s) (protocol s) (networkHandlers s) (fibers s).
Definition set_timeout b (s : t) : t :=
  mk (clientVersion s) (clientIndexerMode s) (clientNetwork s) (clientChainId s) (clientIdentity s) (isAuthenticated s)
    (passVersionCheck s) b (identityChallenge s) (encryptem s) (encryptionStarted s) (protocol s) (networkHandlers s) (fibers s).
Definition set_challenge c (s : t) : t :=
  mk (clientVersion s) (clientIndexerMode s) (clientNetwork s) (clientChainId s) (clientIdentity s) (isAuthenticated s)
    (passVersionCheck s) (timeoutAuth s) c (encryptem s) (encryptionStarted s) (protocol s) (networkHandlers s) (fibers s).
Definition set_encryptem e (s : t) : t :=
  mk (clientVersion s) (clientIndexerMode s) (clientNetwork s) (clientChainId s) (clientIdentity s) (isAuthenticated s)
    (passVersionCheck s) (timeoutAuth s) (identityChallenge s) e (encryptionStarted s) (protocol s) (networkHandlers s) (fibers s).
Definition set_started b (s : t) : t :=
  mk (clientVersion s) (clientIndexerMode s) (clientNetwork s) (clientChainId s) (clientIdentity s) (isAuthenticated s)
    (passVersionCheck s) (timeoutAuth s) (identityChallenge s) (encryptem s) b (protocol s) (networkHandlers s) (fibers s).
Definition set_session p hs (s : t) : t :=
  mk (clientVersion s) (clientIndexerMode s) (clientNetwork s) (clientChainId s) (clientIdentity s) (isAuthenticated s)
    (passVersionCheck s) (timeoutAuth s) (identityChallenge s) (encryptem s) (encryptionStarted s) p hs (fibers s).
Definition set_fibers fs (s : t) : t :=
  mk (clientVersion s) (clientIndexerMode s) (clientNetwork s) (clientChainId s) (clientIdentity s) (isAuthenticated s)
    (passVersionCheck s) (timeoutAuth s) (identityChallenge s) (encryptem s) (encryptionStarted s) (protocol s)
    (networkHandlers s) fs.

Definition suspend (f : fiber) (s : t) : t := set_fibers (fibers s ++ [f]) s.

(** [sendMsg]: what throws is swallowed. *)
Definition sendMsg (nonce data : bytes) (s : t) : list output :=
  if encryptionStarted s then
    match EncryptemServer.encrypt nonce data (encryptem s) with Ok buffer => [Send buffer] | Throw _ => [] end
  else [Send data].

Definition decrypt (raw : bytes) (s : t) : result string bytes :=
  if encryptionStarted s then
    match EncryptemServer.decrypt raw (encryptem s) with
    | Ok (Some raw) => Ok raw
    | Ok None => Throw "Unable to decrypt incoming message."
    | Throw e => Throw e
    end
  else Ok raw.

(** A call that is done, and one that throws. *)
Definition returns (b : bool) (s : t) (os : list output) : t * list output := (s, os ++ [Settled (Some b)]).
Definition throws (s : t) (os : list output) : t * list output := (s, os ++ [Settled None]).

(** [onIncomingPacket] and [unpack] of a packet; a packet that is not found ends
    the call. *)
Definition unpacked {A} (p : OPNetPacket) (decode : bytes → option A) (s : t) (k : A → t * list output) : t * list output :=
  match OPNetProtocolV1.onIncomingPacket (default 0 (packet_opcode p)) (protocol s) with
  | Throw _ => throws s []
  | Ok None => returns true s []
  | Ok (Some _) => match decode (packet p) with None => throws s [] | Some d => k d end
  end.

Definition sendAuthenticationStatusPacket (nonce : bytes) (status : IAuthenticationStatusPacket) (s : t)
  : option (list output) :=
  match pack PAuthenticationStatus (encode_status status) with
  | None => None
  | Some data => Some (sendMsg nonce data s)
  end.

Definition createAuthenticationFailureMessage (nonce : bytes) (message : string) (s : t) : option (list output) :=
  sendAuthenticationStatusPacket nonce (mkStatus (Some ERROR) message None) s.

(** [verifyNetwork] disconnects, and its caller goes on. *)
Definition verifyNetwork (s : t) : list output :=
  if negb (bool_decide (Some (peerNetwork self) = clientNetwork s)) then [Disconnect BAD_NETWORK]
  else if negb (bool_decide (Some (peerChainId self) = clientChainId s)) then [Disconnect BAD_CHAIN_ID]
  else [].

Definition onAuthenticationMessage (r : random) (p : OPNetPacket) (s : t) : t * list output :=
  if passVersionCheck s then returns true s [Disconnect BAD_VERSION]
  else unpacked p decode_auth s (fun d =>
    if negb (Versions.mayAcceptVersion (version d)) then returns true s [Disconnect BAD_VERSION]
    else if Versions.mayAcceptProtocolChecksum (version d) (protocolChecksum d)
    then returns true s [Disconnect BAD_PROTOCOL_CHECKSUM]
    else if decide (length (clientAuthCipher d) = 0%nat) then
      match createAuthenticationFailureMessage (random_nonce r) "Invalid client authentication cipher." s with
      | Some os => returns true s os
      | None => throws s []
      end
    else if decide (length (clientAuthCipher d) ≠ 32%nat) then returns true s [Disconnect BAD_AUTH_CIPHER]
    else
      let s := set_client (Some (version d)) (Some (auth_type d)) (Some (network d)) (Some (chainId d)) s in
      (suspend (AfterNetwork (clientAuthCipher d)) s, verifyNetwork s)).

(** [generateChallenge] throws when there is one. *)
Definition generateChallenge (challenge : bytes) (s : t) : option t :=
  match identityChallenge s with Some _ => None | None => Some (set_challenge (Some challenge) s) end.

Definition createFullAuthentication (r : random) (s : t) : t * list output :=
  if encryptionStarted s then returns true s [Disconnect BAD_ENCRYPTION]
  else
    let s := set_encryptem (EncryptemServer.generateServerCipherKeyPair (box_keys r) (encryptem s)) s in
    match generateChallenge (random_challenge r) s with
    | None => throws s []
    | Some s =>
        match sendAuthenticationStatusPacket (random_nonce r) (mkStatus (Some SUCCESS) "Pre auth valid." (identityChallenge s)) s with
        | None => throws s []
        | Some os => (suspend AfterStatus s, os)
        end
    end.

Definition onPassedVersionCheck (r : random) (s : t) : t * list output := createFullAuthentication r (set_passed true s).

Definition verifySignaturePublicKey (k : bytes) (s : t) : bool :=
  match EncryptemServer.clientSignaturePublicKey (encryptem s) with
  | None => false
  | Some k' => bool_decide (k' = k)
  end.

Definition onClientCipherExchangeMessage (p : OPNetPacket) (s : t) : t * list output :=
  unpacked p decode_client_exchange s (fun d =>
    if decide (length (exchange_identity d) ≠ 64%nat) then returns true s [Disconnect BAD_IDENTITY]
    else if negb (verifySignaturePublicKey (exchange_authCipher d) s) then returns true s [Disconnect BAD_AUTH_CIPHER]
    else (suspend (AfterKeyCheck d) s, [])).

Definition verifyChallenge (d : IClientKeyCipherExchangePacket) (s : t) : t * list output :=
  match identityChallenge s with
  | None => throws s []
  | Some challenge =>
      match Challenge.verifyChallenge challenge (exchange_challenge d) (exchange_authCipher d) with
      | Throw _ => throws s []
      | Ok false => returns true s [Disconnect BAD_CHALLENGE]
      | Ok true => (suspend (AfterChallenge d) s, [])
      end
  end.

Definition sendServerHandshake (r : random) (s : t) : t * list output :=
  if encryptionStarted s then (suspend Handshaken s, [Disconnect BAD_ENCRYPTION])
  else match EncryptemServer.serverPublicKey (encryptem s), EncryptemServer.serverSignaturePublicKey (encryptem s) with
       | Some serverKey, Some serverSigningCipher =>
           match pack PServerKeyCipherExchange (encode_server_exchange (mkServerExchange serverKey serverSigningCipher true)) with
           | None => throws s []
           | Some data => (suspend AfterHandshake s, sendMsg (random_nonce r) data s)
           end
       | _, _ => (suspend Handshaken s, [Disconnect BAD_PACKET])
       end.

(** The end of [onClientCipherExchangeMessage], up to its last await. *)
Definition onChallengeAnswered (r : random) (d : IClientKeyCipherExchangePacket) (s : t) : t * list output :=
  let s := set_identity (Some (toHex (exchange_identity d))) s in
  sendServerHandshake r (set_encryptem (EncryptemServer.setClientPublicKey (clientKeyCipher d) (encryptem s)) s).

(** The session: [createSession] adds the three managers and reports it. *)
Definition onAuthenticated (s : t) : t * list output :=
  let s := set_authenticated true s in
  (set_session (OPNetProtocolV1.onAuthenticated (protocol s))
     (networkHandlers s ++ [PeerManager; BlockWitnessManager_; MempoolManager]) s, [SessionOpened]).

Definition onPingMessage (r : random) (p : OPNetPacket) (s : t) : t * list output :=
  unpacked p decode_ping s (fun d =>
    match pack PPong (encode_ping d) with
    | None => throws s []
    | Some data => returns true s (sendMsg (random_nonce r) data s)
    end).

(** The packets a manager knows, and whether somebody listens to their event. *)
Definition handles (h : handler) (opcode : Z) : option (Packets * bool) :=
  match h with
  | PeerManager => if decide (opcode = Opcode.DISCOVER) then Some (PDiscover, true) else None
  | BlockWitnessManager_ =>
      if decide (opcode = Opcode.BLOCK_HEADER_WITNESS) then Some (PBlockHeaderWitness, false)
      else if decide (opcode = Opcode.SYNC_BLOCK_HEADERS_RESPONSE) then Some (PSyncBlockHeadersResponse, true)
      else if decide (opcode = Opcode.SYNC_BLOCK_HEADERS_REQUEST) then Some (PSyncBlockHeadersRequest, false)
      else None
  | MempoolManager => if decide (opcode = Opcode.BROADCAST_TRANSACTION) then Some (PBroadcastTransaction, true) else None
  end.

(** The first manager that knows the opcode handles the packet. *)
Fixpoint handle (hs : list handler) (p : OPNetPacket) (s : t) : t * list output :=
  match hs with
  | [] => returns false s []
  | h :: hs =>
      match packet_opcode p ≫= handles h with
      | None => handle hs p s
      | Some (k, b) =>
          unpacked p (decode_content k) s (fun c => returns true s (if (b : bool) then [Event k c] else []))
      end
  end.

Definition onPacket (r : random) (p : OPNetPacket) (s : t) : t * list output :=
  match packet_opcode p with
  | None => (suspend (Unmanaged p) s, [])
  | Some opcode =>
      if decide (opcode = Opcode.AUTHENTICATION) then onAuthenticationMessage r p s
      else if decide (opcode = Opcode.CLIENT_CIPHER_EXCHANGE) then onClientCipherExchangeMessage p s
      else if decide (opcode = Opcode.PING) then onPingMessage r p s
      else (suspend (Unmanaged p) s, [])
  end.

Definition onMessage (r : random) (rawBuf : bytes) (s : t) : t * list output :=
  match decrypt rawBuf s with
  | Throw _ => throws s []
  | Ok raw => onPacket r (to_packet raw) s
  end.

(** One suspended call goes on. *)
Definition resume (r : random) (f : fiber) (s : t) : t * list output :=
  match f with
  | AfterNetwork k =>
      onPassedVersionCheck r (set_encryptem (EncryptemServer.setClientSignaturePublicKey k (encryptem s)) s)
  | AfterStatus => returns true (set_timeout false s) []
  | AfterKeyCheck d => verifyChallenge d s
  | AfterChallenge d => onChallengeAnswered r d s
  | AfterHandshake => let '(s, os) := onAuthenticated (set_started true s) in (suspend Handshaken s, os)
  | Handshaken => returns true (set_authenticated true s) []
  | Unmanaged p => if isAuthenticated s then handle (networkHandlers s) p s else returns false s []
  end.

Inductive event : Type :=
| Receive (r : random) (rawBuf : bytes)
| Resume (r : random) (i : nat)
| AuthTimeout                              (* the timer of createTimeoutAuth fires *)
| SendPacket (r : random) (data : bytes).  (* sendPacket, and the answers of the managers *)

Definition step (e : event) (s : t) : t * list output :=
  match e with
  | Receive r raw => onMessage r raw s
  | Resume r i =>
      match fibers s !! i with
      | Some f => resume r f (set_fibers (delete i (fibers s)) s)
      | None => (s, [])
      end
  | AuthTimeout => if timeoutAuth s then (set_timeout false s, [Disconnect AUTH_TIMED_OUT]) else (s, [])
  | SendPacket r data => (s, sendMsg (random_nonce r) data s)
  end.

Fixpoint run (l : list event) (s : t) : t * list output :=
  match l with
  | [] => (s, [])
  | e :: l => let '(s, os) := step e s in let '(s, os') := run l s in (s, os ++ os')
  end.
End ServerPeer.
End ServerPeer.
