(* ===== verification/PeerServerFacts.v ===== *)
(** * What an authenticated session means

    However the messages of a peer interleave with the calls they start, a
    session is opened only for a peer that answered the challenge of this
    connection with the key it had presented, and what is handled in it was
    signed with a key the peer presented. *)

From S2P Require Import Prelude ConsensusRules Consensus HeaderValidator Epochs EpochManager WitnessManager PeerProtocol Encryptem PeerServer.
Import ServerPeer.

Section Facts.
Context {LB : BtcLib} {LW : @WitnessLib LB} {LS : @SodiumLib LB LW} {LP : ProtobufLib}.
Context (self : SelfIdentity).
Implicit Types (s : ServerPeer.t) (l : list event) (k raw : bytes) (os : list output).

Abbreviation run_ := (run self).
Abbreviation step_ := (step self).

Lemma run_app l l' s :
  run_ (l ++ l') s = (let '(s1, os) := run_ l s in let '(s2, os') := run_ l' s1 in (s2, os ++ os')).
Proof.
  revert s. induction l as [|e l IH]; intros s; cbn; [by destruct (run_ l' s)|].
  destruct (step_ e s) as [s1 os1]. rewrite IH. destruct (run_ l s1) as [s2 os2], (run_ l' s2). by rewrite app_assoc.
Qed.

(** ** What the peer did *)

(** It presented the key [k] in a message of an accepted version and checksum. *)
Definition presented l k : Prop :=
  ∃ r payload d, Receive r (Opcode.AUTHENTICATION :: payload) ∈ l ∧ decode_auth payload = Some d ∧
    clientAuthCipher d = k ∧ length k = 32%nat ∧
    Versions.mayAcceptVersion (version d) = true ∧
    Versions.mayAcceptProtocolChecksum (version d) (protocolChecksum d) = false.

(** It sent [d] in the clear. *)
Definition exchanged l (d : IClientKeyCipherExchangePacket) : Prop :=
  ∃ r payload, Receive r (Opcode.CLIENT_CIPHER_EXCHANGE :: payload) ∈ l ∧ decode_client_exchange payload = Some d ∧
    length (exchange_identity d) = 64%nat.

(** The challenge was drawn in [l], and [P] holds of what came after. *)
Definition after_challenge l (challenge : bytes) (P : list event → Prop) : Prop :=
  ∃ pre r i post, l = pre ++ Resume r i :: post ∧ random_challenge r = challenge ∧ P post.

Definition answers (challenge : bytes) (d : IClientKeyCipherExchangePacket) : Prop :=
  Challenge.verifyChallenge challenge (exchange_challenge d) (exchange_authCipher d) = Ok true.

(** After a challenge was drawn for it, it answered with a key it presented. *)
Definition authenticated l : Prop :=
  ∃ challenge d, after_challenge l challenge (λ post, exchanged post d) ∧ presented l (exchange_authCipher d) ∧ answers challenge d.

(** The packet that a message was taken for: the message itself before the
    encryption starts, then what decrypts with a key the peer presented. *)
Definition accepted (pre : list event) raw (p : OPNetPacket) : Prop :=
  let s := (run_ pre initial).1 in
  if encryptionStarted s
  then ∃ k m, presented pre k ∧ signed k raw ∧ EncryptemServer.decrypt raw (encryptem s) = Ok (Some m) ∧ to_packet m = p
  else to_packet raw = p.

Definition received l (p : OPNetPacket) : Prop :=
  ∃ pre r raw post, l = pre ++ Receive r raw :: post ∧ accepted pre raw p.

Definition out_ok l (o : output) : Prop :=
  match o with
  | SessionOpened => authenticated l
  | Event p c => authenticated l ∧ ∃ payload, received l (mkPacket (Some (opcode_of p)) payload) ∧ decode_content p payload = Some c
  | _ => True
  end.

Lemma presented_app l l' k : presented l k → presented (l ++ l') k.
Proof. intros (r & b & d & H & ?). exists r, b, d. split; [by apply elem_of_app; left|done]. Qed.

Lemma after_challenge_app l l' ch (P Q : list event → Prop) :
  (∀ post, P post → Q (post ++ l')) → after_challenge l ch P → after_challenge (l ++ l') ch Q.
Proof.
  intros HPQ (pre & r & i & post & -> & H & HP). exists pre, r, i, (post ++ l').
  split; [by rewrite <- app_assoc|]. split; [done|by apply HPQ].
Qed.

Lemma exchanged_app l l' d : exchanged l d → exchanged (l ++ l') d.
Proof. intros (r & b & H & ?). exists r, b. split; [by apply elem_of_app; left|done]. Qed.

Lemma authenticated_app l l' : authenticated l → authenticated (l ++ l').
Proof.
  intros (ch & d & Ha & Hp & Hd). exists ch, d. split; [|split; [by apply presented_app|done]].
  eapply after_challenge_app; [|exact Ha]. intros post. apply exchanged_app.
Qed.

Lemma received_app l l' p : received l p → received (l ++ l') p.
Proof. intros (pre & r & raw & post & -> & H). exists pre, r, raw, (post ++ l'). split; [by rewrite <- app_assoc|done]. Qed.

Lemma out_ok_app l l' o : out_ok l o → out_ok (l ++ l') o.
Proof.
  destruct o; cbn; [done|done|apply authenticated_app| |done].
  intros [Ha (payload & Hr & Hd)]. split; [by apply authenticated_app|]. exists payload. split; [by apply received_app|done].
Qed.

(** ** The invariant *)

Definition fiber_ok l s (f : fiber) : Prop :=
  match f with
  | AfterNetwork k => presented l k
  | AfterStatus => True
  | AfterKeyCheck d | AfterChallenge d =>
      presented l (exchange_authCipher d) ∧
      ∃ ch, identityChallenge s = Some ch ∧ after_challenge l ch (λ post, exchanged post d) ∧
            match f with AfterChallenge _ => answers ch d | _ => True end
  | AfterHandshake => authenticated l ∧ is_Some (identityChallenge s)
  | Handshaken => authenticated l
  | Unmanaged p => received l p
  end.

Record inv l s : Prop := {
  inv_key k : EncryptemServer.clientSignaturePublicKey (encryptem s) = Some k → presented l k ∧ is_Some (identityChallenge s);
  inv_challenge ch : identityChallenge s = Some ch → passVersionCheck s = true ∧ after_challenge l ch (λ _, True);
  inv_started : encryptionStarted s = true → protocol s = OPNetProtocolV1.Session ∧ is_Some (identityChallenge s);
  inv_auth : isAuthenticated s = true → authenticated l;
  inv_fibers f : f ∈ fibers s → fiber_ok l s f
}.

Definition ok l (so : ServerPeer.t * list output) : Prop := inv l so.1 ∧ Forall (out_ok l) so.2.

Lemma initial_inv : inv [] initial.
Proof. split; cbn; try done. intros f Hf. by apply elem_of_nil in Hf. Qed.

Lemma fiber_ok_app l l' s f : fiber_ok l s f → fiber_ok (l ++ l') s f.
Proof.
  destruct f; cbn; auto using presented_app, authenticated_app, received_app;
    [..|intros []; split; auto using authenticated_app];
    intros (Hp & ch & Hc & Ha & Hd); (split; [by apply presented_app|]); exists ch; (split; [done|]);
    (split; [|done]); (eapply after_challenge_app; [|exact Ha]); intros post; apply exchanged_app.
Qed.

Lemma inv_app l l' s : inv l s → inv (l ++ l') s.
Proof.
  intros []. split; auto using authenticated_app, fiber_ok_app.
  - intros k Hk. destruct (inv_key0 k Hk). split; [by apply presented_app|done].
  - intros ch Hch. destruct (inv_challenge0 ch Hch) as [? Ha]. split; [done|]. by eapply after_challenge_app; [|exact Ha].
Qed.

(** A fiber stays right while the challenge is the same. *)
Lemma fiber_ok_challenge l s s' f : (∀ ch, identityChallenge s = Some ch → identityChallenge s' = Some ch) → fiber_ok l s f → fiber_ok l s' f.
Proof. intros Hch. destruct f; cbn; auto; [..|by intros [Ha [ch Hc]]; split; [done|exists ch; auto]];
  intros (Hp & ch & Hc & ?); (split; [done|]); exists ch; auto. Qed.

Lemma sends_ok l nonce data s : Forall (out_ok l) (sendMsg nonce data s).
Proof. unfold sendMsg. repeat case_match; by repeat constructor. Qed.

Lemma returns_ok l b s os : inv l s → Forall (out_ok l) os → ok l (returns b s os).
Proof. intros Hs Hos. split; [done|]. apply Forall_app. split; [done|]. by repeat constructor. Qed.

Lemma throws_ok l s os : inv l s → Forall (out_ok l) os → ok l (throws s os).
Proof. intros Hs Hos. split; [done|]. apply Forall_app. split; [done|]. by repeat constructor. Qed.

Lemma suspend_ok l f s os : inv l s → fiber_ok l s f → Forall (out_ok l) os → ok l (suspend f s, os).
Proof.
  intros [] Hf Hos. split; [|done]. split; cbn; auto. intros g [Hg|Hg]%elem_of_app.
  - eapply fiber_ok_challenge; [|by apply inv_fibers0]. done.
  - apply list_elem_of_singleton in Hg as ->. by eapply fiber_ok_challenge; [|exact Hf].
Qed.

Lemma take_fiber l s i : inv l s → inv l (set_fibers (delete i (fibers s)) s).
Proof.
  intros []. split; cbn; auto. intros f Hf. eapply fiber_ok_challenge; [|apply inv_fibers0]; [done|].
  eapply elem_of_sublist; [exact Hf|apply sublist_delete].
Qed.

Lemma unpacked_ok {A} l p (decode : bytes → option A) s (c : A → ServerPeer.t * list output) :
  inv l s → (∀ d, decode (packet p) = Some d → ok l (c d)) → ok l (unpacked p decode s c).
Proof.
  intros Hs Hc. unfold unpacked. destruct (OPNetProtocolV1.onIncomingPacket _ _) as [[q|]|e];
    [|by apply returns_ok|by apply throws_ok]. destruct (decode (packet p)) as [d|] eqn:Hd; [by apply Hc|by apply throws_ok].
Qed.

Ltac outs := repeat constructor.

(** ** Messages *)

Lemma authentication_ok l r0 r payload s :
  inv l s → encryptionStarted s = false → Receive r0 (Opcode.AUTHENTICATION :: payload) ∈ l →
  ok l (onAuthenticationMessage self r (mkPacket (Some Opcode.AUTHENTICATION) payload) s).
Proof.
  intros Hs He Hl. unfold onAuthenticationMessage. destruct (passVersionCheck s); [by apply returns_ok; [|outs]|].
  apply unpacked_ok; [done|]. cbn. intros d Hd.
  destruct (Versions.mayAcceptVersion (version d)) eqn:Hv; [|by apply returns_ok; [|outs]]. cbn [negb].
  destruct (Versions.mayAcceptProtocolChecksum _ _) eqn:Hc; [by apply returns_ok; [|outs]|].
  case_decide as H0.
  - unfold createAuthenticationFailureMessage, sendAuthenticationStatusPacket.
    destruct (pack _ _); [apply returns_ok; auto using sends_ok|by apply throws_ok].
  - case_decide as H1; [by apply returns_ok; [|outs]|]. apply suspend_ok.
    + destruct Hs. split; cbn; auto.
    + cbn. exists r0, payload, d. split; [done|]. split; [done|]. split; [done|]. split; [lia|done].
    + unfold verifyNetwork. repeat case_match; outs.
Qed.

Lemma exchange_ok l e r0 payload s :
  inv l s → e = Receive r0 (Opcode.CLIENT_CIPHER_EXCHANGE :: payload) → encryptionStarted s = false →
  ok (l ++ [e]) (onClientCipherExchangeMessage (mkPacket (Some Opcode.CLIENT_CIPHER_EXCHANGE) payload) s).
Proof.
  intros Hs -> He. unfold onClientCipherExchangeMessage. pose proof (inv_app _ [Receive r0 (Opcode.CLIENT_CIPHER_EXCHANGE :: payload)] _ Hs) as Hs'.
  apply unpacked_ok; [done|]. cbn. intros d Hd. case_decide as Hi; [by apply returns_ok; [|outs]|].
  unfold verifySignaturePublicKey. destruct (EncryptemServer.clientSignaturePublicKey (encryptem s)) as [k|] eqn:Hk; [|by apply returns_ok; [|outs]].
  case_bool_decide as Hkd; [|by apply returns_ok; [|outs]]. subst k. cbn [negb]. apply suspend_ok; [done| |outs].
  destruct (inv_key _ _ Hs _ Hk) as [Hp [ch Hch]]. cbn. split; [by apply presented_app|]. exists ch. split; [done|]. split; [|done].
  destruct (inv_challenge _ _ Hs _ Hch) as [_ Ha]. eapply after_challenge_app; [|exact Ha]. intros post _.
  exists r0, payload. split; [apply elem_of_app; right; by left|]. split; [done|]. lia.
Qed.

Lemma handles_opcode h opcode p b : handles h opcode = Some (p, b) → opcode = opcode_of p.
Proof. unfold handles. intros. repeat case_match; by simplify_eq/=. Qed.

Lemma handle_ok l hs p s : inv l s → authenticated l → received l p → ok l (handle hs p s).
Proof.
  intros Hs Ha Hr. induction hs as [|h hs IH]; cbn; [by apply returns_ok|].
  destruct (packet_opcode p ≫= handles h) as [[q b]|] eqn:Hh; [|done]. destruct p as [[opcode|] payload]; [|done]. cbn in Hh.
  apply handles_opcode in Hh as ->. apply unpacked_ok; [done|]. intros c Hc. apply returns_ok; [done|].
  destruct b; [|outs]. constructor; [|outs]. cbn. split; [done|]. by exists payload.
Qed.

(** ** Calls that go on *)

Lemma after_network_ok l r i k s :
  inv l s → presented l k → ok (l ++ [Resume r i]) (resume r (AfterNetwork k) s).
Proof.
  intros Hs Hk. cbn. unfold onPassedVersionCheck, createFullAuthentication. cbn [set_passed set_encryptem encryptionStarted].
  pose proof (inv_app _ [Resume r i] _ Hs) as [Hs1 Hs2 Hs3 Hs4 Hs5].
  assert (after_challenge (l ++ [Resume r i]) (random_challenge r) (λ _, True)) as Hdraw by by exists l, r, i, [].
  assert (presented (l ++ [Resume r i]) k) as Hk' by by apply presented_app.
  destruct (encryptionStarted s) eqn:He.
  { destruct (Hs3 eq_refl) as [Hses Hch]. apply returns_ok; [|outs]. split; cbn; [|by intros ch Hc; split; [|by apply Hs2]|done..].
    by intros k' [= <-]. }
  unfold generateChallenge. cbn [identityChallenge set_encryptem set_passed].
  destruct (identityChallenge s) as [ch|] eqn:Hch.
  - apply throws_ok; [|outs]. split; cbn; [| |congruence|done|].
    + intros k' [= <-]. by rewrite Hch.
    + intros c Hc. split; [done|]. by apply Hs2; rewrite <- Hch.
    + intros f Hf. eapply fiber_ok_challenge; [|by apply Hs5]. done.
  - set (s' := set_challenge _ _).
    assert (inv (l ++ [Resume r i]) s') as Hs'.
    { split; cbn; [| |congruence|done|].
      - intros k' [= <-]. by split.
      - intros c [= <-]. by split.
      - intros f Hf. eapply fiber_ok_challenge; [|by apply Hs5]. intros c Hc. congruence. }
    unfold sendAuthenticationStatusPacket. destruct (pack _ _); [|by apply throws_ok]. apply suspend_ok; auto using sends_ok.
    exact I.
Qed.

Lemma after_key_check_ok l d s : inv l s → fiber_ok l s (AfterKeyCheck d) → ok l (verifyChallenge d s).
Proof.
  intros Hs (Hp & ch & Hch & Ha & _). unfold verifyChallenge. rewrite Hch.
  destruct (Challenge.verifyChallenge _ _ _) as [[|]|] eqn:Hv; [|by apply returns_ok; [|outs]|by apply throws_ok].
  apply suspend_ok; [done| |outs]. split; [done|]. by exists ch.
Qed.

Lemma after_challenge_ok l r d s : inv l s → fiber_ok l s (AfterChallenge d) → ok l (onChallengeAnswered r d s).
Proof.
  intros Hs (Hp & ch & Hch & Ha & Hd). unfold onChallengeAnswered, sendServerHandshake. cbn [encryptionStarted set_encryptem set_identity].
  assert (authenticated l) as Hauth by by exists ch, d.
  set (s' := set_encryptem _ _). assert (inv l s') as Hs' by (destruct Hs; by split).
  destruct (encryptionStarted s); [apply suspend_ok; [done..|outs]|].
  case_match; [|by apply suspend_ok; [done..|outs]]. case_match; [|by apply suspend_ok; [done..|outs]].
  destruct (pack _ _); [|by apply throws_ok]. apply suspend_ok; [done| |apply sends_ok]. by split; [|exists ch].
Qed.

Lemma after_handshake_ok l r s : inv l s → fiber_ok l s AfterHandshake → ok l (resume r AfterHandshake s).
Proof.
  intros [Hs1 Hs2 Hs3 Hs4 Hs5] [Ha Hch]. apply suspend_ok; [|done|by constructor; [|outs]].
  split; cbn; [done|done|done|done|]. intros f Hf. eapply fiber_ok_challenge; [|by apply Hs5]. done.
Qed.

Lemma resume_ok l r i f s : inv l s → fiber_ok l s f → ok (l ++ [Resume r i]) (resume r f s).
Proof.
  intros Hs Hf. pose proof (inv_app _ [Resume r i] _ Hs) as Hs'. pose proof (fiber_ok_app _ [Resume r i] _ _ Hf) as Hf'.
  destruct f as [k| |d|d| | |p].
  - by apply after_network_ok.
  - apply returns_ok; [|outs]. destruct Hs'. by split.
  - by apply after_key_check_ok.
  - by apply after_challenge_ok.
  - by apply after_handshake_ok.
  - apply returns_ok; [|outs]. destruct Hs'. by split.
  - cbn. destruct (isAuthenticated s) eqn:Ha; [|by apply returns_ok; [|outs]].
    apply handle_ok; [done| |done]. by apply (inv_auth _ _ Hs').
Qed.

Lemma message_ok l r raw : let s := (run_ l initial).1 in inv l s → ok (l ++ [Receive r raw]) (onMessage self r raw s).
Proof.
  intros s Hs. pose proof (inv_app _ [Receive r raw] _ Hs) as Hs'. unfold onMessage.
  destruct (decrypt raw s) as [m|e] eqn:Hd; [|by apply throws_ok].
  assert (received (l ++ [Receive r raw]) (to_packet m)) as Hr.
  { exists l, r, raw, []. split; [done|]. unfold accepted. fold s. unfold decrypt in Hd. destruct (encryptionStarted s); [|by simplify_eq].
    destruct (EncryptemServer.decrypt raw (encryptem s)) as [[m'|]|] eqn:Hdec; [|done..]. simplify_eq.
    destruct (server_decrypts_signed _ _ _ Hdec) as (k & Hk & Hsig). exists k, m. split; [|done]. by apply (inv_key _ _ Hs). }
  unfold onPacket. destruct m as [|opcode payload]; [by apply suspend_ok|]. cbn [to_packet head hd_error packet_opcode tail] in *.
  case_decide as H1; [|case_decide as H2; [|case_decide as H3]]; [subst opcode..|by apply suspend_ok].
  - destruct (encryptionStarted s) eqn:He.
    + unfold onAuthenticationMessage. destruct (inv_started _ _ Hs He) as [_ [ch Hch]].
      destruct (inv_challenge _ _ Hs _ Hch) as [-> _]. by apply returns_ok; [|outs].
    + unfold decrypt in Hd. rewrite He in Hd. injection Hd as ->.
      apply (authentication_ok _ r); [done|done|]. apply elem_of_app. right. by left.
  - destruct (encryptionStarted s) eqn:He.
    + unfold onClientCipherExchangeMessage, unpacked. destruct (inv_started _ _ Hs He) as [-> _]. by apply throws_ok.
    + unfold decrypt in Hd. rewrite He in Hd. injection Hd as ->. by eapply exchange_ok.
  - unfold onPingMessage. apply unpacked_ok; [done|]. intros d _. destruct (pack _ _); [apply returns_ok; auto using sends_ok|by apply throws_ok].
Qed.

Lemma step_ok l e : let s := (run_ l initial).1 in inv l s → ok (l ++ [e]) (step_ e s).
Proof.
  intros s Hs. pose proof (inv_app _ [e] _ Hs) as Hs'. destruct e as [r raw|r i| |r data]; cbn.
  - by apply message_ok.
  - destruct (fibers s !! i) as [f|] eqn:Hf; [|by split]. apply resume_ok; [by apply take_fiber|].
    eapply fiber_ok_challenge; [|apply (inv_fibers _ _ Hs)]; [done|]. by eapply list_elem_of_lookup_2.
  - destruct (timeoutAuth s); [|by split]. split; [|by repeat constructor]. destruct Hs'. by split.
  - split; [done|]. apply sends_ok.
Qed.

Lemma run_ok l : ok l (run_ l initial).
Proof.
  induction l as [|e l [Hs Hos]] using rev_ind; [split; [apply initial_inv|done]|].
  pose proof (step_ok l e Hs) as [Hs' Hos']. rewrite run_app. destruct (run_ l initial) as [s os]. cbn in *.
  destruct (step_ e s) as [s' os']. cbn in *. split; [done|]. rewrite app_nil_r. apply Forall_app. split; [|done].
  eapply Forall_impl; [exact Hos|]. intros o. apply out_ok_app.
Qed.

(** C15: however the messages of a peer and the calls they start interleave, a
    session is open, or a packet of a session is handled, only when the peer has
    answered the challenge drawn for this connection with a key it presented in a
    message of an accepted version; and a packet that is handled is a message that
    came before the encryption, or one that is signed with a presented key. *)
Theorem sessions_are_authenticated l :
  let s := (run_ l initial).1 in
  let os := (run_ l initial).2 in
  (isAuthenticated s = true ∨ SessionOpened ∈ os ∨ (∃ p c, Event p c ∈ os) → authenticated l) ∧
  (∀ p c, Event p c ∈ os →
     ∃ payload, received l (mkPacket (Some (opcode_of p)) payload) ∧ decode_content p payload = Some c).
Proof.
  intros s os. destruct (run_ok l) as [Hs Hos]. fold s in Hs. fold os in Hos. rewrite Forall_forall in Hos. split.
  - intros [H|[H|(p & c & H)]]; [by apply (inv_auth _ _ Hs)|by apply (Hos _ H)|]. by destruct (Hos _ H).
  - intros p c H. by destruct (Hos _ H).
Qed.
End Facts.
