(* ===== verification/PeerClient.v ===== *)
(** * The side that authenticates to a peer
    (poc/networking/client/managers/ClientAuthenticationManager.ts,
    ClientPeerManager.ts, client/ClientPeerNetworking.ts, shared/managers)

    A node logs in to a peer with its signing key, answers the challenge and
    starts to encrypt when the keys of the peer come. The suspended calls are part
    of the state, as on the other side. *)

From S2P Require Import Prelude ConsensusRules Consensus HeaderValidator Epochs EpochManager WitnessManager PeerProtocol Encryptem PeerServer.

Inductive ConnectionStatus : Type := DISCONNECTED | AUTHENTICATING | AUTHENTICATION_SUCCESS | AUTHENTICATION_FAILED.

Module ClientPeer.
Section ClientPeer.
Context {LB : BtcLib} {LW : @WitnessLib LB} {LS : @SodiumLib LB LW} {LP : ProtobufLib}.
Context (self : SelfIdentity) (magic : option Z).    (* NetworkConverter.magicNumber, if there is one *)

(** A suspended call: [ok] when the keys were set up. *)
Inductive fiber : Type :=
| AfterSetup (ok : bool)                    (* attemptAuth, setupKey *)
| AfterExchange                             (* handleAuthenticationStatusPacket, the answer is sent *)
| Unmanaged (p : OPNetPacket).              (* onMessage, onPacket did not know the opcode *)

Record t : Type := mk {
  connectionStatus : ConnectionStatus;
  isAuthenticated : bool;
  encryptem : EncryptemClient.t;
  encryptionStarted : bool;
  protocol : OPNetProtocolV1.t;
  networkHandlers : list handler;
  OPNetAuthKey : option bytes;
  OPNetClientKeyCipher : option bytes;
  pingInterval : bool;
  destroyed : bool;
  fibers : list fiber
}.

Definition initial : t :=
  mk DISCONNECTED false EncryptemClient.initial false OPNetProtocolV1.Handshake [] None None false false [].

Definition set_status c (s : t) : t :=
  mk c (isAuthenticated s) (encryptem s) (encryptionStarted s) (protocol s) (networkHandlers s) (OPNetAuthKey s)
    (OPNetClientKeyCipher s) (pingInterval s) (destroyed s) (fibers s).
Definition set_encryptem e b (s : t) : t :=
  mk (connectionStatus s) (isAuthenticated s) e b (protocol s) (networkHandlers s) (OPNetAuthKey s)
    (OPNetClientKeyCipher s) (pingInterval s) (destroyed s) (fibers s).
Definition set_keys a k (s : t) : t :=
  mk (connectionStatus s) (isAuthenticated s) (encryptem s) (encryptionStarted s) (protocol s) (networkHandlers s) a k
    (pingInterval s) (destroyed s) (fibers s).
Definition set_session p hs (s : t) : t :=
  mk (connectionStatus s) true (encryptem s) (encryptionStarted s) p hs (OPNetAuthKey s) (OPNetClientKeyCipher s)
    true (destroyed s) (fibers s).
Definition set_fibers fs (s : t) : t :=
  mk (connectionStatus s) (isAuthenticated s) (encryptem s) (encryptionStarted s) (protocol s) (networkHandlers s)
    (OPNetAuthKey s) (OPNetClientKeyCipher s) (pingInterval s) (destroyed s) fs.

Definition suspend (f : fiber) (s : t) : t := set_fibers (fibers s ++ [f]) s.

(** [sendMsg] throws when the manager is destroyed, as its keys are deleted. *)
Definition sendMsg (nonce data : bytes) (s : t) : option (list output) :=
  if destroyed s then None
  else if encryptionStarted s then
    Some (match EncryptemClient.encrypt nonce data (encryptem s) with Ok buffer => [Send buffer] | Throw _ => [] end)
  else Some [Send data].

Definition decrypt (raw : bytes) (s : t) : result string bytes :=
  if encryptionStarted s then EncryptemClient.decrypt raw (encryptem s) else Ok raw.

Definition returns (b : bool) (s : t) (os : list output) : t * list output := (s, os ++ [Settled (Some b)]).
Definition throws (s : t) (os : list output) : t * list output := (s, os ++ [Settled None]).

(** [onIncomingPacket] and [unpack]. *)
Definition unpacked {A} (p : OPNetPacket) (decode : bytes → option A) (s : t) (k : A → t * list output) : t * list output :=
  match OPNetProtocolV1.onIncomingPacket (default 0 (packet_opcode p)) (protocol s) with
  | Throw _ => throws s []
  | Ok None => returns true s []
  | Ok (Some _) => match decode (packet p) with None => throws s [] | Some d => k d end
  end.

(** ** Logging in *)

Definition setupEncryptem (key : bytes) (keys : bytes * bytes) (s : t) : t * bool :=
  let '(e, ok) := EncryptemClient.generateClientCipherKeyPair key keys (EncryptemClient.destroy (encryptem s)) in
  (set_encryptem e (encryptionStarted s) s, ok).

(** The promise is rejected when the keys have a wrong length, and the keys are
    kept all the same. *)
Definition setupKey (key : bytes) (keys : bytes * bytes) (s : t) : t * bool :=
  let '(s, ok) := setupEncryptem key keys s in
  (set_keys (EncryptemClient.clientSignaturePublicKey (encryptem s)) (EncryptemClient.clientPublicKey (encryptem s)) s, ok).

(** [login] and [attemptAuth], up to the await of the keys. *)
Definition login (r : random) (s : t) : t * list output :=
  if destroyed s then (s, [])
  else
    let '(s, ok) := setupKey (authKey self) (box_keys r) (set_status AUTHENTICATING s) in
    (suspend (AfterSetup ok) s, []).

Definition protocolChecksum_ : string := default "" (PROTOCOL_CHECKSUM P2PVersion).

Definition authData (key : bytes) : IAuthenticationPacket :=
  mkAuth P2PVersion key protocolChecksum_ (peerType self) (peerNetwork self) (peerChainId self) magic.

(** The end of [attemptAuth]; whatever throws ends in a disconnection. *)
Definition sendAuthentication (r : random) (ok : bool) (s : t) : t * list output :=
  let failed := (s, [Disconnect UNABLE_TO_AUTHENTICATE]) in
  if negb ok || destroyed s then failed
  else match OPNetAuthKey s with
       | None => failed
       | Some key =>
           match pack PAuthentication (encode_auth (authData key)) with
           | None => failed
           | Some data => match sendMsg (random_nonce r) data s with Some os => (s, os) | None => failed end
           end
       end.

Definition logout (s : t) : t * list output := (set_keys None None s, [Disconnect EXPECTED]).

(** ** Packets of the handshake *)

Definition buildKeyCipherExchangeClientPacket (r : random) (challenge : bytes) (s : t) : option (list output) :=
  if destroyed s then None
  else match OPNetAuthKey s, OPNetClientKeyCipher s with
       | Some authKey, Some cipherKey =>
           let challengeResponse := Challenge.identityChallenge (keyPair self) challenge in
           let keyCipherExchangeData := mkClientExchange cipherKey authKey (identity_hash (keyPair self)) challengeResponse in
           match pack PClientKeyCipherExchange (encode_client_exchange keyCipherExchangeData) with
           | None => None
           | Some data => sendMsg (random_nonce r) data s
           end
       | _, _ => None
       end.

Definition handleAuthenticationStatusPacket (r : random) (p : OPNetPacket) (s : t) : t * list output :=
  unpacked p decode_status s (fun d =>
    match status d, status_challenge d with
    | Some SUCCESS, Some challenge =>
        match buildKeyCipherExchangeClientPacket r challenge s with
        | None => throws s []
        | Some os => (suspend AfterExchange s, os)
        end
    | _, _ => returns true (set_status AUTHENTICATION_FAILED s) []
    end).

(** [now] and the last ping of the server, which nothing sets. *)
Definition sendPing (r : random) (ping : Z * Z) (s : t) : list output :=
  match pack PPing (encode_ping ping) with
  | None => []
  | Some data => default [] (sendMsg (random_nonce r) data s)
  end.

(** The timer starts with a ping, then the session is created and reported. *)
Definition onAuthenticated (r : random) (ping : Z * Z) (s : t) : t * list output :=
  let s := set_session (OPNetProtocolV1.onAuthenticated (protocol s))
             (networkHandlers s ++ [PeerManager; BlockWitnessManager_; MempoolManager]) s in
  (s, sendPing r ping s ++ [SessionOpened]).

Definition setCipherKeys (d : IServerKeyCipherExchangePacket) (e : EncryptemClient.t) : EncryptemClient.t :=
  EncryptemClient.setServerSignaturePublicKey (serverSigningCipher d) (EncryptemClient.setServerPublicKey (serverKeyCipher d) e).

Definition handleServerCipherExchangePacket (r : random) (ping : Z * Z) (p : OPNetPacket) (s : t) : t * list output :=
  unpacked p decode_server_exchange s (fun d =>
    if negb (encryptionEnabled d) then throws s []
    else
      let '(s, os) := onAuthenticated r ping (set_encryptem (setCipherKeys d (encryptem s)) true s) in
      returns true s os).

Definition handlePongPacket (p : OPNetPacket) (s : t) : t * list output :=
  match OPNetProtocolV1.onIncomingPacket (default 0 (packet_opcode p)) (protocol s) with
  | Throw _ => throws s []
  | Ok _ => returns true s []
  end.

(** ** Packets of a session *)

Definition handles (h : handler) (opcode : Z) : option (Packets * bool) :=
  match h with
  | PeerManager => if decide (opcode = Opcode.DISCOVERY_RESPONSE) then Some (PDiscoveryResponse, true) else None
  | BlockWitnessManager_ =>
      if decide (opcode = Opcode.BLOCK_HEADER_WITNESS) then Some (PBlockHeaderWitness, true)
      else if decide (opcode = Opcode.SYNC_BLOCK_HEADERS_RESPONSE) then Some (PSyncBlockHeadersResponse, false)
      else if decide (opcode = Opcode.SYNC_BLOCK_HEADERS_REQUEST) then Some (PSyncBlockHeadersRequest, true)
      else None
  | MempoolManager => if decide (opcode = Opcode.BROADCAST_TRANSACTION) then Some (PBroadcastTransaction, false) else None
  end.

Fixpoint handle (hs : list handler) (p : OPNetPacket) (s : t) : t * list output :=
  match hs with
  | [] => returns false s []
  | h :: hs =>
      match packet_opcode p ≫= handles h with
      | None => handle hs p s
      | Some (k, b) =>
          unpacked p (decode_content k) s (fun c => returns true s (if (b : bool) then [Event k c] else []))
      end
  end.

(** ** Messages *)

Definition onPacket (r : random) (ping : Z * Z) (p : OPNetPacket) (s : t) : t * list output :=
  match packet_opcode p with
  | None => (suspend (Unmanaged p) s, [])
  | Some opcode =>
      if decide (opcode = Opcode.AUTHENTICATION_STATUS) then handleAuthenticationStatusPacket r p s
      else if decide (opcode = Opcode.SERVER_CIPHER_EXCHANGE) then handleServerCipherExchangePacket r ping p s
      else if decide (opcode = Opcode.PONG) then handlePongPacket p s
      else (suspend (Unmanaged p) s, [])
  end.

Definition onMessage (r : random) (ping : Z * Z) (rawBuf : bytes) (s : t) : t * list output :=
  if destroyed s then returns false s []
  else match decrypt rawBuf s with
       | Throw _ => throws s []
       | Ok raw => onPacket r ping (to_packet raw) s
       end.

Definition resume (r : random) (f : fiber) (s : t) : t * list output :=
  match f with
  | AfterSetup ok => sendAuthentication r ok s
  | AfterExchange => returns true (set_status AUTHENTICATION_SUCCESS s) []
  | Unmanaged p => if isAuthenticated s then handle (networkHandlers s) p s else returns false s []
  end.

Definition destroy (s : t) : t :=
  if destroyed s then s
  else mk (connectionStatus s) (isAuthenticated s) (EncryptemClient.destroy (encryptem s)) (encryptionStarted s)
         (OPNetProtocolV1.destroy (protocol s)) [] (OPNetAuthKey s) (OPNetClientKeyCipher s) false true (fibers s).

(** [broadcastMempoolTransaction] and [discoverPeers]: [None] throws. *)
Definition sendContent (r : random) (p : Packets) (c : Content) (s : t) : option (list output) :=
  match networkHandlers s with
  | [] => None
  | _ => match pack p (encode_content p c) with None => None | Some data => sendMsg (random_nonce r) data s end
  end.

Inductive event : Type :=
| Login (r : random)
| Logout
| Receive (r : random) (ping : Z * Z) (rawBuf : bytes)
| Resume (r : random) (i : nat)
| PingTimer (r : random) (ping : Z * Z)
| SendContent (r : random) (p : Packets) (c : Content)
| Destroy.

Definition step (e : event) (s : t) : t * list output :=
  match e with
  | Login r => login r s
  | Logout => logout s
  | Receive r ping raw => onMessage r ping raw s
  | Resume r i =>
      match fibers s !! i with
      | Some f => resume r f (set_fibers (delete i (fibers s)) s)
      | None => (s, [])
      end
  | PingTimer r ping => (s, if pingInterval s then sendPing r ping s else [])
  | SendContent r p c => (s, default [] (sendContent r p c s))
  | Destroy => (destroy s, [])
  end.

Fixpoint run (l : list event) (s : t) : t * list output :=
  match l with
  | [] => (s, [])
  | e :: l => let '(s, os) := step e s in let '(s, os') := run l s in (s, os ++ os')
  end.
End ClientPeer.
End ClientPeer.
