(* ===== verification/PeerHandshake.v ===== *)
(** * Two honest nodes

    The two sides of a connection with the messages between them. When both are
    honest and of one network the handshake ends with a session on both sides,
    and what either encrypts the other decrypts. *)

From S2P Require Import Prelude ConsensusRules Consensus HeaderValidator Epochs EpochManager WitnessManager PeerProtocol Encryptem PeerServer PeerClient.

Section Handshake.
Context {LB : BtcLib} {LW : @WitnessLib LB} {LS : @SodiumLib LB LW} {LP : ProtobufLib}.
Context (server_self client_self : SelfIdentity).

(** Messages are delivered in order. *)
Record net : Type := mkNet {
  server : ServerPeer.t;
  client : ClientPeer.t;
  to_server : list bytes;
  to_client : list bytes;
  server_log : list output;
  client_log : list output
}.

Definition sent (os : list output) : list bytes := omap (λ o, match o with Send data => Some data | _ => None end) os.

Definition server_event (e : ServerPeer.event) (queue : list bytes) (n : net) : net :=
  let '(s, os) := ServerPeer.step server_self e (server n) in
  mkNet s (client n) queue (to_client n ++ sent os) (server_log n ++ os) (client_log n).

Definition client_event (e : ClientPeer.event) (queue : list bytes) (n : net) : net :=
  let '(c, os) := ClientPeer.step client_self None e (client n) in
  mkNet (server n) c (to_server n ++ sent os) queue (server_log n) (client_log n ++ os).

(** A suspended call goes on if there is one, else the next message is delivered.
    The clock is not read in the handshake. *)
Definition net_step (n : net) (r : random) : net :=
  match ClientPeer.fibers (client n), ServerPeer.fibers (server n), to_server n, to_client n with
  | _ :: _, _, _, _ => client_event (ClientPeer.Resume r 0) (to_client n) n
  | [], _ :: _, _, _ => server_event (ServerPeer.Resume r 0) (to_server n) n
  | [], [], m :: queue, _ => server_event (ServerPeer.Receive r m) queue n
  | [], [], [], m :: queue => client_event (ClientPeer.Receive r (0, 0) m) queue n
  | [], [], [], [] => n
  end.

Definition connected : net := mkNet ServerPeer.initial ClientPeer.initial [] [] [] [].

Definition handshake (r : random) (rs : list random) : net :=
  foldl net_step (client_event (ClientPeer.Login r) [] connected) rs.

(** ** Honest nodes *)

(** The keys are those of the file the identity is restored from. *)
Definition honest (i : SelfIdentity) : Prop :=
  kp_privateKey (keyPair i) = take 64 (authKey i) ∧ kp_publicKey (keyPair i) = take 32 (drop 64 (authKey i)) ∧
  (96 ≤ length (authKey i))%nat ∧ OPNetIdentity.key_pair_ok (keyPair i) ∧ length (identity_hash (keyPair i)) = 64%nat ∧
  0 ≤ peerType i < 2 ^ 31 ∧ 0 ≤ peerNetwork i < 2 ^ 31 ∧ 0 ≤ peerChainId i < 2 ^ 31.

Definition drawn (r : random) : Prop :=
  box_keypair (box_keys r).1 (box_keys r).2 ∧ length (random_nonce r) = crypto_box_NONCEBYTES.

(** What one side encrypts the other decrypts. *)
Definition understand (n : net) : Prop :=
  ∀ nonce m, length nonce = crypto_box_NONCEBYTES →
  (∃ c, EncryptemClient.encrypt nonce m (ClientPeer.encryptem (client n)) = Ok c ∧
        EncryptemServer.decrypt c (ServerPeer.encryptem (server n)) = Ok (Some m)) ∧
  (∃ c, EncryptemServer.encrypt nonce m (ServerPeer.encryptem (server n)) = Ok c ∧
        EncryptemClient.decrypt c (ClientPeer.encryptem (client n)) = Ok m).

Context {HS : SodiumLaws} {HP : ProtobufLaws}.

Lemma keys_understand pkA skA pkB skB spkA sskA seed :
  box_keypair pkA skA → box_keypair pkB skB → length seed = 32%nat → length spkA = 32%nat →
  (∀ m, crypto_sign_verify_detached (crypto_sign_detached m sskA) m spkA = true) →
  let sign := crypto_sign_seed_keypair seed in
  let c := EncryptemClient.mk (Some skA) (Some pkA) (Some spkA) (Some sskA) (Some pkB) (Some sign.1) in
  let s := EncryptemServer.mk (Some skB) (Some pkB) (Some sign.1) (Some sign.2) (Some spkA) (Some pkA) in
  ∀ nonce m, length nonce = crypto_box_NONCEBYTES →
  (∃ e, EncryptemClient.encrypt nonce m c = Ok e ∧ EncryptemServer.decrypt e s = Ok (Some m)) ∧
  (∃ e, EncryptemServer.encrypt nonce m s = Ok e ∧ EncryptemClient.decrypt e c = Ok m).
Proof.
  intros HA HB Hseed HspkA HsA sign c s nonce m Hn. split.
  - destruct (encrypted_message nonce m pkA skA pkB skB spkA sskA) as (e & He & Hv & Ha & Hsig & Hl & Ho & Hs); try done.
    exists e. split; [done|]. unfold EncryptemServer.decrypt. cbn [EncryptemServer.clientPublicKey EncryptemServer.serverPrivateKey EncryptemServer.clientSignaturePublicKey s].
    by rewrite Hv, (decide_False _ _ Hl), Ha, Hsig, Ho, Hs.
  - destruct (encrypted_message nonce m pkB skB pkA skA sign.1 sign.2) as (e & He & Hv & Ha & Hsig & Hl & Ho & Hs); try done.
    { by apply seed_lengths. } { intros x. by apply seed_signs. }
    exists e. split; [done|]. unfold EncryptemClient.decrypt. cbn [EncryptemClient.serverPublicKey EncryptemClient.clientSecretKey EncryptemClient.serverSignaturePublicKey c].
    by rewrite Hv, (decide_False _ _ Hl), Ho, Hs.
Qed.

(** ** The states of the handshake *)

Section Steps.
Context (keys skeys : bytes * bytes) (challenge : bytes) (b1 b2 b3 b4 : bytes).
Let pk := kp_publicKey (keyPair client_self).
Let sk := kp_privateKey (keyPair client_self).
Let sign := crypto_sign_seed_keypair skeys.2.

Let auth := ClientPeer.authData client_self None pk.
Let pre_auth := mkStatus (Some SUCCESS) "Pre auth valid." (Some challenge).
Let exchange := mkClientExchange keys.1 pk (identity_hash (keyPair client_self))
                  (Challenge.identityChallenge (keyPair client_self) challenge).
Let server_exchange := mkServerExchange skeys.1 sign.1 true.

Context (Hhonest : honest client_self) (Hkeys : box_keypair keys.1 keys.2).
Context (Hnet : peerNetwork server_self = peerNetwork client_self) (Hchain : peerChainId server_self = peerChainId client_self).
Context (E1 : encode_auth auth = Some b1) (E2 : encode_status pre_auth = Some b2).
Context (E3 : encode_client_exchange exchange = Some b3) (E4 : encode_server_exchange server_exchange = Some b4).

(** The client with its keys; the server with a part of its own. *)
Definition client_state status (k : EncryptemClient.t) fibers : ClientPeer.t :=
  ClientPeer.mk status false k false OPNetProtocolV1.Handshake [] (Some pk) (Some keys.1) false false fibers.
Definition client_keys : EncryptemClient.t := EncryptemClient.mk (Some keys.2) (Some keys.1) (Some pk) (Some sk) None None.

Definition server_state passed timeout challenge (k : EncryptemServer.t) identity fibers : ServerPeer.t :=
  ServerPeer.mk (Some P2PVersion) (Some (peerType client_self)) (Some (peerNetwork client_self)) (Some (peerChainId client_self))
    identity false passed timeout challenge k false OPNetProtocolV1.Handshake [] fibers.
Definition server_keys (client_key : option bytes) : EncryptemServer.t :=
  EncryptemServer.mk (Some skeys.2) (Some skeys.1) (Some sign.1) (Some sign.2) (Some pk) client_key.
Definition answered_state fibers : ServerPeer.t :=
  server_state true false (Some challenge) (server_keys (Some keys.1)) (Some (toHex (identity_hash (keyPair client_self)))) fibers.

Lemma pk_length : length pk = 32%nat.
Proof. destruct Hhonest as (_ & Hpk & Hlen & _). unfold pk. rewrite Hpk, length_take, length_drop. lia. Qed.

Lemma login_step r : box_keys r = keys →
  ClientPeer.step client_self None (ClientPeer.Login r) ClientPeer.initial =
  (client_state AUTHENTICATING client_keys [ClientPeer.AfterSetup true], []).
Proof.
  intros Hr. pose proof pk_length as Hl. destruct Hhonest as (Hsk & Hpk & Hlen & _). destruct (box_lengths _ _ Hkeys) as [? ?]. fold pk in Hpk. fold sk in Hsk.
  assert (length sk = 64%nat) by (rewrite Hsk, length_take; lia).
  cbn [ClientPeer.step ClientPeer.login ClientPeer.initial ClientPeer.destroyed].
  unfold ClientPeer.setupKey, ClientPeer.setupEncryptem, EncryptemClient.generateClientCipherKeyPair, EncryptemClient.generateSignatureSeededKeyPairs.
  rewrite <- Hsk, <- Hpk, Hr. cbn [fst snd]. by rewrite bool_decide_true.
Qed.

Lemma authentication_sent r :
  ClientPeer.step client_self None (ClientPeer.Resume r 0) (client_state AUTHENTICATING client_keys [ClientPeer.AfterSetup true]) =
  (client_state AUTHENTICATING client_keys [], [Send (Opcode.AUTHENTICATION :: b1)]).
Proof. cbn. unfold ClientPeer.sendAuthentication. cbn. fold auth. by rewrite E1. Qed.

Lemma authentication_received r :
  ServerPeer.step server_self (ServerPeer.Receive r (Opcode.AUTHENTICATION :: b1)) ServerPeer.initial =
  (server_state false true None EncryptemServer.initial None [ServerPeer.AfterNetwork pk], []).
Proof.
  cbn. unfold ServerPeer.onAuthenticationMessage, ServerPeer.unpacked. cbn. rewrite (decode_encode_auth _ _ E1). cbn [auth ClientPeer.authData clientAuthCipher].
  fold pk. rewrite pk_length. cbn. unfold ServerPeer.verifyNetwork. cbn. by rewrite Hnet, Hchain, !bool_decide_true.
Qed.

Lemma challenge_sent r : box_keys r = skeys → random_challenge r = challenge →
  ServerPeer.step server_self (ServerPeer.Resume r 0) (server_state false true None EncryptemServer.initial None [ServerPeer.AfterNetwork pk]) =
  (server_state true true (Some challenge) (server_keys None) None [ServerPeer.AfterStatus], [Send (Opcode.AUTHENTICATION_STATUS :: b2)]).
Proof.
  intros Hr Hc. cbn. unfold ServerPeer.onPassedVersionCheck, ServerPeer.createFullAuthentication. cbn. rewrite Hr, Hc.
  unfold ServerPeer.sendAuthenticationStatusPacket. cbn. fold pre_auth. by rewrite E2.
Qed.

Lemma timeout_cleared r :
  ServerPeer.step server_self (ServerPeer.Resume r 0) (server_state true true (Some challenge) (server_keys None) None [ServerPeer.AfterStatus]) =
  (server_state true false (Some challenge) (server_keys None) None [], [Settled (Some true)]).
Proof. reflexivity. Qed.

Lemma challenge_received r :
  ClientPeer.step client_self None (ClientPeer.Receive r (0, 0) (Opcode.AUTHENTICATION_STATUS :: b2)) (client_state AUTHENTICATING client_keys []) =
  (client_state AUTHENTICATING client_keys [ClientPeer.AfterExchange], [Send (Opcode.CLIENT_CIPHER_EXCHANGE :: b3)]).
Proof.
  cbn. unfold ClientPeer.handleAuthenticationStatusPacket, ClientPeer.unpacked. cbn. rewrite (decode_encode_status _ _ E2). cbn.
  unfold ClientPeer.buildKeyCipherExchangeClientPacket. cbn. fold exchange. by rewrite E3.
Qed.

Lemma answer_sent r :
  ClientPeer.step client_self None (ClientPeer.Resume r 0) (client_state AUTHENTICATING client_keys [ClientPeer.AfterExchange]) =
  (client_state AUTHENTICATION_SUCCESS client_keys [], [Settled (Some true)]).
Proof. reflexivity. Qed.

Lemma answer_received r :
  ServerPeer.step server_self (ServerPeer.Receive r (Opcode.CLIENT_CIPHER_EXCHANGE :: b3)) (server_state true false (Some challenge) (server_keys None) None []) =
  (server_state true false (Some challenge) (server_keys None) None [ServerPeer.AfterKeyCheck exchange], []).
Proof.
  destruct Hhonest as (_ & _ & _ & _ & Hid & _).
  cbn. unfold ServerPeer.onClientCipherExchangeMessage, ServerPeer.unpacked. cbn. rewrite (decode_encode_client _ _ E3). cbn. rewrite Hid. cbn.
  unfold ServerPeer.verifySignaturePublicKey. cbn. by rewrite bool_decide_true.
Qed.

Lemma answer_checked r :
  ServerPeer.step server_self (ServerPeer.Resume r 0) (server_state true false (Some challenge) (server_keys None) None [ServerPeer.AfterKeyCheck exchange]) =
  (server_state true false (Some challenge) (server_keys None) None [ServerPeer.AfterChallenge exchange], []).
Proof.
  pose proof pk_length as Hl. destruct Hhonest as (_ & _ & _ & [_ Hsign] & _).
  cbn. unfold ServerPeer.verifyChallenge. cbn. unfold Challenge.verifyChallenge, Challenge.identityChallenge. fold pk.
  rewrite sign_length, Hl. cbn. unfold pk. by rewrite Hsign.
Qed.

Lemma server_keys_sent r :
  ServerPeer.step server_self (ServerPeer.Resume r 0) (server_state true false (Some challenge) (server_keys None) None [ServerPeer.AfterChallenge exchange]) =
  (answered_state [ServerPeer.AfterHandshake], [Send (Opcode.SERVER_CIPHER_EXCHANGE :: b4)]).
Proof.
  cbn. unfold ServerPeer.onChallengeAnswered, ServerPeer.sendServerHandshake. cbn. fold server_exchange. by rewrite E4.
Qed.
End Steps.

Lemma server_resumes s c q q' sl cl r rs s' os :
  ServerPeer.step server_self (ServerPeer.Resume r 0) s = (s', os) → ClientPeer.fibers c = [] → ServerPeer.fibers s ≠ [] →
  foldl net_step (mkNet s c q q' sl cl) (r :: rs) = foldl net_step (mkNet s' c q (q' ++ sent os) (sl ++ os) cl) rs.
Proof. intros H Hc Hs. cbn [foldl]. unfold net_step at 2. cbn. rewrite Hc. destruct (ServerPeer.fibers s) eqn:E; [done|]. clear E. unfold server_event. cbn [server]. by rewrite H. Qed.

Lemma server_receives s c m q q' sl cl r rs s' os :
  ServerPeer.step server_self (ServerPeer.Receive r m) s = (s', os) → ClientPeer.fibers c = [] → ServerPeer.fibers s = [] →
  foldl net_step (mkNet s c (m :: q) q' sl cl) (r :: rs) = foldl net_step (mkNet s' c q (q' ++ sent os) (sl ++ os) cl) rs.
Proof. intros H Hc Hs. cbn [foldl]. unfold net_step at 2. cbn. rewrite Hc, Hs. unfold server_event. cbn [server]. by rewrite H. Qed.

Lemma client_resumes s c q q' sl cl r rs c' os :
  ClientPeer.step client_self None (ClientPeer.Resume r 0) c = (c', os) → ClientPeer.fibers c ≠ [] →
  foldl net_step (mkNet s c q q' sl cl) (r :: rs) = foldl net_step (mkNet s c' (q ++ sent os) q' sl (cl ++ os)) rs.
Proof. intros H Hc. cbn [foldl]. unfold net_step at 2. cbn. destruct (ClientPeer.fibers c) eqn:E; [done|]. clear E. unfold client_event. cbn [client]. by rewrite H. Qed.

Lemma client_receives s c m q' sl cl r rs c' os :
  ClientPeer.step client_self None (ClientPeer.Receive r (0, 0) m) c = (c', os) → ClientPeer.fibers c = [] → ServerPeer.fibers s = [] →
  foldl net_step (mkNet s c [] (m :: q') sl cl) (r :: rs) = foldl net_step (mkNet s c' (sent os) q' sl (cl ++ os)) rs.
Proof. intros H Hc Hs. cbn [foldl]. unfold net_step at 2. cbn. rewrite Hc, Hs. unfold client_event. cbn [client]. by rewrite H. Qed.

Tactic Notation "advance" uconstr(H) := rewrite H by done; cbn [app sent omap list_omap].

Lemma ping_sends r s o : o ∈ ClientPeer.sendPing r (0, 0) s → ∃ data, o = Send data.
Proof.
  unfold ClientPeer.sendPing, ClientPeer.sendMsg. intros H. repeat (case_match; cbn in H; try by apply elem_of_nil in H);
    apply list_elem_of_singleton in H as ->; by eexists.
Qed.

(** The two managers when the session is open on both sides. *)
Definition server_final (keys skeys : bytes * bytes) (challenge : bytes) : ServerPeer.t :=
  let s := answered_state keys skeys challenge [] in
  ServerPeer.mk (ServerPeer.clientVersion s) (ServerPeer.clientIndexerMode s) (ServerPeer.clientNetwork s) (ServerPeer.clientChainId s)
    (ServerPeer.clientIdentity s) true true false (Some challenge) (ServerPeer.encryptem s) true OPNetProtocolV1.Session
    [PeerManager; BlockWitnessManager_; MempoolManager] [].

Definition final_client_keys (keys skeys : bytes * bytes) : EncryptemClient.t :=
  EncryptemClient.mk (Some keys.2) (Some keys.1) (Some (kp_publicKey (keyPair client_self))) (Some (kp_privateKey (keyPair client_self)))
    (Some skeys.1) (Some (crypto_sign_seed_keypair skeys.2).1).

Definition client_final (keys skeys : bytes * bytes) : ClientPeer.t :=
  ClientPeer.mk AUTHENTICATION_SUCCESS true (final_client_keys keys skeys) true OPNetProtocolV1.Session
    [PeerManager; BlockWitnessManager_; MempoolManager] (Some (kp_publicKey (keyPair client_self))) (Some keys.1) true false [].

Lemma session_opens keys skeys challenge r :
  ServerPeer.step server_self (ServerPeer.Resume r 0) (answered_state keys skeys challenge [ServerPeer.AfterHandshake]) =
  (ServerPeer.set_fibers [ServerPeer.Handshaken] (server_final keys skeys challenge), [SessionOpened]).
Proof. reflexivity. Qed.

Lemma session_settles keys skeys challenge r :
  ServerPeer.step server_self (ServerPeer.Resume r 0) (ServerPeer.set_fibers [ServerPeer.Handshaken] (server_final keys skeys challenge)) =
  (server_final keys skeys challenge, [Settled (Some true)]).
Proof. reflexivity. Qed.

Lemma client_opens keys skeys b4 r :
  encode_server_exchange (mkServerExchange skeys.1 (crypto_sign_seed_keypair skeys.2).1 true) = Some b4 →
  ClientPeer.step client_self None (ClientPeer.Receive r (0, 0) (Opcode.SERVER_CIPHER_EXCHANGE :: b4))
    (client_state keys AUTHENTICATION_SUCCESS (client_keys keys) []) =
  (client_final keys skeys, (ClientPeer.sendPing r (0, 0) (client_final keys skeys) ++ [SessionOpened]) ++ [Settled (Some true)]).
Proof.
  intros E4. cbn. unfold ClientPeer.handleServerCipherExchangePacket, ClientPeer.unpacked. cbn. by rewrite (decode_encode_server _ _ E4).
Qed.

Lemma handshake_run r0 rs :
  honest client_self → peerNetwork server_self = peerNetwork client_self → peerChainId server_self = peerChainId client_self →
  Forall drawn (r0 :: rs) → length rs = 12%nat →
  ∃ keys skeys challenge r in_flight sends slog clog,
    box_keypair keys.1 keys.2 ∧ box_keypair skeys.1 skeys.2 ∧
    handshake r0 rs = mkNet (server_final keys skeys challenge) (client_final keys skeys) in_flight []
      (slog ++ [SessionOpened; Settled (Some true)])
      (clog ++ (ClientPeer.sendPing r (0, 0) (client_final keys skeys) ++ [SessionOpened]) ++ [Settled (Some true)]) ∧
    slog = [Send sends.1; Settled (Some true); Send sends.2.1] ∧
    clog = [Send sends.2.2.1; Send sends.2.2.2; Settled (Some true)].
Proof.
  intros Hc Hnet Hchain [[Hk0 _] Hdrawn]%Forall_cons Hrs.
  do 13 (destruct rs as [|?r rs]; [try discriminate Hrs|]); [|discriminate Hrs]. clear Hrs.
  pose proof Hc as (_ & _ & _ & _ & _ & Ht & Hn & Hch).
  assert (drawn r2) as [Hk2 _] by (do 2 (apply Forall_cons in Hdrawn as [_ Hdrawn]); by apply Forall_cons in Hdrawn as [? _]).
  destruct (encode_auth_total P2PVersion (kp_publicKey (keyPair client_self)) ClientPeer.protocolChecksum_ _ _ _ None Ht Hn Hch eq_refl) as [b1 E1].
  destruct (encode_status_total SUCCESS "Pre auth valid." (Some (random_challenge r2))) as [b2 E2].
  destruct (encode_client_total (mkClientExchange (box_keys r0).1 (kp_publicKey (keyPair client_self)) (identity_hash (keyPair client_self))
              (Challenge.identityChallenge (keyPair client_self) (random_challenge r2)))) as [b3 E3].
  destruct (encode_server_total (mkServerExchange (box_keys r2).1 (crypto_sign_seed_keypair (box_keys r2).2).1 true)) as [b4 E4].
  exists (box_keys r0), (box_keys r2), (random_challenge r2), r11.
  eexists _, (_, (_, (_, _))), _, _. split; [done|]. split; [done|]. split; [|split; reflexivity].
  unfold handshake, client_event, connected. cbn [client]. rewrite (login_step (box_keys r0) Hc Hk0 r0 eq_refl). cbn [server to_server app sent omap list_omap server_log client_log].
  advance (client_resumes _ _ _ _ _ _ _ _ _ _ (authentication_sent (box_keys r0) b1 E1 r)).
  advance (server_receives _ _ _ _ _ _ _ _ _ _ _ (authentication_received b1 Hc Hnet Hchain E1 r1)).
  advance (server_resumes _ _ _ _ _ _ _ _ _ _ (challenge_sent (box_keys r2) (random_challenge r2) b2 E2 r2 eq_refl eq_refl)).
  advance (server_resumes _ _ _ _ _ _ _ _ _ _ (timeout_cleared (box_keys r2) (random_challenge r2) r3)).
  advance (client_receives _ _ _ _ _ _ _ _ _ _ (challenge_received (box_keys r0) (random_challenge r2) b2 b3 E2 E3 r4)).
  advance (client_resumes _ _ _ _ _ _ _ _ _ _ (answer_sent (box_keys r0) r5)).
  advance (server_receives _ _ _ _ _ _ _ _ _ _ _ (answer_received (box_keys r0) (box_keys r2) (random_challenge r2) b3 Hc E3 r6)).
  advance (server_resumes _ _ _ _ _ _ _ _ _ _ (answer_checked (box_keys r0) (box_keys r2) (random_challenge r2) Hc r7)).
  advance (server_resumes _ _ _ _ _ _ _ _ _ _ (server_keys_sent (box_keys r0) (box_keys r2) (random_challenge r2) b4 E4 r8)).
  advance (server_resumes _ _ _ _ _ _ _ _ _ _ (session_opens (box_keys r0) (box_keys r2) (random_challenge r2) r9)).
  advance (server_resumes _ _ _ _ _ _ _ _ _ _ (session_settles (box_keys r0) (box_keys r2) (random_challenge r2) r10)).
  advance (client_receives _ _ _ _ _ _ _ _ _ _ (client_opens (box_keys r0) (box_keys r2) b4 r11 E4)).
  reflexivity.
Qed.

(** C16: two nodes of one network and chain open a session on both sides, whatever
    keys, challenges and nonces are drawn, when the client is honest, its
    network has no magic number, and the messages arrive in order, each after
    the calls before it are done, so that the login is followed by twelve steps.
    Nobody is disconnected, no call stays suspended, and both sides are in the
    session.  The server holds the identity of the client's key, and the
    version, the mode, the network and the chain the client has.  What either
    side encrypts from then on the other decrypts to the same message. *)
Theorem handshake_completes r0 rs :
  honest client_self → peerNetwork server_self = peerNetwork client_self → peerChainId server_self = peerChainId client_self →
  Forall drawn (r0 :: rs) → length rs = 12%nat →
  let n := handshake r0 rs in
  ServerPeer.isAuthenticated (server n) = true ∧ ClientPeer.isAuthenticated (client n) = true ∧
  SessionOpened ∈ server_log n ∧ SessionOpened ∈ client_log n ∧
  (∀ code, Disconnect code ∉ server_log n ++ client_log n) ∧
  ServerPeer.fibers (server n) = [] ∧ ClientPeer.fibers (client n) = [] ∧
  ServerPeer.protocol (server n) = OPNetProtocolV1.Session ∧ ClientPeer.protocol (client n) = OPNetProtocolV1.Session ∧
  ServerPeer.clientIdentity (server n) = Some (toHex (sha512 (kp_publicKey (keyPair client_self)))) ∧
  ServerPeer.clientVersion (server n) = Some P2PVersion ∧ ServerPeer.clientIndexerMode (server n) = Some (peerType client_self) ∧
  ServerPeer.clientNetwork (server n) = Some (peerNetwork client_self) ∧
  ServerPeer.clientChainId (server n) = Some (peerChainId client_self) ∧ understand n.
Proof.
  intros Hc Hnet Hchain Hdrawn Hrs n.
  destruct (handshake_run r0 rs Hc Hnet Hchain Hdrawn Hrs) as (keys & skeys & ch & r & q & sends & slog & clog & Hk & Hsk & Hrun & -> & ->).
  subst n. rewrite Hrun. cbn [server client server_log client_log]. split; [done|]. split; [done|].
  split; [set_solver|]. split; [set_solver|]. split.
  { intros code Hin. rewrite !elem_of_app, !elem_of_cons, !elem_of_nil in Hin.
    destruct_or?; try done. by apply ping_sends in Hin as [? ?]. }
  do 4 (split; [done|]). destruct Hc as (_ & Hpk & Hlen & [Hid Hsign] & _).
  split; [cbn; by rewrite Hid|]. do 4 (split; [done|]). unfold understand. cbn [server client ServerPeer.encryptem ClientPeer.encryptem server_final client_final].
  apply keys_understand; [done|done|by destruct (box_lengths _ _ Hsk)| |done].
  rewrite Hpk, length_take, length_drop. lia.
Qed.
End Handshake.
