(* ===== verification/PeerNode.v ===== *)
(** * One peer (poc/peer/OPNetPeer.ts)

    Both sides of the connection to a peer: the one that authenticates it and the
    one that authenticates to it. A message is for one of them; what they do is
    passed on to the manager of the peers. *)

From S2P Require Import Prelude ConsensusRules Consensus HeaderValidator Epochs EpochManager WitnessManager PeerProtocol Encryptem PeerServer PeerServerFacts PeerClient.

(** What a step of a peer does outside. *)
Inductive peer_output `{ProtobufLib} : Type :=
| SendMsg (data : bytes)
| DisconnectPeer (code : DisconnectionCode)
| ReportAuthenticatedPeer
| ServerEvent (p : Packets) (c : Content)
| ClientEvent (p : Packets) (c : Content).

Inductive OPNetIndexerMode : Type := ARCHIVE | FULL | LIGHT.

Module OPNetPeer.
Section OPNetPeer.
Context {LB : BtcLib} {LW : @WitnessLib LB} {LS : @SodiumLib LB LW} {LP : ProtobufLib}.
Context (self : SelfIdentity) (magic : option Z) (discoverData : Content).

(** What is suspended: [destroy] after a disconnection. *)
Inductive fiber : Type :=
| AfterBadPacket        (* onMessage, before destroy(false) *)
| AfterGoodbye.         (* destroy(true), before the rest *)

Record t : Type := mk {
  isClientAuthenticated : bool;
  isServerAuthenticated : bool;
  isDestroyed : bool;
  clientNetworkingManager : ClientPeer.t;
  serverNetworkingManager : ServerPeer.t;
  badPacketCount : Z;
  fibers : list fiber
}.

Definition initial : t := mk false false false ClientPeer.initial ServerPeer.initial 0 [].

Definition set_flags c s (p : t) : t :=
  mk c s (isDestroyed p) (clientNetworkingManager p) (serverNetworkingManager p) (badPacketCount p) (fibers p).
Definition set_client c (p : t) : t :=
  mk (isClientAuthenticated p) (isServerAuthenticated p) (isDestroyed p) c (serverNetworkingManager p) (badPacketCount p) (fibers p).
Definition set_server s (p : t) : t :=
  mk (isClientAuthenticated p) (isServerAuthenticated p) (isDestroyed p) (clientNetworkingManager p) s (badPacketCount p) (fibers p).
Definition set_bad n (p : t) : t :=
  mk (isClientAuthenticated p) (isServerAuthenticated p) (isDestroyed p) (clientNetworkingManager p) (serverNetworkingManager p) n (fibers p).
Definition set_fibers fs (p : t) : t :=
  mk (isClientAuthenticated p) (isServerAuthenticated p) (isDestroyed p) (clientNetworkingManager p) (serverNetworkingManager p)
    (badPacketCount p) fs.

Definition suspend (f : fiber) (p : t) : t := set_fibers (fibers p ++ [f]) p.

Definition hasAuthenticated (p : t) : bool := ServerPeer.isAuthenticated (serverNetworkingManager p).
Definition isAuthenticated (p : t) : bool := isClientAuthenticated p && isServerAuthenticated p.

Definition peerMode (p : t) : option OPNetIndexerMode :=
  match ServerPeer.clientIndexerMode (serverNetworkingManager p) with
  | Some 0 => Some ARCHIVE
  | Some 1 => Some FULL
  | Some 2 => Some LIGHT
  | _ => None
  end.

Definition sendInternal (data : bytes) (p : t) : list peer_output := if isDestroyed p then [] else [SendMsg data].

Definition disconnect (code : DisconnectionCode) (p : t) : t * list peer_output :=
  if isDestroyed p then (p, []) else (set_flags false (isServerAuthenticated p) p, [DisconnectPeer code]).

(** The count is raised first: the fifth bad packet and those after it do
    nothing. *)
Definition badPacket (p : t) : t * list peer_output :=
  let p := set_bad (badPacketCount p + 1) p in
  if decide (badPacketCount p < 5) then let '(p, os) := disconnect BAD_PACKET p in (suspend AfterBadPacket p, os) else (p, []).

(** [discoverPeers] of both; what throws is not caught. *)
Definition discoverPeers (r : random) (p : t) : t * list peer_output :=
  if isDestroyed p then (p, [])
  else (p, flat_map (λ o, match o with Send data => sendInternal (0x00 :: data) p | _ => [] end)
             (default [] (ClientPeer.sendContent r PDiscover discoverData (clientNetworkingManager p)))).

Definition onAuth (r : random) (p : t) : t * list peer_output :=
  if isAuthenticated p then let '(p, os) := discoverPeers r p in (p, ReportAuthenticatedPeer :: os) else (p, []).

(** The outputs of a side: a message is prefixed with the side it is for. *)
Definition server_output (r : random) (o : output) (p : t) : t * list peer_output :=
  match o with
  | Send data => (p, sendInternal (0x01 :: data) p)
  | Disconnect code => disconnect code p
  | SessionOpened => onAuth r (set_flags (isClientAuthenticated p) true p)
  | Event k c => (p, [ServerEvent k c])
  | Settled (Some true) => (p, [])
  | Settled _ => badPacket p
  end.

Definition client_output (r : random) (o : output) (p : t) : t * list peer_output :=
  match o with
  | Send data => (p, sendInternal (0x00 :: data) p)
  | Disconnect code => disconnect code p
  | SessionOpened => onAuth r (set_flags true (isServerAuthenticated p) p)
  | Event k c => (p, [ClientEvent k c])
  | Settled (Some true) => (p, [])
  | Settled _ => badPacket p
  end.

Fixpoint outputs (f : output → t → t * list peer_output) (os : list output) (p : t) : t * list peer_output :=
  match os with
  | [] => (p, [])
  | o :: os => let '(p, l) := f o p in let '(p, l') := outputs f os p in (p, l ++ l')
  end.

Definition server_step (r : random) (e : ServerPeer.event) (p : t) : t * list peer_output :=
  let '(s, os) := ServerPeer.step self e (serverNetworkingManager p) in outputs (server_output r) os (set_server s p).

Definition client_step (r : random) (e : ClientPeer.event) (p : t) : t * list peer_output :=
  let '(c, os) := ClientPeer.step self magic e (clientNetworkingManager p) in outputs (client_output r) os (set_client c p).

Definition onMessage (r : random) (ping : Z * Z) (buffer : bytes) (p : t) : t * list peer_output :=
  if bool_decide (head buffer = Some 0x01) then client_step r (ClientPeer.Receive r ping (tail buffer)) p
  else server_step r (ServerPeer.Receive r (tail buffer)) p.

(** The end of [destroy]. Only the client's side is destroyed. *)
Definition destroyed_ (p : t) : t :=
  mk (isClientAuthenticated p) (isServerAuthenticated p) true (ClientPeer.destroy (clientNetworkingManager p))
    (serverNetworkingManager p) (badPacketCount p) (fibers p).

Definition destroy (shouldDisconnect : bool) (p : t) : t * list peer_output :=
  if isDestroyed p then (p, [])
  else if shouldDisconnect then let '(p, os) := disconnect RECONNECT p in (suspend AfterGoodbye p, os)
  else (destroyed_ p, []).

Inductive event : Type :=
| OnMessage (r : random) (ping : Z * Z) (buffer : bytes)
| Authenticate (r : random)
| OnDisconnect
| DiscoverTimer (r : random)
| FromServer (r : random) (e : ServerPeer.event)     (* a call of the server goes on, or its timer fires *)
| FromClient (r : random) (e : ClientPeer.event)
| Resume (i : nat).

(** The messages of the network come through [onMessage] only. *)
Definition internal_server (e : ServerPeer.event) : bool := match e with ServerPeer.Receive _ _ => false | _ => true end.
Definition internal_client (e : ClientPeer.event) : bool := match e with ClientPeer.Receive _ _ _ => false | _ => true end.

Definition step (e : event) (p : t) : t * list peer_output :=
  match e with
  | OnMessage r ping buffer => onMessage r ping buffer p
  | Authenticate r => client_step r (ClientPeer.Login r) p
  | OnDisconnect => destroy true p
  | DiscoverTimer r => discoverPeers r p
  | FromServer r e => if internal_server e then server_step r e p else (p, [])
  | FromClient r e => if internal_client e then client_step r e p else (p, [])
  | Resume i =>
      match fibers p !! i with
      | Some AfterBadPacket => destroy false (set_fibers (delete i (fibers p)) p)
      | Some AfterGoodbye => (destroyed_ (set_fibers (delete i (fibers p)) p), [])
      | None => (p, [])
      end
  end.

Fixpoint run (l : list event) (p : t) : t * list peer_output :=
  match l with
  | [] => (p, [])
  | e :: l => let '(p, os) := step e p in let '(p, os') := run l p in (p, os ++ os')
  end.
End OPNetPeer.
End OPNetPeer.

(** ** The server's side of a peer *)

Section Projection.
Context {LB : BtcLib} {LW : @WitnessLib LB} {LS : @SodiumLib LB LW} {LP : ProtobufLib}.
Context (self : SelfIdentity) (magic : option Z) (discoverData : Content).
Import OPNetPeer.
Implicit Types (p : OPNetPeer.t) (l : list event).

Abbreviation step_ := (step self magic discoverData).
Abbreviation run_ := (run self magic discoverData).

(** The events of the server among those of the peer. *)
Definition server_events l : list ServerPeer.event :=
  omap (λ e, match e with
    | OnMessage r _ buffer => if bool_decide (head buffer = Some 0x01) then None else Some (ServerPeer.Receive r (tail buffer))
    | FromServer _ e => if internal_server e then Some e else None
    | _ => None
    end) l.

Lemma onAuth_server r p : serverNetworkingManager (onAuth discoverData r p).1 = serverNetworkingManager p ∧
  isServerAuthenticated (onAuth discoverData r p).1 = isServerAuthenticated p.
Proof. unfold onAuth, discoverPeers. by repeat case_match; simplify_eq/=. Qed.

Lemma disconnect_server code p : serverNetworkingManager (disconnect code p).1 = serverNetworkingManager p ∧
  isServerAuthenticated (disconnect code p).1 = isServerAuthenticated p.
Proof. unfold disconnect. by case_match. Qed.

Lemma badPacket_server p : serverNetworkingManager (badPacket p).1 = serverNetworkingManager p ∧
  isServerAuthenticated (badPacket p).1 = isServerAuthenticated p.
Proof.
  unfold badPacket. case_decide; [|done]. pose proof (disconnect_server BAD_PACKET (set_bad (badPacketCount p + 1) p)) as Hd.
  by destruct (disconnect _ _).
Qed.

Lemma server_output_server r o p :
  serverNetworkingManager (server_output discoverData r o p).1 = serverNetworkingManager p ∧
  (isServerAuthenticated (server_output discoverData r o p).1 = true → isServerAuthenticated p = true ∨ o = SessionOpened).
Proof.
  destruct o as [| | | |[[]|]]; cbn; auto.
  - destruct (disconnect_server code p) as [-> ->]. auto.
  - destruct (onAuth_server r (set_flags (isClientAuthenticated p) true p)) as [-> ->]. auto.
  - destruct (badPacket_server p) as [-> ->]. auto.
  - destruct (badPacket_server p) as [-> ->]. auto.
Qed.

Lemma client_output_server r o p :
  serverNetworkingManager (client_output discoverData r o p).1 = serverNetworkingManager p ∧
  isServerAuthenticated (client_output discoverData r o p).1 = isServerAuthenticated p.
Proof.
  destruct o as [| | | |[[]|]]; cbn; auto using disconnect_server, badPacket_server.
  apply (onAuth_server r (set_flags true (isServerAuthenticated p) p)).
Qed.

(** What the manager of the peers relies on: the report, and the packets of a
    session. *)
Definition trusted (o : peer_output) : bool :=
  match o with ReportAuthenticatedPeer | ServerEvent _ _ => true | _ => false end.

Lemma sends_untrusted data p o : o ∈ sendInternal data p → trusted o = false.
Proof. unfold sendInternal. case_match; [by intros ?%elem_of_nil|by intros ->%list_elem_of_singleton]. Qed.

Lemma disconnect_untrusted code p o : o ∈ (disconnect code p).2 → trusted o = false.
Proof. unfold disconnect. case_match; cbn; [by intros ?%elem_of_nil|by intros ->%list_elem_of_singleton]. Qed.

Lemma badPacket_untrusted p o : o ∈ (badPacket p).2 → trusted o = false.
Proof.
  unfold badPacket. case_decide; [|by intros ?%elem_of_nil]. pose proof (disconnect_untrusted BAD_PACKET (set_bad (badPacketCount p + 1) p) o) as Hd.
  by destruct (disconnect _ _).
Qed.

Lemma discover_untrusted r p o : o ∈ (discoverPeers discoverData r p).2 → trusted o = false.
Proof.
  unfold discoverPeers. case_match; cbn; [by intros ?%elem_of_nil|]. intros (x & Hx & Ho)%list_elem_of_In%in_flat_map.
  apply list_elem_of_In in Ho. destruct x; try (by apply elem_of_nil in Ho). by eapply sends_untrusted.
Qed.

Lemma onAuth_trusted r p o : o ∈ (onAuth discoverData r p).2 → trusted o = true → isServerAuthenticated p = true.
Proof.
  unfold onAuth, isAuthenticated. destruct (isClientAuthenticated p), (isServerAuthenticated p); cbn; try done; by intros ?%elem_of_nil.
Qed.

(** Outputs that are trusted come from a session, or from a peer that has one. *)
Lemma outputs_server r os p (P : Prop) :
  (isServerAuthenticated p = true → P) → (SessionOpened ∈ os → P) → (∀ k c, Event k c ∈ os → P) →
  let q := outputs (server_output discoverData r) os p in
  serverNetworkingManager q.1 = serverNetworkingManager p ∧ (isServerAuthenticated q.1 = true → P) ∧
  (∀ o, o ∈ q.2 → trusted o = true → P).
Proof.
  revert p. induction os as [|o os IH]; intros p Hp Hs He; cbn; [split; [done|split; [done|by intros o ?%elem_of_nil]]|].
  destruct (server_output_server r o p) as [H1 H2].
  assert (∀ x, x ∈ (server_output discoverData r o p).2 → trusted x = true → P) as Hout.
  { intros x Hx Ht. destruct o as [data|code| |k c|[[]|]]; cbn in Hx.
    - apply sends_untrusted in Hx. congruence.
    - apply disconnect_untrusted in Hx. congruence.
    - apply Hs. left.
    - apply (He k c). left.
    - by apply elem_of_nil in Hx.
    - apply badPacket_untrusted in Hx. congruence.
    - apply badPacket_untrusted in Hx. congruence. }
  destruct (server_output discoverData r o p) as [p1 l1]. cbn in *. specialize (IH p1).
  destruct (outputs _ os p1) as [p2 l2]. cbn in *. rewrite <- H1. destruct IH as (H3 & H4 & H5).
  - intros H. destruct (H2 H) as [?| ->]; [auto|]. apply Hs. left.
  - intros H. apply Hs. by right.
  - intros k c H. apply (He k c). by right.
  - split; [done|]. split; [done|]. intros x [Hx|Hx]%elem_of_app; eauto.
Qed.

Lemma outputs_client r os p (P : Prop) :
  (isServerAuthenticated p = true → P) →
  let q := outputs (client_output discoverData r) os p in
  serverNetworkingManager q.1 = serverNetworkingManager p ∧ (isServerAuthenticated q.1 = true → P) ∧
  (∀ o, o ∈ q.2 → trusted o = true → P).
Proof.
  revert p. induction os as [|o os IH]; intros p Hp; cbn; [split; [done|split; [done|by intros o ?%elem_of_nil]]|].
  destruct (client_output_server r o p) as [H1 H2].
  assert (∀ x, x ∈ (client_output discoverData r o p).2 → trusted x = true → P) as Hout.
  { intros x Hx Ht. destruct o as [data|code| |k c|[[]|]]; cbn in Hx.
    - apply sends_untrusted in Hx. congruence.
    - apply disconnect_untrusted in Hx. congruence.
    - apply Hp. by apply (onAuth_trusted r _ _ Hx).
    - by apply list_elem_of_singleton in Hx as ->.
    - by apply elem_of_nil in Hx.
    - apply badPacket_untrusted in Hx. congruence.
    - apply badPacket_untrusted in Hx. congruence. }
  destruct (client_output discoverData r o p) as [p1 l1]. cbn in *. specialize (IH p1).
  destruct (outputs _ os p1) as [p2 l2]. cbn in *. rewrite <- H1. destruct IH as (H3 & H4 & H5); [by rewrite H2|].
  split; [done|]. split; [done|]. intros x [Hx|Hx]%elem_of_app; eauto.
Qed.

(** The server's side runs on its events; the peer is taken for authenticated, and
    what it does is trusted, only when it answered the challenge. *)
Definition projects l (q : OPNetPeer.t * list peer_output) : Prop :=
  serverNetworkingManager q.1 = (ServerPeer.run self (server_events l) ServerPeer.initial).1 ∧
  (isServerAuthenticated q.1 = true → authenticated (server_events l)) ∧
  (∀ o, o ∈ q.2 → trusted o = true → authenticated (server_events l)).

Lemma server_events_snoc l e : server_events (l ++ [e]) = server_events l ++ server_events [e].
Proof. apply omap_app. Qed.

Lemma server_step_projects l r e e' p os :
  projects l (p, os) → server_events [e'] = [e] → projects (l ++ [e']) (server_step self discoverData r e p).
Proof.
  intros (Hs & Ha & _) He. cbn in Hs, Ha. unfold projects. rewrite server_events_snoc, He.
  pose proof (run_ok self (server_events l ++ [e])) as [_ Hos]. rewrite run_app in *. unfold server_step. rewrite Hs. cbn in *.
  destruct (ServerPeer.run self (server_events l) ServerPeer.initial) as [s sos]. cbn in *.
  destruct (ServerPeer.step self e s) as [s' os']. cbn in *. rewrite app_nil_r in Hos. apply Forall_app in Hos as [_ Hos].
  rewrite Forall_forall in Hos.
  destruct (outputs_server r os' (set_server s' p) (authenticated (server_events l ++ [e]))) as (H1 & H2 & H3).
  - intros H. by apply authenticated_app, Ha.
  - intros H. by apply (Hos _ H).
  - intros k c H. by destruct (Hos _ H).
  - by split.
Qed.

Lemma other_step_projects l e p os q :
  projects l (p, os) → server_events [e] = [] → serverNetworkingManager q.1 = serverNetworkingManager p →
  isServerAuthenticated q.1 = isServerAuthenticated p → (∀ o, o ∈ q.2 → trusted o = false) → projects (l ++ [e]) q.
Proof.
  intros (Hs & Ha & _) He H1 H2 H3. unfold projects. rewrite server_events_snoc, He, app_nil_r, H1, H2.
  split; [done|]. split; [done|]. intros o Ho Ht. by rewrite (H3 o Ho) in Ht.
Qed.

Lemma client_step_projects l e r ce p os :
  projects l (p, os) → server_events [e] = [] → projects (l ++ [e]) (client_step self magic discoverData r ce p).
Proof.
  intros (Hs & Ha & _) He. cbn in Hs, Ha. unfold projects. rewrite server_events_snoc, He, app_nil_r. unfold client_step.
  destruct (ClientPeer.step self magic ce (clientNetworkingManager p)) as [c cos].
  destruct (outputs_client r cos (set_client c p) (authenticated (server_events l))) as (H1 & H2 & H3); [done|]. rewrite H1. by split.
Qed.

Lemma destroy_other b p : let q := destroy b p in
  serverNetworkingManager q.1 = serverNetworkingManager p ∧ isServerAuthenticated q.1 = isServerAuthenticated p ∧
  ∀ o, o ∈ q.2 → trusted o = false.
Proof.
  unfold destroy. destruct (isDestroyed p); [split; [done|split; [done|by intros o ?%elem_of_nil]]|].
  destruct b; [|split; [done|split; [done|by intros o ?%elem_of_nil]]].
  pose proof (disconnect_server RECONNECT p) as [H1 H2]. pose proof (disconnect_untrusted RECONNECT p) as H3.
  by destruct (disconnect RECONNECT p).
Qed.

Lemma step_projects l e p os : projects l (p, os) → projects (l ++ [e]) (step_ e p).
Proof.
  intros Hp. assert (∀ o : peer_output, o ∈ [] → trusted o = false) as Hnil by by intros o ?%elem_of_nil.
  destruct e as [r ping b|r| |r|r e|r e|i]; cbn.
  - unfold onMessage. destruct (bool_decide (head b = Some 1)) eqn:Hb; [eapply client_step_projects|eapply server_step_projects];
      [done|cbn; by rewrite Hb|done|cbn; by rewrite Hb].
  - by eapply client_step_projects.
  - destruct (destroy_other true p) as (H1 & H2 & H3). by apply (other_step_projects l _ p os).
  - apply (other_step_projects l _ p os); [done|done| | |intros o; by apply discover_untrusted];
      unfold discoverPeers; by case_match.
  - destruct (internal_server e) eqn:He; [eapply server_step_projects; [done|cbn; by rewrite He]|].
    apply (other_step_projects l _ p os); [done|cbn; by rewrite He|done..].
  - destruct (internal_client e) eqn:He; [by eapply client_step_projects|]. by apply (other_step_projects l _ p os).
  - destruct (fibers p !! i) as [[]|]; [|by apply (other_step_projects l _ p os)..].
    destruct (destroy_other false (set_fibers (delete i (fibers p)) p)) as (H1 & H2 & H3). by apply (other_step_projects l _ p os).
Qed.

Lemma run_snoc_ l e p : run_ (l ++ [e]) p = (let '(p, os) := run_ l p in let '(p', os') := step_ e p in (p', os ++ os')).
Proof.
  revert p. induction l as [|e1 l IH]; intros p; cbn.
  - destruct (step_ e p) as [p' os]. by rewrite app_nil_r.
  - destruct (step_ e1 p) as [p1 os1]. rewrite (IH p1). destruct (run_ l p1) as [p2 os2], (step_ e p2). by rewrite app_assoc.
Qed.

Lemma run_projects l : projects l (run_ l initial).
Proof.
  induction l as [|e l IH] using rev_ind; [split; [done|split; [done|by intros o ?%elem_of_nil]]|].
  rewrite run_snoc_. destruct (run_ l initial) as [p os]. pose proof (step_projects l e p os IH) as (H1 & H2 & H3).
  destruct (step_ e p) as [p' os']. split; [done|]. split; [done|]. intros o [Ho|Ho]%elem_of_app Ht; [|by apply (H3 o)].
  rewrite server_events_snoc. apply authenticated_app. destruct IH as (_ & _ & IH). by apply (IH o).
Qed.

(** whatever is sent to either side of a connection, a peer counts as
    authenticated, is reported as such, and has its packets passed on to the node
    only after it answered the challenge drawn for it with the key it presented. *)
Theorem authenticated_peers_answered l :
  let p := (run_ l initial).1 in
  isAuthenticated p = true ∨ hasAuthenticated p = true ∨ (∃ o, o ∈ (run_ l initial).2 ∧ trusted o = true) →
  authenticated (server_events l).
Proof.
  intros p. destruct (run_projects l) as (Hs & Ha & Ho). fold p in Hs, Ha. intros [H|[H|(o & H & Ht)]].
  - apply Ha. unfold isAuthenticated in H. by apply andb_prop in H as [_ H].
  - pose proof (run_ok self (server_events l)) as [Hinv _]. rewrite <- Hs in Hinv. by apply (inv_auth _ _ _ Hinv).
  - by apply (Ho o).
Qed.
End Projection.
