(* ===== verification/PeerAddresses.v ===== *)
(** * Addresses of peers (poc/networking/AddressExtractor.ts)

    Which host an address names, and which hosts are private. On the text of an
    IPv4 address the tests of the code are the private ranges. *)

From S2P Require Import Prelude.

(** A multiaddress: what [getComponents] answers, [None] when it throws, its text
    and its bytes. *)
Record ComponentLike : Type := mkComponent { component_name : string; component_value : option string }.
Record Multiaddr : Type := mkMultiaddr {
  getComponents : option (list ComponentLike);
  addr_text : string;
  addr_bytes : bytes
}.

Module AddressExtractor.

Definition IP_HOST_PROTOCOLS : list string := ["ip4"; "ip6"].
Definition DNS_HOST_PROTOCOLS : list string := ["dns"; "dns4"; "dns6"; "dnsaddr"].
Definition VALUED_PROTOCOLS : list string :=
  ["ip4"; "ip6"; "dns"; "dns4"; "dns6"; "dnsaddr"; "tcp"; "udp"; "p2p"; "ipfs"; "unix"; "onion"; "onion3"; "garlic64"; "garlic32";
   "memory"].

(** The loop over the parts of the text. *)
Fixpoint parse_parts (parts : list string) : list ComponentLike :=
  match parts with
  | [] => []
  | name :: parts =>
      if decide (name ∈ VALUED_PROTOCOLS) then
        match parts with
        | [] => [mkComponent name (Some "")]
        | value :: parts => mkComponent name (Some value) :: parse_parts parts
        end
      else mkComponent name None :: parse_parts parts
  end.

Definition getComponentsSafe (addr : Multiaddr) : list ComponentLike :=
  match getComponents addr with
  | Some l => l
  | None => parse_parts (List.filter truthy_str (split_on "/" (addr_text addr)))
  end.

Definition is_host (c : ComponentLike) : bool :=
  bool_decide (component_name c ∈ IP_HOST_PROTOCOLS) || bool_decide (component_name c ∈ DNS_HOST_PROTOCOLS).

Definition extractAddressHost (addr : Multiaddr) : option string :=
  match List.find is_host (getComponentsSafe addr) with
  | Some c => if truthy_ostr (component_value c) then component_value c else None
  | None => None
  end.

Definition isUnspecifiedAddress (ip : string) : bool := String.eqb ip "0.0.0.0" || String.eqb ip "::".
Definition isLoopbackAddress (ip : string) : bool := String.prefix "127." ip || String.eqb ip "::1".

(** [parseInt(s, 10)] of a string without white space or sign: its leading
    digits, [None] for NaN. *)
Definition digit_of (a : Ascii.ascii) : option Z :=
  let n := Z.of_nat (Ascii.nat_of_ascii a) in if decide (48 ≤ n ≤ 57) then Some (n - 48) else None.
Fixpoint parse_digits (acc : Z) (s : string) : Z :=
  match s with
  | EmptyString => acc
  | String a s => match digit_of a with Some d => parse_digits (10 * acc + d) s | None => acc end
  end.
Definition parseInt (s : string) : option Z :=
  match s with
  | EmptyString => None
  | String a _ => match digit_of a with Some _ => Some (parse_digits 0 s) | None => None end
  end.

(** The second octet is in a range. *)
Definition second_octet (ip : string) (lo hi : Z) : bool :=
  match split_on "." ip !! 1%nat with
  | None => false
  | Some o => match parseInt o with Some second => bool_decide (lo ≤ second ≤ hi) | None => false end
  end.

Definition isPrivateOrLoopbackAddress (ip : string) : bool :=
  if isLoopbackAddress ip then true
  else if isUnspecifiedAddress ip then true
  else if String.prefix "10." ip || String.prefix "192.168." ip || String.prefix "169.254." ip || String.prefix "fe80:" ip ||
          String.prefix "fc00:" ip || String.prefix "fd00:" ip then true
  else if String.prefix "172." ip && second_octet ip 16 31 then true
  else if String.prefix "100." ip && second_octet ip 64 127 then true
  else false.

Definition filterMultiaddrsLoopback (addrs : list Multiaddr) : list Multiaddr :=
  List.filter (λ addr, match extractAddressHost addr with
    | None => false
    | Some ip => negb (isLoopbackAddress ip) && negb (isUnspecifiedAddress ip) end) addrs.

Definition filterMultiaddrsPrivate (addrs : list Multiaddr) : list Multiaddr :=
  List.filter (λ addr, match extractAddressHost addr with None => false | Some ip => negb (isPrivateOrLoopbackAddress ip) end) addrs.
End AddressExtractor.

(** ** IPv4 *)

Section IPv4.
Import AddressExtractor.
Definition octets : list Z := map Z.of_nat (seq 0 256).
Definition octet (z : Z) : Prop := 0 ≤ z < 256.

Definition ipv4_text (a b c d : Z) : string :=
  (pretty a +:+ "." +:+ pretty b +:+ "." +:+ pretty c +:+ "." +:+ pretty d)%string.

(** The ranges of RFC 1122, 1918, 3927 and 6598, and the unspecified address. *)
Definition private_ipv4 (a b c d : Z) : Prop :=
  a = 127 ∨ a = 10 ∨ (a = 192 ∧ b = 168) ∨ (a = 169 ∧ b = 254) ∨ (a = 172 ∧ 16 ≤ b ≤ 31) ∨ (a = 100 ∧ 64 ≤ b ≤ 127) ∨
  (a = 0 ∧ b = 0 ∧ c = 0 ∧ d = 0).

Lemma octet_in z : octet z → z ∈ octets.
Proof.
  intros Hz. apply list_elem_of_fmap. exists (Z.to_nat z). unfold octet in Hz. split; [lia|]. apply elem_of_seq. lia.
Qed.

(** A property of all octets, by evaluation. *)
Lemma all_octets (P : Z → bool) : forallb P octets = true → ∀ z, octet z → P z = true.
Proof. intros H z Hz. rewrite forallb_forall in H. apply H, list_elem_of_In, octet_in, Hz. Qed.

Fixpoint dotless (s : string) : bool :=
  match s with EmptyString => true | String a s => negb (Ascii.eqb a ".") && dotless s end.

Definition octet_reads (z : Z) : bool := dotless (pretty z) && bool_decide (parseInt (pretty z) = Some z).

Lemma octets_read : forallb octet_reads octets = true.
Proof. vm_compute. reflexivity. Qed.

Lemma octet_text z : octet z → dotless (pretty z) = true ∧ parseInt (pretty z) = Some z.
Proof.
  intros Hz. pose proof (all_octets octet_reads octets_read z Hz) as H.
  apply andb_prop in H as [? H]. split; [done|]. by apply bool_decide_eq_true in H.
Qed.

Lemma append_nil s : ("" +:+ s = s)%string.
Proof. reflexivity. Qed.
Lemma append_cons a s t : (String a s +:+ t = String a (s +:+ t))%string.
Proof. reflexivity. Qed.

Lemma prefix_cons a b s t : String.prefix (String a s) (String b t) = Ascii.eqb a b && String.prefix s t.
Proof.
  cbn [String.prefix]. destruct (Ascii.ascii_dec a b) as [->|Hab]; [by rewrite Ascii.eqb_refl|].
  by rewrite (proj2 (Ascii.eqb_neq a b) Hab).
Qed.

Lemma prefix_nil s : String.prefix "" s = true.
Proof. by destruct s. Qed.

Lemma dot_neq a : negb (Ascii.eqb a ".") = true → Ascii.eqb "." a = false ∧ Ascii.eqb a "." = false.
Proof. intros H%negb_true_iff. split; [|done]. by rewrite Ascii.eqb_sym. Qed.

(** A prefix up to a dot: the text up to the first dot, then the rest. *)
Lemma prefix_dot k s p r : dotless k = true → dotless s = true →
  String.prefix (k +:+ "." +:+ p)%string (s +:+ "." +:+ r)%string = String.eqb k s && String.prefix p r.
Proof.
  revert s. induction k as [|a k IH]; intros [|b s] Hk Hs; cbn [String.eqb dotless] in *; rewrite ?append_cons, ?append_nil, ?append_cons, prefix_cons, ?append_nil.
  - by rewrite Ascii.eqb_refl.
  - apply andb_prop in Hs as [Hb _]. by destruct (dot_neq b Hb) as [-> _].
  - apply andb_prop in Hk as [Ha _]. by destruct (dot_neq a Ha) as [_ ->].
  - apply andb_prop in Hk as [_ Hk], Hs as [_ Hs]. pose proof (IH s Hk Hs) as E.
    change (String.prefix (k +:+ String "." p) (s +:+ String "." r) = String.eqb k s && String.prefix p r)%string in E.
    rewrite E. by destruct (Ascii.eqb a b).
Qed.

Lemma split_dot s r : dotless s = true → split_on "." (s +:+ "." +:+ r)%string = s :: split_on "." r.
Proof.
  induction s as [|a s IH]; [done|]. cbn [dotless]. intros [Ha Hs]%andb_prop. rewrite append_cons. cbn [split_on].
  rewrite decide_False by (intros ->; by rewrite Ascii.eqb_refl in Ha). by rewrite (IH Hs).
Qed.

Lemma pretty_eqb (k z : Z) : String.eqb (pretty k) (pretty z) = bool_decide (z = k).
Proof.
  destruct (String.eqb_spec (pretty k) (pretty z)) as [H|H]; case_bool_decide; try done; [|congruence].
  apply (inj pretty) in H. congruence.
Qed.

(** A prefix of one octet, and of two. *)
Lemma prefix_octet p k a b c d : p = (pretty k +:+ ".")%string → octet k → octet a →
  String.prefix p (ipv4_text a b c d) = bool_decide (a = k).
Proof.
  intros -> Hk Ha. unfold ipv4_text. rewrite (prefix_dot (pretty k) (pretty a) ""); [|by apply octet_text..].
  by rewrite prefix_nil, andb_true_r, pretty_eqb.
Qed.

Lemma prefix_octets p k1 k2 a b c d : p = (pretty k1 +:+ "." +:+ pretty k2 +:+ ".")%string →
  octet k1 → octet k2 → octet a → octet b →
  String.prefix p (ipv4_text a b c d) = bool_decide (a = k1) && bool_decide (b = k2).
Proof.
  intros -> Hk1 Hk2 Ha Hb. unfold ipv4_text. rewrite prefix_dot; [|by apply octet_text..].
  rewrite (prefix_dot (pretty k2) (pretty b) ""); [|by apply octet_text..]. by rewrite prefix_nil, andb_true_r, !pretty_eqb.
Qed.

Lemma second_octet_text a b c d lo hi : octet a → octet b → second_octet (ipv4_text a b c d) lo hi = bool_decide (lo ≤ b ≤ hi).
Proof.
  intros Ha Hb. unfold second_octet, ipv4_text. rewrite !split_dot by (by apply octet_text). cbn [lookup list_lookup].
  by rewrite (proj2 (octet_text b Hb)).
Qed.

(** A text that does not start with a digit. *)
Lemma starts_with_digit a b c d : octet a → ∃ x s, ipv4_text a b c d = String x s ∧ bool_decide (48 ≤ Z.of_nat (Ascii.nat_of_ascii x) ≤ 57) = true.
Proof.
  intros Ha. destruct (octet_text a Ha) as [_ H]. unfold ipv4_text. destruct (pretty a) as [|x s]; [done|]. exists x. eexists. split; [done|].
  cbn in H. unfold digit_of in H. case_decide as Hx; [|done]. by apply bool_decide_true.
Qed.
Lemma split_dotless s : dotless s = true → split_on "." s = [s].
Proof.
  induction s as [|a s IH]; [done|]. cbn [dotless split_on]. intros [Ha Hs]%andb_prop.
  rewrite decide_False by (intros ->; by rewrite Ascii.eqb_refl in Ha). by rewrite (IH Hs).
Qed.

Lemma split_ipv4 a b c d : octet a → octet b → octet c → octet d →
  split_on "." (ipv4_text a b c d) = [pretty a; pretty b; pretty c; pretty d].
Proof.
  intros Ha Hb Hc Hd. unfold ipv4_text. rewrite !split_dot by (by apply octet_text). by rewrite split_dotless by (by apply octet_text).
Qed.

Lemma unspecified_ipv4 a b c d : octet a → octet b → octet c → octet d →
  String.eqb (ipv4_text a b c d) "0.0.0.0" = bool_decide (a = 0 ∧ b = 0 ∧ c = 0 ∧ d = 0).
Proof.
  intros Ha Hb Hc Hd. destruct (String.eqb_spec (ipv4_text a b c d) "0.0.0.0") as [E|E]; case_bool_decide as H; try done.
  - exfalso. apply H. apply (f_equal (split_on ".")) in E. rewrite split_ipv4 in E by done.
    change (split_on "." "0.0.0.0") with [pretty (0 : Z); pretty (0 : Z); pretty (0 : Z); pretty (0 : Z)] in E.
    injection E as Ea Eb Ec Ed. repeat split; by apply (inj pretty).
  - exfalso. apply E. by destruct H as (-> & -> & -> & ->).
Qed.

Lemma not_ipv4 a b c d x s : octet a → digit_of x = None → String.prefix (String x s) (ipv4_text a b c d) = false.
Proof.
  intros Ha Hx. destruct (starts_with_digit a b c d Ha) as (y & t & -> & Hy). rewrite prefix_cons.
  destruct (Ascii.eqb_spec x y) as [->|]; [|done]. unfold digit_of in Hx. apply bool_decide_eq_true in Hy. by rewrite decide_True in Hx.
Qed.

Lemma not_ipv4_eq a b c d x s : octet a → digit_of x = None → String.eqb (ipv4_text a b c d) (String x s) = false.
Proof.
  intros Ha Hx. destruct (starts_with_digit a b c d Ha) as (y & t & -> & Hy). apply String.eqb_neq. intros [= -> _].
  unfold digit_of in Hx. apply bool_decide_eq_true in Hy. by rewrite decide_True in Hx.
Qed.

(** C22: on the text of an IPv4 address the tests of the code, which compare
    prefixes and read the second octet, are the private ranges: loopback, the three
    private blocks, link-local, shared address space and the unspecified address,
    and no other address. *)
Theorem private_ipv4_ranges a b c d :
  octet a → octet b → octet c → octet d →
  (isPrivateOrLoopbackAddress (ipv4_text a b c d) = true ↔ private_ipv4 a b c d).
Proof.
  intros Ha Hb Hc Hd. assert (∀ k, 0 ≤ k < 256 → octet k) as Ho by done.
  unfold isPrivateOrLoopbackAddress, isLoopbackAddress, isUnspecifiedAddress.
  rewrite (not_ipv4_eq a b c d ":" ":1" Ha), (not_ipv4_eq a b c d ":" ":" Ha), (unspecified_ipv4 a b c d Ha Hb Hc Hd) by done.
  rewrite (not_ipv4 a b c d "f" "e80:" Ha), (not_ipv4 a b c d "f" "c00:" Ha), (not_ipv4 a b c d "f" "d00:" Ha) by done.
  rewrite !second_octet_text by done.
  rewrite (prefix_octet "127." 127), (prefix_octet "10." 10), (prefix_octet "172." 172), (prefix_octet "100." 100) by (done || by apply Ho).
  rewrite (prefix_octets "192.168." 192 168), (prefix_octets "169.254." 169 254) by (done || by apply Ho).
  assert (∀ x y : bool, (if x then true else y) = x || y) as Hor by done. rewrite !Hor. unfold private_ipv4.
  rewrite !orb_true_iff, !andb_true_iff, !bool_decide_eq_true. intuition (lia || done).
Qed.
End IPv4.

Lemma private_ipv4_ranges_witness :
  AddressExtractor.isPrivateOrLoopbackAddress (ipv4_text 172 31 0 1) = true ∧ ¬ private_ipv4 172 32 0 1 ∧
  (AddressExtractor.isPrivateOrLoopbackAddress (ipv4_text 100 64 9 9) = true ↔ private_ipv4 100 64 9 9).
Proof.
  split; [vm_compute; reflexivity|]. split; [unfold private_ipv4; lia|].
  apply (private_ipv4_ranges 100 64 9 9); unfold octet; lia.
Defined.
