(* ===== verification/PeerExamples.v ===== *)
(** * Handshakes that are run

    Instances of sodium and of protobuf, one honest handshake, and what the
    handshake lets through. *)

From S2P Require Import Prelude ConsensusRules Consensus HeaderValidator Epochs EpochManager WitnessManager PeerProtocol Encryptem PeerServer PeerServerFacts PeerClient PeerHandshake PeerNode.

#[local] Existing Instance string_btclib.

(** A signature is the sum of the data with the key; a box is the message after
    its tag. *)
Definition total (b : bytes) : Z := foldr Z.add 0 b.

#[local] Instance example_witness : WitnessLib := {|
  sha512 := λ b, replicate 64 (total b);
  crypto_sign_detached := λ data sk, resized 64 (total data :: take 32 sk);
  crypto_sign_verify_detached := λ sig data pk, bool_decide (sig = resized 64 (total data :: pk))
|}.

#[local] Instance example_sodium : SodiumLib := {|
  crypto_sign_seed_keypair := λ seed, (seed, seed ++ seed);
  crypto_box_easy := λ m _ _ _, Some (replicate 16 0 ++ m);
  crypto_box_open_easy := λ c _ _ _, Some (Some (drop 16 c));
  crypto_auth := λ m k, resized 32 (total m :: k);
  crypto_auth_verify := λ out m k, bool_decide (out = resized 32 (total m :: k));
  randombytes_buf_deterministic := λ seed, if decide (length seed = 32%nat) then Some seed else None;
  box_keypair := λ pk sk, length pk = 32%nat ∧ length sk = 32%nat
|}.

Lemma resized_length n b : length (resized n b) = n.
Proof. unfold resized. rewrite length_take, length_app, length_replicate. lia. Qed.

#[local] Instance example_sodium_laws : SodiumLaws.
Proof.
  split; cbn -[resized].
  - done.
  - intros m nonce pkA skA pkB skB _ _ _. eexists. split; [done|]. split; [by rewrite Nat.add_comm|done].
  - done.
  - intros seed m Hs. rewrite <- Hs, take_app_length. by apply bool_decide_true.
  - intros. apply resized_length.
  - intros. apply resized_length.
  - intros. by apply bool_decide_true.
  - intros seed Hs. by rewrite decide_True.
Qed.

(** A message is the list of its fields, each after its length. *)
Definition put (b : bytes) : bytes := Z.of_nat (length b) :: b.
Definition take_field (b : bytes) : bytes * bytes :=
  match b with [] => ([], []) | n :: b => (take (Z.to_nat n) b, drop (Z.to_nat n) b) end.
Fixpoint fields (n : nat) (b : bytes) : list bytes :=
  match n with O => [] | S n => let '(f, b) := take_field b in f :: fields n b end.

Lemma take_put f b : take_field (put f ++ b) = (f, b).
Proof. cbn. by rewrite Nat2Z.id, take_app_length, drop_app_length. Qed.

Lemma fields_put l : fields (length l) (concat (map put l)) = l.
Proof. induction l as [|f l IH]; [done|]. cbn [length map concat fields]. rewrite take_put. by rewrite IH. Qed.

Definition of_string (s : string) : bytes := map (λ a, Z.of_nat (Ascii.nat_of_ascii a)) (String.list_ascii_of_string s).
Definition to_string (b : bytes) : string := String.string_of_list_ascii (map (λ z, Ascii.ascii_of_nat (Z.to_nat z)) b).

Lemma to_of_string s : to_string (of_string s) = s.
Proof.
  unfold to_string, of_string. rewrite map_map. induction s as [|a s IH]; [done|]. cbn -[Ascii.ascii_of_nat Ascii.nat_of_ascii].
  by rewrite Nat2Z.id, Ascii.ascii_nat_embedding, IH.
Qed.

Definition of_option {A} (f : A → bytes) (o : option A) : bytes := match o with Some x => 1 :: f x | None => [] end.
Definition to_option {A} (f : bytes → A) (b : bytes) : option A := match b with [] => None | _ :: b => Some (f b) end.
Definition of_bool (b : bool) : bytes := [if b then 1 else 0].
Definition to_bool (b : bytes) : bool := match b with [1] => true | _ => false end.
Definition to_Z (b : bytes) : Z := match b with z :: _ => z | [] => 0 end.
Definition status_bool (s : OPNetAuthenticationStatus) : bool := match s with SUCCESS => true | ERROR => false end.
Definition bool_status (b : bool) : OPNetAuthenticationStatus := if b then SUCCESS else ERROR.
Definition encoded (l : list bytes) : option bytes := Some (concat (map put l)).

Lemma fields_encoded l b : encoded l = Some b → fields (length l) b = l.
Proof. unfold encoded. intros H. injection H as <-. apply fields_put. Qed.

#[local] Instance example_protobuf : ProtobufLib := {|
  Content := Z;
  encode_auth := λ m, encoded [of_string (version m); clientAuthCipher m; of_string (protocolChecksum m); [auth_type m]; [network m];
                               [chainId m]; of_option (λ z, [z]) (magicNumber m)];
  decode_auth := λ b, match fields 7 b with
    | [v; k; c; t; n; ch; mg] => Some (mkAuth (to_string v) k (to_string c) (to_Z t) (to_Z n) (to_Z ch) (to_option to_Z mg))
    | _ => None end;
  encode_status := λ m, encoded [of_option of_bool (status_bool <$> status m); of_string (status_message m); of_option id (status_challenge m)];
  decode_status := λ b, match fields 3 b with
    | [st; msg; c] => Some (mkStatus (bool_status <$> to_option to_bool st) (to_string msg) (to_option id c))
    | _ => None end;
  encode_client_exchange := λ m, encoded [clientKeyCipher m; exchange_authCipher m; exchange_identity m; exchange_challenge m];
  decode_client_exchange := λ b, match fields 4 b with [k; a; i; c] => Some (mkClientExchange k a i c) | _ => None end;
  encode_server_exchange := λ m, encoded [serverKeyCipher m; serverSigningCipher m; of_bool (encryptionEnabled m)];
  decode_server_exchange := λ b, match fields 3 b with [k; s; e] => Some (mkServerExchange k s (to_bool e)) | _ => None end;
  encode_ping := λ m, Some [m.1; m.2];
  decode_ping := λ b, match b with [x; y] => Some (x, y) | _ => None end;
  encode_content := λ _ c, Some [c];
  decode_content := λ _ b, match b with [c] => Some c | _ => None end
|}.

#[local] Instance example_protobuf_laws : ProtobufLaws.
Proof.
  split; cbn -[fields of_string to_string encoded]; try done; intros m b Hb;
    apply fields_encoded in Hb; cbn [length] in Hb; rewrite Hb.
  - destruct m as [v k c t n ch [mg|]]; cbn -[of_string to_string]; by rewrite !to_of_string.
  - destruct m as [[[]|] msg [c|]]; cbn -[of_string to_string]; by rewrite to_of_string.
  - by destruct m.
  - by destruct m as [k s []].
Qed.

(** ** One handshake *)

Definition key_of (k : Z) : bytes := replicate 32 k.
Definition node (k : Z) : SelfIdentity := {|
  keyPair := mkKeyPair (key_of k) (key_of k ++ key_of k) (sha512 (key_of k));
  authKey := key_of k ++ key_of k ++ key_of k;
  peerType := 1; peerNetwork := 0; peerChainId := 0
|}.
Definition draw (k : Z) : random := mkRandom (key_of k, key_of (k + 1)) (replicate 128 k) (replicate 24 k).
Definition draws (n : nat) : list random := map (λ i, draw (Z.of_nat i)) (seq 0 n).

Lemma node_honest k : honest (node k).
Proof.
  split; [by unfold node, key_of|]. split; [done|]. split; [cbn; lia|]. split.
  - split; [done|]. intros data. cbn. by apply bool_decide_true.
  - done.
Qed.

Lemma draws_drawn n : Forall drawn (draws n).
Proof. apply Forall_forall. intros r (i & -> & _)%list_elem_of_fmap. done. Qed.

Lemma handshake_completes_witness :
  let n := handshake (node 1) (node 2) (draw 50) (draws 12) in
  ServerPeer.isAuthenticated (server n) = true ∧ SessionOpened ∈ client_log n ∧
  ServerPeer.clientIdentity (server n) = Some (toHex (sha512 (key_of 2))) ∧
  ServerPeer.clientIndexerMode (server n) = Some (peerType (node 2)).
Proof.
  destruct (handshake_completes (node 1) (node 2) (draw 50) (draws 12) (node_honest 2) eq_refl eq_refl
    ltac:(constructor; [done|apply draws_drawn]) eq_refl) as (H1 & _ & _ & H2 & _ & _ & _ & _ & _ & H3 & _ & H4 & _).
  split; [exact H1|]. split; [exact H2|]. split; [exact H3|exact H4].
Defined.

(** ** The messages of a client *)

Definition hello_of (v checksum : string) (net : Z) (k : Z) : bytes :=
  Opcode.AUTHENTICATION :: default [] (encode_auth (mkAuth v (key_of k) checksum 1 net 0 None)).
Definition hello (k : Z) : bytes := hello_of P2PVersion ClientPeer.protocolChecksum_ 0 k.

(** The answer to the challenge of [draw c] with the key [k], under an identity. *)
Definition answer_as (identity : bytes) (k c : Z) : bytes :=
  Opcode.CLIENT_CIPHER_EXCHANGE ::
    default [] (encode_client_exchange (mkClientExchange (key_of 9) (key_of k) identity
                  (Challenge.identityChallenge (keyPair (node k)) (replicate 128 c)))).
Definition answer (k c : Z) : bytes := answer_as (sha512 (key_of k)) k c.

(** What a client with the key [k] encrypts. *)
Definition encrypted (k : Z) (msg : bytes) : bytes :=
  match encrypt_with (replicate 24 0) msg [] [] (key_of k) (key_of k ++ key_of k) with Ok m => m | Throw _ => [] end.
Definition discover : bytes := [Opcode.DISCOVER; 0].

Definition receives (m : bytes) : ServerPeer.event := ServerPeer.Receive (draw 0) m.
Definition resumes (c : Z) : ServerPeer.event := ServerPeer.Resume (draw c) 0.
Definition serve (l : list ServerPeer.event) : ServerPeer.t * list output := ServerPeer.run (node 1) l ServerPeer.initial.

(** The outputs but the messages. *)
Inductive effect : Type := Opened | Handled (p : Packets) | Dropped (code : DisconnectionCode) | Done (r : option bool).
Definition effect_of (o : output) : option effect :=
  match o with
  | Send _ => None
  | Disconnect code => Some (Dropped code)
  | SessionOpened => Some Opened
  | Event p _ => Some (Handled p)
  | Settled r => Some (Done r)
  end.
Definition effects (l : list ServerPeer.event) : list effect := omap effect_of (serve l).2.

Definition session_of (k : Z) : list ServerPeer.event :=
  [receives (hello k); resumes 5; resumes 5; receives (answer k 5); resumes 5; resumes 5; resumes 5; resumes 5;
   receives (encrypted k discover); resumes 5].

Lemma session_discovers :
  effects (session_of 2) = [Done (Some true); Opened; Done (Some true); Handled PDiscover; Done (Some true)].
Proof. vm_compute. reflexivity. Qed.

Lemma effects_in p l : Handled p ∈ effects l → ∃ c, Event p c ∈ (ServerPeer.run (node 1) l ServerPeer.initial).2.
Proof.
  unfold effects, serve. intros (o & Ho & He)%list_elem_of_omap. destruct o; try discriminate He. injection He as ->. by eexists.
Qed.

Lemma session_handles : ∃ c, Event PDiscover c ∈ (ServerPeer.run (node 1) (session_of 2) ServerPeer.initial).2.
Proof. apply effects_in. rewrite session_discovers. set_solver. Qed.

Lemma sessions_are_authenticated_witness :
  authenticated (session_of 2) ∧
  ∃ payload, received (node 1) (session_of 2) (mkPacket (Some (opcode_of PDiscover)) payload).
Proof.
  destruct (sessions_are_authenticated (node 1) (session_of 2)) as [H1 H2]. destruct session_handles as [c Hc].
  destruct (H2 PDiscover c Hc) as (payload & Hr & _).
  split; [apply H1; right; right; exists PDiscover, c; exact Hc|exists payload; exact Hr].
Defined.

(** The same session through the two sides of a peer. *)
Definition peer_event (e : ServerPeer.event) : OPNetPeer.event :=
  match e with
  | ServerPeer.Receive r m => OPNetPeer.OnMessage r (0, 0) (0x00 :: m)
  | _ => OPNetPeer.FromServer (draw 5) e
  end.
Definition peer_session : list OPNetPeer.event := OPNetPeer.Authenticate (draw 7) :: map peer_event (session_of 2).

Lemma peer_session_authenticated :
  OPNetPeer.hasAuthenticated (OPNetPeer.run (node 1) None (0 : @Content example_protobuf) peer_session OPNetPeer.initial).1 = true.
Proof. vm_compute. reflexivity. Qed.

Lemma authenticated_peers_answered_witness : authenticated (server_events peer_session).
Proof. apply (authenticated_peers_answered (node 1) None (0 : @Content example_protobuf) peer_session). right. left. exact peer_session_authenticated. Defined.

(** ** What the handshake lets through *)

(** Without the key nothing opens: a wrong answer, another key, a packet that is
    signed with another key. *)
Example wrong_answers :
  effects [receives (hello 2); resumes 5; resumes 5; receives (answer 2 6); resumes 5] = [Done (Some true); Dropped BAD_CHALLENGE; Done (Some true)] ∧
  effects [receives (hello 2); resumes 5; resumes 5; receives (answer 3 5)] = [Done (Some true); Dropped BAD_AUTH_CIPHER; Done (Some true)] ∧
  effects (take 8 (session_of 2) ++ [receives (encrypted 3 discover)]) = [Done (Some true); Opened; Done (Some true); Done None].
Proof. vm_compute. done. Qed.

(** The same answer twice, the second while the keys of the first are sent: the
    session is opened twice. *)
Example session_opens_twice :
  effects [receives (hello 2); resumes 5; resumes 5; receives (answer 2 5); resumes 5; receives (answer 2 5); ServerPeer.Resume (draw 5) 1;
           resumes 5; resumes 5; resumes 5; resumes 5] =
  [Done (Some true); Opened; Opened].
Proof. vm_compute. reflexivity. Qed.

(** A peer of another network is reported, and challenged all the same. *)
Example other_network :
  (effects [receives (hello_of P2PVersion ClientPeer.protocolChecksum_ 3 2); resumes 5; resumes 5; receives (answer 2 5); resumes 5; resumes 5; resumes 5]) =
  [Dropped BAD_NETWORK; Done (Some true); Opened].
Proof. vm_compute. reflexivity. Qed.

(** The identity is not compared with the key. *)
Example any_identity :
  let s := (serve [receives (hello 2); resumes 5; resumes 5; receives (answer_as (replicate 64 1) 2 5); resumes 5; resumes 5; resumes 5]).1 in
  (ServerPeer.isAuthenticated s, ServerPeer.clientIdentity s) = (true, Some (toHex (replicate 64 1))).
Proof. vm_compute. reflexivity. Qed.

(** The timer is stopped when the challenge is sent: a peer that does not answer
    is not disconnected. *)
Example silent_peer_stays :
  let l := [receives (hello 2); resumes 5; resumes 5] in
  effects (l ++ [ServerPeer.AuthTimeout]) = effects l ∧ effects [ServerPeer.AuthTimeout] = [Dropped AUTH_TIMED_OUT].
Proof. vm_compute. done. Qed.

(** A version without a known checksum is accepted with any checksum, and a minor
    version of two digits is compared as a string. *)
Example versions :
  Versions.mayAcceptVersion "0" = true ∧ Versions.mayAcceptProtocolChecksum "0" "anything" = false ∧
  string_lt "10" "9" = true ∧
  Versions.mayAcceptVersion "1.0.2" = false ∧ Versions.mayAcceptProtocolChecksum P2PVersion "0x00000000" = true.
Proof. vm_compute. done. Qed.

(** A call that waits for the network check keeps its key: resumed after the
    session is open, it replaces the key that signs the packets of the session. *)
Definition replaced : list ServerPeer.event :=
  [receives (hello 3); receives (hello 2); ServerPeer.Resume (draw 5) 1; ServerPeer.Resume (draw 5) 1; receives (answer 2 5);
   ServerPeer.Resume (draw 5) 1; ServerPeer.Resume (draw 5) 1; ServerPeer.Resume (draw 5) 1; ServerPeer.Resume (draw 5) 1; resumes 5].
Example key_is_replaced :
  EncryptemServer.clientSignaturePublicKey (ServerPeer.encryptem (serve replaced).1) = Some (key_of 3) ∧
  effects (replaced ++ [receives (encrypted 3 discover); resumes 5]) =
    [Done (Some true); Opened; Done (Some true); Dropped BAD_ENCRYPTION; Done (Some true);
     Handled PDiscover; Done (Some true)].
Proof. vm_compute. done. Qed.
