(* ===== verification/PeerManager.v ===== *)
(** * The peers of a node
    (poc/networking/P2PManager.ts, poc/networking/PeerChecker.ts,
    utils/shuffleArray.ts)

    Which peers a node refuses, which it shares, and which addresses it tries.
    libp2p is what the node asks: its connections, its peer store and its dials
    come with the events, and so does the clock. *)

From S2P Require Import Prelude TransactionSorter ConsensusRules Consensus HeaderValidator Epochs EpochManager WitnessManager PeerProtocol Encryptem PeerServer PeerServerFacts PeerClient PeerNode PeerAddresses.

(** A peer as libp2p knows it. *)
Record PeerInfo : Type := mkPeerInfo { info_id : string; multiaddrs : list Multiaddr }.

(** ** PeerChecker: failures to dial *)

Module PeerChecker.

Definition MAX_DIAL_FAILURES : Z := 20.
Definition DIAL_FAILURE_RESET_TIME : Z := 60 * 60 * 1000.
Definition maxConcurrentDials : nat := 5.

Record DialFailureEntry : Type := mkFailure { failures : Z; lastAttempt : Z }.

Record t : Type := mk {
  isTryingPeers : bool;
  peersToTry : list PeerInfo;
  triedPeers : list string;
  dialFailures : list (string * DialFailureEntry)
}.

Definition initial : t := mk false [] [] [].

Definition set_trying b (s : t) : t := mk b (peersToTry s) (triedPeers s) (dialFailures s).
Definition set_toTry l (s : t) : t := mk (isTryingPeers s) l (triedPeers s) (dialFailures s).
Definition set_tried l (s : t) : t := mk (isTryingPeers s) (peersToTry s) l (dialFailures s).
Definition set_failures m (s : t) : t := mk (isTryingPeers s) (peersToTry s) (triedPeers s) m.

(** An old entry is deleted. *)
Definition isPeerUnreachable (now : Z) (peerIdStr : string) (s : t) : t * bool :=
  match JsMap.get (dialFailures s) peerIdStr with
  | None => (s, false)
  | Some entry =>
      if decide (DIAL_FAILURE_RESET_TIME < now - lastAttempt entry)
      then (set_failures (JsMap.del (dialFailures s) peerIdStr) s, false)
      else (s, bool_decide (MAX_DIAL_FAILURES ≤ failures entry))
  end.

Definition resetDialFailures (peerIdStr : string) (s : t) : t := set_failures (JsMap.del (dialFailures s) peerIdStr) s.

(** Whether the peer has reached the limit. *)
Definition recordDialFailure (now : Z) (peerIdStr : string) (s : t) : t * bool :=
  let s :=
    match JsMap.get (dialFailures s) peerIdStr with
    | Some existing =>
        if decide (DIAL_FAILURE_RESET_TIME < now - lastAttempt existing)
        then set_failures (JsMap.del (dialFailures s) peerIdStr) s else s
    | None => s
    end in
  let entry := default (mkFailure 0 now) (JsMap.get (dialFailures s) peerIdStr) in
  let entry := mkFailure (failures entry + 1) now in
  (set_failures (JsMap.set (dialFailures s) peerIdStr entry) s, bool_decide (MAX_DIAL_FAILURES ≤ failures entry)).

(** The second result: onPeerUnreachable is called. *)
Definition recordExternalDialFailure (now : Z) (peerIdStr : string) (s : t) : t * bool :=
  let '(s, unreachable) := isPeerUnreachable now peerIdStr s in
  if unreachable then (s, false) else recordDialFailure now peerIdStr s.

Definition alreadyTriedPeer (peerIdStr : string) (s : t) : bool := bool_decide (peerIdStr ∈ triedPeers s).

Definition addTriedPeers (peerIdStr : string) (s : t) : t :=
  let s := if decide (150 < length (triedPeers s))%nat then set_tried (tail (triedPeers s)) s else s in
  if bool_decide (peerIdStr ∈ triedPeers s) then s else set_tried (triedPeers s ++ [peerIdStr]) s.

Definition addToTryPeers (now : Z) (peerData : PeerInfo) (s : t) : t :=
  if decide (100 < length (peersToTry s))%nat then s
  else
    let '(s, unreachable) := isPeerUnreachable now (info_id peerData) s in
    if unreachable then s
    else if alreadyTriedPeer (info_id peerData) s then s
    else if bool_decide (info_id peerData ∈ map info_id (peersToTry s)) then s
    else set_toTry (peersToTry s ++ [peerData]) s.

(** [tryNextPeer] up to the dial: the peer that is taken, unless it has become
    unreachable. *)
Definition tryNextPeer (now : Z) (s : t) : t * list PeerInfo :=
  match peersToTry s with
  | [] => (s, [])
  | peerData :: rest =>
      let '(s, unreachable) := isPeerUnreachable now (info_id peerData) (addTriedPeers (info_id peerData) (set_toTry rest s)) in
      (s, if unreachable then [] else [peerData])
  end.

Fixpoint tryNextPeers (now : Z) (n : nat) (s : t) : t * list PeerInfo :=
  match n with
  | O => (s, [])
  | S n => let '(s, l) := tryNextPeer now s in let '(s, l') := tryNextPeers now n s in (s, l ++ l')
  end.

(** Five peers are taken; the others wait for the next discovery. *)
Definition tryPeers (now : Z) (s : t) : t * list PeerInfo :=
  if isTryingPeers s then (s, []) else tryNextPeers now maxConcurrentDials (set_trying true s).

Definition checkPeers (now : Z) (peers : list PeerInfo) (s : t) : t * list PeerInfo :=
  let s := foldl (λ s p, addToTryPeers now p s) s peers in
  match peersToTry s with [] => (s, []) | _ => tryPeers now s end.

(** [tryPeerData], when the dial is answered: [dialed] is false when it or the
    peer store threw. *)
Definition dialAnswered (now : Z) (peerIdStr : string) (connected dialed : bool) (s : t) : t * bool :=
  if dialed then ((if connected then s else resetDialFailures peerIdStr s), false)
  else recordExternalDialFailure now peerIdStr s.

(** All the dials of [tryPeers] are done. *)
Definition dialsDone (s : t) : t := set_trying false s.
End PeerChecker.

(** ** The Fisher-Yates shuffle *)

(** [draw i] is the number drawn for the position [i], at most [i]. *)
Definition swap {A} (l : list A) (i j : nat) : list A :=
  match l !! i, l !! j with Some x, Some y => <[j := x]> (<[i := y]> l) | _, _ => l end.
Fixpoint shuffle_from {A} (draw : nat → nat) (i : nat) (l : list A) : list A :=
  match i with O => l | S i' => shuffle_from draw i' (swap l i (draw i)) end.
Definition shuffleArray {A} (draw : nat → nat) (l : list A) : list A := shuffle_from draw (length l - 1)%nat l.

(** ** P2PManager *)

Record BlacklistedPeerInfo : Type := mkBlacklisted { reason : DisconnectionCode; timestamp : Z; attempts : Z }.

(** A peer of the peer store: its addresses, with whether they are certified. *)
Record StoredPeer : Type := mkStored { stored_id : string; stored_addresses : list (Multiaddr * bool) }.

Record OPNetPeerInfo : Type := mkOPNetPeerInfo {
  opnetVersion : string;
  peer_identity : string;
  peer_type : Z;
  peer_network : Z;
  peer_chainId : Z;
  peer : string;
  addresses : list bytes
}.

Record P2PConfig : Type := mkP2PConfig {
  MODE : OPNetIndexerMode;
  IS_BOOTSTRAP_NODE : bool;
  EXTERNAL_ADDRESS_THRESHOLD_ : option Z;
  ENABLE_IP_BANNING : bool;
  P2P_PORT : Z;
  PRIVATE_NODES : list string;
  bootstrapPeerIds : list string
}.

(** ITransactionPacket, OPNetBroadcastData, BroadcastResponse *)
Record ITransactionPacket : Type := mkTransactionPacket { transaction : bytes; psbt : bool }.
Record OPNetBroadcastData : Type := mkBroadcast { broadcast_raw : bytes; broadcast_psbt : bool; broadcast_id : string }.
Record BroadcastResponse : Type := mkResponse {
  response_success : bool;
  response_peers : Z;
  response_result : option string;
  transactionType : option OPNetTransactionTypes;
  modifiedTransaction : option string;
  finalizedTransaction : bool
}.

(** What the manager does outside. *)
Inductive manager_output : Type :=
| Dial (p : PeerInfo)
| ConfirmObserved (addr : string)
| VerifyTransaction (data : OPNetBroadcastData)                  (* to the mempool thread *)
| NotifyApi (id : string) (type : OPNetTransactionTypes)         (* to every API thread *)
| SendTransaction (id : string) (raw : bytes) (psbt : bool).     (* to the peer [id] *)

Module P2PManager.
Import AddressExtractor.
Section P2PManager.
Context {LB : BtcLib} {LW : @WitnessLib LB} {LS : @SodiumLib LB LW} {LP : ProtobufLib}.
Context (config : P2PConfig) (includes : string → string → bool).   (* String.prototype.includes *)
Context (txid : bytes → option string) (fromBase64 : string → option bytes).   (* of the bitcoin library; [None] throws *)

Definition PURGE_BLACKLISTED_PEER_AFTER : Z := 300000.
Definition EXTERNAL_ADDRESS_THRESHOLD : Z :=
  if IS_BOOTSTRAP_NODE config then 1 else default 3 (EXTERNAL_ADDRESS_THRESHOLD_ config).

(** A call that waits: for the peer store, with what follows, for the
    identification of a peer, or for what the threads know of a transaction. *)
Inductive after : Type := Nothing | ForgetPeer | DisconnectAgain.
Inductive fiber : Type :=
| Blacklisting (id : string) (code : DisconnectionCode) (k : after)
| Leaving (id : string)
| Identifying (id : string)
| InMempool (tx : ITransactionPacket) (txHash : string)
| Verifying (tx : ITransactionPacket) (txHash : string).

Record t : Type := mk {
  peers : list (string * OPNetPeer.t);
  blackListedPeerIds : list (string * BlacklistedPeerInfo);
  blackListedPeerIps : list (string * BlacklistedPeerInfo);
  discoveredExternalAddresses : list (string * Z);
  confirmedExternalAddresses : list string;
  knownMempoolIdentifiers : list string;
  peerChecker : PeerChecker.t;
  pending : list fiber
}.

Definition initial : t := mk [] [] [] [] [] [] PeerChecker.initial [].

Definition set_peers l (s : t) : t :=
  mk l (blackListedPeerIds s) (blackListedPeerIps s) (discoveredExternalAddresses s) (confirmedExternalAddresses s)
    (knownMempoolIdentifiers s) (peerChecker s) (pending s).
Definition set_ids l (s : t) : t :=
  mk (peers s) l (blackListedPeerIps s) (discoveredExternalAddresses s) (confirmedExternalAddresses s)
    (knownMempoolIdentifiers s) (peerChecker s) (pending s).
Definition set_ips l (s : t) : t :=
  mk (peers s) (blackListedPeerIds s) l (discoveredExternalAddresses s) (confirmedExternalAddresses s)
    (knownMempoolIdentifiers s) (peerChecker s) (pending s).
Definition set_external d c (s : t) : t :=
  mk (peers s) (blackListedPeerIds s) (blackListedPeerIps s) d c (knownMempoolIdentifiers s) (peerChecker s) (pending s).
Definition set_known l (s : t) : t :=
  mk (peers s) (blackListedPeerIds s) (blackListedPeerIps s) (discoveredExternalAddresses s) (confirmedExternalAddresses s) l
    (peerChecker s) (pending s).
Definition set_checker c (s : t) : t :=
  mk (peers s) (blackListedPeerIds s) (blackListedPeerIps s) (discoveredExternalAddresses s) (confirmedExternalAddresses s)
    (knownMempoolIdentifiers s) c (pending s).
Definition set_pending l (s : t) : t :=
  mk (peers s) (blackListedPeerIds s) (blackListedPeerIps s) (discoveredExternalAddresses s) (confirmedExternalAddresses s)
    (knownMempoolIdentifiers s) (peerChecker s) l.

(** *** The blacklist *)

Definition suspend (f : fiber) (s : t) : t := set_pending (pending s ++ [f]) s.

(** [blackListPeerId] up to the peer store; [k] is what its caller does then. *)
Definition blackListPeerId (now : Z) (id : string) (code : DisconnectionCode) (k : after) (s : t) : t :=
  let s :=
    if JsMap.has (blackListedPeerIds s) id then s
    else set_ids (JsMap.set (blackListedPeerIds s) id (mkBlacklisted code now 0)) s in
  suspend (Blacklisting id code k) s.

Definition blacklistIp (now : Z) (code : DisconnectionCode) (addr : Multiaddr) (s : t) : t :=
  match extractAddressHost addr with
  | Some ip =>
      if truthy_str ip && negb (JsMap.has (blackListedPeerIps s) ip)
      then set_ips (JsMap.set (blackListedPeerIps s) ip (mkBlacklisted code now 0)) s else s
  | None => s
  end.

Definition blacklistPeerIps (now : Z) (addrs : list Multiaddr) (code : DisconnectionCode) (s : t) : t :=
  if negb (ENABLE_IP_BANNING config) then s else foldl (λ s a, blacklistIp now code a s) s addrs.

(** [allowConnection] *)
Definition allowConnection (id : string) (s : t) : t * bool :=
  match JsMap.get (blackListedPeerIds s) id with
  | None => (s, true)
  | Some info =>
      if decide (reason info = RECONNECT) then (set_ids (JsMap.del (blackListedPeerIds s) id) s, true) else (s, false)
  end.

Definition isBlackListedPeerId (id : string) (s : t) : bool :=
  match JsMap.get (blackListedPeerIds s) id with
  | Some info => if decide (reason info = RECONNECT) then bool_decide (3 < attempts info) else true
  | None => false
  end.

(** The record of a peer that reconnects, with its attempts of the last 30 seconds. *)
Definition reconnected (now : Z) (stored : option BlacklistedPeerInfo) : BlacklistedPeerInfo :=
  let info := default (mkBlacklisted RECONNECT now 0) stored in
  let info := if decide (timestamp info < now - 30000) then mkBlacklisted (reason info) (timestamp info) 0 else info in
  mkBlacklisted (reason info) (timestamp info) (attempts info + 1).

(** The record is changed where it is stored, and is not stored when it is new. *)
Definition disconnectPeer (now : Z) (id : string) (code : DisconnectionCode) (s : t) : t :=
  if negb (bool_decide (code = RECONNECT)) && negb (bool_decide (code = EXPECTED)) then blackListPeerId now id code Nothing s
  else if negb (bool_decide (code = EXPECTED)) then
    let stored := JsMap.get (blackListedPeerIds s) id in
    let info := reconnected now stored in
    let s := match stored with Some _ => set_ids (JsMap.set (blackListedPeerIds s) id info) s | None => s end in
    if decide (3 < attempts info) then blackListPeerId now id FLOOD ForgetPeer s else set_peers (JsMap.del (peers s) id) s
  else s.

(** The peer store answers; [None] when it throws. *)
Definition blacklisted (now : Z) (id : string) (code : DisconnectionCode) (k : after) (addrs : option (list Multiaddr)) (s : t) : t :=
  let s := match addrs with Some l => blacklistPeerIps now l code s | None => s end in
  match k with
  | Nothing => s
  | ForgetPeer => set_peers (JsMap.del (peers s) id) s
  | DisconnectAgain => disconnectPeer now id BAD_VERSION s
  end.

Definition fresh (now : Z) (info : BlacklistedPeerInfo) : bool :=
  negb (bool_decide (PURGE_BLACKLISTED_PEER_AFTER < now - timestamp info)).

(** The entries of a map that are deleted while it is walked through. *)
Definition purge (now : Z) (m : list (string * BlacklistedPeerInfo)) : list (string * BlacklistedPeerInfo) :=
  List.filter (λ e, fresh now e.2) m.

Definition purgeOldBlacklistedPeers (now : Z) (s : t) : t :=
  set_ips (purge now (blackListedPeerIps s)) (set_ids (purge now (blackListedPeerIds s)) s).

Definition isPeerUnreachable (now : Z) (id : string) (s : t) : t * bool :=
  let '(c, b) := PeerChecker.isPeerUnreachable now id (peerChecker s) in (set_checker c s, b).

Definition onPeerUnreachable (now : Z) (id : string) (s : t) : t :=
  if JsMap.has (blackListedPeerIds s) id then s else blackListPeerId now id UNREACHABLE Nothing s.

(** *** Connections *)

(** The gates of libp2p; both outbound gates are the same. *)
Definition denyOutboundConnection (now : Z) (id : string) (s : t) : t * bool :=
  if isBlackListedPeerId id s then (s, true) else isPeerUnreachable now id s.
Definition denyInboundUpgradedConnection (id : string) (s : t) : bool := isBlackListedPeerId id s.

Definition addressFilter (now : Z) (id : string) (addr : Multiaddr) (s : t) : t * bool :=
  let '(s, unreachable) := isPeerUnreachable now id s in
  if unreachable then (s, false)
  else match extractAddressHost addr with
       | None => (s, negb (isBlackListedPeerId id s))
       | Some ip =>
           if truthy_str ip then (s, negb (isBlackListedPeerId id s || JsMap.has (blackListedPeerIps s) ip))
           else (s, negb (isBlackListedPeerId id s))
       end.

(** [onPeerConnect] up to the identification. *)
Definition onPeerConnect (now : Z) (id : string) (s : t) : t :=
  if decide (250 < length (blackListedPeerIds s))%nat then disconnectPeer now id FLOOD s
  else if JsMap.has (peers s) id then s
  else
    let '(s, allowed) := allowConnection id s in
    if negb allowed then blackListPeerId now id BAD_VERSION DisconnectAgain s else suspend (Identifying id) s.

(** Then: [createPeer] throws when the peer is there. *)
Definition identified (now : Z) (id : string) (ok : bool) (s : t) : t :=
  if ok then
    let s := set_checker (PeerChecker.resetDialFailures id (peerChecker s)) s in
    if JsMap.has (peers s) id then s else set_peers (JsMap.set (peers s) id OPNetPeer.initial) s
  else disconnectPeer now id BAD_VERSION s.

(** [onPeerDisconnect] up to the peer store, and then; [saved]: it had addresses. *)
Definition onPeerDisconnect (connections : nat) (id : string) (s : t) : t :=
  if decide (0 < connections)%nat then s else suspend (Leaving id) s.
Definition left_ (now : Z) (id : string) (saved : bool) (s : t) : t :=
  let s := set_peers (JsMap.del (peers s) id) s in if saved then (isPeerUnreachable now id s).1 else s.

(** [onPeerDiscovery]: the second result is that the peer is deleted from the store. *)
Definition onPeerDiscovery (now : Z) (id : string) (s : t) : t * bool :=
  if isBlackListedPeerId id s then (s, true) else isPeerUnreachable now id s.

(** *** The peers that are shared *)

Definition filterPrivateNodes (addr : Multiaddr) : bool :=
  negb (existsb (λ node, includes node (addr_text addr)) (PRIVATE_NODES config)).

Definition shared_address (self_id : string) (a : Multiaddr * bool) : bool :=
  negb (includes (addr_text a.1) self_id) &&
  match filterMultiaddrsPrivate [a.1] with [] => false | _ => filterPrivateNodes a.1 end.

(** One peer of the store; [None] skips it. *)
Definition shared_peer (self_id : string) (s : t) (p : StoredPeer) : option OPNetPeerInfo :=
  q ← JsMap.get (peers s) (stored_id p);
  if negb (OPNetPeer.hasAuthenticated q) then None
  else
    let m := OPNetPeer.serverNetworkingManager q in
    version ← ServerPeer.clientVersion m;
    identity ← ServerPeer.clientIdentity m;
    mode ← ServerPeer.clientIndexerMode m;
    chain ← ServerPeer.clientChainId m;
    network ← ServerPeer.clientNetwork m;
    if bool_decide (stored_id p ∈ bootstrapPeerIds config) then None
    else
      let shared := List.filter (shared_address self_id) (stored_addresses p) in
      let certified := List.filter snd shared in
      let l := match certified with [] => shared | _ => certified end in
      match l with
      | [] => None
      | _ => Some (mkOPNetPeerInfo version identity mode network chain (stored_id p) (take 5 (map (λ a, addr_bytes a.1) l)))
      end.

(** The shuffled copy is dropped: the first hundred of the store are returned. *)
Definition getOPNetPeers (self_id : string) (draw : nat → nat) (store : list StoredPeer) (s : t) : list OPNetPeerInfo :=
  let peers := omap (shared_peer self_id s) store in
  let _ := shuffleArray draw peers in
  take 100 peers.

(** *** The peers that are discovered *)

(** One peer of a discovery: what libp2p answers on it. *)
Record DiscoveredPeer : Type := mkDiscovered {
  discovered_id : option string;      (* [None] when its id does not decode *)
  connected : bool;
  is_self : bool;
  discovered_addresses : list Multiaddr   (* empty when one of them does not parse *)
}.

Definition peer_to_try (now : Z) (d : DiscoveredPeer) (s : t) : t * option PeerInfo :=
  match discovered_id d with
  | None => (s, None)
  | Some id =>
      if connected d then (s, None)
      else if isBlackListedPeerId id s then (s, None)
      else
        let '(s, unreachable) := isPeerUnreachable now id s in
        if unreachable || is_self d then (s, None)
        else
          let ok := List.filter (λ a, match extractAddressHost a with
            | Some ip => negb (truthy_str ip && JsMap.has (blackListedPeerIps s) ip) | None => true end) (discovered_addresses d) in
          match filterMultiaddrsPrivate ok with
          | [] => (s, None)
          | l => (s, Some (mkPeerInfo id l))
          end
  end.

Fixpoint peers_to_try (now : Z) (seen : list string) (ds : list DiscoveredPeer) (s : t) : t * list PeerInfo :=
  match ds with
  | [] => (s, [])
  | d :: ds =>
      match discovered_id d with
      | None => peers_to_try now seen ds s
      | Some id =>
          if negb (truthy_str id) || bool_decide (id ∈ seen) then peers_to_try now seen ds s
          else
            let '(s, p) := peer_to_try now d s in
            let '(s, l) := peers_to_try now (seen ++ [id]) ds s in
            (s, option_list p ++ l)
      end
  end.

(** The peers that are dialed. *)
Definition onOPNetPeersDiscovered (now : Z) (ds : list DiscoveredPeer) (s : t) : t * list PeerInfo :=
  let ds := if decide (100 < length ds)%nat then take 100 ds else ds in
  let '(s, l) := peers_to_try now [] ds s in
  match l with
  | [] => (s, [])
  | _ => let '(c, dials) := PeerChecker.checkPeers now l (peerChecker s) in (set_checker c s, dials)
  end.

(** A dial of the checker, of the health monitor or of libp2p is answered. *)
Definition dialAnswered (now : Z) (id : string) (connected dialed : bool) (s : t) : t :=
  let '(c, unreachable) := PeerChecker.dialAnswered now id connected dialed (peerChecker s) in
  let s := set_checker c s in
  if unreachable then onPeerUnreachable now id s else s.

(** [addBoostrapNodesToPeerStore]: a node of the configuration with its address. *)
Definition bootstrap_peer (node : string * Multiaddr) : list PeerInfo :=
  match List.find (λ c, String.eqb (component_name c) "p2p") (getComponentsSafe node.2) with
  | Some c =>
      let id := default "" (component_value c) in
      if negb (truthy_str id) then []
      else match (if bool_decide (node.1 ∈ PRIVATE_NODES config) then [node.2] else filterMultiaddrsPrivate [node.2]) with
           | [] => []
           | l => [mkPeerInfo id l]
           end
  | None => []
  end.
Definition addBoostrapNodesToPeerStore (now : Z) (nodes : list (string * Multiaddr)) (s : t) : t * list PeerInfo :=
  match flat_map bootstrap_peer nodes with
  | [] => (s, [])
  | l => let '(c, dials) := PeerChecker.checkPeers now l (peerChecker s) in (set_checker c s, dials)
  end.

(** *** The address of this node *)

Definition resetExternalAddressDiscovery (s : t) : t := set_external [] [] s.

Definition is_dns (name : string) : bool := bool_decide (name ∈ DNS_HOST_PROTOCOLS).

Definition candidateAddr (name address transport : string) : string :=
  ("/" +:+ name +:+ "/" +:+ address +:+ "/" +:+ transport +:+ "/" +:+ pretty (P2P_PORT config))%string.

(** [processObservedAddress] up to the confirmation: the address to confirm. *)
Definition processObservedAddress (components : list ComponentLike) (s : t) : t * option string :=
  let s := if decide (500 ≤ length (discoveredExternalAddresses s))%nat then set_external [] [] s else s in
  if decide (P2P_PORT config = 0) then (s, None)
  else match List.find is_host components with
       | None => (s, None)
       | Some c =>
           let address := default "" (component_value c) in
           if negb (truthy_str address) then (s, None)
           else if negb (is_dns (component_name c)) && isPrivateOrLoopbackAddress address then (s, None)
           else
             let transport := match List.find (λ c, bool_decide (component_name c ∈ ["tcp"; "udp"])) components with
               | Some c => component_name c | None => "tcp"%string end in
             let candidate := candidateAddr (component_name c) address transport in
             if bool_decide (candidate ∈ confirmedExternalAddresses s) then (s, None)
             else
               let count := default 0 (JsMap.get (discoveredExternalAddresses s) candidate) + 1 in
               let s := set_external (JsMap.set (discoveredExternalAddresses s) candidate count) (confirmedExternalAddresses s) s in
               if decide (EXTERNAL_ADDRESS_THRESHOLD ≤ count)
               then (set_external (discoveredExternalAddresses s) (JsSet.add (confirmedExternalAddresses s) candidate) s, Some candidate)
               else (s, None)
       end.

(** libp2p throws. *)
Definition confirmationFailed (candidate : string) (s : t) : t :=
  set_external (discoveredExternalAddresses s) (JsSet.del (confirmedExternalAddresses s) candidate) s.

(** *** Broadcasts *)

(** The peers a transaction is sent to, and those asked for witnesses, with the
    blocks they are asked for. *)
Definition broadcastMempoolTransaction (s : t) : list string :=
  map fst (List.filter (λ e, OPNetPeer.isAuthenticated e.2) (peers s)).

Definition requestBlockWitnessesFromPeer (s : t) : list string :=
  map fst (List.filter (λ e, OPNetPeer.isAuthenticated e.2 &&
    match OPNetPeer.peerMode e.2 with Some LIGHT | None => false | _ => true end) (peers s)).

Definition requestWitnessesFromPeers (blockNumber : Z) (s : t) : list (Z * string) :=
  match MODE config with
  | LIGHT => []
  | _ => n ← (if decide (0 < blockNumber - 1) then [blockNumber - 1] else []) ++ [blockNumber];
         pair n <$> requestBlockWitnessesFromPeer s
  end.

(** A transaction with an id is sent once between two timers. *)
Definition broadcastTransaction (data : OPNetBroadcastData) (s : t) : t * list manager_output :=
  let id := broadcast_id data in
  if JsSet.has (knownMempoolIdentifiers s) id && truthy_str id then (s, [])
  else
    let s := if truthy_str id then set_known (JsSet.add (knownMempoolIdentifiers s) id) s else s in
    (s, map (λ peer, SendTransaction peer (broadcast_raw data) (broadcast_psbt data)) (broadcastMempoolTransaction s)).

(** [onBroadcastTransaction], up to the database, up to the mempool thread, and to
    its end. *)
Definition onBroadcastTransaction (tx : ITransactionPacket) (s : t) : t :=
  match txid (transaction tx) with
  | None => s
  | Some txHash =>
      if JsSet.has (knownMempoolIdentifiers s) txHash then s
      else suspend (InMempool tx txHash) (set_known (JsSet.add (knownMempoolIdentifiers s) txHash) s)
  end.

(** [None] when the database throws. *)
Definition mempoolAnswered (tx : ITransactionPacket) (txHash : string) (hasInDB : option bool) (s : t) : t * list manager_output :=
  match hasInDB with
  | Some false => (suspend (Verifying tx txHash) s, [VerifyTransaction (mkBroadcast (transaction tx) (psbt tx) txHash)])
  | _ => (s, [])
  end.

Definition verified (tx : ITransactionPacket) (txHash : string) (answer : option BroadcastResponse) (s : t) : t * list manager_output :=
  match answer with
  | None => (s, [])
  | Some v =>
      if negb (response_success v) then (s, [])
      else if negb (bool_decide (response_peers v = 0)) then (s, [])
      else match response_result v with
           | None => (s, [])
           | Some id =>
               if negb (String.eqb id txHash) then (s, [])
               else
                 let notified := [NotifyApi id (default Generic (transactionType v))] in
                 match (if truthy_ostr (modifiedTransaction v) then fromBase64 (default "" (modifiedTransaction v)) else Some (transaction tx)) with
                 | None => (s, notified)
                 | Some raw =>
                     let isPsbt := if psbt tx then negb (finalizedTransaction v) else false in
                     let '(s, os) := broadcastTransaction (mkBroadcast raw isPsbt id) s in (s, notified ++ os)
                 end
           end
  end.

(** *** Events *)

Inductive event : Type :=
| Disconnect_ (now : Z) (id : string) (code : DisconnectionCode)
| Connected (now : Z) (id : string)
| Disconnected (connections : nat) (id : string)
| Found (now : Z) (id : string)
| Discovered (now : Z) (ds : list DiscoveredPeer)
| Bootstrap (now : Z) (nodes : list (string * Multiaddr))
| DialAnswered (now : Z) (id : string) (connected dialed : bool)
| DialsDone
| Observed (components : list ComponentLike)
| ConfirmationFailed (addr : string)
| NoConnection
| Timer (now : Z)                                                     (* every ten seconds *)
| PeerChanged (id : string) (p : OPNetPeer.t)                         (* a step of a peer *)
| Broadcast (data : OPNetBroadcastData)
| Received (tx : ITransactionPacket)
| StoreAnswer (now : Z) (i : nat) (addrs : option (list Multiaddr))
| LeaveAnswer (now : Z) (i : nat) (saved : bool)
| IdentifyAnswer (now : Z) (i : nat) (ok : bool)
| MempoolAnswer (i : nat) (hasInDB : option bool)
| VerifyAnswer (i : nat) (answer : option BroadcastResponse).

(** The waiting call [i] goes on. *)
Definition resume (i : nat) (f : fiber → t → option (t * list manager_output)) (s : t) : t * list manager_output :=
  match pending s !! i with
  | Some p => default (s, []) (f p (set_pending (delete i (pending s)) s))
  | None => (s, [])
  end.

Definition step (e : event) (s : t) : t * list manager_output :=
  match e with
  | Disconnect_ now id code => (disconnectPeer now id code s, [])
  | Connected now id => (onPeerConnect now id s, [])
  | Disconnected n id => (onPeerDisconnect n id s, [])
  | Found now id => ((onPeerDiscovery now id s).1, [])
  | Discovered now ds => let '(s, l) := onOPNetPeersDiscovered now ds s in (s, map Dial l)
  | Bootstrap now nodes => let '(s, l) := addBoostrapNodesToPeerStore now nodes s in (s, map Dial l)
  | DialAnswered now id connected dialed => (dialAnswered now id connected dialed s, [])
  | DialsDone => (set_checker (PeerChecker.dialsDone (peerChecker s)) s, [])
  | Observed cs => let '(s, a) := processObservedAddress cs s in (s, map ConfirmObserved (option_list a))
  | ConfirmationFailed a => (confirmationFailed a s, [])
  | NoConnection => (resetExternalAddressDiscovery s, [])
  | Timer now => (purgeOldBlacklistedPeers now (set_known [] s), [])
  | PeerChanged id p => (if JsMap.has (peers s) id then set_peers (JsMap.set (peers s) id p) s else s, [])
  | Broadcast data => broadcastTransaction data s
  | Received tx => (onBroadcastTransaction tx s, [])
  | StoreAnswer now i addrs => resume i (λ f s, match f with
      | Blacklisting id code k => Some (blacklisted now id code k addrs s, []) | _ => None end) s
  | LeaveAnswer now i saved => resume i (λ f s, match f with Leaving id => Some (left_ now id saved s, []) | _ => None end) s
  | IdentifyAnswer now i ok => resume i (λ f s, match f with Identifying id => Some (identified now id ok s, []) | _ => None end) s
  | MempoolAnswer i has => resume i (λ f s, match f with InMempool tx h => Some (mempoolAnswered tx h has s) | _ => None end) s
  | VerifyAnswer i answer => resume i (λ f s, match f with Verifying tx h => Some (verified tx h answer s) | _ => None end) s
  end.

Fixpoint run (l : list event) (s : t) : t * list manager_output :=
  match l with
  | [] => (s, [])
  | e :: l => let '(s, os) := step e s in let '(s, os') := run l s in (s, os ++ os')
  end.
End P2PManager.
End P2PManager.
