(* ===== verification/PeerManagerFacts.v ===== *)
(** * Which peers are refused and shared

    A peer that misbehaves is refused until its entry is purged; only peers that
    are authenticated are shared, with public addresses; the lists of the peers to
    try stay within their limits. *)

From S2P Require Import Prelude TransactionSorter ConsensusRules Consensus HeaderValidator Epochs EpochManager WitnessManager PeerProtocol Encryptem PeerServer PeerServerFacts PeerClient PeerNode PeerAddresses PeerManager.
Import P2PManager.

Section Facts.
Context {LB : BtcLib} {LW : @WitnessLib LB} {LS : @SodiumLib LB LW} {LP : ProtobufLib}.
Context (config : P2PConfig) (txid : bytes → option string) (fromBase64 : string → option bytes).
Implicit Types (s : P2PManager.t) (id : string) (e : event).

Abbreviation step_ := (step config txid fromBase64).
Abbreviation run_ := (run config txid fromBase64).

(** ** The blacklist *)

Definition entry s id : option BlacklistedPeerInfo := JsMap.get (blackListedPeerIds s) id.

(** The time of an event that may purge. *)
Definition purge_time e : option Z := match e with Timer now => Some now | _ => None end.

(** No entry is of a reconnection. *)
Definition offences s : Prop := ∀ x, x ∈ blackListedPeerIds s → reason x.2 ≠ RECONNECT.

Lemma offences_entry s id info : offences s → entry s id = Some info → reason info ≠ RECONNECT.
Proof. intros Hs Hi. by apply (Hs (id, info)), JsMap.get_elem_of. Qed.

Lemma set_offences id info s : offences s → reason info ≠ RECONNECT → offences (set_ids (JsMap.set (blackListedPeerIds s) id info) s).
Proof.
  unfold offences. cbn. intros Hs Hi. induction (blackListedPeerIds s) as [|[k v] m IH]; cbn; [by intros x ->%list_elem_of_singleton|].
  case_decide; intros x [->|Hx]%elem_of_cons; [done|by apply Hs; right|by apply Hs; left|].
  apply IH; [|done]. intros y Hy. apply Hs. by right.
Qed.

(** An entry stays, but for the number of attempts. *)
Definition keeps s s' : Prop :=
  ∀ id info, entry s id = Some info → ∃ n, entry s' id = Some (mkBlacklisted (reason info) (timestamp info) n).

#[local] Instance keeps_pre : PreOrder keeps.
Proof.
  split; [intros s id [r t n] H; by exists n|]. intros s1 s2 s3 H12 H23 id info H.
  destruct (H12 id info H) as [n Hn]. destruct (H23 id _ Hn) as [n' Hn']. by exists n'.
Qed.

(** The node has no such peer, and does not identify it. *)
Definition out s id : Prop := JsMap.get (peers s) id = None ∧ Identifying id ∉ pending s.

(** What everything but the purge does: offences and entries stay, and who is
    refused stays out. *)
Definition calm s s' : Prop :=
  offences s → offences s' ∧ keeps s s' ∧ ∀ id, is_Some (entry s id) → out s id → out s' id.

#[local] Instance calm_pre : PreOrder calm.
Proof.
  split; [by intros s Hs|]. intros s1 s2 s3 H12 H23 Hs. destruct (H12 Hs) as (Ho & Hk & Hout). destruct (H23 Ho) as (Ho' & Hk' & Hout').
  split; [done|]. split; [by etrans|]. intros id [info Hi] H. apply Hout', Hout; [|by exists info|done].
  destruct (Hk id info Hi) as [n ->]. by eexists.
Qed.

(** The blacklist is not touched. *)
Lemma calm_same s s' :
  blackListedPeerIds s' = blackListedPeerIds s → (∀ id, is_Some (entry s id) → out s id → out s' id) → calm s s'.
Proof.
  intros E Ho Hs. split; [intros x Hx; apply Hs; by rewrite <- E|]. split; [|done].
  intros id [r t n] Hi. exists n. unfold entry in *. by rewrite E.
Qed.

Lemma calm_eq s s' : blackListedPeerIds s' = blackListedPeerIds s → peers s' = peers s → pending s' = pending s → calm s s'.
Proof. intros E Ep Ef. apply calm_same; [done|]. unfold out. by rewrite Ep, Ef. Qed.

Lemma calm_suspend f s : (∀ id, f = Identifying id → entry s id = None) → calm s (suspend f s).
Proof.
  intros Hf. apply calm_same; [done|]. intros id [info Hi] [H1 H2]. split; [done|]. cbn.
  intros [H|E%list_elem_of_singleton]%elem_of_app; [done|]. by rewrite (Hf id) in Hi.
Qed.

Lemma calm_pending i s : calm s (set_pending (delete i (pending s)) s).
Proof.
  apply calm_same; [done|]. intros id _ [H1 H2]. split; [done|]. cbn. by intros H%list_elem_of_delete_inv.
Qed.

Lemma calm_forget id s : calm s (set_peers (JsMap.del (peers s) id) s).
Proof. apply calm_same; [done|]. intros id' _ [H1 H2]. split; [|done]. cbn. destruct (decide (id = id')) as [->|Hn]; [apply JsMap.get_del_eq|by rewrite JsMap.get_del_ne]. Qed.

Lemma calm_record id info s : reason info ≠ RECONNECT → entry s id = None → calm s (set_ids (JsMap.set (blackListedPeerIds s) id info) s).
Proof.
  intros Hr Hi Hs. split; [by apply set_offences|]. split; [|done]. unfold keeps, entry in *. cbn.
  intros id' [r t n] H. rewrite JsMap.get_set. case_decide; [subst; congruence|]. by exists n.
Qed.

Lemma calm_blackList now id code k s : code ≠ RECONNECT → calm s (blackListPeerId now id code k s).
Proof.
  intros Hc. unfold blackListPeerId, JsMap.has. destruct (JsMap.get (blackListedPeerIds s) id) as [info|] eqn:Hi; cbn;
    [by apply calm_suspend|].
  etrans; [by apply (calm_record id (mkBlacklisted code now 0))|by apply calm_suspend].
Qed.

Lemma blackListPeerId_entry now id code k s : is_Some (entry (blackListPeerId now id code k s) id).
Proof.
  unfold blackListPeerId, JsMap.has, entry. destruct (JsMap.get (blackListedPeerIds s) id) as [info|] eqn:Hi; cbn; [by rewrite Hi|].
  by rewrite JsMap.get_set_eq.
Qed.

(** A reconnection changes the attempts of an entry only. *)
Lemma calm_reconnected now id stored s :
  entry s id = Some stored → calm s (set_ids (JsMap.set (blackListedPeerIds s) id (reconnected now (Some stored))) s).
Proof.
  intros Hi Hs. assert (reason (reconnected now (Some stored)) = reason stored ∧ timestamp (reconnected now (Some stored)) = timestamp stored)
    as [Hr Ht] by (unfold reconnected; cbn; by case_decide).
  split; [apply set_offences; [done|rewrite Hr; by apply (offences_entry s id)]|]. split; [|done]. unfold keeps, entry in *. cbn.
  intros id' [r t n] H. rewrite JsMap.get_set. case_decide; [|by exists n]. subst id'. rewrite Hi in H. injection H as ->.
  destruct (reconnected now _) as [r' t' n']. cbn in *. subst. by exists n'.
Qed.

Lemma calm_disconnect now id code s : calm s (disconnectPeer now id code s).
Proof.
  unfold disconnectPeer. destruct (bool_decide_reflect (code = RECONNECT)) as [->|H1]; cbn [negb andb].
  - rewrite (bool_decide_false (RECONNECT = EXPECTED)) by done. cbn [negb].
    set (s' := match JsMap.get (blackListedPeerIds s) id with Some _ => _ | None => s end).
    assert (calm s s') as Hc by (unfold s'; destruct (JsMap.get (blackListedPeerIds s) id) eqn:Hi; [by apply calm_reconnected|done]).
    clearbody s'. etrans; [exact Hc|]. case_decide; [by apply calm_blackList|apply calm_forget].
  - destruct (bool_decide_reflect (code = EXPECTED)); [done|]. by apply calm_blackList.
Qed.

Lemma isPeerUnreachable_calm now id s : calm s (isPeerUnreachable now id s).1.
Proof. unfold isPeerUnreachable. destruct (PeerChecker.isPeerUnreachable now id (peerChecker s)). by apply calm_eq. Qed.

Lemma calm_ips now l code s : calm s (blacklistPeerIps config now l code s).
Proof.
  unfold blacklistPeerIps. case_match; [done|]. revert s. induction l as [|a l IH]; intros s; [done|]. cbn. etrans; [|apply IH].
  unfold blacklistIp. by repeat case_match; try apply calm_eq.
Qed.

Lemma calm_blacklisted now id code k addrs s : calm s (blacklisted config now id code k addrs s).
Proof.
  unfold blacklisted. set (s' := match addrs with Some _ => _ | None => s end).
  assert (calm s s') as Hc by (unfold s'; destruct addrs; [apply calm_ips|done]). clearbody s'. etrans; [exact Hc|].
  destruct k; [done|apply calm_forget|apply calm_disconnect].
Qed.

Lemma allowConnection_spec id s : offences s → allowConnection id s = (s, bool_decide (entry s id = None)).
Proof.
  intros Hs. unfold allowConnection. pose proof (offences_entry s id) as Hr. unfold entry in *.
  destruct (JsMap.get (blackListedPeerIds s) id) as [info|]; [|done]. by rewrite decide_False by (by apply Hr).
Qed.

Lemma calm_connect now id s : calm s (onPeerConnect now id s).
Proof.
  intros Hs. unfold onPeerConnect. case_decide; [by apply calm_disconnect|].
  case_match; [by apply calm_pre|]. rewrite allowConnection_spec by done. case_bool_decide as Hi; cbn [negb]; [|by apply calm_blackList].
  apply calm_suspend; [|done]. by intros id' [= <-].
Qed.

Lemma peer_to_try_calm now d s : calm s (peer_to_try now d s).1.
Proof.
  unfold peer_to_try. destruct (discovered_id d) as [id|]; [|done]. case_match; [done|]. case_match; [done|].
  pose proof (isPeerUnreachable_calm now id s) as Hu. destruct (isPeerUnreachable now id s) as [s' b]. by repeat case_match.
Qed.

Lemma peers_to_try_calm now seen ds s : calm s (peers_to_try now seen ds s).1.
Proof.
  revert seen s. induction ds as [|d ds IH]; intros seen s; [done|]. cbn [peers_to_try]. destruct (discovered_id d) as [id|]; [|apply IH].
  case_match; [apply IH|]. pose proof (peer_to_try_calm now d s) as Hp. destruct (peer_to_try now d s) as [s' p].
  specialize (IH (seen ++ [id]) s'). destruct (peers_to_try now (seen ++ [id]) ds s') as [s'' l]. cbn in *. by etrans.
Qed.

Lemma onOPNetPeersDiscovered_calm now ds s : calm s (onOPNetPeersDiscovered now ds s).1.
Proof.
  unfold onOPNetPeersDiscovered. set (ds' := if decide _ then _ else _). clearbody ds'. pose proof (peers_to_try_calm now [] ds' s) as Hp.
  destruct (peers_to_try now [] ds' s) as [s' l]. cbn in Hp. destruct l as [|x l]; [done|].
  destruct (PeerChecker.checkPeers now (x :: l) (peerChecker s')). etrans; [exact Hp|]. by apply calm_eq.
Qed.

Lemma processObservedAddress_calm cs s : calm s (processObservedAddress config cs s).1.
Proof. unfold processObservedAddress. by repeat case_match; simplify_eq/=; apply calm_eq. Qed.

Lemma broadcastTransaction_calm data s : calm s (broadcastTransaction data s).1.
Proof. unfold broadcastTransaction. by repeat case_match; apply calm_eq. Qed.

Lemma onBroadcastTransaction_calm tx s : calm s (onBroadcastTransaction txid tx s).
Proof. unfold onBroadcastTransaction. repeat case_match; try done. etrans; [|by apply calm_suspend]. by apply calm_eq. Qed.

Lemma verified_calm tx h answer s : calm s (verified fromBase64 tx h answer s).1.
Proof.
  unfold verified. repeat (first [done|case_match]);
    match goal with E : broadcastTransaction ?d s = _ |- _ => pose proof (broadcastTransaction_calm d s) as Hb; by rewrite E in Hb end.
Qed.

Lemma dialAnswered_calm now id c d s : calm s (dialAnswered now id c d s).
Proof.
  unfold dialAnswered. destruct (PeerChecker.dialAnswered now id c d (peerChecker s)) as [ch u].
  etrans; [by apply (calm_eq s (set_checker ch s))|]. destruct u; [|done]. unfold onPeerUnreachable. case_match; [done|]. by apply calm_blackList.
Qed.

Lemma calm_resume i g s : (∀ f s' r, g f s' = Some r → calm s' r.1) → calm s (resume i g s).1.
Proof.
  intros Hg. unfold resume. destruct (pending s !! i) as [f|]; [|done].
  destruct (g f (set_pending (delete i (pending s)) s)) as [r|] eqn:Hr; [|done]. etrans; [apply (calm_pending i)|]. eapply Hg, Hr.
Qed.

(** Who is identified was not out. *)
Lemma calm_identify now i ok s : calm s (step_ (IdentifyAnswer now i ok) s).1.
Proof.
  cbn. unfold resume. destruct (pending s !! i) as [[| |id| |]|] eqn:Hf; try done. cbn. unfold identified.
  destruct ok; [|etrans; [apply (calm_pending i)|apply calm_disconnect]].
  apply calm_same; [by case_match|]. intros id' _ [H1 H2].
  assert (id ≠ id') as Hne by (intros ->; by apply H2, (list_elem_of_lookup_2 _ i)).
  assert (Identifying id' ∉ delete i (pending s)) by (by intros ?%list_elem_of_delete_inv).
  case_match; [done|]. split; [|done]. cbn. by rewrite JsMap.get_set_ne.
Qed.

(** An event that does not purge. *)
Definition is_timer e : bool := match e with Timer _ => true | _ => false end.

Lemma step_calm e s : is_timer e = false → calm s (step_ e s).1.
Proof.
  destruct e as [now id code|now id|n id|now id|now ds|now nodes|now id c d| |cs|a| |now|id p|data|tx|now i addrs|now i saved|now i ok|i h|i a];
    intros Ht; try discriminate Ht; cbn [step fst].
  - apply calm_disconnect.
  - apply calm_connect.
  - unfold onPeerDisconnect. case_decide; [done|]. by apply calm_suspend.
  - unfold onPeerDiscovery. case_match; [done|]. apply isPeerUnreachable_calm.
  - pose proof (onOPNetPeersDiscovered_calm now ds s) as H. by destruct (onOPNetPeersDiscovered now ds s).
  - unfold addBoostrapNodesToPeerStore. destruct (flat_map (bootstrap_peer config) nodes) as [|p ps]; [done|].
    destruct (PeerChecker.checkPeers now (p :: ps) (peerChecker s)). by apply calm_eq.
  - apply dialAnswered_calm.
  - by apply calm_eq.
  - pose proof (processObservedAddress_calm cs s) as H. by destruct (processObservedAddress config cs s).
  - by apply calm_eq.
  - by apply calm_eq.
  - unfold JsMap.has. destruct (JsMap.get (peers s) id) eqn:Hp; [|done]. apply calm_same; [done|]. intros id' _ [H1 H2]. split; [|done].
    cbn. rewrite JsMap.get_set. case_decide; [|done]. congruence.
  - apply broadcastTransaction_calm.
  - apply onBroadcastTransaction_calm.
  - apply calm_resume. intros [] s' r [= <-]. apply calm_blacklisted.
  - apply calm_resume. intros [] s' r [= <-]. unfold left_. cbn. etrans; [apply calm_forget|]. destruct saved; [apply isPeerUnreachable_calm|done].
  - apply calm_identify.
  - apply calm_resume. intros [] s' r [= <-]. unfold mempoolAnswered. destruct h as [[]|]; try done. by apply calm_suspend.
  - apply calm_resume. intros [] s' r [= <-]. apply verified_calm.
Qed.

(** *** The purge *)

Lemma purge_keeps now m id info :
  JsMap.get m id = Some info → now ≤ timestamp info + PURGE_BLACKLISTED_PEER_AFTER → JsMap.get (purge now m) id = Some info.
Proof.
  intros Hi Hn. induction m as [|[k v] m IH]; [done|]. cbn in *. unfold fresh at 1. case_decide as Hk.
  - injection Hi as ->. rewrite bool_decide_false by lia. cbn. by rewrite decide_True.
  - case_match; [|by apply IH]. cbn. rewrite decide_False by done. by apply IH.
Qed.

Lemma purge_offences now s : offences s → offences (purgeOldBlacklistedPeers now s).
Proof. intros Hs x Hx. apply Hs. cbn in Hx. apply list_elem_of_In, filter_In in Hx as [Hx _]. by apply list_elem_of_In. Qed.

(** An event of a time when the entry of [info] is not purged. *)
Definition not_purging (info : BlacklistedPeerInfo) e : Prop :=
  ∀ now, purge_time e = Some now → now ≤ timestamp info + PURGE_BLACKLISTED_PEER_AFTER.

Lemma step_offences e s : offences s → offences (step_ e s).1.
Proof.
  intros Hs. destruct (is_timer e) eqn:Ht; [|by apply (step_calm e s Ht)]. destruct e; try discriminate Ht. by apply purge_offences.
Qed.

Lemma step_refused e s id info : offences s → not_purging info e → entry s id = Some info →
  (∃ n, entry (step_ e s).1 id = Some (mkBlacklisted (reason info) (timestamp info) n)) ∧ (out s id → out (step_ e s).1 id).
Proof.
  intros Hs He Hi. destruct (is_timer e) eqn:Ht.
  - destruct e; try discriminate Ht. split; [|done]. exists (attempts info). destruct info. cbn. by apply (purge_keeps now), He.
  - destruct (step_calm e s Ht Hs) as (_ & Hk & Ho). split; [by apply Hk|]. apply Ho. by exists info.
Qed.

Lemma run_cons e l s : (run_ (e :: l) s).1 = (run_ l (step_ e s).1).1.
Proof. cbn. destruct (step_ e s) as [s' os]. cbn. by destruct (run_ l s'). Qed.

Lemma manager_run_app l l' s : (run_ (l ++ l') s).1 = (run_ l' (run_ l s).1).1.
Proof. revert s. induction l as [|e l IH]; intros s; [done|]. by rewrite <- app_comm_cons, !run_cons, IH. Qed.

Lemma run_offences l s : offences s → offences (run_ l s).1.
Proof. revert s. induction l as [|e l IH]; intros s Hs; [done|]. rewrite run_cons. by apply IH, step_offences. Qed.

Lemma run_refused l s id info : offences s → Forall (not_purging info) l → entry s id = Some info →
  is_Some (entry (run_ l s).1 id) ∧ (out s id → out (run_ l s).1 id).
Proof.
  revert s info. induction l as [|e l IH]; intros s info Hs Hl Hi; [by split; [exists info|]|].
  apply Forall_cons in Hl as [He Hl]. destruct (step_refused e s id info Hs He Hi) as [[n Hn] Ho]. rewrite run_cons.
  destruct (IH (step_ e s).1 (mkBlacklisted (reason info) (timestamp info) n)) as [H1 H2]; [by apply step_offences|done|done|].
  split; [done|]. intros H. by apply H2, Ho.
Qed.

(** Every way in and out is closed: the gates, the filter of the addresses, the
    peers that are discovered. *)
Definition refused s id : Prop :=
  denyInboundUpgradedConnection id s = true ∧ (∀ now, (denyOutboundConnection now id s).2 = true) ∧
  (∀ now addr, (addressFilter now id addr s).2 = false) ∧
  (∀ now, onPeerDiscovery now id s = (s, true)) ∧
  (∀ now d, discovered_id d = Some id → peer_to_try now d s = (s, None)).

Lemma entry_refused s id : offences s → is_Some (entry s id) → refused s id.
Proof.
  intros Hs [info Hi]. assert (isBlackListedPeerId id s = true) as Hb.
  { unfold isBlackListedPeerId. unfold entry in Hi. rewrite Hi. rewrite decide_False; [done|]. by apply (offences_entry s id). }
  split; [done|]. split; [intros now; unfold denyOutboundConnection; by rewrite Hb|]. split; [|split].
  - intros now addr. unfold addressFilter, isPeerUnreachable. destruct (PeerChecker.isPeerUnreachable now id (peerChecker s)) as [c []]; [done|].
    change (isBlackListedPeerId id (set_checker c s)) with (isBlackListedPeerId id s). rewrite Hb. by repeat case_match.
  - intros now. unfold onPeerDiscovery. by rewrite Hb.
  - intros now d Hd. unfold peer_to_try. rewrite Hd, Hb. by destruct (connected d).
Qed.

(** C17: a peer that is disconnected for anything but a reconnection is refused from
    then on, at every gate, however the node is used, until its first entry is
    purged, which takes more than 300 seconds; and if the node did not have the peer
    and did not identify it, it does not have it either. *)
Theorem offenders_are_refused l now id code l' :
  code ≠ RECONNECT → code ≠ EXPECTED →
  let s := (run_ (l ++ [Disconnect_ now id code]) P2PManager.initial).1 in
  ∃ info, entry s id = Some info ∧
    (entry (run_ l P2PManager.initial).1 id = None → timestamp info = now) ∧
    (Forall (not_purging info) l' → refused (run_ l' s).1 id ∧ (out s id → out (run_ l' s).1 id)).
Proof.
  intros H1 H2 s. assert (offences (run_ l P2PManager.initial).1) as Hl by (apply run_offences; intros x ?%elem_of_nil; done).
  assert (s = blackListPeerId now id code Nothing (run_ l P2PManager.initial).1) as Es.
  { unfold s. rewrite manager_run_app, run_cons. cbn [step fst run]. unfold disconnectPeer. by rewrite !bool_decide_false. }
  destruct (calm_blackList now id code Nothing _ H1 Hl) as (Ho & _ & _). destruct (blackListPeerId_entry now id code Nothing (run_ l P2PManager.initial).1)
    as [info Hinfo]. rewrite <- Es in *. exists info. split; [done|]. split.
  - intros Hn. rewrite Es in Hinfo. unfold blackListPeerId, JsMap.has, entry in *. rewrite Hn in Hinfo. cbn in Hinfo.
    rewrite JsMap.get_set_eq in Hinfo. by injection Hinfo as <-.
  - intros Hl'. destruct (run_refused l' s id info Ho Hl' Hinfo) as [Hi Hout]. split; [|done]. apply entry_refused; [|done]. by apply run_offences.
Qed.
End Facts.
