(* ===== verification/PeerSharing.v ===== *)
(** * What a node shares, dials and relays

    Only authenticated peers are shared, with public addresses; the queue of the
    peers to dial stays bounded; a transaction is relayed once between two timers,
    which keeps one that is received from being relayed at all. *)

From S2P Require Import Prelude TransactionSorter ConsensusRules Consensus HeaderValidator Epochs EpochManager WitnessManager PeerProtocol Encryptem PeerServer PeerServerFacts PeerClient PeerHandshake PeerNode PeerAddresses PeerManager PeerManagerFacts PeerExamples.
Import P2PManager AddressExtractor.

Section Sharing.
Context {LB : BtcLib} {LW : @WitnessLib LB} {LS : @SodiumLib LB LW} {LP : ProtobufLib}.
Context (config : P2PConfig) (includes : string → string → bool).
Context (txid : bytes → option string) (fromBase64 : string → option bytes).
Implicit Types (s : P2PManager.t) (id : string) (e : event).

(** ** The peers that are shared *)

Definition public (a : Multiaddr) : Prop := ∃ ip, extractAddressHost a = Some ip ∧ isPrivateOrLoopbackAddress ip = false.

(** The bytes of a public address under which the store has the peer. *)
Definition stored_public (store : list StoredPeer) id (b : bytes) : Prop :=
  ∃ p a, p ∈ store ∧ stored_id p = id ∧ a ∈ stored_addresses p ∧ addr_bytes a.1 = b ∧ public a.1.

(** What a peer that is shared is. *)
Definition shareable s (store : list StoredPeer) (i : OPNetPeerInfo) : Prop :=
  (∃ q, JsMap.get (peers s) (peer i) = Some q ∧ OPNetPeer.hasAuthenticated q = true ∧
        ServerPeer.clientIdentity (OPNetPeer.serverNetworkingManager q) = Some (peer_identity i) ∧
        ServerPeer.clientChainId (OPNetPeer.serverNetworkingManager q) = Some (peer_chainId i)) ∧
  (peer i ∉ bootstrapPeerIds config) ∧
  (1 ≤ length (addresses i) ∧ length (addresses i) ≤ 5)%nat ∧ Forall (stored_public store (peer i)) (addresses i).

Lemma shared_address_public self_id a : shared_address config includes self_id a = true → public a.1.
Proof.
  unfold shared_address, public, filterMultiaddrsPrivate. intros [_ H]%andb_prop. cbn in H.
  destruct (extractAddressHost a.1) as [ip|]; [|done]. exists ip. split; [done|]. by destruct (isPrivateOrLoopbackAddress ip).
Qed.

Lemma shared_public self_id store p l :
  p ∈ store → (∀ a, a ∈ l → a ∈ List.filter (shared_address config includes self_id) (stored_addresses p)) →
  Forall (stored_public store (stored_id p)) (take 5 (map (λ a, addr_bytes a.1) l)).
Proof.
  intros Hp Hl. apply Forall_take, Forall_forall. intros b (a & -> & Ha)%list_elem_of_fmap. apply Hl, list_elem_of_In, filter_In in Ha as [Ha Hs].
  exists p, a. split; [done|]. split; [done|]. split; [by apply list_elem_of_In|]. split; [done|by apply (shared_address_public self_id)].
Qed.

Lemma shared_peer_shareable self_id s store p i :
  p ∈ store → shared_peer config includes self_id s p = Some i → shareable s store i.
Proof.
  intros Hp. unfold shared_peer. destruct (JsMap.get (peers s) (stored_id p)) as [q|] eqn:Hq; [|done]. cbn -[shared_address].
  destruct (OPNetPeer.hasAuthenticated q) eqn:Ha; [|done]. cbn -[shared_address]. set (m := OPNetPeer.serverNetworkingManager q).
  destruct (ServerPeer.clientVersion m) as [v|]; [|done]. destruct (ServerPeer.clientIdentity m) as [idt|] eqn:Hi; [|done].
  destruct (ServerPeer.clientIndexerMode m) as [md|]; [|done]. destruct (ServerPeer.clientChainId m) as [ch|] eqn:Hc; [|done].
  destruct (ServerPeer.clientNetwork m) as [nw|]; [|done]. cbn -[shared_address]. case_bool_decide as Hb; [done|].
  set (sh := List.filter (shared_address config includes self_id) (stored_addresses p)).
  set (l := match List.filter snd sh with [] => sh | _ => _ end).
  assert (∀ a, a ∈ l → a ∈ sh) as Hl.
  { intros a. unfold l. destruct (List.filter snd sh) eqn:E; [done|]. rewrite <- E. intros Ha'%list_elem_of_In%filter_In. apply list_elem_of_In, Ha'. }
  clearbody l. destruct l as [|a l]; [done|].
  assert (length (take 5 (map (λ a, addr_bytes a.1) (a :: l))) = (1 + length (take 4 (map (λ a, addr_bytes a.1) l)))%nat) as Hn by done.
  pose proof (shared_public self_id store p (a :: l) Hp Hl) as Hf. revert Hn Hf.
  generalize (take 5 (map (λ a, addr_bytes a.1) (a :: l))). intros bs Hn Hf [= <-]. unfold shareable. cbn [peer addresses peer_identity peer_chainId].
  split; [by exists q|]. split; [done|]. split; [|done].
  rewrite length_take in Hn. lia.
Qed.

(** C18: a peer asks for at most a hundred peers, and every peer it is told is one
    the node has, that has proved its key on this connection, under the identity
    and chain it gave, that is not a bootstrap node, with one to five addresses,
    each stored for it and with a public host. *)
Theorem shared_peers self_id draw store s :
  (length (getOPNetPeers config includes self_id draw store s) ≤ 100)%nat ∧
  Forall (shareable s store) (getOPNetPeers config includes self_id draw store s).
Proof.
  unfold getOPNetPeers. split; [rewrite length_take; lia|]. apply Forall_take, Forall_forall.
  intros i (p & Hp & Hi)%list_elem_of_omap. by apply (shared_peer_shareable self_id s store p).
Qed.

(** ** The queue of the peers to dial *)

Definition queue_ok (c : PeerChecker.t) : Prop :=
  let q := map info_id (PeerChecker.peersToTry c) in
  (length q ≤ 101)%nat ∧ NoDup q ∧ (length (PeerChecker.triedPeers c) ≤ 151)%nat ∧ NoDup (PeerChecker.triedPeers c) ∧
  (∀ id, id ∈ q → id ∉ PeerChecker.triedPeers c).

Lemma queue_eq c c' : PeerChecker.peersToTry c' = PeerChecker.peersToTry c → PeerChecker.triedPeers c' = PeerChecker.triedPeers c →
  queue_ok c → queue_ok c'.
Proof. intros E1 E2. unfold queue_ok. by rewrite E1, E2. Qed.

Lemma unreachable_queue now id c : queue_ok c → queue_ok (PeerChecker.isPeerUnreachable now id c).1.
Proof. apply queue_eq; unfold PeerChecker.isPeerUnreachable; by repeat case_match. Qed.

Lemma dialAnswered_queue now id b d c : queue_ok c → queue_ok (PeerChecker.dialAnswered now id b d c).1.
Proof.
  unfold PeerChecker.dialAnswered, PeerChecker.recordExternalDialFailure. intros H. destruct d; [by destruct b|].
  pose proof (unreachable_queue now id c H) as H'. destruct (PeerChecker.isPeerUnreachable now id c) as [c' []]; [done|].
  cbn in H'. revert H'. apply queue_eq; unfold PeerChecker.recordDialFailure; by repeat case_match.
Qed.

Lemma addToTry_queue now p c : queue_ok c → queue_ok (PeerChecker.addToTryPeers now p c).
Proof.
  unfold PeerChecker.addToTryPeers. intros H. case_decide as Hlen; [done|].
  pose proof (unreachable_queue now (info_id p) c H) as H'.
  assert (PeerChecker.peersToTry (PeerChecker.isPeerUnreachable now (info_id p) c).1 = PeerChecker.peersToTry c) as El
    by (unfold PeerChecker.isPeerUnreachable; by repeat case_match).
  destruct (PeerChecker.isPeerUnreachable now (info_id p) c) as [c' []]; [done|]. cbn in H', El.
  unfold PeerChecker.alreadyTriedPeer. case_bool_decide as Ht; [done|]. case_bool_decide as Hq; [done|].
  destruct H' as (H1 & H2 & H3 & H4 & H5). unfold queue_ok. cbn. rewrite map_app. cbn. rewrite length_app, length_map, El. cbn.
  split; [lia|]. rewrite El in Hq, H2, H5. split; [|split; [done|split; [done|]]].
  - apply NoDup_app. split; [done|]. split; [|apply NoDup_singleton]. by intros x Hx ->%list_elem_of_singleton.
  - by intros x [Hx| ->%list_elem_of_singleton]%elem_of_app; [apply H5|].
Qed.

(** The peer that is taken joins the tried ones, the oldest of which is forgotten. *)
Lemma tryNext_queue now c : queue_ok c → queue_ok (PeerChecker.tryNextPeer now c).1.
Proof.
  unfold PeerChecker.tryNextPeer. intros H. destruct (PeerChecker.peersToTry c) as [|p rest] eqn:El; [done|].
  match goal with |- context [PeerChecker.isPeerUnreachable now ?i ?x] =>
    assert (queue_ok x) as Hx; [|pose proof (unreachable_queue now i x Hx); by destruct (PeerChecker.isPeerUnreachable now i x)] end.
  destruct H as (H1 & H2 & H3 & H4 & H5). rewrite El in *. cbn in H1, H2, H5. apply NoDup_cons in H2 as [Hp H2].
  unfold PeerChecker.addTriedPeers. cbn [PeerChecker.set_toTry PeerChecker.triedPeers].
  set (c1 := if decide _ then _ else _).
  assert (PeerChecker.peersToTry c1 = rest ∧ (length (PeerChecker.triedPeers c1) ≤ 150)%nat ∧ NoDup (PeerChecker.triedPeers c1) ∧
    (∀ x, x ∈ PeerChecker.triedPeers c1 → x ∈ PeerChecker.triedPeers c)) as (E1 & E2 & E3 & E4).
  { unfold c1. case_decide as Hl; cbn; [|split; [done|]; split; [lia|done]]. split; [done|].
    destruct (PeerChecker.triedPeers c) as [|x l]; cbn in *; [split; [lia|done]|]. apply NoDup_cons in H4 as [_ H4].
    split; [lia|]. split; [done|]. intros y Hy. by right. }
  clearbody c1. rewrite bool_decide_false by (intros Hx%E4; by apply (H5 (info_id p)); [left|]). unfold queue_ok. cbn. rewrite E1.
  split; [lia|]. split; [done|]. split; [rewrite length_app; cbn; lia|]. split.
  - apply NoDup_app. split; [done|]. split; [|apply NoDup_singleton]. intros x Hx ->%list_elem_of_singleton. apply (H5 (info_id p)); [by left|by apply E4].
  - intros x Hx [Hy|Hy%list_elem_of_singleton]%elem_of_app; [by apply (H5 x); [right|apply E4]|]. by subst.
Qed.

Lemma tryNextPeers_queue now n c : queue_ok c → queue_ok (PeerChecker.tryNextPeers now n c).1.
Proof.
  revert c. induction n as [|n IH]; intros c H; [done|]. cbn [PeerChecker.tryNextPeers]. pose proof (tryNext_queue now c H) as H1.
  destruct (PeerChecker.tryNextPeer now c) as [c1 l]. cbn in H1. specialize (IH c1 H1). by destruct (PeerChecker.tryNextPeers now n c1).
Qed.

Lemma checkPeers_queue now l c : queue_ok c → queue_ok (PeerChecker.checkPeers now l c).1.
Proof.
  unfold PeerChecker.checkPeers. intros H. set (c' := foldl _ c l).
  assert (queue_ok c') as Hc by (unfold c'; clear c'; revert c H; induction l as [|p l IH]; intros c H; [done|]; by apply IH, addToTry_queue).
  clearbody c'. case_match; [done|]. unfold PeerChecker.tryPeers. case_match; [done|]. by apply tryNextPeers_queue.
Qed.

(** What touches the checker of a node. *)
Definition qok s : Prop := queue_ok (peerChecker s).

Lemma isPeerUnreachable_qok now id s : qok s → qok (isPeerUnreachable now id s).1.
Proof.
  unfold isPeerUnreachable, qok. intros H%(unreachable_queue now id). by destruct (PeerChecker.isPeerUnreachable now id (peerChecker s)).
Qed.

Lemma qok_eq s s' : peerChecker s' = peerChecker s → qok s → qok s'.
Proof. unfold qok. by intros ->. Qed.

Lemma disconnect_checker now id code s : peerChecker (disconnectPeer now id code s) = peerChecker s.
Proof. unfold disconnectPeer, blackListPeerId. by repeat case_match. Qed.

Lemma blacklisted_checker now id code k addrs s : peerChecker (blacklisted config now id code k addrs s) = peerChecker s.
Proof.
  unfold blacklisted. set (s' := match addrs with Some _ => _ | None => s end).
  assert (peerChecker s' = peerChecker s) as E; [|clearbody s'; destruct k; cbn; by rewrite ?disconnect_checker].
  unfold s', blacklistPeerIps. destruct addrs as [l|]; [|done]. case_match; [done|]. clear s'. revert s.
  induction l as [|a l IH]; intros s; [done|]. cbn. rewrite IH. unfold blacklistIp. by repeat case_match.
Qed.

Lemma peers_to_try_qok now seen ds s : qok s → qok (peers_to_try now seen ds s).1.
Proof.
  revert seen s. induction ds as [|d ds IH]; intros seen s H; [done|]. cbn [peers_to_try]. destruct (discovered_id d) as [id|] eqn:Hd; [|by apply IH].
  case_match; [by apply IH|]. assert (qok (peer_to_try now d s).1) as Hp.
  { unfold peer_to_try. rewrite Hd. case_match; [done|]. case_match; [done|]. apply (isPeerUnreachable_qok now id) in H.
    destruct (isPeerUnreachable now id s) as [s' b]. by repeat case_match. }
  destruct (peer_to_try now d s) as [s' p]. specialize (IH (seen ++ [id]) s' Hp). by destruct (peers_to_try now (seen ++ [id]) ds s').
Qed.

Lemma checkPeers_qok now l s :
  qok s → qok (let '(c, _) := PeerChecker.checkPeers now l (peerChecker s) in set_checker c s).
Proof. unfold qok. intros H%(checkPeers_queue now l). by destruct (PeerChecker.checkPeers now l (peerChecker s)). Qed.

Lemma resume_qok i g s : (∀ f s' r, qok s' → g f s' = Some r → qok r.1) → qok s → qok (resume i g s).1.
Proof.
  intros Hg H. unfold resume. destruct (pending s !! i) as [f|]; [|done].
  destruct (g f (set_pending (delete i (pending s)) s)) as [r|] eqn:Hr; [|done]. by eapply Hg, Hr.
Qed.

Lemma step_qok e s : qok s → qok (step config txid fromBase64 e s).1.
Proof.
  intros H. destruct e as [now id code|now id|n id|now id|now ds|now nodes|now id c d| |cs|a| |now|id p|data|tx|now i addrs|now i saved|now i ok|i h|i a];
    cbn [step fst].
  - by apply (qok_eq s); [apply disconnect_checker|].
  - unfold onPeerConnect. case_decide; [by apply (qok_eq s); [apply disconnect_checker|]|]. case_match; [done|].
    assert (peerChecker (allowConnection id s).1 = peerChecker s) as E by (unfold allowConnection; by repeat case_match).
    destruct (allowConnection id s) as [s' al]. cbn in E. apply (qok_eq s'); [|by apply (qok_eq s)].
    unfold blackListPeerId. by repeat case_match.
  - unfold onPeerDisconnect. by case_decide.
  - unfold onPeerDiscovery. case_match; [done|]. by apply isPeerUnreachable_qok.
  - unfold onOPNetPeersDiscovered. set (ds' := if decide _ then _ else _). clearbody ds'. apply (peers_to_try_qok now [] ds') in H.
    destruct (peers_to_try now [] ds' s) as [s' [|x l]]; [done|]. apply (checkPeers_qok now (x :: l) s') in H. revert H.
    by destruct (PeerChecker.checkPeers now (x :: l) (peerChecker s')).
  - unfold addBoostrapNodesToPeerStore. destruct (flat_map (bootstrap_peer config) nodes) as [|x l]; [done|].
    apply (checkPeers_qok now (x :: l)) in H. revert H. by destruct (PeerChecker.checkPeers now (x :: l) (peerChecker s)).
  - unfold dialAnswered. apply (dialAnswered_queue now id c d) in H. destruct (PeerChecker.dialAnswered now id c d (peerChecker s)) as [ch []]; [|done].
    unfold onPeerUnreachable, blackListPeerId. by repeat case_match.
  - by apply (queue_eq (peerChecker s)).
  - unfold processObservedAddress. by repeat case_match; simplify_eq/=.
  - done.
  - done.
  - done.
  - by case_match.
  - unfold broadcastTransaction. by repeat case_match.
  - unfold onBroadcastTransaction. by repeat case_match.
  - revert H. apply resume_qok. intros [] s' r H [= <-]. by apply (qok_eq s'); [apply blacklisted_checker|].
  - revert H. apply resume_qok. intros [] s' r H [= <-]. unfold left_. cbn. destruct saved; [by apply isPeerUnreachable_qok|done].
  - revert H. apply resume_qok. intros [] s' r H [= <-]. cbn. unfold identified. destruct ok; [|by apply (qok_eq s'); [apply disconnect_checker|]].
    assert (qok (set_checker (PeerChecker.resetDialFailures id (peerChecker s')) s')) as Hc by by apply (queue_eq (peerChecker s')).
    by case_match.
  - revert H. apply resume_qok. intros [] s' r H [= <-]. unfold mempoolAnswered. by destruct h as [[]|].
  - revert H. apply resume_qok. intros [] s' r H [= <-]. unfold verified, broadcastTransaction. by repeat case_match; simplify_eq/=.
Qed.

(** however the node is used, at most 101 peers wait to be dialed, at most 151
    are remembered as tried, neither list has a peer twice, and no peer that waits
    has been tried. *)
Theorem dial_queue_bounded l : queue_ok (peerChecker (run config txid fromBase64 l P2PManager.initial).1).
Proof.
  assert (∀ s, qok s → qok (run config txid fromBase64 l s).1) as H; [|apply H; split; [cbn; lia|]; split; [constructor|]; split; [cbn; lia|]; split; [constructor|by intros id ?%elem_of_nil]].
  induction l as [|e l IH]; intros s Hs; [done|]. cbn. apply (step_qok e) in Hs. destruct (step config txid fromBase64 e s) as [s' os]. cbn in Hs.
  apply IH in Hs. by destruct (run config txid fromBase64 l s').
Qed.

(** ** The transactions that are relayed *)

Definition is_send (o : manager_output) : Prop := match o with SendTransaction _ _ _ => True | _ => False end.

Lemma known_broadcast data s h :
  broadcast_id data = h → h ≠ ""%string → h ∈ knownMempoolIdentifiers s → broadcastTransaction data s = (s, []).
Proof.
  intros Hd Hh Hk. unfold broadcastTransaction, JsSet.has. rewrite Hd, bool_decide_true by done. by destruct h.
Qed.

Lemma verified_sends tx h answer s :
  h ≠ ""%string → h ∈ knownMempoolIdentifiers s → Forall (λ o, ¬ is_send o) (verified fromBase64 tx h answer s).2.
Proof.
  intros Hh Hk. unfold verified. destruct answer as [v|]; [|done]. repeat (case_match; [done|]).
  destruct (response_result v) as [r|]; [|done]. destruct (String.eqb_spec r h) as [->|]; [|done]. cbn [negb].
  assert (Forall (λ o, ¬ is_send o) [NotifyApi h (default Generic (transactionType v))]) as Hn by (apply Forall_singleton; by intros []).
  case_match; [|done]. by rewrite (known_broadcast _ s h).
Qed.

(** What leaves the known transactions as they are, and what adds to them. *)
Abbreviation known := knownMempoolIdentifiers.

Lemma disconnect_known now id code s : known (disconnectPeer now id code s) = known s.
Proof. unfold disconnectPeer, blackListPeerId. by repeat case_match. Qed.

Lemma isPeerUnreachable_known now id s : known (isPeerUnreachable now id s).1 = known s.
Proof. unfold isPeerUnreachable. by destruct (PeerChecker.isPeerUnreachable now id (peerChecker s)). Qed.

Lemma connect_known now id s : known (onPeerConnect now id s) = known s.
Proof.
  unfold onPeerConnect. case_decide; [apply disconnect_known|]. case_match; [done|].
  assert (known (allowConnection id s).1 = known s) as E by (unfold allowConnection; by repeat case_match).
  destruct (allowConnection id s) as [s' al]. cbn in E. rewrite <- E. unfold blackListPeerId. by repeat case_match.
Qed.

Lemma blacklisted_known now id code k addrs s : known (blacklisted config now id code k addrs s) = known s.
Proof.
  unfold blacklisted. set (s' := match addrs with Some _ => _ | None => s end).
  assert (known s' = known s) as E; [|clearbody s'; destruct k; cbn; by rewrite ?disconnect_known].
  unfold s', blacklistPeerIps. destruct addrs as [l|]; [|done]. case_match; [done|]. clear s'. revert s.
  induction l as [|a l IH]; intros s; [done|]. cbn. rewrite IH. unfold blacklistIp. by repeat case_match.
Qed.

Lemma peers_to_try_known now seen ds s : known (peers_to_try now seen ds s).1 = known s.
Proof.
  revert seen s. induction ds as [|d ds IH]; intros seen s; [done|]. cbn [peers_to_try]. destruct (discovered_id d) as [id|] eqn:Hd; [|apply IH].
  case_match; [apply IH|]. assert (known (peer_to_try now d s).1 = known s) as Hp.
  { unfold peer_to_try. rewrite Hd. case_match; [done|]. case_match; [done|]. pose proof (isPeerUnreachable_known now id s) as E.
    destruct (isPeerUnreachable now id s) as [s' b]. by repeat case_match. }
  destruct (peer_to_try now d s) as [s' p]. specialize (IH (seen ++ [id]) s'). rewrite <- Hp.
  destruct (peers_to_try now (seen ++ [id]) ds s') as [s'' l]. exact IH.
Qed.

Lemma elem_of_known h x s : h ∈ known s → h ∈ JsSet.add (known s) x.
Proof. intros H. apply JsSet.elem_of_add. by right. Qed.

Lemma broadcast_known data s h : h ∈ known s → h ∈ known (broadcastTransaction data s).1.
Proof. intros H. unfold broadcastTransaction. repeat case_match; try done; by apply elem_of_known. Qed.

Lemma resume_known i g s h : (∀ f s' r, h ∈ known s' → g f s' = Some r → h ∈ known r.1) → h ∈ known s → h ∈ known (resume i g s).1.
Proof.
  intros Hg H. unfold resume. destruct (pending s !! i) as [f|]; [|done].
  destruct (g f (set_pending (delete i (pending s)) s)) as [r|] eqn:Hr; [|done]. by eapply Hg, Hr.
Qed.

(** A transaction stays known until the timer. *)
Lemma step_known e s h : is_timer e = false → h ∈ known s → h ∈ known (step config txid fromBase64 e s).1.
Proof.
  intros Ht H. destruct e as [now id code|now id|n id|now id|now ds|now nodes|now id c d| |cs|a| |now|id p|data|tx|now i addrs|now i saved|now i ok|i h'|i a];
    try discriminate Ht; cbn [step fst].
  - by rewrite disconnect_known.
  - by rewrite connect_known.
  - unfold onPeerDisconnect. by case_decide.
  - unfold onPeerDiscovery. case_match; [done|]. by rewrite isPeerUnreachable_known.
  - unfold onOPNetPeersDiscovered. set (ds' := if decide _ then _ else _). clearbody ds'. rewrite <- (peers_to_try_known now [] ds') in H.
    destruct (peers_to_try now [] ds' s) as [s' [|x l]]; [done|]. by destruct (PeerChecker.checkPeers now (x :: l) (peerChecker s')).
  - unfold addBoostrapNodesToPeerStore. destruct (flat_map (bootstrap_peer config) nodes) as [|x l]; [done|].
    by destruct (PeerChecker.checkPeers now (x :: l) (peerChecker s)).
  - unfold dialAnswered. destruct (PeerChecker.dialAnswered now id c d (peerChecker s)) as [ch []]; [|done].
    unfold onPeerUnreachable, blackListPeerId. by repeat case_match.
  - done.
  - unfold processObservedAddress. by repeat case_match; simplify_eq/=.
  - done.
  - done.
  - by case_match.
  - by apply broadcast_known.
  - unfold onBroadcastTransaction. repeat case_match; try done. by apply elem_of_known.
  - revert H. apply resume_known. intros [] s' r H [= <-]. cbn. by rewrite blacklisted_known.
  - revert H. apply resume_known. intros [] s' r H [= <-]. unfold left_. cbn. destruct saved; [by rewrite isPeerUnreachable_known|done].
  - revert H. apply resume_known. intros [] s' r H [= <-]. cbn. unfold identified. destruct ok; [by case_match|by rewrite disconnect_known].
  - revert H. apply resume_known. intros [] s' r H [= <-]. unfold mempoolAnswered. by destruct h' as [[]|].
  - revert H. apply resume_known. intros [] s' r H [= <-]. unfold verified. repeat first [done|case_match];
      match goal with E : broadcastTransaction ?d s' = _ |- _ => pose proof (broadcast_known d s' h H) as Hb; by rewrite E in Hb end.
Qed.

Lemma run_known l s h : Forall (λ e, is_timer e = false) l → h ∈ known s → h ∈ known (run config txid fromBase64 l s).1.
Proof.
  revert s. induction l as [|e l IH]; intros s Hl Hk; [done|]. apply Forall_cons in Hl as [He Hl]. apply (step_known e) in Hk; [|done].
  cbn. destruct (step config txid fromBase64 e s) as [s' os]. specialize (IH s' Hl Hk). by destruct (run config txid fromBase64 l s').
Qed.

(** a transaction that a peer sends is known from then on, and until the timer
    no transaction with its id is sent to any peer: neither at the end of its own
    verification, nor by the node. *)
Theorem received_transactions_not_relayed tx h l s :
  txid (transaction tx) = Some h → h ≠ ""%string → Forall (λ e, is_timer e = false) l →
  let s' := (run config txid fromBase64 (Received tx :: l) s).1 in
  (∀ tx' answer, Forall (λ o, ¬ is_send o) (verified fromBase64 tx' h answer s').2) ∧
  (∀ raw is_psbt, (broadcastTransaction (mkBroadcast raw is_psbt h) s').2 = []).
Proof.
  intros Htx Hh Hl s'. assert (h ∈ known s') as Hk.
  { unfold s'. cbn [run step]. set (s0 := onBroadcastTransaction txid tx s). assert (h ∈ known s0) as H0.
    { unfold s0, onBroadcastTransaction. rewrite Htx. destruct (JsSet.has (known s) h) eqn:E; [by apply JsSet.jset_has_spec|].
      cbn. apply JsSet.elem_of_add. by left. }
    pose proof (run_known l s0 h Hl H0) as Hr. by destruct (run config txid fromBase64 l s0). }
  split; [intros; by apply verified_sends|]. intros raw is_psbt. by rewrite (known_broadcast _ s' h).
Qed.
End Sharing.

(** ** Examples *)

Module PeersExample.
#[local] Existing Instance string_btclib.
#[local] Existing Instance PeerExamples.example_witness.
#[local] Existing Instance PeerExamples.example_sodium.
#[local] Existing Instance PeerExamples.example_protobuf.

Definition config : P2PConfig := mkP2PConfig FULL false None true 9800 [] ["boot"].
Definition txid (b : bytes) : option string := Some "tx".
Definition base64 (x : string) : option bytes := None.
Definition contains (x y : string) : bool := match String.index 0 y x with Some _ => true | None => false end.
Definition after_ (l : list P2PManager.event) : P2PManager.t := (P2PManager.run config txid base64 l P2PManager.initial).1.

(** A peer that is dropped for a bad packet comes back after five minutes at most. *)
Lemma offenders_are_refused_witness :
  let s := (P2PManager.run config txid base64 ([Connected 500 "A"; IdentifyAnswer 600 0 true] ++ [Disconnect_ 1000 "A" BAD_PACKET]) P2PManager.initial).1 in
  refused (P2PManager.run config txid base64 [Connected 2000 "A"; Timer 301000] s).1 "A".
Proof.
  destruct (offenders_are_refused config txid base64 [Connected 500 "A"; IdentifyAnswer 600 0 true] 1000 "A" BAD_PACKET
    [Connected 2000 "A"; Timer 301000]) as (info & Hi & Ht & Hr); [done|done|]. apply Hr.
  specialize (Ht ltac:(vm_compute; reflexivity)). constructor; [|constructor; [|constructor]].
  - intros now Hn. discriminate Hn.
  - intros now Hn. injection Hn as <-. rewrite Ht. unfold PURGE_BLACKLISTED_PEER_AFTER. lia.
Defined.

Example offender_comes_back : isBlackListedPeerId "A" (after_ [Disconnect_ 1000 "A" BAD_PACKET; Timer 301001]) = false.
Proof. vm_compute. reflexivity. Qed.

(** The record of a reconnection is not stored: a peer that reconnects again and
    again is never refused. *)
Example reconnections_not_counted :
  isBlackListedPeerId "A" (after_ (replicate 50 (Disconnect_ 1000 "A" RECONNECT))) = false.
Proof. vm_compute. reflexivity. Qed.

(** A peer that is blacklisted while it is identified joins the node. *)
Example identified_offender_joins :
  let s := after_ [Connected 500 "A"; Disconnect_ 600 "A" BAD_PACKET; IdentifyAnswer 700 0 true] in
  (isBlackListedPeerId "A" s, JsMap.has (P2PManager.peers s) "A") = (true, true).
Proof. vm_compute. reflexivity. Qed.

(** A crowd of offenders closes the node to every new peer, as an offender. *)
Example crowd_closes_the_node :
  let crowd := map (λ i, Disconnect_ 1000 (pretty (Z.of_nat i)) BAD_PACKET) (seq 0 251) in
  isBlackListedPeerId "A" (after_ (crowd ++ [Connected 2000 "A"])) = true.
Proof. vm_compute. reflexivity. Qed.

(** *** Relaying *)

Definition ready : OPNetPeer.t := OPNetPeer.set_flags true true OPNetPeer.initial.
Definition with_peers : P2PManager.t := set_peers [("A", ready); ("B", ready)]%string P2PManager.initial.
Definition tx : ITransactionPacket := mkTransactionPacket [1; 2] false.
Definition accepted : BroadcastResponse := mkResponse true 0 (Some "tx"%string) None None false.

Lemma received_transactions_not_relayed_witness :
  let s := (P2PManager.run config txid base64 [Received tx; MempoolAnswer 0 (Some false)] with_peers).1 in
  Forall (λ o, ¬ is_send o) (verified base64 tx "tx" (Some accepted) s).2.
Proof.
  destruct (received_transactions_not_relayed config txid base64 tx "tx" [MempoolAnswer 0 (Some false)] with_peers) as [H _];
    [reflexivity|discriminate|by repeat constructor|]. exact (H tx (Some accepted)).
Defined.

(** The same answer relays when the timer has fired in between. *)
Example relayed_after_the_timer :
  let relays l := (P2PManager.run config txid base64 l with_peers).2 in
  relays [Received tx; MempoolAnswer 0 (Some false); VerifyAnswer 0 (Some accepted)] =
    [VerifyTransaction (mkBroadcast [1; 2] false "tx"); NotifyApi "tx" Generic] ∧
  relays [Received tx; MempoolAnswer 0 (Some false); Timer 10000; VerifyAnswer 0 (Some accepted)] =
    [VerifyTransaction (mkBroadcast [1; 2] false "tx"); NotifyApi "tx" Generic; SendTransaction "A" [1; 2] false; SendTransaction "B" [1; 2] false].
Proof. vm_compute. done. Qed.

(** *** Sharing *)

Definition ip4 (ip : string) : Multiaddr :=
  mkMultiaddr (Some [mkComponent "ip4" (Some ip); mkComponent "tcp" (Some "9800"%string)]) ("/ip4/" +:+ ip)%string [Z.of_nat (String.length ip)].
Definition session : OPNetPeer.t :=
  (OPNetPeer.run (node 1) None (0 : @Content PeerExamples.example_protobuf) peer_session OPNetPeer.initial).1.

(** A peer with a private and a public address, one that is not authenticated. *)
Example shares_public_addresses :
  map (λ i, (peer i, addresses i))
    (getOPNetPeers config contains "me" (λ i, i)
       [mkStored "A" [(ip4 "10.0.0.1", true); (ip4 "8.8.8.8", false)]; mkStored "B" [(ip4 "9.9.9.9", true)]]
       (set_peers [("A", session); ("B", OPNetPeer.initial)]%string P2PManager.initial)) = [("A"%string, [[7]])].
Proof. vm_compute. reflexivity. Qed.
End PeersExample.
