(* ===== verification/WebSocketProtocol.v ===== *)
(** * The packets of the WebSocket API
    (api/websocket/types, packets, OpcodeRegistry.ts, handlers/HandlerRegistry.ts)

    The opcodes and errors of the protocol, the packet of each, and the table of
    the requests. protobufjs is a class. *)

From S2P Require Import Prelude.

(** ** Errors *)

Module ProtocolError.
Definition MALFORMED_MESSAGE : Z := 1.
Definition UNKNOWN_OPCODE : Z := 2.
Definition HANDSHAKE_REQUIRED : Z := 3.
Definition HANDSHAKE_ALREADY_COMPLETED : Z := 4.
Definition UNSUPPORTED_PROTOCOL_VERSION : Z := 5.
Definition PAYLOAD_TOO_LARGE : Z := 6.
Definition INVALID_REQUEST_ID : Z := 7.
Definition CONNECTION_CLOSING : Z := 8.
Definition RATE_LIMIT_EXCEEDED : Z := 9.
Definition TOO_MANY_PENDING_REQUESTS : Z := 10.
Definition REQUEST_TIMEOUT : Z := 11.
Definition INVALID_MESSAGE_FORMAT : Z := 12.
End ProtocolError.

Module AuthError.
Definition AUTHENTICATION_REQUIRED : Z := 1000.
Definition INVALID_CREDENTIALS : Z := 1001.
Definition SESSION_EXPIRED : Z := 1002.
Definition PERMISSION_DENIED : Z := 1003.
Definition INVALID_CLIENT_INFO : Z := 1004.
End AuthError.

Module ResourceError.
Definition NOT_FOUND : Z := 2000.
Definition BLOCK_NOT_FOUND : Z := 2001.
Definition TRANSACTION_NOT_FOUND : Z := 2002.
Definition ADDRESS_NOT_FOUND : Z := 2003.
Definition CONTRACT_NOT_FOUND : Z := 2004.
Definition EPOCH_NOT_FOUND : Z := 2005.
Definition SUBSCRIPTION_NOT_FOUND : Z := 2006.
Definition ALREADY_EXISTS : Z := 2100.
Definition SUBSCRIPTION_ALREADY_EXISTS : Z := 2101.
Definition MAX_SUBSCRIPTIONS_REACHED : Z := 2102.
End ResourceError.

Module ValidationError.
Definition INVALID_PARAMS : Z := 3000.
Definition MISSING_REQUIRED_FIELD : Z := 3001.
Definition VALUE_OUT_OF_RANGE : Z := 3002.
Definition INVALID_ADDRESS : Z := 3003.
Definition INVALID_HASH : Z := 3004.
Definition INVALID_BLOCK_IDENTIFIER : Z := 3005.
Definition INVALID_TRANSACTION_DATA : Z := 3006.
Definition INVALID_SIGNATURE : Z := 3007.
Definition INVALID_CALLDATA : Z := 3008.
Definition INVALID_BLOCK_HEIGHT : Z := 3009.
Definition INVALID_EPOCH_NUMBER : Z := 3010.
Definition INVALID_POINTER : Z := 3011.
Definition INVALID_PUBLIC_KEY : Z := 3012.
End ValidationError.

Module InternalError.
Definition INTERNAL_ERROR : Z := 4000.
Definition DATABASE_ERROR : Z := 4001.
Definition STORAGE_ERROR : Z := 4002.
Definition SERIALIZATION_ERROR : Z := 4003.
Definition DESERIALIZATION_ERROR : Z := 4004.
Definition VM_ERROR : Z := 4005.
Definition NETWORK_ERROR : Z := 4006.
Definition SERVICE_UNAVAILABLE : Z := 4007.
Definition NOT_IMPLEMENTED : Z := 4008.
Definition TIMEOUT : Z := 4009.
End InternalError.

Definition ErrorMessages : list (Z * string) :=
  [(ProtocolError.MALFORMED_MESSAGE, "Malformed message"%string);
   (ProtocolError.UNKNOWN_OPCODE, "Unknown opcode"%string);
   (ProtocolError.HANDSHAKE_REQUIRED, "Handshake required before making requests"%string);
   (ProtocolError.HANDSHAKE_ALREADY_COMPLETED, "Handshake has already been completed"%string);
   (ProtocolError.UNSUPPORTED_PROTOCOL_VERSION, "Unsupported protocol version"%string);
   (ProtocolError.PAYLOAD_TOO_LARGE, "Message payload too large"%string);
   (ProtocolError.INVALID_REQUEST_ID, "Invalid or missing request ID"%string);
   (ProtocolError.CONNECTION_CLOSING, "Connection is closing"%string);
   (ProtocolError.RATE_LIMIT_EXCEEDED, "Rate limit exceeded"%string);
   (ProtocolError.TOO_MANY_PENDING_REQUESTS, "Too many pending requests"%string);
   (ProtocolError.REQUEST_TIMEOUT, "Request timed out"%string);
   (ProtocolError.INVALID_MESSAGE_FORMAT, "Invalid message format"%string);
   (AuthError.AUTHENTICATION_REQUIRED, "Authentication required"%string);
   (AuthError.INVALID_CREDENTIALS, "Invalid credentials"%string);
   (AuthError.SESSION_EXPIRED, "Session has expired"%string);
   (AuthError.PERMISSION_DENIED, "Permission denied"%string);
   (AuthError.INVALID_CLIENT_INFO, "Invalid client information"%string);
   (ResourceError.NOT_FOUND, "Resource not found"%string);
   (ResourceError.BLOCK_NOT_FOUND, "Block not found"%string);
   (ResourceError.TRANSACTION_NOT_FOUND, "Transaction not found"%string);
   (ResourceError.ADDRESS_NOT_FOUND, "Address not found"%string);
   (ResourceError.CONTRACT_NOT_FOUND, "Contract not found"%string);
   (ResourceError.EPOCH_NOT_FOUND, "Epoch not found"%string);
   (ResourceError.SUBSCRIPTION_NOT_FOUND, "Subscription not found"%string);
   (ResourceError.ALREADY_EXISTS, "Resource already exists"%string);
   (ResourceError.SUBSCRIPTION_ALREADY_EXISTS, "Subscription already exists"%string);
   (ResourceError.MAX_SUBSCRIPTIONS_REACHED, "Maximum subscriptions reached"%string);
   (ValidationError.INVALID_PARAMS, "Invalid parameters"%string);
   (ValidationError.MISSING_REQUIRED_FIELD, "Missing required field"%string);
   (ValidationError.VALUE_OUT_OF_RANGE, "Value out of valid range"%string);
   (ValidationError.INVALID_ADDRESS, "Invalid address format"%string);
   (ValidationError.INVALID_HASH, "Invalid hash format"%string);
   (ValidationError.INVALID_BLOCK_IDENTIFIER, "Invalid block identifier"%string);
   (ValidationError.INVALID_TRANSACTION_DATA, "Invalid transaction data"%string);
   (ValidationError.INVALID_SIGNATURE, "Invalid signature"%string);
   (ValidationError.INVALID_CALLDATA, "Invalid calldata"%string);
   (ValidationError.INVALID_BLOCK_HEIGHT, "Invalid block height"%string);
   (ValidationError.INVALID_EPOCH_NUMBER, "Invalid epoch number"%string);
   (ValidationError.INVALID_POINTER, "Invalid pointer format"%string);
   (ValidationError.INVALID_PUBLIC_KEY, "Invalid public key"%string);
   (InternalError.INTERNAL_ERROR, "Internal server error"%string);
   (InternalError.DATABASE_ERROR, "Database error"%string);
   (InternalError.STORAGE_ERROR, "Storage error"%string);
   (InternalError.SERIALIZATION_ERROR, "Serialization error"%string);
   (InternalError.DESERIALIZATION_ERROR, "Deserialization error"%string);
   (InternalError.VM_ERROR, "VM execution error"%string);
   (InternalError.NETWORK_ERROR, "Network error"%string);
   (InternalError.SERVICE_UNAVAILABLE, "Service temporarily unavailable"%string);
   (InternalError.NOT_IMPLEMENTED, "Method not implemented"%string);
   (InternalError.TIMEOUT, "Operation timed out"%string)].

Definition getErrorMessage (code : Z) : string :=
  default "Unknown error"%string (JsMap.get ErrorMessages code).

Definition isFatalError (code : Z) : bool :=
  bool_decide (code = ProtocolError.UNKNOWN_OPCODE) || bool_decide (code = ProtocolError.MALFORMED_MESSAGE) ||
  bool_decide (code = ProtocolError.UNSUPPORTED_PROTOCOL_VERSION).

(** ** Opcodes and packet types *)

Module WebSocketRequestOpcode.
Definition PING : Z := 0x00.
Definition HANDSHAKE : Z := 0x01.
Definition GET_BLOCK_NUMBER : Z := 0x10.
Definition GET_BLOCK_BY_NUMBER : Z := 0x11.
Definition GET_BLOCK_BY_HASH : Z := 0x12.
Definition GET_BLOCK_BY_CHECKSUM : Z := 0x13.
Definition GET_BLOCK_WITNESS : Z := 0x14.
Definition GET_GAS : Z := 0x15.
Definition GET_TRANSACTION_BY_HASH : Z := 0x20.
Definition GET_TRANSACTION_RECEIPT : Z := 0x21.
Definition BROADCAST_TRANSACTION : Z := 0x22.
Definition BROADCAST_TRANSACTION_PACKAGE : Z := 0x27.
Definition GET_PREIMAGE : Z := 0x23.
Definition GET_MEMPOOL_INFO : Z := 0x24.
Definition GET_PENDING_TRANSACTION : Z := 0x25.
Definition GET_LATEST_PENDING_TRANSACTIONS : Z := 0x26.
Definition GET_BALANCE : Z := 0x30.
Definition GET_UTXOS : Z := 0x31.
Definition GET_PUBLIC_KEY_INFO : Z := 0x32.
Definition GET_CHAIN_ID : Z := 0x40.
Definition GET_REORG : Z := 0x41.
Definition GET_CODE : Z := 0x50.
Definition GET_STORAGE_AT : Z := 0x51.
Definition CALL : Z := 0x52.
Definition GET_LATEST_EPOCH : Z := 0x60.
Definition GET_EPOCH_BY_NUMBER : Z := 0x61.
Definition GET_EPOCH_BY_HASH : Z := 0x62.
Definition GET_EPOCH_TEMPLATE : Z := 0x63.
Definition SUBMIT_EPOCH : Z := 0x64.
Definition SUBSCRIBE_BLOCKS : Z := 0x70.
Definition SUBSCRIBE_EPOCHS : Z := 0x71.
Definition SUBSCRIBE_MEMPOOL : Z := 0x72.
Definition UNSUBSCRIBE : Z := 0x7f.
End WebSocketRequestOpcode.

Module WebSocketResponseOpcode.
Definition ERROR : Z := 0x80.
Definition PONG : Z := 0x81.
Definition HANDSHAKE_ACK : Z := 0x82.
Definition BLOCK_NUMBER : Z := 0x90.
Definition BLOCK : Z := 0x91.
Definition BLOCK_WITNESS : Z := 0x92.
Definition GAS : Z := 0x93.
Definition TRANSACTION : Z := 0xa0.
Definition TRANSACTION_RECEIPT : Z := 0xa1.
Definition BROADCAST_RESULT : Z := 0xa2.
Definition BROADCAST_PACKAGE_RESULT : Z := 0xa7.
Definition PREIMAGE : Z := 0xa3.
Definition MEMPOOL_INFO : Z := 0xa4.
Definition PENDING_TRANSACTION : Z := 0xa5.
Definition LATEST_PENDING_TRANSACTIONS : Z := 0xa6.
Definition BALANCE : Z := 0xb0.
Definition UTXOS : Z := 0xb1.
Definition PUBLIC_KEY_INFO : Z := 0xb2.
Definition CHAIN_ID : Z := 0xc0.
Definition REORG : Z := 0xc1.
Definition CODE : Z := 0xd0.
Definition STORAGE : Z := 0xd1.
Definition CALL_RESULT : Z := 0xd2.
Definition EPOCH : Z := 0xe0.
Definition EPOCH_TEMPLATE : Z := 0xe1.
Definition EPOCH_SUBMIT_RESULT : Z := 0xe2.
Definition SUBSCRIPTION_CREATED : Z := 0xf0.
Definition UNSUBSCRIBE_RESULT : Z := 0xf1.
Definition NEW_BLOCK_NOTIFICATION : Z := 0xf8.
Definition NEW_EPOCH_NOTIFICATION : Z := 0xf9.
Definition NEW_MEMPOOL_TX_NOTIFICATION : Z := 0xfa.
End WebSocketResponseOpcode.

Inductive APIPacketType : Type :=
| HandshakeRequest | HandshakeResponse | ErrorResponse | PingRequest | PongResponse | GetBlockNumberRequest
| GetBlockNumberResponse | GetBlockByNumberRequest | BlockResponse | GetBlockWitnessRequest | BlockWitnessResponse
| GetGasRequest | GasResponse | GetTransactionByHashRequest | TransactionResponse | GetTransactionReceiptRequest
| TransactionReceiptResponse | BroadcastTransactionRequest | BroadcastTransactionResponse
| BroadcastTransactionPackageRequest | BroadcastTransactionPackageResponse | GetPreimageRequest | PreimageResponse
| GetBalanceRequest | GetBalanceResponse | GetUTXOsRequest | GetUTXOsResponse | GetPublicKeyInfoRequest
| GetPublicKeyInfoResponse | GetChainIdRequest | GetChainIdResponse | GetReorgRequest | GetReorgResponse
| GetCodeRequest | GetCodeResponse | GetStorageAtRequest | GetStorageAtResponse | CallRequest | CallResponse
| GetLatestEpochRequest | EpochResponse | GetEpochByNumberRequest | GetEpochByHashRequest | GetEpochTemplateRequest
| EpochTemplateResponse | SubmitEpochRequest | SubmitEpochResponse | GetMempoolInfoRequest | GetMempoolInfoResponse
| GetPendingTransactionRequest | PendingTransactionResponse | GetLatestPendingTransactionsRequest
| LatestPendingTransactionsResponse | SubscribeBlocksRequest | SubscribeBlocksResponse | SubscribeEpochsRequest
| SubscribeEpochsResponse | SubscribeMempoolRequest | SubscribeMempoolResponse | UnsubscribeRequest
| UnsubscribeResponse | NewBlockNotification | NewEpochNotification | NewMempoolTransactionNotification
| BlockIdentifier.

#[export] Instance APIPacketType_eq : EqDecision APIPacketType.
Proof. solve_decision. Defined.

(** ** The registry *)

(** The builders, each with its opcode. *)
Definition chainBuilders : list (APIPacketType * Z) :=
  [(HandshakeRequest, WebSocketRequestOpcode.HANDSHAKE);
   (HandshakeResponse, WebSocketResponseOpcode.HANDSHAKE_ACK);
   (ErrorResponse, WebSocketResponseOpcode.ERROR);
   (PingRequest, WebSocketRequestOpcode.PING);
   (PongResponse, WebSocketResponseOpcode.PONG);
   (GetBlockNumberRequest, WebSocketRequestOpcode.GET_BLOCK_NUMBER);
   (GetBlockNumberResponse, WebSocketResponseOpcode.BLOCK_NUMBER);
   (GetBlockByNumberRequest, WebSocketRequestOpcode.GET_BLOCK_BY_NUMBER);
   (BlockResponse, WebSocketResponseOpcode.BLOCK);
   (GetBlockWitnessRequest, WebSocketRequestOpcode.GET_BLOCK_WITNESS);
   (BlockWitnessResponse, WebSocketResponseOpcode.BLOCK_WITNESS);
   (GetGasRequest, WebSocketRequestOpcode.GET_GAS);
   (GasResponse, WebSocketResponseOpcode.GAS);
   (GetTransactionByHashRequest, WebSocketRequestOpcode.GET_TRANSACTION_BY_HASH);
   (TransactionResponse, WebSocketResponseOpcode.TRANSACTION);
   (GetTransactionReceiptRequest, WebSocketRequestOpcode.GET_TRANSACTION_RECEIPT);
   (TransactionReceiptResponse, WebSocketResponseOpcode.TRANSACTION_RECEIPT);
   (BroadcastTransactionRequest, WebSocketRequestOpcode.BROADCAST_TRANSACTION);
   (BroadcastTransactionResponse, WebSocketResponseOpcode.BROADCAST_RESULT);
   (BroadcastTransactionPackageRequest, WebSocketRequestOpcode.BROADCAST_TRANSACTION_PACKAGE);
   (BroadcastTransactionPackageResponse, WebSocketResponseOpcode.BROADCAST_PACKAGE_RESULT);
   (GetPreimageRequest, WebSocketRequestOpcode.GET_PREIMAGE);
   (PreimageResponse, WebSocketResponseOpcode.PREIMAGE);
   (GetBalanceRequest, WebSocketRequestOpcode.GET_BALANCE);
   (GetBalanceResponse, WebSocketResponseOpcode.BALANCE);
   (GetUTXOsRequest, WebSocketRequestOpcode.GET_UTXOS);
   (GetUTXOsResponse, WebSocketResponseOpcode.UTXOS);
   (GetPublicKeyInfoRequest, WebSocketRequestOpcode.GET_PUBLIC_KEY_INFO);
   (GetPublicKeyInfoResponse, WebSocketResponseOpcode.PUBLIC_KEY_INFO);
   (GetChainIdRequest, WebSocketRequestOpcode.GET_CHAIN_ID);
   (GetChainIdResponse, WebSocketResponseOpcode.CHAIN_ID);
   (GetReorgRequest, WebSocketRequestOpcode.GET_REORG);
   (GetReorgResponse, WebSocketResponseOpcode.REORG)].

Definition stateBuilders : list (APIPacketType * Z) :=
  [(GetCodeRequest, WebSocketRequestOpcode.GET_CODE);
   (GetCodeResponse, WebSocketResponseOpcode.CODE);
   (GetStorageAtRequest, WebSocketRequestOpcode.GET_STORAGE_AT);
   (GetStorageAtResponse, WebSocketResponseOpcode.STORAGE);
   (CallRequest, WebSocketRequestOpcode.CALL);
   (CallResponse, WebSocketResponseOpcode.CALL_RESULT);
   (GetLatestEpochRequest, WebSocketRequestOpcode.GET_LATEST_EPOCH);
   (EpochResponse, WebSocketResponseOpcode.EPOCH);
   (GetEpochByNumberRequest, WebSocketRequestOpcode.GET_EPOCH_BY_NUMBER);
   (GetEpochByHashRequest, WebSocketRequestOpcode.GET_EPOCH_BY_HASH);
   (GetEpochTemplateRequest, WebSocketRequestOpcode.GET_EPOCH_TEMPLATE);
   (EpochTemplateResponse, WebSocketResponseOpcode.EPOCH_TEMPLATE);
   (SubmitEpochRequest, WebSocketRequestOpcode.SUBMIT_EPOCH);
   (SubmitEpochResponse, WebSocketResponseOpcode.EPOCH_SUBMIT_RESULT);
   (GetMempoolInfoRequest, WebSocketRequestOpcode.GET_MEMPOOL_INFO);
   (GetMempoolInfoResponse, WebSocketResponseOpcode.MEMPOOL_INFO);
   (GetPendingTransactionRequest, WebSocketRequestOpcode.GET_PENDING_TRANSACTION);
   (PendingTransactionResponse, WebSocketResponseOpcode.PENDING_TRANSACTION);
   (GetLatestPendingTransactionsRequest, WebSocketRequestOpcode.GET_LATEST_PENDING_TRANSACTIONS);
   (LatestPendingTransactionsResponse, WebSocketResponseOpcode.LATEST_PENDING_TRANSACTIONS);
   (SubscribeBlocksRequest, WebSocketRequestOpcode.SUBSCRIBE_BLOCKS);
   (SubscribeBlocksResponse, WebSocketResponseOpcode.SUBSCRIPTION_CREATED);
   (SubscribeEpochsRequest, WebSocketRequestOpcode.SUBSCRIBE_EPOCHS);
   (SubscribeEpochsResponse, WebSocketResponseOpcode.SUBSCRIPTION_CREATED);
   (SubscribeMempoolRequest, WebSocketRequestOpcode.SUBSCRIBE_MEMPOOL);
   (SubscribeMempoolResponse, WebSocketResponseOpcode.SUBSCRIPTION_CREATED);
   (UnsubscribeRequest, WebSocketRequestOpcode.UNSUBSCRIBE);
   (UnsubscribeResponse, WebSocketResponseOpcode.UNSUBSCRIBE_RESULT);
   (NewBlockNotification, WebSocketResponseOpcode.NEW_BLOCK_NOTIFICATION);
   (NewEpochNotification, WebSocketResponseOpcode.NEW_EPOCH_NOTIFICATION);
   (NewMempoolTransactionNotification, WebSocketResponseOpcode.NEW_MEMPOOL_TX_NOTIFICATION)].

Definition packetBuilders : list (APIPacketType * Z) := chainBuilders ++ stateBuilders.

Record OpcodeRegistration : Type := mkRegistration {
  requestType : APIPacketType;
  responseType : APIPacketType;
  responseOpcode_ : Z;
  requiresHandshake : bool
}.

(** The calls of [register]. *)
Definition chainRegistrations : list (Z * OpcodeRegistration) :=
  [(WebSocketRequestOpcode.PING, mkRegistration PingRequest PongResponse WebSocketResponseOpcode.PONG false);
   (WebSocketRequestOpcode.HANDSHAKE, mkRegistration HandshakeRequest HandshakeResponse WebSocketResponseOpcode.HANDSHAKE_ACK false);
   (WebSocketRequestOpcode.GET_BLOCK_NUMBER, mkRegistration GetBlockNumberRequest GetBlockNumberResponse WebSocketResponseOpcode.BLOCK_NUMBER true);
   (WebSocketRequestOpcode.GET_BLOCK_BY_NUMBER, mkRegistration GetBlockByNumberRequest BlockResponse WebSocketResponseOpcode.BLOCK true);
   (WebSocketRequestOpcode.GET_BLOCK_BY_HASH, mkRegistration GetBlockByNumberRequest BlockResponse WebSocketResponseOpcode.BLOCK true);
   (WebSocketRequestOpcode.GET_BLOCK_BY_CHECKSUM, mkRegistration GetBlockByNumberRequest BlockResponse WebSocketResponseOpcode.BLOCK true);
   (WebSocketRequestOpcode.GET_BLOCK_WITNESS, mkRegistration GetBlockWitnessRequest BlockWitnessResponse WebSocketResponseOpcode.BLOCK_WITNESS true);
   (WebSocketRequestOpcode.GET_GAS, mkRegistration GetGasRequest GasResponse WebSocketResponseOpcode.GAS true);
   (WebSocketRequestOpcode.GET_TRANSACTION_BY_HASH, mkRegistration GetTransactionByHashRequest TransactionResponse WebSocketResponseOpcode.TRANSACTION true);
   (WebSocketRequestOpcode.GET_TRANSACTION_RECEIPT, mkRegistration GetTransactionReceiptRequest TransactionReceiptResponse WebSocketResponseOpcode.TRANSACTION_RECEIPT true);
   (WebSocketRequestOpcode.BROADCAST_TRANSACTION, mkRegistration BroadcastTransactionRequest BroadcastTransactionResponse WebSocketResponseOpcode.BROADCAST_RESULT true);
   (WebSocketRequestOpcode.BROADCAST_TRANSACTION_PACKAGE, mkRegistration BroadcastTransactionPackageRequest BroadcastTransactionPackageResponse WebSocketResponseOpcode.BROADCAST_PACKAGE_RESULT true);
   (WebSocketRequestOpcode.GET_PREIMAGE, mkRegistration GetPreimageRequest PreimageResponse WebSocketResponseOpcode.PREIMAGE true)].

Definition stateRegistrations : list (Z * OpcodeRegistration) :=
  [(WebSocketRequestOpcode.GET_MEMPOOL_INFO, mkRegistration GetMempoolInfoRequest GetMempoolInfoResponse WebSocketResponseOpcode.MEMPOOL_INFO true);
   (WebSocketRequestOpcode.GET_PENDING_TRANSACTION, mkRegistration GetPendingTransactionRequest PendingTransactionResponse WebSocketResponseOpcode.PENDING_TRANSACTION true);
   (WebSocketRequestOpcode.GET_LATEST_PENDING_TRANSACTIONS, mkRegistration GetLatestPendingTransactionsRequest LatestPendingTransactionsResponse WebSocketResponseOpcode.LATEST_PENDING_TRANSACTIONS true);
   (WebSocketRequestOpcode.GET_BALANCE, mkRegistration GetBalanceRequest GetBalanceResponse WebSocketResponseOpcode.BALANCE true);
   (WebSocketRequestOpcode.GET_UTXOS, mkRegistration GetUTXOsRequest GetUTXOsResponse WebSocketResponseOpcode.UTXOS true);
   (WebSocketRequestOpcode.GET_PUBLIC_KEY_INFO, mkRegistration GetPublicKeyInfoRequest GetPublicKeyInfoResponse WebSocketResponseOpcode.PUBLIC_KEY_INFO true);
   (WebSocketRequestOpcode.GET_CHAIN_ID, mkRegistration GetChainIdRequest GetChainIdResponse WebSocketResponseOpcode.CHAIN_ID true);
   (WebSocketRequestOpcode.GET_REORG, mkRegistration GetReorgRequest GetReorgResponse WebSocketResponseOpcode.REORG true);
   (WebSocketRequestOpcode.GET_CODE, mkRegistration GetCodeRequest GetCodeResponse WebSocketResponseOpcode.CODE true);
   (WebSocketRequestOpcode.GET_STORAGE_AT, mkRegistration GetStorageAtRequest GetStorageAtResponse WebSocketResponseOpcode.STORAGE true);
   (WebSocketRequestOpcode.CALL, mkRegistration CallRequest CallResponse WebSocketResponseOpcode.CALL_RESULT true);
   (WebSocketRequestOpcode.GET_LATEST_EPOCH, mkRegistration GetLatestEpochRequest EpochResponse WebSocketResponseOpcode.EPOCH true);
   (WebSocketRequestOpcode.GET_EPOCH_BY_NUMBER, mkRegistration GetEpochByNumberRequest EpochResponse WebSocketResponseOpcode.EPOCH true);
   (WebSocketRequestOpcode.GET_EPOCH_BY_HASH, mkRegistration GetEpochByHashRequest EpochResponse WebSocketResponseOpcode.EPOCH true);
   (WebSocketRequestOpcode.GET_EPOCH_TEMPLATE, mkRegistration GetEpochTemplateRequest EpochTemplateResponse WebSocketResponseOpcode.EPOCH_TEMPLATE true);
   (WebSocketRequestOpcode.SUBMIT_EPOCH, mkRegistration SubmitEpochRequest SubmitEpochResponse WebSocketResponseOpcode.EPOCH_SUBMIT_RESULT true);
   (WebSocketRequestOpcode.SUBSCRIBE_BLOCKS, mkRegistration SubscribeBlocksRequest SubscribeBlocksResponse WebSocketResponseOpcode.SUBSCRIPTION_CREATED true);
   (WebSocketRequestOpcode.SUBSCRIBE_EPOCHS, mkRegistration SubscribeEpochsRequest SubscribeEpochsResponse WebSocketResponseOpcode.SUBSCRIPTION_CREATED true);
   (WebSocketRequestOpcode.SUBSCRIBE_MEMPOOL, mkRegistration SubscribeMempoolRequest SubscribeMempoolResponse WebSocketResponseOpcode.SUBSCRIPTION_CREATED true);
   (WebSocketRequestOpcode.UNSUBSCRIBE, mkRegistration UnsubscribeRequest UnsubscribeResponse WebSocketResponseOpcode.UNSUBSCRIBE_RESULT true)].

Definition registered : list (Z * OpcodeRegistration) := chainRegistrations ++ stateRegistrations.

(** [register]: an opcode twice, or a packet without a builder, throws. *)
Definition register (requestHandlers : list (Z * OpcodeRegistration)) (opcode : Z) (r : OpcodeRegistration)
  : result string (list (Z * OpcodeRegistration)) :=
  if JsMap.has requestHandlers opcode then Throw "Opcode collision"%string
  else if JsMap.has packetBuilders (requestType r) && JsMap.has packetBuilders (responseType r)
  then Ok (JsMap.set requestHandlers opcode r)
  else Throw "Missing packet builder"%string.

Fixpoint initializeOpcodeRegistrations (l : list (Z * OpcodeRegistration)) (m : list (Z * OpcodeRegistration))
  : result string (list (Z * OpcodeRegistration)) :=
  match l with
  | [] => Ok m
  | (opcode, r) :: l => m ← register m opcode r; initializeOpcodeRegistrations l m
  end.

Definition requestHandlers : list (Z * OpcodeRegistration) :=
  match initializeOpcodeRegistrations registered [] with Ok m => m | Throw _ => [] end.

Definition isOpcodeRegistered (opcode : Z) : bool := JsMap.has requestHandlers opcode.
Definition getRequestRegistration (opcode : Z) : option OpcodeRegistration := JsMap.get requestHandlers opcode.

(** ** The handlers *)

Inductive SubscriptionType : Type := BLOCKS | EPOCHS | MEMPOOL.
#[export] Instance SubscriptionType_eq : EqDecision SubscriptionType.
Proof. solve_decision. Defined.

(** A handler of subscriptions works on the client; the others ask the routes. *)
Inductive handler_kind : Type := Subscribe (type : SubscriptionType) | Unsubscribe | Route.

(** The calls of [registerHandler]. *)
Definition handlers : list (Z * handler_kind) :=
  [(WebSocketRequestOpcode.GET_BLOCK_NUMBER, Route);
   (WebSocketRequestOpcode.GET_BLOCK_BY_NUMBER, Route);
   (WebSocketRequestOpcode.GET_BLOCK_BY_HASH, Route);
   (WebSocketRequestOpcode.GET_BLOCK_BY_CHECKSUM, Route);
   (WebSocketRequestOpcode.GET_BLOCK_WITNESS, Route);
   (WebSocketRequestOpcode.GET_GAS, Route);
   (WebSocketRequestOpcode.GET_TRANSACTION_BY_HASH, Route);
   (WebSocketRequestOpcode.GET_TRANSACTION_RECEIPT, Route);
   (WebSocketRequestOpcode.BROADCAST_TRANSACTION, Route);
   (WebSocketRequestOpcode.BROADCAST_TRANSACTION_PACKAGE, Route);
   (WebSocketRequestOpcode.GET_PREIMAGE, Route);
   (WebSocketRequestOpcode.GET_MEMPOOL_INFO, Route);
   (WebSocketRequestOpcode.GET_PENDING_TRANSACTION, Route);
   (WebSocketRequestOpcode.GET_LATEST_PENDING_TRANSACTIONS, Route);
   (WebSocketRequestOpcode.GET_BALANCE, Route);
   (WebSocketRequestOpcode.GET_UTXOS, Route);
   (WebSocketRequestOpcode.GET_PUBLIC_KEY_INFO, Route);
   (WebSocketRequestOpcode.GET_CHAIN_ID, Route);
   (WebSocketRequestOpcode.GET_REORG, Route);
   (WebSocketRequestOpcode.GET_CODE, Route);
   (WebSocketRequestOpcode.GET_STORAGE_AT, Route);
   (WebSocketRequestOpcode.CALL, Route);
   (WebSocketRequestOpcode.GET_LATEST_EPOCH, Route);
   (WebSocketRequestOpcode.GET_EPOCH_BY_NUMBER, Route);
   (WebSocketRequestOpcode.GET_EPOCH_BY_HASH, Route);
   (WebSocketRequestOpcode.GET_EPOCH_TEMPLATE, Route);
   (WebSocketRequestOpcode.SUBMIT_EPOCH, Route);
   (WebSocketRequestOpcode.SUBSCRIBE_BLOCKS, Subscribe BLOCKS);
   (WebSocketRequestOpcode.SUBSCRIBE_EPOCHS, Subscribe EPOCHS);
   (WebSocketRequestOpcode.SUBSCRIBE_MEMPOOL, Subscribe MEMPOOL);
   (WebSocketRequestOpcode.UNSUBSCRIBE, Unsubscribe)].

Definition handler_of (opcode : Z) : option handler_kind := JsMap.get handlers opcode.

(** [validateHandlers]: the opcodes without a handler. *)
Definition missingHandlers : list Z :=
  filter (λ opcode, handler_of opcode = None ∧ opcode ∉ [WebSocketRequestOpcode.PING; WebSocketRequestOpcode.HANDSHAKE]) (JsMap.keys requestHandlers).

(** Every registration succeeds, its packets travel under its opcodes, and every
    opcode but those of the protocol has a handler. *)
Lemma registry_complete :
  initializeOpcodeRegistrations registered [] = Ok requestHandlers ∧ length requestHandlers = 33%nat ∧ missingHandlers = [] ∧
  Forall (λ e, 0 ≤ e.1 < 128 ∧ JsMap.get packetBuilders (responseType e.2) = Some (responseOpcode_ e.2)) requestHandlers.
Proof.
  split; [vm_compute; reflexivity|]. split; [vm_compute; reflexivity|]. split; [vm_compute; reflexivity|].
  repeat (constructor; [vm_compute; by repeat split|]). constructor.
Qed.

(** ** Messages *)

(** What a handler is given, and what it answers. *)
Inductive api_request (C : Type) : Type :=
| RUnsubscribe (subscriptionId : Z)
| ROther (c : C).
Arguments RUnsubscribe {C} subscriptionId.
Arguments ROther {C} c.

Inductive api_response (C : Type) : Type :=
| SubscriptionCreated (subscriptionId : Z) (type : SubscriptionType)
| Unsubscribed (success : bool)
| OtherResponse (c : C).
Arguments SubscriptionCreated {C} subscriptionId type.
Arguments Unsubscribed {C} success.
Arguments OtherResponse {C} c.

Record HandshakeData : Type := mkHandshake { hs_protocolVersion : Z; hs_clientName : string; hs_clientVersion : string }.
Record HandshakeReply : Type := mkReply {
  reply_version : Z; reply_sessionId : bytes; reply_serverVersion : string; reply_height : Z; reply_chainId : string
}.

(** What the server pushes to the subscribers. *)
Inductive notification : Type :=
| NewBlock (subscriptionId blockNumber : Z) (blockHash : string) (timestamp txCount : Z)
| NewEpoch (subscriptionId : Z) (epochNumber epochHash : string)
| NewMempoolTransaction (subscriptionId : Z) (txId : string) (type timestamp : Z).

(** protobufjs and [fromHex]: [None] throws, and a response that cannot be packed
    throws its message. *)
Class ApiProtobuf : Type := {
  ApiContent : Type;
  unpack_handshake : bytes → option HandshakeData;
  pack_handshake : HandshakeReply → option bytes;
  unpack_ping : bytes → option Z;
  pack_pong : Z → Z → option bytes;
  unpack_unsubscribe : bytes → option Z;
  unpack_content : APIPacketType → bytes → option ApiContent;
  pack_response : APIPacketType → api_response ApiContent → result string bytes;
  pack_error : Z → Z → string → option bytes;
  pack_notification : notification → option bytes;
  fromHex : string → option bytes
}.

(** [registration.requestPacket.unpack] *)
Definition unpack `{ApiProtobuf} (type : APIPacketType) (payload : bytes) : option (api_request ApiContent) :=
  if decide (type = UnsubscribeRequest) then RUnsubscribe <$> unpack_unsubscribe payload else ROther <$> unpack_content type payload.

(** [getOpcode] of the builder of a packet. *)
Definition getOpcode (type : APIPacketType) : Z := default 0 (JsMap.get packetBuilders type).

Definition notification_type (n : notification) : APIPacketType :=
  match n with
  | NewBlock _ _ _ _ _ => NewBlockNotification
  | NewEpoch _ _ _ => NewEpochNotification
  | NewMempoolTransaction _ _ _ _ => NewMempoolTransactionNotification
  end.

(** [pack] of a notification: its opcode, then its content. *)
Definition pack `{ApiProtobuf} (n : notification) : option bytes := cons (getOpcode (notification_type n)) <$> pack_notification n.

(** [parseWebSocketMessage]: an empty message throws. *)
Definition parseWebSocketMessage (raw : bytes) : option (Z * bytes) :=
  match raw with [] => None | opcode :: payload => Some (opcode, payload) end.

(** ** Request ids *)

(** A number as [<<] and [|] of JavaScript make it, of 32 bits with a sign. *)
Definition to_int32 (z : Z) : Z := let r := z `mod` 2 ^ 32 in if decide (2 ^ 31 ≤ r) then r - 2 ^ 32 else r.

(** [payload\[0\] | (payload\[1\] << 8) | ...], little endian. *)
Definition read_requestId (payload : bytes) : Z :=
  let b i := nth i payload 0 in
  to_int32 (Z.lor (Z.lor (Z.lor (b 0%nat) (Z.shiftl (b 1%nat) 8)) (Z.shiftl (b 2%nat) 16)) (Z.shiftl (b 3%nat) 24)).

(** The header of [sendResponse]: the opcode is stored in a byte. *)
Definition response_header (opcode requestId : Z) : bytes :=
  [opcode `mod` 256; Z.land requestId 255; Z.land (Z.shiftr requestId 8) 255; Z.land (Z.shiftr requestId 16) 255;
   Z.land (Z.shiftr requestId 24) 255].

Definition is_byte (z : Z) : Prop := 0 ≤ z < 256.

Lemma land_255 z : Z.land z 255 = z `mod` 256.
Proof. change 255 with (Z.ones 8). by rewrite Z.land_ones. Qed.

Lemma lor_shiftl a b n : 0 ≤ n → 0 ≤ a < 2 ^ n → Z.lor a (Z.shiftl b n) = a + b * 2 ^ n.
Proof.
  intros Hn Ha. rewrite <- Z.shiftl_mul_pow2 by lia. enough (Z.land a (Z.shiftl b n) = 0) by (pose proof (Z.add_lor_land a (Z.shiftl b n)); lia).
  apply Z.bits_inj'. intros m Hm. rewrite Z.land_spec, Z.shiftl_spec, Z.bits_0 by done. destruct (decide (m < n)).
  - rewrite (Z.testbit_neg_r b) by lia. apply andb_false_r.
  - rewrite <- (Z.mod_small a (2 ^ n)), Z.mod_pow2_bits_high by lia. done.
Qed.

(** A byte of a number is the byte of the 32 bits it is stored in. *)
Lemma to_int32_byte z k : 0 ≤ k → k ≤ 24 → Z.land (Z.shiftr (to_int32 z) k) 255 = (z / 2 ^ k) `mod` 256.
Proof.
  intros H0 H1. rewrite land_255, Z.shiftr_div_pow2 by done.
  assert (∃ q, to_int32 z = z + q * 2 ^ 32) as [q ->].
  { unfold to_int32. pose proof (Z.div_mod z (2 ^ 32)). case_decide; [exists (- (z / 2 ^ 32) - 1)|exists (- (z / 2 ^ 32))]; lia. }
  replace (2 ^ 32) with (2 ^ (32 - k) * 2 ^ k) by (rewrite <- Z.pow_add_r by lia; f_equal; lia).
  rewrite Z.mul_assoc, Z.div_add by lia. replace (2 ^ (32 - k)) with (2 ^ (24 - k) * 256) by (change 256 with (2 ^ 8); rewrite <- Z.pow_add_r by lia; f_equal; lia).
  by rewrite Z.mul_assoc, Z_mod_plus_full.
Qed.

(** The header has the bytes of the id it was read from. *)
Lemma header_read opcode payload :
  is_byte opcode → (4 ≤ length payload)%nat → Forall is_byte payload →
  response_header opcode (read_requestId payload) = opcode :: take 4 payload.
Proof.
  intros Ho Hl Hp. destruct payload as [|b0 [|b1 [|b2 [|b3 payload]]]]; try (cbn in Hl; lia).
  apply Forall_cons in Hp as [H0 Hp]. apply Forall_cons in Hp as [H1 Hp]. apply Forall_cons in Hp as [H2 Hp]. apply Forall_cons in Hp as [H3 _].
  unfold is_byte in *. unfold response_header, read_requestId. cbn [nth take].
  rewrite (lor_shiftl b0), (lor_shiftl (_ + _) b2), (lor_shiftl (_ + _) b3) by lia.
  rewrite <- (Z.shiftr_0_r (to_int32 _)) at 1. rewrite !to_int32_byte, (Z.mod_small opcode) by lia.
  f_equal. change (2 ^ 0) with 1. change (2 ^ 8) with 256. change (2 ^ 16) with (256 * 256). change (2 ^ 24) with (256 * 256 * 256).
  repeat f_equal; Z.div_mod_to_equations; lia.
Qed.
