(* ===== verification/WebSocketClient.v ===== *)
(** * A client of the WebSocket API (api/websocket/WebSocketClient.ts)

    The state of one connection: its handshake, its requests and their rate, its
    subscriptions, and the messages that wait for the socket. *)

From S2P Require Import Prelude WebSocketProtocol.

(** What the socket answers when it is given a message. *)
Inductive send_answer : Type := Accepted | Backpressure | SendThrows.

(** The socket: what it will answer, what it accepted, and its close frame. *)
Record Websocket : Type := mkSocket {
  answers : nat → send_answer;
  asked : nat;
  delivered : list bytes;
  close_frame : option (Z * string)
}.

Definition socket_send (data : bytes) (w : Websocket) : Websocket * send_answer :=
  let a := answers w (asked w) in
  (mkSocket (answers w) (S (asked w)) (match a with Accepted => delivered w ++ [data] | _ => delivered w end) (close_frame w), a).

Definition socket_close (code : Z) (reason : string) (w : Websocket) : Websocket :=
  mkSocket (answers w) (asked w) (delivered w) (Some (code, reason)).

Inductive ConnectionState : Type := CONNECTED | READY | CLOSING | CLOSED.
#[export] Instance ConnectionState_eq : EqDecision ConnectionState.
Proof. solve_decision. Defined.

Record WebSocketClientConfig : Type := mkClientConfig {
  maxPendingRequests : Z;
  requestTimeout : Z;
  maxRequestsPerSecond : Z;
  maxSubscriptions : Z
}.

Definition DEFAULT_CLIENT_CONFIG : WebSocketClientConfig := mkClientConfig 100 30000 50 10.

Record Subscription : Type := mkSubscription { sub_id : Z; sub_type : SubscriptionType; createdAt : Z }.

Module WebSocketClient.

Record t : Type := mk {
  clientId : string;
  remoteAddress : string;
  config : WebSocketClientConfig;
  socket : Websocket;
  state : ConnectionState;
  protocolVersion : Z;
  clientName : string;
  clientVersion : string;
  pendingRequests : Z;
  messageQueue : list bytes;
  isDraining : bool;
  requestTimestamps : list Z;
  subscriptions : list (Z * Subscription);
  nextSubscriptionId : Z
}.

Definition new (id address : string) (c : WebSocketClientConfig) (w : Websocket) : t :=
  mk id address c w CONNECTED 0 "" "" 0 [] false [] [] 1.

Definition set_socket w q d (c : t) : t :=
  mk (clientId c) (remoteAddress c) (config c) w (state c) (protocolVersion c) (clientName c) (clientVersion c) (pendingRequests c) q d
    (requestTimestamps c) (subscriptions c) (nextSubscriptionId c).
Definition set_state st (c : t) : t :=
  mk (clientId c) (remoteAddress c) (config c) (socket c) st (protocolVersion c) (clientName c) (clientVersion c) (pendingRequests c)
    (messageQueue c) (isDraining c) (requestTimestamps c) (subscriptions c) (nextSubscriptionId c).
Definition set_info v n cv (c : t) : t :=
  mk (clientId c) (remoteAddress c) (config c) (socket c) (state c) v n cv (pendingRequests c) (messageQueue c) (isDraining c)
    (requestTimestamps c) (subscriptions c) (nextSubscriptionId c).
Definition set_pending n (c : t) : t :=
  mk (clientId c) (remoteAddress c) (config c) (socket c) (state c) (protocolVersion c) (clientName c) (clientVersion c) n
    (messageQueue c) (isDraining c) (requestTimestamps c) (subscriptions c) (nextSubscriptionId c).
Definition set_timestamps l (c : t) : t :=
  mk (clientId c) (remoteAddress c) (config c) (socket c) (state c) (protocolVersion c) (clientName c) (clientVersion c)
    (pendingRequests c) (messageQueue c) (isDraining c) l (subscriptions c) (nextSubscriptionId c).
Definition set_subscriptions m n (c : t) : t :=
  mk (clientId c) (remoteAddress c) (config c) (socket c) (state c) (protocolVersion c) (clientName c) (clientVersion c)
    (pendingRequests c) (messageQueue c) (isDraining c) (requestTimestamps c) m n.

Definition isHandshakeCompleted (c : t) : bool := bool_decide (state c = READY).
Definition isActive (c : t) : bool := bool_decide (state c = CONNECTED) || bool_decide (state c = READY).

(** Throws in another state. *)
Definition completeHandshake (h : HandshakeData) (c : t) : option t :=
  if decide (state c = CONNECTED)
  then Some (set_state READY (set_info (hs_protocolVersion h) (hs_clientName h) (hs_clientVersion h) c))
  else None.

(** ** Requests *)

Definition checkRateLimit (now : Z) (c : t) : t * bool :=
  let windowStart := now - 1000 in
  let recent := List.filter (λ ts, bool_decide (windowStart < ts)) (requestTimestamps c) in
  let c := set_timestamps recent c in
  if decide (maxRequestsPerSecond (config c) ≤ Z.of_nat (length recent)) then (c, false)
  else (set_timestamps (recent ++ [now]) c, true).

Definition startRequest (now : Z) (c : t) : t * bool :=
  if negb (isActive c) then (c, false)
  else if decide (maxPendingRequests (config c) ≤ pendingRequests c) then (c, false)
  else
    let '(c, allowed) := checkRateLimit now c in
    if negb allowed then (c, false) else (set_pending (pendingRequests c + 1) c, true).

Definition endRequest (c : t) : t := if decide (0 < pendingRequests c) then set_pending (pendingRequests c - 1) c else c.

(** ** Subscriptions *)

Definition addSubscription (now : Z) (type : SubscriptionType) (c : t) : t * option Z :=
  if decide (maxSubscriptions (config c) ≤ Z.of_nat (length (subscriptions c))) then (c, None)
  else
    let id := nextSubscriptionId c in
    (set_subscriptions (JsMap.set (subscriptions c) id (mkSubscription id type now)) (id + 1) c, Some id).

Definition removeSubscription (id : Z) (c : t) : t * bool :=
  (set_subscriptions (JsMap.del (subscriptions c) id) (nextSubscriptionId c) c, JsMap.has (subscriptions c) id).

Definition hasSubscription (type : SubscriptionType) (c : t) : bool :=
  existsb (λ s, bool_decide (sub_type s.2 = type)) (subscriptions c).

Definition getSubscription (id : Z) (c : t) : option Subscription := JsMap.get (subscriptions c) id.

(** ** Messages *)

Definition send (data : bytes) (c : t) : t * bool :=
  if negb (isActive c) then (c, false)
  else if isDraining c then (set_socket (socket c) (messageQueue c ++ [data]) true c, true)
  else
    match socket_send data (socket c) with
    | (w, Accepted) => (set_socket w (messageQueue c) false c, true)
    | (w, Backpressure) => (set_socket w (messageQueue c ++ [data]) true c, true)
    | (w, SendThrows) => (set_socket w (messageQueue c) false c, false)
    end.

(** The loop of [onDrain]: a message whose sending throws is dropped. *)
Fixpoint flush (queue : list bytes) (w : Websocket) : Websocket * list bytes * bool :=
  match queue with
  | [] => (w, [], false)
  | data :: queue =>
      match socket_send data w with
      | (w, Backpressure) => (w, data :: queue, true)
      | (w, _) => flush queue w
      end
  end.

Definition onDrain (c : t) : t :=
  let '(w, queue, draining) := flush (messageQueue c) (socket c) in set_socket w queue draining c.

Definition sendResponse (opcode requestId : Z) (payload : bytes) (c : t) : t * bool :=
  send (response_header opcode requestId ++ payload) c.

Section errors.
Context {LA : ApiProtobuf}.

(** What cannot be packed is not sent. *)
Definition sendError (requestId errorCode : Z) (customMessage : option string) (c : t) : t * bool :=
  match pack_error requestId errorCode (default (getErrorMessage errorCode) customMessage) with
  | Some payload => sendResponse WebSocketResponseOpcode.ERROR requestId payload c
  | None => (c, false)
  end.

Definition getWebSocketCloseCode (errorCode : Z) : Z :=
  if decide (errorCode = ProtocolError.MALFORMED_MESSAGE) then 1002
  else if decide (errorCode = ProtocolError.UNSUPPORTED_PROTOCOL_VERSION) then 1002
  else if decide (AuthError.AUTHENTICATION_REQUIRED ≤ errorCode ∧ errorCode < ResourceError.NOT_FOUND) then 3000
  else if decide (InternalError.INTERNAL_ERROR ≤ errorCode) then 1011
  else 1008.

(** A client that is closed has no subscription. *)
Definition close (code : Z) (reason : string) (c : t) : t :=
  if decide (state c = CLOSED ∨ state c = CLOSING) then c
  else
    let c := set_subscriptions [] (nextSubscriptionId c) (set_state CLOSING c) in
    set_state CLOSED (set_socket (socket_close code reason (socket c)) (messageQueue c) (isDraining c) c).

Definition closeWithError (errorCode : Z) (c : t) : t :=
  if decide (state c = CLOSED) then c
  else close (getWebSocketCloseCode errorCode) (getErrorMessage errorCode) (sendError 0 errorCode None c).1.

Definition markClosed (c : t) : t := set_subscriptions [] (nextSubscriptionId c) (set_state CLOSED c).

Definition shouldTerminate (errorCode : Z) : bool := isFatalError errorCode.
End errors.
End WebSocketClient.
