(* ===== verification/WebSocketClientFacts.v ===== *)
(** * Limits and order of one WebSocket client

    Whatever is called on a client, the requests it is granted stay within the
    rate and its messages reach the socket in the order they were sent. *)

From S2P Require Import Prelude WebSocketProtocol WebSocketClient.
Import WebSocketClient.

(** The calls on a client. *)
Inductive client_call : Type :=
| CStart (now : Z) | CEnd
| CSubscribe (now : Z) (type : SubscriptionType) | CUnsubscribe (id : Z)
| CSend (data : bytes) | CDrain
| CHandshake (h : HandshakeData)
| CClose (code : Z) (reason : string) | CMarkClosed.

(** A call, and whether it was granted. *)
Definition client_step (k : client_call) (c : t) : t * bool :=
  match k with
  | CStart now => startRequest now c
  | CEnd => (endRequest c, true)
  | CSubscribe now type => let '(c, id) := addSubscription now type c in (c, bool_decide (is_Some id))
  | CUnsubscribe id => removeSubscription id c
  | CSend data => send data c
  | CDrain => (onDrain c, true)
  | CHandshake h => match completeHandshake h c with Some c => (c, true) | None => (c, false) end
  | CClose code reason => (close code reason c, true)
  | CMarkClosed => (markClosed c, true)
  end.

(** The calls that were granted, in order. *)
Fixpoint client_run (l : list client_call) (c : t) : t * list client_call :=
  match l with
  | [] => (c, [])
  | k :: l => let '(c, ok) := client_step k c in let '(c, done) := client_run l c in (c, if ok then k :: done else done)
  end.

Lemma client_run_snoc l k c :
  client_run (l ++ [k]) c =
  let '(c1, done) := client_run l c in let '(c2, ok) := client_step k c1 in (c2, done ++ if ok then [k] else []).
Proof.
  revert c. induction l as [|k' l IH]; intros c; cbn; [destruct (client_step k c) as [c' []]; reflexivity|].
  destruct (client_step k' c) as [c' ok]. rewrite IH. destruct (client_run l c') as [c1 done]. destruct (client_step k c1) as [c2 ok2].
  by destruct ok.
Qed.

(** ** The rate of the requests *)

Definition start_time (k : client_call) : option Z := match k with CStart now => Some now | _ => None end.
Definition start_times (l : list client_call) : list Z := omap start_time l.

(** The numbers of [l] in the second that ends at [t]. *)
Definition in_second (t : Z) (l : list Z) : list Z := List.filter (λ x, bool_decide (t - 1000 < x) && bool_decide (x ≤ t)) l.

(** What a client knows of the starts: those after a time [w]. *)
Definition recent_starts (c : t) (w : Z) (starts : list Z) : Prop :=
  requestTimestamps c = List.filter (λ x, bool_decide (w < x)) starts.

Lemma filter_filter_later (w w' : Z) l : w ≤ w' →
  List.filter (λ x, bool_decide (w' < x)) (List.filter (λ x, bool_decide (w < x)) l) = List.filter (λ x, bool_decide (w' < x)) l.
Proof.
  intros Hw. induction l as [|x l IH]; [done|]. cbn. destruct (bool_decide_reflect (w < x)); cbn.
  - by rewrite IH.
  - rewrite IH. by rewrite bool_decide_false by lia.
Qed.

Lemma in_second_later (t now : Z) l : now ≤ t → (length (in_second t l) ≤ length (List.filter (λ x, bool_decide (now - 1000 < x)%Z) l))%nat.
Proof.
  intros Ht. unfold in_second. induction l as [|x l IH]; [done|]. cbn. destruct (bool_decide_reflect (t - 1000 < x)); cbn.
  - rewrite (bool_decide_true (now - 1000 < x)) by lia. case_bool_decide; cbn; lia.
  - case_bool_decide; cbn; lia.
Qed.

Lemma in_second_app t l l' : in_second t (l ++ l') = in_second t l ++ in_second t l'.
Proof. apply List.filter_app. Qed.

(** Only a start changes the timestamps. *)
Lemma step_timestamps k c : start_time k = None → requestTimestamps (client_step k c).1 = requestTimestamps c.
Proof.
  destruct k; intros Hk; try discriminate Hk; cbn.
  - unfold endRequest. by case_decide.
  - unfold addSubscription. by case_decide.
  - done.
  - unfold send, socket_send. repeat case_match; by simplify_eq/=.
  - unfold onDrain. by destruct (flush (messageQueue c) (socket c)) as [[w q] d].
  - unfold completeHandshake. by case_decide.
  - unfold close. by case_decide.
  - done.
Qed.

Lemma step_config k c : config (client_step k c).1 = config c.
Proof.
  destruct k; cbn.
  - unfold startRequest, checkRateLimit. repeat case_match; by simplify_eq/=.
  - unfold endRequest. by case_decide.
  - unfold addSubscription. by case_decide.
  - done.
  - unfold send, socket_send. repeat case_match; by simplify_eq/=.
  - unfold onDrain. by destruct (flush (messageQueue c) (socket c)) as [[w q] d].
  - unfold completeHandshake. by case_decide.
  - unfold close. by case_decide.
  - done.
Qed.

Lemma run_config l c : config (client_run l c).1 = config c.
Proof.
  revert c. induction l as [|k l IH]; intros c; [done|]. cbn. pose proof (step_config k c) as Hc. destruct (client_step k c) as [c' ok].
  specialize (IH c'). destruct (client_run l c'). cbn in *. congruence.
Qed.

(** The limit, as the number of requests it allows. *)
Definition allowed (n : Z) : nat := Z.to_nat n.

Lemma start_spec now c starts w :
  recent_starts c w starts → w ≤ now - 1000 →
  let '(c', ok) := startRequest now c in
  (∃ w', w' ≤ now - 1000 ∧ recent_starts c' w' (starts ++ if ok then [now] else [])) ∧
  (ok = true → (length (List.filter (λ x, bool_decide (now - 1000 < x)%Z) starts) < allowed (maxRequestsPerSecond (config c)))%nat).
Proof.
  intros Hr Hw. unfold startRequest. assert (∃ w', w' ≤ now - 1000 ∧ recent_starts c w' (starts ++ [])) as Hsame by (exists w; by rewrite app_nil_r).
  destruct (isActive c); cbn [negb]; [|by split]. case_decide; [by split|]. unfold checkRateLimit. rewrite Hr, filter_filter_later by done.
  set (recent := List.filter _ starts).
  case_decide as Hlim; cbn -[Z.of_nat].
  - split; [|done]. exists (now - 1000). split; [done|]. by rewrite app_nil_r.
  - split.
    + exists (now - 1000). split; [done|]. unfold recent_starts. cbn. rewrite List.filter_app. cbn. by rewrite bool_decide_true by lia.
    + intros _. unfold allowed. cbn in Hlim. lia.
Qed.

(** The state of the limit when the clock is at [now]. *)
Definition limited (c : t) (starts : list Z) (now : Z) : Prop :=
  (∃ w, w ≤ now - 1000 ∧ recent_starts c w starts) ∧ Forall (λ x, x ≤ now) starts ∧
  ∀ t, (length (in_second t starts) ≤ allowed (maxRequestsPerSecond (config c)))%nat.

Lemma limited_later c starts now now' : now ≤ now' → limited c starts now → limited c starts now'.
Proof.
  intros Hn ((w & Hw & Hr) & Hf & Hl). split; [exists w; split; [lia|done]|]. split; [|done].
  eapply Forall_impl; [exact Hf|]. cbn. lia.
Qed.

Lemma limited_start c starts now :
  limited c starts now → let '(c', ok) := startRequest now c in config c' = config c → limited c' (starts ++ if ok then [now] else []) now.
Proof.
  intros ((w & Hw & Hr) & Hf & Hl). pose proof (start_spec now c starts w Hr Hw) as Hs. destruct (startRequest now c) as [c' ok].
  destruct Hs as [Hs Hok]. intros Hc. split; [done|]. rewrite Hc. destruct ok; [|by rewrite app_nil_r].
  specialize (Hok eq_refl). split; [apply Forall_app; split; [done|by constructor]|]. intros t. rewrite in_second_app, length_app.
  destruct (decide (now ≤ t)) as [Ht|Ht].
  - pose proof (in_second_later t now starts Ht). assert (length (in_second t [now]) ≤ 1)%nat by (unfold in_second; cbn; by case_match; cbn; lia). lia.
  - unfold in_second at 2. cbn. rewrite (bool_decide_false (now ≤ t)) by lia. rewrite andb_false_r. cbn. rewrite Nat.add_0_r. apply Hl.
Qed.

Lemma run_limited l now id address cfg w :
  StronglySorted Z.le (start_times l ++ [now]) →
  limited (client_run l (new id address cfg w)).1 (start_times (client_run l (new id address cfg w)).2) now.
Proof.
  revert now. induction l as [|k l IH] using rev_ind; intros now Hs.
  { split; [exists (now - 1000); by split|]. split; [constructor|]. intros t. cbn. lia. }
  rewrite client_run_snoc. pose proof (run_config l (new id address cfg w)) as Hc.
  destruct (client_run l (new id address cfg w)) as [c done]. cbn in Hc, IH. pose proof (step_config k c) as Hk. pose proof (step_timestamps k c) as Ht.
  unfold start_times in Hs. rewrite omap_app in Hs. fold (start_times l) in Hs. destruct (start_time k) as [start|] eqn:Hst.
  - destruct k; try discriminate Hst. injection Hst as ->. cbn in Hs. rewrite <- app_assoc in Hs.
    apply (limited_later _ _ start).
    { apply StronglySorted_app in Hs as (_ & _ & Hs). apply StronglySorted_inv in Hs as [_ Hh]. by inv Hh. }
    assert (limited c (start_times done) start) as Hl.
    { apply IH. change (start :: [now]) with ([start] ++ [now]) in Hs. rewrite app_assoc in Hs. by apply StronglySorted_app in Hs as (_ & Hs & _). }
    apply limited_start in Hl. cbn [client_step] in Hk |- *. destruct (startRequest start c) as [c' ok]. cbn in Hk |- *.
    unfold start_times. rewrite omap_app. fold (start_times done). destruct ok; exact (Hl Hk).
  - assert (start_times [k] = []) as Hn by (unfold start_times; cbn; by rewrite Hst).
    unfold start_times in Hn. cbn in Hs, Hn. rewrite Hst, app_nil_r in Hs. specialize (IH now Hs). specialize (Ht eq_refl).
    destruct (client_step k c) as [c' ok]. cbn in Hk, Ht |- *. unfold start_times. rewrite omap_app. fold (start_times done).
    assert (omap start_time (if ok then [k] else []) = []) as -> by (destruct ok; [|done]; cbn; by rewrite Hst). rewrite app_nil_r.
    unfold limited, recent_starts in *. by rewrite Hk, Ht.
Qed.

(** C27: however a client is used, as long as the clock does not go back, it is
    granted at most [maxRequestsPerSecond] requests in any second. *)
Theorem requests_are_rate_limited l id address cfg w t :
  StronglySorted Z.le (start_times l) →
  (length (in_second t (start_times (client_run l (new id address cfg w)).2)) ≤ allowed (maxRequestsPerSecond cfg))%nat.
Proof.
  intros Hs. set (now := foldr Z.max 0 (start_times l)).
  assert (Forall (λ x, x ≤ now) (start_times l)) as Hf.
  { unfold now. clear. induction (start_times l) as [|x r IH]; [constructor|]. constructor; cbn; [lia|].
    eapply Forall_impl; [exact IH|]. cbn. lia. }
  destruct (run_limited l now id address cfg w) as (_ & _ & H); [|rewrite run_config in H; exact (H t)].
  apply StronglySorted_app. split; [|split; [done|repeat constructor]].
  intros x y Hx ->%list_elem_of_singleton. by rewrite Forall_forall in Hf; apply Hf.
Qed.

(** ** The order of the messages *)

Definition sent_data (l : list client_call) : list bytes := omap (λ k, match k with CSend data => Some data | _ => None end) l.

(** The messages that reached the socket, then those that wait. *)
Definition outgoing (c : t) : list bytes := delivered (socket c) ++ messageQueue c.

(** [out]: what was sent, but for messages whose sending threw when the queue was
    flushed. *)
Definition in_order (throws : Prop) (c : t) (sent : list bytes) : Prop :=
  sublist (outgoing c) sent ∧ (¬ throws → outgoing c = sent) ∧ (isDraining c = false → messageQueue c = []).

Definition may_throw (w : Websocket) : Prop := ∃ n, answers w n = SendThrows.

Lemma socket_send_answers data w : answers (socket_send data w).1 = answers w.
Proof. done. Qed.

Lemma flush_spec queue w :
  let '(w', queue', draining) := flush queue w in
  answers w' = answers w ∧ sublist (delivered w' ++ queue') (delivered w ++ queue) ∧
  (¬ may_throw w → delivered w' ++ queue' = delivered w ++ queue) ∧ (draining = false → queue' = []).
Proof.
  revert w. induction queue as [|data queue IH]; intros w; cbn [flush]; [by repeat split|].
  unfold socket_send. destruct (answers w (asked w)) eqn:Ha; [| |].
  - specialize (IH (mkSocket (answers w) (S (asked w)) (delivered w ++ [data]) (close_frame w))).
    destruct (flush queue _) as [[w' q'] d]. cbn in IH. destruct IH as (H1 & H2 & H3 & H4). rewrite <- app_assoc in H2, H3. by repeat split.
  - cbn. by repeat split.
  - specialize (IH (mkSocket (answers w) (S (asked w)) (delivered w) (close_frame w))).
    destruct (flush queue _) as [[w' q'] d]. cbn in IH. destruct IH as (H1 & H2 & H3 & H4). split; [done|]. split.
    + etrans; [exact H2|]. apply sublist_app; [done|]. by apply sublist_cons.
    + split; [|done]. intros Hn. destruct Hn. by exists (asked w).
Qed.

(** A call that leaves the messages alone. *)
Lemma order_same throws c c' sent :
  (answers (socket c') = answers (socket c) ∧ delivered (socket c') = delivered (socket c)) ∧
  messageQueue c' = messageQueue c ∧ isDraining c' = isDraining c →
  in_order throws c sent → answers (socket c') = answers (socket c) ∧ in_order throws c' sent.
Proof. intros ((E0 & E1) & E2 & E3). unfold in_order, outgoing. by rewrite E0, E1, E2, E3. Qed.

(** The answers of the socket do not change, and a message that is sent is the
    last of what goes out. *)
Lemma order_send throws data c sent :
  in_order throws c sent →
  answers (socket (send data c).1) = answers (socket c) ∧ in_order throws (send data c).1 (sent ++ if (send data c).2 then [data] else []).
Proof.
  intros Hi. assert (answers (socket c) = answers (socket c) ∧ in_order throws c (sent ++ [])) as Hno by (by rewrite app_nil_r).
  unfold send. destruct (isActive c); cbn [negb]; [|done]. destruct Hi as (Hs & He & Hq). unfold in_order, outgoing in *.
  destruct (isDraining c).
  - cbn. rewrite app_assoc. split; [done|]. split; [by apply sublist_app|]. split; [|done]. intros Hn. by rewrite He.
  - specialize (Hq eq_refl). rewrite Hq, app_nil_r in Hs, He. unfold socket_send. destruct (answers (socket c) (asked (socket c))); cbn; rewrite Hq, ?app_nil_r.
    + split; [done|]. split; [by apply sublist_app|]. split; [|done]. intros Hn. by rewrite He.
    + split; [done|]. split; [by apply sublist_app|]. split; [|done]. intros Hn. cbn. by rewrite He.
    + by split.
Qed.

Lemma order_drain c sent :
  in_order (may_throw (socket c)) c sent → answers (socket (onDrain c)) = answers (socket c) ∧ in_order (may_throw (socket c)) (onDrain c) sent.
Proof.
  intros (Hs & He & _). unfold onDrain. pose proof (flush_spec (messageQueue c) (socket c)) as Hf.
  destruct (flush (messageQueue c) (socket c)) as [[w q] d]. destruct Hf as (H1 & H2 & H3 & H4). split; [done|].
  unfold in_order, outgoing in *. cbn. split; [by etrans|]. split; [|done]. intros Hn. rewrite H3 by done. by apply He.
Qed.

Lemma order_step k c sent :
  in_order (may_throw (socket c)) c sent →
  answers (socket (client_step k c).1) = answers (socket c) ∧
  in_order (may_throw (socket c)) (client_step k c).1 (sent ++ if (client_step k c).2 then sent_data [k] else []).
Proof.
  intros Hi. assert ((∃ data, k = CSend data) ∨ (¬ ∃ data, k = CSend data)) as [[data ->]|Hk]; [destruct k; try (right; by intros [? ?]); left; by eexists|by apply order_send|].
  assert (∀ b : bool, sent ++ (if b then sent_data [k] else []) = sent) as ->.
  { intros b. destruct k; try by destruct b; rewrite app_nil_r. destruct Hk. by eexists. }
  destruct k; cbn [client_step]; try (by destruct Hk; eexists).
  5:{ by apply order_drain. }
  all: apply (order_same _ c); [|done].
  - unfold startRequest, checkRateLimit. repeat case_match; by simplify_eq/=.
  - cbn. unfold endRequest. by case_decide.
  - unfold addSubscription. by case_decide.
  - done.
  - unfold completeHandshake. by case_decide.
  - unfold close. cbn [fst]. by destruct (decide _).
  - done.
Qed.

Lemma run_in_order l id address cfg w :
  let c := client_run l (new id address cfg w) in
  delivered w = [] → answers (socket c.1) = answers w ∧ in_order (may_throw w) c.1 (sent_data c.2).
Proof.
  intros c Hw. subst c. induction l as [|k l IH] using rev_ind.
  { cbn. split; [done|]. unfold in_order, outgoing. cbn. by rewrite Hw. }
  rewrite client_run_snoc. destruct (client_run l (new id address cfg w)) as [c done]. cbn in IH. destruct IH as [Ha Hi].
  assert (may_throw (socket c) ↔ may_throw w) as Hm by (unfold may_throw; by rewrite Ha).
  assert (∀ c' s, in_order (may_throw (socket c)) c' s ↔ in_order (may_throw w) c' s) as Hio by (intros c' s; unfold in_order; tauto).
  apply Hio in Hi. pose proof (order_step k c (sent_data done) Hi) as Hs. destruct (client_step k c) as [c' ok]. cbn in Hs |- *.
  destruct Hs as [Ha' Hi']. split; [congruence|]. apply Hio. unfold sent_data in *. rewrite omap_app. by destruct ok.
Qed.

(** the messages a client was granted reach its socket in the order they were
    sent and none twice; none is lost unless the socket throws, and none
    waits unless the socket is full. *)
Theorem messages_in_order l id address cfg (answers : nat → send_answer) :
  let '(c, granted) := client_run l (new id address cfg (mkSocket answers 0 [] None)) in
  sublist (delivered (socket c) ++ messageQueue c) (sent_data granted) ∧
  ((∀ n, answers n ≠ SendThrows) → delivered (socket c) ++ messageQueue c = sent_data granted) ∧
  (isDraining c = false → messageQueue c = []).
Proof.
  pose proof (run_in_order l id address cfg (mkSocket answers 0 [] None) eq_refl) as Hr. destruct (client_run _ _) as [c granted].
  destruct Hr as (_ & Hs & He & Hq). split; [done|]. split; [|done]. intros Hn. apply He. intros [n Ht]. by apply (Hn n).
Qed.
