(* ===== verification/WebSocketServer.v ===== *)
(** * The WebSocket server (api/websocket/ProtocolHandler.ts,
    WebSocketManager.ts, the subscriptions of handlers/HandlerRegistry.ts)

    The manager keeps the sockets and the clients; a message is parsed, checked
    and given to the handler of its opcode, and the request waits for the
    handler's answer, which is an event of its own. *)

From S2P Require Import Prelude PluginOpcodes WebSocketProtocol WebSocketClient.
Import WebSocketClient.

Definition PROTOCOL_VERSION : Z := 1.
Definition MIN_PROTOCOL_VERSION : Z := 1.
Definition MAX_PROTOCOL_VERSION : Z := 1.

(** The messages of the plugins, which protobufjs decodes and encodes. *)
Class PluginProtobuf : Type := {
  PluginRoot : Type;
  PluginType : Type;
  PluginJson : Type;
  decode : PluginType → bytes → option PluginJson;
  encode : PluginType → option PluginJson → result string bytes
}.

Record WebSocketSettings : Type := mkSettings {
  ENABLED : bool;
  MAX_CONNECTIONS : Z;
  MAX_PENDING_REQUESTS : Z;
  REQUEST_TIMEOUT : Z;
  MAX_REQUESTS_PER_SECOND : Z;
  MAX_SUBSCRIPTIONS : Z
}.

Record IPluginOpcodeInfo : Type := mkOpcodeInfo {
  info_plugin : string;
  info_opcodeName : string;
  info_requestOpcode : Z;
  info_responseOpcode : Z;
  info_handler : string
}.

(** ** The address of a client *)

(** The upgrade request; a header that cannot be read throws. *)
Record Request : Type := mkRequest { header : string → result unit (option string); ip : option string }.

Definition is_space (a : Ascii.ascii) : bool :=
  let n := Z.of_nat (Ascii.nat_of_ascii a) in (bool_decide (9 ≤ n) && bool_decide (n ≤ 13)) || bool_decide (n = 32) || bool_decide (n = 160).

Fixpoint trimStart (s : string) : string :=
  match s with String.String a s' => if is_space a then trimStart s' else s | _ => s end.

Fixpoint trimEnd (s : string) : string :=
  match s with
  | String.String a s' => match trimEnd s' with EmptyString => if is_space a then EmptyString else String.String a EmptyString | t => String.String a t end
  | _ => s
  end.

Fixpoint before_comma (s : string) : string :=
  match s with String.String a s' => if decide (a = ","%char) then EmptyString else String.String a (before_comma s') | _ => s end.

Definition truthy_string (s : option string) : option string := match s with Some ""%string => None | _ => s end.

Definition extractClientIP (request : option Request) : string :=
  match request with
  | None => "unknown"%string
  | Some request =>
      match
        (cfIP ← header request "cf-connecting-ip";
         match truthy_string cfIP with
         | Some cfIP => Ok cfIP
         | None =>
             realIP ← header request "x-real-ip";
             match truthy_string realIP with
             | Some realIP => Ok realIP
             | None =>
                 forwardedFor ← header request "x-forwarded-for";
                 match truthy_string ((λ f, trimEnd (trimStart (before_comma f))) <$> truthy_string forwardedFor) with
                 | Some firstIP => Ok firstIP
                 | None => Ok (default "unknown"%string (ip request))
                 end
             end
         end)
      with
      | Ok address => address
      | Throw _ => "unknown"%string
      end
  end.

(** ** The state *)

Section WebSocketServer.
Context {LA : ApiProtobuf} {LP : PluginProtobuf}.

Abbreviation client := WebSocketClient.t.
Abbreviation plugin_handler := (PluginOpcodeRegistry.IRegisteredHandler PluginType).
Abbreviation plugin_answer := (PluginOpcodeRegistry.ws_answer (Json := PluginJson)).

(** A request whose handler has not answered: a route, a value that is awaited,
    a plugin of this thread or of another. *)
Inductive waiting_call : Type :=
| Handling (r : OpcodeRegistration)
| Replying (r : OpcodeRegistration) (response : api_response ApiContent)
| PluginHandling (h : plugin_handler)
| RemoteHandling (info : IPluginOpcodeInfo)
| RemoteFailed (message : string).

Record waiting_request : Type := mkWaiting { wr_socket : nat; wr_requestId : Z; wr_call : waiting_call }.

(** What is thrown by a handler. *)
Inductive thrown : Type :=
| WebSocketAPIError (code : Z) (message : string)
| JsError (message : string)
| OtherThrown.

(** What is answered to a request that waits. *)
Inductive handler_answer : Type :=
| Answered (c : ApiContent)
| Thrown (e : thrown)
| Awaited
| PluginAnswered (a : plugin_answer)
| RemoteAnswered (success : bool) (response : option bytes) (error : option string)
| RemoteThrown (message : string).

Record manager : Type := mkManager {
  settings : option WebSocketSettings;
  enabled : bool;
  chainId : string;
  serverVersion : string;
  currentBlockHeight : Z;
  totalConnections : Z;
  totalMessages : Z;
  pluginOpcodes : list (string * list IPluginOpcodeInfo);
  opcodeToPlugin : list (Z * IPluginOpcodeInfo);
  pluginWsExecutor : bool;
  pluginRegistry : option (PluginOpcodeRegistry.t PluginRoot PluginType);
  sockets : list (option client);
  clients : list (string * nat);
  waiting : list waiting_request
}.

Definition initial (version : string) : manager := mkManager None false "bitcoin" version 0 0 0 [] [] false None [] [] [].

Definition set_sockets s cl w (m : manager) : manager :=
  mkManager (settings m) (enabled m) (chainId m) (serverVersion m) (currentBlockHeight m) (totalConnections m) (totalMessages m)
    (pluginOpcodes m) (opcodeToPlugin m) (pluginWsExecutor m) (pluginRegistry m) s cl w.
Definition set_counts height connections messages (m : manager) : manager :=
  mkManager (settings m) (enabled m) (chainId m) (serverVersion m) height connections messages
    (pluginOpcodes m) (opcodeToPlugin m) (pluginWsExecutor m) (pluginRegistry m) (sockets m) (clients m) (waiting m).
Definition set_plugins p o x r (m : manager) : manager :=
  mkManager (settings m) (enabled m) (chainId m) (serverVersion m) (currentBlockHeight m) (totalConnections m) (totalMessages m)
    p o x r (sockets m) (clients m) (waiting m).

(** [socketToClient]; a socket that was refused has no client. *)
Definition client_at (s : nat) (m : manager) : option client := mjoin (sockets m !! s).
Definition set_client (s : nat) (c : client) (m : manager) : manager := set_sockets (<[s := Some c]> (sockets m)) (clients m) (waiting m) m.
Definition add_waiting (w : waiting_request) (m : manager) : manager := set_sockets (sockets m) (clients m) (waiting m ++ [w]) m.

Definition getClient (id : string) (m : manager) : option (nat * client) :=
  s ← JsMap.get (clients m) id; pair s <$> client_at s m.

(** What leaves the server otherwise than on the socket of a client. *)
Inductive output : Type :=
| HandlerCalled (opcode : Z) (request : api_request ApiContent) (requestId : Z) (clientId : string)
| PluginCalled (h : plugin_handler) (request : PluginJson) (requestId clientId : string)
| PluginForwarded (info : IPluginOpcodeInfo) (request : bytes) (requestId : Z) (clientId : string)
| SocketClosed (s : nat) (code : Z) (reason : string).

(** ** Handlers of subscriptions *)

Definition subscribe (now : Z) (type : SubscriptionType) (id : string) (m : manager) : manager * result thrown (api_response ApiContent) :=
  match getClient id m with
  | None => (m, Throw (WebSocketAPIError InternalError.INTERNAL_ERROR ""))
  | Some (s, c) =>
      if hasSubscription type c then (m, Throw (WebSocketAPIError ResourceError.SUBSCRIPTION_ALREADY_EXISTS ""))
      else
        match addSubscription now type c with
        | (_, None) => (m, Throw (WebSocketAPIError ResourceError.MAX_SUBSCRIPTIONS_REACHED ""))
        | (c, Some subscriptionId) => (set_client s c m, Ok (SubscriptionCreated subscriptionId type))
        end
  end.

Definition unsubscribe (subscriptionId : Z) (id : string) (m : manager) : manager * result thrown (api_response ApiContent) :=
  match getClient id m with
  | None => (m, Throw (WebSocketAPIError InternalError.INTERNAL_ERROR ""))
  | Some (s, c) =>
      match getSubscription subscriptionId c with
      | None => (m, Throw (WebSocketAPIError ResourceError.SUBSCRIPTION_NOT_FOUND ""))
      | Some _ => let '(c, success) := removeSubscription subscriptionId c in (set_client s c m, Ok (Unsubscribed success))
      end
  end.

(** ** The protocol *)

Definition thrown_code (e : thrown) : Z := match e with WebSocketAPIError code _ => code | _ => InternalError.INTERNAL_ERROR end.
Definition thrown_message (e : thrown) : string :=
  match e with WebSocketAPIError _ message | JsError message => message | OtherThrown => "Unknown error" end.

Definition handleError (requestId : Z) (e : thrown) (c : client) : client :=
  let c := (sendError requestId (thrown_code e) (Some (thrown_message e)) c).1 in
  if shouldTerminate (thrown_code e) then close 1008 (thrown_message e) c else c.

Definition handlePing (now : Z) (payload : bytes) (c : client) : client :=
  if decide (length payload < 4)%nat then c
  else
    match unpack_ping (drop 4 payload) with
    | None => c
    | Some timestamp =>
        match pack_pong timestamp now with
        | None => c
        | Some packedPayload => (send (getOpcode PongResponse :: take 4 payload ++ packedPayload) c).1
        end
    end.

Definition handleHandshake (payload : bytes) (m : manager) (c : client) : client :=
  if isHandshakeCompleted c then (sendError 0 ProtocolError.HANDSHAKE_ALREADY_COMPLETED None c).1
  else if decide (length payload < 4)%nat then closeWithError ProtocolError.MALFORMED_MESSAGE c
  else
    match unpack_handshake (drop 4 payload) with
    | None => closeWithError ProtocolError.MALFORMED_MESSAGE c
    | Some h =>
        if decide (hs_protocolVersion h < MIN_PROTOCOL_VERSION ∨ MAX_PROTOCOL_VERSION < hs_protocolVersion h)
        then close 1002 "Unsupported protocol version" (sendError 0 ProtocolError.UNSUPPORTED_PROTOCOL_VERSION None c).1
        else if decide (hs_clientName h = ""%string ∨ (64 < String.length (hs_clientName h))%nat)
        then close 1002 "Invalid client info" (sendError 0 ValidationError.INVALID_PARAMS (Some "Invalid client name"%string) c).1
        else
          match completeHandshake h c with
          | None => closeWithError ProtocolError.MALFORMED_MESSAGE c
          | Some c =>
              match
                sessionId ← fromHex (clientId c);
                pack_handshake (mkReply PROTOCOL_VERSION sessionId (serverVersion m) (currentBlockHeight m) (chainId m))
              with
              | None => closeWithError ProtocolError.MALFORMED_MESSAGE c
              | Some packedPayload => (send (getOpcode HandshakeResponse :: take 4 payload ++ packedPayload) c).1
              end
          end
    end.

(** The end of a request: its response, then [endRequest]. *)
Definition respond (responseOpcode requestId : Z) (payload : result string bytes) (c : client) : client :=
  endRequest match payload with
             | Ok payload => (sendResponse responseOpcode requestId payload c).1
             | Throw message => handleError requestId (JsError message) c
             end.

(** The handler of an opcode: those of subscriptions answer or throw at once. *)
Definition callHandler (now : Z) (opcode : Z) (r : OpcodeRegistration) (request : api_request ApiContent) (requestId : Z) (id : string) (m : manager)
  : option (manager * result thrown waiting_call) :=
  let awaited (x : manager * result thrown (api_response ApiContent)) := (x.1, match x.2 with Ok v => Ok (Replying r v) | Throw e => Throw e end) in
  match handler_of opcode, request with
  | None, _ => None
  | Some (Subscribe type), _ => Some (awaited (subscribe now type id m))
  | Some Unsubscribe, RUnsubscribe subscriptionId => Some (awaited (unsubscribe subscriptionId id m))
  | _, _ => Some (m, Ok (Handling r))
  end.

(** The request starts: a handler that does not throw is waited for. *)
Definition executeRequest (now : Z) (s : nat) (opcode : Z) (r : OpcodeRegistration) (request : api_request ApiContent) (requestId : Z) (c : client)
    (m : manager) : manager * list output :=
  match startRequest now c with
  | (c, false) => (set_client s (sendError requestId ProtocolError.TOO_MANY_PENDING_REQUESTS None c).1 m, [])
  | (c, true) =>
      match callHandler now opcode r request requestId (clientId c) (set_client s c m) with
      | None => (set_client s (endRequest (sendError requestId InternalError.NOT_IMPLEMENTED None c).1) m, [])
      | Some (m, Ok call) => (add_waiting (mkWaiting s requestId call) m, [HandlerCalled opcode request requestId (clientId c)])
      | Some (m, Throw e) =>
          (match client_at s m with Some c => set_client s (endRequest (handleError requestId e c)) m | None => m end,
           [HandlerCalled opcode request requestId (clientId c)])
      end
  end.

Definition handlePluginOpcodeLocal (now : Z) (s : nat) (registry : PluginOpcodeRegistry.t PluginRoot PluginType) (opcode : Z) (payload : bytes)
    (c : client) (m : manager) : manager * list output :=
  match PluginOpcodeRegistry.getHandler _ _ registry opcode with
  | None => (set_client s (closeWithError ProtocolError.UNKNOWN_OPCODE c) m, [])
  | Some h =>
      if decide (length payload < 4)%nat then (set_client s (sendError 0 ProtocolError.MALFORMED_MESSAGE None c).1 m, [])
      else
        let requestId := read_requestId payload in
        match decode (PluginOpcodeRegistry.requestType _ h) (drop 4 payload) with
        | None => (set_client s (sendError requestId ProtocolError.MALFORMED_MESSAGE (Some "Failed to deserialize request"%string) c).1 m, [])
        | Some request =>
            match startRequest now c with
            | (c, false) => (set_client s (sendError requestId ProtocolError.TOO_MANY_PENDING_REQUESTS None c).1 m, [])
            | (c, true) =>
                (add_waiting (mkWaiting s requestId (PluginHandling h)) (set_client s c m), [PluginCalled h request (pretty requestId) (clientId c)])
            end
        end
  end.

(** [executePluginHandler] up to its await. *)
Definition executePluginHandler (opcode : Z) (m : manager) : waiting_call :=
  match JsMap.get (opcodeToPlugin m) opcode with
  | None => RemoteFailed "Unknown plugin opcode"
  | Some info => if pluginWsExecutor m then RemoteHandling info else RemoteFailed "Plugin system not initialized"
  end.

Definition handlePluginOpcodeCrossThread (now : Z) (s : nat) (opcode : Z) (payload : bytes) (c : client) (m : manager) : manager * list output :=
  if negb (JsMap.has (opcodeToPlugin m) opcode) then (set_client s (closeWithError ProtocolError.UNKNOWN_OPCODE c) m, [])
  else if decide (length payload < 4)%nat then (set_client s (sendError 0 ProtocolError.MALFORMED_MESSAGE None c).1 m, [])
  else
    let requestId := read_requestId payload in
    match startRequest now c with
    | (c, false) => (set_client s (sendError requestId ProtocolError.TOO_MANY_PENDING_REQUESTS None c).1 m, [])
    | (c, true) =>
        let call := executePluginHandler opcode m in
        (add_waiting (mkWaiting s requestId call) (set_client s c m),
         match call with RemoteHandling info => [PluginForwarded info (drop 4 payload) requestId (clientId c)] | _ => [] end)
    end.

Definition handshakeRequired (c : client) : client := close 1002 "Handshake required" (sendError 0 ProtocolError.HANDSHAKE_REQUIRED None c).1.

Definition handlePluginOpcode (now : Z) (s : nat) (opcode : Z) (payload : bytes) (c : client) (m : manager) : manager * list output :=
  if negb (isHandshakeCompleted c) then (set_client s (handshakeRequired c) m, [])
  else
    match pluginRegistry m with
    | Some registry => handlePluginOpcodeLocal now s registry opcode payload c m
    | None => handlePluginOpcodeCrossThread now s opcode payload c m
    end.

(** [now] is the clock: a message reads it once, but for the creation date of a
    subscription. *)
Definition processMessage (now : Z) (s : nat) (raw : bytes) (c : client) (m : manager) : manager * list output :=
  match parseWebSocketMessage raw with
  | None => (set_client s (closeWithError ProtocolError.MALFORMED_MESSAGE c) m, [])
  | Some (opcode, payload) =>
      if bool_decide (is_Some (pluginRegistry m)) && PluginOpcodeRegistry.isPluginOpcode opcode
      then handlePluginOpcode now s opcode payload c m
      else
        match getRequestRegistration opcode with
        | None => (set_client s (closeWithError ProtocolError.UNKNOWN_OPCODE c) m, [])
        | Some r =>
            if requiresHandshake r && negb (isHandshakeCompleted c) then (set_client s (handshakeRequired c) m, [])
            else if decide (opcode = WebSocketRequestOpcode.PING) then (set_client s (handlePing now payload c) m, [])
            else if decide (opcode = WebSocketRequestOpcode.HANDSHAKE) then (set_client s (handleHandshake payload m c) m, [])
            else if decide (length payload < 4)%nat then (set_client s (sendError 0 ProtocolError.MALFORMED_MESSAGE None c).1 m, [])
            else
              let requestId := read_requestId payload in
              match unpack (requestType r) (drop 4 payload) with
              | None =>
                  (set_client s (sendError requestId ProtocolError.MALFORMED_MESSAGE (Some "Failed to deserialize request"%string) c).1 m, [])
              | Some request => executeRequest now s opcode r request requestId c m
              end
        end
  end.

(** ** What follows the awaits *)

(** [None]: the answer is not one to this call. *)
Definition finish (requestId : Z) (call : waiting_call) (a : handler_answer) (c : client) : option client :=
  let failed (error : option string) := endRequest (sendError requestId InternalError.INTERNAL_ERROR error c).1 in
  match call, a with
  | Handling r, Answered v => Some (respond (responseOpcode_ r) requestId (pack_response (responseType r) (OtherResponse v)) c)
  | Handling r, Thrown e => Some (endRequest (handleError requestId e c))
  | Replying r v, Awaited => Some (respond (responseOpcode_ r) requestId (pack_response (responseType r) v) c)
  | PluginHandling h, PluginAnswered a =>
      Some (if PluginOpcodeRegistry.success a
            then respond (PluginOpcodeRegistry.responseOpcode _ h) requestId (encode (PluginOpcodeRegistry.responseType _ h) (PluginOpcodeRegistry.answer a)) c
            else failed (PluginOpcodeRegistry.answer_error a))
  | RemoteHandling info, RemoteAnswered true response _ =>
      Some match response with
           | Some response => respond (info_responseOpcode info) requestId (Ok response) c
           | None => endRequest c
           end
  | RemoteHandling info, RemoteAnswered false _ error => Some (failed error)
  | RemoteHandling info, RemoteThrown message => Some (failed (Some message))
  | RemoteFailed message, Awaited => Some (failed (Some message))
  | _, _ => None
  end.

Definition resume (n : nat) (a : handler_answer) (m : manager) : manager :=
  match waiting m !! n with
  | None => m
  | Some w =>
      match c ← client_at (wr_socket w) m; finish (wr_requestId w) (wr_call w) a c with
      | None => m
      | Some c => let m := set_client (wr_socket w) c m in set_sockets (sockets m) (clients m) (delete n (waiting m)) m
      end
  end.

(** ** The manager *)

Definition getClientConfig (m : manager) : WebSocketClientConfig :=
  match settings m with
  | Some c => mkClientConfig (MAX_PENDING_REQUESTS c) (REQUEST_TIMEOUT c) (MAX_REQUESTS_PER_SECOND c) (MAX_SUBSCRIPTIONS c)
  | None => mkClientConfig 100 30000 50 10
  end.

Definition initialize (chain : string) (c : WebSocketSettings) (m : manager) : manager :=
  mkManager (Some c) (ENABLED c) chain (serverVersion m) (currentBlockHeight m) (totalConnections m) (totalMessages m)
    (pluginOpcodes m) (opcodeToPlugin m) (pluginWsExecutor m) (pluginRegistry m) (sockets m) (clients m) (waiting m).

(** The next socket; [id] is the id that is drawn for a client. *)
Definition onConnection (id : string) (request : option Request) (w : Websocket) (m : manager) : manager * list output :=
  let s := length (sockets m) in
  let refuse code reason := (set_sockets (sockets m ++ [None]) (clients m) (waiting m) m, [SocketClosed s code reason]) in
  if negb (enabled m) then refuse 1000 "WebSocket API is disabled"%string
  else if decide (default 1000 (MAX_CONNECTIONS <$> settings m) ≤ Z.of_nat (length (clients m))) then refuse 1013 "Server is at capacity"%string
  else
    let c := new id (extractClientIP request) (getClientConfig m) w in
    (set_counts (currentBlockHeight m) (totalConnections m + 1) (totalMessages m)
       (set_sockets (sockets m ++ [Some c]) (JsMap.set (clients m) id s) (waiting m) m), []).

(** Nothing that [processMessage] does throws. *)
Definition onMessage (now : Z) (s : nat) (raw : bytes) (m : manager) : manager * list output :=
  match client_at s m with
  | None => (m, [SocketClosed s 1011 "Unknown client"])
  | Some c =>
      if negb (isActive c) then (m, [])
      else processMessage now s raw c (set_counts (currentBlockHeight m) (totalConnections m) (totalMessages m + 1) m)
  end.

Definition on_client (s : nat) (f : client → client) (m : manager) : manager :=
  match client_at s m with Some c => set_client s (f c) m | None => m end.

Definition onClose (s : nat) (m : manager) : manager :=
  match client_at s m with
  | None => m
  | Some c => let m := set_client s (markClosed c) m in set_sockets (sockets m) (JsMap.del (clients m) (clientId c)) (waiting m) m
  end.

(** The loop over the subscriptions of a client; a notification that cannot be
    packed is skipped. *)
Definition notifyClient (type : SubscriptionType) (n : Z → notification) (c : client) : client :=
  if negb (isHandshakeCompleted c) then c
  else
    foldl (λ c e, if decide (sub_type e.2 = type) then match pack (n e.1) with Some packed => (send packed c).1 | None => c end else c)
      c (subscriptions c).

(** [for (const client of this.clients.values())] *)
Definition for_clients (f : client → client) (m : manager) : manager := foldl (λ m s, on_client s f m) m (JsMap.values (clients m)).

Definition onBlockChange (blockHeight : Z) (hash : option string) (txCount : option Z) (now : Z) (m : manager) : manager :=
  let m := set_counts blockHeight (totalConnections m) (totalMessages m) m in
  if negb (enabled m) then m
  else for_clients (notifyClient BLOCKS (λ id, NewBlock id blockHeight (default ""%string hash) now (default 0 txCount))) m.

Definition onEpochFinalized (epochNumber : Z) (epochHash : option string) (m : manager) : manager :=
  if negb (enabled m) then m else for_clients (notifyClient EPOCHS (λ id, NewEpoch id (pretty epochNumber) (default ""%string epochHash))) m.

Definition onMempoolTransaction (txId : string) (transactionType now : Z) (m : manager) : manager :=
  if negb (enabled m) then m else for_clients (notifyClient MEMPOOL (λ id, NewMempoolTransaction id txId transactionType now)) m.

Definition broadcast (data : bytes) (m : manager) : manager * nat :=
  foldl (λ '(m, sent) s,
           match client_at s m with
           | Some c =>
               if isHandshakeCompleted c then let '(c, ok) := send data c in (set_client s c m, if ok then S sent else sent) else (m, sent)
           | None => (m, sent)
           end)
    (m, 0%nat) (JsMap.values (clients m)).

Definition shutdown (m : manager) : manager :=
  let m := for_clients (close 1001 "Server shutting down") m in set_sockets (sockets m) [] (waiting m) m.

Definition registerPluginOpcodes (opcodes : list IPluginOpcodeInfo) (m : manager) : manager :=
  foldl (λ m o,
           set_plugins (JsMap.set (pluginOpcodes m) (info_plugin o) (default [] (JsMap.get (pluginOpcodes m) (info_plugin o)) ++ [o]))
             (JsMap.set (opcodeToPlugin m) (info_requestOpcode o) o) (pluginWsExecutor m) (pluginRegistry m) m)
    m opcodes.

Definition unregisterPluginOpcodes (plugin : string) (m : manager) : manager :=
  match JsMap.get (pluginOpcodes m) plugin with
  | None => m
  | Some opcodes =>
      set_plugins (JsMap.del (pluginOpcodes m) plugin) (foldl (λ o i, JsMap.del o (info_requestOpcode i)) (opcodeToPlugin m) opcodes)
        (pluginWsExecutor m) (pluginRegistry m) m
  end.

(** ** Steps *)

Inductive event : Type :=
| Initialize (chain : string) (c : WebSocketSettings)
| Connection (id : string) (request : option Request) (answers : nat → send_answer)
| Message (s : nat) (now : Z) (raw : bytes)
| Drain (s : nat)
| Close (s : nat)
| Resume (n : nat) (a : handler_answer)
| BlockChange (blockHeight : Z) (hash : option string) (txCount : option Z) (now : Z)
| EpochFinalized (epochNumber : Z) (epochHash : option string)
| MempoolTransaction (txId : string) (transactionType now : Z)
| Broadcast (data : bytes)
| Shutdown
| SetPluginWsExecutor
| SetPluginRegistry (r : PluginOpcodeRegistry.t PluginRoot PluginType)
| RegisterPluginOpcodes (opcodes : list IPluginOpcodeInfo)
| UnregisterPluginOpcodes (plugin : string).

Definition step (e : event) (m : manager) : manager * list output :=
  match e with
  | Initialize chain c => (initialize chain c m, [])
  | Connection id request answers => onConnection id request (mkSocket answers 0 [] None) m
  | Message s now raw => onMessage now s raw m
  | Drain s => (on_client s onDrain m, [])
  | Close s => (onClose s m, [])
  | Resume n a => (resume n a m, [])
  | BlockChange blockHeight hash txCount now => (onBlockChange blockHeight hash txCount now m, [])
  | EpochFinalized epochNumber epochHash => (onEpochFinalized epochNumber epochHash m, [])
  | MempoolTransaction txId transactionType now => (onMempoolTransaction txId transactionType now m, [])
  | Broadcast data => ((broadcast data m).1, [])
  | Shutdown => (shutdown m, [])
  | SetPluginWsExecutor => (set_plugins (pluginOpcodes m) (opcodeToPlugin m) true (pluginRegistry m) m, [])
  | SetPluginRegistry r => (set_plugins (pluginOpcodes m) (opcodeToPlugin m) (pluginWsExecutor m) (Some r) m, [])
  | RegisterPluginOpcodes opcodes => (registerPluginOpcodes opcodes m, [])
  | UnregisterPluginOpcodes plugin => (unregisterPluginOpcodes plugin m, [])
  end.

Definition run (l : list event) (m : manager) : manager := foldl (λ m e, (step e m).1) m l.

End WebSocketServer.
