(* ===== verification/WebSocketFacts.v ===== *)
(** * The clients of the WebSocket server

    What every step keeps: the requests a client has pending are those that wait
    for a handler, its subscriptions are those of the protocol, and it is among
    the clients of the manager as long as it is connected. *)

From S2P Require Import Prelude PluginOpcodes WebSocketProtocol WebSocketClient WebSocketClientFacts WebSocketServer.
Import WebSocketClient.

Section WebSocketFacts.
Context {LA : ApiProtobuf} {LP : PluginProtobuf}.
Abbreviation client := WebSocketClient.t.

(** ** The calls on a client *)

Definition calls (c c' : client) : Prop := ∃ l, (client_run l c).1 = c'.

Lemma calls_step k c : calls c (client_step k c).1.
Proof. exists [k]. cbn. by destruct (client_step k c). Qed.

#[local] Instance calls_refl : Reflexive calls.
Proof. intros c. by exists []. Qed.

#[local] Instance calls_trans : Transitive calls.
Proof.
  intros c c1 c2 [l <-] [l' <-]. exists (l ++ l'). revert c. induction l as [|k l IH]; intros c; [done|]. cbn.
  destruct (client_step k c) as [c' ok]. specialize (IH c'). destruct (client_run (l ++ l') c'), (client_run l c'). cbn in *. by rewrite IH.
Qed.

(** ** What does not concern the requests of a client *)

(** The same client, or the same client closed. *)
Definition same_client (c c' : client) : Prop :=
  state c' = state c ∧ protocolVersion c' = protocolVersion c ∧ clientName c' = clientName c ∧ subscriptions c' = subscriptions c.

Definition minor (c c' : client) : Prop :=
  (clientId c' = clientId c ∧ config c' = config c) ∧
  (pendingRequests c' = pendingRequests c ∧ nextSubscriptionId c' = nextSubscriptionId c) ∧
  (same_client c c' ∨ isActive c' = false ∧ subscriptions c' = []) ∧ calls c c'.

#[local] Instance minor_refl : Reflexive minor.
Proof. intros c. split; [done|]. split; [done|]. split; [left; by repeat split|done]. Qed.

Lemma same_active c c' : same_client c c' → isActive c' = isActive c.
Proof. intros (H & _). unfold isActive. by rewrite H. Qed.

#[local] Instance minor_trans : Transitive minor.
Proof.
  intros c c1 c2 ([Ei Ec] & [Ep En] & H1 & K1) ([Ei' Ec'] & [Ep' En'] & H2 & K2). split; [split; congruence|]. split; [split; congruence|].
  split; [|by etrans].
  destruct H2 as [H2|H2]; [|by right]. destruct H1 as [H1|[Ha Hs]].
  - left. destruct H1 as (?&?&?&?), H2 as (?&?&?&?). split; [congruence|]. split; [congruence|]. split; congruence.
  - right. split; [by rewrite (same_active c1)|]. by destruct H2 as (_ & _ & _ & ->).
Qed.

Lemma minor_send data c : minor c (send data c).1.
Proof.
  assert (∀ w q d, (clientId (set_socket w q d c) = clientId c ∧ config (set_socket w q d c) = config c) ∧
    (pendingRequests (set_socket w q d c) = pendingRequests c ∧ nextSubscriptionId (set_socket w q d c) = nextSubscriptionId c) ∧
    same_client c (set_socket w q d c)) as Hs by (intros w q d; by repeat split).
  pose proof (calls_step (CSend data) c) as Hk. cbn [client_step] in Hk. revert Hk. unfold send, socket_send.
  repeat case_match; simplify_eq/=; intros Hk; try reflexivity; (split; [done|]; split; [done|]; split; [left; by repeat split|done]).
Qed.

Lemma minor_sendError requestId code message c : minor c (sendError requestId code message c).1.
Proof. unfold sendError. case_match; [apply minor_send|reflexivity]. Qed.

Lemma minor_onDrain c : minor c (onDrain c).
Proof.
  pose proof (calls_step CDrain c) as Hk. cbn [client_step fst] in Hk. revert Hk. unfold onDrain. case_match. case_match. intros Hk.
  split; [done|]. split; [done|]. split; [left; by repeat split|done].
Qed.

Lemma minor_markClosed c : minor c (markClosed c).
Proof. split; [done|]. split; [done|]. split; [by right|exact (calls_step CMarkClosed c)]. Qed.

Lemma minor_close code reason c : minor c (close code reason c).
Proof.
  pose proof (calls_step (CClose code reason) c) as Hk. cbn [client_step fst] in Hk. revert Hk. unfold close. case_decide; [reflexivity|]. intros Hk.
  split; [done|]. split; [done|]. split; [by right|done].
Qed.

Lemma minor_closeWithError code c : minor c (closeWithError code c).
Proof. unfold closeWithError. case_decide; [reflexivity|]. etrans; [apply minor_sendError|apply minor_close]. Qed.

Lemma minor_handleError requestId e c : minor c (handleError requestId e c).
Proof. unfold handleError. case_match; [etrans; [apply minor_sendError|apply minor_close]|apply minor_sendError]. Qed.

Lemma minor_handshakeRequired c : minor c (handshakeRequired c).
Proof. unfold handshakeRequired. etrans; [apply minor_sendError|apply minor_close]. Qed.

Lemma minor_handlePing now payload c : minor c (handlePing now payload c).
Proof. unfold handlePing. repeat case_match; try reflexivity. apply minor_send. Qed.

Lemma minor_foldl {A} (f : client → A → client) (l : list A) c : (∀ c a, minor c (f c a)) → minor c (foldl f c l).
Proof. intros Hf. revert c. induction l as [|a l IH]; intros c; [reflexivity|]. cbn. etrans; [apply Hf|apply IH]. Qed.

Lemma minor_notifyClient type n c : minor c (notifyClient type n c).
Proof.
  unfold notifyClient. case_match; [reflexivity|]. apply minor_foldl. intros c' [id s]. repeat case_match; try reflexivity. apply minor_send.
Qed.

(** ** A client that is well formed *)

Definition ready_ok (c : client) : Prop :=
  state c = READY → protocolVersion c = PROTOCOL_VERSION ∧ clientName c ≠ ""%string ∧ (String.length (clientName c) ≤ 64)%nat.

Definition subscriptions_ok (c : client) : Prop :=
  NoDup (subscriptions c).*1 ∧ NoDup (sub_type <$> (subscriptions c).*2) ∧
  Forall (λ id, 1 ≤ id < nextSubscriptionId c) (subscriptions c).*1 ∧ 1 ≤ nextSubscriptionId c ∧
  (length (subscriptions c) ≤ Z.to_nat (maxSubscriptions (config c)))%nat.

(** [n] requests wait. *)
Definition pending_ok (n : nat) (c : client) : Prop :=
  pendingRequests c = Z.of_nat n ∧ (n ≤ Z.to_nat (maxPendingRequests (config c)))%nat.

Definition client_ok (n : nat) (c : client) : Prop := ready_ok c ∧ subscriptions_ok c ∧ pending_ok n c.

Definition closed_ok (c : client) : Prop := isActive c = false → subscriptions c = [].

Lemma ready_active c : state c = READY → isActive c = true.
Proof. unfold isActive. by intros ->. Qed.

Lemma minor_ok n c c' : minor c c' → client_ok n c → client_ok n c'.
Proof.
  intros ([_ Hc] & [Hp Hn] & H & _) (Hr & Hs & Hpd). unfold client_ok, pending_ok, subscriptions_ok in *. rewrite Hc, Hp, Hn.
  destruct H as [(E1 & E2 & E3 & E4)|[Ha E]].
  - unfold ready_ok. by rewrite E1, E2, E3, E4.
  - rewrite E. split; [intros Hst; apply ready_active in Hst; congruence|]. split; [|done].
    split; [constructor|]. split; [constructor|]. split; [constructor|]. split; [apply Hs|cbn; lia].
Qed.

Lemma minor_closed c c' : minor c c' → closed_ok c → closed_ok c'.
Proof.
  intros (_ & _ & [Hs|[_ H]] & _) Hc Ha; [|done]. destruct (Hs) as (_ & _ & _ & ->). apply Hc. by rewrite <- (same_active c c').
Qed.

(** [endRequest] ends one of the requests. *)
Lemma endRequest_ok n c : client_ok (S n) c → client_ok n (endRequest c).
Proof.
  intros (Hr & Hs & Hp & Hm). unfold endRequest. rewrite decide_True by lia. split; [done|]. split; [done|].
  split; cbn; lia.
Qed.

Lemma endRequest_closed c : closed_ok c → closed_ok (endRequest c).
Proof. unfold endRequest. by case_decide. Qed.

Lemma endRequest_id c : clientId (endRequest c) = clientId c.
Proof. unfold endRequest. by case_decide. Qed.

Lemma startRequest_ok now n c :
  client_ok n c → let '(c', ok) := startRequest now c in client_ok (if ok then S n else n) c'.
Proof.
  intros (Hr & Hs & Hp & Hm). unfold startRequest. destruct (isActive c) eqn:Ha; cbn [negb]; [|done].
  case_decide; [done|]. destruct (checkRateLimit now c) as [c1 ok] eqn:Hc.
  assert (∃ l, c1 = set_timestamps l c) as [l ->].
  { unfold checkRateLimit in Hc. case_decide; injection Hc as <- _; [by eexists|]. by eexists. }
  destruct ok; cbn; [|done]. split; [done|]. split; [done|]. split; cbn; lia.
Qed.

Lemma startRequest_same now c :
  let '(c', ok) := startRequest now c in
  clientId c' = clientId c ∧ same_client c c' ∧ (ok = true → isActive c = true ∧ pendingRequests c < maxPendingRequests (config c)).
Proof.
  unfold startRequest. destruct (isActive c) eqn:Ha; cbn [negb]; [|by repeat split]. case_decide; [by repeat split|].
  unfold checkRateLimit. case_decide; cbn; [by repeat split|]. repeat split. lia.
Qed.

Lemma addSubscription_ok now type n c :
  client_ok n c → hasSubscription type c = false → client_ok n (addSubscription now type c).1.
Proof.
  intros (Hr & (Hk & Ht & Hf & Hn & Hl) & Hp) Hh. unfold addSubscription. case_decide; [done|]. split; [done|]. split; [|done].
  unfold subscriptions_ok. cbn. rewrite JsMap.set_new.
  2:{ destruct (JsMap.get (subscriptions c) (nextSubscriptionId c)) eqn:Hg; [|done]. exfalso.
      apply JsMap.get_elem_of in Hg. rewrite Forall_forall in Hf. specialize (Hf (nextSubscriptionId c)).
      assert (nextSubscriptionId c ∈ (subscriptions c).*1) as Hi by (apply list_elem_of_fmap; eexists (_, _); split; [done|exact Hg]). apply Hf in Hi. lia. }
  rewrite !fmap_app. cbn. split.
  { apply NoDup_app. split; [done|]. split; [|apply NoDup_singleton]. intros x Hx ->%list_elem_of_singleton. rewrite Forall_forall in Hf. apply Hf in Hx. lia. }
  split.
  { apply NoDup_app. split; [done|]. split; [|apply NoDup_singleton]. intros x Hx ->%list_elem_of_singleton.
    apply list_elem_of_fmap in Hx as (s & -> & [[id s'] [-> Hi]]%list_elem_of_fmap). cbn in Hh.
    assert (hasSubscription (sub_type s') c = true); [|congruence]. apply existsb_exists. exists (id, s').
    split; [by apply list_elem_of_In|]. by apply bool_decide_eq_true. }
  split.
  { apply Forall_app. split; [|repeat constructor; lia]. eapply Forall_impl; [exact Hf|]. cbn. lia. }
  split; [lia|]. rewrite length_app. cbn. lia.
Qed.

Lemma sublist_del {V} (m : list (Z * V)) k : sublist (JsMap.del m k) m.
Proof. induction m as [|[k' v] m IH]; cbn; [done|]. case_decide; [by apply sublist_cons|by apply sublist_skip]. Qed.

Lemma removeSubscription_ok id n c : client_ok n c → client_ok n (removeSubscription id c).1.
Proof.
  intros (Hr & (Hk & Ht & Hf & Hn & Hl) & Hp). split; [done|]. split; [|done]. pose proof (sublist_del (subscriptions c) id) as Hs.
  unfold subscriptions_ok, removeSubscription. cbn. split; [eapply sublist_NoDup; [exact Hk|by apply fmap_sublist]|].
  split; [eapply sublist_NoDup; [exact Ht|by do 2 apply fmap_sublist]|].
  split; [|split; [done|apply sublist_length in Hs; lia]].
  rewrite Forall_forall in *. intros x Hx. apply Hf. eapply elem_of_sublist; [exact Hx|]. by apply fmap_sublist.
Qed.

(** A client after a call: as good as before, and not active again. *)
Definition keeps (n n' : nat) (c c' : client) : Prop :=
  (clientId c' = clientId c ∧ calls c c') ∧ (isActive c' = true → isActive c = true) ∧ (client_ok n c → client_ok n' c') ∧ (closed_ok c → closed_ok c').

Lemma keeps_trans n n1 n2 c c1 c2 : keeps n n1 c c1 → keeps n1 n2 c1 c2 → keeps n n2 c c2.
Proof. intros ([E1 R1] & A1 & K1 & L1) ([E2 R2] & A2 & K2 & L2). split; [split; [congruence|by etrans]|]. split; [auto|]. split; auto. Qed.

Lemma keeps_minor n c c' : minor c c' → keeps n n c c'.
Proof.
  intros H. split; [split; apply H|]. split; [|split; [by apply minor_ok|by apply minor_closed]].
  destruct H as (_ & _ & [Hs|[H _]] & _); [by rewrite (same_active c c')|congruence].
Qed.

Lemma keeps_endRequest n c : keeps (S n) n c (endRequest c).
Proof.
  split; [split; [apply endRequest_id|exact (calls_step CEnd c)]|]. split; [|split; [apply endRequest_ok|apply endRequest_closed]]. unfold endRequest. by case_decide.
Qed.

Lemma keeps_startRequest now n c : let '(c', ok) := startRequest now c in keeps n (if ok then S n else n) c c'.
Proof.
  pose proof (startRequest_ok now n c) as Ho. pose proof (startRequest_same now c) as Hs.
  pose proof (calls_step (CStart now) c) as Hk. cbn [client_step] in Hk. destruct (startRequest now c) as [c' ok].
  destruct Hs as (Hi & Hs & _). split; [done|]. split; [by rewrite (same_active c c')|]. split; [done|].
  intros Hc Ha. destruct (Hs) as (_ & _ & _ & ->). apply Hc. by rewrite <- (same_active c c').
Qed.

Lemma keeps_end_minor n c c' : minor c c' → keeps (S n) n c (endRequest c').
Proof. intros H. eapply keeps_trans; [by apply keeps_minor|apply keeps_endRequest]. Qed.

Lemma keeps_handshake n payload m c : keeps n n c (handleHandshake payload m c).
Proof.
  unfold handleHandshake. case_match; [apply keeps_minor, minor_sendError|]. case_decide; [apply keeps_minor, minor_closeWithError|].
  case_match; [|apply keeps_minor, minor_closeWithError]. case_decide as Hv; [apply keeps_minor; etrans; [apply minor_sendError|apply minor_close]|].
  case_decide as Hn; [apply keeps_minor; etrans; [apply minor_sendError|apply minor_close]|].
  unfold completeHandshake. case_decide as Hst; [|apply keeps_minor, minor_closeWithError].
  match goal with |- keeps _ _ _ (match _ with Some _ => _ | None => closeWithError _ ?c1 end) => apply (keeps_trans n n n _ c1) end.
  - split; [split; [done|]|].
    { match goal with |- calls _ (set_state READY (set_info (hs_protocolVersion ?h) _ _ _)) => pose proof (calls_step (CHandshake h) c) as Hk end.
      cbn [client_step] in Hk. unfold completeHandshake in Hk. by rewrite decide_True in Hk. }
    split; [intros _; unfold isActive; by rewrite Hst|]. split; [|done].
    intros (_ & Hs & Hp). split; [|done]. intros _. cbn. unfold MIN_PROTOCOL_VERSION, MAX_PROTOCOL_VERSION, PROTOCOL_VERSION in *.
    split; [lia|]. split; [tauto|lia].
  - apply keeps_minor. case_match; [apply minor_send|apply minor_closeWithError].
Qed.

Lemma keeps_respond n opcode requestId payload c : keeps (S n) n c (respond opcode requestId payload c).
Proof. apply keeps_end_minor. case_match; [apply minor_send|apply minor_handleError]. Qed.

Lemma keeps_finish n requestId call a c c' : finish requestId call a c = Some c' → keeps (S n) n c c'.
Proof.
  unfold finish. intros H. repeat case_match; simplify_eq/=;
    first [apply keeps_respond | apply keeps_end_minor, minor_handleError | apply keeps_end_minor, minor_sendError | apply keeps_endRequest].
Qed.

(** ** The manager *)

Definition count (s : nat) (w : list waiting_request) : nat := length (filter (λ x, wr_socket x = s) w).

(** [ids]: those that were drawn for the clients; [F]: they are distinct. *)
Record inv (F : Prop) (ids : list string) (m : manager) : Prop := {
  inv_client s c : client_at s m = Some c → client_ok (count s (waiting m)) c;
  inv_waiting w : w ∈ waiting m → is_Some (client_at (wr_socket w) m);
  inv_clients id s : JsMap.get (clients m) id = Some s → ∃ c, client_at s m = Some c ∧ clientId c = id;
  inv_wf : JsMap.wf (clients m);
  inv_calls s c : client_at s m = Some c → ∃ id address cfg answers, calls (new id address cfg (mkSocket answers 0 [] None)) c;
  inv_known s c : client_at s m = Some c → clientId c ∈ ids;
  inv_ids : F → ∀ s s' c c', client_at s m = Some c → client_at s' m = Some c' → clientId c = clientId c' → s = s';
  inv_closed : F → ∀ s c, client_at s m = Some c → closed_ok c;
  inv_active : F → ∀ s c, client_at s m = Some c → isActive c = true → JsMap.get (clients m) (clientId c) = Some s
}.

Lemma client_at_insert s c s' m cl w :
  is_Some (client_at s m) →
  client_at s' (set_sockets (<[s := Some c]> (sockets m)) cl w m) = if decide (s = s') then Some c else client_at s' m.
Proof.
  intros [c0 H]. unfold client_at in *. cbn. case_decide as Hs.
  - subst. rewrite list_lookup_insert_eq; [done|]. destruct (sockets m !! s') eqn:Hl; [|done]. by apply lookup_lt_Some in Hl.
  - by rewrite list_lookup_insert_ne.
Qed.

(** One client changes. *)
Lemma inv_update F ids s c c' cl w m :
  inv F ids m → client_at s m = Some c →
  (cl = clients m ∨ cl = JsMap.del (clients m) (clientId c) ∧ isActive c' = false) →
  (∀ s', s' ≠ s → count s' w = count s' (waiting m)) → (∀ x, x ∈ w → wr_socket x = s ∨ x ∈ waiting m) →
  clientId c' = clientId c ∧ calls c c' → (isActive c' = true → isActive c = true) → client_ok (count s w) c' → (F → closed_ok c') →
  inv F ids (set_sockets (<[s := Some c']> (sockets m)) cl w m).
Proof.
  intros Hi Hs Hcl Hw Hwi [Hid Hk] Ha Ho Hc.
  assert (∀ s' x, client_at s' (set_sockets (<[s := Some c']> (sockets m)) cl w m) = Some x →
    s' = s ∧ x = c' ∨ s' ≠ s ∧ client_at s' m = Some x) as Hat.
  { intros s' x. rewrite client_at_insert by done. case_decide; [|by right]. subst. intros [= ->]. by left. }
  assert (∀ s' x, client_at s' (set_sockets (<[s := Some c']> (sockets m)) cl w m) = Some x →
    ∃ x', client_at s' m = Some x' ∧ clientId x' = clientId x) as Hat'.
  { intros s' x [[-> ->]|[_ H]]%Hat; [by exists c|by exists x]. }
  split.
  - intros s' x [[-> ->]|[Hn Hx]]%Hat; [done|]. cbn [waiting set_sockets]. rewrite Hw by done. by apply (inv_client F ids m Hi).
  - intros x Hx. rewrite client_at_insert by done. case_decide; [done|]. destruct (Hwi x Hx) as [|Hin]; [done|]. by apply (inv_waiting F ids m Hi).
  - intros id s' Hg. cbn in Hg. assert (JsMap.get (clients m) id = Some s') as Hg'.
    { destruct Hcl as [->|[-> _]]; [done|]. destruct (decide (clientId c = id)) as [<-|]; [by rewrite JsMap.get_del_eq in Hg|by rewrite JsMap.get_del_ne in Hg]. }
    destruct (inv_clients F ids m Hi id s' Hg') as (x & Hx & <-). rewrite client_at_insert by done. case_decide; [|by exists x].
    subst. exists c'. split; [done|]. by simplify_eq.
  - cbn. destruct Hcl as [->|[-> _]]; [apply Hi|]. unfold JsMap.wf. rewrite JsMap.keys_del. apply NoDup_filter, Hi.
  - intros s' x [[-> ->]|[_ Hx]]%Hat; [|by apply (inv_calls F ids m Hi s')].
    destruct (inv_calls F ids m Hi s c Hs) as (id & address & cfg & answers & Hn). exists id, address, cfg, answers. by etrans.
  - intros s' x (x' & Hx & <-)%Hat'. by apply (inv_known F ids m Hi s').
  - intros HF s1 s2 x y (x' & Hx & <-)%Hat' (y' & Hy & <-)%Hat'. by apply (inv_ids F ids m Hi HF).
  - intros HF s' x [[-> ->]|[_ Hx]]%Hat; [auto|]. by apply (inv_closed F ids m Hi HF s').
  - intros HF s' x Hx Hax. cbn. assert (JsMap.get (clients m) (clientId x) = Some s') as Hg.
    { apply Hat in Hx as [[-> ->]|[_ Hx]]; [rewrite Hid|]; apply (inv_active F ids m Hi HF); auto. }
    destruct Hcl as [->|[-> Hna]]; [done|]. rewrite JsMap.get_del_ne; [done|]. intros E. apply Hat in Hx as [[-> ->]|[Hn Hx]]; [congruence|].
    apply Hn. by apply (inv_ids F ids m Hi HF s' s x c).
Qed.

Lemma inv_set_client F ids s c c' m :
  inv F ids m → client_at s m = Some c → keeps (count s (waiting m)) (count s (waiting m)) c c' → inv F ids (set_client s c' m).
Proof.
  intros Hi Hs (Hid & Ha & Ho & Hc). apply (inv_update F ids s c); auto; [by apply Ho, (inv_client F ids m)|]. intros HF. by apply Hc, (inv_closed F ids m Hi HF s).
Qed.

Lemma inv_on_client F ids s f m : (∀ n c, keeps n n c (f c)) → inv F ids m → inv F ids (on_client s f m).
Proof. intros Hf Hi. unfold on_client. destruct (client_at s m) as [c|] eqn:Hs; [|done]. by apply (inv_set_client F ids s c). Qed.

Lemma inv_for_clients F ids f m : (∀ n c, keeps n n c (f c)) → inv F ids m → inv F ids (for_clients f m).
Proof.
  intros Hf. unfold for_clients. generalize (JsMap.values (clients m)). intros l. revert m.
  induction l as [|s l IH]; intros m Hi; [done|]. cbn. apply IH. by apply inv_on_client.
Qed.

(** The state of the plugins and the counts are elsewhere. *)
Lemma inv_other F ids m m' : sockets m' = sockets m → clients m' = clients m → waiting m' = waiting m → inv F ids m → inv F ids m'.
Proof.
  intros E1 E2 E3 [H1 H2 H3 H4 H8 H0 H5 H6 H7]. assert (∀ s, client_at s m' = client_at s m) as E by (intros s; unfold client_at; by rewrite E1).
  split.
  - intros s c. rewrite E, E3. apply H1.
  - intros w. rewrite E, E3. apply H2.
  - intros id s. rewrite E2. intros Hg. setoid_rewrite E. by apply H3.
  - by rewrite E2.
  - intros s c. rewrite E. apply H8.
  - intros s c. rewrite E. apply H0.
  - intros HF s s' c c'. rewrite !E. by apply H5.
  - intros HF s c. rewrite E. by apply H6.
  - intros HF s c. rewrite E, E2. by apply H7.
Qed.

(** ** Requests *)

Lemma waiting_count_app s w w' : count s (w ++ w') = (count s w + count s w')%nat.
Proof. unfold count. by rewrite filter_app, length_app. Qed.

Lemma waiting_count_delete s w n x : w !! n = Some x → count s w = ((if decide (wr_socket x = s) then 1 else 0) + count s (delete n w))%nat.
Proof.
  intros Hx. unfold count. rewrite (filter_Permutation (λ x, wr_socket x = s) w (x :: delete n w)) by (by apply delete_Permutation).
  rewrite filter_cons. by case_decide.
Qed.

Lemma inv_add_waiting F ids s c c' w m :
  inv F ids m → client_at s m = Some c → wr_socket w = s → keeps (count s (waiting m)) (S (count s (waiting m))) c c' →
  inv F ids (add_waiting w (set_client s c' m)).
Proof.
  intros Hi Hs Hw (Hid & Ha & Ho & Hc). change (inv F ids (set_sockets (<[s := Some c']> (sockets m)) (clients m) (waiting m ++ [w]) m)).
  apply (inv_update F ids s c); [done|done|by left| | |done|done| |].
  - intros s' Hn. rewrite waiting_count_app. unfold count at 2. rewrite filter_cons, decide_False by congruence. cbn. lia.
  - intros x [Hx|Hx%list_elem_of_singleton]%elem_of_app; [by right|left; by subst].
  - rewrite waiting_count_app. unfold count at 2. rewrite filter_cons, decide_True by done. cbn. rewrite Nat.add_1_r. by apply Ho, (inv_client F ids m).
  - intros HF. by apply Hc, (inv_closed F ids m Hi HF s).
Qed.

(** A handler of subscriptions works on the client that has the id. *)
Lemma callHandler_spec now opcode r request requestId id m m' res :
  callHandler now opcode r request requestId id m = Some (m', res) →
  m' = m ∨ ∃ s c c' call,
    res = Ok call ∧ getClient id m = Some (s, c) ∧ m' = set_client s c' m ∧ (clientId c' = clientId c ∧ calls c c') ∧ isActive c' = isActive c ∧
    (∀ n, client_ok n c → client_ok n c') ∧ (closed_ok c → isActive c = true → closed_ok c').
Proof.
  unfold callHandler. destruct (handler_of opcode) as [[type| |]|]; [| | |done].
  - intros [= <- <-]. unfold subscribe. destruct (getClient id m) as [[s c]|]; [|by left]. destruct (hasSubscription type c) eqn:Hh; [by left|].
    pose proof (calls_step (CSubscribe now type) c) as Hk. cbn [client_step] in Hk. pose proof (λ n, addSubscription_ok now type n c) as Ho. destruct (addSubscription now type c) as [c' [sid|]] eqn:Ha; [|by left].
    right. exists s, c, c', (Replying r (SubscriptionCreated sid type)). unfold addSubscription in Ha, Hk. case_decide; [done|]. injection Ha as <- <-.
    cbn in Hk.
    split; [done|]. split; [done|]. split; [done|]. split; [done|]. split; [done|]. split; [intros n Hc; by apply Ho|].
    intros _ Hac Hna. unfold isActive in *. cbn in Hna. congruence.
  - destruct request as [sid|]; [|intros [= <- <-]; by left]. intros [= <- <-]. unfold unsubscribe. destruct (getClient id m) as [[s c]|]; [|by left].
    destruct (getSubscription sid c); [|by left]. right. exists s, c. do 2 eexists. cbn. split; [done|]. split; [done|]. split; [done|].
    split; [split; [done|exact (calls_step (CUnsubscribe sid) c)]|]. split; [done|]. split; [intros n Hc; by apply removeSubscription_ok|]. intros Hc _ Hna. cbn. by rewrite Hc.
  - destruct request; intros [= <- <-]; by left.
Qed.

Lemma getClient_at id m s c : getClient id m = Some (s, c) → JsMap.get (clients m) id = Some s ∧ client_at s m = Some c.
Proof. unfold getClient. destruct (JsMap.get (clients m) id) as [s'|]; cbn; [|done]. destruct (client_at s' m) eqn:Hc; cbn; [|done]. intros. by simplify_eq. Qed.

Lemma set_client_twice s c c' m : set_client s c (set_client s c' m) = set_client s c m.
Proof. unfold set_client, set_sockets. cbn. by rewrite list_insert_insert_eq. Qed.

Lemma client_at_set s c m : is_Some (client_at s m) → client_at s (set_client s c m) = Some c.
Proof. intros H. unfold set_client. rewrite client_at_insert by done. by rewrite decide_True. Qed.

Lemma inv_executeRequest F ids now s opcode r request requestId c m :
  inv F ids m → client_at s m = Some c → inv F ids (executeRequest now s opcode r request requestId c m).1.
Proof.
  intros Hi Hs. unfold executeRequest. pose proof (keeps_startRequest now (count s (waiting m)) c) as Hk. pose proof (startRequest_same now c) as Hsame.
  destruct (startRequest now c) as [c1 ok]. destruct Hsame as (Hid & Hst & Hact). destruct ok.
  2:{ apply (inv_set_client F ids s c); [done|done|]. eapply keeps_trans; [exact Hk|]. apply keeps_minor, minor_sendError. }
  destruct (callHandler _ _ _ _ _ _ _) as [[m2 res]|] eqn:Hc.
  2:{ apply (inv_set_client F ids s c); [done|done|]. eapply keeps_trans; [exact Hk|]. apply keeps_end_minor, minor_sendError. }
  apply callHandler_spec in Hc as [->|(s' & c' & c'' & call & -> & Hg & -> & Hid' & Ha' & Ho' & Hc')].
  - destruct res as [call|e]; cbn; [by apply (inv_add_waiting F ids s c)|]. rewrite client_at_set by done. rewrite set_client_twice.
    apply (inv_set_client F ids s c); [done|done|]. eapply keeps_trans; [exact Hk|]. apply keeps_end_minor, minor_handleError.
  - cbn. set (w := mkWaiting s requestId call). assert (inv F ids (add_waiting w (set_client s c1 m))) as Hi1 by (by apply (inv_add_waiting F ids s c)).
    change (inv F ids (set_client s' c'' (add_waiting w (set_client s c1 m)))). apply getClient_at in Hg as [Hg Hs'].
    apply (inv_update F ids s' c'); [done|done|by left|done|by right|done|by rewrite Ha'|by apply Ho', (inv_client F ids _ Hi1)|].
    intros HF. apply Hc'; [by apply (inv_closed F ids _ Hi1 HF s')|].
    destruct (inv_clients F ids _ Hi1 _ _ Hg) as (x & Hx & Hxid). assert (client_at s (add_waiting w (set_client s c1 m)) = Some c1) as Hs1 by (by apply client_at_set).
    assert (s' = s) as -> by (eapply (inv_ids F ids _ Hi1 HF); [exact Hx|exact Hs1|done]).
    assert (c' = c1) as -> by (cbn in Hs'; unfold client_at in *; cbn in *; congruence).
    rewrite (same_active c) by done. by apply Hact.
Qed.

Lemma inv_startPlugin F ids now s c m call requestId code message (o : list output) :
  inv F ids m → client_at s m = Some c →
  inv F ids (match startRequest now c with
         | (c, false) => (set_client s (sendError requestId code message c).1 m, [])
         | (c, true) => (add_waiting (mkWaiting s requestId call) (set_client s c m), o)
         end).1.
Proof.
  intros Hi Hs. pose proof (keeps_startRequest now (count s (waiting m)) c) as Hk. destruct (startRequest now c) as [c1 [|]].
  - by apply (inv_add_waiting F ids s c).
  - apply (inv_set_client F ids s c); [done|done|]. eapply keeps_trans; [exact Hk|]. apply keeps_minor, minor_sendError.
Qed.

Lemma inv_processMessage F ids now s raw c m : inv F ids m → client_at s m = Some c → inv F ids (processMessage now s raw c m).1.
Proof.
  intros Hi Hs. assert (∀ c', minor c c' → inv F ids (set_client s c' m)) as Hm by (intros c' Hc; apply (inv_set_client F ids s c); [done|done|by apply keeps_minor]).
  unfold processMessage. destruct (parseWebSocketMessage raw) as [[opcode payload]|]; [|apply Hm, minor_closeWithError]. destruct (_ && _).
  - unfold handlePluginOpcode. destruct (isHandshakeCompleted c); cbn [negb]; [|apply Hm, minor_handshakeRequired].
    destruct (pluginRegistry m) as [registry|].
    + unfold handlePluginOpcodeLocal. destruct (PluginOpcodeRegistry.getHandler _ _ registry opcode) as [h|]; [|apply Hm, minor_closeWithError].
      case_decide; [apply Hm, minor_sendError|]. destruct (decode _ _) as [request|]; [|apply Hm, minor_sendError].
      pose proof (inv_startPlugin F ids now s c m (PluginHandling h) (read_requestId payload)) as Hst. specialize (Hst ProtocolError.TOO_MANY_PENDING_REQUESTS None []).
      specialize (Hst Hi Hs). by destruct (startRequest now c) as [c1 [|]].
    + unfold handlePluginOpcodeCrossThread. destruct (JsMap.has _ _); cbn [negb]; [|apply Hm, minor_closeWithError].
      case_decide; [apply Hm, minor_sendError|]. pose proof (inv_startPlugin F ids now s c m (executePluginHandler opcode m) (read_requestId payload)) as Hst.
      specialize (Hst ProtocolError.TOO_MANY_PENDING_REQUESTS None []). specialize (Hst Hi Hs). by destruct (startRequest now c) as [c1 [|]].
  - destruct (getRequestRegistration opcode) as [r|]; [|apply Hm, minor_closeWithError]. case_match; [apply Hm, minor_handshakeRequired|].
    case_decide; [apply Hm, minor_handlePing|]. case_decide; [apply (inv_set_client F ids s c); [done|done|apply keeps_handshake]|].
    case_decide; [apply Hm, minor_sendError|]. case_match; [|apply Hm, minor_sendError]. by apply inv_executeRequest.
Qed.

Lemma inv_resume F ids n a m : inv F ids m → inv F ids (resume n a m).
Proof.
  intros Hi. unfold resume. destruct (waiting m !! n) as [w|] eqn:Hw; [|done]. destruct (client_at (wr_socket w) m) as [c|] eqn:Hs; cbn; [|done].
  destruct (finish (wr_requestId w) (wr_call w) a c) as [c'|] eqn:Hf; [|done].
  assert (∀ s, count s (waiting m) = ((if decide (wr_socket w = s) then 1 else 0) + count s (delete n (waiting m)))%nat) as Hn by (intros s; by apply waiting_count_delete).
  pose proof (Hn (wr_socket w)) as Hns. rewrite decide_True in Hns by done.
  apply (keeps_finish (count (wr_socket w) (delete n (waiting m)))) in Hf as (Hid & Ha & Ho & Hc).
  change (inv F ids (set_sockets (<[wr_socket w := Some c']> (sockets m)) (clients m) (delete n (waiting m)) m)).
  apply (inv_update F ids (wr_socket w) c); [done|done|by left| | |done|done| |].
  - intros s' Hne. by rewrite Hn, decide_False.
  - intros x Hx. right. by apply list_elem_of_delete_inv in Hx.
  - apply Ho. cbn in Hns. rewrite <- Hns. by apply (inv_client F ids m).
  - intros HF. by apply Hc, (inv_closed F ids m Hi HF (wr_socket w)).
Qed.

End WebSocketFacts.
