(* ===== verification/WebSocketSafety.v ===== *)
(** * The safety of the WebSocket server

    Every step of the server keeps what WebSocketFacts.v states of its clients;
    what holds of every client, of every request and of every notification. *)

From S2P Require Import Prelude PluginOpcodes WebSocketProtocol WebSocketClient WebSocketClientFacts WebSocketServer WebSocketFacts.
Import WebSocketClient.

Section WebSocketSafety.
Context {LA : ApiProtobuf} {LP : PluginProtobuf}.
Abbreviation client := WebSocketClient.t.

(** ** Loops over the clients *)

Lemma values_NoDup F ids m : inv F ids m → NoDup (JsMap.values (clients m)).
Proof.
  intros Hi. pose proof (inv_wf F ids m Hi) as Hw. assert (∀ e e', e ∈ clients m → e' ∈ clients m → e.2 = e'.2 → e = e') as Hu.
  { intros [id s] [id' s'] H1 H2 Es. cbn in Es. subst s'. apply JsMap.elem_of_get in H1, H2; [|done..].
    apply (inv_clients F ids m Hi) in H1 as (c & Hc & <-). apply (inv_clients F ids m Hi) in H2 as (c' & Hc' & <-). by simplify_eq. }
  unfold JsMap.values, JsMap.wf, JsMap.keys in *. apply NoDup_fmap_2_strong; [|by apply NoDup_fmap_1 in Hw]. naive_solver.
Qed.

Lemma client_at_on s f s' m : client_at s' (on_client s f m) = if decide (s = s') then f <$> client_at s' m else client_at s' m.
Proof.
  unfold on_client. destruct (client_at s m) as [c|] eqn:Hs.
  - unfold set_client. rewrite client_at_insert by done. case_decide; [|done]. subst. by rewrite Hs.
  - case_decide; [|done]. subst. by rewrite Hs.
Qed.

Lemma for_clients_same f m : clients (for_clients f m) = clients m ∧ waiting (for_clients f m) = waiting m.
Proof.
  unfold for_clients. generalize (JsMap.values (clients m)). intros l. revert m.
  induction l as [|s l IH]; intros m; [done|]. cbn. destruct (IH (on_client s f m)) as [-> ->]. unfold on_client. by case_match.
Qed.

(** Every client of the manager is visited once. *)
Lemma client_at_for F ids f m s :
  inv F ids m → client_at s (for_clients f m) = if decide (s ∈ JsMap.values (clients m)) then f <$> client_at s m else client_at s m.
Proof.
  intros Hi. apply values_NoDup in Hi. unfold for_clients. revert Hi. generalize (JsMap.values (clients m)). intros l. revert m.
  induction l as [|s' l IH]; intros m Hn; [done|]. apply NoDup_cons in Hn as [Hs' Hn]. cbn. rewrite IH by done. rewrite client_at_on.
  destruct (decide (s ∈ l)) as [Hs|Hs]; destruct (decide (s' = s)) as [He|He]; try (subst; done).
  - rewrite decide_True by (by right). done.
  - rewrite decide_True; [done|]. subst. by left.
  - rewrite decide_False; [done|]. intros [?|?]%elem_of_cons; by subst.
Qed.

Lemma in_values m id s : JsMap.get (clients m) id = Some s → s ∈ JsMap.values (clients m).
Proof. intros H%JsMap.get_elem_of. unfold JsMap.values. apply list_elem_of_fmap. by exists (id, s). Qed.

(** ** The steps *)

Lemma client_at_snoc m x s cl w :
  client_at s (set_sockets (sockets m ++ [x]) cl w m) = if decide (s = length (sockets m)) then x else client_at s m.
Proof.
  unfold client_at. cbn. case_decide as Hs.
  - subst. by rewrite list_lookup_middle.
  - destruct (decide (s < length (sockets m))%nat); [by rewrite lookup_app_l by lia|].
    rewrite lookup_ge_None_2 by (rewrite length_app; cbn; lia). by rewrite lookup_ge_None_2 by lia.
Qed.

Lemma client_at_old m s c : client_at s m = Some c → s ≠ length (sockets m).
Proof. unfold client_at. intros H ->. by rewrite lookup_ge_None_2 in H. Qed.

Lemma inv_weaken (F F' : Prop) ids ids' m : (F' → F) → (∀ i, i ∈ ids → i ∈ ids') → inv F ids m → inv F' ids' m.
Proof. intros HF Hi []. split; naive_solver. Qed.

Lemma inv_refused F ids m : inv F ids m → inv F ids (set_sockets (sockets m ++ [None]) (clients m) (waiting m) m).
Proof.
  intros Hi. assert (∀ s, client_at s (set_sockets (sockets m ++ [None]) (clients m) (waiting m) m) = client_at s m) as E.
  { intros s. rewrite client_at_snoc. case_decide; [|done]. destruct (client_at s m) eqn:Hs; [|done]. by apply client_at_old in Hs. }
  destruct Hi as [H1 H2 H3 H4 H8 H0 H5 H6 H7]. split.
  - intros s c. rewrite E. apply H1.
  - intros w. rewrite E. apply H2.
  - intros id s Hg. setoid_rewrite E. by apply H3.
  - done.
  - intros s c. rewrite E. apply H8.
  - intros s c. rewrite E. apply H0.
  - intros HF s s' c c'. rewrite !E. by apply H5.
  - intros HF s c. rewrite E. by apply H6.
  - intros HF s c. rewrite E. by apply H7.
Qed.

Lemma new_ok id address cfg w : client_ok 0 (new id address cfg w).
Proof.
  split; [done|]. split; [|split; [done|lia]]. split; [constructor|]. split; [constructor|]. split; [constructor|]. split; [done|cbn; lia].
Qed.

Lemma inv_accepted (F : Prop) ids m id address cfg answers :
  let w := mkSocket answers 0 [] None in
  (F → id ∉ ids) → inv F ids m →
  inv F (ids ++ [id]) (set_sockets (sockets m ++ [Some (new id address cfg w)]) (JsMap.set (clients m) id (length (sockets m))) (waiting m) m).
Proof.
  intros w Hid Hi. set (c := new id address cfg w). set (s := length (sockets m)).
  assert (∀ s' x, client_at s' (set_sockets (sockets m ++ [Some c]) (JsMap.set (clients m) id s) (waiting m) m) = Some x →
    s' = s ∧ x = c ∨ client_at s' m = Some x) as Hat by (intros s' x; rewrite client_at_snoc; case_decide; [intros [= <-]; by left|by right]).
  assert (∀ s' x, client_at s' m = Some x → client_at s' (set_sockets (sockets m ++ [Some c]) (JsMap.set (clients m) id s) (waiting m) m) = Some x) as Hold.
  { intros s' x Hx. rewrite client_at_snoc. case_decide; [|done]. by apply client_at_old in Hx. }
  assert (∀ s' x, F → client_at s' m = Some x → clientId x ≠ id) as Hne.
  { intros s' x HF Hx <-. apply Hid; [done|]. by apply (inv_known F ids m Hi s'). }
  split.
  - intros s' x [[-> ->]|Hx]%Hat; [|by apply (inv_client F ids m Hi)]. assert (count s (waiting m) = 0%nat) as E.
    { unfold count. destruct (filter _ _) as [|y l] eqn:Hf; [done|]. assert (y ∈ filter (λ x, wr_socket x = s) (waiting m)) as Hy by (rewrite Hf; by left).
      apply list_elem_of_filter in Hy as [Hs Hy]. apply (inv_waiting F ids m Hi) in Hy as [c' Hc']. rewrite Hs in Hc'. by apply client_at_old in Hc'. }
    cbn [waiting set_sockets]. rewrite E. apply new_ok.
  - intros y [c' Hc']%(inv_waiting F ids m Hi). exists c'. by apply Hold.
  - intros i s' Hg. cbn [clients set_sockets] in Hg. rewrite JsMap.get_set in Hg. case_decide as Hi'.
    + injection Hg as <-. exists c. split; [|done]. rewrite client_at_snoc. by rewrite decide_True.
    + apply (inv_clients F ids m Hi) in Hg as (x & Hx & <-). exists x. split; [by apply Hold|done].
  - cbn. unfold JsMap.wf. rewrite JsMap.keys_set. destruct (JsMap.has (clients m) id) eqn:Hh; [apply Hi|].
    apply NoDup_app. split; [apply Hi|]. split; [|apply NoDup_singleton]. intros x Hx ->%list_elem_of_singleton. apply JsMap.has_spec in Hx. congruence.
  - intros s' x [[-> ->]|Hx]%Hat; [by exists id, address, cfg, answers, []|by apply (inv_calls F ids m Hi s')].
  - intros s' x [[-> ->]|Hx]%Hat; apply elem_of_app; [right; by left|left; by apply (inv_known F ids m Hi s')].
  - intros HF s1 s2 x y Hx%Hat Hy%Hat Hxy. destruct Hx as [[-> ->]|Hx], Hy as [[-> ->]|Hy]; [done| | |by apply (inv_ids F ids m Hi HF s1 s2 x y)].
    + by apply Hne in Hy.
    + by apply Hne in Hx.
  - intros HF s' x [[-> ->]|Hx]%Hat; [done|by apply (inv_closed F ids m Hi HF s')].
  - intros HF s' x Hx Ha. cbn. apply Hat in Hx as [[-> ->]|Hx]; [by rewrite JsMap.get_set_eq|].
    rewrite JsMap.get_set_ne by (by apply not_eq_sym, (Hne s')). by apply (inv_active F ids m Hi HF).
Qed.

Lemma inv_shutdown F ids m : inv F ids m → inv F ids (shutdown m).
Proof.
  intros Hi. unfold shutdown. set (m' := for_clients _ m). assert (inv F ids m') as Hi' by (apply inv_for_clients; [|done]; intros; apply keeps_minor, minor_close).
  destruct (Hi') as [H1 H2 H3 H4 H8 H0 H5 H6 H7]. split; [exact H1|exact H2|done|constructor|exact H8|exact H0|exact H5|exact H6|].
  intros HF s c Hs Ha. exfalso. change (client_at s m' = Some c) in Hs. pose proof (H7 HF s c Hs Ha) as Hg.
  unfold m' in Hs. rewrite (client_at_for F ids) in Hs by done. rewrite decide_True in Hs.
  - destruct (client_at s m) as [c0|] eqn:Hs0; [|done]. injection Hs as <-. unfold close in Ha. case_decide as Hst; [|done].
    unfold isActive in Ha. destruct Hst as [Hst|Hst]; rewrite Hst in Ha; done.
  - apply (in_values m (clientId c)). unfold m' in Hg. by rewrite (proj1 (for_clients_same _ m)) in Hg.
Qed.

Lemma inv_broadcast F ids data m : inv F ids m → inv F ids (broadcast data m).1.
Proof.
  unfold broadcast. generalize (JsMap.values (clients m)) 0%nat. intros l. revert m. induction l as [|s l IH]; intros m n Hi; [done|]. cbn.
  destruct (client_at s m) as [c|] eqn:Hs; [|by apply IH]. case_match; [|by apply IH].
  pose proof (minor_send data c) as Hm. destruct (send data c) as [c' ok]. apply IH. apply (inv_set_client F ids s c); [done|done|by apply keeps_minor].
Qed.

(** The id a connection draws. *)
Definition drawn (e : event) : list string := match e with Connection id _ _ => [id] | _ => [] end.

Lemma inv_step (F : Prop) ids e m : (F → NoDup (ids ++ drawn e)) → inv F ids m → inv F (ids ++ drawn e) (step e m).1.
Proof.
  intros Hn Hi. destruct e; cbn [step drawn fst]; rewrite ?app_nil_r.
  - by apply (inv_other F ids m).
  - assert (F → id ∉ ids) as Hid.
    { intros HF Hin. apply Hn, NoDup_app in HF as (_ & Hd & _). apply (Hd id Hin). by left. }
    assert (inv F (ids ++ [id]) m) as Hi' by (apply (inv_weaken F F ids); [done|intros; apply elem_of_app; by left|done]).
    unfold onConnection. case_match; [by apply inv_refused|]. case_decide; [by apply inv_refused|].
    eapply inv_other; [..|apply (inv_accepted F ids m id); [exact Hid|exact Hi]]; done.
  - unfold onMessage. destruct (client_at s m) as [c|] eqn:Hs; [|done]. case_match; [done|]. apply inv_processMessage; [by apply (inv_other F ids m)|done].
  - apply inv_on_client; [|done]. intros. apply keeps_minor, minor_onDrain.
  - unfold onClose. destruct (client_at s m) as [c|] eqn:Hs; [|done].
    change (inv F ids (set_sockets (<[s := Some (markClosed c)]> (sockets m)) (JsMap.del (clients m) (clientId c)) (waiting m) m)).
    apply (inv_update F ids s c); [done|done|by right|done|by right|split; [done|exact (calls_step CMarkClosed c)]|done| |].
    + apply (minor_ok _ c); [apply minor_markClosed|by apply (inv_client F ids m Hi)].
    + done.
  - by apply inv_resume.
  - unfold onBlockChange. case_match; [by apply (inv_other F ids m)|]. apply inv_for_clients; [intros; apply keeps_minor, minor_notifyClient|by apply (inv_other F ids m)].
  - unfold onEpochFinalized. case_match; [done|]. apply inv_for_clients; [intros; apply keeps_minor, minor_notifyClient|done].
  - unfold onMempoolTransaction. case_match; [done|]. apply inv_for_clients; [intros; apply keeps_minor, minor_notifyClient|done].
  - by apply inv_broadcast.
  - by apply inv_shutdown.
  - by apply (inv_other F ids m).
  - by apply (inv_other F ids m).
  - unfold registerPluginOpcodes. clear Hn. revert m Hi. induction opcodes as [|o l IH]; intros m Hi; [done|]. cbn. apply IH. by apply (inv_other F ids m).
  - unfold unregisterPluginOpcodes. case_match; [|done]. by apply (inv_other F ids m).
Qed.

Lemma inv_run l version : inv (NoDup (l ≫= drawn)) (l ≫= drawn) (run l (initial version)).
Proof.
  induction l as [|e l IH] using rev_ind.
  { unfold run. cbn. split; try done; [by intros w ?%elem_of_nil|constructor]. }
  unfold run in *. rewrite foldl_app, bind_app. cbn. rewrite app_nil_r. apply inv_step; [done|].
  eapply inv_weaken; [|done|exact IH]. by intros [? _]%NoDup_app.
Qed.

(** ** Every client *)

(** C25: in every state the server reaches, the pending requests of a client are
    the requests of its socket that wait for a handler, and they are at most
    [maxPendingRequests]. *)
Theorem pending_requests_wait l version s c :
  client_at s (run l (initial version)) = Some c →
  pendingRequests c = Z.of_nat (length (filter (λ w, wr_socket w = s) (waiting (run l (initial version))))) ∧
  (length (filter (λ w, wr_socket w = s) (waiting (run l (initial version)))) ≤ Z.to_nat (maxPendingRequests (config c)))%nat.
Proof. intros Hs. apply (inv_client _ _ _ (inv_run l version) s c Hs). Qed.

(** C21: as long as the ids that are drawn are distinct, in every state the server
    reaches a client has at most one subscription of a type and at most
    [maxSubscriptions], under distinct ids that it was given, none once it is
    closed, and a client that is connected is one of the clients of the
    manager. *)
Theorem subscriptions_well_formed l version s c :
  NoDup (l ≫= drawn) → client_at s (run l (initial version)) = Some c →
  (NoDup (subscriptions c).*1 ∧ NoDup (sub_type <$> (subscriptions c).*2) ∧ Forall (λ id, 1 ≤ id < nextSubscriptionId c) (subscriptions c).*1) ∧
  (length (subscriptions c) ≤ Z.to_nat (maxSubscriptions (config c)))%nat ∧
  (if isActive c then JsMap.get (clients (run l (initial version))) (clientId c) = Some s else subscriptions c = []).
Proof.
  intros Hn Hs. pose proof (inv_run l version) as Hi. destruct (inv_client _ _ _ Hi s c Hs) as (_ & (H1 & H2 & H3 & H4 & H5) & _).
  split; [done|]. split; [done|]. destruct (isActive c) eqn:Ha; [by apply (inv_active _ _ _ Hi)|by apply (inv_closed _ _ _ Hi Hn s c Hs)].
Qed.

(** ** Every request *)

Lemma registration_requires opcode r :
  getRequestRegistration opcode = Some r → opcode ≠ WebSocketRequestOpcode.PING → opcode ≠ WebSocketRequestOpcode.HANDSHAKE → requiresHandshake r = true.
Proof.
  intros Hg%JsMap.get_elem_of H0 H1.
  assert (Forall (λ e, e.1 = WebSocketRequestOpcode.PING ∨ e.1 = WebSocketRequestOpcode.HANDSHAKE ∨ requiresHandshake e.2 = true) requestHandlers) as Hf.
  { apply List.Forall_forall. intros e He. vm_compute in He. repeat destruct He as [<-|He]; try done; cbn; auto. }
  rewrite Forall_forall in Hf. destruct (Hf _ Hg) as [?|[?|?]]; done.
Qed.

(** What a message may have called, in the state it arrives in. *)
Definition may_call (m : manager) (c : client) (opcode : Z) (payload : bytes) (o : output) : Prop :=
  match o with
  | HandlerCalled op request requestId id =>
      op = opcode ∧ requestId = read_requestId payload ∧ id = clientId c ∧
      ∃ r, getRequestRegistration opcode = Some r ∧ unpack (requestType r) (drop 4 payload) = Some request
  | PluginCalled h request requestId id =>
      requestId = pretty (read_requestId payload) ∧ id = clientId c ∧ PluginOpcodeRegistry.isPluginOpcode opcode = true ∧
      ∃ registry, pluginRegistry m = Some registry ∧ PluginOpcodeRegistry.getHandler _ _ registry opcode = Some h ∧
        decode (PluginOpcodeRegistry.requestType _ h) (drop 4 payload) = Some request
  | PluginForwarded _ _ _ _ | SocketClosed _ _ _ => False
  end.

Lemma executeRequest_outputs now s opcode r request requestId c m o :
  o ∈ (executeRequest now s opcode r request requestId c m).2 →
  o = HandlerCalled opcode request requestId (clientId c) ∧ pendingRequests c < maxPendingRequests (config c).
Proof.
  unfold executeRequest. pose proof (startRequest_same now c) as Hs. destruct (startRequest now c) as [c' [|]]; cbn; [|by intros ?%elem_of_nil].
  destruct Hs as (Hid & _ & Hp). destruct (callHandler _ _ _ _ _ _ _) as [[m' [call|e]]|]; cbn; [| |by intros ?%elem_of_nil];
    intros ->%list_elem_of_singleton; rewrite Hid; split; try done; by apply Hp.
Qed.

Lemma processMessage_outputs now s raw c m o :
  o ∈ (processMessage now s raw c m).2 →
  ∃ opcode payload, raw = opcode :: payload ∧ state c = READY ∧ (4 ≤ length payload)%nat ∧ pendingRequests c < maxPendingRequests (config c) ∧
    may_call m c opcode payload o.
Proof.
  unfold processMessage, parseWebSocketMessage. destruct raw as [|opcode payload]; [by intros ?%elem_of_nil|].
  destruct (bool_decide (is_Some (pluginRegistry m)) && PluginOpcodeRegistry.isPluginOpcode opcode) eqn:Hp.
  - apply andb_true_iff in Hp as [Hr%bool_decide_eq_true Hp]. unfold handlePluginOpcode, isHandshakeCompleted.
    case_bool_decide as Hst; cbn [negb]; [|by intros ?%elem_of_nil]. destruct Hr as [registry Hr]. rewrite Hr. unfold handlePluginOpcodeLocal.
    destruct (PluginOpcodeRegistry.getHandler _ _ registry opcode) as [h|] eqn:Hh; [|by intros ?%elem_of_nil]. case_decide; [by intros ?%elem_of_nil|].
    destruct (decode _ _) as [request|] eqn:Hd; [|by intros ?%elem_of_nil]. pose proof (startRequest_same now c) as Hs.
    destruct (startRequest now c) as [c' [|]]; cbn; [|by intros ?%elem_of_nil]. destruct Hs as (Hid & _ & Hlt). intros ->%list_elem_of_singleton.
    exists opcode, payload. split; [done|]. split; [done|]. split; [lia|]. split; [by apply Hlt|]. cbn. split; [done|]. split; [done|]. split; [done|]. by exists registry.
  - destruct (getRequestRegistration opcode) as [r|] eqn:Hg; [|by intros ?%elem_of_nil].
    destruct (requiresHandshake r && negb (isHandshakeCompleted c)) eqn:Hh; [by intros ?%elem_of_nil|].
    case_decide as Hping; [by intros ?%elem_of_nil|]. case_decide as Hhs; [by intros ?%elem_of_nil|]. case_decide; [by intros ?%elem_of_nil|].
    destruct (unpack _ _) as [request|] eqn:Hu; [|by intros ?%elem_of_nil]. intros [-> Hlt]%executeRequest_outputs.
    exists opcode, payload. split; [done|]. rewrite (registration_requires opcode r) in Hh by done. cbn in Hh.
    split; [unfold isHandshakeCompleted in Hh; by case_bool_decide|]. split; [lia|]. split; [done|]. cbn. split; [done|]. split; [done|]. split; [done|]. by exists r.
Qed.

(** C19: a handler is only called for a message of a client that has completed a
    handshake of the version of the server with its name, that is below its
    limit of pending requests; the handler is the one of the opcode, its request
    the content of the message, and no handler of another thread is called. *)
Theorem handlers_need_handshake l version e o :
  o ∈ (step e (run l (initial version))).2 →
  match o with SocketClosed _ _ _ => True | _ =>
    ∃ s now opcode payload c, e = Message s now (opcode :: payload) ∧ client_at s (run l (initial version)) = Some c ∧
      (state c = READY ∧ protocolVersion c = PROTOCOL_VERSION ∧ clientName c ≠ ""%string ∧ (String.length (clientName c) ≤ 64)%nat) ∧
      (4 ≤ length payload)%nat ∧ pendingRequests c < maxPendingRequests (config c) ∧ may_call (run l (initial version)) c opcode payload o
  end.
Proof.
  set (m := run l (initial version)). intros Ho. destruct e; cbn [step snd] in Ho; try by apply elem_of_nil in Ho.
  - unfold onConnection in Ho. case_match; [|case_decide; [|by apply elem_of_nil in Ho]]; apply list_elem_of_singleton in Ho; by subst o.
  - unfold onMessage in Ho. destruct (client_at s m) as [c|] eqn:Hs; [|apply list_elem_of_singleton in Ho; by subst o].
    case_match; [by apply elem_of_nil in Ho|]. apply processMessage_outputs in Ho as (opcode & payload & -> & Hst & Hlen & Hlt & Hc).
    assert (∃ s0 now0 op pl c0, Message s now (opcode :: payload) = Message s0 now0 (op :: pl) ∧ client_at s0 m = Some c0 ∧
      (state c0 = READY ∧ protocolVersion c0 = PROTOCOL_VERSION ∧ clientName c0 ≠ ""%string ∧ (String.length (clientName c0) ≤ 64)%nat) ∧
      (4 ≤ length pl)%nat ∧ pendingRequests c0 < maxPendingRequests (config c0) ∧ may_call m c0 op pl o) as He; [|by destruct o].
    exists s, now, opcode, payload, c. split; [done|]. split; [done|]. split; [|done]. split; [done|].
    by apply (inv_client _ _ _ (inv_run l version) s c Hs).
Qed.

End WebSocketSafety.
