(* ===== verification/WebSocketAnswers.v ===== *)
(** * Answers and notifications of the WebSocket server

    The answer to a request carries the id of the request on the socket it came
    from, and what the server pushes reaches each subscriber once. *)

From S2P Require Import Prelude PluginOpcodes WebSocketProtocol WebSocketClient WebSocketClientFacts WebSocketServer WebSocketFacts WebSocketSafety.
Import WebSocketClient.

Section WebSocketAnswers.
Context {LA : ApiProtobuf} {LP : PluginProtobuf}.
Abbreviation client := WebSocketClient.t.

(** ** Messages of a client that is open *)

(** A client that can be sent messages: its socket does not throw. *)
Definition open (c : client) : Prop :=
  isActive c = true ∧ (isDraining c = false → messageQueue c = []) ∧ ∀ k, answers (socket c) k ≠ SendThrows.

Lemma open_send data c : open c → open (send data c).1 ∧ outgoing (send data c).1 = outgoing c ++ [data].
Proof.
  intros (Ha & Hq & Ht). unfold send. rewrite Ha. cbn [negb]. unfold open, outgoing. destruct (isDraining c) eqn:Hd.
  - cbn. split; [done|]. by rewrite app_assoc.
  - specialize (Hq eq_refl). unfold socket_send. destruct (answers (socket c) (asked (socket c))) eqn:He; cbn; rewrite Hq, ?app_nil_r.
    + by repeat split.
    + by repeat split.
    + by apply Ht in He.
Qed.

Lemma reached_queue l version s c :
  client_at s (run l (initial version)) = Some c → isDraining c = false → messageQueue c = [].
Proof.
  intros Hs. destruct (inv_calls _ _ _ (inv_run l version) s c Hs) as (id & address & cfg & answers & [k <-]).
  destruct (run_in_order k id address cfg (mkSocket answers 0 [] None) eq_refl) as (_ & _ & _ & Hq). exact Hq.
Qed.

(** ** Where the requests come from *)

Definition from_message (l : list event) (w : waiting_request) : Prop :=
  ∃ now opcode payload, Message (wr_socket w) now (opcode :: payload) ∈ l ∧ (4 ≤ length payload)%nat ∧ wr_requestId w = read_requestId payload ∧
    match wr_call w with Handling r | Replying r _ => getRequestRegistration opcode = Some r | _ => True end.

Lemma callHandler_call now opcode r request requestId id m m' call :
  callHandler now opcode r request requestId id m = Some (m', Ok call) →
  waiting m' = waiting m ∧ (call = Handling r ∨ ∃ v, call = Replying r v).
Proof.
  unfold callHandler. destruct (handler_of opcode) as [[type| |]|]; [| | |done].
  - unfold subscribe. destruct (getClient id m) as [[s c]|]; [|done]. case_match; [done|]. destruct (addSubscription now type c) as [c' [sid|]]; [|done].
    intros [= <- <-]. split; [done|]. right. by eexists.
  - destruct request as [sid|]; [|intros [= <- <-]; by split; [|left]]. unfold unsubscribe. destruct (getClient id m) as [[s c]|]; [|done].
    destruct (getSubscription sid c); [|done]. intros [= <- <-]. split; [done|]. right. by eexists.
  - destruct request; intros [= <- <-]; by split; [|left].
Qed.

Lemma callHandler_waiting now opcode r request requestId id m m' res :
  callHandler now opcode r request requestId id m = Some (m', res) → waiting m' = waiting m.
Proof.
  intros H. apply callHandler_spec in H as [->|(s & c & c' & call & _ & _ & -> & _)]; done.
Qed.

(** A message adds its own request only. *)
Lemma processMessage_waiting now s raw c m w :
  w ∈ waiting (processMessage now s raw c m).1 → w ∈ waiting m ∨ wr_socket w = s ∧ from_message [Message s now raw] w.
Proof.
  unfold processMessage, parseWebSocketMessage. destruct raw as [|opcode payload]; [by left|]. destruct (_ && _).
  - unfold handlePluginOpcode. case_match; [by left|]. destruct (pluginRegistry m) as [registry|].
    + unfold handlePluginOpcodeLocal. case_match; [|by left]. case_decide; [by left|]. case_match; [|by left].
      destruct (startRequest now c) as [c' [|]]; [|by left]. cbn. intros [Hw| ->%list_elem_of_singleton]%elem_of_app; [by left|right].
      split; [done|]. exists now, opcode, payload. split; [by left|]. split; [lia|done].
    + unfold handlePluginOpcodeCrossThread. case_match; [by left|]. case_decide; [by left|].
      destruct (startRequest now c) as [c' [|]]; [|by left]. cbn. intros [Hw| ->%list_elem_of_singleton]%elem_of_app; [by left|right].
      split; [done|]. exists now, opcode, payload. split; [by left|]. split; [lia|]. split; [done|]. unfold executePluginHandler. cbn. by repeat case_match.
  - destruct (getRequestRegistration opcode) as [r|] eqn:Hg; [|by left]. case_match; [by left|]. case_decide; [by left|]. case_decide; [by left|].
    case_decide; [by left|]. case_match; [|by left]. unfold executeRequest. destruct (startRequest now c) as [c' [|]]; [|by left].
    destruct (callHandler _ _ _ _ _ _ _) as [[m' [call|e]]|] eqn:Hc; [| |by left].
    + apply callHandler_call in Hc as [Hm Hc]. cbn. rewrite Hm. intros [Hw| ->%list_elem_of_singleton]%elem_of_app; [by left|right].
      split; [done|]. exists now, opcode, payload. split; [by left|]. split; [lia|]. split; [done|]. by destruct Hc as [->|[v ->]].
    + apply callHandler_waiting in Hc. cbn in Hc |- *. destruct (client_at s m'); cbn; rewrite Hc; by left.
Qed.

Lemma waiting_for f m : waiting (for_clients f m) = waiting m.
Proof. apply for_clients_same. Qed.

Lemma step_waiting e m w : w ∈ waiting (step e m).1 → w ∈ waiting m ∨ from_message [e] w.
Proof.
  destruct e; cbn [step fst].
  - by left.
  - unfold onConnection. case_match; [by left|]. case_decide; by left.
  - unfold onMessage. destruct (client_at s m) as [c|]; [|by left]. case_match; [by left|].
    intros [Hw|[_ Hw]]%processMessage_waiting; [by left|by right].
  - unfold on_client. case_match; by left.
  - unfold onClose. case_match; by left.
  - unfold resume. destruct (waiting m !! n); [|by left]. case_match; [|by left]. cbn. intros Hw. left. by apply list_elem_of_delete_inv in Hw.
  - unfold onBlockChange. case_match; [by left|]. rewrite waiting_for. by left.
  - unfold onEpochFinalized. case_match; [by left|]. rewrite waiting_for. by left.
  - unfold onMempoolTransaction. case_match; [by left|]. rewrite waiting_for. by left.
  - unfold broadcast. generalize (JsMap.values (clients m)) 0%nat. intros l. revert m. induction l as [|s l IH]; intros m n; [by left|]. cbn.
    destruct (client_at s m) as [c|]; [|apply IH]. case_match; [|apply IH]. destruct (send data c) as [c' ok]. intros Hw. by apply IH in Hw.
  - unfold shutdown. cbn. rewrite waiting_for. by left.
  - by left.
  - by left.
  - unfold registerPluginOpcodes. revert m. induction opcodes as [|o l IH]; intros m; [by left|]. cbn. intros Hw. apply IH in Hw as [Hw|Hw]; [by left|].
    destruct Hw as (now & opcode & payload & Hw & _). by apply list_elem_of_singleton in Hw.
  - unfold unregisterPluginOpcodes. case_match; by left.
Qed.

Lemma from_message_in l l' w : (∀ e, e ∈ l → e ∈ l') → from_message l w → from_message l' w.
Proof. intros Hl (now & opcode & payload & Hw & H). exists now, opcode, payload. split; [by apply Hl|done]. Qed.

Lemma run_waiting l version w : w ∈ waiting (run l (initial version)) → from_message l w.
Proof.
  induction l as [|e l IH] using rev_ind; [by intros ?%elem_of_nil|]. unfold run in *. rewrite foldl_app. cbn.
  intros [Hw|Hw]%step_waiting.
  - apply (from_message_in l); [|by apply IH]. intros e' He. apply elem_of_app. by left.
  - apply (from_message_in [e]); [|done]. intros e' He. apply elem_of_app. by right.
Qed.

(** The response that ends a request: that of its route, or the value that was
    awaited. *)
Definition response_of (call : waiting_call) (a : handler_answer) : option (OpcodeRegistration * api_response ApiContent) :=
  match call, a with
  | Handling r, Answered v => Some (r, OtherResponse v)
  | Replying r v, Awaited => Some (r, v)
  | _, _ => None
  end.

Lemma response_finish call requestId a r v packed c :
  response_of call a = Some (r, v) → pack_response (responseType r) v = Ok packed →
  finish requestId call a c = Some (respond (responseOpcode_ r) requestId (Ok packed) c).
Proof. destruct call, a; try discriminate 1; intros [= <- <-] Hp; cbn; by rewrite Hp. Qed.

Lemma response_registration call a r v : response_of call a = Some (r, v) → call = Handling r ∨ ∃ v', call = Replying r v'.
Proof. destruct call, a; try discriminate 1; intros [= <- <-]; [by left|right; by eexists]. Qed.

Lemma registration_opcode opcode r : getRequestRegistration opcode = Some r → is_byte (responseOpcode_ r).
Proof.
  intros Hg%JsMap.get_elem_of. assert (Forall (λ e, is_byte (responseOpcode_ e.2)) requestHandlers) as Hf.
  { apply List.Forall_forall. intros e He. vm_compute in He. repeat destruct He as [<-|He]; done. }
  rewrite Forall_forall in Hf. exact (Hf _ Hg).
Qed.

(** C20: when the handler of a request answers, the client of the socket the
    request came from is sent, after all it was sent before, the response opcode
    of the request, the four bytes of its id as they were received, and the
    packed response; and the client has one request less pending. *)
Theorem answers_echo_the_request_id l version n a w r v packed c :
  let m := run l (initial version) in
  (∀ s now raw, Message s now raw ∈ l → Forall is_byte raw) →
  waiting m !! n = Some w → response_of (wr_call w) a = Some (r, v) → pack_response (responseType r) v = Ok packed →
  client_at (wr_socket w) m = Some c → isActive c = true → (∀ k, answers (socket c) k ≠ SendThrows) →
  ∃ now opcode payload c',
    (Message (wr_socket w) now (opcode :: payload) ∈ l ∧ getRequestRegistration opcode = Some r) ∧
    client_at (wr_socket w) (resume n a m) = Some c' ∧
    outgoing c' = outgoing c ++ [responseOpcode_ r :: take 4 payload ++ packed] ∧
    pendingRequests c' = pendingRequests c - 1.
Proof.
  intros m Hb Hw Hr Hp Hs Ha Ht. assert (w ∈ waiting m) as Hin by (by apply list_elem_of_lookup_2 in Hw).
  destruct (run_waiting l version w Hin) as (now & opcode & payload & Hmsg & Hlen & Hid & Hreg).
  exists now, opcode, payload, (respond (responseOpcode_ r) (wr_requestId w) (Ok packed) c).
  assert (getRequestRegistration opcode = Some r) as Hg by (by destruct (response_registration _ _ _ _ Hr) as [E|[v' E]]; rewrite E in Hreg).
  split; [done|]. assert (open c) as Hop by (split; [done|]; split; [by apply (reached_queue l version (wr_socket w))|done]).
  pose proof (response_finish _ (wr_requestId w) _ _ _ _ c Hr Hp) as Hf.
  split.
  { unfold resume. rewrite Hw, Hs. cbn [mbind option_bind]. rewrite Hf. unfold client_at. cbn. fold (client_at (wr_socket w) (set_client (wr_socket w) (respond (responseOpcode_ r) (wr_requestId w) (Ok packed) c) m)).
    by apply client_at_set. }
  assert (response_header (responseOpcode_ r) (wr_requestId w) = responseOpcode_ r :: take 4 payload) as Hh.
  { rewrite Hid. apply header_read; [by apply (registration_opcode opcode)|done|]. by apply Hb, Forall_cons in Hmsg as [_ Hmsg]. }
  unfold respond, sendResponse. rewrite Hh. destruct (open_send ((responseOpcode_ r :: take 4 payload) ++ packed) c Hop) as [_ Ho].
  destruct (inv_client _ _ _ (inv_run l version) _ c Hs) as (_ & _ & Hpe & _).
  assert (pendingRequests (send ((responseOpcode_ r :: take 4 payload) ++ packed) c).1 = pendingRequests c) as Hpc by apply (minor_send _ c).
  assert (0 < pendingRequests c).
  { rewrite Hpe. assert (count (wr_socket w) (waiting m) ≠ 0%nat) as Hc; [|apply (Nat2Z.inj_lt 0), Nat.neq_0_lt_0, Hc]. intros H0%length_zero_iff_nil.
    assert (w ∈ filter (λ x, wr_socket x = wr_socket w) (waiting m)) as Hx by (by apply list_elem_of_filter). rewrite H0 in Hx. by apply elem_of_nil in Hx. }
  unfold endRequest. rewrite decide_True by lia. split; [exact Ho|]. cbn [pendingRequests set_pending]. rewrite Hpc. done.
Qed.

(** ** Notifications *)

(** What an event pushes: to which subscriptions, and what. *)
Definition pushed (e : event) : option (SubscriptionType * (Z → notification)) :=
  match e with
  | BlockChange blockHeight hash txCount now => Some (BLOCKS, λ id, NewBlock id blockHeight (default ""%string hash) now (default 0 txCount))
  | EpochFinalized epochNumber epochHash => Some (EPOCHS, λ id, NewEpoch id (pretty epochNumber) (default ""%string epochHash))
  | MempoolTransaction txId transactionType now => Some (MEMPOOL, λ id, NewMempoolTransaction id txId transactionType now)
  | _ => None
  end.

Definition notifications (type : SubscriptionType) (n : Z → notification) (subs : list (Z * Subscription)) : list bytes :=
  omap (λ e, if decide (sub_type e.2 = type) then pack (n e.1) else None) subs.

Lemma open_notify type n subs c :
  open c →
  outgoing (foldl (λ c e, if decide (sub_type e.2 = type) then match pack (n e.1) with Some packed => (send packed c).1 | None => c end else c) c subs)
  = outgoing c ++ notifications type n subs.
Proof.
  unfold notifications. revert c. induction subs as [|[id sub] subs IH]; intros c Hc; [by rewrite app_nil_r|]. cbn. case_decide; [|by apply IH].
  destruct (pack (n id)) as [packed|]; [|by apply IH]. destruct (open_send packed c Hc) as [Hc' Ho]. rewrite IH by done. rewrite Ho. by rewrite <- app_assoc.
Qed.

Lemma notifications_length type n (subs : list (Z * Subscription)) : NoDup (sub_type <$> subs.*2) → (length (notifications type n subs) ≤ 1)%nat.
Proof.
  assert (type ∉ (sub_type <$> subs.*2) → notifications type n subs = []) as Hno.
  { unfold notifications. induction subs as [|[id sub] subs IH]; [done|]. csimpl. intros [Hne Hni]%not_elem_of_cons. rewrite decide_False by congruence. by apply IH. }
  unfold notifications in *. induction subs as [|[id sub] subs IH]; [cbn; lia|]. csimpl. intros [Hni Hnd]%NoDup_cons. case_decide as He.
  - subst type. assert (omap (λ e, if decide (sub_type e.2 = sub_type sub) then pack (n e.1) else None) subs = []) as E.
    { clear IH Hno Hnd. induction subs as [|[id' sub'] subs IH]; [done|]. csimpl in *. apply not_elem_of_cons in Hni as [Hne Hni].
      rewrite decide_False by congruence. by apply IH. }
    destruct (pack (n id)); csimpl; rewrite E; cbn; lia.
  - apply IH; [|done]. intros Hni'. specialize (Hno). csimpl in Hno. rewrite decide_False in Hno by done. apply Hno. by apply not_elem_of_cons.
Qed.

(** C26: as long as the ids that are drawn are distinct, a block, an epoch or a
    transaction of the mempool is pushed to every client that has completed the
    handshake, after all it was sent before, under the id of its subscription
    to it, at most once, and not at all without such a subscription. *)
Theorem subscribers_notified_once l version e type n s c :
  let m := run l (initial version) in
  NoDup (l ≫= drawn) → pushed e = Some (type, n) → enabled m = true → client_at s m = Some c → state c = READY →
  (∀ k, answers (socket c) k ≠ SendThrows) →
  ∃ c', client_at s (step e m).1 = Some c' ∧ outgoing c' = outgoing c ++ notifications type n (subscriptions c) ∧
    (length (notifications type n (subscriptions c)) ≤ 1)%nat ∧
    (hasSubscription type c = false → notifications type n (subscriptions c) = []).
Proof.
  intros m Hnd Hp He Hs Hst Ht. pose proof (inv_run l version) as Hi. assert (isActive c = true) as Ha by (by apply ready_active).
  exists (notifyClient type n c). assert (s ∈ JsMap.values (clients m)) as Hv by (apply (in_values m (clientId c)), (inv_active _ _ _ Hi Hnd s c Hs Ha)).
  split.
  { assert (∀ m', inv (NoDup (l ≫= drawn)) (l ≫= drawn) m' → clients m' = clients m → client_at s m' = Some c →
      client_at s (for_clients (notifyClient type n) m') = Some (notifyClient type n c)) as Hfor.
    { intros m' Hi' Hcl Hs'. rewrite (client_at_for _ _ _ _ _ Hi'), Hcl. rewrite decide_True by done. by rewrite Hs'. }
    destruct e; try discriminate Hp; injection Hp as <- <-; cbn [step fst].
    - unfold onBlockChange. cbn [enabled set_counts]. rewrite He. cbn [negb]. apply Hfor; [by apply (inv_other _ _ m)|done|done].
    - unfold onEpochFinalized. rewrite He. cbn [negb]. by apply Hfor.
    - unfold onMempoolTransaction. rewrite He. cbn [negb]. by apply Hfor. }
  split.
  { unfold notifyClient, isHandshakeCompleted. rewrite bool_decide_true by done. cbn [negb]. apply open_notify.
    split; [done|]. split; [by apply (reached_queue l version s)|done]. }
  split; [apply notifications_length; by destruct (inv_client _ _ _ Hi s c Hs) as (_ & (_ & ? & _) & _)|].
  unfold hasSubscription, notifications. clear. induction (subscriptions c) as [|[id sub] subs IH]; [done|]. cbn. intros [Hne Hr]%orb_false_iff.
  apply bool_decide_eq_false in Hne. rewrite decide_False by done. by apply IH.
Qed.

End WebSocketAnswers.
