(* ===== verification/WebSocketExamples.v ===== *)
(** * A WebSocket server that runs

    A server with a simple encoding: one client connects, completes its handshake,
    subscribes to blocks, asks for the number of the block and is pushed one. *)

From S2P Require Import Prelude PluginOpcodes WebSocketProtocol WebSocketClient WebSocketClientFacts WebSocketServer WebSocketFacts WebSocketSafety WebSocketAnswers.
Import WebSocketClient.

Module WebSocketExample.

#[local] Instance api : ApiProtobuf := {|
  ApiContent := bytes;
  unpack_handshake b := match b with version :: _ => Some (mkHandshake version "wallet" "1.0.0") | [] => None end;
  pack_handshake r := Some (reply_version r :: reply_sessionId r);
  unpack_ping b := head b;
  pack_pong timestamp server := Some [timestamp; server];
  unpack_unsubscribe b := head b;
  unpack_content _ b := Some b;
  pack_response _ v := match v with SubscriptionCreated id _ => Ok [id] | Unsubscribed ok => Ok [if ok then 1 else 0] | OtherResponse c => Ok c end;
  pack_error requestId code _ := Some [code];
  pack_notification n := match n with NewBlock id height _ _ _ => Some [id; height] | NewEpoch id _ _ => Some [id] | NewMempoolTransaction id _ _ _ => Some [id] end;
  fromHex _ := Some [7]
|}.

#[local] Instance plugins : PluginProtobuf := {|
  PluginRoot := unit; PluginType := unit; PluginJson := bytes;
  decode _ b := Some b;
  encode _ j := Ok (default [] j)
|}.

(** The socket always accepts. *)
Definition accepts (n : nat) : send_answer := Accepted.

(** A socket that is full once. *)
Definition full_once (n : nat) : send_answer := match n with 1%nat => Backpressure | _ => Accepted end.

Definition limits : WebSocketSettings := mkSettings true 2 2 30000 50 3.

Definition connected : list event := [Initialize "bitcoin" limits; Connection "a1" None accepts].
Definition handshaken : list event := connected ++ [Message 0 1000 [0x01; 1; 0; 0; 0; 1]].
Definition subscribed : list event := handshaken ++ [Message 0 1001 [0x70; 2; 0; 0; 0]; Resume 0 Awaited].
Definition requested : list event := subscribed ++ [Message 0 1002 [0x10; 255; 254; 253; 252]].

Definition client_of (l : list event) : option WebSocketClient.t := client_at 0 (run l (initial "1.0.0")).
Definition sent_to (l : list event) : option (list bytes) := outgoing <$> client_of l.

(** A request before the handshake is refused and closes the connection. *)
Example refused_before_handshake :
  (isActive <$> client_of (connected ++ [Message 0 1000 [0x10; 1; 0; 0; 0]])) = Some false ∧
  sent_to (connected ++ [Message 0 1000 [0x10; 1; 0; 0; 0]]) = Some [[0x80; 0; 0; 0; 0; 3]].
Proof. split; vm_compute; reflexivity. Qed.

(** The handshake, the subscription, and the answer under the id of its request. *)
Example a_session :
  sent_to (requested ++ [Resume 0 (Answered [42]); BlockChange 43 (Some "h"%string) None 1003]) =
  Some [[0x82; 1; 0; 0; 0; 1; 7]; [0xf0; 2; 0; 0; 0; 1]; [0x90; 255; 254; 253; 252; 42]; [0xf8; 1; 43]].
Proof. vm_compute. reflexivity. Qed.

(** A third request that waits is refused, and a second subscription to blocks. *)
Example too_many_requests :
  sent_to (requested ++ [Message 0 1002 [0x10; 1; 0; 0; 0]; Message 0 1002 [0x10; 5; 0; 0; 0]]) =
  Some [[0x82; 1; 0; 0; 0; 1; 7]; [0xf0; 2; 0; 0; 0; 1]; [0x80; 5; 0; 0; 0; 10]] ∧
  sent_to (subscribed ++ [Message 0 1002 [0x70; 9; 0; 0; 0]]) =
  Some [[0x82; 1; 0; 0; 0; 1; 7]; [0xf0; 2; 0; 0; 0; 1]; [0x80; 9; 0; 0; 0; 2101]].
Proof. split; vm_compute; reflexivity. Qed.

(** Plugin opcodes that are registered through the manager are not served. *)
Example plugin_opcodes_unknown :
  let info := mkOpcodeInfo "chat" "join" 160 192 "onJoin" in
  (isActive <$> client_of (handshaken ++ [RegisterPluginOpcodes [info]; SetPluginWsExecutor; Message 0 1002 [160; 1; 0; 0; 0]])) = Some false ∧
  sent_to (handshaken ++ [RegisterPluginOpcodes [info]; SetPluginWsExecutor; Message 0 1002 [160; 1; 0; 0; 0]]) =
  Some [[0x82; 1; 0; 0; 0; 1; 7]; [0x80; 0; 0; 0; 0; 2]].
Proof. split; vm_compute; reflexivity. Qed.

(** The address of a client behind proxies. *)
Example forwarded_address :
  extractClientIP (Some (mkRequest (λ h, if decide (h = "x-forwarded-for"%string) then Ok (Some " 10.0.0.1 , 10.0.0.2"%string) else Ok None) None)) =
  "10.0.0.1"%string.
Proof. vm_compute. reflexivity. Qed.

(** ** The hypotheses of the theorems *)

Lemma requests_are_rate_limited_witness :
  (length (in_second 1500 (start_times (client_run [CStart 1000; CStart 1001; CStart 1002]
     (new "a1" "unknown" (mkClientConfig 100 30000 2 10) (mkSocket accepts 0 [] None))).2)) ≤ 2)%nat.
Proof. apply (requests_are_rate_limited [CStart 1000; CStart 1001; CStart 1002]). repeat constructor; done. Defined.

Lemma messages_in_order_witness :
  delivered (socket (client_run [CSend [1]; CSend [2]; CSend [3]; CDrain; CSend [4]]
    (new "a1" "unknown" DEFAULT_CLIENT_CONFIG (mkSocket full_once 0 [] None))).1) = [[1]; [2]; [3]; [4]].
Proof.
  pose proof (messages_in_order [CSend [1]; CSend [2]; CSend [3]; CDrain; CSend [4]] "a1" "unknown" DEFAULT_CLIENT_CONFIG full_once) as H.
  vm_compute in H |- *. destruct H as (_ & H & _). apply H. intros [|[|n]]; done.
Defined.

Definition nobody : WebSocketClient.t := new "" "" DEFAULT_CLIENT_CONFIG (mkSocket accepts 0 [] None).
Definition subscriber : WebSocketClient.t := Eval vm_compute in default nobody (client_of subscribed).
Definition requester : WebSocketClient.t := Eval vm_compute in default nobody (client_of requested).

Lemma subscriber_at : client_at 0 (run subscribed (initial "1.0.0")) = Some subscriber.
Proof. vm_compute. reflexivity. Qed.

Lemma requester_at : client_at 0 (run requested (initial "1.0.0")) = Some requester.
Proof. vm_compute. reflexivity. Qed.

Lemma one_waits : length (filter (λ w, wr_socket w = 0%nat) (waiting (run requested (initial "1.0.0")))) = 1%nat.
Proof. vm_compute. reflexivity. Qed.

Lemma drawn_requested : requested ≫= drawn = ["a1"%string].
Proof. reflexivity. Qed.

Lemma drawn_subscribed : subscribed ≫= drawn = ["a1"%string].
Proof. reflexivity. Qed.

Lemma messages_requested s now raw :
  Message s now raw ∈ requested → raw ∈ [[0x01; 1; 0; 0; 0; 1]; [0x70; 2; 0; 0; 0]; [0x10; 255; 254; 253; 252]].
Proof.
  intros Hm. change requested with
    ([Initialize "bitcoin" limits; Connection "a1" None accepts; Message 0 1000 [0x01; 1; 0; 0; 0; 1]; Message 0 1001 [0x70; 2; 0; 0; 0];
      Resume 0 Awaited; Message 0 1002 [0x10; 255; 254; 253; 252]]) in Hm.
  rewrite !elem_of_cons in Hm. destruct Hm as [E|[E|[E|[E|[E|[E|Hm]]]]]]; try discriminate E; [..|by apply elem_of_nil in Hm];
    injection E as _ _ ->; rewrite !elem_of_cons; tauto.
Qed.

Lemma pending_requests_wait_witness : pendingRequests requester = 1.
Proof. destruct (pending_requests_wait requested "1.0.0" 0 requester requester_at) as [H _]. rewrite H. rewrite one_waits. reflexivity. Defined.

Lemma subscriptions_well_formed_witness : NoDup (sub_type <$> (subscriptions requester).*2) ∧ sub_type <$> (subscriptions requester).*2 = [BLOCKS].
Proof.
  destruct (subscriptions_well_formed requested "1.0.0" 0 requester) as [(_ & H & _) _]; [|exact requester_at|].
  - rewrite drawn_requested. apply NoDup_singleton.
  - split; [exact H|reflexivity].
Defined.

Lemma block_number_called :
  HandlerCalled 0x10 (ROther []) (-50462977) "a1" ∈ (step (Message 0 1002 [0x10; 255; 254; 253; 252]) (run subscribed (initial "1.0.0"))).2.
Proof. vm_compute. left. Qed.

Lemma handlers_need_handshake_witness : ∃ s c, client_at s (run subscribed (initial "1.0.0")) = Some c ∧ state c = READY ∧ clientId c = "a1"%string.
Proof.
  pose proof (handlers_need_handshake subscribed "1.0.0" _ _ block_number_called) as (s & now & opcode & payload & c & _ & Hs & (Hst & _) & _ & _ & Hc).
  exists s, c. destruct Hc as (_ & _ & Hid & _). split; [exact Hs|]. split; [exact Hst|]. symmetry. exact Hid.
Defined.

Definition getBlockNumber : OpcodeRegistration := mkRegistration GetBlockNumberRequest GetBlockNumberResponse 0x90 true.

Lemma block_number_waits : waiting (run requested (initial "1.0.0")) !! 0%nat = Some (mkWaiting 0 (-50462977) (Handling getBlockNumber)).
Proof. vm_compute. reflexivity. Qed.

Lemma answers_echo_the_request_id_witness :
  ∃ payload c', client_at 0 (resume 0 (Answered [42]) (run requested (initial "1.0.0"))) = Some c' ∧
    last (outgoing c') = Some (0x90 :: take 4 payload ++ [42]).
Proof.
  destruct (answers_echo_the_request_id requested "1.0.0" 0 (@Answered api plugins [42]) (mkWaiting 0 (-50462977) (Handling getBlockNumber)) getBlockNumber
    (OtherResponse (C := bytes) [42]) [42] requester) as (now & opcode & payload & c' & _ & Hs & Ho & _).
  - intros s now raw Hm%messages_requested. rewrite !elem_of_cons, elem_of_nil in Hm.
    destruct Hm as [->|[->|[->|[]]]]; repeat constructor; done.
  - exact block_number_waits.
  - reflexivity.
  - reflexivity.
  - exact requester_at.
  - reflexivity.
  - intros k. discriminate.
  - exists payload, c'. split; [exact Hs|]. rewrite Ho. apply last_snoc.
Defined.

Lemma server_enabled : enabled (run subscribed (initial "1.0.0")) = true.
Proof. vm_compute. reflexivity. Qed.

Lemma subscribers_notified_once_witness :
  ∃ c', client_at 0 (step (BlockChange 43 None None 1003) (run subscribed (initial "1.0.0"))).1 = Some c' ∧
    outgoing c' = outgoing subscriber ++ [[0xf8; 1; 43]].
Proof.
  destruct (subscribers_notified_once subscribed "1.0.0" (BlockChange 43 None None 1003) BLOCKS (λ id, NewBlock id 43 "" 1003 0) 0 subscriber)
    as (c' & Hs & Ho & _).
  - rewrite drawn_subscribed. apply NoDup_singleton.
  - reflexivity.
  - exact server_enabled.
  - exact subscriber_at.
  - reflexivity.
  - intros k. discriminate.
  - exists c'. split; [exact Hs|]. rewrite Ho. reflexivity.
Defined.

End WebSocketExample.
