(* ===== verification/Configuration.v ===== *)
(** * The configuration of the node (config/BtcIndexerConfigLoader.ts)

    The values that are read from the file are checked, section by section, then
    merged with the default configuration. *)

From S2P Require Import Prelude.

(** ** Values *)

(** A value of the file; numbers are integers. *)
Inductive js_value : Type :=
| Undefined | Null
| Boolean (b : bool)
| Number (n : Z)
| String (s : string)
| Array (items : list js_value)
| Object (fields : list (string * js_value)).

(** A property; what is not an object has none of those that are read. *)
Definition prop (v : js_value) (key : string) : js_value :=
  match v with Object fields => default Undefined (JsMap.get fields key) | _ => Undefined end.

Definition truthy (v : js_value) : bool :=
  match v with
  | Undefined | Null => false
  | Boolean b => b
  | Number n => negb (bool_decide (n = 0))
  | String s => negb (bool_decide (s = ""%string))
  | Array _ | Object _ => true
  end.

Definition is_undefined (v : js_value) : bool := match v with Undefined => true | _ => false end.
Definition is_zero (v : js_value) : bool := match v with Number n => bool_decide (n = 0) | _ => false end.

(** [v <= 0] for a number; [undefined <= 0] is false. *)
Definition not_positive (v : js_value) : bool := match v with Number n => bool_decide (n ≤ 0) | _ => false end.

(** [a ?? b] *)
Definition coalesce (a b : js_value) : js_value := match a with Undefined | Null => b | _ => a end.

(** [String(v)], as the keys of [in] are made; the elements of an array are joined
    by commas, where [undefined] and [null] are empty. *)
Fixpoint to_text (v : js_value) : string :=
  match v with
  | Undefined => "undefined"
  | Null => "null"
  | Boolean b => if b then "true" else "false"
  | Number n => pretty n
  | String s => s
  | Array items => String.concat "," (map (λ i, match i with Undefined | Null => ""%string | _ => to_text i end) items)
  | Object _ => "[object Object]"
  end.

(** [typeof], and [Array.isArray]. *)
Inductive js_type : Type := TBoolean | TNumber | TString | TArray.

Definition has_type (t : js_type) (v : js_value) : bool :=
  match t, v with TBoolean, Boolean _ | TNumber, Number _ | TString, String _ | TArray, Array _ => true | _, _ => false end.

(** The names an enum object inherits. *)
Definition inherited_names : list string :=
  ["__proto__"; "constructor"; "hasOwnProperty"; "isPrototypeOf"; "propertyIsEnumerable"; "toLocaleString"; "toString"; "valueOf";
   "__defineGetter__"; "__defineSetter__"; "__lookupGetter__"; "__lookupSetter__"]%string.

Definition IndexerStorageType : list string := ["MONGODB"%string].
Definition BlockUpdateMethods : list string := ["RPC"; "P2P"]%string.
Definition OPNetIndexerMode : list string := ["ARCHIVE"; "FULL"; "LIGHT"]%string.
Definition BitcoinNetwork : list string := ["mainnet"; "testnet"; "testnet4"; "regtest"; "signet"; "custom"]%string.

(** [v in enum], and [enum\[v\] !== undefined]. *)
Definition in_enum (v : js_value) (enum : list string) : bool := bool_decide (to_text v ∈ enum ++ inherited_names).

(** ** Defaults *)

Definition default_DOCS : js_value :=
  Object
  [("ENABLED"%string, Boolean false);
   ("PORT"%string, Number 7000)].

Definition default_PLUGINS : js_value :=
  Object
  [("PLUGINS_DIR"%string, String "./plugins");
   ("PLUGINS_ENABLED"%string, Boolean true);
   ("WORKER_POOL_SIZE"%string, Number 4);
   ("EMIT_ERROR_OR_WARNING"%string, Boolean false)].

Definition default_EPOCH : js_value :=
  Object
  [("MAX_ATTESTATION_PER_BLOCK"%string, Number 100000);
   ("LOG_FINALIZATION"%string, Boolean false)].

Definition default_BITCOIN : js_value :=
  Object
  [("CHAIN_ID"%string, Number 0);
   ("NETWORK"%string, String "mainnet");
   ("NETWORK_MAGIC"%string, Array []);
   ("DNS_SEEDS"%string, Array [])].

Definition default_BLOCKCHAIN : js_value :=
  Object
  [("BITCOIND_HOST"%string, String "");
   ("BITCOIND_PORT"%string, Number 0);
   ("BITCOIND_USERNAME"%string, String "");
   ("BITCOIND_PASSWORD"%string, String "")].

Definition default_AUTH_of_DATABASE : js_value :=
  Object
  [("USERNAME"%string, String "");
   ("PASSWORD"%string, String "")].

Definition default_DATABASE : js_value :=
  Object
  [("DATABASE_NAME"%string, String "");
   ("HOST"%string, String "");
   ("PORT"%string, Number 0);
   ("AUTH"%string, default_AUTH_of_DATABASE)].

Definition default_INDEXER : js_value :=
  Object
  [("ENABLED"%string, Boolean true);
   ("BLOCK_UPDATE_METHOD"%string, String "RPC");
   ("STORAGE_TYPE"%string, String "MONGODB");
   ("BLOCK_QUERY_INTERVAL"%string, Number 5000);
   ("READONLY_MODE"%string, Boolean false);
   ("SOLVE_UNKNOWN_UTXOS"%string, Boolean false);
   ("ALLOW_PURGE"%string, Boolean false);
   ("PURGE_SPENT_UTXO_OLDER_THAN_BLOCKS"%string, Number 10000000);
   ("UTXO_SAVE_INTERVAL"%string, Number 120000);
   ("START_INDEXING_UTXO_AT_BLOCK_HEIGHT"%string, Number 800000)].

Definition default_DATABASE_AUTH : js_value :=
  Object
  [("SOURCE"%string, Undefined)].

Definition default_DEV : js_value :=
  Object
  [("PROCESS_ONLY_X_BLOCK"%string, Number 0);
   ("DEBUG_TRANSACTION_FAILURE"%string, Boolean true);
   ("DEBUG_TRANSACTION_PARSE_FAILURE"%string, Boolean true);
   ("CAUSE_FETCHING_FAILURE"%string, Boolean false);
   ("DISPLAY_VALID_BLOCK_WITNESS"%string, Boolean false);
   ("DISPLAY_INVALID_BLOCK_WITNESS"%string, Boolean false);
   ("SAVE_TIMEOUTS_TO_FILE"%string, Boolean false);
   ("SIMULATE_HIGH_GAS_USAGE"%string, Boolean false);
   ("DEBUG_VALID_TRANSACTIONS"%string, Boolean true);
   ("ALLOW_LARGE_TRANSACTIONS"%string, Boolean false);
   ("DEBUG_API_ERRORS"%string, Boolean false);
   ("ENABLE_CONTRACT_DEBUG"%string, Boolean false);
   ("ALWAYS_ENABLE_REORG_VERIFICATION"%string, Boolean false);
   ("ENABLE_REORG_NIGHTMARE"%string, Boolean false);
   ("DEBUG_API_CALLS"%string, Boolean false);
   ("DEBUG_PENDING_REQUESTS"%string, Boolean false);
   ("RESYNC_BLOCK_HEIGHTS"%string, Boolean false);
   ("RESYNC_BLOCK_HEIGHTS_UNTIL"%string, Number 0)].

Definition default_P2P : js_value :=
  Object
  [("IS_BOOTSTRAP_NODE"%string, Boolean false);
   ("CLIENT_MODE"%string, Boolean false);
   ("ENABLE_IPV6"%string, Boolean false);
   ("EXTERNAL_ADDRESS_THRESHOLD"%string, Number 3);
   ("ENABLE_IP_BANNING"%string, Boolean false);
   ("PRIVATE_MODE"%string, Boolean false);
   ("MDNS"%string, Boolean false);
   ("ANNOUNCE_ADDRESSES"%string, Array []);
   ("P2P_HOST_V6"%string, String "::");
   ("P2P_PORT_V6"%string, Number 9801);
   ("P2P_HOST"%string, String "0.0.0.0");
   ("P2P_PORT"%string, Number 9805);
   ("P2P_PROTOCOL"%string, String "tcp");
   ("ENABLE_P2P_LOGGING"%string, Boolean false);
   ("ENABLE_UPNP"%string, Boolean false);
   ("MINIMUM_PEERS"%string, Number 50);
   ("MAXIMUM_PEERS"%string, Number 100);
   ("MAXIMUM_INCOMING_PENDING_PEERS"%string, Number 50);
   ("PEER_INACTIVITY_TIMEOUT"%string, Number 10000);
   ("MAXIMUM_INBOUND_STREAMS"%string, Number 100);
   ("MAXIMUM_OUTBOUND_STREAMS"%string, Number 100);
   ("NODES"%string, Array []);
   ("PRIVATE_NODES"%string, Array []);
   ("BOOTSTRAP_NODES"%string, Array [])].

Definition default_WEBSOCKET_of_API : js_value :=
  Object
  [("ENABLED"%string, Boolean true);
   ("MAX_CONNECTIONS"%string, Number 1000);
   ("IDLE_TIMEOUT"%string, Number 120);
   ("MAX_PAYLOAD_SIZE"%string, Number (16 * 1024 * 1024));
   ("MAX_PENDING_REQUESTS"%string, Number 100);
   ("REQUEST_TIMEOUT"%string, Number 30000);
   ("MAX_REQUESTS_PER_SECOND"%string, Number 50);
   ("MAX_SUBSCRIPTIONS"%string, Number 10)].

Definition default_MEMPOOL_of_API : js_value :=
  Object
  [("MAX_ADDRESSES"%string, Number 20);
   ("DEFAULT_LIMIT"%string, Number 25);
   ("MAX_LIMIT"%string, Number 100)].

Definition default_API : js_value :=
  Object
  [("ENABLED"%string, Boolean true);
   ("PORT"%string, Number 9000);
   ("THREADS"%string, Number 16);
   ("MAXIMUM_PENDING_REQUESTS_PER_THREADS"%string, Number 1000);
   ("BATCH_PROCESSING_SIZE"%string, Number 15);
   ("MAXIMUM_PARALLEL_BLOCK_QUERY"%string, Number 50);
   ("MAXIMUM_REQUESTS_PER_BATCH"%string, Number 500);
   ("MAXIMUM_TRANSACTION_BROADCAST"%string, Number 80);
   ("MAXIMUM_PENDING_CALL_REQUESTS"%string, Number 200);
   ("MAXIMUM_PARALLEL_EPOCH_QUERY"%string, Number 50);
   ("EPOCH_CACHE_SIZE"%string, Number 15);
   ("UTXO_LIMIT"%string, Number 2000);
   ("WEBSOCKET"%string, default_WEBSOCKET_of_API);
   ("MEMPOOL"%string, default_MEMPOOL_of_API)].

Definition default_POC : js_value :=
  Object
  [("ENABLED"%string, Boolean true)].

Definition default_MEMPOOL : js_value :=
  Object
  [("THREADS"%string, Number 2);
   ("PREVENT_TX_BROADCAST_IF_NOT_SYNCED"%string, Boolean true);
   ("EXPIRATION_BLOCKS"%string, Number 20);
   ("ENABLE_BLOCK_PURGE"%string, Boolean true);
   ("BATCH_SIZE"%string, Number 25);
   ("FETCH_INTERVAL"%string, Number 30000)].

Definition default_RPC : js_value :=
  Object
  [("CHILD_PROCESSES"%string, Number 8);
   ("THREADS"%string, Number 6);
   ("VM_CONCURRENCY"%string, Number 30)].

Definition default_SSH : js_value :=
  Object
  [("ENABLED"%string, Boolean false);
   ("PORT"%string, Number 4800);
   ("HOST"%string, String "0.0.0.0");
   ("NO_AUTH"%string, Boolean false);
   ("USERNAME"%string, String "opnet");
   ("PASSWORD"%string, String "opnet");
   ("PUBLIC_KEY"%string, String "");
   ("ALLOWED_IPS"%string, Array [String "127.0.0.1"; String "0.0.0.0"; String "localhost"])].

Definition default_OP_NET : js_value :=
  Object
  [("PENDING_BLOCK_THRESHOLD"%string, Number 1000);
   ("TRANSACTIONS_MAXIMUM_CONCURRENT"%string, Number 100);
   ("MAXIMUM_PREFETCH_BLOCKS"%string, Number 12);
   ("REINDEX"%string, Boolean false);
   ("REINDEX_FROM_BLOCK"%string, Number 0);
   ("REINDEX_PURGE_UTXOS"%string, Boolean false);
   ("REINDEX_BATCH_SIZE"%string, Number 1000);
   ("EPOCH_REINDEX"%string, Boolean false);
   ("EPOCH_REINDEX_FROM_EPOCH"%string, Number 0);
   ("ENABLE_BATCH_PROCESSING"%string, Boolean true);
   ("VERIFY_INTEGRITY_ON_STARTUP"%string, Boolean false);
   ("DISABLE_SCANNED_BLOCK_STORAGE_CHECK"%string, Boolean true);
   ("MODE"%string, String "ARCHIVE");
   ("LIGHT_MODE_FROM_BLOCK"%string, Number 10000)].

(** [defaultConfig] *)
Definition defaultConfig : list (string * js_value) :=
  [("DOCS"%string, default_DOCS);
   ("PLUGINS"%string, default_PLUGINS);
   ("EPOCH"%string, default_EPOCH);
   ("BITCOIN"%string, default_BITCOIN);
   ("BLOCKCHAIN"%string, default_BLOCKCHAIN);
   ("DATABASE"%string, default_DATABASE);
   ("DEV_MODE"%string, Boolean false);
   ("INDEXER"%string, default_INDEXER);
   ("DATABASE_AUTH"%string, default_DATABASE_AUTH);
   ("DEV"%string, default_DEV);
   ("P2P"%string, default_P2P);
   ("API"%string, default_API);
   ("POC"%string, default_POC);
   ("MEMPOOL"%string, default_MEMPOOL);
   ("RPC"%string, default_RPC);
   ("SSH"%string, default_SSH);
   ("OP_NET"%string, default_OP_NET)].

(** ** Checks *)

(** The conditions that throw: [x !== undefined && typeof x !== t],
    [x === undefined || typeof x !== t], [x && typeof x !== t],
    [!x && typeof x !== t], [flag && typeof x !== t], and others. *)
Inductive check : Type :=
| Optional (key : string) (t : js_type) (message : string)
| Required (key : string) (t : js_type) (message : string)
| WhenTruthy (key : string) (t : js_type) (message : string)
| WhenFalsy (key : string) (t : js_type) (message : string)
| When (flag key : string) (t : js_type) (message : string)
| Refuse (condition : js_value → bool) (message : js_value → string).

Definition condition (c : check) (s : js_value) : bool :=
  match c with
  | Optional key t _ => negb (is_undefined (prop s key)) && negb (has_type t (prop s key))
  | Required key t _ => is_undefined (prop s key) || negb (has_type t (prop s key))
  | WhenTruthy key t _ => truthy (prop s key) && negb (has_type t (prop s key))
  | WhenFalsy key t _ => negb (truthy (prop s key)) && negb (has_type t (prop s key))
  | When flag key t _ => truthy (prop s flag) && negb (has_type t (prop s key))
  | Refuse f _ => f s
  end.

Definition message (c : check) (s : js_value) : string :=
  match c with Optional _ _ m | Required _ _ m | WhenTruthy _ _ m | WhenFalsy _ _ m | When _ _ _ m => m | Refuse _ m => m s end.

Fixpoint run_checks (l : list check) (s : js_value) : result string unit :=
  match l with
  | [] => Ok tt
  | c :: l => if condition c s then Throw (message c s) else run_checks l s
  end.

Definition DOCS_checks : list check :=
  [WhenTruthy "ENABLED" TBoolean "Oops the property DOCS.ENABLED is not a boolean.";
   When "ENABLED" "PORT" TNumber "Oops the property DOCS.PORT is not a number."].

Definition PLUGINS_checks : list check :=
  [Optional "PLUGINS_DIR" TString "Oops the property PLUGINS.PLUGINS_DIR is not a string.";
   Optional "PLUGINS_ENABLED" TBoolean "Oops the property PLUGINS.PLUGINS_ENABLED is not a boolean.";
   Optional "WORKER_POOL_SIZE" TNumber "Oops the property PLUGINS.WORKER_POOL_SIZE is not a number.";
   Optional "EMIT_ERROR_OR_WARNING" TBoolean "Oops the property PLUGINS.EMIT_ERROR_OR_WARNING is not a boolean."].

Definition API_checks : list check :=
  [WhenTruthy "ENABLED" TBoolean "Oops the property API.ENABLED is not a boolean.";
   When "ENABLED" "PORT" TNumber "Oops the property API.PORT is not a number."].

Definition BLOCKCHAIN_checks : list check :=
  [Required "BITCOIND_HOST" TString "Oops the property BLOCKCHAIN.BITCOIND_HOST is not a string.";
   Refuse (λ s, negb (truthy (prop s "BITCOIND_HOST"))) (λ _, "Oops the property BLOCKCHAIN.BITCOIND_HOST is not valid."%string);
   Required "BITCOIND_PORT" TNumber "Oops the property BLOCKCHAIN.BITCOIND_PORT is not a number.";
   Refuse (λ s, is_zero (prop s "BITCOIND_PORT")) (λ _, "Oops the property BLOCKCHAIN.BITCOIND_PORT is not defined."%string)].

Definition INDEXER_checks : list check :=
  [WhenTruthy "ENABLED" TBoolean "Oops the property INDEXER.ENABLED is not a boolean.";
   Refuse (λ s, negb (has_type TString (prop s "STORAGE_TYPE") && in_enum (prop s "STORAGE_TYPE") IndexerStorageType)) (λ _, "Oops the property INDEXER.STORAGE_TYPE is not a valid IndexerStorageType enum value."%string);
   Refuse (λ s, negb (has_type TString (prop s "BLOCK_UPDATE_METHOD") && in_enum (prop s "BLOCK_UPDATE_METHOD") BlockUpdateMethods)) (λ _, "Oops the property INDEXER.BLOCK_UPDATE_METHOD is not a valid BlockUpdateMethods enum value."%string);
   Optional "ALLOW_PURGE" TBoolean "Oops the property INDEXER.ALLOW_PURGE is not a boolean.";
   Optional "READONLY_MODE" TBoolean "Oops the property INDEXER.READONLY_MODE is not a boolean.";
   Optional "START_INDEXING_UTXO_AT_BLOCK_HEIGHT" TNumber "Oops the property INDEXER.START_INDEXING_UTXO_AT_BLOCK_HEIGHT is not a number.";
   Optional "PURGE_SPENT_UTXO_OLDER_THAN_BLOCKS" TNumber "Oops the property INDEXER.PURGE_SPENT_UTXO_OLDER_THAN_BLOCKS is not a number.";
   Optional "UTXO_SAVE_INTERVAL" TNumber "Oops the property INDEXER.UTXO_SAVE_INTERVAL is not a number.";
   Optional "BLOCK_QUERY_INTERVAL" TNumber "Oops the property INDEXER.BLOCK_QUERY_INTERVAL is not a number.";
   Optional "SOLVE_UNKNOWN_UTXOS" TBoolean "Oops the property INDEXER.SOLVE_UNKNOWN_UTXOS is not a boolean."].

Definition RPC_checks : list check :=
  [Optional "THREADS" TNumber "Oops the property RPC.THREADS is not a boolean.";
   Optional "VM_CONCURRENCY" TNumber "Oops the property RPC.VM_CONCURRENCY is not a number.";
   Optional "CHILD_PROCESSES" TNumber "Oops the property RPC.CHILD_PROCESSES is not a number."].

Definition OP_NET_checks : list check :=
  [Optional "MAXIMUM_PREFETCH_BLOCKS" TNumber "Oops the property OP_NET.MAXIMUM_PREFETCH_BLOCKS is not a number.";
   Required "REINDEX" TBoolean "Oops the property OP_NET.REINDEX is not a boolean.";
   Optional "ENABLE_BATCH_PROCESSING" TBoolean "Oops the property OP_NET.ENABLE_BATCH_PROCESSING is not a boolean.";
   Optional "REINDEX_FROM_BLOCK" TNumber "Oops the property OP_NET.REINDEX_FROM_BLOCK is not a number.";
   Optional "REINDEX_PURGE_UTXOS" TBoolean "Oops the property OP_NET.REINDEX_PURGE_UTXOS is not a boolean.";
   Optional "REINDEX_BATCH_SIZE" TNumber "Oops the property OP_NET.REINDEX_BATCH_SIZE is not a number.";
   Refuse (λ s, not_positive (prop s "REINDEX_BATCH_SIZE")) (λ s, ("OP_NET.REINDEX_BATCH_SIZE must be greater than 0, got " +:+ to_text (prop s "REINDEX_BATCH_SIZE") +:+ ".")%string);
   Optional "EPOCH_REINDEX" TBoolean "Oops the property OP_NET.EPOCH_REINDEX is not a boolean.";
   Optional "EPOCH_REINDEX_FROM_EPOCH" TNumber "Oops the property OP_NET.EPOCH_REINDEX_FROM_EPOCH is not a number.";
   Required "VERIFY_INTEGRITY_ON_STARTUP" TBoolean "Oops the property OP_NET.VERIFY_INTEGRITY_ON_STARTUP is not a boolean.";
   Required "MODE" TString "Oops the property OP_NET.MODE is not a string.";
   Optional "LIGHT_MODE_FROM_BLOCK" TNumber "Oops the property OP_NET.LIGHT_MODE_FROM_BLOCK is not a number.";
   Refuse (λ s, negb (in_enum (prop s "MODE") OPNetIndexerMode)) (λ _, "Oops the property OP_NET.MODE is not a valid OPNetIndexerMode enum value."%string);
   Optional "PENDING_BLOCK_THRESHOLD" TNumber "Oops the property OP_NET.TRANSACTIONS_THREADS is not a number.";
   Optional "TRANSACTIONS_MAXIMUM_CONCURRENT" TNumber "Oops the property OP_NET.TRANSACTIONS_MAXIMUM_CONCURRENT is not a number."].

Definition BITCOIN_checks : list check :=
  [Optional "CHAIN_ID" TNumber "Oops the property OP_NET.CHAIN_ID is not a number.";
   Optional "NETWORK_MAGIC" TArray "Oops the property BITCOIN.NETWORK_MAGIC is not an array.";
   Refuse (λ s, match prop s "NETWORK_MAGIC" with Array l => existsb (λ magic, negb (has_type TNumber magic)) l | _ => false end) (λ _, "Oops the property BITCOIN.NETWORK_MAGIC is not an array of numbers."%string);
   Refuse (λ s, negb (is_undefined (prop s "NETWORK")) && negb (in_enum (prop s "NETWORK") BitcoinNetwork)) (λ _, "Oops the property BITCOIN.NETWORK is not a valid BitcoinNetwork enum value."%string);
   Optional "DNS_SEEDS" TArray "Oops the property OP_NET.DNS_SEEDS is not an array."].

Definition POC_checks : list check :=
  [Optional "ENABLED" TBoolean "Oops the property POA.ENABLED is not a boolean."].

Definition P2P_checks : list check :=
  [Optional "CLIENT_MODE" TBoolean "Oops the property P2P.CLIENT_MODE is not a boolean.";
   Optional "MDNS" TBoolean "Oops the property P2P.MDNS is not a boolean.";
   Optional "PRIVATE_MODE" TBoolean "Oops the property P2P.PRIVATE_MODE is not a boolean.";
   Optional "ENABLE_IP_BANNING" TBoolean "Oops the property P2P.ENABLE_IP_BANNING is not a boolean.";
   Optional "ANNOUNCE_ADDRESSES" TArray "Oops the property P2P.ANNOUNCE_ADDRESSES is not an array.";
   Optional "IS_BOOTSTRAP_NODE" TBoolean "Oops the property P2P.IS_BOOTSTRAP_NODE is not a boolean.";
   Optional "EXTERNAL_ADDRESS_THRESHOLD" TNumber "Oops the property P2P.EXTERNAL_ADDRESS_THRESHOLD is not a number.";
   Optional "ENABLE_P2P_LOGGING" TBoolean "Oops the property P2P.ENABLE_P2P_LOGGING is not a boolean.";
   Optional "ENABLE_UPNP" TBoolean "Oops the property P2P.ENABLE_UPNP is not a boolean.";
   Refuse (λ s, truthy (prop s "CLIENT_MODE") && truthy (prop s "IS_BOOTSTRAP_NODE")) (λ _, "Oops the property P2P.CLIENT_MODE and P2P.IS_BOOTSTRAP_NODE cannot be both true."%string);
   Optional "ENABLE_IPV6" TBoolean "Oops the property P2P.ENABLE_IPV6 is not a boolean.";
   Optional "P2P_HOST_V6" TString "Oops the property P2P.P2P_HOST_V6 is not a string.";
   Optional "P2P_PORT_V6" TNumber "Oops the property P2P.P2P_PORT_V6 is not a number.";
   Optional "P2P_HOST" TString "Oops the property P2P.P2P_HOST is not a string.";
   Optional "P2P_PORT" TNumber "Oops the property P2P.P2P_PORT is not a number.";
   Optional "P2P_PROTOCOL" TString "Oops the property P2P.P2P_PROTOCOL is not a string.";
   Optional "MAXIMUM_INBOUND_STREAMS" TNumber "Oops the property P2P.MAXIMUM_INBOUND_STREAMS is not a number.";
   Optional "MAXIMUM_OUTBOUND_STREAMS" TNumber "Oops the property P2P.MAXIMUM_OUTBOUND_PEERS is not a number.";
   Optional "BOOTSTRAP_NODES" TArray "Oops the property P2P.BOOTSTRAP_NODES is not an array.";
   Optional "NODES" TArray "Oops the property P2P.NODES is not an array.";
   Optional "PRIVATE_NODES" TArray "Oops the property P2P.PRIVATE_NODES is not an array.";
   Optional "PEER_INACTIVITY_TIMEOUT" TNumber "Oops the property P2P.PEER_INACTIVITY_TIMEOUT is not a number.";
   Optional "MINIMUM_PEERS" TNumber "Oops the property P2P.MINIMUM_PEERS is not a number.";
   Optional "MAXIMUM_PEERS" TNumber "Oops the property P2P.MAXIMUM_PEERS is not a number."].

Definition MEMPOOL_checks : list check :=
  [Optional "EXPIRATION_BLOCKS" TNumber "Oops the property MEMPOOL.EXPIRATION_BLOCKS is not a number.";
   Optional "PREVENT_TX_BROADCAST_IF_NOT_SYNCED" TBoolean "Oops the property MEMPOOL.PREVENT_TX_BROADCAST_IF_NOT_SYNCED is not a boolean.";
   Optional "THREADS" TNumber "Oops the property MEMPOOL.THREADS is not a number.";
   Optional "ENABLE_BLOCK_PURGE" TBoolean "Oops the property MEMPOOL.ENABLE_BLOCK_PURGE is not a boolean.";
   Optional "BATCH_SIZE" TNumber "Oops the property MEMPOOL.BATCH_SIZE is not a number.";
   Optional "FETCH_INTERVAL" TNumber "Oops the property MEMPOOL.FETCH_INTERVAL is not a number."].

Definition SSH_checks : list check :=
  [WhenTruthy "ENABLED" TBoolean "Oops the property SSH.ENABLED is not a boolean.";
   Required "PORT" TNumber "Oops the property SSH.PORT is not a number.";
   Required "HOST" TString "Oops the property SSH.HOST is not a string.";
   Required "USERNAME" TString "Oops the property SSH.USERNAME is not a string.";
   Required "PASSWORD" TString "Oops the property SSH.PASSWORD is not a string.";
   Required "PUBLIC_KEY" TString "Oops the property SSH.PUBLIC_KEY is not a string.";
   Required "NO_AUTH" TBoolean "Oops the property SSH.NO_AUTH is not a boolean.";
   Required "ALLOWED_IPS" TArray "Oops the property SSH.ALLOWED_IPS is not an array."].

Definition API_more_checks : list check :=
  [WhenTruthy "MAXIMUM_PENDING_REQUESTS_PER_THREADS" TNumber "Oops the property API.MAXIMUM_PENDING_REQUESTS_PER_THREADS is not a number.";
   WhenTruthy "BATCH_PROCESSING_SIZE" TNumber "Oops the property API.BATCH_PROCESSING_SIZE is not a number.";
   WhenTruthy "MAXIMUM_PARALLEL_BLOCK_QUERY" TNumber "Oops the property API.MAXIMUM_PARALLEL_BLOCK_QUERY is not a number.";
   WhenTruthy "MAXIMUM_TRANSACTION_BROADCAST" TNumber "Oops the property API.MAXIMUM_TRANSACTION_BROADCAST is not a number.";
   WhenTruthy "MAXIMUM_PARALLEL_EPOCH_QUERY" TNumber "Oops the property API.MAXIMUM_PARALLEL_EPOCH_QUERY is not a number.";
   WhenTruthy "EPOCH_CACHE_SIZE" TNumber "Oops the property API.EPOCH_CACHE_SIZE is not a number.";
   WhenTruthy "MAXIMUM_PENDING_CALL_REQUESTS" TNumber "Oops the property API.MAXIMUM_PENDING_CALL_REQUESTS is not a number.";
   WhenTruthy "UTXO_LIMIT" TNumber "Oops the property API.UTXO_LIMIT is not a number.";
   WhenTruthy "MAXIMUM_REQUESTS_PER_BATCH" TNumber "Oops the property API.MAXIMUM_REQUESTS_PER_BATCH is not a number.";
   WhenTruthy "THREADS" TNumber "Oops the property API.THREADS is not a number."].

Definition EPOCH_checks : list check :=
  [Optional "MAX_ATTESTATION_PER_BLOCK" TNumber "Oops the property EPOCH.MAX_ATTESTATION_PER_EPOCH is not a number.";
   Optional "LOG_FINALIZATION" TBoolean "Oops the property EPOCH.LOG_FINALIZATION is not a boolean."].

Definition DEV_checks : list check :=
  [Optional "PROCESS_ONLY_X_BLOCK" TNumber "Oops the property DEV.PROCESS_ONLY_X_BLOCK is not a number.";
   Optional "DEBUG_TRANSACTION_FAILURE" TBoolean "Oops the property DEV.DEBUG_TRANSACTION_FAILURE is not a boolean.";
   Optional "ALLOW_LARGE_TRANSACTIONS" TBoolean "Oops the property DEV.ALLOW_LARGE_TRANSACTIONS is not a boolean.";
   Optional "DEBUG_TRANSACTION_PARSE_FAILURE" TBoolean "Oops the property DEV.DEBUG_TRANSACTION_FAILURE is not a boolean.";
   Optional "CAUSE_FETCHING_FAILURE" TBoolean "Oops the property DEV.CAUSE_FETCHING_FAILURE is not a boolean.";
   Optional "DISPLAY_VALID_BLOCK_WITNESS" TBoolean "Oops the property DEV.DISPLAY_VALID_BLOCK_WITNESS is not a boolean.";
   Optional "DISPLAY_INVALID_BLOCK_WITNESS" TBoolean "Oops the property DEV.DISPLAY_INVALID_BLOCK_WITNESS is not a boolean.";
   Optional "ENABLE_CONTRACT_DEBUG" TBoolean "Oops the property DEV.ENABLE_CONTRACT_DEBUG is not a boolean.";
   Optional "ALWAYS_ENABLE_REORG_VERIFICATION" TBoolean "Oops the property DEV.ALWAYS_ENABLE_REORG_VERIFICATION is not a boolean.";
   Optional "ENABLE_REORG_NIGHTMARE" TBoolean "Oops the property DEV.ENABLE_REORG_NIGHTMARE is not a boolean.";
   Optional "SAVE_TIMEOUTS_TO_FILE" TBoolean "Oops the property DEV.SAVE_TIMEOUTS_TO_FILE is not a boolean.";
   WhenFalsy "SIMULATE_HIGH_GAS_USAGE" TBoolean "Oops the property DEV.SIMULATE_HIGH_GAS_USAGE is not a boolean.";
   Optional "DEBUG_VALID_TRANSACTIONS" TBoolean "Oops the property DEV.DEBUG_VALID_TRANSACTIONS is not a boolean.";
   Optional "DEBUG_API_ERRORS" TBoolean "Oops the property DEV.DEBUG_API_ERRORS is not a boolean.";
   Optional "DEBUG_API_CALLS" TBoolean "Oops the property DEV.DEBUG_API_CALLS is not a boolean.";
   Optional "DEBUG_PENDING_REQUESTS" TBoolean "Oops the property DEV.DEBUG_PENDING_REQUESTS is not a boolean.";
   Optional "RESYNC_BLOCK_HEIGHTS" TBoolean "Oops the property DEV.RESYNC_BLOCK_HEIGHTS is not a boolean.";
   Optional "RESYNC_BLOCK_HEIGHTS_UNTIL" TNumber "Oops the property DEV.RESYNC_BLOCK_HEIGHTS_UNTIL is not a number."].

Definition DATABASE_AUTH_checks : list check :=
  [Optional "SOURCE" TString "Oops the property DATABASE_AUTH.SOURCE is not a string."].

Definition WEBSOCKET_checks : list check :=
  [Optional "ENABLED" TBoolean "Oops the property API.WEBSOCKET.ENABLED is not a boolean.";
   Optional "MAX_CONNECTIONS" TNumber "Oops the property API.WEBSOCKET.MAX_CONNECTIONS is not a number.";
   Optional "IDLE_TIMEOUT" TNumber "Oops the property API.WEBSOCKET.IDLE_TIMEOUT is not a number.";
   Optional "MAX_PAYLOAD_SIZE" TNumber "Oops the property API.WEBSOCKET.MAX_PAYLOAD_SIZE is not a number.";
   Optional "MAX_PENDING_REQUESTS" TNumber "Oops the property API.WEBSOCKET.MAX_PENDING_REQUESTS is not a number.";
   Optional "REQUEST_TIMEOUT" TNumber "Oops the property API.WEBSOCKET.REQUEST_TIMEOUT is not a number.";
   Optional "MAX_REQUESTS_PER_SECOND" TNumber "Oops the property API.WEBSOCKET.MAX_REQUESTS_PER_SECOND is not a number.";
   Optional "MAX_SUBSCRIPTIONS" TNumber "Oops the property API.WEBSOCKET.MAX_SUBSCRIPTIONS is not a number."].

Definition API_MEMPOOL_checks : list check :=
  [Optional "MAX_ADDRESSES" TNumber "Oops the property API.MEMPOOL.MAX_ADDRESSES is not a number.";
   Optional "DEFAULT_LIMIT" TNumber "Oops the property API.MEMPOOL.DEFAULT_LIMIT is not a number.";
   Optional "MAX_LIMIT" TNumber "Oops the property API.MEMPOOL.MAX_LIMIT is not a number."].

(** [if (parsedConfig.SECTION) { ... }] *)
Definition verifySection (section : string) (l : list check) (p : js_value) : result string unit :=
  if truthy (prop p section) then run_checks l (prop p section) else Ok tt.

Definition verifyWebSocketConfig (s : js_value) : result string unit := run_checks WEBSOCKET_checks s.
Definition verifyAPIMempoolConfig (s : js_value) : result string unit := run_checks API_MEMPOOL_checks s.

Definition verifyDevMode (p : js_value) : result string unit :=
  match prop p "DEV_MODE" with
  | Undefined | Null | Boolean _ => Ok tt
  | _ => Throw "Oops the property DEV_MODE is not a boolean."%string
  end.

(** The second block of the checks of the API, with the two nested sections. *)
Definition verifyAPI (p : js_value) : result string unit :=
  _ ← verifySection "API" API_more_checks p;
  if truthy (prop p "API") then
    _ ← (if truthy (prop (prop p "API") "WEBSOCKET") then verifyWebSocketConfig (prop (prop p "API") "WEBSOCKET") else Ok tt);
    if truthy (prop (prop p "API") "MEMPOOL") then verifyAPIMempoolConfig (prop (prop p "API") "MEMPOOL") else Ok tt
  else Ok tt.

(** The sections in the order they are checked; the first condition that holds
    throws. *)
Definition verifySections (p : js_value) : result string unit :=
  _ ← verifySection "DOCS" DOCS_checks p;
  _ ← verifySection "PLUGINS" PLUGINS_checks p;
  _ ← verifySection "API" API_checks p;
  _ ← verifySection "BLOCKCHAIN" BLOCKCHAIN_checks p;
  _ ← verifyDevMode p;
  _ ← verifySection "INDEXER" INDEXER_checks p;
  _ ← verifySection "RPC" RPC_checks p;
  _ ← verifySection "OP_NET" OP_NET_checks p;
  _ ← verifySection "BITCOIN" BITCOIN_checks p;
  _ ← verifySection "POC" POC_checks p;
  _ ← verifySection "P2P" P2P_checks p;
  _ ← verifySection "MEMPOOL" MEMPOOL_checks p;
  _ ← verifySection "SSH" SSH_checks p;
  _ ← verifyAPI p;
  _ ← verifySection "EPOCH" EPOCH_checks p;
  _ ← verifySection "DEV" DEV_checks p;
  verifySection "DATABASE_AUTH" DATABASE_AUTH_checks p.

(** *** The password of the database *)

Definition hex_char (n : nat) : string := String.substring n 1 "0123456789ABCDEF".
Definition percent (n : nat) : string := ("%" +:+ hex_char (n / 16) +:+ hex_char (n mod 16))%string.

Definition unreserved (a : Ascii.ascii) : bool :=
  let n := Ascii.nat_of_ascii a in
  ((65 <=? n) && (n <=? 90) || (97 <=? n) && (n <=? 122) || (48 <=? n) && (n <=? 57))%nat ||
  bool_decide (a ∈ ["-"; "_"; "."; "!"; "~"; "*"; "'"; "("; ")"]%char).

(** [encodeURIComponent], of code units below 256: two bytes of UTF-8 from 128. *)
Fixpoint encodeURIComponent (s : string) : string :=
  match s with
  | EmptyString => EmptyString
  | String.String a s =>
      let n := Ascii.nat_of_ascii a in
      ((if unreserved a then String.String a EmptyString
        else if (n <? 128)%nat then percent n
        else (percent (192 + n / 64) +:+ percent (128 + n mod 64))%string) +:+ encodeURIComponent s)%string
  end.

(** [o\[key\] = v] *)
Definition set_prop (o : js_value) (key : string) (v : js_value) : js_value :=
  match o with Object fields => Object (JsMap.set fields key v) | _ => o end.

(** A property that is set on a value that is not an object throws. *)
Definition encodePassword (p : js_value) : result string js_value :=
  match prop (prop p "DATABASE") "AUTH" with
  | Object fields =>
      let password := String (encodeURIComponent (to_text (prop (Object fields) "PASSWORD"))) in
      Ok (set_prop p "DATABASE" (set_prop (prop p "DATABASE") "AUTH" (set_prop (Object fields) "PASSWORD" password)))
  | auth => if truthy auth && negb (has_type TArray auth) then Throw "Cannot create property 'PASSWORD'"%string else Ok p
  end.

Section verifyConfig.
(** [super.verifyConfig] of ConfigManager. *)
Context (super_verifyConfig : js_value → result string unit).

(** [verifiedConfig] and the configuration that is checked, in which the password
    is replaced. *)
Definition verifyConfig (verifiedConfig : bool) (p : js_value) : result string (bool * js_value) :=
  if verifiedConfig then Throw "Config has already been verified."%string
  else
    _ ← super_verifyConfig p;
    _ ← verifySections p;
    p ← encodePassword p;
    Ok (true, p).
End verifyConfig.

(** ** Merging *)

Definition getConfigModified (config : js_value) (defaultConfig : option js_value) : result string js_value :=
  match defaultConfig with
  | Some (Object fields) => Ok (Object (map (λ e, (e.1, coalesce (prop config e.1) e.2)) fields))
  | _ => Throw "Oops the default config is not defined."%string
  end.

(** The configuration, by section. *)
Abbreviation config := (list (string * js_value)).

Definition default_of (section : string) : option js_value := JsMap.get defaultConfig section.

Definition merge (section : string) (p : js_value) (c : config) : result string config :=
  v ← getConfigModified (prop p section) (default_of section); Ok (JsMap.set c section v).

(** The sections without a rule of their own, in order. *)
Definition plain_sections : list string :=
  ["INDEXER"; "RPC"; "OP_NET"; "P2P"; "POC"; "MEMPOOL"; "BLOCKCHAIN"; "DATABASE"; "DATABASE_AUTH"; "DOCS"; "PLUGINS"; "SSH"]%string.

Definition mergeAPI (p : js_value) (c : config) : result string config :=
  apiConfig ← getConfigModified (prop p "API") (default_of "API");
  webSocket ← getConfigModified (prop (prop p "API") "WEBSOCKET") (Some default_WEBSOCKET_of_API);
  mempool ← getConfigModified (prop (prop p "API") "MEMPOOL") (Some default_MEMPOOL_of_API);
  Ok (JsMap.set c "API"%string (set_prop (set_prop apiConfig "WEBSOCKET" webSocket) "MEMPOOL" mempool)).

Definition section_of (c : config) (section : string) : js_value := default Undefined (JsMap.get c section).

(** The resync mode; [verifyConfig] has refused what is not a number. *)
Definition resync (c : config) : result string config :=
  if truthy (prop (section_of c "DEV") "RESYNC_BLOCK_HEIGHTS") then
    match prop (section_of c "DEV") "RESYNC_BLOCK_HEIGHTS_UNTIL" with
    | Number until =>
        if decide (until ≤ 0) then Throw "RESYNC_BLOCK_HEIGHTS_UNTIL must be set to a positive number when RESYNC_BLOCK_HEIGHTS is enabled"%string
        else
          let c := JsMap.set c "DEV"%string (set_prop (section_of c "DEV") "PROCESS_ONLY_X_BLOCK" (Number (until + 1))) in
          let c := JsMap.set c "INDEXER"%string (set_prop (section_of c "INDEXER") "START_INDEXING_UTXO_AT_BLOCK_HEIGHT" (Number until)) in
          Ok (JsMap.set c "OP_NET"%string (set_prop (set_prop (section_of c "OP_NET") "REINDEX" (Boolean true)) "REINDEX_FROM_BLOCK" (Number 0)))
    | _ => Throw "RESYNC_BLOCK_HEIGHTS_UNTIL must be set to a positive number when RESYNC_BLOCK_HEIGHTS is enabled"%string
    end
  else Ok c.

(** [base]: what [super.parsePartialConfig] has set. *)
Definition parseConfig (p : js_value) (base : config) : result string config :=
  let c := JsMap.set base "DEV_MODE"%string (coalesce (prop p "DEV_MODE") (Boolean false)) in
  c ← rfold (λ c section, merge section p c) c plain_sections;
  c ← mergeAPI p c;
  c ← merge "BITCOIN" p c;
  c ← merge "DEV" p c;
  c ← merge "EPOCH" p c;
  resync c.
