(* ===== verification/ConfigurationFacts.v ===== *)
(** * What a configuration that loads guarantees

    A configuration that is accepted has in each setting a value of the type of
    its default, but for the settings listed here, and its resync mode reindexes
    everything. *)

From S2P Require Import Prelude Configuration.

(** ** Types *)

Definition same_type (d v : js_value) : bool :=
  match d with
  | Boolean _ => has_type TBoolean v
  | Number _ => has_type TNumber v
  | String _ => has_type TString v
  | Array _ => has_type TArray v
  | Undefined => is_undefined v || has_type TString v
  | Null | Object _ => false
  end.

Definition type_of (d : js_value) : option js_type :=
  match d with
  | Boolean _ => Some TBoolean | Number _ => Some TNumber | String _ | Undefined => Some TString | Array _ => Some TArray | Null | Object _ => None
  end.

(** The settings that may also be falsy: [false], [0] or the empty text. *)
Definition falsy_allowed : list (string * string) :=
  [("DOCS", "ENABLED"); ("API", "ENABLED"); ("INDEXER", "ENABLED"); ("SSH", "ENABLED"); ("API", "MAXIMUM_PENDING_REQUESTS_PER_THREADS");
   ("API", "BATCH_PROCESSING_SIZE"); ("API", "MAXIMUM_PARALLEL_BLOCK_QUERY"); ("API", "MAXIMUM_TRANSACTION_BROADCAST");
   ("API", "MAXIMUM_PARALLEL_EPOCH_QUERY"); ("API", "EPOCH_CACHE_SIZE"); ("API", "MAXIMUM_PENDING_CALL_REQUESTS"); ("API", "UTXO_LIMIT");
   ("API", "MAXIMUM_REQUESTS_PER_BATCH"); ("API", "THREADS")]%string.

(** The settings whose type is not checked, or only against the names of an enum;
    the ports and the simulation only under a condition. *)
Definition untyped : list (string * string) :=
  [("BITCOIN", "NETWORK"); ("INDEXER", "STORAGE_TYPE"); ("INDEXER", "BLOCK_UPDATE_METHOD"); ("DOCS", "PORT"); ("API", "PORT"); ("API", "WEBSOCKET"); ("API", "MEMPOOL");
   ("BLOCKCHAIN", "BITCOIND_USERNAME"); ("BLOCKCHAIN", "BITCOIND_PASSWORD"); ("DATABASE", "DATABASE_NAME"); ("DATABASE", "HOST");
   ("DATABASE", "PORT"); ("DATABASE", "AUTH"); ("DEV", "SIMULATE_HIGH_GAS_USAGE"); ("P2P", "MAXIMUM_INCOMING_PENDING_PEERS");
   ("OP_NET", "DISABLE_SCANNED_BLOCK_STORAGE_CHECK")]%string.

Definition checks_of (section : string) : list check :=
  default [] (JsMap.get
    [("DOCS", DOCS_checks); ("PLUGINS", PLUGINS_checks); ("API", app API_checks API_more_checks); ("BLOCKCHAIN", BLOCKCHAIN_checks);
     ("INDEXER", INDEXER_checks); ("RPC", RPC_checks); ("OP_NET", OP_NET_checks); ("BITCOIN", BITCOIN_checks); ("POC", POC_checks);
     ("P2P", P2P_checks); ("MEMPOOL", MEMPOOL_checks); ("SSH", SSH_checks); ("EPOCH", EPOCH_checks); ("DEV", DEV_checks);
     ("DATABASE_AUTH", DATABASE_AUTH_checks)]%string section).

#[local] Instance js_type_eq : EqDecision js_type.
Proof. solve_decision. Defined.

Definition strict (l : list check) (key : string) (t : js_type) : bool :=
  existsb (λ c, match c with Optional k t' _ | Required k t' _ => bool_decide (k = key) && bool_decide (t' = t) | _ => false end) l.
Definition loose (l : list check) (key : string) (t : js_type) : bool :=
  existsb (λ c, match c with WhenTruthy k t' _ => bool_decide (k = key) && bool_decide (t' = t) | _ => false end) l.

(** ** Checks *)

Lemma run_checks_app l l' s : run_checks (l ++ l') s = Ok tt ↔ run_checks l s = Ok tt ∧ run_checks l' s = Ok tt.
Proof. induction l as [|c l IH]; cbn; [naive_solver|]. case_match; [naive_solver|done]. Qed.

Lemma run_checks_condition l s c : run_checks l s = Ok tt → c ∈ l → condition c s = false.
Proof.
  induction l as [|c' l IH]; cbn; [by intros _ ?%elem_of_nil|]. case_match eqn:Hc; [done|]. intros Hr [->|Hin]%elem_of_cons; [done|auto].
Qed.

Lemma strict_spec l s key t : run_checks l s = Ok tt → strict l key t = true → prop s key = Undefined ∨ has_type t (prop s key) = true.
Proof.
  intros Hr (c & Hin%list_elem_of_In & Hc)%existsb_exists. apply (run_checks_condition l s c Hr) in Hin.
  destruct c; try done; apply andb_true_iff in Hc as [->%bool_decide_eq_true ->%bool_decide_eq_true]; cbn in Hin;
    destruct (prop s key); cbn in *; auto; right; destruct t; done.
Qed.

Lemma loose_spec l s key t : run_checks l s = Ok tt → loose l key t = true → truthy (prop s key) = false ∨ has_type t (prop s key) = true.
Proof.
  intros Hr (c & Hin%list_elem_of_In & Hc)%existsb_exists. apply (run_checks_condition l s c Hr) in Hin.
  destruct c; try done. apply andb_true_iff in Hc as [->%bool_decide_eq_true ->%bool_decide_eq_true]. cbn in Hin.
  destruct (truthy (prop s key)); [right|by left]. by apply negb_false_iff.
Qed.

(** Every section that is there passes its checks. *)
Lemma sections_checked p section :
  verifySections p = Ok tt → truthy (prop p section) = true → run_checks (checks_of section) (prop p section) = Ok tt.
Proof.
  intros Hv Ht. unfold verifySections, verifySection, verifyAPI, verifySection in Hv.
  assert (∀ s, prop p section = s → ∀ l, (if truthy s then run_checks l s else Ok tt) = Ok tt → run_checks l s = Ok tt) as Hr by (intros s <- l; by rewrite Ht).
  unfold checks_of. cbn [JsMap.get].
  repeat match type of Hv with (_ ← ?x; _) = Ok tt => let E := fresh "E" in destruct x as [[]|] eqn:E; cbn [mbind result_bind] in Hv; [|discriminate Hv] end.
  repeat (case_decide; [subst section; cbn [from_option default]; eauto|]); try done.
  rewrite Ht in *. apply run_checks_app. split; [done|].
  match goal with H : (_ ← run_checks API_more_checks _; _) = Ok tt |- _ => destruct (run_checks API_more_checks (prop p "API")) as [[]|] eqn:E'; [done|discriminate H] end.
Qed.

(** ** Merging *)

Definition fields_of (v : js_value) : list (string * js_value) := match v with Object fields => fields | _ => [] end.

Definition merged (s : js_value) (fields : list (string * js_value)) : js_value := Object (map (λ e, (e.1, coalesce (prop s e.1) e.2)) fields).

Lemma merge_ok section p c fields : default_of section = Some (Object fields) → merge section p c = Ok (JsMap.set c section (merged (prop p section) fields)).
Proof. intros H. unfold merge. by rewrite H. Qed.

Lemma merged_prop s fields key v : JsMap.get fields key = Some v → prop (merged s fields) key = coalesce (prop s key) v.
Proof.
  unfold merged. cbn. induction fields as [|[k d] fields IH]; cbn; [done|]. case_decide; [|done]. intros [= ->]. by subst.
Qed.

Lemma section_of_set c k v section : section_of (JsMap.set c k v) section = if decide (k = section) then v else section_of c section.
Proof. unfold section_of. rewrite JsMap.get_set. by case_decide. Qed.

Lemma prop_set_prop o k v key : prop (set_prop o k v) key = match o with Object _ => if decide (k = key) then v else prop o key | _ => Undefined end.
Proof. destruct o; try done. cbn. rewrite JsMap.get_set. by case_decide. Qed.

(** The configuration before the resync mode: every section merged with its
    default, and the two nested ones. *)
Definition loaded (p : js_value) (c : config) : Prop :=
  (∀ section fields, default_of section = Some (Object fields) → section ≠ "API"%string → section_of c section = merged (prop p section) fields) ∧
  (∀ key d, JsMap.get (fields_of default_API) key = Some d → key ≠ "WEBSOCKET"%string → key ≠ "MEMPOOL"%string →
     prop (section_of c "API") key = coalesce (prop (prop p "API") key) d).

Definition nested_loaded (p : js_value) (c : config) : Prop :=
  prop (section_of c "API") "WEBSOCKET" = merged (prop (prop p "API") "WEBSOCKET") (fields_of default_WEBSOCKET_of_API) ∧
  prop (section_of c "API") "MEMPOOL" = merged (prop (prop p "API") "MEMPOOL") (fields_of default_MEMPOOL_of_API).

Lemma mergeAPI_ok p c : ∃ v, mergeAPI p c = Ok (JsMap.set c "API"%string v) ∧
  (∀ key d, JsMap.get (fields_of default_API) key = Some d → key ≠ "WEBSOCKET"%string → key ≠ "MEMPOOL"%string → prop v key = coalesce (prop (prop p "API") key) d) ∧
  prop v "WEBSOCKET" = merged (prop (prop p "API") "WEBSOCKET") (fields_of default_WEBSOCKET_of_API) ∧
  prop v "MEMPOOL" = merged (prop (prop p "API") "MEMPOOL") (fields_of default_MEMPOOL_of_API).
Proof.
  eexists. split; [reflexivity|]. set (w := Object _). set (m := Object _). split; [|split].
  - intros key d Hg H1 H2. rewrite !prop_set_prop. cbn [set_prop]. rewrite !decide_False by congruence.
    rewrite <- (merged_prop (prop p "API") (fields_of default_API) key d Hg). reflexivity.
  - rewrite prop_set_prop. cbn [set_prop]. rewrite decide_False by discriminate. rewrite prop_set_prop. by rewrite decide_True.
  - rewrite prop_set_prop. cbn [set_prop]. by rewrite decide_True.
Qed.

(** The loop over the sections. *)
Lemma merge_all l p c :
  NoDup l → Forall (λ s, ∃ fields, default_of s = Some (Object fields)) l →
  ∃ c', rfold (λ c section, merge section p c) c l = Ok c' ∧
    ∀ s, section_of c' s = if decide (s ∈ l) then match default_of s with Some (Object fields) => merged (prop p s) fields | _ => Undefined end else section_of c s.
Proof.
  revert c. induction l as [|s l IH]; intros c Hn Hf; [by exists c|]. apply NoDup_cons in Hn as [Hs Hn]. apply Forall_cons in Hf as [[fields Hd] Hf]. cbn [rfold].
  rewrite (merge_ok s p c fields Hd). cbn [mbind result_bind]. destruct (IH (JsMap.set c s (merged (prop p s) fields)) Hn Hf) as (c' & -> & Hc').
  exists c'. split; [done|]. intros s'. rewrite Hc', section_of_set. destruct (decide (s' ∈ l)) as [Hin|Hin].
  - by rewrite decide_True by (by right).
  - destruct (decide (s = s')) as [<-|Hne]; [rewrite decide_True by (by left); by rewrite Hd|].
    rewrite decide_False; [done|]. intros [?|?]%elem_of_cons; by subst.
Qed.

Lemma default_sections :
  Forall (λ e, match e.2 with Object _ => bool_decide (e.1 ∈ plain_sections ++ ["API"; "BITCOIN"; "DEV"; "EPOCH"]%string) = true | _ => True end) defaultConfig.
Proof. repeat (apply Forall_cons; split; [vm_compute; first [reflexivity|exact I]|]). by apply Forall_nil. Qed.

Lemma parse_loaded p base :
  ∃ c, parseConfig p base = resync c ∧ loaded p c ∧ nested_loaded p c ∧ section_of c "DEV_MODE" = coalesce (prop p "DEV_MODE") (Boolean false).
Proof.
  unfold parseConfig. set (c0 := JsMap.set base _ _).
  destruct (merge_all plain_sections p c0) as (c1 & -> & H1); [vm_compute; repeat constructor; set_solver|repeat constructor; eexists; reflexivity|]. cbn [mbind result_bind].
  destruct (mergeAPI_ok p c1) as (api & -> & Hapi & Hws & Hmp). cbn [mbind result_bind]. rewrite (merge_ok "BITCOIN" p _ (fields_of default_BITCOIN) eq_refl). cbn [mbind result_bind].
  rewrite (merge_ok "DEV" p _ (fields_of default_DEV) eq_refl). cbn [mbind result_bind].
  rewrite (merge_ok "EPOCH" p _ (fields_of default_EPOCH) eq_refl). cbn [mbind result_bind].
  eexists. split; [reflexivity|]. split.
  - split.
    + intros section fields Hd Hne. rewrite !section_of_set.
      repeat (case_decide; [subst section; injection Hd as <-; reflexivity|]). case_decide; [by subst section|].
      rewrite H1. case_decide as Hin; [by rewrite Hd|]. exfalso. unfold default_of in Hd. apply JsMap.get_elem_of in Hd.
      pose proof default_sections as Hf. rewrite Forall_forall in Hf. specialize (Hf _ Hd). cbn [fst snd] in Hf. apply bool_decide_eq_true in Hf.
      rewrite elem_of_app, !elem_of_cons, elem_of_nil in Hf. naive_solver.
    + rewrite !section_of_set. repeat (rewrite decide_False by discriminate || rewrite decide_True by done). exact Hapi.
  - unfold nested_loaded. rewrite !section_of_set. repeat (rewrite decide_False by discriminate || rewrite decide_True by done).
    split; [done|]. repeat rewrite decide_False by discriminate. rewrite H1.
    rewrite (decide_False (P := _ ∈ _)) by (unfold plain_sections; set_solver). unfold c0. by rewrite section_of_set, decide_True.
Qed.

(** ** The resync mode *)

Definition is_object (v : js_value) : bool := match v with Object _ => true | _ => false end.

(** The settings that the resync mode sets. *)
Definition resync_settings (until : Z) : list ((string * string) * js_value) :=
  [(("DEV", "PROCESS_ONLY_X_BLOCK"), Number (until + 1)); (("INDEXER", "START_INDEXING_UTXO_AT_BLOCK_HEIGHT"), Number until);
   (("OP_NET", "REINDEX"), Boolean true); (("OP_NET", "REINDEX_FROM_BLOCK"), Number 0)]%string.

Lemma resync_spec c c' :
  is_object (section_of c "DEV") = true → is_object (section_of c "INDEXER") = true → is_object (section_of c "OP_NET") = true →
  resync c = Ok c' →
  truthy (prop (section_of c "DEV") "RESYNC_BLOCK_HEIGHTS") = false ∧ c' = c ∨
  ∃ until, prop (section_of c "DEV") "RESYNC_BLOCK_HEIGHTS_UNTIL" = Number until ∧ 0 < until ∧
    ∀ section key, prop (section_of c' section) key =
      match JsMap.get (resync_settings until) (section, key) with Some v => v | None => prop (section_of c section) key end.
Proof.
  intros Hd Hi Ho Hr. unfold resync in Hr. destruct (truthy _); [|injection Hr as <-; by left]. right.
  destruct (prop (section_of c "DEV") "RESYNC_BLOCK_HEIGHTS_UNTIL") as [| | |until| | |]; try discriminate Hr.
  case_decide as Hu; [discriminate Hr|]. injection Hr as <-. exists until. split; [done|]. split; [lia|]. intros section key.
  destruct (section_of c "DEV") as [| | | | | |fd] eqn:Ed; try discriminate Hd. destruct (section_of c "INDEXER") as [| | | | | |fi] eqn:Ei; try discriminate Hi.
  destruct (section_of c "OP_NET") as [| | | | | |fo] eqn:Eo; try discriminate Ho.
  rewrite !section_of_set. cbn [JsMap.get resync_settings].
  destruct (decide ("OP_NET"%string = section)) as [<-|H1]; [|destruct (decide ("INDEXER"%string = section)) as [<-|H2]; [|destruct (decide ("DEV"%string = section)) as [<-|H3]]].
  - rewrite !(decide_False (P := "INDEXER"%string = _)), !(decide_False (P := "DEV"%string = _)) by discriminate. rewrite Eo, !prop_set_prop. cbn [set_prop].
    repeat case_decide; try congruence; done.
  - rewrite !(decide_False (P := "DEV"%string = _)) by discriminate. rewrite Ei, !prop_set_prop. repeat case_decide; try congruence; done.
  - rewrite ?decide_True by done. rewrite !prop_set_prop. repeat case_decide; try congruence; done.
  - repeat case_decide; try congruence; done.
Qed.

Lemma resync_dev_mode c c' : resync c = Ok c' → section_of c' "DEV_MODE" = section_of c "DEV_MODE".
Proof.
  unfold resync. repeat case_match; intros H'; simplify_eq; try done. rewrite !section_of_set. by repeat rewrite decide_False by discriminate.
Qed.

Lemma loaded_objects p c :
  loaded p c → is_object (section_of c "DEV") = true ∧ is_object (section_of c "INDEXER") = true ∧ is_object (section_of c "OP_NET") = true.
Proof.
  intros [Hl _]. rewrite (Hl "DEV"%string (fields_of default_DEV)), (Hl "INDEXER"%string (fields_of default_INDEXER)),
    (Hl "OP_NET"%string (fields_of default_OP_NET)) by (reflexivity || discriminate). done.
Qed.

(** in a configuration that resyncs, the last block is the one the resync
    stops at, which is positive, the outputs are indexed from it, and the node
    reindexes from the first block. *)
Theorem resync_mode_reindexes p base c :
  parseConfig p base = Ok c → truthy (prop (section_of c "DEV") "RESYNC_BLOCK_HEIGHTS") = true →
  ∃ until, 0 < until ∧ prop (section_of c "DEV") "RESYNC_BLOCK_HEIGHTS_UNTIL" = Number until ∧
    prop (section_of c "DEV") "PROCESS_ONLY_X_BLOCK" = Number (until + 1) ∧
    prop (section_of c "INDEXER") "START_INDEXING_UTXO_AT_BLOCK_HEIGHT" = Number until ∧
    prop (section_of c "OP_NET") "REINDEX" = Boolean true ∧ prop (section_of c "OP_NET") "REINDEX_FROM_BLOCK" = Number 0.
Proof.
  destruct (parse_loaded p base) as (c0 & -> & Hl & _). intros Hr Ht. apply loaded_objects in Hl as (H1 & H2 & H3).
  destruct (resync_spec c0 c H1 H2 H3 Hr) as [[Hf ->]|(until & Hu & Hp & Hs)]; [congruence|].
  exists until. split; [done|]. rewrite !Hs. by repeat split.
Qed.

(** ** The types of the settings *)

(** The checks of a section cover its settings. *)
Definition covered (section : string) (key : string) (d : js_value) : bool :=
  bool_decide ((section, key) ∈ untyped) ||
  match type_of d with
  | Some t => strict (checks_of section) key t || bool_decide ((section, key) ∈ falsy_allowed) && loose (checks_of section) key t
  | None => false
  end.

Definition section_covered (e : string * js_value) : bool :=
  match e.2 with Object fields => forallb (λ f, covered e.1 f.1 f.2 && (negb (bool_decide (type_of f.2 = None)) || bool_decide ((e.1, f.1) ∈ untyped))) fields | _ => true end.

Lemma defaults_covered : forallb section_covered defaultConfig = true.
Proof. vm_compute. reflexivity. Qed.

Lemma default_covered section fields key d :
  default_of section = Some (Object fields) → JsMap.get fields key = Some d → (section, key) ∉ untyped →
  ∃ t, type_of d = Some t ∧ (strict (checks_of section) key t = true ∨ (section, key) ∈ falsy_allowed ∧ loose (checks_of section) key t = true).
Proof.
  intros Hs%JsMap.get_elem_of Hk%JsMap.get_elem_of Hn. pose proof defaults_covered as Hc. rewrite forallb_forall in Hc.
  apply list_elem_of_In in Hs, Hk. specialize (Hc _ Hs). cbn [section_covered fst snd] in Hc. unfold section_covered in Hc. cbn [fst snd] in Hc.
  rewrite forallb_forall in Hc. specialize (Hc _ Hk). cbn [fst snd] in Hc. apply andb_true_iff in Hc as [Hc _]. unfold covered in Hc.
  rewrite bool_decide_false in Hc by done. cbn in Hc. destruct (type_of d) as [t|]; [|done]. exists t. split; [done|].
  apply orb_true_iff in Hc as [Hc|[Hc1 Hc2]%andb_true_iff]; [by left|right]. by apply bool_decide_eq_true in Hc1.
Qed.

Lemma same_type_of d v t : type_of d = Some t → v = Undefined ∨ has_type t v = true → same_type d (coalesce v d) = true.
Proof. intros Ht [->|Hv]; destruct d; try discriminate Ht; injection Ht as <-; try done; destruct v; done. Qed.

(** A value that is given is of the type of the default, or falsy. *)
Lemma merged_typed section p fields key d :
  verifySections p = Ok tt → default_of section = Some (Object fields) → JsMap.get fields key = Some d → (section, key) ∉ untyped →
  let v := coalesce (prop (prop p section) key) d in
  same_type d v = true ∨ (section, key) ∈ falsy_allowed ∧ truthy v = false.
Proof.
  intros Hv Hs Hk Hn v. destruct (default_covered section fields key d Hs Hk Hn) as (t & Ht & Hc).
  destruct (truthy (prop p section)) eqn:Htr.
  2:{ left. apply (same_type_of d _ t); [done|]. left. by destruct (prop p section). }
  apply (sections_checked p section) in Hv; [|done]. destruct Hc as [Hc|[Hf Hc]].
  - left. apply (same_type_of d _ t); [done|]. by apply (strict_spec (checks_of section)).
  - apply (loose_spec _ _ _ _ Hv) in Hc as [Hc|Hc]; [|left; apply (same_type_of d _ t); auto].
    unfold v. destruct (prop (prop p section) key); try (by right); left; exact (same_type_of d Undefined t Ht (or_introl eq_refl)).
Qed.

Lemma nested_typed (l : list check) s fields key d :
  (truthy s = true → run_checks l s = Ok tt) → JsMap.get fields key = Some d →
  forallb (λ f, match type_of f.2 with Some t => strict l f.1 t | None => false end) fields = true →
  same_type d (prop (merged s fields) key) = true.
Proof.
  intros Hl Hk Hf. rewrite (merged_prop s fields key d Hk). apply JsMap.get_elem_of, list_elem_of_In in Hk.
  rewrite forallb_forall in Hf. specialize (Hf _ Hk). cbn [fst snd] in Hf. destruct (type_of d) as [t|] eqn:Ht; [|done].
  apply (same_type_of d _ t); [done|]. destruct (truthy s) eqn:Hs; [by apply (strict_spec l); auto|]. left. by destruct s.
Qed.

Lemma nested_checked p :
  verifySections p = Ok tt →
  (truthy (prop (prop p "API") "WEBSOCKET") = true → run_checks WEBSOCKET_checks (prop (prop p "API") "WEBSOCKET") = Ok tt) ∧
  (truthy (prop (prop p "API") "MEMPOOL") = true → run_checks API_MEMPOOL_checks (prop (prop p "API") "MEMPOOL") = Ok tt).
Proof.
  intros Hv. assert (verifyAPI p = Ok tt) as Ha.
  { unfold verifySections in Hv.
    repeat match type of Hv with (_ ← ?x; _) = Ok tt => let E := fresh "E" in destruct x as [[]|] eqn:E; cbn [mbind result_bind] in Hv; [|discriminate Hv] end. done. }
  unfold verifyAPI, verifyWebSocketConfig, verifyAPIMempoolConfig in Ha. destruct (verifySection "API" API_more_checks p) as [[]|]; cbn [mbind result_bind] in Ha; [|discriminate Ha].
  destruct (truthy (prop p "API")) eqn:Ht; [|split; intros Hn; destruct (prop p "API"); done].
  destruct (truthy (prop (prop p "API") "WEBSOCKET")) eqn:Hw; cbn [mbind result_bind] in Ha.
  - destruct (run_checks WEBSOCKET_checks _) as [[]|]; cbn [mbind result_bind] in Ha; [|discriminate Ha]. split; [done|]. intros Hm. by rewrite Hm in Ha.
  - split; [done|]. intros Hm. by rewrite Hm in Ha.
Qed.

Lemma dev_mode_checked p : verifySections p = Ok tt → same_type (Boolean false) (coalesce (prop p "DEV_MODE") (Boolean false)) = true.
Proof.
  intros Hv. assert (verifyDevMode p = Ok tt) as Hd.
  { unfold verifySections in Hv.
    repeat match type of Hv with (_ ← ?x; _) = Ok tt => let E := fresh "E" in destruct x as [[]|] eqn:E; cbn [mbind result_bind] in Hv; [|discriminate Hv] end. done. }
  unfold verifyDevMode in Hd. by destruct (prop p "DEV_MODE").
Qed.

Lemma encodePassword_other p p' section : encodePassword p = Ok p' → section ≠ "DATABASE"%string → prop p' section = prop p section.
Proof.
  intros He Hne. unfold encodePassword in He. destruct (prop (prop p "DATABASE") "AUTH"); repeat case_match; simplify_eq; try done.
  rewrite prop_set_prop. destruct p; try done. by rewrite decide_False.
Qed.

Lemma same_type_resync until section key v d fields :
  JsMap.get (resync_settings until) (section, key) = Some v → default_of section = Some (Object fields) → JsMap.get fields key = Some d → same_type d v = true.
Proof.
  intros Hr Hs Hk. cbn [JsMap.get resync_settings] in Hr.
  repeat match type of Hr with context [decide ?P] =>
    destruct (decide P) as [E|_]; [injection E as -> ->; injection Hr as <-; injection Hs as <-; vm_compute in Hk; by injection Hk as <-|] end.
  discriminate Hr.
Qed.

Lemma database_untyped key d : JsMap.get (fields_of default_DATABASE) key = Some d → ("DATABASE"%string, key) ∈ untyped.
Proof.
  intros Hk%JsMap.get_elem_of%list_elem_of_In.
  assert (forallb (λ f, bool_decide (("DATABASE"%string, f.1) ∈ untyped)) (fields_of default_DATABASE) = true) as Hf by (vm_compute; reflexivity).
  rewrite forallb_forall in Hf. specialize (Hf _ Hk). by apply bool_decide_eq_true_1 in Hf.
Qed.

Lemma nested_untyped : ("API", "WEBSOCKET")%string ∈ untyped ∧ ("API", "MEMPOOL")%string ∈ untyped.
Proof. split; (apply (bool_decide_unpack _); vm_compute; exact I). Qed.

(** C37: when a configuration is accepted and merged, every setting, but for those of
    [untyped], has a value of the type of its default, or, for those of
    [falsy_allowed], a falsy one; and so has every setting of the WebSocket and
    of the queries of the mempool, and [DEV_MODE], which is in no section. *)
Theorem loaded_settings_typed super p p' base c :
  verifyConfig super false p = Ok (true, p') → parseConfig p' base = Ok c →
  (∀ section fields key d, default_of section = Some (Object fields) → JsMap.get fields key = Some d → (section, key) ∉ untyped →
     same_type d (prop (section_of c section) key) = true ∨ (section, key) ∈ falsy_allowed ∧ truthy (prop (section_of c section) key) = false) ∧
  (∀ key d, JsMap.get (fields_of default_WEBSOCKET_of_API) key = Some d → same_type d (prop (prop (section_of c "API") "WEBSOCKET") key) = true) ∧
  (∀ key d, JsMap.get (fields_of default_MEMPOOL_of_API) key = Some d → same_type d (prop (prop (section_of c "API") "MEMPOOL") key) = true) ∧
  same_type (Boolean false) (section_of c "DEV_MODE") = true.
Proof.
  intros Hv Hp. unfold verifyConfig in Hv. destruct (super p) as [[]|]; cbn [mbind result_bind] in Hv; [|discriminate Hv].
  destruct (verifySections p) as [[]|] eqn:Hs; cbn [mbind result_bind] in Hv; [|discriminate Hv].
  destruct (encodePassword p) as [p1|] eqn:He; cbn [mbind result_bind] in Hv; [|discriminate Hv]. injection Hv as <-.
  destruct (parse_loaded p1 base) as (c0 & Hc0 & Hl & [Hw Hm] & Hdev). rewrite Hc0 in Hp. destruct (loaded_objects _ _ Hl) as (H1 & H2 & H3). destruct Hl as [Hl Ha].
  assert (∀ section key, prop (section_of c section) key = prop (section_of c0 section) key ∨
    ∃ until v, JsMap.get (resync_settings until) (section, key) = Some v ∧ prop (section_of c section) key = v) as Hc.
  { intros section key. destruct (resync_spec c0 c H1 H2 H3 Hp) as [[_ ->]|(until & _ & _ & Hr)]; [by left|]. rewrite Hr.
    destruct (JsMap.get (resync_settings until) (section, key)) as [v|] eqn:Hg; [right; by exists until, v|by left]. }
  split; [|split; [|split; [|rewrite (resync_dev_mode c0 c Hp), Hdev, (encodePassword_other p p1) by done; by apply dev_mode_checked]]].
  - intros section fields key d Hd Hk Hn. destruct (Hc section key) as [->|(until & v & Hr & ->)]; [|left; by apply (same_type_resync until section key v d fields)].
    assert (section ≠ "DATABASE"%string) as Hdb.
    { intros ->. apply Hn. injection Hd as <-. exact (database_untyped key d Hk). }
    pose proof (merged_typed section p fields key d Hs Hd Hk Hn) as Ht. cbn zeta in Ht.
    destruct (decide (section = "API"%string)) as [->|Hne].
    + injection Hd as <-. rewrite (Ha key d Hk); [by rewrite (encodePassword_other p p1) by done|intros ->; by apply Hn, nested_untyped..].
    + rewrite (Hl section fields Hd Hne), (merged_prop _ _ _ _ Hk). by rewrite (encodePassword_other p p1).
  - intros key d Hk. destruct (Hc "API"%string "WEBSOCKET"%string) as [->|(until & v & Hr & _)]; [|discriminate Hr]. rewrite Hw.
    apply (nested_typed WEBSOCKET_checks); [|done|vm_compute; reflexivity]. rewrite (encodePassword_other p p1) by done. by apply nested_checked.
  - intros key d Hk. destruct (Hc "API"%string "MEMPOOL"%string) as [->|(until & v & Hr & _)]; [|discriminate Hr]. rewrite Hm.
    apply (nested_typed API_MEMPOOL_checks); [|done|vm_compute; reflexivity]. rewrite (encodePassword_other p p1) by done. by apply nested_checked.
Qed.

(** ** The sample configuration (config/btc.sample.conf) *)

Definition sample : js_value :=
  Object
  [("DEBUG_LEVEL"%string, Number 4);
   ("DEV_MODE"%string, Boolean true);
   ("DEV"%string, Object
      [("PROCESS_ONLY_X_BLOCK"%string, Number 0);
       ("DEBUG_TRANSACTION_FAILURE"%string, Boolean true);
       ("DEBUG_TRANSACTION_PARSE_FAILURE"%string, Boolean true);
       ("DEBUG_VALID_TRANSACTIONS"%string, Boolean true);
       ("DEBUG_API_ERRORS"%string, Boolean false);
       ("CAUSE_FETCHING_FAILURE"%string, Boolean false);
       ("DISPLAY_VALID_BLOCK_WITNESS"%string, Boolean false);
       ("DISPLAY_INVALID_BLOCK_WITNESS"%string, Boolean false);
       ("SAVE_TIMEOUTS_TO_FILE"%string, Boolean true);
       ("SIMULATE_HIGH_GAS_USAGE"%string, Boolean false);
       ("RESYNC_BLOCK_HEIGHTS"%string, Boolean false);
       ("RESYNC_BLOCK_HEIGHTS_UNTIL"%string, Number 0)]);
   ("RPC"%string, Object
      [("CHILD_PROCESSES"%string, Number 8);
       ("THREADS"%string, Number 6);
       ("VM_CONCURRENCY"%string, Number 30)]);
   ("BITCOIN"%string, Object
      [("CHAIN_ID"%string, Number 0);
       ("NETWORK"%string, String "mainnet")]);
   ("POC"%string, Object
      [("ENABLED"%string, Boolean true)]);
   ("MEMPOOL"%string, Object
      [("THREADS"%string, Number 2);
       ("EXPIRATION_BLOCKS"%string, Number 20);
       ("ENABLE_BLOCK_PURGE"%string, Boolean true)]);
   ("INDEXER"%string, Object
      [("ENABLED"%string, Boolean true);
       ("BLOCK_UPDATE_METHOD"%string, String "RPC");
       ("STORAGE_TYPE"%string, String "MONGODB");
       ("READONLY_MODE"%string, Boolean false);
       ("START_INDEXING_UTXO_AT_BLOCK_HEIGHT"%string, Number 800000);
       ("ALLOW_PURGE"%string, Boolean false);
       ("PURGE_SPENT_UTXO_OLDER_THAN_BLOCKS"%string, Number 1000);
       ("UTXO_SAVE_INTERVAL"%string, Number 120000)]);
   ("OP_NET"%string, Object
      [("MODE"%string, String "ARCHIVE");
       ("REINDEX"%string, Boolean false);
       ("REINDEX_FROM_BLOCK"%string, Number 0);
       ("REINDEX_PURGE_UTXOS"%string, Boolean false);
       ("REINDEX_BATCH_SIZE"%string, Number 1000);
       ("TRANSACTIONS_MAXIMUM_CONCURRENT"%string, Number 100);
       ("PENDING_BLOCK_THRESHOLD"%string, Number 1000);
       ("MAXIMUM_PREFETCH_BLOCKS"%string, Number 12);
       ("VERIFY_INTEGRITY_ON_STARTUP"%string, Boolean false);
       ("DISABLE_SCANNED_BLOCK_STORAGE_CHECK"%string, Boolean true)]);
   ("P2P"%string, Object
      [("IS_BOOTSTRAP_NODE"%string, Boolean false);
       ("CLIENT_MODE"%string, Boolean false);
       ("ENABLE_IPV6"%string, Boolean false);
       ("PRIVATE_MODE"%string, Boolean false);
       ("PRIVATE_NODES"%string, Array []);
       ("P2P_HOST"%string, String "0.0.0.0");
       ("P2P_PORT"%string, Number 9805);
       ("P2P_PROTOCOL"%string, String "tcp");
       ("ENABLE_P2P_LOGGING"%string, Boolean false);
       ("MINIMUM_PEERS"%string, Number 50);
       ("MAXIMUM_PEERS"%string, Number 100);
       ("MAXIMUM_INCOMING_PENDING_PEERS"%string, Number 50);
       ("PEER_INACTIVITY_TIMEOUT"%string, Number 10000);
       ("MAXIMUM_INBOUND_STREAMS"%string, Number 100);
       ("MAXIMUM_OUTBOUND_STREAMS"%string, Number 100);
       ("BOOTSTRAP_NODES"%string, Array []);
       ("TRUSTED_VALIDATORS"%string, Array []);
       ("TRUSTED_VALIDATORS_CHECKSUM_HASH"%string, String "")]);
   ("API"%string, Object
      [("ENABLED"%string, Boolean true);
       ("PORT"%string, Number 9000);
       ("THREADS"%string, Number 16);
       ("UTXO_LIMIT"%string, Number 2000);
       ("MAXIMUM_PENDING_REQUESTS_PER_THREADS"%string, Number 1000);
       ("BATCH_PROCESSING_SIZE"%string, Number 15);
       ("MAXIMUM_PARALLEL_BLOCK_QUERY"%string, Number 50);
       ("MAXIMUM_REQUESTS_PER_BATCH"%string, Number 500);
       ("MAXIMUM_PENDING_CALL_REQUESTS"%string, Number 200);
       ("MAXIMUM_TRANSACTION_BROADCAST"%string, Number 80)]);
   ("BLOCKCHAIN"%string, Object
      [("BITCOIND_HOST"%string, String "your-ip");
       ("BITCOIND_PORT"%string, Number 8000);
       ("BITCOIND_USERNAME"%string, String "");
       ("BITCOIND_PASSWORD"%string, String "")]);
   ("DATABASE"%string, Object
      [("HOST"%string, String "mongodb");
       ("PORT"%string, Number 27017);
       ("DATABASE_NAME"%string, String "BTCMainnet");
       ("AUTH"%string, Object
          [("USERNAME"%string, String "opnet");
           ("PASSWORD"%string, String "opnet")])]);
   ("SSH"%string, Object
      [("ENABLED"%string, Boolean false);
       ("PORT"%string, Number 4800);
       ("HOST"%string, String "0.0.0.0");
       ("NO_AUTH"%string, Boolean false);
       ("USERNAME"%string, String "opnet");
       ("PASSWORD"%string, String "opnet");
       ("PUBLIC_KEY"%string, String "");
       ("ALLOWED_IPS"%string, Array [String "127.0.0.1"; String "0.0.0.0"; String "localhost"])]);
   ("DOCS"%string, Object
      [("ENABLED"%string, Boolean false);
       ("PORT"%string, Number 7000)])].

Definition no_super (p : js_value) : result string unit := Ok tt.

(** A section of the sample without one of its settings, or with another. *)
Definition without (section key : string) : js_value :=
  set_prop sample section match prop sample section with Object fields => Object (JsMap.del fields key) | v => v end.
Definition replaced (section key : string) (v : js_value) : js_value := set_prop sample section (set_prop (prop sample section) key v).

(** It is accepted; a password that is not there becomes the text of [undefined]. *)
Example sample_accepted :
  is_ok (verifyConfig no_super false sample) = true ∧
  ((λ r, prop (prop (prop r.2 "DATABASE") "AUTH") "PASSWORD") <$> verifyConfig no_super false (set_prop sample "DATABASE" (Object [("AUTH"%string, Object [])]))) =
    Ok (String "undefined").
Proof. split; vm_compute; reflexivity. Qed.

(** Settings that have a default must be there, once their section is. *)
Example required_settings :
  verifyConfig no_super false (without "DEV" "SIMULATE_HIGH_GAS_USAGE") = Throw "Oops the property DEV.SIMULATE_HIGH_GAS_USAGE is not a boolean."%string ∧
  verifyConfig no_super false (without "OP_NET" "REINDEX") = Throw "Oops the property OP_NET.REINDEX is not a boolean."%string ∧
  verifyConfig no_super false (without "INDEXER" "STORAGE_TYPE") =
    Throw "Oops the property INDEXER.STORAGE_TYPE is not a valid IndexerStorageType enum value."%string.
Proof. split; [vm_compute; reflexivity|]. split; vm_compute; reflexivity. Qed.

(** Values that no enum has are accepted, and settings of another type. *)
Example accepted_values :
  is_ok (verifyConfig no_super false (replaced "OP_NET" "MODE" (String "toString"))) = true ∧
  is_ok (verifyConfig no_super false (replaced "BITCOIN" "NETWORK" (Array [String "mainnet"]))) = true ∧
  is_ok (verifyConfig no_super false (replaced "P2P" "P2P_PROTOCOL" (String "none"))) = true ∧
  is_ok (verifyConfig no_super false (replaced "DEV" "SIMULATE_HIGH_GAS_USAGE" (String "no"))) = true ∧
  is_ok (verifyConfig no_super false (replaced "P2P" "MAXIMUM_INCOMING_PENDING_PEERS" (String "many"))) = true.
Proof. repeat (split; [vm_compute; reflexivity|]). vm_compute. reflexivity. Qed.

(** A resync that has no end is refused. *)
Example resync_needs_height :
  is_ok (parseConfig (replaced "DEV" "RESYNC_BLOCK_HEIGHTS" (Boolean true)) []) = false ∧ is_ok (parseConfig sample []) = true.
Proof. split; vm_compute; reflexivity. Qed.

Definition resynced : js_value :=
  set_prop sample "DEV" (set_prop (set_prop (prop sample "DEV") "RESYNC_BLOCK_HEIGHTS" (Boolean true)) "RESYNC_BLOCK_HEIGHTS_UNTIL" (Number 900000)).
Definition resynced_config : config := Eval vm_compute in match parseConfig resynced [] with Ok c => c | Throw _ => [] end.

Lemma resynced_parses : parseConfig resynced [] = Ok resynced_config.
Proof. vm_compute. reflexivity. Qed.

Lemma resync_mode_reindexes_witness : ∃ until, 0 < until ∧ prop (section_of resynced_config "DEV") "PROCESS_ONLY_X_BLOCK" = Number (until + 1).
Proof.
  destruct (resync_mode_reindexes resynced [] resynced_config resynced_parses eq_refl) as (until & Hu & _ & Hp & _). by exists until.
Defined.

Definition sample_checked : js_value := Eval vm_compute in match verifyConfig no_super false sample with Ok r => r.2 | Throw _ => Undefined end.
Definition sample_config : config := Eval vm_compute in match parseConfig sample_checked [] with Ok c => c | Throw _ => [] end.

Lemma sample_verified : verifyConfig no_super false sample = Ok (true, sample_checked).
Proof. vm_compute. reflexivity. Qed.

Lemma sample_parsed : parseConfig sample_checked [] = Ok sample_config.
Proof. vm_compute. reflexivity. Qed.

Lemma loaded_settings_typed_witness :
  same_type (Number 9805) (prop (section_of sample_config "P2P") "P2P_PORT") = true ∧ prop (section_of sample_config "P2P") "P2P_PORT" = Number 9805.
Proof.
  destruct (loaded_settings_typed no_super sample sample_checked [] sample_config sample_verified sample_parsed) as [H _].
  split; [|reflexivity]. destruct (H "P2P"%string (fields_of default_P2P) "P2P_PORT"%string (Number 9805)) as [Ht|[Hf _]].
  - reflexivity.
  - reflexivity.
  - intros Hn. apply (bool_decide_pack _) in Hn. vm_compute in Hn. exact Hn.
  - exact Ht.
  - apply (bool_decide_pack _) in Hf. vm_compute in Hf. destruct Hf.
Defined.
